(* ===== verification/_CoqProject ===== *)
-Q . S2P
Prelude.v
PyStr.v
Json.v
Canonical.v
Regex.v
Validation.v
Access.v
Temporal.v
History.v
Database.v
Schema.v
EventRelay.v
Calendar.v
Parsing.v
Encoding.v
JsonParse.v
Base64.v
Secrets.v
Tokens.v
Accounts.v
AgentClients.v
FactRepo.v
EvidenceService.v
FactService.v
Ledger.v
AppendOnly.v
TemporalService.v
Ranking.v
Generation.v
Retrieval.v
Grounding.v
ContradictionService.v
Store.v
Authentication.v
Idempotency.v
Retries.v
McpState.v
AgentAccess.v
RetrievalCache.v
Consumers.v
EventFlow.v
EmbeddingQueue.v
Leases.v
Drained.v
Decisions.v
Receipts.v
Sealing.v
Capture.v
Investigator.v
Investigations.v
Revocations.v
ProvenanceGraph.v
GraphWorker.v
EventPayloads.v
Provenance.v
Impact.v
World.v
McpTools.v
Providers.v
Config.v
Logging.v
Http.v
ApiSchemas.v
Api.v
ApiReads.v
Startup.v
Scenario.v
ScenarioStore.v
ScenarioSearch.v
ScenarioDecisions.v
ScenarioEvents.v
ScenarioQueue.v
ScenarioGraph.v
ScenarioAgents.v
ScenarioRetries.v
ScenarioInvestigations.v
ScenarioMcp.v
ScenarioProviders.v
ScenarioApi.v
