(* ===== verification/Prelude.v ===== *)
(** * ContextLedger, verified

    ContextLedger is a multi-tenant ledger of facts about business entities. A fact
    has versions that are valid over a period and recorded at an instant; answers
    and decisions rest on what was valid at T as known at K, cite evidence, and are
    sealed by receipts. The backend (src/backend/app) is a set of services over one
    PostgreSQL database, with a shared key-value store, an event pipeline and two
    kinds of workers around it. This library translates that backend and proves
    what it is for.

    ** How the program is modelled

    The database is one record, [Database.db]: a list of rows per table, two clocks
    and a supply of identifiers. Statements ([exec_insert], [exec_update],
    [exec_delete] of Schema.v) check the constraints and run the triggers of the
    migrations, so an operation fails where PostgreSQL would. Operations live in
    the state-and-exception monad [ST] below: a raised exception keeps the state it
    reached, and a transaction ([db_transaction], [in_transaction]) restores it.
    What runs concurrently is an explicit argument: what other transactions commit
    between two of ours ([others], the environments of workers), whether a commit
    is lost, which rows another session has locked. A service operation is one
    definition with every guard of the code, in the order of the code.

    What the repository does not contain is a parameter of a section or a class
    with named laws (a hash, a tokenizer, a language model, a broker, Redis, the
    scores of a text index), and the Scenario files give each a concrete
    instance on which the theorems are applied.

    ** The files

    - Prelude, PyStr, Json, Canonical, Encoding, Regex, Calendar: Python's strings,
      [json.dumps], UTF-8, [re.fullmatch] and ISO instants, with the facts that the
      text of a document determines the document.  Parsing, JsonParse, Base64: int(),
      UUID(), split(), [json.loads] and base64, each with its round trip.
    - Access, Validation, Temporal: app/domain (roles, permissions, privacy, every
      normaliser) and app/temporal (the bitemporal reference semantics).
      History proves the semantics of one well-formed chain.
    - Database, Schema: app/models and migrations/versions.
    - Accounts: users, organizations, memberships, authorization.
    - FactRepo, FactService, EvidenceService: the write path of facts and evidence;
      Ledger proves that it keeps every chain well formed, AppendOnly that no statement
      changes the rows that the triggers protect.
    - TemporalService: the SQL of temporal questions and the services over it.
    - Ranking, Retrieval, Generation, Grounding: hybrid search and grounded answers.
      Providers: the OpenAI providers (app/ai/providers.py, app/providers/embeddings.py)
      over an HTTP client, an instance of the interface of Generation.
    - Investigator: the tools and the loop of app/ai/agent and the stored traces of
      services/investigations.py, over an interface of the services it calls;
      Investigations proves what a run sees, cites and leaves behind.
    - ContradictionService, Decisions, Revocations: services of the same names;
      Receipts, Sealing and Capture prove what a receipt and a snapshot guarantee.
    - Store, RetrievalCache: app/cache (store, rate limiter, OAuth states, results).
      Idempotency: the middleware of app/cache/idempotency.py and the body limit of
      app/core/security.py around an application; Retries proves what a key guarantees.
    - EventRelay, Consumers: app/events and the two event workers; EventFlow joins
      them with a drained outbox, EventPayloads with the triggers and their payloads.
      EmbeddingQueue: the embedding jobs and their worker; Leases proves the protocol
      of the leases, Drained what a drain leaves to do.
    - ProvenanceGraph, GraphWorker, Provenance: app/provenance as a property graph
      with the effects of its Cypher statements, the projector over the graph outbox
      (app/workers/graph.py) and the queries of services/provenance.py; Impact
      compares a report with the SQL that revocations run.
    - McpState, McpTools: app/mcp, the session state over the shared store and the
      thirteen tools over the services, with the ceiling of the agent.
    - Secrets, Tokens: app/auth over scrypt and PyJWT; AgentClients:
      services/agent_clients.py; Authentication: who a request acts for
      (api/dependencies.py); AgentAccess: what a client's token lets it do.
    - World: the state that one request of the process works on: the database, the
      key-value store, the graph.  Config: app/core/config.py with its validators, and
      the builders that read it.  Logging: the filter and the JSON line of
      app/core/logging.py.  Http: the middleware of app/core, the handlers of
      app/api/errors.py and the metrics endpoint, around an application of ASGI messages.
    - ApiSchemas: the request schemas of app/schemas with their bounds.  Api, ApiReads:
      the endpoints of app/api/v1 over the services, each with its dependencies
      (authentication, rate limit, tenant); ApiReads proves what a reader is shown.
      Startup: app/main.py and the roles of a process, from settings to middleware.
    - Scenario*: concrete runs.

    ** What the theorems show

    - Accounts: an organization never loses its last ADMIN; a permission check uses
      the stored role, never the one in the token.
    - Ledger: recording keeps the chains well formed, appends exactly one version
      and changes no earlier answer; a question has at most one answer; the SQL
      gives the answer of the reference semantics, minus revoked versions, and
      revocation is bitemporal too.
    - Retrieval and answers: only visible facts are returned, cached and cited,
      whatever other transactions do meanwhile; an answer is released exactly when
      the labels it cites exist; fusion is a permutation-independent ranking.
    - Decisions: the receipt hash binds the content; a recorded decision is sealed
      and cites only its frozen context; a receipt hides what its reader may not
      see; a revocation records every decision that it reaches.
    - Providers: a generation posts and waits within its bounds, tries again only after
      a retryable outcome, and its result is that of one response.
    - Investigations: a run ends within its budget of calls and steps, cites only ids
      its tools returned, sees one organization, and is stored or refused.
    - MCP: what five reading tools show lies within the agent's ceiling; a session
      refines an abstract memory.  Two other tools go beyond it: ScenarioMcp runs them
      (two_tools_show_above_the_ceiling).
    - Settings and start-up: settings that load are well formed, and a process of
      staging or production started from them answers a request without a bearer token
      with an error that is fixed before any state is read, gives no development token,
      shows no metrics in the open and embeds with the real provider.
    - REST: the reading endpoints show a credential with a ceiling nothing above it; a
      write is followed by searches that do not see results of before; a number that a
      schema lets through is one that the domain accepts; every response carries a
      correlation id, the one of its log line, and the security headers, errors and
      refusals included.
    - Stores: the rate limit bounds, over every interval, the requests that the store
      answered for (it lets the others pass); OAuth states are single-use, invalidation
      orphans entries while the counter lives.  A command that got no answer may have
      been executed all the same.
    - Retries: while a request holds an idempotency key no other is executed under it,
      and a retry of a successful one is answered from the store, byte for byte, as long
      as no request under the same key outlives its lock and then fails
      (late_release_frees_the_key of ScenarioRetries runs one that does); a body that
      passes the limit midway is executed all the same.
    - Events: the columns that a trigger copies are the fields that consumers read;
      nothing that a trigger put in the outbox is lost by the relay, the drain loop
      ends, consumers skip no message, and the activity counters count each event
      once however often it is delivered.
    - Graph: as long as one projector runs at a time, the graph converges to the one
      rebuilt from the rows, whatever fails in between, and then an impact report is the
      SQL answer; two projectors can leave it stale.
    - Agents: what a token says is what was issued, and an agent acts only inside
      its organization, scopes and privacy ceiling, until it is revoked.
    - Jobs: leases exclude each other, an outcome is recorded only by the holder,
      and a drain by a worker that is alone, ended before its limit of batches, leaves
      no version without an embedding or a job that cannot be claimed yet.

    ** Bounds and fuel

    Recursion follows the data or a bound of the code: the [max_batches] of a drain of
    the embedding queue, the [max_attempts] and [max_retries] of retries, the
    [max_steps] of an investigation. Two loops of the code have no bound and take fuel:
    the drain loops of the relay and of the projector, which return None when the fuel
    ends; drain_empties_the_outbox shows for the relay that one unit more than the
    pending events is enough. Scanners of text take the length of the text, and paths in
    the graph their greatest length, as fuel. Integers of Python are [Z];
    BIGINT and INTEGER columns are checked by the constraints of the schema, not
    wrapped. Instants are microseconds, and the text of an instant is defined for
    the years 1 to 9999.

    ** What is not modelled

    - Values interpolated in exception texts, the columns created_at and updated_at that
      no code reads, the lower-case check of e-mail addresses, the trigger that requeues
      an embedding on update, and indexes that constrain nothing.
    - Isolation below serial transactions, except where an argument of the
      definition says what others do. PostgreSQL's text order is the code point
      order.
    - Floating point: scores and vectors are abstract, with the order the code needs.
    - Sleeping between retries outside the providers, latencies and the values of
      metrics, tracing, the configuration of the log handlers, the export of the
      documentation.
    - FastAPI's routing and how pydantic reads a JSON body, whose typed values are the
      arguments of the endpoints; the JSON that the MCP tools write and the schemas of
      their arguments; the HTTP client, Kafka and Redis, which are parameters where a
      modelled part calls them; the Neo4j driver and its indexes; LangChain, a parameter
      of the investigator; alembic's environment; the evaluation programs, the scripts,
      the frontend and the infrastructure. *)

From stdpp Require Export prelude sorting strings.
From Stdlib Require Export ZArith Lia.
Open Scope Z_scope.

(** * Identifiers, clocks, text *)

(** A UUID is compared and ordered as a 128-bit number; [str(uuid)] is a
    fixed-width hexadecimal text, so its order is the same. *)
Abbreviation UUID := Z (only parsing).

(** An aware datetime is an instant: microseconds since the epoch, UTC. *)
Abbreviation Instant := Z (only parsing).

(** A Python [str] is its sequence of code points. *)
Abbreviation pystr := (list Z) (only parsing).

(** ASCII source literals as Python strings. *)
Fixpoint py (s : string) : pystr :=
  match s with
  | EmptyString => []
  | String c s' => Z.of_nat (Ascii.nat_of_ascii c) :: py s'
  end.
Arguments py s%_string.

(** * Errors *)

(** The exceptions of app/domain/errors.py plus those the database driver and
    the language raise on the modelled paths. The text of an exception is the
    template of the f-string that builds it: the values it interpolates carry
    no control flow and are left out. *)
Inductive exn :=
  | ValidationFailedError (msg : string)
  | NotFoundError (msg : string)
  | ConflictError (msg : string)
  | PermissionDeniedError (msg : string)
  | InvariantViolationError (msg : string)
  | IntegrityError (constraint : string)
  | RestrictViolation (trigger : string)
  | DataError (msg : string)
  | MultipleResultsFound
  | NoResultFound
  | StopIteration
  | TypeError
  | KeyError
  | IndexError
  | StoreUnavailableError
  | GenerationError (name : string)       (* the subclass raised *)
  | AnswerGenerationError (msg cause : string)
  | InvestigationError (cause : string)
  | JSONDecodeError
  | InvalidOperation
  | UnicodeEncodeError
  | ValueError
  | UnknownEventTypeError
  | PermanentEventError (msg : string)
  | EmbeddingProviderError (msg : string)
  | InvalidTokenError (msg : string)
  | InvalidClientError (msg : string)
  | InvalidScopeError (msg : string)
  | AuthenticationRequiredError (msg : string)
  | RateLimitedError (limit retry_after_seconds : Z)
  | ServiceUnavailableError (msg : string)
  | ToolError (msg : pystr)
  | LibraryError (name : string).        (* an exception class of a library or driver *)

Arguments ValidationFailedError msg%_string.
Arguments NotFoundError msg%_string.
Arguments ConflictError msg%_string.
Arguments PermissionDeniedError msg%_string.
Arguments InvariantViolationError msg%_string.
Arguments IntegrityError constraint%_string.
Arguments RestrictViolation trigger%_string.
Arguments DataError msg%_string.
Arguments GenerationError name%_string.
Arguments AnswerGenerationError msg%_string cause%_string.
Arguments InvestigationError cause%_string.
Arguments PermanentEventError msg%_string.
Arguments EmbeddingProviderError msg%_string.
Arguments InvalidTokenError msg%_string.
Arguments InvalidClientError msg%_string.
Arguments InvalidScopeError msg%_string.
Arguments AuthenticationRequiredError msg%_string.
Arguments ServiceUnavailableError msg%_string.
Arguments LibraryError name%_string.

#[export] Instance exn_eq_dec : EqDecision exn.
Proof. solve_decision. Defined.

(** Errors a service may raise on purpose: the subclasses of [DomainError]. *)
Definition is_domain_error (e : exn) : bool :=
  match e with
  | ValidationFailedError _ | NotFoundError _ | ConflictError _
  | PermissionDeniedError _ | InvariantViolationError _ => true
  | _ => false
  end.

(** [type(exc).__name__] *)
Definition exn_name (e : exn) : string :=
  match e with
  | ValidationFailedError _ => "ValidationFailedError" | NotFoundError _ => "NotFoundError"
  | ConflictError _ => "ConflictError" | PermissionDeniedError _ => "PermissionDeniedError"
  | InvariantViolationError _ => "InvariantViolationError"
  | IntegrityError _ => "IntegrityError" | RestrictViolation _ => "IntegrityError"
  | DataError _ => "DataError" | MultipleResultsFound => "MultipleResultsFound"
  | NoResultFound => "NoResultFound" | StopIteration => "StopIteration"
  | TypeError => "TypeError" | KeyError => "KeyError" | IndexError => "IndexError"
  | StoreUnavailableError => "StoreUnavailableError" | GenerationError name => name
  | AnswerGenerationError _ _ => "AnswerGenerationError"
  | InvestigationError _ => "InvestigationError" | JSONDecodeError => "JSONDecodeError"
  | InvalidOperation => "InvalidOperation" | UnicodeEncodeError => "UnicodeEncodeError"
  | ValueError => "ValueError" | UnknownEventTypeError => "UnknownEventTypeError"
  | PermanentEventError _ => "PermanentEventError"
  | EmbeddingProviderError _ => "EmbeddingProviderError"
  | InvalidTokenError _ => "InvalidTokenError" | InvalidClientError _ => "InvalidClientError"
  | InvalidScopeError _ => "InvalidScopeError"
  | AuthenticationRequiredError _ => "AuthenticationRequiredError"
  | RateLimitedError _ _ => "RateLimitedError"
  | ServiceUnavailableError _ => "ServiceUnavailableError" | ToolError _ => "ToolError"
  | LibraryError name => name
  end%string.

(** [str(exc)]: the text of an exception, with the values it interpolates. *)
Class ExceptionText := exn_str : exn → pystr.

(** * The result and state monads *)

Inductive result (A : Type) :=
  | Ok (a : A)
  | Err (e : exn).
Arguments Ok {A} a.
Arguments Err {A} e.

#[export] Instance result_ret : MRet result := λ A a, Ok a.
#[export] Instance result_bind : MBind result := λ A B f m,
  match m with Ok a => f a | Err e => Err e end.

Definition is_ok {A} (r : result A) : bool := match r with Ok _ => true | Err _ => false end.

(** [if not b: raise e] *)
Definition ensure (b : bool) (e : exn) : result unit := if b then Ok () else Err e.

(** Computations over a store of type [S] that may raise; the store keeps the
    effects made before the exception (a transaction undoes them, below). *)
Definition ST (S A : Type) : Type := S → result A * S.

#[export] Instance st_ret {S} : MRet (ST S) := λ A a s, (Ok a, s).
#[export] Instance st_bind {S} : MBind (ST S) := λ A B f m s,
  match m s with
  | (Ok a, s') => f a s'
  | (Err e, s') => (Err e, s')
  end.

Definition raise {S A} (e : exn) : ST S A := λ s, (Err e, s).
Definition lift {S A} (r : result A) : ST S A := λ s, (r, s).
Definition gets {S A} (f : S → A) : ST S A := λ s, (Ok (f s), s).
Definition modify {S} (f : S → S) : ST S unit := λ s, (Ok (), f s).
Definition guard_ {S} (b : bool) (e : exn) : ST S unit := lift (ensure b e).

(** [async with session.begin()]: commit on normal exit, roll back when an
    exception leaves the block. *)
Definition transaction {S A} (m : ST S A) : ST S A := λ s,
  match m s with
  | (Ok a, s') => (Ok a, s')
  | (Err e, _) => (Err e, s)
  end.

(** [try: m], the exception as a value. *)
Definition try_ {S A} (m : ST S A) : ST S (result A) := λ s, let '(r, s') := m s in (Ok r, s').

Fixpoint mapM_ {S A B} (f : A → ST S B) (l : list A) : ST S (list B) :=
  match l with
  | [] => mret []
  | x :: l' => y ← f x; ys ← mapM_ f l'; mret (y :: ys)
  end.

Fixpoint mapR {A B} (f : A → result B) (l : list A) : result (list B) :=
  match l with
  | [] => Ok []
  | x :: l' => y ← f x; ys ← mapR f l'; Ok (y :: ys)
  end.

(** SQLAlchemy's [one_or_none], [one] and [.limit(1)] on a row list. *)
Definition one_or_none {A} (l : list A) : result (option A) :=
  match l with
  | [] => Ok None
  | [x] => Ok (Some x)
  | _ => Err MultipleResultsFound
  end.

Definition one {A} (l : list A) : result A :=
  match l with
  | [x] => Ok x
  | [] => Err NoResultFound
  | _ => Err MultipleResultsFound
  end.

(** [WHERE p] on a row list. *)
Definition where_ {A} (p : A → bool) (l : list A) : list A := List.filter p l.

(** * Sorting: Python's [sorted] is a stable sort by a key *)

Fixpoint insert_by {A} (le : A → A → bool) (x : A) (l : list A) : list A :=
  match l with
  | [] => [x]
  | y :: l' => if le x y then x :: l else y :: insert_by le x l'
  end.

Fixpoint sort_by {A} (le : A → A → bool) (l : list A) : list A :=
  match l with
  | [] => []
  | x :: l' => insert_by le x (sort_by le l')
  end.

Definition sort_on {A} (key : A → Z) : list A → list A :=
  sort_by (λ x y, key x <=? key y).

(** [list(dict.fromkeys(l))]: first occurrences, in order. *)
Fixpoint dedup_acc `{EqDecision A} (seen : list A) (l : list A) : list A :=
  match l with
  | [] => []
  | x :: l' => if bool_decide (x ∈ seen) then dedup_acc seen l'
               else x :: dedup_acc (x :: seen) l'
  end.
Definition dict_fromkeys `{EqDecision A} (l : list A) : list A := dedup_acc [] l.

(** Python's [enumerate(l, start=n)]. *)
Fixpoint enumerate_from {A} (n : Z) (l : list A) : list (Z * A) :=
  match l with
  | [] => []
  | x :: l' => (n, x) :: enumerate_from (n + 1) l'
  end.

Definition zlen {A} (l : list A) : Z := Z.of_nat (length l).

(** Lexicographic comparison of code points (Python's [str] order). *)
Fixpoint pystr_leb (a b : pystr) : bool :=
  match a, b with
  | [], _ => true
  | _ :: _, [] => false
  | x :: a', y :: b' => (x <? y) || ((x =? y) && pystr_leb a' b')
  end.

(** * Monad laws used by inversion *)

Section monad_lemmas.
Context {S : Type}.

Lemma st_bind_ok {A B} (m : ST S A) (f : A → ST S B) s b s' :
  (m ≫= f) s = (Ok b, s') ↔ ∃ a s1, m s = (Ok a, s1) ∧ f a s1 = (Ok b, s').
Proof.
  unfold mbind, st_bind. split.
  - destruct (m s) as [[a|e] s1] eqn:E; [eauto | congruence].
  - intros (a & s1 & -> & Hf). exact Hf.
Qed.

Lemma st_bind_err {A B} (m : ST S A) (f : A → ST S B) s e s' :
  (m ≫= f) s = (Err e, s') ↔
  m s = (Err e, s') ∨ ∃ a s1, m s = (Ok a, s1) ∧ f a s1 = (Err e, s').
Proof.
  unfold mbind, st_bind. split.
  - destruct (m s) as [[a|e1] s1] eqn:E; [eauto | left; congruence].
  - intros [-> | (a & s1 & -> & Hf)]; [done | exact Hf].
Qed.

Lemma st_bind_eq {A B} (m : ST S A) (f : A → ST S B) s a s1 :
  m s = (Ok a, s1) → (m ≫= f) s = f a s1.
Proof. unfold mbind, st_bind. by intros ->. Qed.

Lemma st_ret_ok {A} (a b : A) (s s' : S) : (mret a : ST S A) s = (Ok b, s') ↔ b = a ∧ s' = s.
Proof. unfold mret, st_ret. naive_solver. Qed.

Lemma lift_ok {A} (r : result A) (b : A) (s s' : S) : lift r s = (Ok b, s') ↔ r = Ok b ∧ s' = s.
Proof. unfold lift. naive_solver. Qed.

Lemma gets_ok {A} (f : S → A) (b : A) (s s' : S) : gets f s = (Ok b, s') ↔ b = f s ∧ s' = s.
Proof. unfold gets. naive_solver. Qed.

Lemma modify_ok (f : S → S) (u : unit) (s s' : S) : modify f s = (Ok u, s') ↔ s' = f s.
Proof. unfold modify. destruct u. naive_solver. Qed.

Lemma guard_ok b e (u : unit) (s s' : S) : guard_ b e s = (Ok u, s') ↔ b = true ∧ s' = s.
Proof. unfold guard_, lift, ensure. destruct u, b; naive_solver. Qed.

Lemma raise_ok {A} e (a : A) (s s' : S) : raise e s = (Ok a, s') ↔ False.
Proof. unfold raise. naive_solver. Qed.

Lemma try_ok {A} (m : ST S A) (r : result A) s s' : try_ m s = (Ok r, s') ↔ m s = (r, s').
Proof. unfold try_. destruct (m s). naive_solver. Qed.

Lemma transaction_ok {A} (m : ST S A) (a : A) s s' :
  transaction m s = (Ok a, s') ↔ m s = (Ok a, s').
Proof. unfold transaction. destruct (m s) as [[]]; naive_solver. Qed.

(** A failed transaction leaves the store as it was. *)
Lemma transaction_err {A} (m : ST S A) e s s' :
  transaction m s = (Err e, s') ↔ (∃ s1, m s = (Err e, s1)) ∧ s' = s.
Proof. unfold transaction. destruct (m s) as [[]]; naive_solver. Qed.
End monad_lemmas.

Lemma result_bind_ok {A B} (r : result A) (f : A → result B) b :
  (r ≫= f) = Ok b ↔ ∃ a, r = Ok a ∧ f a = Ok b.
Proof. unfold mbind, result_bind. destruct r; naive_solver. Qed.

Lemma result_bind_err {A B} (r : result A) (f : A → result B) e :
  (r ≫= f) = Err e ↔ r = Err e ∨ ∃ a, r = Ok a ∧ f a = Err e.
Proof. unfold mbind, result_bind. destruct r; naive_solver. Qed.

Lemma ensure_ok b e u : ensure b e = Ok u ↔ b = true.
Proof. unfold ensure. destruct u, b; naive_solver. Qed.

Lemma ensure_err b e e' : ensure b e = Err e' ↔ b = false ∧ e' = e.
Proof. unfold ensure. destruct b; naive_solver. Qed.

(** [minv] opens every successful monadic computation among the hypotheses:
    binds into their parts, guards into their conditions. *)
Ltac minv :=
  repeat match goal with
  | H : mbind _ _ _ = (Ok _, _) |- _ => apply st_bind_ok in H as (? & ? & ? & ?)
  | H : mbind _ _ = Ok _ |- _ => apply result_bind_ok in H as (? & ? & ?)
  | H : mret _ _ = (Ok _, _) |- _ =>
      first [apply st_ret_ok in H as [-> ->] | apply st_ret_ok in H as [[= -> ->] ->]]
  | H : lift _ _ = (Ok _, _) |- _ => apply lift_ok in H as [H ->]
  | H : gets _ _ = (Ok _, _) |- _ => apply gets_ok in H as [-> ->]
  | H : modify _ _ = (Ok _, _) |- _ => apply modify_ok in H as ->
  | H : guard_ _ _ _ = (Ok _, _) |- _ => apply guard_ok in H as [H ->]
  | H : raise _ _ = (Ok _, _) |- _ => apply raise_ok in H as []
  | H : try_ _ _ = (Ok _, _) |- _ => apply (proj1 (try_ok _ _ _ _)) in H
  | H : transaction _ _ = (Ok _, _) |- _ => apply (proj1 (transaction_ok _ _ _ _)) in H
  | H : ensure _ _ = Ok _ |- _ => apply ensure_ok in H
  | H : Ok _ = Ok _ |- _ => injection H as ?; subst
  | H : Err _ = Ok _ |- _ => discriminate H
  | H : Ok _ = Err _ |- _ => discriminate H
  | H : (_, _) = (_, _) |- _ => injection H as ? ?; subst
  end.

(** Case analysis on the scrutinee of a [match] in a hypothesis. *)
Ltac case_in H :=
  match type of H with
  | context [match ?x with _ => _ end] => destruct x eqn:?
  end.

(** * Lists *)

Lemma elem_of_where_ {A} (p : A → bool) l x : x ∈ where_ p l ↔ p x = true ∧ x ∈ l.
Proof. unfold where_. rewrite !list_elem_of_In, List.filter_In. tauto. Qed.

Lemma where_app {A} (p : A → bool) l k : where_ p (l ++ k) = where_ p l ++ where_ p k.
Proof. apply List.filter_app. Qed.

Lemma where_nil_iff {A} (p : A → bool) l : where_ p l = [] ↔ ∀ x, x ∈ l → p x = false.
Proof.
  split.
  - intros H x Hx. destruct (p x) eqn:E; [|done].
    assert (Hin : x ∈ where_ p l) by (apply elem_of_where_; done).
    rewrite H in Hin. by apply not_elem_of_nil in Hin.
  - intros H. induction l as [|y l IH]; [done|]. simpl.
    rewrite (H y) by left. apply IH. intros x Hx. apply H. by right.
Qed.

Lemma where_ext {A} (p q : A → bool) l :
  (∀ x, x ∈ l → p x = q x) → where_ p l = where_ q l.
Proof.
  intros H. induction l as [|y l IH]; [done|]. simpl. rewrite (H y) by left.
  rewrite IH; [done|]. intros x Hx. apply H. by right.
Qed.

Lemma where_where {A} (p q : A → bool) l :
  where_ p (where_ q l) = where_ (λ x, q x && p x) l.
Proof.
  induction l as [|y l IH]; [done|]. simpl.
  destruct (q y); simpl; [destruct (p y)|]; by rewrite IH.
Qed.

Lemma where_sublist {A} (p : A → bool) l : sublist (where_ p l) l.
Proof. induction l as [|y l IH]; simpl; [done|]. destruct (p y); by constructor. Qed.

Lemma where_true {A} (p : A → bool) l : (∀ x, x ∈ l → p x = true) → where_ p l = l.
Proof.
  intros H. induction l as [|y l IH]; [done|]. simpl. rewrite (H y) by left.
  rewrite IH; [done|]. intros x Hx. apply H. by right.
Qed.

Lemma where_map {A B} (f : A → B) (p : B → bool) l :
  where_ p (map f l) = map f (where_ (λ x, p (f x)) l).
Proof. induction l as [|y l IH]; [done|]. simpl. destruct (p (f y)); simpl; by rewrite IH. Qed.

Lemma map_id_in {A} (f : A → A) l : (∀ x, x ∈ l → f x = x) → map f l = l.
Proof.
  intros H. induction l as [|y l IH]; [done|]. simpl. rewrite (H y) by left.
  rewrite IH; [done|]. intros x Hx. apply H. by right.
Qed.

(** Filtering keeps the keys distinct. *)
Lemma map_where_NoDup {A B} (f : A → B) (p : A → bool) l :
  NoDup (map f l) → NoDup (map f (where_ p l)).
Proof.
  induction l as [|y l IH]; simpl; [done|]. intros [Hy Hl]%NoDup_cons.
  destruct (p y); simpl; [|by apply IH]. constructor; [|by apply IH].
  intros Hin. apply Hy. apply list_elem_of_fmap in Hin as (x & -> & Hx).
  apply list_elem_of_fmap. exists x. split; [done|]. by apply elem_of_where_ in Hx as [_ ?].
Qed.

Lemma where_perm {A} (p : A → bool) l k : l ≡ₚ k → where_ p l ≡ₚ where_ p k.
Proof.
  induction 1 as [|x l k H IH|x y l|l k m H1 IH1 H2 IH2]; simpl; [done| | |by rewrite IH1].
  - destruct (p x); [by rewrite IH|done].
  - destruct (p x), (p y); try done. apply Permutation_swap.
Qed.

Lemma in_take_elem {A} n (l : list A) x : x ∈ take n l → x ∈ l.
Proof. intros H. rewrite <-(take_drop n l). apply elem_of_app. by left. Qed.

(** ** Stable sorting *)

Section sorting_lemmas.
Context {A : Type} (le : A → A → bool).

Lemma insert_by_perm x l : insert_by le x l ≡ₚ x :: l.
Proof.
  induction l as [|y l IH]; simpl; [done|]. destruct (le x y); [done|].
  rewrite IH. apply Permutation_swap.
Qed.

Lemma sort_by_perm l : sort_by le l ≡ₚ l.
Proof. induction l as [|x l IH]; simpl; [done|]. by rewrite insert_by_perm, IH. Qed.

Lemma elem_of_sort_by x l : x ∈ sort_by le l ↔ x ∈ l.
Proof. by rewrite (sort_by_perm l). Qed.

Lemma length_sort_by l : length (sort_by le l) = length l.
Proof. by rewrite (sort_by_perm l). Qed.

(** The order need only be total and transitive on the rows at hand. *)
Context (Htot : ∀ x y, le x y = false → le y x = true).
Context (Htrans : ∀ x y z, le x y = true → le y z = true → le x z = true).

Lemma insert_by_sorted x l : StronglySorted le l → StronglySorted le (insert_by le x l).
Proof using All.
  induction 1 as [|y l Hl IH Hy]; simpl; [repeat constructor|].
  destruct (le x y) eqn:E.
  - constructor; [by constructor|]. constructor; [by rewrite E|].
    eapply Forall_impl; [exact Hy|]. simpl. intros z Hz.
    apply Is_true_true in Hz. rewrite (Htrans x y z E Hz). done.
  - constructor; [done|]. rewrite insert_by_perm. constructor; [|done].
    by rewrite (Htot x y E).
Qed.

Lemma sort_by_sorted l : StronglySorted le (sort_by le l).
Proof using All. induction l; simpl; [constructor | by apply insert_by_sorted]. Qed.

(** When no two distinct rows compare equal both ways, a sort is the unique
    sorted permutation. *)
Context (Hanti : ∀ x y, le x y = true → le y x = true → x = y).

Lemma sort_by_unique l k : l ≡ₚ k → sort_by le l = sort_by le k.
Proof using All.
  intros H.
  assert (Ha : AntiSymm (=) (λ x y, Is_true (le x y))).
  { intros x y. rewrite !Is_true_true. apply Hanti. }
  apply (StronglySorted_unique le).
  - apply sort_by_sorted.
  - apply sort_by_sorted.
  - by rewrite !sort_by_perm.
Qed.

Lemma sort_by_id l : StronglySorted le l → sort_by le l = l.
Proof.
  induction 1 as [|x l Hl IH Hx]; simpl; [done|]. rewrite IH.
  destruct Hx as [|y l Hy Hl']; simpl; [done|]. by apply Is_true_true in Hy as ->.
Qed.
End sorting_lemmas.

(** ** Sorted lists *)

Lemma StronglySorted_snoc {A} (R : A → A → Prop) l x :
  StronglySorted R (l ++ [x]) ↔ StronglySorted R l ∧ Forall (λ y, R y x) l.
Proof.
  induction l as [|y l IH]; simpl.
  - split; [intros; split; constructor | intros; repeat constructor].
  - split.
    + intros [Hl Hy]%StronglySorted_inv. apply IH in Hl as [Hl Hx].
      rewrite Forall_app, Forall_singleton in Hy. destruct Hy. split; by constructor.
    + intros [[Hl Hy]%StronglySorted_inv [Hx Hf]%Forall_cons]. constructor; [by apply IH|].
      by apply Forall_app, conj; [|apply Forall_singleton].
Qed.

Lemma StronglySorted_where {A} (R : A → A → Prop) (p : A → bool) l :
  StronglySorted R l → StronglySorted R (where_ p l).
Proof.
  induction 1 as [|a l Hl IH Ha]; simpl; [constructor|]. destruct (p a); [|done].
  constructor; [done|]. rewrite Forall_forall in Ha |- *. intros y [_ Hy]%elem_of_where_. auto.
Qed.

Lemma StronglySorted_mono {A} (R S : A → A → Prop) l :
  (∀ a b, R a b → S a b) → StronglySorted R l → StronglySorted S l.
Proof.
  intros HRS. induction 1 as [|a l Hl IH Ha]; constructor; [done|].
  eapply Forall_impl; [exact Ha|]. auto.
Qed.

Lemma StronglySorted_take {A} (R : A → A → Prop) n l :
  StronglySorted R l → StronglySorted R (take n l).
Proof.
  intros H. revert n. induction H as [|a l Hl IH Ha]; intros [|n]; simpl; try constructor; [done|].
  apply Forall_forall. rewrite Forall_forall in Ha.
  intros x (i & Hi & _)%elem_of_take. apply Ha. by apply list_elem_of_lookup_2 in Hi.
Qed.

Lemma zlen_app {A} (l k : list A) : zlen (l ++ k) = zlen l + zlen k.
Proof. unfold zlen. rewrite length_app. lia. Qed.

Lemma zlen_nonneg {A} (l : list A) : 0 ≤ zlen l.
Proof. unfold zlen. lia. Qed.

(** ** [dict.fromkeys] *)

Section dedup.
Context {A : Type} `{!EqDecision A}.

Lemma elem_of_dedup_acc (seen l : list A) (x : A) : x ∈ dedup_acc seen l ↔ x ∈ l ∧ x ∉ seen.
Proof.
  revert seen. induction l as [|y l IH]; intros seen; simpl; [set_solver|].
  case_bool_decide; [rewrite IH; set_solver|].
  rewrite elem_of_cons, IH. destruct (decide (x = y)); set_solver.
Qed.

Lemma NoDup_dedup_acc (seen l : list A) : NoDup (dedup_acc seen l).
Proof.
  revert seen. induction l as [|y l IH]; intros seen; simpl; [constructor|].
  case_bool_decide; [done|]. constructor; [|done].
  rewrite elem_of_dedup_acc. set_solver.
Qed.

Lemma elem_of_dict_fromkeys (l : list A) (x : A) : x ∈ dict_fromkeys l ↔ x ∈ l.
Proof. unfold dict_fromkeys. rewrite elem_of_dedup_acc. set_solver. Qed.

Lemma NoDup_dict_fromkeys (l : list A) : NoDup (dict_fromkeys l).
Proof. apply NoDup_dedup_acc. Qed.
End dedup.

Create HintDb ledger discriminated.
#[export] Hint Rewrite @elem_of_where_ @elem_of_dict_fromkeys @elem_of_sort_by : ledger.
#[export] Hint Resolve NoDup_dict_fromkeys sort_by_perm where_sublist : ledger.

(** The first failing check raises. *)
Fixpoint checks (l : list (bool * exn)) : result unit :=
  match l with
  | [] => Ok ()
  | (b, e) :: l' => if b then checks l' else Err e
  end.

Lemma checks_ok l : checks l = Ok () ↔ Forall (λ be, be.1 = true) l.
Proof.
  induction l as [|[b e] l IH]; simpl; [done|]. rewrite Forall_cons. simpl. destruct b.
  - rewrite IH. tauto.
  - split; [done|]. by intros [? _].
Qed.

Lemma checks_in l b e : checks l = Ok () → (b, e) ∈ l → b = true.
Proof. intros H%checks_ok Hin. rewrite Forall_forall in H. exact (H _ Hin). Qed.

Lemma checks_err l e : checks l = Err e → ∃ b, (b, e) ∈ l ∧ b = false.
Proof.
  induction l as [|[b e'] l IH]; simpl; [done|]. destruct b.
  - intros (b & ? & ?)%IH. exists b. split; [by right|done].
  - intros [= <-]. exists false. split; [by left|done].
Qed.

(** Every element passes a check. *)
Fixpoint for_all {A} (f : A → result unit) (l : list A) : result unit :=
  match l with
  | [] => Ok ()
  | x :: l' => match f x with Ok _ => for_all f l' | Err e => Err e end
  end.

Lemma for_all_ok {A} (f : A → result unit) l :
  for_all f l = Ok () ↔ ∀ x, x ∈ l → f x = Ok ().
Proof.
  induction l as [|x l IH]; simpl.
  - split; [|done]. intros _ x Hx. by apply not_elem_of_nil in Hx.
  - destruct (f x) as [[]|e] eqn:E.
    + rewrite IH. split; [intros H y [->|]%elem_of_cons; auto | intros H y ?; apply H; by right].
    + split; [done|]. intros H. rewrite (H x) in E by left. done.
Qed.

Lemma for_all_err {A} (f : A → result unit) l e :
  for_all f l = Err e → ∃ x, x ∈ l ∧ f x = Err e.
Proof.
  induction l as [|x l IH]; simpl; [done|]. destruct (f x) as [[]|e'] eqn:E.
  - intros (y & ? & ?)%IH. exists y. split; [by right|done].
  - intros [= <-]. exists x. split; [by left|done].
Qed.

(** Every pair of an earlier and a later element passes a check. *)
Fixpoint for_pairs {A} (f : A → A → result unit) (l : list A) : result unit :=
  match l with
  | [] => Ok ()
  | x :: l' => match for_all (f x) l' with Ok _ => for_pairs f l' | Err e => Err e end
  end.

Lemma for_pairs_ok {A} (f : A → A → result unit) l :
  for_pairs f l = Ok () ↔ StronglySorted (λ x y, f x y = Ok ()) l.
Proof.
  induction l as [|x l IH]; simpl; [split; [constructor|done]|].
  destruct (for_all (f x) l) as [[]|e] eqn:E.
  - rewrite IH. pose proof (proj1 (for_all_ok (f x) l) E) as E'. split.
    + intros Hl. constructor; [done|]. by apply Forall_forall.
    + by intros [? _]%StronglySorted_inv.
  - split; [done|]. intros [_ Hx]%StronglySorted_inv. rewrite Forall_forall in Hx.
    pose proof (proj2 (for_all_ok (f x) l) Hx). congruence.
Qed.

(** * Two-state properties of computations *)

(** Whatever [m] returns or raises, the store it leaves is related by [R] to the
    store it started from. *)
Definition respects {S A} (R : S → S → Prop) (m : ST S A) : Prop :=
  ∀ s r s', m s = (r, s') → R s s'.

Section respects.
Context {S : Type} (R : S → S → Prop) `{HR : !PreOrder R}.

Lemma respects_ret {A} (a : A) : respects R (mret a : ST S A).
Proof using HR. intros s r s' H. unfold mret, st_ret in H. injection H as <- <-. reflexivity. Qed.

Lemma respects_raise {A} e : respects R (raise e : ST S A).
Proof using HR. intros s r s' H. unfold raise in H. injection H as <- <-. reflexivity. Qed.

Lemma respects_lift {A} (x : result A) : respects R (lift x : ST S A).
Proof using HR. intros s r s' H. unfold lift in H. injection H as <- <-. reflexivity. Qed.

Lemma respects_gets {A} (f : S → A) : respects R (gets f).
Proof using HR. intros s r s' H. unfold gets in H. injection H as <- <-. reflexivity. Qed.

Lemma respects_guard b e : respects R (guard_ b e : ST S unit).
Proof using HR. apply respects_lift. Qed.

Lemma respects_bind {A B} (m : ST S A) (f : A → ST S B) :
  respects R m → (∀ a, respects R (f a)) → respects R (m ≫= f).
Proof using HR.
  intros Hm Hf s r s' H. unfold mbind, st_bind in H.
  destruct (m s) as [[a|e] s1] eqn:E.
  - etrans; [by eapply Hm | by eapply Hf].
  - injection H as <- <-. by eapply Hm.
Qed.

Lemma respects_transaction {A} (m : ST S A) : respects R m → respects R (transaction m).
Proof using HR.
  intros Hm s r s' H. unfold transaction in H.
  destruct (m s) as [[a|e] s1] eqn:E; injection H as <- <-; [by eapply Hm|reflexivity].
Qed.

Lemma respects_mapM {A B} (f : A → ST S B) l :
  (∀ x, x ∈ l → respects R (f x)) → respects R (mapM_ f l).
Proof using HR.
  induction l as [|x l IH]; intros Hf; simpl; [apply respects_ret|].
  apply respects_bind; [apply Hf; by left|]. intros y.
  apply respects_bind; [|intros ys; apply respects_ret].
  apply IH. intros z Hz. apply Hf. by right.
Qed.
End respects.

(** Structural steps of a [respects] proof; [leaf] closes the operations. *)
Ltac respects leaf :=
  repeat first
    [ leaf
    | apply respects_ret; apply _
    | apply respects_raise; apply _
    | apply respects_lift; apply _
    | apply respects_gets; apply _
    | apply respects_guard; apply _
    | apply respects_transaction; [apply _|]
    | apply respects_bind; [apply _| |intros ?]
    | apply respects_mapM; [apply _|intros ? ?]
    | match goal with |- respects _ (match ?x with _ => _ end) => destruct x end
    | match goal with |- respects _ (let '_ := ?x in _) => destruct x end ].

Lemma respects_snd {S A} (R : S → S → Prop) (m : ST S A) s : respects R m → R s (m s).2.
Proof. intros Hm. destruct (m s) as [r s'] eqn:E. by eapply Hm. Qed.

(** [try: m except IntegrityError: raise e] *)
Definition catch_integrity {S A} (e : exn) (m : ST S A) : ST S A := λ s,
  match m s with
  | (Err (IntegrityError _), s') => (Err e, s')
  | r => r
  end.

Lemma catch_integrity_ok {S A} e (m : ST S A) a s s' :
  catch_integrity e m s = (Ok a, s') ↔ m s = (Ok a, s').
Proof. unfold catch_integrity. destruct (m s) as [[|[]] ?]; naive_solver. Qed.

Lemma respects_catch {S A} (R : S → S → Prop) e (m : ST S A) :
  respects R m → respects R (catch_integrity e m).
Proof.
  intros Hm s r s' H. unfold catch_integrity in H.
  destruct (m s) as [x s1] eqn:E. apply (Hm s x s'). rewrite E. f_equal.
  destruct x as [a|[]]; congruence.
Qed.

(** An invariant of the store kept by a transaction: only a successful run of the
    body matters, since a failed one is rolled back. *)
Lemma keeps_transaction {S A} (I : S → Prop) (m : ST S A) :
  (∀ s a s', I s → m s = (Ok a, s') → I s') →
  respects (λ s s', I s → I s') (transaction m).
Proof.
  intros Hm s r s' H Hs. unfold transaction in H.
  destruct (m s) as [[a|e] s1] eqn:E; injection H as <- <-; eauto.
Qed.

#[export] Instance keeps_preorder {S} (I : S → Prop) : PreOrder (λ s s' : S, I s → I s').
Proof. split; [by intros s|]. intros a b c; auto. Qed.

(** What precedes the first separator determines what follows it. *)
Lemma app_sep_unique {A} (c : A) (a b x y : list A) :
  c ∉ a → c ∉ b → a ++ c :: x = b ++ c :: y → a = b ∧ x = y.
Proof.
  revert b. induction a as [|h a IH]; intros [|k b] Ha Hb E; simpl in E.
  - by injection E.
  - injection E as <- _. destruct Hb. by left.
  - injection E as -> _. destruct Ha. by left.
  - injection E as -> E. destruct (IH b) as [-> ->]; [|by (intros ?; apply Hb; right)|done|done].
    intros ?; apply Ha; by right.
Qed.

Lemma mapR_ok {A B} (f : A → result B) l ys :
  mapR f l = Ok ys → Forall2 (λ x y, f x = Ok y) l ys.
Proof.
  revert ys. induction l as [|x l IH]; intros ys; simpl; [intros [= <-]; constructor|].
  intros (y & Hy & (zs & Hz & [= <-])%result_bind_ok)%result_bind_ok. constructor; auto.
Qed.

Lemma mapR_total {A B} (f : A → result B) l :
  (∀ x, x ∈ l → ∃ y, f x = Ok y) → ∃ ys, mapR f l = Ok ys.
Proof.
  induction l as [|x l IH]; intros H; [by exists []|].
  destruct (H x) as [y Hy]; [by left|]. destruct IH as [ys Hys]; [intros z Hz; apply H; by right|].
  exists (y :: ys). cbn [mapR]. rewrite Hy. cbn. by rewrite Hys.
Qed.
