(* ===== verification/PyStr.v ===== *)
(** Python's [str] operations as the program uses them: whitespace, [strip],
    [split], [lower], [replace], prefixes, UTF-8 encoding, decimal and
    hexadecimal text, and the predicates the regular expressions are built
    from.  A string is its list of code points. *)

From S2P Require Import Prelude.

(** The parts of the Unicode tables the program reaches through [str.lower]
    (on a string with a non-ASCII character: the mapping of the final sigma is
    contextual, so it is a function of the whole string), [str.upper] (the
    full mapping of one non-ASCII character) and [str.isprintable]. *)
Class UnicodeData := {
  uni_lower : pystr → pystr;
  uni_upper : Z → pystr;
  uni_printable : Z → bool;
}.

Definition is_ascii (c : Z) : bool := (0 <=? c) && (c <=? 127).
Definition in_range (lo hi c : Z) : bool := (lo <=? c) && (c <=? hi).
Definition is_lower_az (c : Z) : bool := in_range 97 122 c.
Definition is_upper_az (c : Z) : bool := in_range 65 90 c.
Definition is_digit (c : Z) : bool := in_range 48 57 c.

(** Exactly the characters [str.isspace] accepts, which [strip] removes,
    [split] splits at and [\s] matches. *)
Definition is_space (c : Z) : bool :=
  in_range 9 13 c || in_range 28 32 c || bool_decide
    (c ∈ [133; 160; 5760; 8232; 8233; 8239; 8287; 12288]) || in_range 8192 8202 c.

Fixpoint lstrip (s : pystr) : pystr :=
  match s with
  | c :: s' => if is_space c then lstrip s' else s
  | [] => []
  end.

Fixpoint rstrip (s : pystr) : pystr :=
  match s with
  | c :: s' => match rstrip s' with
               | [] => if is_space c then [] else [c]
               | r => c :: r
               end
  | [] => []
  end.

Definition strip (s : pystr) : pystr := rstrip (lstrip s).

(** [s.split()]: the maximal runs of non-space characters. *)
Fixpoint split_acc (cur : pystr) (s : pystr) : list pystr :=
  match s with
  | [] => match cur with [] => [] | _ => [cur] end
  | c :: s' => if is_space c
               then match cur with [] => split_acc [] s' | _ => cur :: split_acc [] s' end
               else split_acc (cur ++ [c]) s'
  end.
Definition split_ws (s : pystr) : list pystr := split_acc [] s.

(** [" ".join(words)] for a separator [sep]. *)
Fixpoint join (sep : pystr) (ws : list pystr) : pystr :=
  match ws with
  | [] => []
  | [w] => w
  | w :: ws' => w ++ sep ++ join sep ws'
  end.

(** [re.sub(r"\s+", " ", s)]: each maximal run of white space is one space. *)
Fixpoint collapse_ws (s : pystr) : pystr :=
  match s with
  | [] => []
  | c :: s' =>
    if is_space c
    then 32 :: (fix skip (t : pystr) : pystr :=
                  match t with
                  | d :: t' => if is_space d then skip t' else d :: collapse_ws t'
                  | [] => []
                  end) s'
    else c :: collapse_ws s'
  end.

Definition ascii_lower_char (c : Z) : Z := if is_upper_az c then c + 32 else c.

Definition lower `{UnicodeData} (s : pystr) : pystr :=
  if forallb is_ascii s then map ascii_lower_char s else uni_lower s.

Definition ascii_upper_char (c : Z) : Z := if is_lower_az c then c - 32 else c.
Definition upper `{UnicodeData} (s : pystr) : pystr :=
  flat_map (λ c, if is_ascii c then [ascii_upper_char c] else uni_upper c) s.

(** [c.isprintable()]: the printable ASCII characters are 32 to 126. *)
Definition isprintable `{UnicodeData} (c : Z) : bool :=
  if is_ascii c then in_range 32 126 c else uni_printable c.

Fixpoint startswith (p s : pystr) : bool :=
  match p, s with
  | [], _ => true
  | x :: p', y :: s' => (x =? y) && startswith p' s'
  | _, [] => false
  end.

(** [s.startswith((p1, p2, ...))] *)
Definition startswith_any (ps : list pystr) (s : pystr) : bool :=
  existsb (λ p, startswith p s) ps.

(** [s.replace("\r\n", "\n").replace("\r", "\n")] *)
Fixpoint crlf_to_lf (s : pystr) : pystr :=
  match s with
  | c :: s' => if c =? 13
               then match s' with
                    | d :: s'' => if d =? 10 then 10 :: crlf_to_lf s'' else c :: crlf_to_lf s'
                    | [] => [c]
                    end
               else c :: crlf_to_lf s'
  | [] => []
  end.

(** [s.replace(a, b)] for one-character [a]. *)
Definition replace_char (a : Z) (b : pystr) (s : pystr) : pystr :=
  flat_map (λ c, if c =? a then b else [c]) s.

Definition normalize_newlines (s : pystr) : pystr := replace_char 13 [10] (crlf_to_lf s).

(** [s.encode("utf-8")]; a lone surrogate cannot be encoded. *)
Definition utf8_char (c : Z) : result (list Z) :=
  if c <? 128 then Ok [c]
  else if c <? 2048 then Ok [Z.lor 192 (Z.shiftr c 6); Z.lor 128 (Z.land c 63)]
  else if in_range 55296 57343 c then Err UnicodeEncodeError
  else if c <? 65536 then
    Ok [Z.lor 224 (Z.shiftr c 12); Z.lor 128 (Z.land (Z.shiftr c 6) 63); Z.lor 128 (Z.land c 63)]
  else
    Ok [Z.lor 240 (Z.shiftr c 18); Z.lor 128 (Z.land (Z.shiftr c 12) 63);
        Z.lor 128 (Z.land (Z.shiftr c 6) 63); Z.lor 128 (Z.land c 63)].

Definition encode_utf8 (s : pystr) : result (list Z) :=
  bs ← mapR utf8_char s; Ok (concat bs).

Lemma encode_utf8_err s e : encode_utf8 s = Err e → e = UnicodeEncodeError.
Proof.
  unfold encode_utf8. rewrite result_bind_err. intros [H|(? & ? & ?)]; [|done]. revert H.
  induction s as [|c s IH]; [done|]. cbn [mapR]. rewrite result_bind_err.
  intros [H|(y & Hy & H)].
  - unfold utf8_char in H. by repeat case_match; simplify_eq.
  - apply result_bind_err in H as [H|(? & ? & ?)]; [by apply IH|done].
Qed.

(** [str(n)] for an integer. *)
Fixpoint nat_digits (fuel : nat) (n : Z) (acc : pystr) : pystr :=
  match fuel with
  | O => acc
  | S f => let acc' := 48 + n mod 10 :: acc in
           if n <? 10 then acc' else nat_digits f (n / 10) acc'
  end.

Definition str_of_nonneg (n : Z) : pystr := nat_digits (S (Z.to_nat (Z.log2 n))) n [].
Definition str_of_int (n : Z) : pystr :=
  if n <? 0 then 45 :: str_of_nonneg (- n) else str_of_nonneg n.

(** A lower-case hexadecimal digit, and fixed-width hexadecimal text. *)
Definition hex_digit (d : Z) : Z := if d <? 10 then 48 + d else 87 + d.
Fixpoint hex_of (width : nat) (n : Z) : pystr :=
  match width with
  | O => []
  | S w => hex_of w (n / 16) ++ [hex_digit (n mod 16)]
  end.

(** [str(uuid)]: 8-4-4-4-12 hexadecimal digits. *)
Definition uuid_str (u : UUID) : pystr :=
  let h := hex_of 32 u in
  take 8 h ++ [45] ++ take 4 (drop 8 h) ++ [45] ++ take 4 (drop 12 h) ++ [45]
  ++ take 4 (drop 16 h) ++ [45] ++ drop 20 h.

(** * Lemmas *)

Lemma lstrip_not_space c s : is_space c = false → lstrip (c :: s) = c :: s.
Proof. simpl. by intros ->. Qed.

Lemma rstrip_nonspace s : forallb (λ c, negb (is_space c)) s = true → rstrip s = s.
Proof.
  induction s as [|c s IH]; simpl; [done|].
  rewrite andb_true_iff, negb_true_iff. intros [Hc Hs]. rewrite IH by done.
  destruct s; [by rewrite Hc | done].
Qed.

(** A string with no white space is its own [strip]. *)
Lemma strip_nonspace s : forallb (λ c, negb (is_space c)) s = true → strip s = s.
Proof.
  intros H. unfold strip. assert (lstrip s = s) as ->.
  { destruct s as [|c s]; [done|]. apply lstrip_not_space.
    simpl in H. by apply andb_true_iff in H as [?%negb_true_iff _]. }
  by apply rstrip_nonspace.
Qed.

Lemma lower_ascii_noop `{UnicodeData} s :
  forallb (λ c, is_ascii c && negb (is_upper_az c)) s = true → lower s = s.
Proof.
  intros Hs. unfold lower.
  assert (forallb is_ascii s = true) as ->.
  { apply forallb_forall. intros c Hc. rewrite forallb_forall in Hs.
    specialize (Hs c Hc). by apply andb_true_iff in Hs as [? _]. }
  induction s as [|c s IH]; [done|]. simpl in *.
  rewrite !andb_true_iff, negb_true_iff in Hs. destruct Hs as [[? Hu] ?].
  rewrite IH by done. unfold ascii_lower_char. by rewrite Hu.
Qed.

Lemma lstrip_idemp s : lstrip (lstrip s) = lstrip s.
Proof. induction s as [|c s IH]; simpl; [done|]. destruct (is_space c) eqn:E; [done|]. simpl. by rewrite E. Qed.

Lemma rstrip_idemp s : rstrip (rstrip s) = rstrip s.
Proof.
  induction s as [|c s IH]; simpl; [done|].
  destruct (rstrip s) as [|d r] eqn:E.
  - destruct (is_space c) eqn:Ec; [done|]. simpl. by rewrite Ec.
  - cbn [rstrip] in IH |- *. by rewrite IH.
Qed.

Lemma rstrip_head c s r d : rstrip (c :: s) = d :: r → d = c.
Proof. simpl. destruct (rstrip s); [destruct (is_space c)|]; congruence. Qed.

Lemma strip_idemp s : strip (strip s) = strip s.
Proof.
  unfold strip. destruct (lstrip s) as [|c t] eqn:E; [done|].
  assert (Hc : is_space c = false).
  { clear -E. induction s as [|x s IH]; simpl in E; [done|].
    destruct (is_space x) eqn:Ex; [auto|]. congruence. }
  destruct (rstrip (c :: t)) as [|d r] eqn:Er; [done|].
  assert (d = c) as -> by (by eapply rstrip_head). simpl lstrip. rewrite Hc.
  rewrite <-Er. apply rstrip_idemp.
Qed.

(** [strip] leaves no white space at either end. *)
Lemma strip_ends s :
  match strip s with [] => True | c :: _ => is_space c = false end.
Proof.
  unfold strip. destruct (lstrip s) as [|c t] eqn:E; [done|].
  assert (Hc : is_space c = false).
  { clear -E. induction s as [|x s IH]; simpl in E; [done|].
    destruct (is_space x) eqn:Ex; [auto|]. congruence. }
  destruct (rstrip (c :: t)) as [|d r] eqn:Er; [done|].
  by assert (d = c) as -> by (by eapply rstrip_head).
Qed.

Lemma no_char_after_newlines s : forallb (λ c, negb (c =? 13)) (normalize_newlines s) = true.
Proof.
  unfold normalize_newlines, replace_char. induction (crlf_to_lf s) as [|c t IH]; simpl; [done|].
  destruct (c =? 13) eqn:E; simpl; [done|]. by rewrite E.
Qed.

Lemma crlf_to_lf_noop s : forallb (λ c, negb (c =? 13)) s = true → crlf_to_lf s = s.
Proof.
  induction s as [|c s IH]; simpl; [done|]. rewrite andb_true_iff, negb_true_iff.
  intros [-> ?]. by rewrite IH.
Qed.

Lemma normalize_newlines_noop s :
  forallb (λ c, negb (c =? 13)) s = true → normalize_newlines s = s.
Proof.
  intros H. unfold normalize_newlines. rewrite crlf_to_lf_noop by done.
  unfold replace_char. induction s as [|c s IH]; simpl; [done|]. simpl in H.
  apply andb_true_iff in H as [->%negb_true_iff ?]. simpl. by rewrite IH.
Qed.

Lemma elem_of_lstrip s c : c ∈ lstrip s → c ∈ s.
Proof.
  induction s as [|x s IH]; simpl; [done|].
  destruct (is_space x); [|done]. intros H. right. auto.
Qed.

Lemma elem_of_rstrip s c : c ∈ rstrip s → c ∈ s.
Proof.
  induction s as [|x s IH]; simpl; [done|].
  destruct (rstrip s) as [|y r]; [destruct (is_space x)|]; set_solver.
Qed.

Lemma elem_of_strip s c : c ∈ strip s → c ∈ s.
Proof. intros H%elem_of_rstrip. by apply elem_of_lstrip. Qed.

Lemma forallb_strip (p : Z → bool) s : forallb p s = true → forallb p (strip s) = true.
Proof.
  rewrite !forallb_forall. intros H x Hx%list_elem_of_In. apply H.
  by apply list_elem_of_In, elem_of_strip.
Qed.

#[export] Hint Rewrite strip_idemp : ledger.

(** ** ASCII texts encode to themselves *)

Lemma encode_utf8_ascii s : Forall (λ c, c < 128) s → encode_utf8 s = Ok s.
Proof.
  intros H. unfold encode_utf8. assert (E : mapR utf8_char s = Ok (map (λ c, [c]) s)).
  { induction H as [|c s Hc Hs IH]; [done|]. cbn [mapR map].
    assert (utf8_char c = Ok [c]) as -> by (unfold utf8_char; destruct (Z.ltb_spec c 128); [done|lia]).
    by rewrite IH. }
  rewrite E. cbn. f_equal. clear. induction s as [|c s IH]; [done|]. cbn. by rewrite IH.
Qed.

Lemma hex_of_ascii w n : Forall (λ c, c < 128) (hex_of w n).
Proof.
  revert n. induction w as [|w IH]; intros n; cbn [hex_of]; [constructor|].
  apply Forall_app. split; [apply IH|]. apply Forall_singleton. unfold hex_digit.
  pose proof (Z.mod_pos_bound n 16 ltac:(lia)). destruct (_ <? _); lia.
Qed.

Lemma uuid_str_ascii u : Forall (λ c, c < 128) (uuid_str u).
Proof.
  unfold uuid_str. pose proof (hex_of_ascii 32 u) as H.
  repeat (apply Forall_app; split); try (by repeat constructor; lia);
    first [by apply Forall_take; [..|apply Forall_drop]|by apply Forall_take|by apply Forall_drop].
Qed.
