(* ===== verification/Canonical.v ===== *)
(** The canonical JSON text determines the value: two well-formed values with the
    same [canonical_options] text are equal up to the order of object keys.
    This is what makes a hash over the text a hash of the value
    (app/domain/decisions.py, [canonical_json]). *)

From S2P Require Import Prelude PyStr Json.

(** Documented behaviour of [float.__repr__] on finite floats: it uses only
    digits, ['.'], ['e'] and signs, always shows a point or an exponent, and
    round-trips (so different floats have different texts). *)
Definition float_char (c : Z) : bool := is_digit c || bool_decide (c ∈ [46; 101; 43; 45]).

(** [m * 2^e] as a double in lowest terms. *)
Definition is_double (m e : Z) : bool :=
  if m =? 0 then e =? 0 else Z.odd m && (Z.abs m <? 2 ^ 53) && (-1074 <=? e) && (e <=? 1023).
Definition is_finite (f : pyfloat) : bool :=
  match f with Fin m e => is_double m e | NegZero => true | _ => false end.
Class FloatReprLaws `{FloatRepr} := {
  float_repr_chars : ∀ f, is_finite f = true → forallb float_char (float_repr f) = true;
  float_repr_mark : ∀ f, is_finite f = true → 46 ∈ float_repr f ∨ 101 ∈ float_repr f;
  float_repr_inj : ∀ f g, is_finite f = true → is_finite g = true →
    float_repr f = float_repr g → f = g;
}.

(** Object keys sorted at every level. *)
Fixpoint canon (j : json) : json :=
  match j with
  | JList l => JList (map canon l)
  | JObj kvs => JObj (sort_by key_leb (map (λ kv, (kv.1, canon kv.2)) kvs))
  | _ => j
  end.

Definition valid_char (c : Z) : bool := in_range 0 1114111 c.

(** Values json.loads can produce: code points in range, no foreign objects. *)
Fixpoint json_ok (j : json) : bool :=
  match j with
  | JStr s => forallb valid_char s
  | JList l => forallb json_ok l
  | JObj kvs => forallb (λ kv, forallb valid_char kv.1 && json_ok kv.2) kvs
  | JFloat (Fin m e) => is_double m e
  | JOther => false
  | _ => true
  end.

Section render.
Context `{FloatRepr}.

(** The canonical text of a value whose keys are already in order. *)
Definition atom_text (j : json) : pystr :=
  match j with
  | JNull => py "null"
  | JBool b => if b then py "true" else py "false"
  | JInt n => str_of_int n
  | JFloat f => match float_text true f with Ok t => t | Err _ => [] end
  | _ => []
  end.

Fixpoint render (j : json) : pystr :=
  match j with
  | JStr s => quote escape_char s
  | JList l => [91] ++ join [44] (map render l) ++ [93]
  | JObj kvs =>
      [123] ++ join [44] (map (λ kv, quote escape_char kv.1 ++ [58] ++ render kv.2) kvs) ++ [125]
  | JOther => []
  | _ => atom_text j
  end.
End render.

Lemma mapR_go {A B} (f : A → result B) (l : list A) :
  (fix go l : result (list B) :=
     match l with [] => Ok [] | x :: l' => t ← f x; ts ← go l'; Ok (t :: ts) end) l = mapR f l.
Proof. induction l as [|x l IH]; [done|]. simpl. by rewrite IH. Qed.

Lemma insert_by_map {A B} (f : A → B) (le : B → B → bool) x l :
  insert_by le (f x) (map f l) = map f (insert_by (λ a b, le (f a) (f b)) x l).
Proof. induction l as [|y l IH]; [done|]. simpl. destruct (le (f x) (f y)); simpl; by rewrite ?IH. Qed.

Lemma sort_by_map {A B} (f : A → B) (le : B → B → bool) l :
  sort_by le (map f l) = map f (sort_by (λ a b, le (f a) (f b)) l).
Proof. induction l as [|x l IH]; [done|]. simpl. by rewrite IH, insert_by_map. Qed.

Section dumps_render.
Context `{FloatRepr}.

Lemma dumps_list_go l ts :
  Forall (λ x, ∀ t, dumps canonical_options x = Ok t → t = render (canon x)) l →
  mapR (dumps canonical_options) l = Ok ts → ts = map render (map canon l).
Proof.
  intros Hl. revert ts. induction Hl as [|x l Hx Hl IH]; intros ts; simpl; [intros; by minv|].
  intros Ht. minv. f_equal; eauto.
Qed.

Lemma dumps_obj_go (kvs : list (pystr * json)) ms :
  Forall (λ kv : pystr * json, ∀ t, dumps canonical_options kv.2 = Ok t → t = render (canon kv.2)) kvs →
  (fix go kvs : result (list (pystr * pystr)) :=
     match kvs with
     | [] => Ok []
     | (k, v) :: kvs' => t ← dumps canonical_options v; ts ← go kvs'; Ok ((k, t) :: ts)
     end) kvs = Ok ms →
  ms = map (λ kv, (kv.1, render kv.2)) (map (λ kv, (kv.1, canon kv.2)) kvs).
Proof.
  intros Hl. revert ms. induction Hl as [|[k x] l Hx Hl IH]; intros ms; simpl; [intros; by minv|].
  intros Ht. minv. f_equal; [f_equal|]; eauto.
Qed.

(** [dumps] with the canonical options renders the canonical form. *)
Lemma dumps_canonical j : ∀ t, dumps canonical_options j = Ok t → t = render (canon j).
Proof.
  induction j as [|b|n|f|s|l IH|kvs IH|] using json_rect'; intros t Ht; simpl in Ht.
  - by minv.
  - destruct b; by minv.
  - by minv.
  - destruct f; simpl in Ht; by minv.
  - by minv.
  - rewrite mapR_go in Ht. minv. simpl. by erewrite <-dumps_list_go by eauto.
  - minv. match goal with H : _ = Ok x |- _ => apply dumps_obj_go in H; [|done] end. subst x.
    simpl. rewrite (sort_by_map (λ kv : pystr * json, (kv.1, render kv.2))).
    rewrite !map_map. simpl. do 3 f_equal.
  - done.
Qed.
End dumps_render.

(** * Unique reading of the text *)

(** What may follow a value inside a text: nothing, or a delimiter. *)
Definition delim (c : Z) : bool := bool_decide (c ∈ [44; 93; 125]).
Definition good_rest (r : pystr) : Prop := match r with [] => True | c :: _ => delim c = true end.
Definition atom_char (c : Z) : bool := negb (bool_decide (c ∈ [34; 44; 58; 91; 93; 123; 125])).

Lemma atom_char_delim c : atom_char c = true → delim c = true → False.
Proof. unfold atom_char, delim. rewrite negb_true_iff, bool_decide_eq_false, bool_decide_eq_true. set_solver. Qed.

Lemma span_unique a b r s :
  forallb atom_char a = true → forallb atom_char b = true → good_rest r → good_rest s →
  a ++ r = b ++ s → a = b ∧ r = s.
Proof.
  revert b. induction a as [|x a IH]; intros [|y b]; simpl; rewrite ?andb_true_iff; intros Ha Hb Hr Hs E.
  - done.
  - subst r. simpl in Hr. destruct Hb as [Hy _]. by destruct (atom_char_delim y).
  - subst s. simpl in Hs. destruct Ha as [Hx _]. by destruct (atom_char_delim x).
  - injection E as -> E. destruct Ha as [_ Ha], Hb as [_ Hb]. destruct (IH b Ha Hb Hr Hs E). by subst.
Qed.

Definition digits_val (s : pystr) : Z := fold_left (λ a c, a * 10 + (c - 48)) s 0.

Lemma nat_digits_val fuel n acc a :
  0 ≤ n → n < 2 ^ Z.of_nat fuel →
  fold_left (λ a c, a * 10 + (c - 48)) (nat_digits fuel n acc) a
  = fold_left (λ a c, a * 10 + (c - 48)) acc (a * 10 ^ Z.of_nat (length (nat_digits fuel n acc) - length acc) + n)
  ∧ (length acc ≤ length (nat_digits fuel n acc))%nat.
Proof.
  revert n acc a. induction fuel as [|f IH]; intros n acc a Hn Hlt.
  - simpl in *. assert (n = 0) as -> by lia. split; [|lia]. rewrite Nat.sub_diag. f_equal. lia.
  - cbn [nat_digits]. destruct (Z.ltb_spec n 10) as [H10|H10].
    + simpl. split; [|lia]. replace (S (length acc) - length acc)%nat with 1%nat by lia.
      f_equal. rewrite (Z.mod_small n 10) by lia. lia.
    + assert (Hdiv : 0 ≤ n / 10 ∧ n / 10 < 2 ^ Z.of_nat f).
      { rewrite Nat2Z.inj_succ, Z.pow_succ_r in Hlt by lia.
        split; [apply Z.div_pos; lia|]. apply Z.div_lt_upper_bound; lia. }
      destruct (IH (n / 10) (48 + n mod 10 :: acc) a ltac:(lia) ltac:(lia)) as [E L].
      simpl in L. split; [|lia]. rewrite E. simpl. f_equal.
      set (len := length (nat_digits f (n / 10) (48 + n mod 10 :: acc))) in *.
      replace (len - length acc)%nat with (S (len - S (length acc)))%nat by lia.
      rewrite Nat2Z.inj_succ, Z.pow_succ_r by lia.
      pose proof (Z.div_mod n 10 ltac:(lia)). lia.
Qed.

Lemma digits_val_str n : 0 ≤ n → digits_val (str_of_nonneg n) = n.
Proof.
  intros Hn. unfold digits_val, str_of_nonneg.
  destruct (nat_digits_val (S (Z.to_nat (Z.log2 n))) n [] 0 Hn) as [E _].
  - rewrite Nat2Z.inj_succ, Z2Nat.id by apply Z.log2_nonneg.
    destruct (Z.eq_dec n 0) as [->|]; [simpl; lia|]. apply Z.log2_spec. lia.
  - rewrite E. simpl. lia.
Qed.

Lemma nat_digits_digits fuel n acc :
  0 ≤ n → forallb is_digit acc = true → forallb is_digit (nat_digits fuel n acc) = true.
Proof.
  revert n acc. induction fuel as [|f IH]; intros n acc Hn Ha; simpl; [done|].
  assert (Hd : is_digit (48 + n mod 10) = true).
  { unfold is_digit, in_range. pose proof (Z.mod_pos_bound n 10). lia. }
  destruct (n <? 10); [by apply andb_true_iff|].
  apply IH; [apply Z.div_pos; lia | by apply andb_true_iff].
Qed.

Lemma str_of_nonneg_digits n : 0 ≤ n → forallb is_digit (str_of_nonneg n) = true.
Proof. intros. by apply nat_digits_digits. Qed.

Lemma str_of_int_inj n m : str_of_int n = str_of_int m → n = m.
Proof.
  assert (Hno : ∀ a b, 0 ≤ a → str_of_nonneg a = 45 :: b → False).
  { intros a b Ha E. pose proof (str_of_nonneg_digits a Ha) as Hd. by rewrite E in Hd. }
  unfold str_of_int. destruct (Z.ltb_spec n 0), (Z.ltb_spec m 0); intros E.
  - injection E as E. apply (f_equal digits_val) in E. rewrite !digits_val_str in E by lia. lia.
  - symmetry in E. by apply Hno in E.
  - by apply Hno in E.
  - apply (f_equal digits_val) in E. by rewrite !digits_val_str in E by lia.
Qed.

Definition int_char (c : Z) : bool := is_digit c || (c =? 45).

Lemma str_of_int_chars n : forallb int_char (str_of_int n) = true.
Proof.
  assert (Hi : ∀ s, forallb is_digit s = true → forallb int_char s = true).
  { intros s. rewrite !forallb_forall. intros Hs x Hx. unfold int_char. by rewrite Hs. }
  unfold str_of_int. destruct (Z.ltb_spec n 0); [simpl|]; apply Hi, str_of_nonneg_digits; lia.
Qed.

Lemma forallb_elem {A} (p : A → bool) l x : forallb p l = true → x ∈ l → p x = true.
Proof. rewrite forallb_forall. intros Hl Hx. by apply Hl, list_elem_of_In. Qed.

Lemma str_of_int_nonempty n : str_of_int n ≠ [].
Proof.
  unfold str_of_int. destruct (n <? 0); [done|]. unfold str_of_nonneg. intros E.
  assert (Hne : ∀ f k acc, acc ≠ [] → nat_digits f k acc ≠ []).
  { induction f; intros k acc Ha; simpl; [done|]. destruct (k <? 10); [done|]. by apply IHf. }
  cbn [nat_digits] in E. destruct (n <? 10); [done|]. by apply Hne in E.
Qed.

(** ** Escapes *)

Lemma hex4_inj c d : 0 ≤ c < 32 → 0 ≤ d < 32 → hex_of 4 c = hex_of 4 d → c = d.
Proof.
  intros Hc Hd E.
  assert (Hall : forallb (λ i, forallb (λ j, implb (bool_decide (hex_of 4 i = hex_of 4 j)) (i =? j))
            (seqZ 0 32)) (seqZ 0 32) = true) by (vm_compute; reflexivity).
  apply (forallb_elem _ _ c) in Hall; [|apply elem_of_seqZ; lia]. cbv beta in Hall.
  apply (forallb_elem _ _ d) in Hall; [|apply elem_of_seqZ; lia].
  cbv beta in Hall. rewrite bool_decide_eq_true_2 in Hall by done. cbn [implb] in Hall. lia.
Qed.

(** Every escape is one of three shapes, told apart by its first characters. *)
Lemma escape_shape c : 0 ≤ c →
  (∃ x, escape_char c = [92; x] ∧ x ≠ 117 ∧ escape_common c = Some [92; x]) ∨
  (escape_char c = 92 :: 117 :: hex_of 4 c ∧ c < 32) ∨
  (escape_char c = [c] ∧ c ≠ 34 ∧ c ≠ 92).
Proof.
  intros Hc. unfold escape_char. destruct (escape_common c) as [e|] eqn:E.
  - left. unfold escape_common in E.
    repeat (case_match; [injection E as <-; eexists; split_and!; [reflexivity|lia|reflexivity]|]). done.
  - right. unfold escape_common in E. destruct (Z.ltb_spec c 32).
    + left. done.
    + right. repeat (case_match; [done|]). split; [done|]. lia.
Qed.

Lemma escape_common_inj c d e : escape_common c = Some e → escape_common d = Some e → c = d.
Proof.
  unfold escape_common. intros Hc Hd.
  repeat match type of Hc with context [if ?b then _ else _] => destruct b eqn:? end; try done;
  injection Hc as <-;
  repeat match type of Hd with context [if ?b then _ else _] => destruct b eqn:? end;
  first [done | lia].
Qed.

Lemma escape_unique c d r s :
  0 ≤ c → 0 ≤ d → escape_char c ++ r = escape_char d ++ s → c = d ∧ r = s.
Proof.
  intros Hc Hd. 
  destruct (escape_shape c Hc) as [(x & -> & Hx & Ec)|[[-> Hc']|(-> & Hc1 & Hc2)]],
           (escape_shape d Hd) as [(y & -> & Hy & Ed)|[[-> Hd']|(-> & Hd1 & Hd2)]];
    intros E; try (injection E; intros; subst; done).
  - injection E as -> ->. split; [|done]. by eapply escape_common_inj.
  - apply (app_inj_1 (92 :: 117 :: hex_of 4 c) (92 :: 117 :: hex_of 4 d)) in E as [E ->]; [|done].
    split; [|done]. injection E as E1 E2 E3 E4. apply hex4_inj; [lia..|].
    cbn [hex_of app]. congruence.
Qed.

Lemma escape_not_quote c : 0 ≤ c → ∀ r s, escape_char c ++ r ≠ 34 :: s.
Proof.
  intros Hc r s. destruct (escape_shape c Hc) as [(x & -> & _)|[[-> _]|(-> & ? & _)]];
    simpl; intros E; injection E; intros; lia.
Qed.

Lemma quote_body_unique s t r1 r2 :
  forallb valid_char s = true → forallb valid_char t = true →
  flat_map escape_char s ++ 34 :: r1 = flat_map escape_char t ++ 34 :: r2 → s = t ∧ r1 = r2.
Proof.
  assert (Hpos : ∀ c, valid_char c = true → 0 ≤ c) by (unfold valid_char, in_range; lia).
  revert t. induction s as [|c s IH]; intros [|d t]; simpl; rewrite ?andb_true_iff.
  - intros _ _ E. by injection E.
  - intros _ [Hd _] E. rewrite <-app_assoc in E. symmetry in E.
    by apply escape_not_quote in E; [|auto].
  - intros [Hc _] _ E. rewrite <-app_assoc in E. by apply escape_not_quote in E; [|auto].
  - intros [Hc Hs] [Hd Ht] E. rewrite <-!app_assoc in E.
    apply escape_unique in E as [-> E]; [|auto|auto]. apply IH in E as [-> ->]; done.
Qed.

Lemma quote_unique s t r1 r2 :
  forallb valid_char s = true → forallb valid_char t = true →
  quote escape_char s ++ r1 = quote escape_char t ++ r2 → s = t ∧ r1 = r2.
Proof.
  intros Hs Ht E. unfold quote in E. rewrite <-!app_assoc in E. simpl in E.
  injection E as E. by apply quote_body_unique in E.
Qed.

(** ** Atoms *)

Definition is_atom (j : json) : bool :=
  match j with JNull | JBool _ | JInt _ | JFloat _ => true | _ => false end.

Section atoms.
Context `{FloatReprLaws}.

Definition num_char (c : Z) : bool := float_char c.

Lemma int_char_float_char s : forallb int_char s = true → forallb float_char s = true.
Proof.
  rewrite !forallb_forall. intros Hs x Hx. specialize (Hs x Hx). unfold int_char, float_char in *.
  apply orb_true_iff in Hs as [->|Hx']; [done|]. apply orb_true_iff. right.
  apply bool_decide_eq_true. assert (x = 45) as -> by lia. set_solver.
Qed.

Lemma float_char_atom s : forallb float_char s = true → forallb atom_char s = true.
Proof.
  rewrite !forallb_forall. intros Hs x Hx. specialize (Hs x Hx). unfold float_char in Hs.
  unfold atom_char. rewrite negb_true_iff, bool_decide_eq_false. intros Hin.
  unfold is_digit, in_range in Hs.
  assert (x = 34 ∨ x = 44 ∨ x = 58 ∨ x = 91 ∨ x = 93 ∨ x = 123 ∨ x = 125) as Hx' by set_solver.
  destruct Hx' as [->|[->|[->|[->|[->|[->| ->]]]]]]; discriminate Hs.
Qed.

Lemma atom_text_chars j : json_ok j = true → is_atom j = true → forallb atom_char (atom_text j) = true.
Proof using All.
  destruct j as [|[]|n|f| | | |]; try done; intros Hj _; simpl atom_text.
  - apply float_char_atom, int_char_float_char, str_of_int_chars.
  - destruct f; try done; apply float_char_atom, float_repr_chars; done.
Qed.

Lemma atom_text_nonempty j : json_ok j = true → is_atom j = true → atom_text j ≠ [].
Proof using All.
  destruct j as [|[]|n|f| | | |]; try done; intros Hj _; simpl atom_text.
  - apply str_of_int_nonempty.
  - destruct f as [m e| | | |]; try done; intros E.
    + simpl in E. destruct (float_repr_mark (Fin m e) Hj) as [Hm|Hm]; rewrite E in Hm; set_solver.
    + simpl in E. destruct (float_repr_mark NegZero eq_refl) as [Hm|Hm]; rewrite E in Hm; set_solver.
Qed.

Lemma int_not_marked n f : is_finite f = true → str_of_int n = float_repr f → False.
Proof using All.
  intros Hf E. destruct (float_repr_mark f Hf) as [Hm|Hm]; rewrite <-E in Hm;
    pose proof (forallb_elem _ _ _ (str_of_int_chars n) Hm); discriminate.
Qed.

Lemma word_not_number w s :
  forallb float_char w = false → forallb float_char s = true → w = s → False.
Proof. congruence. Qed.

Lemma atom_text_inj j k :
  json_ok j = true → json_ok k = true →
  is_atom j = true → is_atom k = true → atom_text j = atom_text k → j = k.
Proof using All.
  assert (Hi : ∀ n, forallb float_char (str_of_int n) = true)
    by (intros; apply int_char_float_char, str_of_int_chars).
  assert (Hf : ∀ f, is_finite f = true → forallb float_char (float_repr f) = true)
    by apply float_repr_chars.
  destruct j as [|[]|n|[m e| | | |]| | | |]; try done;
    destruct k as [|[]|n'|[m' e'| | | |]| | | |]; try done; intros Hj Hk _ _; cbn [atom_text float_text]; intros E;
    first
      [ reflexivity
      | discriminate E
      | f_equal; by apply str_of_int_inj
      | f_equal; by apply float_repr_inj
      | exfalso; by eapply int_not_marked, E
      | exfalso; symmetry in E; by eapply int_not_marked, E
      | exfalso; eapply word_not_number; [| |exact E]; [reflexivity | by auto]
      | exfalso; symmetry in E; eapply word_not_number; [| |exact E]; [reflexivity | by auto] ].
Qed.
End atoms.

(** ** Sequences of items *)

Lemma join_cons (x : pystr) (l : list pystr) :
  join [44] (x :: l) = x ++ flat_map (λ y, 44 :: y) l.
Proof.
  revert x. induction l as [|y l IH]; intros x; [symmetry; apply app_nil_r|].
  change (join [44] (x :: y :: l)) with (x ++ [44] ++ join [44] (y :: l)).
  rewrite IH. done.
Qed.

Section items.
Context {A : Type} (f : A → pystr) (ok : A → bool) (close : Z).
Context (Hclose : delim close = true) (Hcomma : close ≠ 44).
Context (Hhead : ∀ y r s, ok y = true → f y ++ r = close :: s → False).

(** [x] can be read off the front of any text. *)
Definition readable (x : A) : Prop := ∀ y r s,
  ok y = true → good_rest r → good_rest s → f x ++ r = f y ++ s → x = y ∧ r = s.

Lemma tail_unique l m r s :
  Forall readable l → forallb ok m = true →
  flat_map (λ y, 44 :: y) (map f l) ++ close :: r = flat_map (λ y, 44 :: y) (map f m) ++ close :: s →
  l = m ∧ r = s.
Proof using Hclose Hcomma.
  assert (Hgood : ∀ k u, good_rest (flat_map (λ y, 44 :: y) (map f k) ++ close :: u))
    by (intros [|? ?] u; simpl; done).
  intros Hl. revert m. induction Hl as [|x l Hx Hl IH]; intros [|y m]; simpl; intros Hm E.
  - by injection E.
  - injection E as E1 E2. lia.
  - injection E as E1 E2. lia.
  - apply andb_true_iff in Hm as [Hy Hm]. injection E as E. rewrite <-!app_assoc in E.
    apply Hx in E as [-> E]; auto. apply IH in E as [-> ->]; auto.
Qed.

Lemma items_unique l m r s :
  Forall readable l → forallb ok l = true → forallb ok m = true →
  join [44] (map f l) ++ close :: r = join [44] (map f m) ++ close :: s → l = m ∧ r = s.
Proof using Hclose Hcomma Hhead.
  assert (Hgood : ∀ k u, good_rest (flat_map (λ y, 44 :: y) (map f k) ++ close :: u))
    by (intros [|? ?] u; simpl; done).
  intros Hl Hokl Hokm E. destruct l as [|x l], m as [|y m]; cbn [map] in E;
    rewrite ?join_cons, <-?app_assoc in E; simpl in Hokl, Hokm.
  - by injection E.
  - symmetry in E. apply andb_true_iff in Hokm as [Hy _]. by destruct (Hhead _ _ _ Hy E).
  - apply andb_true_iff in Hokl as [Hx' _]. by destruct (Hhead _ _ _ Hx' E).
  - apply andb_true_iff in Hokm as [Hy Hm]. apply Forall_cons in Hl as [Hx Hl].
    apply Hx in E as [-> E]; auto. by apply tail_unique in E as [-> ->].
Qed.
End items.

Section unique_reading.
Context `{FloatReprLaws}.

(** Apart from atoms, the first character tells the shape of a value. *)
Definition head_char (j : json) : Z :=
  match j with JStr _ => 34 | JList _ => 91 | JObj _ => 123 | _ => 0 end.

Lemma render_head j r c s : json_ok j = true → render j ++ r = c :: s →
  if is_atom j then atom_char c = true else c = head_char j.
Proof using All.
  intros Hj E. destruct (is_atom j) eqn:Ha.
  - assert (render j = atom_text j) as Hr by (by destruct j).
    rewrite Hr in E. pose proof (atom_text_nonempty j Hj Ha). pose proof (atom_text_chars j Hj Ha) as Hc.
    destruct (atom_text j) as [|d t]; [done|]. injection E as -> _.
    by apply andb_true_iff in Hc as [? _].
  - destruct j; try done; simpl in E; by injection E as <- _.
Qed.

Lemma render_head_not_delim j r c s :
  json_ok j = true → render j ++ r = c :: s → delim c = true → False.
Proof using All.
  intros Hj E Hc. apply render_head in E; [|done]. destruct (is_atom j) eqn:Ha.
  - by eapply atom_char_delim.
  - destruct j; try done; subst c; discriminate.
Qed.

Lemma render_same_head j k r s : json_ok j = true → json_ok k = true →
  render j ++ r = render k ++ s → is_atom j = is_atom k ∧ head_char j = head_char k.
Proof using All.
  intros Hj Hk E. destruct (render j ++ r) as [|c t] eqn:Er.
  { exfalso. apply app_eq_nil in Er as [Er _]. destruct (is_atom j) eqn:Ha.
    - apply (atom_text_nonempty j Hj Ha). by destruct j.
    - by destruct j. }
  symmetry in E. pose proof (render_head j _ _ _ Hj Er) as Aj. pose proof (render_head k _ _ _ Hk E) as Ak.
  destruct (is_atom j) eqn:Ha, (is_atom k) eqn:Hb.
  - split; [done|]. by destruct j, k.
  - subst c. by destruct k.
  - subst c. by destruct j.
  - by subst.
Qed.

Lemma render_unique j : ∀ k r s, json_ok j = true → json_ok k = true →
  good_rest r → good_rest s → render j ++ r = render k ++ s → j = k ∧ r = s.
Proof using All.
  induction j as [|b|n|f|t|l IH|kvs IH|] using json_rect'; intros k r s Hj Hk Hr Hs E;
    destruct (render_same_head _ _ _ _ Hj Hk E) as [Ha Hh].
  1-4: assert (render k = atom_text k) as Ek by (by destruct k);
    rewrite Ek in E; simpl render in E; apply span_unique in E as [E ->];
    [split; [apply atom_text_inj|]; done
    | (eapply (atom_text_chars (JBool b)) || eapply (atom_text_chars (JInt n))
       || eapply (atom_text_chars (JFloat f)) || eapply (atom_text_chars JNull)); done
    | apply atom_text_chars; done | done | done].
  - destruct k; try done. simpl render in E. by apply quote_unique in E as [-> ->].
  - destruct k as [| | | | |m| |]; try done. simpl in E. injection E as E. rewrite <-!app_assoc in E.
    apply (items_unique render json_ok 93) in E as [-> ->]; try done.
    + intros y u v Hy Ey. by eapply render_head_not_delim.
    + clear -IH Hj. simpl in Hj. induction IH as [|x l Hx _ IHl]; constructor.
      * intros y u v Hy Hu Hv. apply Hx; auto. by apply andb_true_iff in Hj as [? _].
      * apply IHl. by apply andb_true_iff in Hj as [_ ?].
  - destruct k as [| | | | | |m|]; try done. cbn [render] in E. rewrite <-!app_assoc in E.
    apply (app_inj_1 [123] [123]) in E as [_ E]; [|done].
    eapply (items_unique _ (λ kv, forallb valid_char kv.1 && json_ok kv.2) 125) in E as [-> ->]; try done.
    clear -IH Hj H0. simpl in Hj. induction IH as [|[k x] l Hx _ IHl]; constructor.
      * intros [k' y] u v Hy Hu Hv Exy. cbn [fst snd] in *. simpl in Hj.
        apply andb_true_iff in Hj as [[Hk Hxo]%andb_true_iff _].
        apply andb_true_iff in Hy as [Hk' Hyo].
        rewrite <-!(app_assoc (quote escape_char _)) in Exy.
        apply quote_unique in Exy as [-> Exy]; [|done|done]. injection Exy as Exy.
        by apply Hx in Exy as [-> ->].
      * apply IHl. by apply andb_true_iff in Hj as [_ ?].
  - done.
Qed.
End unique_reading.

Lemma forallb_sort_by {A} (p : A → bool) le l : forallb p l = true → forallb p (sort_by le l) = true.
Proof.
  rewrite !forallb_forall. intros Hl x Hx%list_elem_of_In. apply Hl.
  by apply list_elem_of_In, (elem_of_sort_by le).
Qed.

Lemma json_ok_canon j : json_ok j = true → json_ok (canon j) = true.
Proof.
  induction j as [|b|n|f|t|l IH|kvs IH|] using json_rect'; try done; simpl.
  - intros Hl. induction IH as [|x l Hx _ IHl]; simpl in *; [done|].
    rewrite andb_true_iff in *. naive_solver.
  - intros Hl. apply forallb_sort_by.
    induction IH as [|x l Hx _ IHl]; simpl in *; [done|]. rewrite !andb_true_iff in *. naive_solver.
Qed.

(** Equal canonical texts come from values equal up to key order. *)
Lemma canonical_text_inj `{FloatReprLaws} j k t :
  json_ok j = true → json_ok k = true →
  dumps canonical_options j = Ok t → dumps canonical_options k = Ok t → canon j = canon k.
Proof.
  intros Hj Hk Ej%dumps_canonical Ek%dumps_canonical.
  eapply (render_unique (canon j) (canon k) [] []);
    [by apply json_ok_canon | by apply json_ok_canon | done | done | by rewrite !app_nil_r; congruence].
Qed.
