(* ===== verification/Regex.v ===== *)
(** Regular expressions as app/domain/validation.py writes them, with
    [re.fullmatch] decided by derivatives and proved equal to the language the
    pattern denotes. *)

From S2P Require Import Prelude PyStr.

Inductive regex :=
  | Void
  | Eps
  | Cls (p : Z → bool)
  | Cat (a b : regex)
  | Alt (a b : regex)
  | Star (a : regex).

(** [a?], [a+], [a{0,n}] and [a{lo,hi}]. *)
Definition Opt (a : regex) : regex := Alt Eps a.
Definition Plus (a : regex) : regex := Cat a (Star a).
Fixpoint UpTo (n : nat) (a : regex) : regex :=
  match n with O => Eps | S n' => Alt Eps (Cat a (UpTo n' a)) end.
Fixpoint Exactly (n : nat) (a : regex) : regex :=
  match n with O => Eps | S n' => Cat a (Exactly n' a) end.
Definition Between (lo hi : nat) (a : regex) : regex := Cat (Exactly lo a) (UpTo (hi - lo) a).

(** The strings a pattern denotes. *)
Inductive lang : regex → pystr → Prop :=
  | lang_eps : lang Eps []
  | lang_cls p c : p c = true → lang (Cls p) [c]
  | lang_cat a b s t : lang a s → lang b t → lang (Cat a b) (s ++ t)
  | lang_alt_l a b s : lang a s → lang (Alt a b) s
  | lang_alt_r a b s : lang b s → lang (Alt a b) s
  | lang_star_nil a : lang (Star a) []
  | lang_star_cons a c s t : lang a (c :: s) → lang (Star a) t → lang (Star a) ((c :: s) ++ t).

Fixpoint nullable (r : regex) : bool :=
  match r with
  | Void | Cls _ => false
  | Eps | Star _ => true
  | Cat a b => nullable a && nullable b
  | Alt a b => nullable a || nullable b
  end.

Definition cat (a b : regex) : regex :=
  match a with Void => Void | Eps => b | _ => Cat a b end.
Definition alt (a b : regex) : regex :=
  match a, b with Void, _ => b | _, Void => a | _, _ => Alt a b end.

Fixpoint deriv (c : Z) (r : regex) : regex :=
  match r with
  | Void | Eps => Void
  | Cls p => if p c then Eps else Void
  | Cat a b => if nullable a then alt (cat (deriv c a) b) (deriv c b) else cat (deriv c a) b
  | Alt a b => alt (deriv c a) (deriv c b)
  | Star a => cat (deriv c a) (Star a)
  end.

(** [pattern.fullmatch(s)] *)
Fixpoint fullmatch (r : regex) (s : pystr) : bool :=
  match s with
  | [] => nullable r
  | c :: s' => fullmatch (deriv c r) s'
  end.

Lemma lang_void s : lang Void s ↔ False.
Proof. split; [inversion 1 | done]. Qed.
Lemma lang_eps_iff s : lang Eps s ↔ s = [].
Proof. split; [by inversion 1 | intros ->; constructor]. Qed.
Lemma lang_cls_iff p s : lang (Cls p) s ↔ ∃ c, s = [c] ∧ p c = true.
Proof. split; [inversion 1; eauto | intros (c & -> & ?); by constructor]. Qed.
Lemma lang_cat_iff a b s : lang (Cat a b) s ↔ ∃ s1 s2, s = s1 ++ s2 ∧ lang a s1 ∧ lang b s2.
Proof. split; [inversion 1; eauto | intros (? & ? & -> & ? & ?); by constructor]. Qed.
Lemma lang_alt_iff a b s : lang (Alt a b) s ↔ lang a s ∨ lang b s.
Proof. split; [inversion 1; eauto | intros [|]; by constructor]. Qed.

Lemma lang_smart_cat a b s : lang (cat a b) s ↔ lang (Cat a b) s.
Proof.
  rewrite lang_cat_iff. destruct a; simpl; rewrite ?lang_cat_iff; try done.
  - rewrite lang_void. split; [done|]. intros (? & ? & _ & ?%lang_void & _). done.
  - split; [intros Hs; exists [], s; split_and!; [done|constructor|done]|].
    by intros (? & ? & -> & ->%lang_eps_iff & ?).
Qed.

Lemma lang_smart_alt a b s : lang (alt a b) s ↔ lang (Alt a b) s.
Proof.
  rewrite lang_alt_iff.
  destruct a; destruct b; simpl; rewrite ?lang_alt_iff, ?lang_void; tauto.
Qed.

Lemma nullable_lang r : nullable r = true ↔ lang r [].
Proof.
  induction r as [| |p|a IHa b IHb|a IHa b IHb|a IHa]; simpl.
  - rewrite lang_void. by split.
  - by rewrite lang_eps_iff.
  - rewrite lang_cls_iff. split; [done|]. by intros (? & ? & _).
  - rewrite andb_true_iff, IHa, IHb, lang_cat_iff. split.
    + intros [??]. by exists [], [].
    + by intros (s1 & s2 & [-> ->]%eq_sym%app_eq_nil & ? & ?).
  - by rewrite orb_true_iff, IHa, IHb, lang_alt_iff.
  - split; [constructor | done].
Qed.

Lemma lang_star_cons_inv a c s :
  lang (Star a) (c :: s) ↔ ∃ s1 s2, s = s1 ++ s2 ∧ lang a (c :: s1) ∧ lang (Star a) s2.
Proof.
  split.
  - inversion 1 as [| | | | | |? d s1 t H1 H2 Ha Hs]; subst. eauto.
  - intros (s1 & s2 & -> & ? & ?). by apply (lang_star_cons _ c s1 s2).
Qed.

Lemma deriv_lang c r s : lang (deriv c r) s ↔ lang r (c :: s).
Proof.
  revert s. induction r as [| |p|a IHa b IHb|a IHa b IHb|a IHa]; intros s; simpl.
  - by rewrite !lang_void.
  - rewrite lang_void, lang_eps_iff. by split.
  - rewrite lang_cls_iff. destruct (p c) eqn:E.
    + rewrite lang_eps_iff. split; [intros ->; eauto|]. intros (d & Ed & _). by injection Ed.
    + rewrite lang_void. split; [done|]. intros (d & Ed & ?). injection Ed as -> ->. congruence.
  - assert (Hsplit : lang (Cat a b) (c :: s) ↔
      lang (Cat (deriv c a) b) s ∨ (nullable a = true ∧ lang (deriv c b) s)).
    { rewrite !lang_cat_iff, IHb, nullable_lang. split.
      - intros ([|d s1] & s2 & E & H1 & H2); simpl in E; [right; by subst|].
        injection E as -> ->. left. exists s1, s2. by rewrite IHa.
      - intros [(s1 & s2 & -> & ?%IHa & ?)|[? ?]]; [by exists (c :: s1), s2 | by exists [], (c :: s)]. }
    rewrite Hsplit. destruct (nullable a); rewrite ?lang_smart_alt, ?lang_alt_iff, ?lang_smart_cat; naive_solver.
  - by rewrite lang_smart_alt, !lang_alt_iff, IHa, IHb.
  - rewrite lang_smart_cat, lang_cat_iff, lang_star_cons_inv. by setoid_rewrite IHa.
Qed.

Lemma fullmatch_lang r s : fullmatch r s = true ↔ lang r s.
Proof.
  revert r. induction s as [|c s IH]; intros r; simpl; [apply nullable_lang|].
  by rewrite IH, deriv_lang.
Qed.

(** ** Languages of the repetition operators over one character class *)

Lemma lang_star_cls p s : lang (Star (Cls p)) s ↔ forallb p s = true.
Proof.
  induction s as [|c s IH]; simpl.
  - split; [done | constructor].
  - rewrite lang_star_cons_inv, andb_true_iff. split.
    + intros (s1 & s2 & -> & (d & E & Hp)%lang_cls_iff & H2). injection E as -> ->.
      simpl in IH. split; [done|]. by apply IH.
    + intros [Hp Hs]. exists [], s. split_and!; [done|by constructor|by apply IH].
Qed.

Lemma lang_exactly_cls n p s :
  lang (Exactly n (Cls p)) s ↔ length s = n ∧ forallb p s = true.
Proof.
  revert s. induction n as [|n IH]; intros s; simpl.
  - rewrite lang_eps_iff. split; [by intros -> | by intros [?%nil_length_inv _]].
  - rewrite lang_cat_iff. split.
    + intros (s1 & s2 & -> & (c & -> & Hp)%lang_cls_iff & [<- Hs]%IH). simpl. by rewrite Hp, Hs.
    + destruct s as [|c s]; [by intros [? _]|]. simpl. intros [[= <-] [Hp Hs]%andb_true_iff].
      exists [c], s. split_and!; [done|by constructor|by apply IH].
Qed.

Lemma lang_upto_cls n p s :
  lang (UpTo n (Cls p)) s ↔ (length s ≤ n)%nat ∧ forallb p s = true.
Proof.
  revert s. induction n as [|n IH]; intros s; simpl.
  - rewrite lang_eps_iff. split; [by intros -> | ]. destruct s; [done|]. simpl. lia.
  - rewrite lang_alt_iff, lang_eps_iff, lang_cat_iff. split.
    + intros [->|(s1 & s2 & -> & (c & -> & Hp)%lang_cls_iff & [? Hs]%IH)]; simpl; [split; [lia|done]|].
      rewrite Hp, Hs. split; [lia|done].
    + destruct s as [|c s]; [by left|]. simpl. intros [Hl [Hp Hs]%andb_true_iff]. right.
      exists [c], s. split_and!; [done|by constructor|]. apply IH. split; [lia|done].
Qed.

Lemma lang_between_cls lo hi p s : (lo ≤ hi)%nat →
  lang (Between lo hi (Cls p)) s ↔ (lo ≤ length s ≤ hi)%nat ∧ forallb p s = true.
Proof.
  intros Hle. unfold Between. rewrite lang_cat_iff. setoid_rewrite lang_exactly_cls.
  setoid_rewrite lang_upto_cls. split.
  - intros (s1 & s2 & -> & [? H1] & [? H2]). rewrite length_app, forallb_app, H1, H2. split; [lia|done].
  - intros [Hl Hs]. exists (take lo s), (drop lo s).
    rewrite <-(take_drop lo s), forallb_app, andb_true_iff in Hs. destruct Hs as [Ht Hd].
    rewrite take_drop, length_take, length_drop. split_and!; [done|lia|done|lia|done].
Qed.

(** A pattern whose classes all lie inside [q] only matches strings inside [q]. *)
Fixpoint within (q : Z → bool) (r : regex) : Prop :=
  match r with
  | Void | Eps => True
  | Cls p => ∀ c, p c = true → q c = true
  | Cat a b | Alt a b => within q a ∧ within q b
  | Star a => within q a
  end.

Lemma lang_within q r s : within q r → lang r s → forallb q s = true.
Proof.
  intros Hq Hl. revert Hq.
  induction Hl as [|p c Hp|a b s t Ha IHa Hb IHb|a b s Ha IHa|a b s Hb IHb|a|a c s t Ha IHa Hs IHs];
    simpl; intros Hq.
  - done.
  - by rewrite (Hq c Hp).
  - destruct Hq. by rewrite forallb_app, IHa, IHb.
  - destruct Hq. auto.
  - destruct Hq. auto.
  - done.
  - specialize (IHa Hq). simpl in IHa, IHs. rewrite forallb_app.
    apply andb_true_iff in IHa as [-> ->]. by rewrite IHs.
Qed.
