(* ===== verification/Validation.v ===== *)
(** The normalisers and validators of app/domain/validation.py, and the ones of
    app/domain/evidence.py, decisions.py and retrieval.py that clean text: what
    they accept, what they return, and that normalising twice changes nothing. *)

From S2P Require Import Prelude PyStr Json Regex.

(** [Decimal(str(value))]: a finite decimal is [m * 10^e]. *)
Inductive decimal :=
  | Dec (m e : Z)
  | DInfinity (negative : bool)
  | DNaN.

(** An [int] argument may be a [bool]. *)
Inductive py_int := PyBool (b : bool) | PyInt (n : Z).

Section validation.
Context `{UD : !UnicodeData} `{FR : !FloatRepr}.

(** ** Patterns *)

Definition slug_edge (c : Z) : bool := is_lower_az c || is_digit c.
Definition slug_inner (c : Z) : bool := slug_edge c || (c =? 45).

(** [^[a-z0-9][a-z0-9-]{1,61}[a-z0-9]$] *)
Definition SLUG_PATTERN : regex :=
  Cat (Cls slug_edge) (Cat (Between 1 61 (Cls slug_inner)) (Cls slug_edge)).

(** [[^@\s]] *)
Definition email_char (c : Z) : bool := negb ((c =? 64) || is_space c).

(** [^[^@\s]+@[^@\s]+\.[^@\s]+$] *)
Definition EMAIL_PATTERN : regex :=
  Cat (Plus (Cls email_char)) (Cat (Cls (Z.eqb 64)) (Cat (Plus (Cls email_char))
    (Cat (Cls (Z.eqb 46)) (Plus (Cls email_char))))).

Definition ident_tail (c : Z) : bool := is_lower_az c || is_digit c || (c =? 95).
Definition ident_segment : regex := Cat (Cls is_lower_az) (Star (Cls ident_tail)).

(** Segments [[a-z][a-z0-9_]*] separated by dots. *)
Definition IDENTIFIER_PATTERN : regex :=
  Cat ident_segment (Star (Cat (Cls (Z.eqb 46)) ident_segment)).

Definition EMAIL_MAX_LENGTH : Z := 320.
Definition NAME_MAX_LENGTH : Z := 200.
Definition IDENTIFIER_MAX_LENGTH : Z := 128.
Definition EXTERNAL_ID_MAX_LENGTH : Z := 256.
Definition URI_MAX_LENGTH : Z := 2048.
Definition FACT_VALUE_MAX_BYTES : Z := 16384.
Definition ALLOWED_URI_SCHEMES : list pystr := [py "https://"; py "http://"; py "s3://"].

(** ** Normalisers *)

Definition normalize_slug (value : pystr) : result pystr :=
  let slug := lower (strip value) in
  if fullmatch SLUG_PATTERN slug then Ok slug
  else Err (ValidationFailedError
    "slug must be 3-63 characters of a-z, 0-9 or '-', and must not start or end with '-'").

Definition normalize_email (value : pystr) : result pystr :=
  let email := lower (strip value) in
  if (EMAIL_MAX_LENGTH <? zlen email) || negb (fullmatch EMAIL_PATTERN email)
  then Err (ValidationFailedError "email address is not valid")
  else Ok email.

Definition normalize_name (value : pystr) : result pystr :=
  let name := join [32] (split_ws value) in
  if bool_decide (name = []) then Err (ValidationFailedError "{field} must not be empty")
  else if NAME_MAX_LENGTH <? zlen name
  then Err (ValidationFailedError "{field} must be at most {NAME_MAX_LENGTH} characters")
  else Ok name.

Definition normalize_identifier (value : pystr) : result pystr :=
  let identifier := lower (strip value) in
  if (IDENTIFIER_MAX_LENGTH <? zlen identifier) || negb (fullmatch IDENTIFIER_PATTERN identifier)
  then Err (ValidationFailedError
    "{field} must be lower snake_case segments separated by '.', at most {IDENTIFIER_MAX_LENGTH} characters")
  else Ok identifier.

Definition normalize_external_id (value : pystr) : result pystr :=
  let external_id := strip value in
  if bool_decide (external_id = []) || (EXTERNAL_ID_MAX_LENGTH <? zlen external_id)
  then Err (ValidationFailedError "external_id must be 1-{EXTERNAL_ID_MAX_LENGTH} characters")
  else if existsb (λ ch, negb (isprintable ch)) external_id
  then Err (ValidationFailedError "external_id must not contain control characters")
  else Ok external_id.

(** [json.dumps] with its [TypeError] and [ValueError] turned into [e]. *)
Definition dumps_compact_or (e : exn) (value : json) : result (list Z) :=
  match dumps compact_options value with
  | Ok encoded => encode_utf8 encoded
  | Err (TypeError | ValueError) => Err e
  | Err e' => Err e'
  end.

Definition validate_fact_value (value : json) : result json :=
  match value with
  | JNull => Err (ValidationFailedError "value must not be null; model 'unknown' explicitly")
  | _ =>
    encoded ← dumps_compact_or (ValidationFailedError "value is not valid JSON: {exc}") value;
    if FACT_VALUE_MAX_BYTES <? zlen encoded
    then Err (ValidationFailedError "value must be at most {FACT_VALUE_MAX_BYTES} bytes as JSON")
    else Ok value
  end.

(** Rounding half to even of [m / 10^k]. *)
Definition round_half_even (m : Z) (k : Z) : Z :=
  let d := 10 ^ k in
  let q := m / d in
  let r := m mod d in
  if 2 * r <? d then q else if d <? 2 * r then q + 1 else if Z.even q then q else q + 1.

(** [d.quantize(Decimal("0.001"))] in thousandths; the default context keeps 28
    digits and signals [InvalidOperation] beyond, or for an infinity.  A NaN
    stays a NaN ([None]). *)
Definition quantize_thousandths (d : decimal) : result (option Z) :=
  match d with
  | Dec m e =>
    let q := if -3 <=? e then m * 10 ^ (e + 3) else round_half_even m (- (e + 3)) in
    if 10 ^ 28 <=? Z.abs q then Err InvalidOperation else Ok (Some q)
  | DInfinity _ => Err InvalidOperation
  | DNaN => Ok None
  end.

(** The confidence in thousandths.  [parsed] is [Decimal(str(value))], [None]
    when that text is not a number.  The comparison with a NaN is outside the
    [try] block and signals [InvalidOperation] itself. *)
Definition normalize_confidence (parsed : option decimal) : result Z :=
  match parsed with
  | None => Err (ValidationFailedError "confidence must be a number")
  | Some d =>
    match quantize_thousandths d with
    | Err _ => Err (ValidationFailedError "confidence must be a number")
    | Ok None => Err InvalidOperation
    | Ok (Some confidence) =>
      if (0 <=? confidence) && (confidence <=? 1000) then Ok confidence
      else Err (ValidationFailedError "confidence must be between 0 and 1")
    end
  end.

Definition validate_authority (value : py_int) : result Z :=
  match value with
  | PyBool _ => Err (ValidationFailedError "authority must be an integer between 0 and 100")
  | PyInt n =>
    if (0 <=? n) && (n <=? 100) then Ok n
    else Err (ValidationFailedError "authority must be an integer between 0 and 100")
  end.

Definition normalize_uri (value : option pystr) : result (option pystr) :=
  match value with
  | None => Ok None
  | Some value =>
    let uri := strip value in
    if (URI_MAX_LENGTH <? zlen uri) || negb (startswith_any ALLOWED_URI_SCHEMES uri)
    then Err (ValidationFailedError
      "uri must be an http(s):// or s3:// URL of at most 2048 characters")
    else Ok (Some uri)
  end.

(** ** app/domain/evidence.py *)

Definition EXCERPT_MAX_CHARS : Z := 8000.
Definition METADATA_MAX_BYTES : Z := 4096.

Definition normalize_excerpt (value : pystr) : result pystr :=
  let excerpt := strip (normalize_newlines value) in
  if bool_decide (excerpt = []) then Err (ValidationFailedError "excerpt must not be empty")
  else if EXCERPT_MAX_CHARS <? zlen excerpt
  then Err (ValidationFailedError
    "excerpt must be at most {EXCERPT_MAX_CHARS} characters; store larger documents externally and reference them by uri")
  else if bool_decide (0 ∈ excerpt)
  then Err (ValidationFailedError "excerpt must not contain NUL characters")
  else Ok excerpt.

Definition validate_metadata (value : json) : result json :=
  match value with
  | JNull => Ok (JObj [])
  | JObj kvs =>
    encoded ← dumps_compact_or (ValidationFailedError "metadata is not valid JSON: {exc}") (JObj kvs);
    if METADATA_MAX_BYTES <? zlen encoded
    then Err (ValidationFailedError "metadata must be at most {METADATA_MAX_BYTES} bytes")
    else Ok (JObj kvs)
  | _ => Err (ValidationFailedError "metadata must be a JSON object")
  end.

(** ** app/domain/decisions.py *)

Definition MAX_RATIONALE_CHARS : Z := 4000.
Definition MAX_RELIED_ON : Z := 50.

Definition normalize_action (action : pystr) : result pystr := normalize_identifier action.

Definition normalize_rationale (rationale : option pystr) : result (option pystr) :=
  match rationale with
  | None => Ok None
  | Some rationale =>
    let cleaned := strip rationale in
    if bool_decide (cleaned = []) then Ok None
    else if MAX_RATIONALE_CHARS <? zlen cleaned
    then Err (ValidationFailedError "rationale must be at most {MAX_RATIONALE_CHARS} characters")
    else Ok (Some cleaned)
  end.

Definition normalize_agent (agent : option pystr) : result (option pystr) :=
  match agent with
  | None => Ok None
  | Some a => name ← normalize_name a; Ok (Some name)
  end.

Definition validate_outcome (outcome : json) : result json := validate_fact_value outcome.

Definition validate_relied_on (relied_on snapshot_facts : list UUID) : result (list UUID) :=
  let ids := relied_on in
  if negb (bool_decide (NoDup ids))
  then Err (ValidationFailedError "relied_on contains duplicate fact versions")
  else if MAX_RELIED_ON <? zlen ids
  then Err (ValidationFailedError "relied_on accepts at most {MAX_RELIED_ON} fact versions")
  else if existsb (λ i, negb (bool_decide (i ∈ snapshot_facts))) ids
  then Err (ValidationFailedError
    "relied_on may only cite fact versions from the decision's context snapshot")
  else Ok (sort_on id ids).

(** ** app/domain/retrieval.py *)

Definition MAX_QUERY_CHARS : Z := 1000.

Definition normalize_query (query : pystr) : result pystr :=
  let cleaned := strip (collapse_ws query) in
  if bool_decide (cleaned = []) then Err (ValidationFailedError "query must not be empty")
  else if MAX_QUERY_CHARS <? zlen cleaned
  then Err (ValidationFailedError "query must be at most {MAX_QUERY_CHARS} characters")
  else Ok cleaned.

(** ** Slugs and identifiers *)

Definition slug_shape (s : pystr) : Prop :=
  (3 ≤ length s ≤ 63)%nat ∧ forallb slug_inner s = true ∧
  (∀ c, head s = Some c ∨ last s = Some c → slug_edge c = true).

Lemma slug_pattern_shape s : fullmatch SLUG_PATTERN s = true ↔ slug_shape s.
Proof.
  unfold SLUG_PATTERN, slug_shape. rewrite fullmatch_lang, lang_cat_iff.
  setoid_rewrite lang_cat_iff. setoid_rewrite lang_cls_iff.
  setoid_rewrite (lang_between_cls 1 61 slug_inner); [|lia].
  assert (Hin : ∀ c, slug_edge c = true → slug_inner c = true)
    by (intros c Hc; unfold slug_inner; by rewrite Hc).
  split.
  - intros (? & ? & -> & (c & -> & Hc) & (m & ? & -> & [Hl Hm] & (d & -> & Hd))).
    rewrite last_app. simpl. rewrite length_app, forallb_app, Hm. simpl.
    rewrite (Hin c), (Hin d) by done. split_and!; [lia|lia|done|].
    intros x [[= <-]|Hx]; [done|]. rewrite last_snoc in Hx. by injection Hx as <-.
  - destruct s as [|c s]; [intros [? _]; simpl in *; lia|]. intros (Hl & Hall & Hends).
    destruct s as [|d m _] using rev_ind; [simpl in *; lia|].
    simpl in Hl, Hall. rewrite length_app in Hl. simpl in Hl.
    apply andb_true_iff in Hall as [Hc Hall]. rewrite forallb_app in Hall.
    apply andb_true_iff in Hall as [Hm _].
    exists [c], (m ++ [d]). split_and!; [done| |].
    + exists c. split; [done|]. apply Hends. by left.
    + exists m, [d]. split_and!; [done|lia|lia|done|]. exists d. split; [done|].
      apply Hends. right. rewrite app_comm_cons. apply last_snoc.
Qed.

Lemma slug_char_plain c : slug_inner c = true →
  is_ascii c && negb (is_upper_az c) = true ∧ negb (is_space c) = true.
Proof.
  unfold slug_inner, slug_edge, is_lower_az, is_digit, is_ascii, is_upper_az, is_space, in_range.
  intros Hc. split; [lia|].
  rewrite bool_decide_eq_false_2; [lia|]. rewrite !elem_of_cons, elem_of_nil. lia.
Qed.

Definition ident_char (c : Z) : bool := ident_tail c || (c =? 46).

Lemma ident_char_plain c : ident_char c = true →
  is_ascii c && negb (is_upper_az c) = true ∧ negb (is_space c) = true.
Proof.
  unfold ident_char, ident_tail, is_lower_az, is_digit, is_ascii, is_upper_az, is_space, in_range.
  intros Hc. split; [lia|].
  rewrite bool_decide_eq_false_2; [lia|]. rewrite !elem_of_cons, elem_of_nil. lia.
Qed.

Lemma identifier_pattern_chars s :
  fullmatch IDENTIFIER_PATTERN s = true → forallb ident_char s = true.
Proof.
  intros Hs%fullmatch_lang. refine (lang_within _ _ _ _ Hs). unfold IDENTIFIER_PATTERN, ident_segment.
  cbn [within].
  split_and!; intros c Hc; unfold ident_char, ident_tail, is_lower_az, is_digit, in_range in *; lia.
Qed.

(** Text of plain characters is left alone by [strip] and [lower]. *)
Lemma strip_lower_plain (p : Z → bool) s :
  (∀ c, p c = true → is_ascii c && negb (is_upper_az c) = true ∧ negb (is_space c) = true) →
  forallb p s = true → lower (strip s) = s.
Proof.
  intros Hp. rewrite forallb_forall. intros Hs.
  rewrite strip_nonspace; [apply lower_ascii_noop|]; apply forallb_forall; intros c Hc;
    by apply Hp, Hs.
Qed.

Lemma normalize_slug_ok v s :
  normalize_slug v = Ok s ↔ s = lower (strip v) ∧ slug_shape s.
Proof.
  unfold normalize_slug. rewrite <-slug_pattern_shape.
  destruct (fullmatch _ _) eqn:E; split; [intros [= <-]; done | by intros [-> _] | done |].
  intros [-> ?]. congruence.
Qed.

Lemma slug_shape_fixed s : slug_shape s → lower (strip s) = s.
Proof. intros (_ & Hs & _). by apply (strip_lower_plain _ _ slug_char_plain). Qed.

Lemma normalize_identifier_ok v s : normalize_identifier v = Ok s ↔
  s = lower (strip v) ∧ zlen s ≤ IDENTIFIER_MAX_LENGTH ∧ fullmatch IDENTIFIER_PATTERN s = true.
Proof.
  unfold normalize_identifier.
  destruct (Z.ltb_spec IDENTIFIER_MAX_LENGTH (zlen (lower (strip v)))); simpl.
  - split; [done|]. intros (-> & ? & _). lia.
  - destruct (fullmatch _ _) eqn:E; simpl; split;
      [intros [= <-]; done | by intros [-> _] | done | intros (-> & _ & ?); congruence].
Qed.

Lemma identifier_fixed s : fullmatch IDENTIFIER_PATTERN s = true → lower (strip s) = s.
Proof.
  intros Hs%identifier_pattern_chars. by apply (strip_lower_plain _ _ ident_char_plain).
Qed.

(** ** Excerpts *)

Lemma normalize_excerpt_ok v s : normalize_excerpt v = Ok s ↔
  s = strip (normalize_newlines v) ∧ s ≠ [] ∧ zlen s ≤ EXCERPT_MAX_CHARS ∧ 0 ∉ s.
Proof.
  unfold normalize_excerpt. case_bool_decide; [split; [done|naive_solver]|].
  destruct (Z.ltb_spec EXCERPT_MAX_CHARS (zlen (strip (normalize_newlines v)))).
  { split; [done|]. intros (-> & _ & ? & _). lia. }
  case_bool_decide; [split; [done|naive_solver]|]. split; [intros [= <-]; done | by intros [-> _]].
Qed.

Lemma excerpt_fixed v :
  strip (normalize_newlines (strip (normalize_newlines v))) = strip (normalize_newlines v).
Proof.
  rewrite (normalize_newlines_noop (strip _)); [apply strip_idemp|].
  apply forallb_strip, no_char_after_newlines.
Qed.

(** The same text with Windows line endings. *)
Definition to_crlf (s : pystr) : pystr := flat_map (λ c, if c =? 10 then [13; 10] else [c]) s.

Lemma crlf_to_lf_to_crlf s : forallb (λ c, negb (c =? 13)) s = true → crlf_to_lf (to_crlf s) = s.
Proof.
  induction s as [|c s IH]; [done|]. simpl. rewrite andb_true_iff, negb_true_iff.
  intros [Hc Hs]. unfold to_crlf in *. simpl. destruct (Z.eqb_spec c 10) as [->|]; simpl.
  - by rewrite IH.
  - by rewrite Hc, IH.
Qed.

(** ** Fact values *)

Lemma validate_fact_value_ok v w : validate_fact_value v = Ok w → w = v ∧ v ≠ JNull.
Proof.
  unfold validate_fact_value. intros H.
  destruct v; try discriminate H; apply result_bind_ok in H as (enc & _ & H);
    destruct (FACT_VALUE_MAX_BYTES <? zlen enc); try discriminate H; by injection H as <-.
Qed.

(** ** Cited fact versions *)

Lemma validate_relied_on_ok relied snapshot ids :
  validate_relied_on relied snapshot = Ok ids ↔
  ids = sort_on id relied ∧ NoDup relied ∧ zlen relied ≤ MAX_RELIED_ON ∧
  ∀ i, i ∈ relied → i ∈ snapshot.
Proof.
  unfold validate_relied_on. case_bool_decide; simpl; [|split; [done|naive_solver]].
  destruct (Z.ltb_spec MAX_RELIED_ON (zlen relied)); [split; [done|]; intros; lia|].
  destruct (existsb _ _) eqn:E.
  - split; [done|]. intros (_ & _ & _ & Hin). apply existsb_exists in E as (i & Hi & Hn).
    apply list_elem_of_In in Hi. apply negb_true_iff, bool_decide_eq_false in Hn. naive_solver.
  - split; [|by intros [-> _]]. intros [= <-]. split_and!; [done|done|done|].
    intros i Hi%list_elem_of_In. destruct (decide (i ∈ snapshot)) as [|Hn]; [done|].
    assert (existsb (λ i, negb (bool_decide (i ∈ snapshot))) relied = true); [|congruence].
    apply existsb_exists. exists i. split; [done|]. by apply negb_true_iff, bool_decide_eq_false.
Qed.

End validation.
