(* ===== verification/Access.v ===== *)
(** Roles, permissions, tenant contexts and privacy scopes: app/domain/roles.py,
    tenancy.py, the enumerations of facts.py and the visibility rule of
    retrieval.py. *)

From S2P Require Import Prelude PyStr.

Inductive MembershipRole := ADMIN | ENGINEER | VIEWER.
Inductive Permission :=
  | READ_ORGANIZATION | READ_MEMBERS | MANAGE_MEMBERS | READ_FACTS | WRITE_FACTS
  | REVOKE_FACTS | READ_DECISIONS | RECORD_DECISIONS | READ_AUDIT.
Inductive PrivacyScope := PUBLIC | INTERNAL | CONFIDENTIAL | RESTRICTED.
Inductive SourceType := SYSTEM_OF_RECORD | API | DOCUMENT | HUMAN | AGENT.

#[export] Instance MembershipRole_eq_dec : EqDecision MembershipRole.
Proof. solve_decision. Defined.
#[export] Instance Permission_eq_dec : EqDecision Permission.
Proof. solve_decision. Defined.
#[export] Instance PrivacyScope_eq_dec : EqDecision PrivacyScope.
Proof. solve_decision. Defined.
#[export] Instance SourceType_eq_dec : EqDecision SourceType.
Proof. solve_decision. Defined.

(** * Roles *)

Definition all_permissions : list Permission :=
  [READ_ORGANIZATION; READ_MEMBERS; MANAGE_MEMBERS; READ_FACTS; WRITE_FACTS;
   REVOKE_FACTS; READ_DECISIONS; RECORD_DECISIONS; READ_AUDIT].

Definition VIEWER_PERMISSIONS : list Permission :=
  [READ_ORGANIZATION; READ_MEMBERS; READ_FACTS; READ_DECISIONS].
Definition ENGINEER_PERMISSIONS : list Permission :=
  VIEWER_PERMISSIONS ++ [WRITE_FACTS; RECORD_DECISIONS].
Definition ADMIN_PERMISSIONS : list Permission := all_permissions.

Definition ROLE_PERMISSIONS (role : MembershipRole) : list Permission :=
  match role with
  | ADMIN => ADMIN_PERMISSIONS
  | ENGINEER => ENGINEER_PERMISSIONS
  | VIEWER => VIEWER_PERMISSIONS
  end.

Definition has_permission (role : MembershipRole) (permission : Permission) : bool :=
  bool_decide (permission ∈ ROLE_PERMISSIONS role).

(** The text of a permission, as tokens and messages carry it. *)
Definition permission_text (p : Permission) : pystr :=
  match p with
  | READ_ORGANIZATION => py "organization:read"
  | READ_MEMBERS => py "members:read"
  | MANAGE_MEMBERS => py "members:manage"
  | READ_FACTS => py "facts:read"
  | WRITE_FACTS => py "facts:write"
  | REVOKE_FACTS => py "facts:revoke"
  | READ_DECISIONS => py "decisions:read"
  | RECORD_DECISIONS => py "decisions:record"
  | READ_AUDIT => py "audit:read"
  end.

Definition scope_text (s : PrivacyScope) : pystr :=
  match s with
  | PUBLIC => py "PUBLIC" | INTERNAL => py "INTERNAL"
  | CONFIDENTIAL => py "CONFIDENTIAL" | RESTRICTED => py "RESTRICTED"
  end.

(** [Permission(text)] and [PrivacyScope(text)]: [ValueError] for other texts. *)
Definition permission_of_text (t : pystr) : result Permission :=
  match List.find (λ p, bool_decide (permission_text p = t)) all_permissions with
  | Some p => Ok p
  | None => Err ValueError
  end.

(** * Tenant contexts *)

Record TenantContext := {
  ctx_organization_id : UUID;
  ctx_user_id : UUID;
  ctx_role : MembershipRole;
  ctx_scopes : option (list Permission);
  ctx_max_privacy_scope : option PrivacyScope;
  ctx_agent_client_id : option UUID;
}.

(** [self.scopes is None or permission in self.scopes] *)
Definition scopes_allow (scopes : option (list Permission)) (permission : Permission) : bool :=
  match scopes with
  | None => true
  | Some ps => bool_decide (permission ∈ ps)
  end.

Definition can (ctx : TenantContext) (permission : Permission) : bool :=
  has_permission (ctx_role ctx) permission && scopes_allow (ctx_scopes ctx) permission.

(** * Privacy *)

Definition PRIVACY_ORDER : list PrivacyScope := [PUBLIC; INTERNAL; CONFIDENTIAL; RESTRICTED].

(** [PRIVACY_ORDER.index(scope)] *)
Fixpoint index_of (s : PrivacyScope) (l : list PrivacyScope) : nat :=
  match l with
  | [] => O
  | x :: l' => if bool_decide (x = s) then O else S (index_of s l')
  end.
Definition privacy_index (s : PrivacyScope) : nat := index_of s PRIVACY_ORDER.

Definition ROLE_MAX_PRIVACY (role : MembershipRole) : PrivacyScope :=
  match role with VIEWER => INTERNAL | ENGINEER => CONFIDENTIAL | ADMIN => RESTRICTED end.

Fixpoint narrow (ceiling : nat) (ceilings : list (option PrivacyScope)) : nat :=
  match ceilings with
  | [] => ceiling
  | Some requested :: cs => narrow (Nat.min ceiling (privacy_index requested)) cs
  | None :: cs => narrow ceiling cs
  end.

Definition visible_privacy_scopes (role : MembershipRole) (ceilings : list (option PrivacyScope)) :
    list PrivacyScope :=
  let ceiling := narrow (privacy_index (ROLE_MAX_PRIVACY role)) ceilings in
  take (ceiling + 1) PRIVACY_ORDER.

(** [max(a, b, key=PRIVACY_ORDER.index)]: the first of equal keys. *)
Definition max_scope (a b : PrivacyScope) : PrivacyScope :=
  if (privacy_index a <? privacy_index b)%nat then b else a.

(** * Lemmas *)

Lemma privacy_index_inj a b : privacy_index a = privacy_index b → a = b.
Proof. by destruct a, b. Qed.

Lemma privacy_index_eq s :
  privacy_index s = match s with
    PUBLIC => 0 | INTERNAL => 1 | CONFIDENTIAL => 2 | RESTRICTED => 3 end%nat.
Proof. by destruct s. Qed.

Lemma elem_of_visible_order n s : s ∈ take (n + 1) PRIVACY_ORDER ↔ (privacy_index s ≤ n)%nat.
Proof.
  rewrite Nat.add_1_r, privacy_index_eq. unfold PRIVACY_ORDER.
  destruct s; destruct n as [|[|[|n]]]; cbn; rewrite ?firstn_nil, ?elem_of_cons, ?elem_of_nil;
    split; intros Hs; first [lia | tauto | naive_solver].
Qed.

Lemma narrow_le c cs : (narrow c cs ≤ c)%nat.
Proof.
  revert c. induction cs as [|[s|] cs IH]; intros c; simpl; [lia| |apply IH].
  specialize (IH (Nat.min c (privacy_index s))). lia.
Qed.

Lemma narrow_spec c cs n :
  (n ≤ narrow c cs)%nat ↔ (n ≤ c)%nat ∧ ∀ s, Some s ∈ cs → (n ≤ privacy_index s)%nat.
Proof.
  revert c. induction cs as [|[s|] cs IH]; intros c; simpl.
  - split; [|tauto]. intros ?. split; [done|]. intros s Hs. by apply not_elem_of_nil in Hs.
  - rewrite IH. split.
    + intros [? Hcs]. split; [lia|]. intros t [[= <-]|]%elem_of_cons; [lia|auto].
    + intros [? Hcs]. split; [|intros t Ht; apply Hcs; by right].
      specialize (Hcs s ltac:(by left)). lia.
  - rewrite IH. split; intros [? Hcs]; (split; [done|]).
    + intros t [?|]%elem_of_cons; [done|auto].
    + intros t Ht. apply Hcs. by right.
Qed.

(** A scope is visible exactly when no ceiling, the role's included, is below it. *)
Lemma visible_spec role cs s :
  s ∈ visible_privacy_scopes role cs ↔
  (privacy_index s ≤ privacy_index (ROLE_MAX_PRIVACY role))%nat ∧
  ∀ c, Some c ∈ cs → (privacy_index s ≤ privacy_index c)%nat.
Proof. unfold visible_privacy_scopes. by rewrite elem_of_visible_order, narrow_spec. Qed.

Lemma max_scope_spec a b :
  privacy_index (max_scope a b) = Nat.max (privacy_index a) (privacy_index b).
Proof.
  unfold max_scope. destruct (Nat.ltb_spec (privacy_index a) (privacy_index b)); lia.
Qed.

Lemma permission_text_inj p q : permission_text p = permission_text q → p = q.
Proof. by destruct p, q. Qed.

Lemma permission_roundtrip p : permission_of_text (permission_text p) = Ok p.
Proof. by destruct p. Qed.

Lemma role_permissions_monotone p :
  (has_permission VIEWER p = true → has_permission ENGINEER p = true) ∧
  (has_permission ENGINEER p = true → has_permission ADMIN p = true).
Proof. by destruct p. Qed.
