(* ===== verification/Temporal.v ===== *)
(** The bitemporal core: app/domain/facts.py (validity windows, the plan for a new
    version), app/temporal/model.py and app/temporal/reference.py (what a history
    says at an instant, as known at another). *)

From S2P Require Import Prelude PyStr Json Access.

(** A Python [datetime]: with a UTC offset (its instant), or naive. *)
Inductive datetime := Aware (us : Instant) | Naive (us : Z).

Definition require_aware (value : datetime) : result Instant :=
  match value with
  | Aware us => Ok us
  | Naive _ => Err (ValidationFailedError
      "{field} must include a timezone (e.g. 2026-09-23T10:30:00Z)")
  end.

(** [if value is not None: require_aware(value)] *)
Definition require_aware_opt (value : option datetime) : result (option Instant) :=
  match value with
  | None => Ok None
  | Some v => i ← require_aware v; Ok (Some i)
  end.

(** * Validity windows *)

Record ValidityWindow := {
  vw_valid_from : Instant;
  vw_valid_until : option Instant;
}.

(** [valid_until is None or t < valid_until] *)
Definition before_end (t : Instant) (until : option Instant) : bool :=
  match until with None => true | Some u => t <? u end.

(** The constructor with its [__post_init__]. *)
Definition make_window (valid_from : datetime) (valid_until : option datetime) :
    result ValidityWindow :=
  from ← require_aware valid_from;
  until ← require_aware_opt valid_until;
  match until with
  | Some u => if u <=? from
              then Err (ValidationFailedError "valid_until must be later than valid_from")
              else Ok {| vw_valid_from := from; vw_valid_until := Some u |}
  | None => Ok {| vw_valid_from := from; vw_valid_until := None |}
  end.

Definition window_covers (w : ValidityWindow) (t : Instant) : bool :=
  (vw_valid_from w <=? t) && before_end t (vw_valid_until w).

Definition contains (w : ValidityWindow) (instant : datetime) : result bool :=
  t ← require_aware instant; Ok (window_covers w t).

(** * Planning a version *)

Record LatestVersion := {
  lv_version : Z;
  lv_window : ValidityWindow;
}.

Record VersionPlan := {
  vp_version : Z;
  vp_close_previous_at : option Instant;
}.

Definition plan_new_version (latest : option LatestVersion) (window : ValidityWindow) :
    result VersionPlan :=
  match latest with
  | None => Ok {| vp_version := 1; vp_close_previous_at := None |}
  | Some latest =>
    let previous := lv_window latest in
    if vw_valid_from window <=? vw_valid_from previous
    then Err (ConflictError
      "new version must start after version {latest.version} (valid_from {previous.valid_from.isoformat()}); rewriting history requires a revocation")
    else match vw_valid_until previous with
    | None => Ok {| vp_version := lv_version latest + 1;
                    vp_close_previous_at := Some (vw_valid_from window) |}
    | Some u =>
      if vw_valid_from window <? u
      then Err (ConflictError
        "new version overlaps version {latest.version}, which is valid until {previous.valid_until.isoformat()}")
      else Ok {| vp_version := lv_version latest + 1; vp_close_previous_at := None |}
    end
  end.

(** * Snapshots and histories *)

(** Confidence is kept in thousandths ([Numeric(4, 3)]). *)
Record VersionSnapshot := {
  vs_id : UUID;
  vs_fact_id : UUID;
  vs_version : Z;
  vs_value : json;
  vs_source_id : UUID;
  vs_valid_from : Instant;
  vs_valid_until : option Instant;
  vs_observed_at : Instant;
  vs_recorded_at : Instant;
  vs_valid_until_recorded_at : option Instant;
  vs_supersedes_id : option UUID;
  vs_authority : Z;
  vs_confidence : Z;
  vs_privacy_scope : PrivacyScope;
}.

Record ResolvedFact := {
  rf_fact_id : UUID;
  rf_entity_id : UUID;
  rf_entity_type : pystr;
  rf_external_id : pystr;
  rf_property : pystr;
  rf_version : VersionSnapshot;
}.

Record FactChange := {
  fc_fact_id : UUID;
  fc_property : pystr;
  fc_before : option VersionSnapshot;
  fc_after : option VersionSnapshot;
  fc_transitions : list VersionSnapshot;
}.

Record Lineage := {
  ln_version : VersionSnapshot;
  ln_ancestors : list VersionSnapshot;
  ln_descendants : list VersionSnapshot;
}.

Definition superseded_by (l : Lineage) : option VersionSnapshot := head (ln_descendants l).

Record TimelineEntry := {
  te_property : pystr;
  te_version : VersionSnapshot;
}.

(** * The reference semantics *)

(** [known_at is None or recorded_at <= known_at] *)
Definition known_by (recorded_at : Instant) (known_at : option Instant) : bool :=
  match known_at with None => true | Some k => recorded_at <=? k end.

Definition is_known (v : VersionSnapshot) (known_at : option Instant) : bool :=
  known_by (vs_recorded_at v) known_at.

(** [replace(version, valid_until=None, valid_until_recorded_at=None)] *)
Definition reopened (v : VersionSnapshot) : VersionSnapshot := {|
  vs_id := vs_id v; vs_fact_id := vs_fact_id v; vs_version := vs_version v;
  vs_value := vs_value v; vs_source_id := vs_source_id v; vs_valid_from := vs_valid_from v;
  vs_valid_until := None; vs_observed_at := vs_observed_at v;
  vs_recorded_at := vs_recorded_at v; vs_valid_until_recorded_at := None;
  vs_supersedes_id := vs_supersedes_id v; vs_authority := vs_authority v;
  vs_confidence := vs_confidence v; vs_privacy_scope := vs_privacy_scope v |}.

Definition as_known (v : VersionSnapshot) (known_at : option Instant) : VersionSnapshot :=
  match known_at, vs_valid_until_recorded_at v with
  | Some k, Some closed_at => if closed_at <=? k then v else reopened v
  | _, _ => v
  end.

Definition is_valid_at (v : VersionSnapshot) (instant : Instant) : bool :=
  (vs_valid_from v <=? instant) && before_end instant (vs_valid_until v).

(** [history_as_known] once [known_at] is known to be aware. *)
Definition known_history (versions : list VersionSnapshot) (known_at : option Instant) :
    list VersionSnapshot :=
  map (λ v, as_known v known_at)
    (where_ (λ v, is_known v known_at) (sort_on vs_version versions)).

Definition history_as_known (versions : list VersionSnapshot) (known_at : option datetime) :
    result (list VersionSnapshot) :=
  k ← require_aware_opt known_at; Ok (known_history versions k).

Definition resolve (versions : list VersionSnapshot) (valid_at : datetime)
    (known_at : option datetime) : result (option VersionSnapshot) :=
  t ← require_aware valid_at;
  history ← history_as_known versions known_at;
  let matches := where_ (λ v, is_valid_at v t) history in
  if 1 <? zlen matches
  then Err (InvariantViolationError
    "{len(matches)} versions of one fact are valid at {valid_at.isoformat()}")
  else Ok (head matches).

Definition change_between (versions : list VersionSnapshot) (start end_ : datetime)
    (known_at : option datetime) :
    result (option (option VersionSnapshot * option VersionSnapshot * list VersionSnapshot)) :=
  s ← require_aware start;
  e ← require_aware end_;
  if e <=? s then Err (ValidationFailedError "end must be later than start")
  else
    known ← history_as_known versions known_at;
    before ← resolve known start None;
    after ← resolve known end_ None;
    let transitions := where_ (λ v, (s <? vs_valid_from v) && (vs_valid_from v <=? e)) known in
    let before_id := option_map vs_id before in
    let after_id := option_map vs_id after in
    if bool_decide (before_id = after_id) && Nat.eqb (length transitions) 0
    then Ok None
    else Ok (Some (before, after, transitions)).
