(* ===== verification/History.v ===== *)
(** Well-formed version chains and what the reference semantics says of them:
    known versions form a prefix, at most one version answers a question, and
    an appended version changes no earlier answer. *)

From S2P Require Import Prelude PyStr Json Access Temporal.

(** * Well-formed chains *)

(** An end is learned no earlier than the version, and lies after its start. *)
Definition well_ended (v : VersionSnapshot) : Prop :=
  match vs_valid_until v, vs_valid_until_recorded_at v with
  | None, None => True
  | Some u, Some c => vs_valid_from v < u ∧ vs_recorded_at v ≤ c
  | _, _ => False
  end.

(** [a] comes before [b] in both timelines, and the end of [a] was known by the
    time [b] was recorded and lies before the start of [b]. *)
Definition precedes (a b : VersionSnapshot) : Prop :=
  vs_version a < vs_version b ∧ vs_valid_from a < vs_valid_from b ∧
  vs_recorded_at a < vs_recorded_at b ∧
  ∃ u c, vs_valid_until a = Some u ∧ vs_valid_until_recorded_at a = Some c ∧
         u ≤ vs_valid_from b ∧ c ≤ vs_recorded_at b.

Record chain (l : list VersionSnapshot) : Prop := {
  chain_sorted : StronglySorted precedes l;
  chain_ended : Forall well_ended l;
  chain_numbers : map vs_version l = seqZ 1 (zlen l);
  chain_lineage : map vs_supersedes_id l = take (length l) (None :: map (λ v, Some (vs_id v)) l);
}.

Lemma precedes_trans a b c : precedes a b → precedes b c → precedes a c.
Proof.
  intros (?&?&?&u&k&Hu&Hk&?&?) (?&?&?&_). split_and!; [lia..|].
  exists u, k. split_and!; [done|done|lia|lia].
Qed.

(** ** The last version and appending *)

(** [v] with its end set: what closing an open version does. *)
Definition closed_at (v : VersionSnapshot) (until at_ : Instant) : VersionSnapshot := {|
  vs_id := vs_id v; vs_fact_id := vs_fact_id v; vs_version := vs_version v;
  vs_value := vs_value v; vs_source_id := vs_source_id v; vs_valid_from := vs_valid_from v;
  vs_valid_until := Some until; vs_observed_at := vs_observed_at v;
  vs_recorded_at := vs_recorded_at v; vs_valid_until_recorded_at := Some at_;
  vs_supersedes_id := vs_supersedes_id v; vs_authority := vs_authority v;
  vs_confidence := vs_confidence v; vs_privacy_scope := vs_privacy_scope v |}.

Lemma seqZ_snoc n : 0 ≤ n → seqZ 1 (n + 1) = seqZ 1 n ++ [n + 1].
Proof. intros. rewrite seqZ_app by lia. f_equal. replace (1 + n) with (n + 1) by lia. done. Qed.

Lemma lineage_snoc l v :
  take (length (l ++ [v])) (None :: map (λ v, Some (vs_id v)) (l ++ [v]))
  = None :: map (λ v, Some (vs_id v)) l.
Proof.
  rewrite length_app, Nat.add_1_r. simpl. f_equal. rewrite map_app.
  rewrite <-(length_map (λ v, Some (vs_id v)) l) at 1. apply take_app_length.
Qed.

Lemma chain_nil : chain [].
Proof. split; constructor. Qed.

Lemma chain_version_last l v : chain (l ++ [v]) → vs_version v = zlen l + 1.
Proof.
  intros H. pose proof (chain_numbers _ H) as Hn. rewrite map_app, zlen_app in Hn.
  change (zlen [v]) with 1 in Hn. rewrite seqZ_snoc in Hn by apply zlen_nonneg.
  apply app_inj_tail in Hn as [_ Hn]. done.
Qed.

(** Appending a version to a chain whose last version has a known end. *)
Lemma chain_snoc l v n :
  chain (l ++ [v]) → precedes v n → well_ended n →
  vs_version n = vs_version v + 1 → vs_supersedes_id n = Some (vs_id v) →
  chain (l ++ [v] ++ [n]).
Proof.
  intros H Hvn Hn Hver Hsup. rewrite app_assoc. split.
  - apply StronglySorted_snoc. split; [apply H|].
    pose proof (chain_sorted _ H) as [_ Hv]%StronglySorted_snoc.
    apply Forall_app. split; [|by apply Forall_singleton].
    eapply Forall_impl; [exact Hv|]. intros a Ha. exact (precedes_trans _ _ _ Ha Hvn).
  - apply Forall_app. split; [apply H | by apply Forall_singleton].
  - rewrite map_app, (chain_numbers _ H), (zlen_app (l ++ [v]) [n]). change (zlen [n]) with 1.
    rewrite seqZ_snoc by apply zlen_nonneg. f_equal. simpl. f_equal.
    rewrite Hver, (chain_version_last _ _ H), zlen_app. change (zlen [v]) with 1. lia.
  - rewrite lineage_snoc, map_app, (chain_lineage _ H), lineage_snoc, map_app. simpl.
    by rewrite Hsup.
Qed.

Lemma chain_single v :
  vs_version v = 1 → vs_supersedes_id v = None → well_ended v → chain [v].
Proof.
  intros Hv Hs He. split; [repeat constructor | by apply Forall_singleton | simpl; by rewrite Hv |].
  simpl. by rewrite Hs.
Qed.

(** Closing an open last version keeps the chain. *)
Lemma chain_close_last l v until at_ :
  chain (l ++ [v]) → vs_valid_from v < until → vs_recorded_at v ≤ at_ →
  chain (l ++ [closed_at v until at_]).
Proof.
  intros H Hu Ha. split.
  - pose proof (chain_sorted _ H) as [Hl Hv]%StronglySorted_snoc. apply StronglySorted_snoc.
    split; [done|]. eapply Forall_impl; [exact Hv|]. intros a Hp. exact Hp.
  - pose proof (chain_ended _ H) as He. rewrite Forall_app, Forall_singleton in *.
    destruct He. split; [done|]. by split.
  - pose proof (chain_numbers _ H) as Hn. rewrite !map_app, !zlen_app in *. done.
  - pose proof (chain_lineage _ H) as Hn. rewrite !map_app, !length_app in *. done.
Qed.

(** * Reading a chain *)

Lemma chain_version_sorted l : chain l → sort_on vs_version l = l.
Proof.
  intros H. apply sort_by_id. refine (StronglySorted_mono precedes _ _ _ (chain_sorted _ H)).
  intros a b (Hv & _). apply Is_true_true. lia.
Qed.

(** The end of a version lies before the next one starts. *)
Definition ends_before (a b : VersionSnapshot) : Prop :=
  ∃ u, vs_valid_until a = Some u ∧ u ≤ vs_valid_from b.

Lemma as_known_valid_from v k : vs_valid_from (as_known v k) = vs_valid_from v.
Proof. unfold as_known. destruct k; [|done]. destruct (vs_valid_until_recorded_at v); [|done]. by destruct (_ <=? _). Qed.

Lemma as_known_id v k : vs_id (as_known v k) = vs_id v.
Proof. unfold as_known. destruct k; [|done]. destruct (vs_valid_until_recorded_at v); [|done]. by destruct (_ <=? _). Qed.

Lemma as_known_version v k : vs_version (as_known v k) = vs_version v.
Proof. unfold as_known. destruct k; [|done]. destruct (vs_valid_until_recorded_at v); [|done]. by destruct (_ <=? _). Qed.

(** Once a later version is known, the end of an earlier one is known too. *)
Lemma as_known_earlier a b k : precedes a b → is_known b k = true → as_known a k = a.
Proof.
  intros (_ & _ & _ & u & c & _ & Hc & _ & Hcb) Hb. unfold as_known, is_known, known_by in *.
  destruct k as [k|]; [|done]. rewrite Hc. destruct (Z.leb_spec c k); [done|lia].
Qed.

Lemma known_history_disjoint l k : chain l → StronglySorted ends_before (known_history l k).
Proof.
  intros H. unfold known_history. rewrite chain_version_sorted by done.
  pose proof (chain_sorted _ H) as Hs. clear H. induction Hs as [|a l Hl IH Ha]; simpl; [constructor|].
  destruct (is_known a k) eqn:Hk; [|done]. simpl. constructor; [done|].
  apply Forall_forall. intros x (b & -> & Hb)%list_elem_of_fmap. apply elem_of_where_ in Hb as [Hbk Hb].
  rewrite Forall_forall in Ha. specialize (Ha b Hb). rewrite (as_known_earlier a b) by done.
  destruct Ha as (_ & _ & _ & u & c & Hu & _ & Hub & _). exists u.
  by rewrite as_known_valid_from.
Qed.

Lemma ends_before_exclusive a b t :
  ends_before a b → is_valid_at a t = true → is_valid_at b t = true → False.
Proof.
  intros (u & Hu & Hub). unfold is_valid_at, before_end. rewrite Hu. lia.
Qed.

Lemma disjoint_at_most_one l t :
  StronglySorted ends_before l → (length (where_ (λ v, is_valid_at v t) l) ≤ 1)%nat.
Proof.
  intros Hl. assert (Hw : StronglySorted ends_before (where_ (λ v, is_valid_at v t) l))
    by (by apply StronglySorted_where).
  assert (Hv : ∀ v, v ∈ where_ (λ v, is_valid_at v t) l → is_valid_at v t = true)
    by (intros v Hin; by apply elem_of_where_ in Hin as [? _]).
  destruct (where_ _ l) as [|a [|b r]]; simpl; [lia|lia|]. exfalso.
  apply StronglySorted_inv in Hw as [_ Hw]. apply Forall_cons in Hw as [Hab _].
  eapply ends_before_exclusive; [exact Hab| |]; apply Hv; set_solver.
Qed.

(** [resolve] on a list whose versions do not overlap. *)
Lemma resolve_disjoint l t k kk :
  require_aware_opt kk = Ok k → StronglySorted ends_before (known_history l k) →
  resolve l (Aware t) kk = Ok (head (where_ (λ v, is_valid_at v t) (known_history l k))).
Proof.
  intros Hk Hd. unfold resolve, history_as_known. rewrite Hk.
  cbn [mbind result_bind require_aware]. pose proof (disjoint_at_most_one _ t Hd) as H1.
  destruct (Z.ltb_spec 1 (zlen (where_ (λ v, is_valid_at v t) (known_history l k)))) as [Hz|]; [|done].
  unfold zlen in Hz. lia.
Qed.

Lemma resolve_chain l t k kk :
  chain l → require_aware_opt kk = Ok k →
  resolve l (Aware t) kk = Ok (head (where_ (λ v, is_valid_at v t) (known_history l k))).
Proof. intros H Hk. by apply resolve_disjoint, known_history_disjoint. Qed.

Lemma head_where {A} (p : A → bool) l x :
  (length (where_ p l) ≤ 1)%nat → head (where_ p l) = Some x ↔ x ∈ l ∧ p x = true.
Proof.
  intros Hl. assert (Hx : x ∈ where_ p l ↔ x ∈ l ∧ p x = true) by (rewrite elem_of_where_; tauto).
  rewrite <-Hx. destruct (where_ p l) as [|y [|z r]]; simpl in *; [|set_solver|lia].
  rewrite elem_of_nil. by split.
Qed.

(** ** What is known is a prefix, and grows only at its end *)

Lemma where_known_prefix l k :
  StronglySorted precedes l → ∃ n, where_ (λ v, is_known v k) l = take n l.
Proof.
  induction 1 as [|a l Hl [n IH] Ha]; [by exists 0%nat|]. simpl.
  destruct (is_known a k) eqn:Hk; [by exists (S n); rewrite IH|]. exists 0%nat. simpl.
  apply where_nil_iff. intros b Hb. rewrite Forall_forall in Ha.
  destruct (Ha b Hb) as (_ & _ & Hr & _). unfold is_known, known_by in *. destruct k; [lia|done].
Qed.

Lemma known_history_prefix l k :
  chain l → ∃ n, known_history l k = map (λ v, as_known v k) (take n l).
Proof.
  intros H. destruct (where_known_prefix l k (chain_sorted _ H)) as [n Hn]. exists n.
  unfold known_history. by rewrite chain_version_sorted, Hn.
Qed.

Lemma known_history_snoc l n k :
  chain l → chain (l ++ [n]) → k < vs_recorded_at n →
  known_history (l ++ [n]) (Some k) = known_history l (Some k).
Proof.
  intros Hl Hn Hk. unfold known_history. rewrite !chain_version_sorted by done.
  assert (Hf : is_known n (Some k) = false) by (unfold is_known, known_by; lia).
  rewrite where_app. cbn [where_ List.filter]. by rewrite Hf, app_nil_r.
Qed.

Lemma reopened_id v : vs_valid_until v = None → vs_valid_until_recorded_at v = None → reopened v = v.
Proof. destruct v; simpl; by intros -> ->. Qed.

Lemma as_known_closed v until at_ k :
  vs_valid_until v = None → vs_valid_until_recorded_at v = None → k < at_ →
  as_known (closed_at v until at_) (Some k) = as_known v (Some k).
Proof.
  intros Hu Hr Hk. unfold as_known. rewrite Hr.
  cbn [closed_at vs_valid_until_recorded_at].
  assert ((at_ <=? k) = false) as -> by lia. rewrite <-(reopened_id v) at 2 by done. done.
Qed.

(** Closing the last version at [at_] changes nothing known before [at_]. *)
Lemma known_history_close l v until at_ k :
  chain (l ++ [v]) → chain (l ++ [closed_at v until at_]) →
  vs_valid_until v = None → vs_valid_until_recorded_at v = None → k < at_ →
  known_history (l ++ [closed_at v until at_]) (Some k) = known_history (l ++ [v]) (Some k).
Proof.
  intros H Hc Hu Hr Hk. unfold known_history. rewrite !chain_version_sorted by done.
  rewrite !where_app, !map_app. f_equal. cbn [where_ List.filter].
  change (is_known (closed_at v until at_) (Some k)) with (is_known v (Some k)).
  destruct (is_known v (Some k)); [|done]. cbn [map]. by rewrite as_known_closed.
Qed.
