(* ===== verification/Database.v ===== *)
(** The PostgreSQL state the services share: the rows of every table
    (migrations/versions, app/models), the constraints an INSERT is checked
    against, the triggers (append-only history, immutable provenance, event and
    graph outboxes) and the clocks. *)

From S2P Require Import Prelude PyStr Json Regex Validation Access Temporal.

(** * Rows *)

Record user := { u_id : UUID; u_email : pystr; u_display_name : pystr; u_is_active : bool }.
Record organization := { o_id : UUID; o_slug : pystr; o_name : pystr }.
Record membership := {
  m_id : UUID; m_organization_id : UUID; m_user_id : UUID; m_role : MembershipRole;
  m_created_at : Instant }.
Record entity := {
  e_id : UUID; e_organization_id : UUID; e_entity_type : pystr; e_external_id : pystr }.
Record fact_source := {
  s_id : UUID; s_organization_id : UUID; s_name : pystr; s_source_type : SourceType;
  s_uri : option pystr; s_default_authority : Z }.
Record fact := { f_id : UUID; f_organization_id : UUID; f_entity_id : UUID; f_property : pystr }.
Record fact_version := {
  fv_id : UUID; fv_organization_id : UUID; fv_fact_id : UUID; fv_version : Z; fv_value : json;
  fv_source_id : UUID; fv_valid_from : Instant; fv_valid_until : option Instant;
  fv_observed_at : Instant; fv_recorded_at : Instant;
  fv_valid_until_recorded_at : option Instant; fv_supersedes_id : option UUID;
  fv_authority : Z; fv_confidence : Z; fv_privacy_scope : PrivacyScope }.

Inductive EvidenceType :=
  DOCUMENT_EXCERPT | API_RESPONSE | DATABASE_RECORD | HUMAN_STATEMENT | AGENT_OUTPUT.
Inductive EvidenceRelation := SUPPORTS | CONTRADICTS.
Definition evidence_type_text (e : EvidenceType) : pystr :=
  match e with
  | DOCUMENT_EXCERPT => py "DOCUMENT_EXCERPT" | API_RESPONSE => py "API_RESPONSE"
  | DATABASE_RECORD => py "DATABASE_RECORD" | HUMAN_STATEMENT => py "HUMAN_STATEMENT"
  | AGENT_OUTPUT => py "AGENT_OUTPUT"
  end.
Definition relation_text (r : EvidenceRelation) : pystr :=
  match r with SUPPORTS => py "SUPPORTS" | CONTRADICTS => py "CONTRADICTS" end.
#[export] Instance EvidenceRelation_eq_dec : EqDecision EvidenceRelation.
Proof. solve_decision. Defined.

Record evidence := {
  ev_id : UUID; ev_organization_id : UUID; ev_source_id : UUID; ev_evidence_type : EvidenceType;
  ev_excerpt : pystr; ev_content_sha256 : pystr; ev_uri : option pystr; ev_metadata : json;
  ev_privacy_scope : PrivacyScope; ev_captured_at : Instant; ev_recorded_at : Instant }.
Record evidence_link := {
  l_organization_id : UUID; l_fact_version_id : UUID; l_evidence_id : UUID;
  l_relation : EvidenceRelation; l_linked_at : Instant; l_linked_by_user_id : option UUID }.

Record context_snapshot := {
  cs_id : UUID; cs_organization_id : UUID; cs_captured_by_user_id : UUID; cs_query : pystr;
  cs_valid_at : Instant; cs_known_at : Instant; cs_embedding_model : pystr;
  cs_vector_search : pystr; cs_privacy_scopes : list PrivacyScope; cs_parameters : json;
  cs_created_at : Instant }.
Record snapshot_fact := {
  sf_organization_id : UUID; sf_snapshot_id : UUID; sf_fact_version_id : UUID;
  sf_position : Z; sf_ranking : json }.
Record decision := {
  d_id : UUID; d_organization_id : UUID; d_snapshot_id : UUID; d_decided_by_user_id : UUID;
  d_agent : option pystr; d_action : pystr; d_outcome : json; d_rationale : option pystr;
  d_decided_at : Instant; d_receipt_sha256 : pystr }.
Record decision_fact := {
  df_organization_id : UUID; df_decision_id : UUID; df_snapshot_id : UUID;
  df_fact_version_id : UUID }.

Inductive ContradictionStatus := OPEN | RESOLVED | DISMISSED.
Inductive ContradictionKind := VALUE_CONFLICT | SEMANTIC.
Definition kind_text (k : ContradictionKind) : pystr :=
  match k with VALUE_CONFLICT => py "value_conflict" | SEMANTIC => py "semantic" end.
#[export] Instance ContradictionStatus_eq_dec : EqDecision ContradictionStatus.
Proof. solve_decision. Defined.
#[export] Instance ContradictionKind_eq_dec : EqDecision ContradictionKind.
Proof. solve_decision. Defined.

Record contradiction := {
  c_id : UUID; c_organization_id : UUID; c_entity_id : UUID; c_left_version_id : UUID;
  c_right_version_id : UUID; c_kind : ContradictionKind; c_detector : string; c_explanation : pystr;
  c_preferred_version_id : option UUID; c_privacy_scope : PrivacyScope;
  c_status : ContradictionStatus; c_resolution_note : option pystr;
  c_resolved_by_user_id : option UUID; c_resolved_at : option Instant;
  c_detected_at : Instant }.
Record fact_revocation := {
  r_id : UUID; r_organization_id : UUID; r_fact_version_id : UUID; r_reason : pystr;
  r_revoked_by_user_id : UUID; r_agent_client_id : option UUID; r_revoked_at : Instant }.
Record revocation_impact := {
  ri_organization_id : UUID; ri_revocation_id : UUID; ri_decision_id : UUID;
  ri_snapshot_id : UUID; ri_fact_version_id : UUID; ri_relied_on : bool }.
(** A column's value in [to_jsonb(row)], by its SQL type. *)
Inductive cell :=
  | Cuuid (u : UUID) | Cint (n : Z) | Ctext (s : pystr) | Ctime (t : Instant) | Cbool (b : bool) | Cnull.
Definition cell_or_null {A} (c : A → cell) (x : option A) : cell :=
  match x with Some a => c a | None => Cnull end.

(** The payload is the object of its columns. *)
Record outbox_event := {
  eo_id : Z; eo_event_id : UUID; eo_organization_id : UUID; eo_event_type : string;
  eo_aggregate_id : UUID; eo_payload : list (string * cell); eo_occurred_at : Instant }.
Record graph_item := {
  go_id : Z; go_organization_id : UUID; go_table_name : string; go_row_key : list UUID }.

(** Embeddings and the queue of jobs that produce them. *)
Inductive EmbeddingJobStatus := PENDING | RUNNING | SUCCEEDED | FAILED.
#[export] Instance EmbeddingJobStatus_eq_dec : EqDecision EmbeddingJobStatus.
Proof. solve_decision. Defined.

Record embedding_row := {
  em_organization_id : UUID; em_fact_version_id : UUID; em_model : pystr; em_dimensions : Z;
  em_embedding : list pyfloat; em_text_template : pystr; em_content_sha256 : pystr; em_created_at : Instant }.
Record embedding_job := {
  ej_id : UUID; ej_organization_id : UUID; ej_fact_version_id : UUID; ej_model : pystr;
  ej_status : EmbeddingJobStatus; ej_attempts : Z; ej_available_at : Instant;
  ej_locked_at : option Instant; ej_lease_token : option UUID; ej_last_error : option pystr;
  ej_created_at : Instant }.

(** Event consumers: the dedup record and the activity read model; a day counts
    from 1 January 1970. *)
Record processed_event := {
  pe_consumer : pystr; pe_event_id : UUID; pe_organization_id : UUID; pe_event_type : pystr }.
Record activity_day := {
  ad_organization_id : UUID; ad_day : Z; ad_facts_recorded : Z; ad_evidence_captured : Z;
  ad_decisions_recorded : Z }.

Record agent_client := {
  ac_id : UUID; ac_organization_id : UUID; ac_name : pystr; ac_client_id : pystr;
  ac_secret_hash : pystr; ac_service_user_id : UUID; ac_allowed_scopes : list pystr;
  ac_privacy_ceiling : PrivacyScope; ac_created_by_user_id : UUID; ac_revoked_at : option Instant;
  ac_created_at : Instant }.

Inductive InvestigationStatus := ANSWERED | INSUFFICIENT_EVIDENCE | UNGROUNDED | STEP_LIMIT | FAILED_RUN.
#[export] Instance InvestigationStatus_eq_dec : EqDecision InvestigationStatus.
Proof. solve_decision. Defined.

(** A tool call of an agent run ([ToolRecord], as kept in [AgentRun.tool_calls]); its
    latency is not kept. *)
Record ToolRecord := {
  tr_tool : pystr; tr_arguments : list (pystr * pystr); tr_ok : bool; tr_error : option pystr }.

Record agent_run := {
  ar_id : UUID; ar_organization_id : UUID; ar_requested_by_user_id : UUID;
  ar_agent_client_id : option UUID; ar_agent : pystr; ar_question : pystr;
  ar_status : InvestigationStatus; ar_answer : option pystr; ar_cited_ids : list pystr;
  ar_rejected_ids : list pystr; ar_tool_calls : list ToolRecord; ar_prompt_version : pystr;
  ar_model : pystr; ar_steps : Z; ar_input_tokens : Z; ar_output_tokens : Z;
  ar_error : option pystr }.

(** * The store *)

Inductive table :=
  | Users | Organizations | Memberships | Entities | FactSources | Facts | FactVersions
  | Evidence | EvidenceLinks | ContextSnapshots | SnapshotFacts | Decisions | DecisionFacts
  | Contradictions | FactRevocations | RevocationImpacts | FactEmbeddings | EmbeddingJobs
  | ProcessedEvents | ActivityDaily | AgentClients | AgentRuns | EventOutbox | GraphOutbox.

Definition table_eq_dec (t u : table) : {t = u} + {t ≠ u}.
Proof. decide equality. Defined.

#[export] Instance table_EqDecision : EqDecision table := table_eq_dec.

Definition row (t : table) : Type :=
  match t with
  | Users => user | Organizations => organization | Memberships => membership
  | Entities => entity | FactSources => fact_source | Facts => fact
  | FactVersions => fact_version | Evidence => evidence | EvidenceLinks => evidence_link
  | ContextSnapshots => context_snapshot | SnapshotFacts => snapshot_fact
  | Decisions => decision | DecisionFacts => decision_fact
  | Contradictions => contradiction | FactRevocations => fact_revocation
  | RevocationImpacts => revocation_impact | FactEmbeddings => embedding_row
  | EmbeddingJobs => embedding_job | ProcessedEvents => processed_event
  | ActivityDaily => activity_day | AgentClients => agent_client | AgentRuns => agent_run
  | EventOutbox => outbox_event | GraphOutbox => graph_item
  end.

(** [db_now] is [now()], fixed for a transaction; [db_wall] is
    [clock_timestamp()]; [db_next] supplies fresh identifiers. *)
Record db := {
  tab : ∀ t : table, list (row t);
  db_now : Instant;
  db_wall : Instant;
  db_next : Z;
}.

Definition set_tab (t : table) (rows : list (row t)) (d : db) : db := {|
  tab := λ u, match table_eq_dec t u with
              | left e => eq_rect t (λ u, list (row u)) rows u e
              | right _ => tab d u
              end;
  db_now := db_now d; db_wall := db_wall d; db_next := db_next d |}.

Definition bump (d : db) : db :=
  {| tab := tab d; db_now := db_now d; db_wall := db_wall d; db_next := db_next d + 1 |}.

Definition set_clock (now wall : Instant) (d : db) : db :=
  {| tab := tab d; db_now := now; db_wall := wall; db_next := db_next d |}.

Definition empty_db : db :=
  {| tab := λ t, []; db_now := 0; db_wall := 0; db_next := 1 |}.

Abbreviation DB := (ST db) (only parsing).

Lemma tab_set_eq t rows d : tab (set_tab t rows d) t = rows.
Proof.
  simpl. destruct (table_eq_dec t t) as [e|]; [|done].
  assert (e = eq_refl) as -> by (apply (Eqdep_dec.UIP_dec table_eq_dec)). done.
Qed.

Lemma tab_set_ne t u rows d : t ≠ u → tab (set_tab t rows d) u = tab d u.
Proof. intros Hne. simpl. by destruct (table_eq_dec t u). Qed.

(** ** Statements *)

(** [gen_random_uuid()] and the identity sequences: a value not used before. *)
Definition fresh_id : DB UUID := λ d, (Ok (db_next d), bump d).

Definition insert_row (t : table) (x : row t) : DB unit :=
  modify (λ d, set_tab t (tab d t ++ [x]) d).

(** [UPDATE t SET ... WHERE p] *)
Definition update_rows (t : table) (p : row t → bool) (f : row t → row t) : DB unit :=
  modify (λ d, set_tab t (map (λ x, if p x then f x else x) (tab d t)) d).

Definition delete_rows (t : table) (p : row t → bool) : DB unit :=
  modify (λ d, set_tab t (where_ (λ x, negb (p x)) (tab d t)) d).

(** [SELECT ... FROM t WHERE p] *)
Definition select (t : table) (p : row t → bool) : DB (list (row t)) :=
  gets (λ d, where_ p (tab d t)).

(** A constraint on the rows the statement sees. *)
Definition require_db (p : db → bool) (e : exn) : DB unit :=
  λ d, (ensure (p d) e, d).

Definition exists_row (t : table) (p : row t → bool) (d : db) : bool := existsb p (tab d t).

Lemma select_ok t p rows d d' :
  select t p d = (Ok rows, d') ↔ rows = where_ p (tab d t) ∧ d' = d.
Proof. exact (gets_ok (λ d, where_ p (tab d t)) rows d d'). Qed.

Lemma fresh_id_ok i d d' : fresh_id d = (Ok i, d') ↔ i = db_next d ∧ d' = bump d.
Proof. unfold fresh_id. naive_solver. Qed.

Lemma insert_row_ok t x u d d' :
  insert_row t x d = (Ok u, d') ↔ d' = set_tab t (tab d t ++ [x]) d.
Proof. exact (modify_ok (λ d, set_tab t (tab d t ++ [x]) d) u d d'). Qed.

Lemma require_db_ok p e u d d' : require_db p e d = (Ok u, d') ↔ p d = true ∧ d' = d.
Proof. unfold require_db, ensure. destruct u, (p d); naive_solver. Qed.

Lemma require_db_err p e e' d d' :
  require_db p e d = (Err e', d') ↔ p d = false ∧ e' = e ∧ d' = d.
Proof. unfold require_db, ensure. destruct (p d); naive_solver. Qed.

(** * The store next to another one *)

(** Some operations work on the database and on a store outside it (a cache, a
    broker): running a part on one of the two. *)
Definition on_db {C A} (m : DB A) : ST (db * C) A :=
  λ s, let '(r, d) := m s.1 in (r, (d, s.2)).
Definition on_ext {C A} (m : ST C A) : ST (db * C) A :=
  λ s, let '(r, c) := m s.2 in (r, (s.1, c)).

Lemma on_db_ok {C A} (m : DB A) (s s' : db * C) a :
  on_db m s = (Ok a, s') ↔ m s.1 = (Ok a, s'.1) ∧ s'.2 = s.2.
Proof. unfold on_db. destruct s as [? ?], s' as [? ?], (m _) as [? ?]. naive_solver. Qed.

Lemma on_ext_ok {C A} (m : ST C A) (s s' : db * C) a :
  on_ext m s = (Ok a, s') ↔ m s.2 = (Ok a, s'.2) ∧ s'.1 = s.1.
Proof. unfold on_ext. destruct s as [? ?], s' as [? ?], (m _) as [? ?]. naive_solver. Qed.

(** How a COMMIT ends: done, undone, or done with the connection lost before the
    answer, so that the caller sees an exception. *)
Inductive commit_outcome :=
  | Committed
  | RolledBack (e : exn)
  | CommittedUnseen (e : exn).

(** [async with sessions() as session, session.begin()]: what the block did
    outside the database is never undone. *)
Definition db_transaction {C A} (c : commit_outcome) (m : ST (db * C) A) : ST (db * C) A := λ s,
  match m s with
  | (Ok a, s') => match c with
                  | Committed => (Ok a, s')
                  | RolledBack e => (Err e, (s.1, s'.2))
                  | CommittedUnseen e => (Err e, s')
                  end
  | (Err e, s') => (Err e, (s.1, s'.2))
  end.

Lemma db_transaction_cases {C A} c (m : ST (db * C) A) s r s' :
  db_transaction c m s = (r, s') →
  (∃ a, m s = (Ok a, s') ∧ (c = Committed ∧ r = Ok a ∨ ∃ e, c = CommittedUnseen e ∧ r = Err e)) ∨
  (∃ r1 e s1, m s = (r1, s1) ∧ r = Err e ∧ s' = (s.1, s1.2) ∧
     (r1 = Err e ∨ c = RolledBack e)).
Proof.
  unfold db_transaction. destruct (m s) as [[a|e] s1] eqn:E; [destruct c|]; intros [= <- <-].
  - left. exists a. auto.
  - right. eexists _, _, _. split_and!; try done. by right.
  - left. exists a. split; [done|]. right. by eexists.
  - right. eexists _, _, _. split_and!; try done. by left.
Qed.
