(* ===== verification/Schema.v ===== *)
(** The constraints and triggers of the migrations, and the statements that go
    through them: [exec_insert], [exec_update], [exec_delete]. *)

From S2P Require Import Prelude PyStr Json Regex Validation Access Temporal Database.

(** * Column types *)

(** PostgreSQL text and JSONB hold neither NUL nor lone surrogates. *)
Definition text_char_ok (c : Z) : bool := negb (c =? 0) && negb (in_range 55296 57343 c).
Definition text_ok (s : pystr) : bool := forallb text_char_ok s.
Definition text_opt_ok (s : option pystr) : bool :=
  match s with Some s => text_ok s | None => true end.

Fixpoint jsonb_ok (j : json) : bool :=
  match j with
  | JStr s => text_ok s
  | JList l => forallb jsonb_ok l
  | JObj kvs => forallb (λ kv, text_ok kv.1 && jsonb_ok kv.2) kvs
  | JFloat (PInf | NInf | NaN) | JOther => false
  | _ => true
  end.

Definition INT_MAX : Z := 2147483647.

(** * Row constraints *)

(** [(org, id)] is a row of a tenant-owned parent table. *)
Definition fk_org (org : UUID) (d : db) : bool :=
  exists_row Organizations (λ o, o_id o =? org) d.
Definition fk_user (u : UUID) (d : db) : bool := exists_row Users (λ x, u_id x =? u) d.
Definition fk_fact (org i : UUID) (d : db) : bool :=
  exists_row Facts (λ f, (f_organization_id f =? org) && (f_id f =? i)) d.
Definition fk_entity (org i : UUID) (d : db) : bool :=
  exists_row Entities (λ x, (e_organization_id x =? org) && (e_id x =? i)) d.
Definition fk_source (org i : UUID) (d : db) : bool :=
  exists_row FactSources (λ x, (s_organization_id x =? org) && (s_id x =? i)) d.
Definition fk_version (org i : UUID) (d : db) : bool :=
  exists_row FactVersions (λ x, (fv_organization_id x =? org) && (fv_id x =? i)) d.
Definition fk_evidence (org i : UUID) (d : db) : bool :=
  exists_row Evidence (λ x, (ev_organization_id x =? org) && (ev_id x =? i)) d.
Definition fk_snapshot (org i : UUID) (d : db) : bool :=
  exists_row ContextSnapshots (λ x, (cs_organization_id x =? org) && (cs_id x =? i)) d.
Definition fk_snapshot_fact (snapshot version : UUID) (d : db) : bool :=
  exists_row SnapshotFacts
    (λ x, (sf_snapshot_id x =? snapshot) && (sf_fact_version_id x =? version)) d.
Definition fk_decision (org i snapshot : UUID) (d : db) : bool :=
  exists_row Decisions (λ x, (d_organization_id x =? org) && (d_id x =? i)
                             && (d_snapshot_id x =? snapshot)) d.
Definition fk_revocation (org i : UUID) (d : db) : bool :=
  exists_row FactRevocations (λ x, (r_organization_id x =? org) && (r_id x =? i)) d.

Definition sha_hex_ok (s : pystr) : bool :=
  Nat.eqb (length s) 64 && forallb (λ c, is_digit c || in_range 97 102 c) s.

Definition len_between (lo hi : Z) (s : pystr) : bool := (lo <=? zlen s) && (zlen s <=? hi).

(** Checks of one fact version: migration 0003, table fact_versions. *)
Definition fact_version_checks (x : fact_version) (d : db) : list (bool * exn) := [
  (jsonb_ok (fv_value x), DataError "unsupported Unicode escape sequence");
  (fv_version x <=? INT_MAX, DataError "integer out of range");
  (1 <=? fv_version x, IntegrityError "ck_fact_versions_version_positive");
  (Bool.eqb (fv_version x =? 1) (bool_decide (fv_supersedes_id x = None)),
   IntegrityError "ck_fact_versions_lineage_consistent");
  (before_end (fv_valid_from x) (fv_valid_until x),
   IntegrityError "ck_fact_versions_valid_range_ordered");
  (Bool.eqb (bool_decide (fv_valid_until x = None))
            (bool_decide (fv_valid_until_recorded_at x = None)),
   IntegrityError "ck_fact_versions_valid_until_recorded_together");
  (in_range 0 100 (fv_authority x), IntegrityError "ck_fact_versions_authority_range");
  (in_range 0 1000 (fv_confidence x), IntegrityError "ck_fact_versions_confidence_range");
  (negb (bool_decide (fv_value x = JNull)), IntegrityError "ck_fact_versions_value_not_null");
  (fk_org (fv_organization_id x) d, IntegrityError "fk_fact_versions_organization_id_organizations");
  (fk_fact (fv_organization_id x) (fv_fact_id x) d,
   IntegrityError "fk_fact_versions_organization_id_facts");
  (fk_source (fv_organization_id x) (fv_source_id x) d,
   IntegrityError "fk_fact_versions_organization_id_fact_sources");
  (match fv_supersedes_id x with
   | None => true
   | Some p => exists_row FactVersions (λ y, (fv_fact_id y =? fv_fact_id x) && (fv_id y =? p)) d
   end, IntegrityError "fk_fact_versions_fact_id_fact_versions")
].

(** [tstzrange(a) && tstzrange(b)] for half-open ranges with an open end. *)
Definition ranges_overlap (a b : fact_version) : bool :=
  before_end (fv_valid_from a) (fv_valid_until b) && before_end (fv_valid_from b) (fv_valid_until a).

(** Uniqueness and exclusion between two fact versions. *)
Definition fact_version_pair (a b : fact_version) : list (bool * exn) := [
  (negb (fv_id a =? fv_id b), IntegrityError "pk_fact_versions");
  (negb ((fv_fact_id a =? fv_fact_id b) && (fv_version a =? fv_version b)),
   IntegrityError "uq_fact_versions_fact_id_version");
  (match fv_supersedes_id a with
   | None => true
   | Some p => negb (bool_decide (fv_supersedes_id b = Some p))
   end, IntegrityError "uq_fact_versions_supersedes_id");
  (negb ((fv_fact_id a =? fv_fact_id b) && ranges_overlap a b),
   IntegrityError "ex_fact_versions_no_overlapping_validity")
].

(** Table users, migration 0002. *)
Definition user_checks (x : user) (d : db) : list (bool * exn) := [
  (text_ok (u_email x) && text_ok (u_display_name x), DataError "invalid byte sequence");
  (zlen (u_email x) <=? 320, DataError "value too long");
  (zlen (u_display_name x) <=? 200, DataError "value too long");
  (bool_decide (64 ∈ u_email x) && negb (bool_decide (head (u_email x) = Some 64)),
   IntegrityError "ck_users_email_format")].

(** Table organizations, migration 0002. *)
Definition organization_checks (x : organization) (d : db) : list (bool * exn) := [
  (text_ok (o_name x), DataError "invalid byte sequence");
  (zlen (o_name x) <=? 200, DataError "value too long");
  (fullmatch SLUG_PATTERN (o_slug x), IntegrityError "ck_organizations_slug_format")].

(** Table organization_memberships, migration 0002. *)
Definition membership_checks (x : membership) (d : db) : list (bool * exn) := [
  (fk_org (m_organization_id x) d,
   IntegrityError "fk_organization_memberships_organization_id_organizations");
  (fk_user (m_user_id x) d, IntegrityError "fk_organization_memberships_user_id_users")].

(** Table entities, migration 0003. *)
Definition entity_checks (x : entity) (d : db) : list (bool * exn) := [
  (text_ok (e_external_id x), DataError "invalid byte sequence");
  (zlen (e_entity_type x) <=? 128, DataError "value too long");
  (fk_org (e_organization_id x) d, IntegrityError "fk_entities_organization_id_organizations");
  (fullmatch IDENTIFIER_PATTERN (e_entity_type x),
   IntegrityError "ck_entities_entity_type_format");
  (len_between 1 256 (e_external_id x), IntegrityError "ck_entities_external_id_length")].

(** Table fact_sources, migration 0003. *)
Definition fact_source_checks (x : fact_source) (d : db) : list (bool * exn) := [
  (text_ok (s_name x) && text_opt_ok (s_uri x), DataError "invalid byte sequence");
  (zlen (s_name x) <=? 200, DataError "value too long");
  (match s_uri x with Some u => zlen u <=? 2048 | None => true end, DataError "value too long");
  (fk_org (s_organization_id x) d,
   IntegrityError "fk_fact_sources_organization_id_organizations");
  (in_range 0 100 (s_default_authority x),
   IntegrityError "ck_fact_sources_default_authority_range")].

(** Table facts, migration 0003. *)
Definition fact_checks (x : fact) (d : db) : list (bool * exn) := [
  (zlen (f_property x) <=? 128, DataError "value too long");
  (fk_org (f_organization_id x) d, IntegrityError "fk_facts_organization_id_organizations");
  (fk_entity (f_organization_id x) (f_entity_id x) d,
   IntegrityError "fk_facts_organization_id_entities");
  (fullmatch IDENTIFIER_PATTERN (f_property x), IntegrityError "ck_facts_property_format")].

(** Table evidence, migration 0004. *)
Definition evidence_checks (x : evidence) (d : db) : list (bool * exn) := [
  (text_ok (ev_excerpt x) && text_opt_ok (ev_uri x) && jsonb_ok (ev_metadata x),
   DataError "invalid byte sequence");
  (match ev_uri x with Some u => zlen u <=? 2048 | None => true end, DataError "value too long");
  (fk_org (ev_organization_id x) d, IntegrityError "fk_evidence_organization_id_organizations");
  (fk_source (ev_organization_id x) (ev_source_id x) d,
   IntegrityError "fk_evidence_organization_id_fact_sources");
  (len_between 1 8000 (ev_excerpt x), IntegrityError "ck_evidence_excerpt_length");
  (sha_hex_ok (ev_content_sha256 x), IntegrityError "ck_evidence_content_sha256_format");
  (match ev_metadata x with JObj _ => true | _ => false end,
   IntegrityError "ck_evidence_metadata_is_object")].

(** Table fact_version_evidence, migration 0004. *)
Definition evidence_link_checks (x : evidence_link) (d : db) : list (bool * exn) := [
  (fk_org (l_organization_id x) d,
   IntegrityError "fk_fact_version_evidence_organization_id_organizations");
  (fk_version (l_organization_id x) (l_fact_version_id x) d,
   IntegrityError "fk_fact_version_evidence_organization_id_fact_versions");
  (fk_evidence (l_organization_id x) (l_evidence_id x) d,
   IntegrityError "fk_fact_version_evidence_organization_id_evidence");
  (match l_linked_by_user_id x with Some u => fk_user u d | None => true end,
   IntegrityError "fk_fact_version_evidence_linked_by_user_id_users")].

(** Table context_snapshots, migration 0007. *)
Definition context_snapshot_checks (x : context_snapshot) (d : db) : list (bool * exn) := [
  (text_ok (cs_query x) && text_ok (cs_embedding_model x) && jsonb_ok (cs_parameters x),
   DataError "invalid byte sequence");
  (zlen (cs_query x) <=? 1000, DataError "value too long");
  (zlen (cs_embedding_model x) <=? 100, DataError "value too long");
  (fk_org (cs_organization_id x) d,
   IntegrityError "fk_context_snapshots_organization_id_organizations");
  (fk_user (cs_captured_by_user_id x) d,
   IntegrityError "fk_context_snapshots_captured_by_user_id_users");
  (bool_decide (cs_vector_search x = py "used" ∨ cs_vector_search x = py "unavailable"),
   IntegrityError "ck_context_snapshots_vector_search_valid")].

(** Table context_snapshot_facts, migration 0007. *)
Definition snapshot_fact_checks (x : snapshot_fact) (d : db) : list (bool * exn) := [
  (jsonb_ok (sf_ranking x), DataError "unsupported Unicode escape sequence");
  (fk_org (sf_organization_id x) d,
   IntegrityError "fk_context_snapshot_facts_organization_id_organizations");
  (fk_snapshot (sf_organization_id x) (sf_snapshot_id x) d,
   IntegrityError "fk_context_snapshot_facts_organization_id_context_snapshots");
  (fk_version (sf_organization_id x) (sf_fact_version_id x) d,
   IntegrityError "fk_context_snapshot_facts_organization_id_fact_versions");
  (1 <=? sf_position x, IntegrityError "ck_context_snapshot_facts_position_positive")].

(** Table decisions, migration 0007. *)
Definition decision_checks (x : decision) (d : db) : list (bool * exn) := [
  (text_opt_ok (d_agent x) && text_opt_ok (d_rationale x) && jsonb_ok (d_outcome x),
   DataError "invalid byte sequence");
  (match d_agent x with Some a => zlen a <=? 200 | None => true end, DataError "value too long");
  (zlen (d_action x) <=? 128, DataError "value too long");
  (match d_rationale x with Some r => zlen r <=? 4000 | None => true end, DataError "value too long");
  (fk_org (d_organization_id x) d, IntegrityError "fk_decisions_organization_id_organizations");
  (fk_user (d_decided_by_user_id x) d, IntegrityError "fk_decisions_decided_by_user_id_users");
  (fk_snapshot (d_organization_id x) (d_snapshot_id x) d,
   IntegrityError "fk_decisions_organization_id_context_snapshots");
  (fullmatch IDENTIFIER_PATTERN (d_action x), IntegrityError "ck_decisions_action_format");
  (sha_hex_ok (d_receipt_sha256 x), IntegrityError "ck_decisions_receipt_sha256_format");
  (negb (bool_decide (d_outcome x = JNull)), IntegrityError "ck_decisions_outcome_not_null")].

(** Table decision_facts, migration 0007. *)
Definition decision_fact_checks (x : decision_fact) (d : db) : list (bool * exn) := [
  (fk_org (df_organization_id x) d,
   IntegrityError "fk_decision_facts_organization_id_organizations");
  (fk_decision (df_organization_id x) (df_decision_id x) (df_snapshot_id x) d,
   IntegrityError "fk_decision_facts_organization_id_decisions");
  (fk_snapshot_fact (df_snapshot_id x) (df_fact_version_id x) d,
   IntegrityError "fk_decision_facts_snapshot_id_context_snapshot_facts")].

(** Table contradictions, migration 0012. *)
Definition contradiction_checks (x : contradiction) (d : db) : list (bool * exn) := [
  (text_ok (c_explanation x) && text_opt_ok (c_resolution_note x), DataError "invalid byte sequence");
  (zlen (c_explanation x) <=? 2000, DataError "value too long");
  (match c_resolution_note x with Some n => zlen n <=? 2000 | None => true end,
   DataError "value too long");
  (fk_org (c_organization_id x) d,
   IntegrityError "fk_contradictions_organization_id_organizations");
  (fk_entity (c_organization_id x) (c_entity_id x) d,
   IntegrityError "fk_contradictions_organization_id_entities");
  (fk_version (c_organization_id x) (c_left_version_id x) d,
   IntegrityError "fk_contradictions_left_version");
  (fk_version (c_organization_id x) (c_right_version_id x) d,
   IntegrityError "fk_contradictions_right_version");
  (match c_resolved_by_user_id x with Some u => fk_user u d | None => true end,
   IntegrityError "fk_contradictions_resolved_by_user_id_users");
  (negb (c_left_version_id x =? c_right_version_id x),
   IntegrityError "ck_contradictions_distinct_versions");
  (Bool.eqb (bool_decide (c_status x = OPEN)) (bool_decide (c_resolved_at x = None)),
   IntegrityError "ck_contradictions_resolution_consistent")].

(** Table fact_revocations, migration 0013. *)
Definition fact_revocation_checks (x : fact_revocation) (d : db) : list (bool * exn) := [
  (text_ok (r_reason x), DataError "invalid byte sequence");
  (zlen (r_reason x) <=? 2000, DataError "value too long");
  (fk_org (r_organization_id x) d,
   IntegrityError "fk_fact_revocations_organization_id_organizations");
  (fk_version (r_organization_id x) (r_fact_version_id x) d,
   IntegrityError "fk_fact_revocations_organization_id_fact_versions");
  (fk_user (r_revoked_by_user_id x) d,
   IntegrityError "fk_fact_revocations_revoked_by_user_id_users");
  (existsb (λ c, negb (c =? 32)) (r_reason x),
   IntegrityError "ck_fact_revocations_reason_present")].

(** Table revocation_impacts, migration 0013. *)
Definition revocation_impact_checks (x : revocation_impact) (d : db) : list (bool * exn) := [
  (fk_org (ri_organization_id x) d,
   IntegrityError "fk_revocation_impacts_organization_id_organizations");
  (fk_revocation (ri_organization_id x) (ri_revocation_id x) d,
   IntegrityError "fk_revocation_impacts_organization_id_fact_revocations");
  (fk_decision (ri_organization_id x) (ri_decision_id x) (ri_snapshot_id x) d,
   IntegrityError "fk_revocation_impacts_organization_id_decisions");
  (fk_snapshot_fact (ri_snapshot_id x) (ri_fact_version_id x) d,
   IntegrityError "fk_revocation_impacts_snapshot_id_context_snapshot_facts")].

(** Table fact_embeddings, migration 0005. *)
Definition embedding_row_checks (x : embedding_row) (d : db) : list (bool * exn) := [
  (text_ok (em_model x), DataError "invalid byte sequence");
  (zlen (em_model x) <=? 100, DataError "value too long");
  (zlen (em_text_template x) <=? 32, DataError "value too long");
  (zlen (em_embedding x) =? 1536, DataError "expected 1536 dimensions");
  (fk_org (em_organization_id x) d,
   IntegrityError "fk_fact_embeddings_organization_id_organizations");
  (fk_version (em_organization_id x) (em_fact_version_id x) d,
   IntegrityError "fk_fact_embeddings_organization_id_fact_versions");
  (sha_hex_ok (em_content_sha256 x), IntegrityError "ck_fact_embeddings_content_sha256_format");
  (em_dimensions x =? 1536, IntegrityError "ck_fact_embeddings_dimensions_supported")].

(** Table embedding_jobs, migration 0005. *)
Definition embedding_job_checks (x : embedding_job) (d : db) : list (bool * exn) := [
  (text_ok (ej_model x) && text_opt_ok (ej_last_error x), DataError "invalid byte sequence");
  (zlen (ej_model x) <=? 100, DataError "value too long");
  (match ej_last_error x with Some e => zlen e <=? 500 | None => true end,
   DataError "value too long");
  (ej_attempts x <=? INT_MAX, DataError "integer out of range");
  (fk_org (ej_organization_id x) d,
   IntegrityError "fk_embedding_jobs_organization_id_organizations");
  (fk_version (ej_organization_id x) (ej_fact_version_id x) d,
   IntegrityError "fk_embedding_jobs_organization_id_fact_versions");
  (0 <=? ej_attempts x, IntegrityError "ck_embedding_jobs_attempts_non_negative");
  (Bool.eqb (bool_decide (ej_status x = RUNNING)) (negb (bool_decide (ej_lease_token x = None))),
   IntegrityError "ck_embedding_jobs_lease_only_while_running")].

(** Table processed_events, migration 0010. *)
Definition processed_event_checks (x : processed_event) (d : db) : list (bool * exn) := [
  (text_ok (pe_consumer x) && text_ok (pe_event_type x), DataError "invalid byte sequence");
  (zlen (pe_consumer x) <=? 100, DataError "value too long");
  (zlen (pe_event_type x) <=? 64, DataError "value too long");
  (fk_org (pe_organization_id x) d,
   IntegrityError "fk_processed_events_organization_id_organizations")].

(** Table organization_activity_daily, migration 0010. *)
Definition activity_day_checks (x : activity_day) (d : db) : list (bool * exn) := [
  ((ad_facts_recorded x <=? INT_MAX) && (ad_evidence_captured x <=? INT_MAX)
   && (ad_decisions_recorded x <=? INT_MAX), DataError "integer out of range");
  (fk_org (ad_organization_id x) d,
   IntegrityError "fk_organization_activity_daily_organization_id_organizations")].

(** Table agent_clients, migration 0009. *)
Definition agent_client_checks (x : agent_client) (d : db) : list (bool * exn) := [
  (text_ok (ac_name x) && text_ok (ac_client_id x) && text_ok (ac_secret_hash x)
   && forallb text_ok (ac_allowed_scopes x), DataError "invalid byte sequence");
  (zlen (ac_name x) <=? 200, DataError "value too long");
  (zlen (ac_client_id x) <=? 64, DataError "value too long");
  (zlen (ac_secret_hash x) <=? 200, DataError "value too long");
  (fk_org (ac_organization_id x) d,
   IntegrityError "fk_agent_clients_organization_id_organizations");
  (fk_user (ac_service_user_id x) d, IntegrityError "fk_agent_clients_service_user_id_users");
  (fk_user (ac_created_by_user_id x) d, IntegrityError "fk_agent_clients_created_by_user_id_users")].

(** Table agent_runs, migration 0011; the status is one of its enumeration. *)
Definition tool_record_ok (r : ToolRecord) : bool :=
  text_ok (tr_tool r) && text_opt_ok (tr_error r)
  && forallb (λ kv, text_ok kv.1 && text_ok kv.2) (tr_arguments r).

Definition agent_run_checks (x : agent_run) (d : db) : list (bool * exn) := [
  (text_ok (ar_agent x) && text_ok (ar_question x) && text_opt_ok (ar_answer x)
   && text_ok (ar_prompt_version x) && text_ok (ar_model x) && text_opt_ok (ar_error x),
   DataError "invalid byte sequence");
  (forallb text_ok (ar_cited_ids x) && forallb text_ok (ar_rejected_ids x)
   && forallb tool_record_ok (ar_tool_calls x), DataError "unsupported Unicode escape sequence");
  ((zlen (ar_agent x) <=? 64) && (zlen (ar_question x) <=? 1000)
   && (zlen (ar_prompt_version x) <=? 64) && (zlen (ar_model x) <=? 100)
   && match ar_error x with Some e => zlen e <=? 100 | None => true end, DataError "value too long");
  ((ar_steps x <=? INT_MAX) && (ar_input_tokens x <=? INT_MAX) && (ar_output_tokens x <=? INT_MAX),
   DataError "integer out of range");
  ((0 <=? ar_steps x) && (0 <=? ar_input_tokens x) && (0 <=? ar_output_tokens x),
   IntegrityError "ck_agent_runs_counters_non_negative");
  (fk_org (ar_organization_id x) d, IntegrityError "fk_agent_runs_organization_id_organizations");
  (fk_user (ar_requested_by_user_id x) d, IntegrityError "fk_agent_runs_requested_by_user_id_users")].

(** Table event_outbox, migration 0010. *)
Definition outbox_event_checks (x : outbox_event) (d : db) : list (bool * exn) := [
  (fk_org (eo_organization_id x) d, IntegrityError "fk_event_outbox_organization_id_organizations")].

(** Table graph_outbox, migration 0008. *)
Definition graph_item_checks (x : graph_item) (d : db) : list (bool * exn) := [
  (fk_org (go_organization_id x) d, IntegrityError "fk_graph_outbox_organization_id_organizations")].

Definition uq (b : bool) (name : string) : bool * exn := (negb b, IntegrityError name).

Definition user_pair (a b : user) : list (bool * exn) :=
  [uq (u_id a =? u_id b) "pk_users";
                   uq (bool_decide (u_email a = u_email b)) "uq_users_email"].

Definition organization_pair (a b : organization) : list (bool * exn) :=
  [uq (o_id a =? o_id b) "pk_organizations";
                           uq (bool_decide (o_slug a = o_slug b)) "uq_organizations_slug"].

Definition membership_pair (a b : membership) : list (bool * exn) := [
    uq (m_id a =? m_id b) "pk_organization_memberships";
    uq ((m_organization_id a =? m_organization_id b) && (m_user_id a =? m_user_id b))
       "uq_organization_memberships_organization_id_user_id"].

Definition entity_pair (a b : entity) : list (bool * exn) := [
    uq (e_id a =? e_id b) "pk_entities";
    uq ((e_organization_id a =? e_organization_id b)
        && bool_decide (e_entity_type a = e_entity_type b)
        && bool_decide (e_external_id a = e_external_id b))
       "uq_entities_organization_id_entity_type_external_id"].

Definition fact_source_pair (a b : fact_source) : list (bool * exn) := [
    uq (s_id a =? s_id b) "pk_fact_sources";
    uq ((s_organization_id a =? s_organization_id b) && bool_decide (s_name a = s_name b))
       "uq_fact_sources_organization_id_name"].

Definition fact_pair (a b : fact) : list (bool * exn) := [
    uq (f_id a =? f_id b) "pk_facts";
    uq ((f_organization_id a =? f_organization_id b) && (f_entity_id a =? f_entity_id b)
        && bool_decide (f_property a = f_property b))
       "uq_facts_organization_id_entity_id_property"].

Definition evidence_pair (a b : evidence) : list (bool * exn) := [
    uq (ev_id a =? ev_id b) "pk_evidence";
    uq ((ev_organization_id a =? ev_organization_id b) && (ev_source_id a =? ev_source_id b)
        && bool_decide (ev_content_sha256 a = ev_content_sha256 b))
       "uq_evidence_organization_id_source_id_content_sha256"].

Definition evidence_link_pair (a b : evidence_link) : list (bool * exn) := [
    uq ((l_fact_version_id a =? l_fact_version_id b) && (l_evidence_id a =? l_evidence_id b))
       "pk_fact_version_evidence"].

Definition context_snapshot_pair (a b : context_snapshot) : list (bool * exn) :=
  [uq (cs_id a =? cs_id b) "pk_context_snapshots"].

Definition snapshot_fact_pair (a b : snapshot_fact) : list (bool * exn) := [
    uq ((sf_snapshot_id a =? sf_snapshot_id b) && (sf_fact_version_id a =? sf_fact_version_id b))
       "pk_context_snapshot_facts";
    uq ((sf_snapshot_id a =? sf_snapshot_id b) && (sf_position a =? sf_position b))
       "uq_context_snapshot_facts_snapshot_id_position"].

Definition decision_pair (a b : decision) : list (bool * exn) :=
  [uq (d_id a =? d_id b) "pk_decisions"].

Definition decision_fact_pair (a b : decision_fact) : list (bool * exn) := [
    uq ((df_decision_id a =? df_decision_id b) && (df_fact_version_id a =? df_fact_version_id b))
       "pk_decision_facts"].

Definition contradiction_pair (a b : contradiction) : list (bool * exn) := [
    uq (c_id a =? c_id b) "pk_contradictions";
    uq ((c_organization_id a =? c_organization_id b)
        && (c_left_version_id a =? c_left_version_id b)
        && (c_right_version_id a =? c_right_version_id b)) "uq_contradictions_version_pair"].

Definition fact_revocation_pair (a b : fact_revocation) : list (bool * exn) := [
    uq (r_id a =? r_id b) "pk_fact_revocations";
    uq ((r_organization_id a =? r_organization_id b)
        && (r_fact_version_id a =? r_fact_version_id b))
       "uq_fact_revocations_organization_id_fact_version_id"].

Definition revocation_impact_pair (a b : revocation_impact) : list (bool * exn) := [
    uq ((ri_revocation_id a =? ri_revocation_id b) && (ri_decision_id a =? ri_decision_id b))
       "pk_revocation_impacts"].

Definition embedding_row_pair (a b : embedding_row) : list (bool * exn) := [
    uq ((em_fact_version_id a =? em_fact_version_id b) && bool_decide (em_model a = em_model b))
       "pk_fact_embeddings"].

Definition embedding_job_pair (a b : embedding_job) : list (bool * exn) := [
    uq (ej_id a =? ej_id b) "pk_embedding_jobs";
    uq ((ej_fact_version_id a =? ej_fact_version_id b) && bool_decide (ej_model a = ej_model b))
       "uq_embedding_jobs_fact_version_id_model"].

Definition processed_event_pair (a b : processed_event) : list (bool * exn) := [
    uq (bool_decide (pe_consumer a = pe_consumer b) && (pe_event_id a =? pe_event_id b))
       "pk_processed_events"].

Definition activity_day_pair (a b : activity_day) : list (bool * exn) := [
    uq ((ad_organization_id a =? ad_organization_id b) && (ad_day a =? ad_day b))
       "pk_organization_activity_daily"].

Definition agent_client_pair (a b : agent_client) : list (bool * exn) := [
    uq (ac_id a =? ac_id b) "pk_agent_clients";
    uq (bool_decide (ac_client_id a = ac_client_id b)) "uq_agent_clients_client_id";
    uq (ac_service_user_id a =? ac_service_user_id b) "uq_agent_clients_service_user_id";
    uq ((ac_organization_id a =? ac_organization_id b) && bool_decide (ac_name a = ac_name b))
       "uq_agent_clients_organization_id_name"].

Definition agent_run_pair (a b : agent_run) : list (bool * exn) := [uq (ar_id a =? ar_id b) "pk_agent_runs"].

Definition outbox_event_pair (a b : outbox_event) : list (bool * exn) :=
  [uq (eo_id a =? eo_id b) "pk_event_outbox";
                         uq (eo_event_id a =? eo_event_id b) "uq_event_outbox_event_id"].

Definition graph_item_pair (a b : graph_item) : list (bool * exn) :=
  [uq (go_id a =? go_id b) "pk_graph_outbox"].

(** Checks of one row of a table against the rest of the database. *)
Definition row_checks (t : table) : row t → db → list (bool * exn) :=
  match t with
  | Users => user_checks
  | Organizations => organization_checks
  | Memberships => membership_checks
  | Entities => entity_checks
  | FactSources => fact_source_checks
  | Facts => fact_checks
  | FactVersions => fact_version_checks
  | Evidence => evidence_checks
  | EvidenceLinks => evidence_link_checks
  | ContextSnapshots => context_snapshot_checks
  | SnapshotFacts => snapshot_fact_checks
  | Decisions => decision_checks
  | DecisionFacts => decision_fact_checks
  | Contradictions => contradiction_checks
  | FactRevocations => fact_revocation_checks
  | RevocationImpacts => revocation_impact_checks
  | FactEmbeddings => embedding_row_checks
  | EmbeddingJobs => embedding_job_checks
  | ProcessedEvents => processed_event_checks
  | ActivityDaily => activity_day_checks
  | AgentClients => agent_client_checks
  | AgentRuns => agent_run_checks
  | EventOutbox => outbox_event_checks
  | GraphOutbox => graph_item_checks
  end.

(** Uniqueness between two rows of one table (primary keys included). *)
Definition pair_checks (t : table) : row t → row t → list (bool * exn) :=
  match t with
  | Users => user_pair
  | Organizations => organization_pair
  | Memberships => membership_pair
  | Entities => entity_pair
  | FactSources => fact_source_pair
  | Facts => fact_pair
  | FactVersions => fact_version_pair
  | Evidence => evidence_pair
  | EvidenceLinks => evidence_link_pair
  | ContextSnapshots => context_snapshot_pair
  | SnapshotFacts => snapshot_fact_pair
  | Decisions => decision_pair
  | DecisionFacts => decision_fact_pair
  | Contradictions => contradiction_pair
  | FactRevocations => fact_revocation_pair
  | RevocationImpacts => revocation_impact_pair
  | FactEmbeddings => embedding_row_pair
  | EmbeddingJobs => embedding_job_pair
  | ProcessedEvents => processed_event_pair
  | ActivityDaily => activity_day_pair
  | AgentClients => agent_client_pair
  | AgentRuns => agent_run_pair
  | EventOutbox => outbox_event_pair
  | GraphOutbox => graph_item_pair
  end.

Definition compatible (t : table) (a b : row t) : result unit := checks (pair_checks t a b).

(** * Triggers *)

(** The columns of a version that may never change (trigger of migration 0003). *)
Definition same_claim (old new : fact_version) : bool :=
  (fv_id new =? fv_id old) && (fv_organization_id new =? fv_organization_id old)
  && (fv_fact_id new =? fv_fact_id old) && (fv_version new =? fv_version old)
  && bool_decide (fv_value new = fv_value old) && (fv_source_id new =? fv_source_id old)
  && (fv_valid_from new =? fv_valid_from old) && (fv_observed_at new =? fv_observed_at old)
  && (fv_recorded_at new =? fv_recorded_at old)
  && bool_decide (fv_supersedes_id new = fv_supersedes_id old)
  && (fv_authority new =? fv_authority old) && (fv_confidence new =? fv_confidence old)
  && bool_decide (fv_privacy_scope new = fv_privacy_scope old).

Definition same_end (old new : fact_version) : bool :=
  bool_decide (fv_valid_until new = fv_valid_until old)
  && bool_decide (fv_valid_until_recorded_at new = fv_valid_until_recorded_at old).

(** [fact_versions_enforce_append_only]; no new row is a DELETE. *)
Definition enforce_append_only (old : fact_version) (new : option fact_version) : result unit :=
  match new with
  | None => Err (RestrictViolation "fact_versions is append-only: rows cannot be deleted")
  | Some new =>
    if negb (same_claim old new)
    then Err (RestrictViolation "fact_versions is append-only: record a new version instead")
    else if negb (bool_decide (fv_valid_until old = None)) && negb (same_end old new)
    then Err (RestrictViolation "fact_versions: valid_until can only be set once")
    else Ok ()
  end.

(** [contextledger_forbid_modification] *)
Definition forbid_modification : result unit :=
  Err (RestrictViolation "{table} is append-only: rows cannot be updated or deleted").

(** BEFORE UPDATE OR DELETE triggers. *)
Definition before_write (t : table) : row t → option (row t) → result unit :=
  match t with
  | FactVersions => enforce_append_only
  | Evidence | EvidenceLinks | ContextSnapshots | SnapshotFacts | Decisions | DecisionFacts
  | FactRevocations | RevocationImpacts | AgentRuns => λ _ _, forbid_modification
  | _ => λ _ _, Ok ()
  end.

(** PROJECTED_TABLES of migration 0008: organization, table name and row key. *)
Definition projected (t : table) : row t → option (UUID * string * list UUID) :=
  match t with
  | Entities => λ x, Some (e_organization_id x, "entities"%string, [e_id x])
  | Facts => λ x, Some (f_organization_id x, "facts"%string, [f_id x])
  | FactSources => λ x, Some (s_organization_id x, "fact_sources"%string, [s_id x])
  | FactVersions => λ x, Some (fv_organization_id x, "fact_versions"%string, [fv_id x])
  | Evidence => λ x, Some (ev_organization_id x, "evidence"%string, [ev_id x])
  | EvidenceLinks => λ x, Some (l_organization_id x, "fact_version_evidence"%string,
                                [l_fact_version_id x; l_evidence_id x])
  | ContextSnapshots => λ x, Some (cs_organization_id x, "context_snapshots"%string, [cs_id x])
  | SnapshotFacts => λ x, Some (sf_organization_id x, "context_snapshot_facts"%string,
                                [sf_snapshot_id x; sf_fact_version_id x])
  | Decisions => λ x, Some (d_organization_id x, "decisions"%string, [d_id x])
  | DecisionFacts => λ x, Some (df_organization_id x, "decision_facts"%string,
                                [df_decision_id x; df_fact_version_id x])
  | _ => λ _, None
  end.

(** EMITTING_TABLES of migrations 0010, 0012 and 0013: event type and aggregate. *)
Definition emitted (t : table) : row t → option (UUID * string * UUID) :=
  match t with
  | FactVersions => λ x, Some (fv_organization_id x, "fact.version_recorded"%string, fv_id x)
  | Evidence => λ x, Some (ev_organization_id x, "evidence.captured"%string, ev_id x)
  | EvidenceLinks => λ x, Some (l_organization_id x, "evidence.linked"%string, l_fact_version_id x)
  | ContextSnapshots => λ x, Some (cs_organization_id x, "context.captured"%string, cs_id x)
  | Decisions => λ x, Some (d_organization_id x, "decision.recorded"%string, d_id x)
  | Contradictions => λ x, Some (c_organization_id x, "contradiction.detected"%string, c_id x)
  | FactRevocations => λ x, Some (r_organization_id x, "fact.revoked"%string, r_fact_version_id x)
  | RevocationImpacts => λ x, Some (ri_organization_id x, "decision.impacted"%string, ri_decision_id x)
  | FactEmbeddings => λ x, Some (em_organization_id x, "fact.embedding_stored"%string, em_fact_version_id x)
  | _ => λ _, None
  end.

(** The one table of these whose trigger is also on UPDATE. *)
Definition emitted_update (t : table) : row t → option (UUID * string * UUID) :=
  match t with FactEmbeddings => emitted FactEmbeddings | _ => λ _, None end.

(** The columns a trigger copies into the payload of its event. *)
Definition payload (t : table) : row t → list (string * cell) :=
  match t with
  | FactVersions => λ x, [
      ("id", Cuuid (fv_id x)); ("fact_id", Cuuid (fv_fact_id x)); ("version", Cint (fv_version x));
      ("source_id", Cuuid (fv_source_id x)); ("supersedes_id", cell_or_null Cuuid (fv_supersedes_id x));
      ("valid_from", Ctime (fv_valid_from x)); ("valid_until", cell_or_null Ctime (fv_valid_until x));
      ("authority", Cint (fv_authority x)); ("privacy_scope", Ctext (scope_text (fv_privacy_scope x)));
      ("recorded_at", Ctime (fv_recorded_at x))]%string
  | FactEmbeddings => λ x, [
      ("fact_version_id", Cuuid (em_fact_version_id x)); ("model", Ctext (em_model x)); ("created_at", Ctime (em_created_at x))]%string
  | Evidence => λ x, [
      ("id", Cuuid (ev_id x)); ("source_id", Cuuid (ev_source_id x));
      ("evidence_type", Ctext (evidence_type_text (ev_evidence_type x)));
      ("content_sha256", Ctext (ev_content_sha256 x)); ("privacy_scope", Ctext (scope_text (ev_privacy_scope x)));
      ("captured_at", Ctime (ev_captured_at x)); ("recorded_at", Ctime (ev_recorded_at x))]%string
  | EvidenceLinks => λ x, [
      ("fact_version_id", Cuuid (l_fact_version_id x)); ("evidence_id", Cuuid (l_evidence_id x));
      ("relation", Ctext (relation_text (l_relation x))); ("linked_at", Ctime (l_linked_at x))]%string
  | ContextSnapshots => λ x, [
      ("id", Cuuid (cs_id x)); ("captured_by_user_id", Cuuid (cs_captured_by_user_id x));
      ("valid_at", Ctime (cs_valid_at x)); ("known_at", Ctime (cs_known_at x));
      ("embedding_model", Ctext (cs_embedding_model x)); ("created_at", Ctime (cs_created_at x))]%string
  | Decisions => λ x, [
      ("id", Cuuid (d_id x)); ("snapshot_id", Cuuid (d_snapshot_id x));
      ("decided_by_user_id", Cuuid (d_decided_by_user_id x)); ("agent", cell_or_null Ctext (d_agent x));
      ("action", Ctext (d_action x)); ("decided_at", Ctime (d_decided_at x));
      ("receipt_sha256", Ctext (d_receipt_sha256 x))]%string
  | Contradictions => λ x, [
      ("id", Cuuid (c_id x)); ("entity_id", Cuuid (c_entity_id x));
      ("left_version_id", Cuuid (c_left_version_id x)); ("right_version_id", Cuuid (c_right_version_id x));
      ("kind", Ctext (kind_text (c_kind x))); ("detector", Ctext (py (c_detector x)));
      ("privacy_scope", Ctext (scope_text (c_privacy_scope x))); ("detected_at", Ctime (c_detected_at x))]%string
  | FactRevocations => λ x, [
      ("id", Cuuid (r_id x)); ("fact_version_id", Cuuid (r_fact_version_id x));
      ("revoked_by_user_id", Cuuid (r_revoked_by_user_id x)); ("revoked_at", Ctime (r_revoked_at x))]%string
  | RevocationImpacts => λ x, [
      ("revocation_id", Cuuid (ri_revocation_id x)); ("decision_id", Cuuid (ri_decision_id x));
      ("snapshot_id", Cuuid (ri_snapshot_id x)); ("fact_version_id", Cuuid (ri_fact_version_id x));
      ("relied_on", Cbool (ri_relied_on x))]%string
  | _ => λ _, []
  end.

Definition add_graph_item (p : option (UUID * string * list UUID)) : DB unit :=
  match p with
  | None => mret ()
  | Some (org, name, key) =>
    i ← fresh_id;
    insert_row GraphOutbox
      {| go_id := i; go_organization_id := org; go_table_name := name; go_row_key := key |}
  end.

Definition add_event (p : option (UUID * string * UUID)) (columns : list (string * cell)) : DB unit :=
  match p with
  | None => mret ()
  | Some (org, type, aggregate) =>
    i ← fresh_id;
    e ← fresh_id;
    now ← gets db_now;
    insert_row EventOutbox
      {| eo_id := i; eo_event_id := e; eo_organization_id := org; eo_event_type := type;
         eo_aggregate_id := aggregate; eo_payload := columns; eo_occurred_at := now |}
  end.

(** * Statements *)

Definition insert_checks (t : table) (x : row t) (d : db) : result unit :=
  match checks (row_checks t x d) with
  | Ok _ => for_all (λ y, compatible t y x) (tab d t)
  | Err e => Err e
  end.

(** INSERT: constraints, the row, then the AFTER INSERT triggers by name. *)
Definition exec_insert (t : table) (x : row t) : DB unit :=
  _ ← (λ d, (insert_checks t x d, d)) : DB unit;
  _ ← insert_row t x;
  _ ← add_event (emitted t x) (payload t x);
  add_graph_item (projected t x).

(** The rows a statement changes, with what it makes of them. *)
Definition update_checks (t : table) (p : row t → bool) (f : row t → row t) (d : db) : result unit :=
  let hit := where_ p (tab d t) in
  let rows := map (λ x, if p x then f x else x) (tab d t) in
  match for_all (λ x, before_write t x (Some (f x))) hit with
  | Err e => Err e
  | Ok _ =>
    match for_all (λ x, checks (row_checks t (f x) d)) hit with
    | Err e => Err e
    | Ok _ => match hit with [] => Ok () | _ => for_pairs (compatible t) rows end
    end
  end.

(** UPDATE: constraints, the rows, then the AFTER UPDATE triggers of each outbox. *)
Definition exec_update (t : table) (p : row t → bool) (f : row t → row t) : DB unit :=
  hit ← select t p;
  _ ← (λ d, (update_checks t p f d, d)) : DB unit;
  _ ← update_rows t p f;
  _ ← mapM_ (λ x, add_event (emitted_update t (f x)) (payload t (f x))) hit;
  _ ← mapM_ (λ x, add_graph_item (projected t (f x))) hit;
  mret ().

Definition exec_delete (t : table) (p : row t → bool) : DB unit :=
  _ ← (λ d, (for_all (λ x, before_write t x None) (where_ p (tab d t)), d)) : DB unit;
  delete_rows t p.

(** [INSERT ... ON CONFLICT (key) DO NOTHING RETURNING id]: whether a row was
    inserted; [clash] compares the rows on the key. *)
Definition insert_or_nothing (t : table) (clash : row t → bool) (x : row t) : DB bool :=
  existing ← gets (exists_row t clash);
  if existing : bool then mret false else _ ← exec_insert t x; mret true.

(** * What statements leave alone *)

(** [d'] differs from [d] only in the tables [ts], the outboxes and the supply
    of identifiers. *)
Record frame (ts : list table) (d d' : db) : Prop := {
  frame_tab : ∀ u, u ∉ ts → u ≠ EventOutbox → u ≠ GraphOutbox → tab d' u = tab d u;
  frame_now : db_now d' = db_now d;
  frame_wall : db_wall d' = db_wall d;
  frame_next : db_next d ≤ db_next d';
}.

Lemma frame_refl ts d : frame ts d d.
Proof. by split. Qed.

Lemma frame_trans ts d1 d2 d3 : frame ts d1 d2 → frame ts d2 d3 → frame ts d1 d3.
Proof.
  intros [H1 N1 W1 I1] [H2 N2 W2 I2]. split; [|congruence|congruence|lia].
  intros u Hu He Hg. by rewrite H2, H1.
Qed.

Lemma frame_weaken ts us d d' : (∀ t, t ∈ ts → t ∈ us) → frame ts d d' → frame us d d'.
Proof. intros Hs [H N W I]. split; [|done..]. intros u Hu. apply H. auto. Qed.

Lemma frame_set ts t rows d : t ∈ t :: ts → frame (t :: ts) d (set_tab t rows d).
Proof.
  intros _. split; [|done|done|done]. intros u Hu _ _. apply tab_set_ne. set_solver.
Qed.

Lemma frame_bump ts d : frame ts d (bump d).
Proof. split; simpl; [done..|lia]. Qed.

Definition outbox (t : table) : bool :=
  match t with EventOutbox | GraphOutbox => true | _ => false end.

Lemma add_graph_item_total p d :
  ∃ d', add_graph_item p d = (Ok (), d') ∧ frame [] d d' ∧
        (∀ u, u ≠ GraphOutbox → tab d' u = tab d u).
Proof.
  destruct p as [[[org name] key]|].
  - eexists. split_and!; [reflexivity|split; [|done|done|simpl; lia]|].
    + intros u _ _ Hg. by rewrite tab_set_ne by congruence.
    + intros u Hg. by rewrite tab_set_ne by congruence.
  - exists d. split_and!; [done|apply frame_refl|done].
Qed.

Lemma add_event_total p c d :
  ∃ d', add_event p c d = (Ok (), d') ∧ frame [] d d' ∧
        (∀ u, u ≠ EventOutbox → tab d' u = tab d u).
Proof.
  destruct p as [[[org name] key]|].
  - eexists. split_and!; [reflexivity|split; [|done|done|simpl; lia]|].
    + intros u _ He _. by rewrite tab_set_ne by congruence.
    + intros u He. by rewrite tab_set_ne by congruence.
  - exists d. split_and!; [done|apply frame_refl|done].
Qed.

Lemma frame_tab_other ts d d' u :
  frame ts d d' → outbox u = false → u ∉ ts → tab d' u = tab d u.
Proof. intros F Ho Hu. apply F; [done|by intros ->|by intros ->]. Qed.

(** The tables a query reads, when a frame wrote none of them. *)
Lemma frame_reads ts us d d' t :
  frame ts d d' → t ∈ us → forallb (λ u, negb (outbox u) && bool_decide (u ∉ ts)) us = true →
  tab d' t = tab d t.
Proof.
  intros F Ht H. rewrite forallb_forall in H. apply list_elem_of_In, H in Ht.
  rewrite andb_true_iff, negb_true_iff, bool_decide_eq_true in Ht. destruct Ht.
  by apply (frame_tab_other _ _ _ _ F).
Qed.

(** An INSERT fails only by a constraint, and then changes nothing. *)
Lemma exec_insert_cases t x d :
  outbox t = false →
  (∃ e, insert_checks t x d = Err e ∧ exec_insert t x d = (Err e, d)) ∨
  (insert_checks t x d = Ok () ∧
   ∃ d', exec_insert t x d = (Ok (), d') ∧ frame [t] d d' ∧ tab d' t = tab d t ++ [x]).
Proof.
  intros Ht. destruct (insert_checks t x d) as [[]|e] eqn:E.
  - right. split; [done|]. unfold exec_insert.
    set (d1 := set_tab t (tab d t ++ [x]) d).
    destruct (add_event_total (emitted t x) (payload t x) d1) as (d2 & E2 & F2 & T2).
    destruct (add_graph_item_total (projected t x) d2) as (d3 & E3 & F3 & T3).
    exists d3. split_and!.
    + unfold mbind, st_bind. rewrite E. cbn. fold d1. by rewrite E2.
    + assert (F1 : frame [t] d d1) by (apply frame_set; by left).
      eapply frame_trans; [exact F1|]. eapply frame_trans.
      * eapply frame_weaken; [|exact F2]. intros ? Hn. by apply not_elem_of_nil in Hn.
      * eapply frame_weaken; [|exact F3]. intros ? Hn. by apply not_elem_of_nil in Hn.
    + rewrite T3, T2 by (by destruct t). apply tab_set_eq.
  - left. exists e. split; [done|]. unfold exec_insert, mbind, st_bind. by rewrite E.
Qed.

Lemma exec_insert_ok t x u d d' :
  outbox t = false → exec_insert t x d = (Ok u, d') →
  insert_checks t x d = Ok () ∧ frame [t] d d' ∧ tab d' t = tab d t ++ [x].
Proof.
  intros Ht H. destruct (exec_insert_cases t x d Ht) as [(e & _ & E)|(Hc & d1 & E & F & T)].
  - congruence.
  - rewrite E in H. injection H as <- <-. done.
Qed.

Lemma exec_insert_err t x e d d' :
  outbox t = false → exec_insert t x d = (Err e, d') → insert_checks t x d = Err e.
Proof.
  intros Ht H. destruct (exec_insert_cases t x d Ht) as [(e' & Hc & E)|(Hc & d1 & E & _)].
  - rewrite E in H. by injection H as <- <-.
  - congruence.
Qed.

Lemma project_all_total {A} (g : A → option (UUID * string * list UUID)) l d :
  ∃ us d', mapM_ (λ x, add_graph_item (g x)) l d = (Ok us, d') ∧ frame [] d d' ∧
           (∀ u, u ≠ GraphOutbox → tab d' u = tab d u).
Proof.
  revert d. induction l as [|x l IH]; intros d.
  - exists [], d. split_and!; [done|apply frame_refl|done].
  - destruct (add_graph_item_total (g x) d) as (d1 & E1 & F1 & T1).
    destruct (IH d1) as (us & d2 & E2 & F2 & T2). exists (() :: us), d2. split_and!.
    + cbn [mapM_]. rewrite (st_bind_eq _ _ _ _ _ E1), (st_bind_eq _ _ _ _ _ E2). done.
    + by eapply frame_trans.
    + intros u Hu. by rewrite T2, T1.
Qed.

Lemma emit_all_total {A} (g : A → option (UUID * string * UUID)) c l d :
  ∃ us d', mapM_ (λ x, add_event (g x) (c x)) l d = (Ok us, d') ∧ frame [] d d' ∧
           (∀ u, u ≠ EventOutbox → tab d' u = tab d u).
Proof.
  revert d. induction l as [|x l IH]; intros d.
  - exists [], d. split_and!; [done|apply frame_refl|done].
  - destruct (add_event_total (g x) (c x) d) as (d1 & E1 & F1 & T1).
    destruct (IH d1) as (us & d2 & E2 & F2 & T2). exists (() :: us), d2. split_and!.
    + cbn [mapM_]. rewrite (st_bind_eq _ _ _ _ _ E1), (st_bind_eq _ _ _ _ _ E2). done.
    + by eapply frame_trans.
    + intros u Hu. by rewrite T2, T1.
Qed.

Lemma exec_update_cases t p f d :
  outbox t = false →
  (∃ e, update_checks t p f d = Err e ∧ exec_update t p f d = (Err e, d)) ∨
  (update_checks t p f d = Ok () ∧
   ∃ d', exec_update t p f d = (Ok (), d') ∧ frame [t] d d' ∧
         tab d' t = map (λ x, if p x then f x else x) (tab d t)).
Proof.
  intros Ht. destruct (update_checks t p f d) as [[]|e] eqn:E.
  - right. split; [done|]. unfold exec_update.
    set (d1 := set_tab t (map (λ x, if p x then f x else x) (tab d t)) d).
    destruct (emit_all_total (λ x, emitted_update t (f x)) (λ x, payload t (f x)) (where_ p (tab d t)) d1)
      as (us & d2 & E2 & F2 & T2).
    destruct (project_all_total (λ x, projected t (f x)) (where_ p (tab d t)) d2)
      as (vs & d3 & E3 & F3 & T3).
    exists d3. split_and!.
    + unfold mbind, st_bind, select, gets. rewrite E. cbn. fold d1. by rewrite E2, E3.
    + eapply frame_trans; [apply (frame_set []); by left|].
      eapply frame_weaken; [|exact (frame_trans _ _ _ _ F2 F3)]. intros ? Hn. by apply not_elem_of_nil in Hn.
    + rewrite T3, T2 by (by destruct t). apply tab_set_eq.
  - left. exists e. split; [done|]. unfold exec_update, mbind, st_bind, select, gets. by rewrite E.
Qed.

Lemma exec_update_ok t p f u d d' :
  outbox t = false → exec_update t p f d = (Ok u, d') →
  update_checks t p f d = Ok () ∧ frame [t] d d' ∧
  tab d' t = map (λ x, if p x then f x else x) (tab d t).
Proof.
  intros Ht H. destruct (exec_update_cases t p f d Ht) as [(e & _ & E)|(Hc & d1 & E & F & T)].
  - congruence.
  - rewrite E in H. injection H as <- <-. done.
Qed.

Lemma exec_delete_ok t p u d d' :
  exec_delete t p d = (Ok u, d') →
  for_all (λ x, before_write t x None) (where_ p (tab d t)) = Ok () ∧ frame [t] d d' ∧
  tab d' t = where_ (λ x, negb (p x)) (tab d t).
Proof.
  unfold exec_delete, mbind, st_bind. destruct (for_all _ _) as [[]|e]; [|done].
  intros H. injection H as <- <-. split_and!; [done|apply frame_set; by left|apply tab_set_eq].
Qed.

(** * The consistency of the store *)

(** No two rows of a table violate its uniqueness or exclusion constraints. *)
Definition consistent (d : db) : Prop :=
  ∀ t, outbox t = false → for_pairs (compatible t) (tab d t) = Ok ().

Definition keeps_consistent (d d' : db) : Prop := consistent d → consistent d'.

#[export] Instance keeps_consistent_preorder : PreOrder keeps_consistent.
Proof. split; unfold keeps_consistent; [by intros d|]. intros d1 d2 d3; auto. Qed.

Lemma insert_checks_ok t x d : insert_checks t x d = Ok () ↔
  checks (row_checks t x d) = Ok () ∧ ∀ y, y ∈ tab d t → compatible t y x = Ok ().
Proof.
  unfold insert_checks. rewrite <-for_all_ok. destruct (checks _) as [[]|e]; [tauto|].
  split; [done|]. by intros [? _].
Qed.

Lemma exec_insert_consistent t x : outbox t = false → respects keeps_consistent (exec_insert t x).
Proof.
  intros Ht d r d' H Hc.
  destruct (exec_insert_cases t x d Ht) as [(e & _ & E)|(Hi & d1 & E & F & T)];
    rewrite E in H; injection H as <- <-; [done|].
  intros u Hu. destruct (table_eq_dec t u) as [<-|Hne].
  - rewrite T. apply for_pairs_ok, StronglySorted_snoc. split; [by apply for_pairs_ok, Hc|].
    apply Forall_forall. by apply insert_checks_ok in Hi as [_ ?].
  - rewrite (frame_tab_other _ _ _ u F); [by apply Hc|done|set_solver].
Qed.

Lemma exec_update_consistent t p f : outbox t = false → respects keeps_consistent (exec_update t p f).
Proof.
  intros Ht d r d' H Hc.
  destruct (exec_update_cases t p f d Ht) as [(e & _ & E)|(Hi & d1 & E & F & T)];
    rewrite E in H; injection H as <- <-; [done|].
  intros u Hu. destruct (table_eq_dec t u) as [<-|Hne].
  - rewrite T. unfold update_checks in Hi.
    destruct (for_all _ _); [|done]. destruct (for_all _ _); [|done].
    destruct (where_ p (tab d t)) eqn:Eh; [|done].
    rewrite map_id_in; [by apply Hc|].
    intros y Hy. apply where_nil_iff with (x := y) in Eh; [by rewrite Eh|done].
  - rewrite (frame_tab_other _ _ _ u F); [by apply Hc|done|set_solver].
Qed.

Lemma exec_delete_consistent t p : outbox t = false → respects keeps_consistent (exec_delete t p).
Proof.
  intros Ht d r d' H Hc. destruct r as [[]|e].
  - apply exec_delete_ok in H as (_ & F & T). intros u Hu. destruct (table_eq_dec t u) as [<-|Hne].
    + rewrite T. apply for_pairs_ok, StronglySorted_where. by apply for_pairs_ok, Hc.
    + rewrite (frame_tab_other _ _ _ u F); [by apply Hc|done|set_solver].
  - unfold exec_delete, mbind, st_bind in H. destruct (for_all _ _); [done|].
    by injection H as <- <-.
Qed.

Lemma select_respects (R : db → db → Prop) `{!PreOrder R} t p : respects R (select t p).
Proof. apply respects_gets. apply _. Qed.

Lemma fresh_id_consistent : respects keeps_consistent fresh_id.
Proof.
  intros d r d' H Hc. unfold fresh_id in H. injection H as <- <-. intros t Ht. by apply Hc.
Qed.

Lemma insert_or_nothing_consistent t c x :
  outbox t = false → respects keeps_consistent (insert_or_nothing t c x).
Proof.
  intros Ht. unfold insert_or_nothing. respects ltac:(by apply exec_insert_consistent).
Qed.

(** * Framing by [respects] *)

#[export] Instance frame_preorder ts : PreOrder (frame ts).
Proof. split; [by intros d; apply frame_refl|]. intros a b c. apply frame_trans. Qed.

Lemma exec_insert_frame ts t x :
  outbox t = false → t ∈ ts → respects (frame ts) (exec_insert t x).
Proof.
  intros Ht Hin d r d' H.
  destruct (exec_insert_cases t x d Ht) as [(e & _ & E)|(_ & d1 & E & F & _)];
    rewrite E in H; injection H as <- <-; [apply frame_refl|].
  eapply frame_weaken; [|exact F]. by intros u ->%list_elem_of_singleton.
Qed.

Lemma exec_update_frame ts t p f :
  outbox t = false → t ∈ ts → respects (frame ts) (exec_update t p f).
Proof.
  intros Ht Hin d r d' H.
  destruct (exec_update_cases t p f d Ht) as [(e & _ & E)|(_ & d1 & E & F & _)];
    rewrite E in H; injection H as <- <-; [apply frame_refl|].
  eapply frame_weaken; [|exact F]. by intros u ->%list_elem_of_singleton.
Qed.

Lemma fresh_id_frame ts : respects (frame ts) fresh_id.
Proof. intros d r d' H. unfold fresh_id in H. injection H as <- <-. apply frame_bump. Qed.

Lemma insert_or_nothing_frame ts t c x :
  outbox t = false → t ∈ ts → respects (frame ts) (insert_or_nothing t c x).
Proof.
  intros Ht Hin. unfold insert_or_nothing. respects ltac:(by apply exec_insert_frame).
Qed.

(** Nothing is ever removed from [t] or changed in it. *)
Definition grows (t : table) (d d' : db) : Prop := ∃ l, tab d' t = tab d t ++ l.

#[export] Instance grows_preorder t : PreOrder (grows t).
Proof.
  split; [by intros d; exists []; rewrite app_nil_r|].
  intros a b c [l Hl] [k Hk]. exists (l ++ k). by rewrite Hk, Hl, app_assoc.
Qed.

Lemma grows_frame ts t d d' : frame ts d d' → outbox t = false → t ∉ ts → grows t d d'.
Proof.
  intros F Ht Hn. exists []. rewrite app_nil_r. by apply (frame_tab_other ts).
Qed.

Lemma exec_insert_grows t u x : outbox t = false → outbox u = false → respects (grows t) (exec_insert u x).
Proof.
  intros Ht Hu d r d' H.
  destruct (exec_insert_cases u x d Hu) as [(e & _ & E)|(_ & d1 & E & F & T)];
    rewrite E in H; injection H as <- <-; [reflexivity|].
  destruct (table_eq_dec u t) as [<-|Hne]; [by exists [x]|].
  apply (grows_frame _ _ _ _ F); [done|set_solver].
Qed.

Lemma fresh_id_grows t : respects (grows t) fresh_id.
Proof.
  intros d r d' H. unfold fresh_id in H. injection H as <- <-. exists []. by rewrite app_nil_r.
Qed.

Lemma insert_or_nothing_grows t u c x :
  outbox t = false → outbox u = false → respects (grows t) (insert_or_nothing u c x).
Proof.
  intros Ht Hu. unfold insert_or_nothing. respects ltac:(by apply exec_insert_grows).
Qed.

(** ** What a conflicting INSERT tells *)

Lemma exists_row_spec t p d : exists_row t p d = true ↔ ∃ x, x ∈ tab d t ∧ p x = true.
Proof.
  unfold exists_row. rewrite existsb_exists. split; intros (x & Hx & Hp); exists x;
    (split; [by apply list_elem_of_In | done]).
Qed.

Lemma exists_row_false t p d : exists_row t p d = false ↔ where_ p (tab d t) = [].
Proof.
  rewrite where_nil_iff, <-not_true_iff_false, exists_row_spec. split.
  - intros H x Hx. apply not_true_iff_false. intros Hp. apply H. by exists x.
  - intros H (x & Hx & Hp). by rewrite H in Hp.
Qed.

Lemma insert_or_nothing_ok t c x b d d' :
  outbox t = false → insert_or_nothing t c x d = (Ok b, d') →
  (b = false ∧ d' = d ∧ exists_row t c d = true) ∨
  (b = true ∧ exists_row t c d = false ∧ insert_checks t x d = Ok () ∧
   frame [t] d d' ∧ tab d' t = tab d t ++ [x]).
Proof.
  intros Ht H. unfold insert_or_nothing in H. apply st_bind_ok in H as (e & s1 & H & Hk).
  apply gets_ok in H as [-> ->]. destruct (exists_row t c d) eqn:E.
  - apply st_ret_ok in Hk as [-> ->]. by left.
  - right. minv. apply exec_insert_ok in H as (? & ? & ?); [done|done].
Qed.
