(* ===== verification/EventRelay.v ===== *)
(** Domain events on their way out: topics and messages (app/events/schemas.py,
    messages.py), the outbox (app/repositories/events.py) and the relay that
    publishes it (app/workers/event_relay.py).  Triggers fill the outbox (Schema.v);
    the relay may fail at any point and still loses nothing. *)

From S2P Require Import Prelude PyStr Json Regex Validation Access Temporal Database Schema.

(** * events/schemas.py *)

Definition FACTS_TOPIC : pystr := py "contextledger.facts.v1".
Definition EVIDENCE_TOPIC : pystr := py "contextledger.evidence.v1".
Definition DECISIONS_TOPIC : pystr := py "contextledger.decisions.v1".
Definition DLQ_SUFFIX : pystr := py ".dlq".

Definition dead_letter_topic (topic : pystr) : pystr := topic ++ DLQ_SUFFIX.

(** The annotations of the payload models. *)
Inductive FieldType :=
  | FUuid | FOptUuid | FInt | FStr | FOptStr | FAwareDatetime | FOptAwareDatetime | FBool | FPrivacyScope.

Definition FactVersionRecorded : list (string * FieldType) := [
  ("id", FUuid); ("fact_id", FUuid); ("version", FInt); ("source_id", FUuid); ("supersedes_id", FOptUuid);
  ("valid_from", FAwareDatetime); ("valid_until", FOptAwareDatetime); ("authority", FInt);
  ("privacy_scope", FPrivacyScope); ("recorded_at", FAwareDatetime)]%string.
Definition FactEmbeddingStored : list (string * FieldType) := [
  ("fact_version_id", FUuid); ("model", FStr); ("created_at", FAwareDatetime)]%string.
Definition EvidenceCaptured : list (string * FieldType) := [
  ("id", FUuid); ("source_id", FUuid); ("evidence_type", FStr); ("content_sha256", FStr);
  ("privacy_scope", FPrivacyScope); ("captured_at", FAwareDatetime); ("recorded_at", FAwareDatetime)]%string.
Definition EvidenceLinked : list (string * FieldType) := [
  ("fact_version_id", FUuid); ("evidence_id", FUuid); ("relation", FStr); ("linked_at", FAwareDatetime)]%string.
Definition ContextCaptured : list (string * FieldType) := [
  ("id", FUuid); ("captured_by_user_id", FUuid); ("valid_at", FAwareDatetime); ("known_at", FAwareDatetime);
  ("embedding_model", FStr); ("created_at", FAwareDatetime)]%string.
Definition DecisionRecorded : list (string * FieldType) := [
  ("id", FUuid); ("snapshot_id", FUuid); ("decided_by_user_id", FUuid); ("agent", FOptStr); ("action", FStr);
  ("decided_at", FAwareDatetime); ("receipt_sha256", FStr)]%string.
Definition ContradictionDetected : list (string * FieldType) := [
  ("id", FUuid); ("entity_id", FUuid); ("left_version_id", FUuid); ("right_version_id", FUuid); ("kind", FStr);
  ("detector", FStr); ("privacy_scope", FStr); ("detected_at", FAwareDatetime)]%string.
Definition FactRevoked : list (string * FieldType) := [
  ("id", FUuid); ("fact_version_id", FUuid); ("revoked_by_user_id", FUuid); ("revoked_at", FAwareDatetime)]%string.
Definition DecisionImpacted : list (string * FieldType) := [
  ("revocation_id", FUuid); ("decision_id", FUuid); ("snapshot_id", FUuid); ("fact_version_id", FUuid);
  ("relied_on", FBool)]%string.

(** [EVENT_TYPES]: the topic and the payload model of each type. *)
Definition EVENT_TYPES : list (pystr * (pystr * list (string * FieldType))) := [
  (py "fact.version_recorded", (FACTS_TOPIC, FactVersionRecorded));
  (py "fact.embedding_stored", (FACTS_TOPIC, FactEmbeddingStored));
  (py "contradiction.detected", (FACTS_TOPIC, ContradictionDetected));
  (py "fact.revoked", (FACTS_TOPIC, FactRevoked));
  (py "evidence.captured", (EVIDENCE_TOPIC, EvidenceCaptured));
  (py "evidence.linked", (EVIDENCE_TOPIC, EvidenceLinked));
  (py "context.captured", (DECISIONS_TOPIC, ContextCaptured));
  (py "decision.recorded", (DECISIONS_TOPIC, DecisionRecorded));
  (py "decision.impacted", (DECISIONS_TOPIC, DecisionImpacted))].

(** [EventEnvelope]; [specversion] and [source] are constants. *)
Record EventEnvelope := {
  en_id : UUID; en_type : pystr; en_schema_version : Z; en_organization_id : UUID;
  en_subject : UUID; en_time : Instant; en_data : json }.

Definition topic_for (event_type : pystr) : result pystr :=
  match assoc event_type EVENT_TYPES with Some t => Ok t.1 | None => Err UnknownEventTypeError end.

(** What PostgreSQL writes for an instant in a JSON document, and which JSON values
    Pydantic accepts for an annotation. *)
Class PayloadFields := {
  timestamptz_text : Instant → pystr;
  field_valid : FieldType → json → bool;
}.

(** Pydantic reads an id, an integer, a text, a boolean, the name of a scope and an
    instant as PostgreSQL writes them, and null where None is allowed. *)
Class PayloadFieldsLaws `{PayloadFields} := {
  reads_uuid : ∀ u, field_valid FUuid (JStr (uuid_str u)) = true;
  reads_opt_uuid : ∀ u, field_valid FOptUuid (JStr (uuid_str u)) = true;
  reads_int : ∀ n, field_valid FInt (JInt n) = true;
  reads_str : ∀ s, field_valid FStr (JStr s) = true;
  reads_opt_str : ∀ s, field_valid FOptStr (JStr s) = true;
  reads_instant : ∀ t, field_valid FAwareDatetime (JStr (timestamptz_text t)) = true;
  reads_opt_instant : ∀ t, field_valid FOptAwareDatetime (JStr (timestamptz_text t)) = true;
  reads_bool : ∀ b, field_valid FBool (JBool b) = true;
  reads_scope : ∀ p, field_valid FPrivacyScope (JStr (scope_text p)) = true;
  reads_null : ∀ f, f ∈ [FOptUuid; FOptStr; FOptAwareDatetime] → field_valid f JNull = true;
}.

Section payloads.
Context `{PF : !PayloadFields}.

(** [row_json -> column], and the object a trigger builds. *)
Definition cell_json (c : cell) : json :=
  match c with
  | Cuuid u => JStr (uuid_str u) | Cint n => JInt n | Ctext s => JStr s
  | Ctime t => JStr (timestamptz_text t) | Cbool b => JBool b | Cnull => JNull
  end.
Definition payload_json (columns : list (string * cell)) : json :=
  JObj (map (λ c, (py c.1, cell_json c.2)) columns).

(** [model_validate] of a payload model: every field is there and valid, others are
    ignored. *)
Definition model_validate (model : list (string * FieldType)) (data : json) : bool :=
  match data with
  | JObj kvs => forallb (λ f, match assoc (py f.1) kvs with Some v => field_valid f.2 v | None => false end) model
  | _ => false
  end.

(** [EventEnvelope.payload] *)
Definition event_payload (event : EventEnvelope) : result unit :=
  match assoc (en_type event) EVENT_TYPES with
  | None => Err UnknownEventTypeError
  | Some t => if model_validate t.2 (en_data event) then Ok () else Err (LibraryError "ValidationError")
  end.

End payloads.

(** [model_dump_json] and [model_validate_json] of the envelope (None: a
    [ValidationError]). *)
Class EventCodec := {
  model_dump_json : EventEnvelope → list Z;
  model_validate_json : list Z → option EventEnvelope;
}.

(** * events/messages.py *)

Record OutgoingMessage := {
  om_topic : pystr; om_key : list Z; om_value : list Z; om_headers : list (pystr * list Z) }.
Record IncomingMessage := {
  im_topic : pystr; im_partition : Z; im_offset : Z; im_key : option (list Z); im_value : list Z;
  im_headers : list (pystr * list Z) }.

Section messages.
Context `{EC : EventCodec} `{PF : !PayloadFields}.

Definition envelope_for (event : outbox_event) : EventEnvelope := {|
  en_id := eo_event_id event; en_type := py (eo_event_type event); en_schema_version := 1;
  en_organization_id := eo_organization_id event; en_subject := eo_aggregate_id event;
  en_time := eo_occurred_at event; en_data := payload_json (eo_payload event) |}.

Definition message_for (event : outbox_event) : result OutgoingMessage :=
  topic ← topic_for (py (eo_event_type event));
  key ← encode_utf8 (uuid_str (eo_organization_id event));
  type ← encode_utf8 (py (eo_event_type event));
  id ← encode_utf8 (uuid_str (eo_event_id event));
  Ok {| om_topic := topic; om_key := key; om_value := model_dump_json (envelope_for event);
        om_headers := [(py "event_type", type); (py "event_id", id)] |}.

End messages.

(** What was dumped validates to itself. *)
Class EventCodecLaws `{EventCodec} `{PayloadFields} := {
  validate_dumped : ∀ event,
    model_validate_json (model_dump_json (envelope_for event)) = Some (envelope_for event);
}.

(** * EventOutboxRepository *)

Module EventOutboxRepository.

Definition of_org (organization_id : option UUID) (e : outbox_event) : bool :=
  match organization_id with None => true | Some o => eo_organization_id e =? o end.

(** ORDER BY id LIMIT n FOR UPDATE SKIP LOCKED; [locked] are the rows other
    relays hold. *)
Definition claim (batch_size : Z) (organization_id : option UUID) (locked : outbox_event → bool) :
    DB (list outbox_event) :=
  gets (λ d, take (Z.to_nat batch_size) (sort_on eo_id
    (where_ (λ e, of_org organization_id e && negb (locked e)) (tab d EventOutbox)))).

Definition delete (events : list outbox_event) : DB unit :=
  exec_delete EventOutbox (λ e, bool_decide (eo_id e ∈ map eo_id events)).

Definition pending (organization_id : option UUID) : DB Z :=
  gets (λ d, zlen (where_ (of_org organization_id) (tab d EventOutbox))).

End EventOutboxRepository.

(** * The relay *)

(** [Publisher]: the broker's log of messages, in the order it took them. *)
Class Publisher (B : Type) := {
  publish : list OutgoingMessage → ST B unit;
  published : B → list OutgoingMessage;
}.

(** It returns once every message is acknowledged, in order within a key; a
    failed call may have delivered some of them. *)
Class PublisherLaws (B : Type) `{Publisher B} := {
  publish_sent : ∀ ms b r b', publish ms b = (r, b') →
    ∃ sent, published b' = published b ++ sent ∧ (∀ m, m ∈ sent → m ∈ ms) ∧
      (r = Ok () → ∀ k, where_ (λ m, bool_decide (om_key m = k)) sent
                        = where_ (λ m, bool_decide (om_key m = k)) ms);
}.

Section relay.
Context `{EC : EventCodec} `{PF : !PayloadFields} {B : Type} `{PB : !Publisher B}.
Context (batch_size : Z) (organization_id : option UUID).

(** What surrounds one iteration: the rows other relays hold, and how its
    transaction ends. *)
Record relay_env := { re_locked : outbox_event → bool; re_commit : commit_outcome }.

Definition run_once (env : relay_env) : ST (db * B) Z :=
  db_transaction (re_commit env) (
    events ← on_db (EventOutboxRepository.claim batch_size organization_id (re_locked env));
    match events with
    | [] => mret 0
    | _ =>
      messages ← lift (mapR message_for events);
      _ ← on_ext (publish messages);
      _ ← on_db (EventOutboxRepository.delete events);
      mret (zlen events)
    end).

(** [while (stats := await self.run_once()).published]; the result None is a loop
    that has not ended after [fuel] iterations.  [envs] is what surrounds each of them,
    counted from the end. *)
Fixpoint drain (fuel : nat) (envs : nat → relay_env) (total : Z) : ST (db * B) (option Z) :=
  match fuel with
  | O => mret None
  | S fuel =>
    n ← run_once (envs fuel);
    if n =? 0 then mret (Some total) else drain fuel envs (total + n)
  end.

End relay.

(** * Every change emits its event *)

(** The outbox row a trigger wrote, under identifiers of its own. *)
Record is_event_of (p : UUID * string * UUID) (columns : list (string * cell)) (d d' : db) (e : outbox_event) : Prop := {
  ie_organization : eo_organization_id e = p.1.1;
  ie_type : eo_event_type e = p.1.2;
  ie_aggregate : eo_aggregate_id e = p.2;
  ie_payload : eo_payload e = columns;
  ie_time : eo_occurred_at e = db_now d;
  ie_ids : db_next d ≤ eo_id e < db_next d' ∧ db_next d ≤ eo_event_id e < db_next d';
}.

(** What the trigger adds to the outbox: one event, or nothing. *)
Definition emits (p : option (UUID * string * UUID)) (columns : list (string * cell)) (d d' : db) : Prop :=
  match p with
  | None => tab d' EventOutbox = tab d EventOutbox
  | Some p => ∃ e, tab d' EventOutbox = tab d EventOutbox ++ [e] ∧ is_event_of p columns d d' e
  end.

Lemma add_event_emits p columns d u d' : add_event p columns d = (Ok u, d') → emits p columns d d'.
Proof.
  destruct p as [[[org ty] agg]|]; unfold add_event, emits; [|by intros [_ <-]%st_ret_ok].
  intros (i & d1 & [-> ->]%fresh_id_ok & H)%st_bind_ok.
  apply st_bind_ok in H as (e & d2 & [-> ->]%fresh_id_ok & H).
  apply st_bind_ok in H as (now & d3 & [-> ->]%gets_ok & ->%insert_row_ok).
  eexists. rewrite tab_set_eq. cbn [tab bump]. split; [done|]. split; try done; cbn; lia.
Qed.

Lemma emits_frame p columns d1 d2 d3 d4 : tab d2 EventOutbox = tab d1 EventOutbox → db_next d1 ≤ db_next d2 →
  db_now d2 = db_now d1 → tab d4 EventOutbox = tab d3 EventOutbox → db_next d3 ≤ db_next d4 →
  emits p columns d2 d3 → emits p columns d1 d4.
Proof.
  intros T1 N1 C1 T2 N2. unfold emits. destruct p as [p|]; [|congruence]. intros (e & T & [O Y A P I [I1 I2]]).
  exists e. rewrite T2, T, T1. split; [done|]. split; try done; [congruence|lia].
Qed.

Lemma exec_insert_emits t x u d d' :
  outbox t = false → exec_insert t x d = (Ok u, d') → emits (emitted t x) (payload t x) d d'.
Proof.
  intros Ht H. unfold exec_insert in H.
  apply st_bind_ok in H as ([] & d0 & [= _ <-] & H).
  apply st_bind_ok in H as (u1 & d1 & ->%insert_row_ok & H).
  apply st_bind_ok in H as (u2 & d2 & He%add_event_emits & Hg).
  destruct (add_graph_item_total (projected t x) d2) as (d3 & E3 & F3 & T3).
  rewrite E3 in Hg. injection Hg as _ <-. apply (emits_frame _ _ d (set_tab t (tab d t ++ [x]) d) d2); try done.
  - apply tab_set_ne. by intros ->.
  - by apply T3.
  - exact (frame_next _ _ _ F3).
Qed.

(** The event types triggers emit are the types that have a topic. *)
Lemma emitted_type_known t x org ty agg :
  emitted t x = Some (org, ty, agg) → ∃ topic, topic_for (py ty) = Ok topic.
Proof. destruct t; try done; intros [= _ <- _]; by eexists. Qed.

(** * What one iteration does *)

Section relay_proofs.
Context `{EC : EventCodec} `{PF : !PayloadFields} {B : Type} `{PB : !Publisher B} `{PL : !PublisherLaws B}.
Context (batch_size : Z) (organization_id : option UUID).

(** An event whose type is one that a trigger emits. *)
Definition known_event (e : outbox_event) : Prop :=
  ∃ topic, topic_for (py (eo_event_type e)) = Ok topic ∧ Forall (λ c, c < 128) (py (eo_event_type e)).

Lemma known_event_message e : known_event e → ∃ m, message_for e = Ok m.
Proof.
  intros (topic & Ht & Ha). unfold message_for. rewrite Ht.
  rewrite !encode_utf8_ascii by (apply uuid_str_ascii || done). by eexists.
Qed.

(** The events an iteration takes. *)
Definition claimed_events (env : relay_env) (d : db) : list outbox_event :=
  take (Z.to_nat batch_size) (sort_on eo_id
    (where_ (λ e, EventOutboxRepository.of_org organization_id e && negb (re_locked env e))
            (tab d EventOutbox))).

Lemma claimed_in_outbox env d e : e ∈ claimed_events env d → e ∈ tab d EventOutbox.
Proof. unfold claimed_events, sort_on. intros H%in_take_elem.
  rewrite elem_of_sort_by in H. by apply elem_of_where_ in H as [_ ?].
Qed.

(** The outbox without some events. *)
Definition without (events : list outbox_event) (d : db) : db :=
  set_tab EventOutbox (where_ (λ e, negb (bool_decide (eo_id e ∈ map eo_id events)))
                              (tab d EventOutbox)) d.

Lemma delete_without events d : EventOutboxRepository.delete events d = (Ok (), without events d).
Proof.
  unfold EventOutboxRepository.delete, exec_delete, mbind, st_bind.
  destruct (for_all _ _) as [[]|e] eqn:E; [done|]. exfalso.
  set (l := where_ _ _) in E. clearbody l. induction l as [|x l IH]; [done|]. by apply IH.
Qed.

(** An iteration publishes some of the events it takes; it removes them only when
    all of them were acknowledged. *)
Lemma run_once_cases env d b r d' b' :
  run_once batch_size organization_id env (d, b) = (r, (d', b')) →
  let events := claimed_events env d in
  (∃ sent, published b' = published b ++ sent ∧
     (∀ m, m ∈ sent → ∃ e, e ∈ events ∧ message_for e = Ok m) ∧
     (d' = without events d → ∀ e, e ∈ events → ∃ m, message_for e = Ok m ∧ m ∈ sent)) ∧
  (d' = d ∨ d' = without events d).
Proof using PL.
  intros H events. unfold run_once in H.
  (* the body of the transaction *)
  assert (Hbody : ∀ r0 d0 b0,
    (on_db (EventOutboxRepository.claim batch_size organization_id (re_locked env)) ≫= λ events,
      match events with
      | [] => mret 0
      | _ => messages ← lift (mapR message_for events);
             _ ← on_ext (publish messages);
             _ ← on_db (EventOutboxRepository.delete events);
             mret (zlen events)
      end) (d, b) = (r0, (d0, b0)) →
    ∃ sent, published b0 = published b ++ sent ∧
      (∀ m, m ∈ sent → ∃ e, e ∈ events ∧ message_for e = Ok m) ∧
      (is_ok r0 = true → (d0 = d ∧ events = [] ∨ d0 = without events d) ∧
         ∀ e, e ∈ events → ∃ m, message_for e = Ok m ∧ m ∈ sent)).
  { intros r0 d0 b0 H0. unfold mbind at 1, st_bind at 1, on_db, EventOutboxRepository.claim, gets in H0.
    cbn [fst snd] in H0. fold (claimed_events env d) in H0. fold events in H0.
    destruct events as [|e0 l] eqn:El.
    { injection H0 as <- <- <-. exists []. rewrite app_nil_r. split_and!; [done| |].
      - by intros m ?%not_elem_of_nil.
      - intros _. split; [by left|]. by intros e ?%not_elem_of_nil. }
    rewrite <-El in *. unfold mbind at 1, st_bind at 1, lift in H0.
    destruct (mapR message_for events) as [ms|e] eqn:Em.
    2:{ injection H0 as <- <- <-. exists []. rewrite app_nil_r. split_and!; [done| |done].
        by intros m ?%not_elem_of_nil. }
    apply mapR_ok in Em. unfold mbind at 1, st_bind at 1, on_ext in H0. cbn [fst snd] in H0.
    destruct (publish ms b) as [rp bp] eqn:Ep.
    destruct (publish_sent _ _ _ _ Ep) as (sent & Hs & Hin & Hall).
    assert (Hsent : ∀ m, m ∈ sent → ∃ e, e ∈ events ∧ message_for e = Ok m).
    { intros m Hm. apply Hin, list_elem_of_lookup in Hm as [i Hi].
      destruct (Forall2_lookup_r _ _ _ _ _ Em Hi) as (e & He & Hme). exists e.
      split; [by eapply list_elem_of_lookup_2|done]. }
    destruct rp as [[]|e].
    2:{ injection H0 as <- <- <-. exists sent. by split_and!. }
    unfold mbind at 1, st_bind at 1, on_db in H0. cbn [fst snd] in H0. rewrite delete_without in H0.
    injection H0 as <- <- <-. exists sent. split_and!; [done|done|]. intros _. split; [by right|].
    intros e He. apply list_elem_of_lookup in He as [i Hi].
    destruct (Forall2_lookup_l _ _ _ _ _ Em Hi) as (m & Hm & Hme). exists m. split; [done|].
    assert (Hmk : m ∈ where_ (λ x, bool_decide (om_key x = om_key m)) ms).
    { apply elem_of_where_. split; [by apply bool_decide_eq_true|by eapply list_elem_of_lookup_2]. }
    rewrite <-(Hall eq_refl (om_key m)) in Hmk. by apply elem_of_where_ in Hmk as [_ ?]. }
  apply db_transaction_cases in H as [(a & H & _)|(r1 & e & s1 & H & Hre & Hse & _)].
  - destruct (Hbody _ _ _ H) as (sent & Hs & Hin & Hok). destruct (Hok eq_refl) as [Hd Hall].
    split; [by exists sent|]. destruct Hd as [[? _]|?]; [by left|by right].
  - destruct s1 as [d1 b1]. injection Hse as -> ->. destruct (Hbody _ _ _ H) as (sent & Hs & Hin & Hok).
    cbn [fst snd].
    split; [|by left]. exists sent. split_and!; [done|done|]. intros Hd e' He'. exfalso.
    assert (Hin' : e' ∈ tab (without events d) EventOutbox)
      by (rewrite <-Hd; by apply claimed_in_outbox in He').
    unfold without in Hin'. rewrite tab_set_eq in Hin'. apply elem_of_where_ in Hin' as [Hn _].
    apply negb_true_iff, bool_decide_eq_false in Hn. apply Hn, list_elem_of_fmap. by exists e'.
Qed.

(** * Nothing is lost, nothing is invented *)

(** The database and the broker, with every event ever committed. *)
Record relay_world := { rw_db : db; rw_broker : B; rw_emitted : list outbox_event }.

(** Transactions append events with identifiers of their own; relays run, and fail,
    at any time. *)
Inductive relay_step (w : relay_world) : relay_world → Prop :=
  | step_write d l :
      tab d EventOutbox = tab (rw_db w) EventOutbox ++ l → NoDup (map eo_id (rw_emitted w ++ l)) →
      relay_step w {| rw_db := d; rw_broker := rw_broker w; rw_emitted := rw_emitted w ++ l |}
  | step_relay env r d b :
      run_once batch_size organization_id env (rw_db w, rw_broker w) = (r, (d, b)) →
      relay_step w {| rw_db := d; rw_broker := b; rw_emitted := rw_emitted w |}.

(** Where the message of an event is. *)
Definition delivered (w : relay_world) (e : outbox_event) : Prop :=
  ∃ m, message_for e = Ok m ∧ m ∈ published (rw_broker w).

Record relay_ok (w : relay_world) : Prop := {
  ro_ids : NoDup (map eo_id (rw_emitted w));
  ro_pending : ∀ e, e ∈ tab (rw_db w) EventOutbox → e ∈ rw_emitted w;
  ro_kept : ∀ e, e ∈ rw_emitted w → e ∈ tab (rw_db w) EventOutbox ∨ delivered w e;
  ro_real : ∀ m, m ∈ published (rw_broker w) → ∃ e, e ∈ rw_emitted w ∧ message_for e = Ok m;
}.

(** Elements with the same key are the same element. *)
Lemma same_key_same {A} (key : A → Z) l x y :
  NoDup (map key l) → x ∈ l → y ∈ l → key x = key y → x = y.
Proof.
  intros Hn Hx Hy Hk. apply list_elem_of_lookup in Hx as [i Hi], Hy as [j Hj].
  assert (i = j) as ->; [|congruence].
  apply (proj1 (NoDup_alt _) Hn i j (key x)); rewrite list_lookup_fmap; [by rewrite Hi|by rewrite Hj, Hk].
Qed.

Lemma relay_step_ok w w' : relay_step w w' → relay_ok w → relay_ok w'.
Proof using PL.
  intros [d l T Hids|env r d b Hrun] [Hn Hp Hk Hr].
  - split; cbn [rw_db rw_broker rw_emitted]; [done|..].
    + intros e He. rewrite T in He. apply elem_of_app in He as [He|He]; apply elem_of_app; auto.
    + intros e He. rewrite T. apply elem_of_app in He as [He|He].
      * destruct (Hk e He) as [H|(m & Hm & Hpub)]; [left; apply elem_of_app; by left|right; by exists m].
      * left. apply elem_of_app. by right.
    + intros m Hm. destruct (Hr m Hm) as (e & He & Hme). exists e. split; [|done].
      apply elem_of_app. by left.
  - destruct (run_once_cases env _ _ _ _ _ Hrun) as ((sent & Hs & Hin & Hall) & Hd).
    assert (Hreal : ∀ m, m ∈ published b → ∃ e, e ∈ rw_emitted w ∧ message_for e = Ok m).
    { intros m Hm. rewrite Hs in Hm. apply elem_of_app in Hm as [Hm|Hm]; [by apply Hr|].
      destruct (Hin m Hm) as (e & He & Hme). exists e. split; [by apply Hp, (claimed_in_outbox env)|done]. }
    assert (Hgrow : ∀ e, delivered w e →
      delivered {| rw_db := d; rw_broker := b; rw_emitted := rw_emitted w |} e).
    { intros e (m & Hm & Hpub). exists m. split; [done|]. cbn [rw_broker]. rewrite Hs.
      apply elem_of_app. by left. }
    split; cbn [rw_db rw_broker rw_emitted]; [done| | |done].
    + intros e He. destruct Hd as [Hd|Hd]; rewrite Hd in He; [by apply Hp|].
      unfold without in He. rewrite tab_set_eq in He. apply elem_of_where_ in He as [_ He]. by apply Hp.
    + intros e He. destruct (Hk e He) as [H|H]; [|right; by apply Hgrow].
      destruct Hd as [Hd|Hd]; [left; by rewrite Hd|].
      destruct (decide (eo_id e ∈ map eo_id (claimed_events env (rw_db w)))) as [Hc|Hc].
      * right. apply list_elem_of_fmap in Hc as (e' & Hid & Hc).
        assert (e = e') as <-.
        { apply (same_key_same eo_id (rw_emitted w)); try done. by apply Hp, (claimed_in_outbox env). }
        destruct (Hall Hd e Hc) as (m & Hm & Hsent). exists m. split; [done|]. cbn [rw_broker].
        rewrite Hs. apply elem_of_app. by right.
      * left. rewrite Hd. unfold without. rewrite tab_set_eq. apply elem_of_where_.
        split; [|done]. by apply negb_true_iff, bool_decide_eq_false.
Qed.

Lemma relay_reachable_ok d b w :
  NoDup (map eo_id (tab d EventOutbox)) → published b = [] →
  rtc relay_step {| rw_db := d; rw_broker := b; rw_emitted := tab d EventOutbox |} w → relay_ok w.
Proof using PL.
  intros Hn Hb Hr.
  assert (H0 : relay_ok {| rw_db := d; rw_broker := b; rw_emitted := tab d EventOutbox |}).
  { split; cbn [rw_db rw_broker rw_emitted]; [done|done|by left|]. rewrite Hb. by intros m ?%not_elem_of_nil. }
  clear Hn Hb. revert H0. induction Hr as [w|w w1 w2 Hs _ IH]; [done|]. intros H0.
  by apply IH, (relay_step_ok w).
Qed.

(** C31. At-least-once: whatever the order of commits, relay iterations, broker
    failures and lost commits, every committed event is still in the outbox or its
    message is in the broker, and the broker holds only messages of committed
    events. *)
Theorem relay_loses_nothing d b w :
  NoDup (map eo_id (tab d EventOutbox)) → published b = [] →
  rtc relay_step {| rw_db := d; rw_broker := b; rw_emitted := tab d EventOutbox |} w →
  (∀ e, e ∈ rw_emitted w → e ∈ tab (rw_db w) EventOutbox ∨ delivered w e) ∧
  (∀ m, m ∈ published (rw_broker w) → ∃ e, e ∈ rw_emitted w ∧ message_for e = Ok m).
Proof using PL. intros Hn Hb Hr. by destruct (relay_reachable_ok d b w Hn Hb Hr) as [_ _ ? ?]. Qed.

(** * The loop ends with nothing pending *)

(** No other relay, no failure. *)
Definition alone : relay_env := {| re_locked := λ _, false; re_commit := Committed |}.

Definition my_events (d : db) : list outbox_event :=
  where_ (EventOutboxRepository.of_org organization_id) (tab d EventOutbox).

(** What an iteration leaves of the relay's events. *)
Lemma without_my_events d :
  NoDup (map eo_id (tab d EventOutbox)) →
  my_events (without (claimed_events alone d) d) ≡ₚ drop (Z.to_nat batch_size) (sort_on eo_id (my_events d)).
Proof.
  intros Hn. unfold my_events at 1, without. rewrite tab_set_eq, where_where.
  assert (E : where_ (λ x, negb (bool_decide (eo_id x ∈ map eo_id (claimed_events alone d)))
      && EventOutboxRepository.of_org organization_id x) (tab d EventOutbox)
    = where_ (λ x, negb (bool_decide (eo_id x ∈ map eo_id (claimed_events alone d)))) (my_events d)).
  { unfold my_events. rewrite where_where. apply where_ext. intros x _. apply andb_comm. }
  rewrite E. clear E.
  assert (Ec : claimed_events alone d = take (Z.to_nat batch_size) (sort_on eo_id (my_events d))).
  { unfold claimed_events, my_events. f_equal. f_equal. apply where_ext. intros x _. apply andb_true_r. }
  assert (Hm : NoDup (map eo_id (sort_on eo_id (my_events d)))).
  { unfold sort_on. rewrite (sort_by_perm _ (my_events d)). unfold my_events.
    by apply map_where_NoDup. }
  rewrite (where_perm _ (my_events d) (sort_on eo_id (my_events d))) by (unfold sort_on; by rewrite sort_by_perm).
  rewrite Ec. set (l := sort_on eo_id (my_events d)) in *. clearbody l.
  set (p := λ x, negb (bool_decide (eo_id x ∈ map eo_id (take (Z.to_nat batch_size) l)))).
  enough (E : where_ p l = drop (Z.to_nat batch_size) l) by by rewrite E.
  rewrite <-(take_drop (Z.to_nat batch_size) l), map_app in Hm. apply NoDup_app in Hm as (_ & Hdis & _).
  transitivity (where_ p (take (Z.to_nat batch_size) l ++ drop (Z.to_nat batch_size) l));
    [by rewrite take_drop|]. rewrite where_app, (proj2 (where_nil_iff _ (take _ l))).
  - apply where_true. intros x Hx. apply negb_true_iff, bool_decide_eq_false. intros Hin.
    apply (Hdis _ Hin), list_elem_of_fmap. by exists x.
  - intros x Hx. apply negb_false_iff, bool_decide_eq_true, list_elem_of_fmap. by exists x.
Qed.

Context (Hbatch : 1 ≤ batch_size) (Hpublish : ∀ ms b, (publish ms b).1 = Ok ()).

(** An iteration alone takes the oldest events, and all of them when there are few. *)
Lemma run_once_alone d b :
  (∀ e, e ∈ tab d EventOutbox → known_event e) →
  ∃ b', run_once batch_size organization_id alone (d, b)
        = (Ok (zlen (claimed_events alone d)),
           (if bool_decide (claimed_events alone d = []) then d else without (claimed_events alone d) d, b')).
Proof using Hpublish.
  intros Hk. unfold run_once, db_transaction. cbn [re_commit alone].
  unfold mbind at 1, st_bind at 1, on_db, EventOutboxRepository.claim, gets. cbn [fst snd].
  fold alone. fold (claimed_events alone d). set (events := claimed_events alone d).
  destruct events as [|e l] eqn:El; [by exists b|]. rewrite <-El.
  rewrite bool_decide_eq_false_2 by (rewrite El; done).
  destruct (mapR_total message_for events) as [ms Hms].
  { intros x Hx. by apply known_event_message, Hk, (claimed_in_outbox alone). }
  unfold mbind at 1, st_bind at 1, lift. rewrite Hms.
  unfold mbind at 1, st_bind at 1, on_ext. cbn [fst snd].
  pose proof (Hpublish ms b) as Hp. destruct (publish ms b) as [rp b']. cbn [fst] in Hp. rewrite Hp.
  unfold mbind at 1, st_bind at 1, on_db. cbn [fst snd]. rewrite delete_without. by exists b'.
Qed.

(** C32. Draining ends: with a broker that answers, no other relay and no event written
    meanwhile, and events of the types that the triggers write, the loop stops after at
    most one iteration more than there are pending events, having published as many as
    were pending, and leaves none behind. *)
Theorem drain_empties_the_outbox fuel d b :
  NoDup (map eo_id (tab d EventOutbox)) → (∀ e, e ∈ tab d EventOutbox → known_event e) →
  (length (tab d EventOutbox) < fuel)%nat →
  ∃ s', drain batch_size organization_id fuel (λ _, alone) 0 (d, b) = (Ok (Some (zlen (my_events d))), s') ∧
        my_events s'.1 = [].
Proof using Hbatch Hpublish.
  intros Hn Hk Hf.
  assert (Hf' : (length (my_events d) < fuel)%nat).
  { eapply Nat.le_lt_trans; [|exact Hf]. apply sublist_length, where_sublist. }
  clear Hf. rewrite <-(Z.add_0_l (zlen (my_events d))). generalize 0 at 1 2 as total.
  revert d b Hn Hk Hf'. induction fuel as [|fuel IH]; intros d b Hn Hk Hf total; [lia|].
  cbn [drain]. destruct (run_once_alone d b Hk) as [b1 E]. rewrite (st_bind_eq _ _ _ _ _ E). clear E.
  pose proof (without_my_events d Hn) as Hperm. set (events := claimed_events alone d) in *.
  assert (Hlen : zlen events = Z.min batch_size (zlen (my_events d))).
  { unfold zlen, events, claimed_events. rewrite length_take. unfold sort_on. rewrite length_sort_by.
    assert (E : where_ (λ e, EventOutboxRepository.of_org organization_id e && negb (re_locked alone e))
      (tab d EventOutbox) = my_events d) by (apply where_ext; intros x _; apply andb_true_r).
    rewrite E. lia. }
  destruct (Z.eqb_spec (zlen events) 0) as [Hz|Hz].
  - assert (Hm : my_events d = []) by (apply nil_length_inv; unfold zlen in *; lia).
    eexists. rewrite Hm. split; [by rewrite Z.add_0_r|]. case_bool_decide as He; [done|].
    exfalso. apply He, nil_length_inv. unfold zlen in Hz. lia.
  - rewrite bool_decide_eq_false_2 by (intros E; rewrite E in Hz; done).
    assert (Hl' : zlen (my_events (without events d)) = zlen (my_events d) - zlen events).
    { unfold zlen at 1. rewrite Hperm, length_drop. unfold sort_on. rewrite length_sort_by.
      unfold zlen in *. lia. }
    destruct (IH (without events d) b1) with (total := total + zlen events) as (s' & E & He).
    + unfold without. rewrite tab_set_eq. by apply map_where_NoDup.
    + intros e He. unfold without in He. rewrite tab_set_eq in He. apply elem_of_where_ in He as [_ ?]. by apply Hk.
    + unfold zlen in *. lia.
    + exists s'. split; [|done]. rewrite E. do 3 f_equal. lia.
Qed.

End relay_proofs.
