(* ===== verification/Calendar.v ===== *)
(** Timestamps as text: [datetime.astimezone(UTC).isoformat()] on instants between
    the years 1 and 9999.  The main lemma is that the text determines the instant. *)

From S2P Require Import Prelude PyStr.

(** * Fixed-width numerals *)

Section numerals.
Context (base : Z) (digit : Z → Z) (Hbase : 1 < base).
Context (digit_inj : ∀ a b, 0 ≤ a < base → 0 ≤ b < base → digit a = digit b → a = b).

Fixpoint numeral (width : nat) (n : Z) : pystr :=
  match width with
  | O => []
  | S w => numeral w (n / base) ++ [digit (n mod base)]
  end.

Lemma length_numeral w n : length (numeral w n) = w.
Proof. revert n. induction w as [|w IH]; intros n; simpl; [done|]. rewrite length_app, IH. simpl. lia. Qed.

Lemma numeral_inj w n m :
  0 ≤ n < base ^ Z.of_nat w → 0 ≤ m < base ^ Z.of_nat w → numeral w n = numeral w m → n = m.
Proof using Hbase digit_inj.
  revert n m. induction w as [|w IH]; intros n m Hn Hm E; simpl in E.
  - change (Z.of_nat 0) with 0 in *. rewrite Z.pow_0_r in *. lia.
  - rewrite Nat2Z.inj_succ, Z.pow_succ_r in Hn, Hm by lia.
    apply app_inj_tail in E as [E1 E2].
    apply digit_inj in E2; [|apply Z.mod_pos_bound; lia|apply Z.mod_pos_bound; lia].
    apply IH in E1.
    + rewrite (Z.div_mod n base), (Z.div_mod m base) by lia. congruence.
    + split; [apply Z.div_pos; lia|apply Z.div_lt_upper_bound; lia].
    + split; [apply Z.div_pos; lia|apply Z.div_lt_upper_bound; lia].
Qed.
End numerals.

Lemma hex_of_numeral w n : hex_of w n = numeral 16 hex_digit w n.
Proof. revert n. induction w as [|w IH]; intros n; simpl; [done|]. by rewrite IH. Qed.

Lemma hex_digit_inj a b : 0 ≤ a < 16 → 0 ≤ b < 16 → hex_digit a = hex_digit b → a = b.
Proof. unfold hex_digit. intros Ha Hb. destruct (Z.ltb_spec a 10), (Z.ltb_spec b 10); lia. Qed.

Definition is_uuid (u : UUID) : Prop := 0 ≤ u < 2 ^ 128.

Lemma length_uuid_str u : length (uuid_str u) = 36%nat.
Proof.
  unfold uuid_str. assert (Hh : length (hex_of 32 u) = 32%nat) by (rewrite hex_of_numeral; apply length_numeral).
  rewrite !length_app, !length_take, !length_drop, Hh. reflexivity.
Qed.

(** Texts of equal length in front determine the rest. *)
Lemma app_inj_length {A} (a b x y : list A) : length a = length b → a ++ x = b ++ y → a = b ∧ x = y.
Proof. intros. by apply app_inj_1. Qed.

Lemma uuid_str_inj u v : is_uuid u → is_uuid v → uuid_str u = uuid_str v → u = v.
Proof.
  intros Hu Hv E. unfold uuid_str in E.
  assert (Hl : ∀ n, length (hex_of 32 n) = 32%nat) by (intros n; rewrite hex_of_numeral; apply length_numeral).
  assert (Hh : hex_of 32 u = hex_of 32 v).
  { pose proof (Hl u) as Lu. pose proof (Hl v) as Lv.
    set (h := hex_of 32 u) in *. set (k := hex_of 32 v) in *. clearbody h k.
    apply app_inj_length in E as [E1 E]; [|rewrite !length_take; lia].
    apply app_inj_length in E as [_ E]; [|done].
    apply app_inj_length in E as [E2 E]; [|rewrite !length_take, !length_drop; lia].
    apply app_inj_length in E as [_ E]; [|done].
    apply app_inj_length in E as [E3 E]; [|rewrite !length_take, !length_drop; lia].
    apply app_inj_length in E as [_ E]; [|done].
    apply app_inj_length in E as [E4 E]; [|rewrite !length_take, !length_drop; lia].
    apply app_inj_length in E as [_ E5]; [|done].
    rewrite <-(take_drop 8 h), <-(take_drop 8 k). f_equal; [done|].
    rewrite <-(take_drop 4 (drop 8 h)), <-(take_drop 4 (drop 8 k)). f_equal; [done|].
    rewrite !drop_drop. rewrite <-(take_drop 4 (drop (8 + 4) h)), <-(take_drop 4 (drop (8 + 4) k)).
    f_equal; [done|]. rewrite !drop_drop.
    rewrite <-(take_drop 4 (drop (8 + 4 + 4) h)), <-(take_drop 4 (drop (8 + 4 + 4) k)).
    f_equal; [done|]. rewrite !drop_drop. done. }
  rewrite !hex_of_numeral in Hh. eapply (numeral_inj 16 hex_digit) in Hh; try done.
  apply hex_digit_inj.
Qed.

(** * Dates *)

Definition is_leap (y : Z) : bool := (y mod 4 =? 0) && (negb (y mod 100 =? 0) || (y mod 400 =? 0)).

(** Days before month [m] (1-based) of a year. *)
Definition days_before_month (leap : bool) (m : Z) : Z :=
  match m with
  | 1 => 0 | 2 => 31
  | _ => (match m with 3 => 59 | 4 => 90 | 5 => 120 | 6 => 151 | 7 => 181 | 8 => 212 | 9 => 243
          | 10 => 273 | 11 => 304 | _ => 334 end) + (if leap then 1 else 0)
  end.

Definition days_before_year (y : Z) : Z := let z := y - 1 in z * 365 + z / 4 - z / 100 + z / 400.

(** [date(y, m, d).toordinal()]: 1 January of year 1 is day 1. *)
Definition ymd_to_ord (ymd : Z * Z * Z) : Z :=
  let '(y, m, d) := ymd in days_before_year y + days_before_month (is_leap y) m + d.

(** The month of the [n]-th day (from 0) of a year. *)
Definition month_of (leap : bool) (n : Z) : Z :=
  if n <? 31 then 1 else
  let b := λ m, days_before_month leap m <=? n in
  if b 12 then 12 else if b 11 then 11 else if b 10 then 10 else if b 9 then 9 else if b 8 then 8
  else if b 7 then 7 else if b 6 then 6 else if b 5 then 5 else if b 4 then 4 else if b 3 then 3
  else 2.

(** Year, month and day of the day [n] (from 0) of a 400-year cycle. *)
Definition cycle_ymd (n : Z) : Z * Z * Z :=
  let n100 := Z.min 3 (n / 36524) in
  let n := n - 36524 * n100 in
  let n4 := Z.min 24 (n / 1461) in
  let n := n - 1461 * n4 in
  let n1 := Z.min 3 (n / 365) in
  let n := n - 365 * n1 in
  let y := n100 * 100 + n4 * 4 + n1 + 1 in
  let leap := is_leap y in
  let m := month_of leap n in
  (y, m, n - days_before_month leap m + 1).

(** [date.fromordinal] *)
Definition ord_to_ymd (ord : Z) : Z * Z * Z :=
  let n := ord - 1 in
  let '(y, m, d) := cycle_ymd (n mod 146097) in
  (400 * (n / 146097) + y, m, d).

(** * isoformat *)

Definition dec_digit (d : Z) : Z := 48 + d.
Definition dec (width : nat) (n : Z) : pystr := numeral 10 dec_digit width n.

Definition DAY : Z := 86400000000.
Definition EPOCH_ORDINAL : Z := 719163.

Definition utc_iso (t : Instant) : pystr :=
  let '(y, m, d) := ord_to_ymd (t / DAY + EPOCH_ORDINAL) in
  let us := t mod DAY in
  let s := us / 1000000 in
  dec 4 y ++ [45] ++ dec 2 m ++ [45] ++ dec 2 d ++ [84]
  ++ dec 2 (s / 3600) ++ [58] ++ dec 2 (s / 60 mod 60) ++ [58] ++ dec 2 (s mod 60)
  ++ (if us mod 1000000 =? 0 then [] else 46 :: dec 6 (us mod 1000000))
  ++ [43; 48; 48; 58; 48; 48].

(** [datetime.min] to [datetime.max]. *)
Definition is_instant (t : Instant) : Prop := 1 ≤ t / DAY + EPOCH_ORDINAL ≤ 3652059.

Example utc_iso_example :
  utc_iso 1790159400000000 = py "2026-09-23T10:30:00+00:00" ∧
  utc_iso 951782400000001 = py "2000-02-29T00:00:00.000001+00:00" ∧ utc_iso (-1) = py "1969-12-31T23:59:59.999999+00:00".
Proof. vm_compute. done. Qed.

(** ** Every day of the cycle reads back *)

(** A day of a year, split into month and day and put together again. *)
Definition year_day_ok (leap : bool) (n : Z) : bool :=
  let m := month_of leap n in
  let d := n - days_before_month leap m + 1 in
  in_range 1 12 m && in_range 1 31 d.

Fixpoint all_below (fuel : nat) (n : Z) (p : Z → bool) : bool :=
  match fuel with O => true | S f => p n && all_below f (n + 1) p end.

Lemma all_below_ok fuel p n k :
  all_below fuel n p = true → n ≤ k < n + Z.of_nat fuel → p k = true.
Proof.
  revert n. induction fuel as [|f IH]; intros n; simpl; [lia|].
  rewrite andb_true_iff. intros [Hp Hf] Hk.
  destruct (Z.eq_dec n k) as [->|Hne]; [done|]. apply (IH (n + 1)); [done|lia].
Qed.

Lemma year_days_ok (leap : bool) n : 0 ≤ n < (if leap then 366 else 365) → year_day_ok leap n = true.
Proof.
  intros Hn. destruct leap.
  - apply (all_below_ok 366 (year_day_ok true) 0); [vm_compute; reflexivity|lia].
  - apply (all_below_ok 365 (year_day_ok false) 0); [vm_compute; reflexivity|lia].
Qed.

(** The years of a cycle: [n100] centuries, [n4] leap cycles, [n1] years. *)
Lemma year_split n100 n4 n1 :
  0 ≤ n100 ≤ 3 → 0 ≤ n4 ≤ 24 → 0 ≤ n1 ≤ 3 →
  days_before_year (n100 * 100 + n4 * 4 + n1 + 1) = 36524 * n100 + 1461 * n4 + 365 * n1 ∧
  is_leap (n100 * 100 + n4 * 4 + n1 + 1) = (n1 =? 3) && (negb (n4 =? 24) || (n100 =? 3)).
Proof.
  intros H1 H2 H3. unfold days_before_year, is_leap.
  set (z := n100 * 100 + n4 * 4 + n1).
  replace (z + 1 - 1) with z by lia.
  assert (z / 4 = 25 * n100 + n4) as -> by (symmetry; apply (Z.div_unique z 4 (25 * n100 + n4) n1); lia).
  assert (z / 100 = n100) as -> by (symmetry; apply (Z.div_unique z 100 n100 (4 * n4 + n1)); lia).
  assert (z / 400 = 0) as -> by (symmetry; apply (Z.div_unique z 400 0 z); lia).
  split; [lia|].
  pose proof (Z.div_mod (z + 1) 4 ltac:(lia)). pose proof (Z.mod_pos_bound (z + 1) 4 ltac:(lia)).
  pose proof (Z.div_mod (z + 1) 100 ltac:(lia)). pose proof (Z.mod_pos_bound (z + 1) 100 ltac:(lia)).
  pose proof (Z.div_mod (z + 1) 400 ltac:(lia)). pose proof (Z.mod_pos_bound (z + 1) 400 ltac:(lia)).
  destruct (Z.eqb_spec ((z + 1) mod 4) 0), (Z.eqb_spec ((z + 1) mod 100) 0),
    (Z.eqb_spec ((z + 1) mod 400) 0), (Z.eqb_spec n1 3), (Z.eqb_spec n4 24), (Z.eqb_spec n100 3);
    simpl; try done; exfalso; lia.
Qed.

Lemma cycle_day n y m d : 0 ≤ n < 146097 → cycle_ymd n = (y, m, d) →
  ymd_to_ord (y, m, d) = n + 1 ∧ 1 ≤ y ≤ 400 ∧ 1 ≤ m ≤ 12 ∧ 1 ≤ d ≤ 31.
Proof.
  intros Hn H. unfold cycle_ymd in H.
  set (n100 := Z.min 3 (n / 36524)) in H. set (a := n - 36524 * n100) in H.
  set (n4 := Z.min 24 (a / 1461)) in H. set (b := a - 1461 * n4) in H.
  set (n1 := Z.min 3 (b / 365)) in H. set (c := b - 365 * n1) in H.
  assert (H100 : 0 ≤ n100 ≤ 3 ∧ 0 ≤ a ≤ 36524 ∧ (a = 36524 → n100 = 3)).
  { pose proof (Z.div_mod n 36524 ltac:(lia)). pose proof (Z.mod_pos_bound n 36524 ltac:(lia)). lia. }
  assert (H4 : 0 ≤ n4 ≤ 24 ∧ 0 ≤ b ≤ 1460 ∧ (b = 1460 → n4 = 24 → n100 = 3)).
  { pose proof (Z.div_mod a 1461 ltac:(lia)). pose proof (Z.mod_pos_bound a 1461 ltac:(lia)). lia. }
  assert (H1 : 0 ≤ n1 ≤ 3 ∧ 0 ≤ c ≤ 365 ∧ (c = 365 → n1 = 3 ∧ b = 1460)).
  { pose proof (Z.div_mod b 365 ltac:(lia)). pose proof (Z.mod_pos_bound b 365 ltac:(lia)). lia. }
  destruct (year_split n100 n4 n1) as [Hd Hl]; [lia|lia|lia|].
  set (year := n100 * 100 + n4 * 4 + n1 + 1) in *.
  assert (Hday : year_day_ok (is_leap year) c = true).
  { apply year_days_ok. rewrite Hl.
    destruct (Z.eqb_spec n1 3), (Z.eqb_spec n4 24), (Z.eqb_spec n100 3); simpl; lia. }
  injection H as <- <- <-. unfold year_day_ok, in_range in Hday.
  rewrite !andb_true_iff, !Z.leb_le in Hday. cbn [ymd_to_ord]. rewrite Hd. split; [|lia]. lia.
Qed.

Lemma is_leap_cycle k y : is_leap (400 * k + y) = is_leap y.
Proof.
  unfold is_leap.
  assert (H : ∀ q, 400 mod q = 0 → 0 < q → (400 * k + y) mod q = y mod q).
  { intros q Hq Hpos. rewrite Z.add_mod, Z.mul_mod, Hq by lia.
    by rewrite Z.mul_0_l, Z.mod_0_l, Z.add_0_l, Z.mod_mod by lia. }
  by rewrite !H by done.
Qed.

Lemma days_before_year_cycle k y : days_before_year (400 * k + y) = 146097 * k + days_before_year y.
Proof.
  unfold days_before_year.
  replace ((400 * k + y - 1) / 4) with ((y - 1) / 4 + k * 100)
    by (rewrite <-Z.div_add by lia; f_equal; lia).
  replace ((400 * k + y - 1) / 100) with ((y - 1) / 100 + k * 4)
    by (rewrite <-Z.div_add by lia; f_equal; lia).
  replace ((400 * k + y - 1) / 400) with ((y - 1) / 400 + k)
    by (rewrite <-Z.div_add by lia; f_equal; lia).
  lia.
Qed.

Lemma ord_to_ymd_inverse n : ymd_to_ord (ord_to_ymd n) = n.
Proof.
  unfold ord_to_ymd. destruct (cycle_ymd _) as [[y m] d] eqn:E.
  apply cycle_day in E as [H _]; [|apply Z.mod_pos_bound; lia].
  cbn [ymd_to_ord] in *. rewrite is_leap_cycle, days_before_year_cycle.
  pose proof (Z.div_mod (n - 1) 146097 ltac:(lia)). lia.
Qed.

Lemma ord_to_ymd_bounds n y m d :
  ord_to_ymd n = (y, m, d) → 1 ≤ n ≤ 3652059 → 0 ≤ y < 10000 ∧ 0 ≤ m < 100 ∧ 0 ≤ d < 100.
Proof.
  unfold ord_to_ymd. destruct (cycle_ymd _) as [[y0 m0] d0] eqn:E0.
  apply cycle_day in E0 as (Hord & Hy & Hm & Hd); [|apply Z.mod_pos_bound; lia].
  intros [= <- <- <-] Hn.
  pose proof (Z.div_pos (n - 1) 146097 ltac:(lia) ltac:(lia)).
  pose proof (Z.div_lt_upper_bound (n - 1) 146097 25 ltac:(lia) ltac:(lia)).
  split; [|lia]. split; [lia|].
  destruct (Z.eq_dec ((n - 1) / 146097) 24) as [E|E]; [|lia].
  (* the last cycle stops at year 9999 *)
  assert ((n - 1) mod 146097 < 145731) by (pose proof (Z.div_mod (n - 1) 146097 ltac:(lia)); lia).
  assert (y0 ≤ 399); [|lia].
  unfold ymd_to_ord, days_before_year in Hord.
  destruct (Z.eq_dec y0 400) as [->|]; [|lia]. exfalso.
  change (400 - 1) with 399 in Hord.
  change (399 * 365 + 399 / 4 - 399 / 100 + 399 / 400) with 145731 in Hord.
  assert (0 ≤ days_before_month (is_leap 400) m0); [|lia].
  unfold days_before_month. destruct m0 as [|p|p]; [simpl; lia| |simpl; lia].
  repeat (destruct p as [p|p|]; simpl; try lia).
Qed.

Lemma dec_inj w n m :
  0 ≤ n < 10 ^ Z.of_nat w → 0 ≤ m < 10 ^ Z.of_nat w → dec w n = dec w m → n = m.
Proof. apply numeral_inj; [lia|]. unfold dec_digit. lia. Qed.

Lemma length_dec w n : length (dec w n) = w.
Proof. apply length_numeral. Qed.

(** Peels a fixed-width field off both sides of an equation. *)
Ltac peel H E :=
  apply app_inj_length in H as [E H]; [|by rewrite ?length_dec].

Lemma utc_iso_inj s t : is_instant s → is_instant t → utc_iso s = utc_iso t → s = t.
Proof.
  unfold is_instant, utc_iso. intros Hs Ht H.
  destruct (ord_to_ymd (s / DAY + EPOCH_ORDINAL)) as [[y m] d] eqn:Es.
  destruct (ord_to_ymd (t / DAY + EPOCH_ORDINAL)) as [[y' m'] d'] eqn:Et.
  pose proof (ord_to_ymd_bounds _ _ _ _ Es Hs) as (By & Bm & Bd).
  pose proof (ord_to_ymd_bounds _ _ _ _ Et Ht) as (By' & Bm' & Bd').
  assert (Hus : ∀ x, 0 ≤ x mod DAY < DAY) by (intros x; apply Z.mod_pos_bound; done).
  pose proof (Hus s) as Us. pose proof (Hus t) as Ut.
  set (us := s mod DAY) in *. set (ut := t mod DAY) in *.
  assert (Hb : ∀ u, 0 ≤ u < DAY → 0 ≤ u / 1000000 / 3600 < 100).
  { intros u Hu. unfold DAY in Hu. split; [repeat apply Z.div_pos; lia|].
    repeat apply Z.div_lt_upper_bound; lia. }
  pose proof (Hb us Us). pose proof (Hb ut Ut).
  peel H Ey. peel H E0. peel H Em. peel H E1. peel H Ed. peel H E2.
  peel H Eh. peel H E3. peel H Emin. peel H E4. peel H Esec.
  apply dec_inj in Ey; [|done|done]. apply dec_inj in Em; [|done|done]. apply dec_inj in Ed; [|done|done].
  apply dec_inj in Eh; [|done|done].
  apply dec_inj in Emin; [|split; [apply Z.mod_pos_bound; lia|pose proof (Z.mod_pos_bound (us / 1000000 / 60) 60); simpl; lia]
                          |split; [apply Z.mod_pos_bound; lia|pose proof (Z.mod_pos_bound (ut / 1000000 / 60) 60); simpl; lia]].
  apply dec_inj in Esec; [|split; [apply Z.mod_pos_bound; lia|pose proof (Z.mod_pos_bound (us / 1000000) 60); simpl; lia]
                          |split; [apply Z.mod_pos_bound; lia|pose proof (Z.mod_pos_bound (ut / 1000000) 60); simpl; lia]].
  assert (Efrac : us mod 1000000 = ut mod 1000000).
  { pose proof (Z.mod_pos_bound us 1000000 ltac:(lia)). pose proof (Z.mod_pos_bound ut 1000000 ltac:(lia)).
    destruct (Z.eqb_spec (us mod 1000000) 0), (Z.eqb_spec (ut mod 1000000) 0); try lia.
    - by apply (f_equal length) in H; rewrite ?length_app in H; simpl in H; rewrite ?length_dec in H.
    - by apply (f_equal length) in H; rewrite ?length_app in H; simpl in H; rewrite ?length_dec in H.
    - rewrite <-!app_comm_cons in H. apply (f_equal tail) in H. cbn [tail] in H. apply app_inj_length in H as [H _]; [|by rewrite !length_dec].
      by apply dec_inj in H. }
  assert (Esecs : us / 1000000 = ut / 1000000).
  { set (a := us / 1000000) in *. set (b := ut / 1000000) in *. clearbody a b.
    replace 3600 with (60 * 60) in Eh by lia. rewrite <-!Z.div_div in Eh by lia.
    pose proof (Z.div_mod a 60 ltac:(lia)). pose proof (Z.div_mod b 60 ltac:(lia)).
    pose proof (Z.div_mod (a / 60) 60 ltac:(lia)). pose proof (Z.div_mod (b / 60) 60 ltac:(lia)). lia. }
  assert (Eord : s / DAY + EPOCH_ORDINAL = t / DAY + EPOCH_ORDINAL).
  { rewrite <-(ord_to_ymd_inverse (s / DAY + EPOCH_ORDINAL)), <-(ord_to_ymd_inverse (t / DAY + EPOCH_ORDINAL)).
    rewrite Es, Et. congruence. }
  pose proof (Z.div_mod s DAY ltac:(done)). pose proof (Z.div_mod t DAY ltac:(done)).
  pose proof (Z.div_mod us 1000000 ltac:(lia)). pose proof (Z.div_mod ut 1000000 ltac:(lia)).
  fold us in H1. fold ut in H2. lia.
Qed.

(** * Reading an instant back *)

Definition read_dec (s : pystr) : Z := fold_left (λ a c, a * 10 + (c - 48)) s 0.

(** [datetime.fromisoformat] on the texts that [isoformat] writes for UTC. *)
Definition read_utc_iso (s : pystr) : result Instant :=
  let field := λ a n, read_dec (take n (drop a s)) in
  let days := ymd_to_ord (field 0%nat 4%nat, field 5%nat 2%nat, field 8%nat 2%nat) - EPOCH_ORDINAL in
  let seconds := field 11%nat 2%nat * 3600 + field 14%nat 2%nat * 60 + field 17%nat 2%nat in
  let us := match drop 19 s with 46 :: rest => read_dec (take 6 rest) | _ => 0 end in
  let t := days * DAY + seconds * 1000000 + us in
  if bool_decide (utc_iso t = s) then Ok t else Err ValueError.

Lemma read_dec_app a b : read_dec (a ++ [b]) = read_dec a * 10 + (b - 48).
Proof. unfold read_dec. by rewrite fold_left_app. Qed.

Lemma read_dec_dec w : ∀ n, 0 ≤ n < 10 ^ Z.of_nat w → read_dec (dec w n) = n.
Proof.
  induction w as [|w IH]; intros n Hn.
  - change (10 ^ Z.of_nat 0) with 1 in Hn. change (0 = n). lia.
  - rewrite Nat2Z.inj_succ, Z.pow_succ_r in Hn by lia. unfold dec in *. cbn [numeral]. rewrite read_dec_app, IH.
    + unfold dec_digit. pose proof (Z.div_mod n 10 ltac:(lia)). lia.
    + split; [apply Z.div_pos; lia|apply Z.div_lt_upper_bound; lia].
Qed.

(** A field of known width, behind a prefix of known width. *)
Lemma read_field a n (p f s : pystr) : length p = a → length f = n → take n (drop a (p ++ f ++ s)) = f.
Proof. intros <- <-. by rewrite drop_app_length, take_app_length. Qed.

Lemma read_utc_iso_ok t : is_instant t → read_utc_iso (utc_iso t) = Ok t.
Proof.
  unfold is_instant. intros Ht. set (s := utc_iso t).
  assert (Hs : s = utc_iso t) by done. unfold utc_iso in Hs.
  destruct (ord_to_ymd (t / DAY + EPOCH_ORDINAL)) as [[y m] d] eqn:E.
  pose proof (ord_to_ymd_bounds _ _ _ _ E Ht) as (By & Bm & Bd).
  pose proof (ord_to_ymd_inverse (t / DAY + EPOCH_ORDINAL)) as Ho. rewrite E in Ho.
  pose proof (Z.mod_pos_bound t DAY ltac:(done)) as Hus. pose proof (Z.div_mod t DAY ltac:(done)) as Hdm.
  set (us := t mod DAY) in *. unfold DAY in Hus.
  set (sec := us / 1000000) in *. pose proof (Z.div_mod us 1000000 ltac:(lia)) as Hsm.
  pose proof (Z.mod_pos_bound us 1000000 ltac:(lia)) as Hub. fold sec in Hsm.
  pose proof (Z.div_mod sec 60 ltac:(lia)). pose proof (Z.mod_pos_bound sec 60 ltac:(lia)).
  pose proof (Z.div_mod (sec / 60) 60 ltac:(lia)). pose proof (Z.mod_pos_bound (sec / 60) 60 ltac:(lia)).
  assert (Hh : sec / 3600 = sec / 60 / 60) by (by rewrite Z.div_div by lia). rewrite Hh in Hs.
  set (h := sec / 60 / 60) in *. set (mi := sec / 60 mod 60) in *. set (se := sec mod 60) in *.
  set (tail := if us mod 1000000 =? 0 then [] else 46 :: dec 6 (us mod 1000000)) in Hs.
  unfold read_utc_iso. cbv zeta.
  assert (Fy : read_dec (take 4 (drop 0 s)) = y).
  { rewrite Hs. rewrite drop_0, take_app_length' by (by rewrite length_dec). by apply read_dec_dec. }
  assert (Fm : read_dec (take 2 (drop 5 s)) = m).
  { rewrite Hs. rewrite (app_assoc (dec 4 y)), (read_field 5 2) by (rewrite ?length_app, ?length_dec; done).
    by apply read_dec_dec. }
  assert (Fd : read_dec (take 2 (drop 8 s)) = d).
  { rewrite Hs. do 3 rewrite (app_assoc _ _ (_ ++ _)). rewrite (read_field 8 2) by (rewrite ?length_app, ?length_dec; done).
    by apply read_dec_dec. }
  assert (Fh : read_dec (take 2 (drop 11 s)) = h).
  { rewrite Hs. do 5 rewrite (app_assoc _ _ (_ ++ _)). rewrite (read_field 11 2) by (rewrite ?length_app, ?length_dec; done).
    apply read_dec_dec. change (10 ^ Z.of_nat 2) with 100. lia. }
  assert (Fmi : read_dec (take 2 (drop 14 s)) = mi).
  { rewrite Hs. do 7 rewrite (app_assoc _ _ (_ ++ _)). rewrite (read_field 14 2) by (rewrite ?length_app, ?length_dec; done).
    apply read_dec_dec. change (10 ^ Z.of_nat 2) with 100. lia. }
  assert (Fs : read_dec (take 2 (drop 17 s)) = se).
  { rewrite Hs. do 9 rewrite (app_assoc _ _ (_ ++ _)). rewrite (read_field 17 2) by (rewrite ?length_app, ?length_dec; done).
    apply read_dec_dec. change (10 ^ Z.of_nat 2) with 100. lia. }
  assert (Ft : drop 19 s = tail ++ [43; 48; 48; 58; 48; 48]).
  { rewrite Hs. do 10 rewrite (app_assoc _ _ (_ ++ _)). rewrite drop_app_length'; [done|].
    rewrite !length_app, !length_dec. done. }
  assert (Fu : match drop 19 s with 46 :: rest => read_dec (take 6 rest) | _ => 0 end = us mod 1000000).
  { rewrite Ft. unfold tail. destruct (Z.eqb_spec (us mod 1000000) 0) as [->|]; [done|].
    cbn [app]. rewrite take_app_length' by (by rewrite length_dec). by apply read_dec_dec. }
  rewrite Fy, Fm, Fd, Fh, Fmi, Fs, Fu, Ho.
  assert (Et : (t / DAY + EPOCH_ORDINAL - EPOCH_ORDINAL) * DAY + (h * 3600 + mi * 60 + se) * 1000000 + us mod 1000000 = t) by lia.
  rewrite Et. by rewrite bool_decide_eq_true_2.
Qed.
