(* ===== verification/Parsing.v ===== *)
(** Reading texts back: Python's [int()], [uuid.UUID()], [str.split(sep)] and base64,
    as app/auth uses them, with the round trips against their writers. *)

From S2P Require Import Prelude PyStr Json Canonical Calendar.

(** * [int(text, base)] *)

(** Digits of other scripts, which [int] also reads, do not occur in texts that the
    program writes; they are errors here. *)
Definition digit_value (c : Z) : option Z :=
  if is_digit c then Some (c - 48)
  else if is_lower_az c then Some (c - 87)
  else if is_upper_az c then Some (c - 55) else None.

(** Digits with single underscores between them. *)
Fixpoint read_digits (base acc : Z) (after_underscore : bool) (s : pystr) : option Z :=
  match s with
  | [] => if after_underscore then None else Some acc
  | c :: s' =>
    if c =? 95 then (if after_underscore then None else read_digits base acc true s')
    else match digit_value c with
         | Some v => if v <? base then read_digits base (acc * base + v) false s' else None
         | None => None
         end
  end.

(** [0x] and one underscore may come before hexadecimal digits. *)
Definition drop_prefix (base : Z) (s : pystr) : pystr :=
  match s with
  | z :: c :: s' =>
    if (base =? 16) && (z =? 48) && ((c =? 120) || (c =? 88))
    then match s' with u :: s'' => if u =? 95 then s'' else s' | [] => [] end
    else s
  | _ => s
  end.

(** A leading sign. *)
Definition split_sign (s : pystr) : bool * pystr :=
  match s with
  | c :: s' => if c =? 45 then (true, s') else if c =? 43 then (false, s') else (false, s)
  | [] => (false, [])
  end.

Definition MAX_STR_DIGITS : Z := 4300.

Definition int_of_text (base : Z) (text : pystr) : result Z :=
  let '(negative, s) := split_sign (strip text) in
  if (base =? 10) && (MAX_STR_DIGITS <? zlen (where_ is_digit s)) then Err ValueError
  else match read_digits base 0 true (drop_prefix base s) with
       | Some n => Ok (if negative then - n else n)
       | None => Err ValueError
       end.

Lemma read_digits_app base acc s c v : 0 < base → read_digits base 0 true s = Some acc →
  c ≠ 95 → digit_value c = Some v → v < base → read_digits base 0 true (s ++ [c]) = Some (acc * base + v).
Proof.
  intros Hb. generalize 0 as a, true as u. revert acc. induction s as [|x s IH]; intros acc a u H Hc Hd Hv.
  - cbn in H. destruct u; [done|]. injection H as ->. cbn.
    by rewrite (proj2 (Z.eqb_neq _ _) Hc), Hd, (proj2 (Z.ltb_lt _ _) Hv).
  - cbn in H |- *. destruct (x =? 95); [destruct u; [done|]; by apply IH|].
    destruct (digit_value x); [|done]. destruct (_ <? base); [|done]. by apply IH.
Qed.

Lemma read_decimal s : forallb is_digit s = true → s ≠ [] → read_digits 10 0 true s = Some (digits_val s).
Proof.
  induction s as [|c s IH] using rev_ind; [done|]. rewrite forallb_app. intros [Hs Hc]%andb_true_iff _.
  cbn in Hc. rewrite andb_true_r in Hc. unfold digits_val. rewrite fold_left_app. cbn [fold_left].
  assert (Hv : digit_value c = Some (c - 48)) by (unfold digit_value; by rewrite Hc).
  unfold is_digit, in_range in Hc. rewrite andb_true_iff, !Z.leb_le in Hc.
  destruct s as [|x s]; [|apply read_digits_app; [lia|by apply IH|lia|done|lia]].
  cbn. rewrite (proj2 (Z.eqb_neq _ _)), Hv by lia. rewrite (proj2 (Z.ltb_lt _ _)) by lia. done.
Qed.

(** * [str.split(sep)] for one character *)

Fixpoint split_on (sep : Z) (s : pystr) : list pystr :=
  match s with
  | [] => [[]]
  | c :: s' => if c =? sep then [] :: split_on sep s'
               else match split_on sep s' with w :: ws => (c :: w) :: ws | [] => [[c]] end
  end.

Lemma split_on_none sep w : sep ∉ w → split_on sep w = [w].
Proof.
  induction w as [|c w IH]; [done|]. intros [Hc Hw]%not_elem_of_cons. cbn.
  rewrite (proj2 (Z.eqb_neq _ _)) by congruence. by rewrite IH.
Qed.

Lemma split_on_cons sep w s : sep ∉ w → split_on sep (w ++ sep :: s) = w :: split_on sep s.
Proof.
  induction w as [|c w IH]; cbn; [by rewrite Z.eqb_refl|]. intros [Hc Hw]%not_elem_of_cons.
  rewrite (proj2 (Z.eqb_neq _ _)) by congruence. by rewrite IH.
Qed.

(** * [uuid.UUID(hex)] *)

(** [text.replace(p, "")] *)
Fixpoint remove_sub (p : pystr) (skip : nat) (s : pystr) : pystr :=
  match s with
  | [] => []
  | c :: s' => match skip with
               | S k => remove_sub p k s'
               | O => if startswith p s then remove_sub p (length p - 1) s' else c :: remove_sub p O s'
               end
  end.

(** [text.strip("{}")] *)
Fixpoint lstrip_braces (s : pystr) : pystr :=
  match s with c :: s' => if (c =? 123) || (c =? 125) then lstrip_braces s' else s | [] => [] end.
Definition strip_braces (s : pystr) : pystr := reverse (lstrip_braces (reverse (lstrip_braces s))).

Definition uuid_of_text (text : pystr) : result UUID :=
  let hex := remove_sub (py "uuid:") O (remove_sub (py "urn:") O text) in
  let hex := replace_char 45 [] (strip_braces hex) in
  if negb (zlen hex =? 32) then Err ValueError else
  n ← int_of_text 16 hex;
  if (0 <=? n) && (n <? 2 ^ 128) then Ok n else Err ValueError.

(** The characters of [str(uuid)]. *)
Definition uuid_char (c : Z) : bool := is_digit c || in_range 97 102 c || (c =? 45).
Definition hex_char (c : Z) : bool := is_digit c || in_range 97 102 c.

Lemma hex_digit_char d : 0 ≤ d < 16 → hex_char (hex_digit d) = true ∧ digit_value (hex_digit d) = Some d.
Proof.
  intros Hd. unfold hex_digit, hex_char, digit_value, is_digit, is_lower_az, in_range.
  destruct (Z.ltb_spec d 10).
  - assert (E : (48 <=? 48 + d) && (48 + d <=? 57) = true) by (rewrite andb_true_iff, !Z.leb_le; lia).
    rewrite E. split; [done|]. f_equal. lia.
  - assert (E : (48 <=? 87 + d) && (87 + d <=? 57) = false) by (rewrite andb_false_iff, !Z.leb_gt; lia).
    assert (E' : (97 <=? 87 + d) && (87 + d <=? 102) = true) by (rewrite andb_true_iff, !Z.leb_le; lia).
    assert (E'' : (97 <=? 87 + d) && (87 + d <=? 122) = true) by (rewrite andb_true_iff, !Z.leb_le; lia).
    rewrite E, E', E''. split; [done|]. f_equal. lia.
Qed.

Lemma hex_of_chars w n : forallb hex_char (hex_of w n) = true.
Proof.
  revert n. induction w as [|w IH]; intros n; [done|]. cbn [hex_of]. rewrite forallb_app, IH. cbn.
  rewrite (proj1 (hex_digit_char _ (Z.mod_pos_bound n 16 ltac:(lia)))). done.
Qed.

Lemma length_hex_of w n : length (hex_of w n) = w.
Proof. revert n. induction w as [|w IH]; intros n; [done|]. cbn [hex_of]. rewrite length_app, IH. cbn. lia. Qed.

Lemma read_hex w n : 0 ≤ n → (0 < w)%nat → read_digits 16 0 true (hex_of w n) = Some (n mod 16 ^ Z.of_nat w).
Proof.
  revert n. induction w as [|w IH]; intros n Hn Hw; [lia|]. cbn [hex_of].
  destruct (hex_digit_char _ (Z.mod_pos_bound n 16 ltac:(lia))) as [Hc Hv].
  pose proof (Z.mod_pos_bound n 16 ltac:(lia)) as Hb.
  assert (H95 : hex_digit (n mod 16) ≠ 95).
  { intros E. rewrite E in Hc. done. }
  destruct w as [|w].
  - cbn [hex_of app]. cbn. rewrite (proj2 (Z.eqb_neq _ _) H95), Hv. rewrite (proj2 (Z.ltb_lt _ _)) by lia.
    f_equal.
  - rewrite (read_digits_app 16 _ _ _ _ ltac:(lia) (IH (n / 16) ltac:(apply Z.div_pos; lia) ltac:(lia)) H95 Hv) by lia.
    f_equal. rewrite (Nat2Z.inj_succ (S w)), Z.pow_succ_r by lia.
    rewrite Z.rem_mul_r by (try apply Z.pow_nonzero; try apply Z.pow_pos_nonneg; lia). lia.
Qed.

Lemma remove_sub_absent p c s : head p = Some c → c ∉ s → remove_sub p O s = s.
Proof.
  destruct p as [|c' p]; [done|]. cbn. intros [= ->]. induction s as [|x s IH]; [done|].
  intros [Hx Hs]%not_elem_of_cons. cbn. destruct (Z.eqb_spec c x); [congruence|]. cbn. by rewrite IH.
Qed.

Lemma lstrip_braces_none s : 123 ∉ s → 125 ∉ s → lstrip_braces s = s.
Proof.
  destruct s as [|c s]; [done|]. intros [H1 _]%not_elem_of_cons [H2 _]%not_elem_of_cons. cbn.
  by rewrite !(proj2 (Z.eqb_neq _ _)) by congruence.
Qed.

Lemma strip_braces_none s : 123 ∉ s → 125 ∉ s → strip_braces s = s.
Proof.
  intros H1 H2. unfold strip_braces. rewrite (lstrip_braces_none s) by done.
  rewrite lstrip_braces_none by (by rewrite elem_of_reverse). apply reverse_involutive.
Qed.

Lemma replace_char_app a b s t : replace_char a b (s ++ t) = replace_char a b s ++ replace_char a b t.
Proof. unfold replace_char. by rewrite ?map_app, ?concat_app, ?flat_map_app. Qed.

Lemma replace_char_none a b s : a ∉ s → replace_char a b s = s.
Proof.
  induction s as [|c s IH]; [done|]. intros [Hc Hs]%not_elem_of_cons.
  change (c :: s) with ([c] ++ s). rewrite replace_char_app, IH by done. f_equal. cbn.
  by rewrite (proj2 (Z.eqb_neq _ _)) by congruence.
Qed.

Lemma chars_not_in (p : Z → bool) s c : forallb p s = true → p c = false → c ∉ s.
Proof. intros Hs Hc Hin. pose proof (forallb_elem _ _ _ Hs Hin). congruence. Qed.

Lemma uuid_str_chars u : forallb uuid_char (uuid_str u) = true.
Proof.
  unfold uuid_str. assert (H : forallb uuid_char (hex_of 32 u) = true).
  { pose proof (hex_of_chars 32 u) as H. rewrite forallb_forall in H |- *. intros x Hx. unfold uuid_char.
    apply H in Hx. unfold hex_char in Hx. by rewrite Hx. }
  assert (Ht : ∀ n (l : pystr), forallb uuid_char l = true → forallb uuid_char (take n l) = true).
  { intros n l Hl. rewrite <-(take_drop n l), forallb_app in Hl. by apply andb_true_iff in Hl as [? _]. }
  assert (Hd : ∀ n (l : pystr), forallb uuid_char l = true → forallb uuid_char (drop n l) = true).
  { intros n l Hl. rewrite <-(take_drop n l), forallb_app in Hl. by apply andb_true_iff in Hl as [_ ?]. }
  rewrite !forallb_app. rewrite !Ht by (try apply Hd; done). rewrite Hd by done. done.
Qed.

Lemma undash u : replace_char 45 [] (uuid_str u) = hex_of 32 u.
Proof.
  unfold uuid_str. set (h := hex_of 32 u). assert (Hh : 45 ∉ h) by (by apply (chars_not_in hex_char), eq_refl; apply hex_of_chars).
  assert (Ht : ∀ n (l : pystr), 45 ∉ l → 45 ∉ take n l) by (intros n l Hl Hin; apply Hl; by apply in_take_elem in Hin).
  assert (Hd : ∀ n (l : pystr), 45 ∉ l → 45 ∉ drop n l).
  { intros n l Hl Hin. apply Hl. rewrite <-(take_drop n l). apply elem_of_app. by right. }
  rewrite !replace_char_app. rewrite !(replace_char_none 45 [] (take _ _)), (replace_char_none 45 [] (drop _ _))
    by eauto. change (replace_char 45 [] [45]) with (@nil Z). cbn [app].
  assert (E : ∀ a b (l : pystr), take b (drop a l) ++ drop (a + b) l = drop a l)
    by (intros a b l; rewrite <-(take_drop b (drop a l)) at 2; by rewrite drop_drop).
  change (drop 20 h) with (drop (16 + 4) h). rewrite E. change (drop 16 h) with (drop (12 + 4) h).
  apply take_drop.
Qed.

(** No white space among printable ASCII characters. *)
Lemma printable_no_space (p : Z → bool) s : forallb p s = true → (∀ c, p c = true → 33 ≤ c ≤ 126) →
  forallb (λ c, negb (is_space c)) s = true.
Proof.
  rewrite !forallb_forall. intros Hs Hp c Hc. apply Hs, Hp in Hc. unfold is_space, in_range.
  rewrite bool_decide_eq_false_2 by (rewrite ?elem_of_cons, elem_of_nil; lia).
  apply negb_true_iff. rewrite !orb_false_iff, !andb_false_iff, !Z.leb_gt. lia.
Qed.

(** [UUID(str(u)) == u] *)
Lemma uuid_of_text_str u : is_uuid u → uuid_of_text (uuid_str u) = Ok u.
Proof.
  intros Hu. unfold uuid_of_text.
  assert (Hn : ∀ c, uuid_char c = false → c ∉ uuid_str u) by (intros c; apply chars_not_in, uuid_str_chars).
  rewrite (remove_sub_absent (py "urn:") 117) by (done || by apply Hn).
  rewrite (remove_sub_absent (py "uuid:") 117) by (done || by apply Hn).
  rewrite strip_braces_none, undash by (by apply Hn).
  assert (El : zlen (hex_of 32 u) =? 32 = true) by (unfold zlen; by rewrite length_hex_of).
  rewrite El. cbn [negb].
  assert (Hc : ∀ c, hex_char c = false → c ∉ hex_of 32 u) by (intros c; apply chars_not_in, hex_of_chars).
  assert (Ei : int_of_text 16 (hex_of 32 u) = Ok u).
  { unfold int_of_text. rewrite strip_nonspace.
    2:{ apply (printable_no_space hex_char); [apply hex_of_chars|]. intros c. unfold hex_char, is_digit, in_range.
        rewrite orb_true_iff, !andb_true_iff, !Z.leb_le. lia. }
    assert (Eread : read_digits 16 0 true (hex_of 32 u) = Some u).
    { rewrite read_hex by (destruct Hu; lia). f_equal. apply Z.mod_small. exact Hu. }
    assert (Ep : drop_prefix 16 (hex_of 32 u) = hex_of 32 u ∧ split_sign (hex_of 32 u) = (false, hex_of 32 u)).
    { destruct (hex_of 32 u) as [|z s]; [done|].
      assert (Hz : z ≠ 45 ∧ z ≠ 43) by (split; intros ->; [by apply (Hc 45 eq_refl); left|by apply (Hc 43 eq_refl); left]).
      split; [|cbn; by rewrite !(proj2 (Z.eqb_neq z _)) by apply Hz].
      destruct s as [|c s]; [done|]. assert (Hd : c ≠ 120 ∧ c ≠ 88).
      { split; intros ->; [by apply (Hc 120 eq_refl); right; left|by apply (Hc 88 eq_refl); right; left]. }
      cbn. rewrite !(proj2 (Z.eqb_neq c _)) by apply Hd. by rewrite andb_false_r. }
    destruct Ep as [Ep Es]. rewrite Es. cbn [Z.eqb andb]. by rewrite Ep, Eread. }
  rewrite Ei. cbn [mbind result_bind]. destruct Hu as [H1 H2].
  by rewrite (proj2 (Z.leb_le _ _) H1), (proj2 (Z.ltb_lt _ _) H2).
Qed.

(** [int(str(n)) == n] *)
Lemma int_of_text_str n : 0 ≤ n → zlen (str_of_int n) ≤ MAX_STR_DIGITS → int_of_text 10 (str_of_int n) = Ok n.
Proof.
  intros Hn Hl. unfold str_of_int in *. destruct (Z.ltb_spec n 0); [lia|].
  pose proof (str_of_nonneg_digits n Hn) as Hd. unfold int_of_text.
  assert (Hne : str_of_nonneg n ≠ []).
  { intros E. pose proof (str_of_int_nonempty n) as H'. unfold str_of_int in H'.
    destruct (Z.ltb_spec n 0); [lia|done]. }
  rewrite strip_nonspace.
  2:{ apply (printable_no_space is_digit); [done|]. intros c. unfold is_digit, in_range.
      rewrite andb_true_iff, !Z.leb_le. lia. }
  assert (Es : split_sign (str_of_nonneg n) = (false, str_of_nonneg n)).
  { assert (Hc : ∀ c, is_digit c = false → c ∉ str_of_nonneg n) by (intros c; by apply chars_not_in).
    destruct (str_of_nonneg n) as [|z s]; [done|]. unfold split_sign.
    rewrite !(proj2 (Z.eqb_neq z _)); [done|..]; intros ->; [by apply (Hc 43 eq_refl); left|by apply (Hc 45 eq_refl); left]. }
  rewrite Es. cbn [Z.eqb]. assert (Ew : where_ is_digit (str_of_nonneg n) = str_of_nonneg n).
  { apply where_true. intros x Hx. by apply (forallb_elem _ _ _ Hd). }
  rewrite Ew. replace (10 =? 10) with true by done. cbn [andb].
  rewrite (proj2 (Z.ltb_ge _ _) Hl). assert (Ed : drop_prefix 10 (str_of_nonneg n) = str_of_nonneg n)
    by (destruct (str_of_nonneg n) as [|z [|c s]]; done).
  rewrite Ed, (read_decimal _ Hd Hne), digits_val_str by done. done.
Qed.

(** * Words *)

Lemma split_acc_word w cur s : forallb (λ c, negb (is_space c)) w = true →
  split_acc cur (w ++ s) = split_acc (cur ++ w) s.
Proof.
  revert cur. induction w as [|c w IH]; intros cur; [by rewrite app_nil_r|]. cbn.
  intros [Hc%negb_true_iff Hw]%andb_true_iff. rewrite Hc, IH, <-app_assoc by done. done.
Qed.

(** [" ".join(words).split() == words] when no word is empty or has white space. *)
Lemma split_ws_join ws : (∀ w, w ∈ ws → w ≠ [] ∧ forallb (λ c, negb (is_space c)) w = true) →
  split_ws (join [32] ws) = ws.
Proof.
  intros H. induction ws as [|w ws IH]; [done|].
  destruct (H w ltac:(by left)) as [Hne Hw]. assert (IH' := IH ltac:(intros x Hx; apply H; by right)).
  assert (Hlast : ∀ s, split_acc [] (w ++ s) = split_acc w s) by (intros s; by rewrite split_acc_word).
  unfold split_ws in *. destruct ws as [|w' ws].
  - cbn [join]. rewrite <-(app_nil_r w) at 1. rewrite Hlast. by destruct w.
  - change (join [32] (w :: w' :: ws)) with (w ++ [32] ++ join [32] (w' :: ws)). rewrite Hlast.
    cbn [app split_acc]. change (is_space 32) with true. cbn iota. rewrite IH'. by destruct w.
Qed.
