(* ===== verification/Encoding.v ===== *)
(** [str.encode("utf-8")] loses nothing: the bytes determine the string, so equal
    bytes under a digest are equal documents. *)

From S2P Require Import Prelude PyStr Json Canonical.

Lemma lor_high q k b : 0 ≤ k → 0 ≤ b < 2 ^ k → Z.lor (q * 2 ^ k) b = q * 2 ^ k + b.
Proof.
  intros Hk Hb. rewrite <-Z.shiftl_mul_pow2 by done.
  assert (Hland : Z.land (Z.shiftl q k) b = 0).
  { apply Z.bits_inj'. intros n Hn. rewrite Z.land_spec, Z.shiftl_spec, Z.bits_0 by done.
    destruct (Z.ltb_spec n k).
    - by rewrite Z.testbit_neg_r by lia.
    - assert (Z.testbit b n = false) as ->; [|by rewrite andb_false_r].
      rewrite <-(Z.mod_small b (2 ^ k)) by lia. by apply Z.mod_pow2_bits_high; lia. }
  rewrite Z.add_nocarry_lxor by done. symmetry. by apply Z.lxor_lor.
Qed.

(** The bytes of a character, with [/] and [mod] for the shifts and masks. *)
Definition utf8_arith (c : Z) : list Z :=
  if c <? 128 then [c]
  else if c <? 2048 then [192 + c / 64; 128 + c mod 64]
  else if c <? 65536 then [224 + c / 4096; 128 + c / 64 mod 64; 128 + c mod 64]
  else [240 + c / 262144; 128 + c / 4096 mod 64; 128 + c / 64 mod 64; 128 + c mod 64].

Lemma utf8_char_arith c b : valid_char c = true → utf8_char c = Ok b → b = utf8_arith c.
Proof.
  unfold valid_char, in_range. rewrite andb_true_iff, !Z.leb_le. intros Hc.
  unfold utf8_char, utf8_arith.
  assert (H128 : ∀ x, Z.lor 128 (Z.land x 63) = 128 + x mod 64).
  { intros x. change 63 with (Z.ones 6). rewrite Z.land_ones by lia.
    change 128 with (2 * 2 ^ 6). apply lor_high; [lia|]. apply Z.mod_pos_bound. lia. }
  rewrite !H128, !Z.shiftr_div_pow2 by lia.
  change (2 ^ 6) with 64. change (2 ^ 12) with 4096. change (2 ^ 18) with 262144.
  destruct (Z.ltb_spec c 128); [by intros [= <-]|].
  destruct (Z.ltb_spec c 2048).
  { intros [= <-]. change 192 with (6 * 2 ^ 5). rewrite lor_high; [done|lia|].
    split; [apply Z.div_pos; lia|apply Z.div_lt_upper_bound; lia]. }
  destruct (in_range _ _ _); [done|]. destruct (Z.ltb_spec c 65536).
  - intros [= <-]. change 224 with (14 * 2 ^ 4). rewrite lor_high; [done|lia|].
    split; [apply Z.div_pos; lia|apply Z.div_lt_upper_bound; lia].
  - intros [= <-]. change 240 with (30 * 2 ^ 3). rewrite lor_high; [done|lia|].
    split; [apply Z.div_pos; lia|apply Z.div_lt_upper_bound; lia].
Qed.

(** A reader of the bytes knows where the character ends. *)
Lemma utf8_arith_unique c d r s :
  valid_char c = true → valid_char d = true →
  utf8_arith c ++ r = utf8_arith d ++ s → c = d ∧ r = s.
Proof.
  unfold valid_char, in_range. rewrite !andb_true_iff, !Z.leb_le. intros Hc Hd.
  unfold utf8_arith.
  assert (Hq : ∀ x q, 0 < q → x = q * (x / q) + x mod q ∧ 0 ≤ x mod q < q).
  { intros x q Hq. split; [apply Z.div_mod; lia|by apply Z.mod_pos_bound]. }
  pose proof (Hq c 64 eq_refl). pose proof (Hq d 64 eq_refl).
  pose proof (Hq (c / 64) 64 eq_refl) as H1. pose proof (Hq (d / 64) 64 eq_refl) as H2.
  pose proof (Hq (c / 4096) 64 eq_refl) as H3. pose proof (Hq (d / 4096) 64 eq_refl) as H4.
  rewrite !Z.div_div in H1, H2, H3, H4 by lia. change (64 * 64) with 4096 in *. change (4096 * 64) with 262144 in *.
  destruct (Z.ltb_spec c 128), (Z.ltb_spec d 128), (Z.ltb_spec c 2048), (Z.ltb_spec d 2048),
    (Z.ltb_spec c 65536), (Z.ltb_spec d 65536); try lia; cbn [app]; intros E; injection E; intros;
    first [split; [lia|done] | exfalso; lia].
Qed.

Lemma encode_utf8_inj s : ∀ t b,
  forallb valid_char s = true → forallb valid_char t = true →
  encode_utf8 s = Ok b → encode_utf8 t = Ok b → s = t.
Proof.
  assert (Hcons : ∀ c s b, encode_utf8 (c :: s) = Ok b →
    ∃ x y, utf8_char c = Ok x ∧ encode_utf8 s = Ok y ∧ b = x ++ y).
  { intros c s' b H. unfold encode_utf8 in *. cbn [mapR] in H.
    apply result_bind_ok in H as (bs & H & [= <-]).
    apply result_bind_ok in H as (x & Hx & H). apply result_bind_ok in H as (y & Hy & [= <-]).
    exists x, (concat y). split_and!; [done| |done]. by rewrite Hy. }
  assert (Hnil : ∀ c s, valid_char c = true → encode_utf8 (c :: s) ≠ Ok []).
  { intros c s' Hc H. apply Hcons in H as (x & y & Hx & _ & E).
    apply utf8_char_arith in Hx; [|done]. subst x. unfold utf8_arith in E.
    repeat case_match; done. }
  induction s as [|c s IH]; intros [|d t] b Hs Ht E1 E2; cbn [forallb] in Hs, Ht.
  - done.
  - injection E1 as <-. apply andb_true_iff in Ht as [Hd _]. by destruct (Hnil d t Hd).
  - injection E2 as <-. apply andb_true_iff in Hs as [Hc _]. by destruct (Hnil c s Hc).
  - apply andb_true_iff in Hs as [Hc Hs], Ht as [Hd Ht].
    apply Hcons in E1 as (x & y & Hx & Hy & ->), E2 as (x' & y' & Hx' & Hy' & E).
    apply utf8_char_arith in Hx; [|done]. apply utf8_char_arith in Hx'; [|done]. subst x x'.
    apply utf8_arith_unique in E as [-> ->]; [|done|done]. f_equal. by eapply IH.
Qed.

(** * Valid text *)

Lemma valid_char_range c : 0 ≤ c ≤ 1114111 → valid_char c = true.
Proof. intros. unfold valid_char, in_range. rewrite andb_true_iff, !Z.leb_le. lia. Qed.

Lemma valid_chars_py (l : pystr) : forallb (in_range 0 127) l = true → forallb valid_char l = true.
Proof.
  rewrite !forallb_forall. intros H c Hc. specialize (H c Hc). unfold in_range in H.
  rewrite andb_true_iff, !Z.leb_le in H. apply valid_char_range. lia.
Qed.

Lemma forallb_app_valid (a b : pystr) :
  forallb valid_char a = true → forallb valid_char b = true → forallb valid_char (a ++ b) = true.
Proof. intros Ha Hb. by rewrite forallb_app, Ha, Hb. Qed.

Lemma hex_of_valid w n : forallb valid_char (hex_of w n) = true.
Proof.
  revert n. induction w as [|w IH]; intros n; [done|]. cbn [hex_of]. apply forallb_app_valid; [apply IH|].
  cbn [forallb]. rewrite andb_true_r. apply valid_char_range.
  pose proof (Z.mod_pos_bound n 16 ltac:(lia)). unfold hex_digit. destruct (_ <? 10) eqn:E; lia.
Qed.

Lemma escape_char_valid c : valid_char c = true → forallb valid_char (escape_char c) = true.
Proof.
  intros Hc. unfold escape_char, escape_common.
  repeat case_match; simplify_eq; try done.
  - unfold u_escape. cbn [forallb]. apply hex_of_valid.
  - cbn [forallb]. by rewrite Hc.
Qed.

Lemma u_escape_valid c : forallb valid_char (u_escape c) = true.
Proof. unfold u_escape. cbn [forallb]. apply hex_of_valid. Qed.

Lemma escape_char_ascii_valid c : forallb valid_char (escape_char_ascii c) = true.
Proof.
  unfold escape_char_ascii. pose proof (u_escape_valid) as Hu.
  destruct (escape_common c) as [e|] eqn:E; [unfold escape_common in E; by repeat case_match; simplify_eq|].
  destruct (in_range 32 126 c) eqn:Er.
  - cbn [forallb]. rewrite andb_true_r. apply valid_char_range. unfold in_range in Er.
    rewrite andb_true_iff, !Z.leb_le in Er. lia.
  - destruct (c <? 65536); [done|]. apply forallb_app_valid; apply Hu.
Qed.

Lemma quote_with_valid esc s : (∀ c, valid_char c = true → forallb valid_char (esc c) = true) →
  forallb valid_char s = true → forallb valid_char (quote esc s) = true.
Proof.
  intros He Hs. unfold quote. apply forallb_app_valid; [done|]. apply forallb_app_valid; [|done].
  induction s as [|c s IH]; [done|]. cbn [flat_map forallb] in *. apply andb_true_iff in Hs as [Hc Hs].
  apply forallb_app_valid; [by apply He|by apply IH].
Qed.

Lemma quote_valid s : forallb valid_char s = true → forallb valid_char (quote escape_char s) = true.
Proof. apply quote_with_valid, escape_char_valid. Qed.

Lemma join_valid sep l :
  forallb valid_char sep = true → Forall (λ t, forallb valid_char t = true) l →
  forallb valid_char (join sep l) = true.
Proof.
  intros Hsep. induction 1 as [|x l Hx Hl IH]; [done|]. cbn [join]. destruct l; [done|].
  apply forallb_app_valid; [done|]. by apply forallb_app_valid.
Qed.

Lemma weaken_valid (p : Z → bool) (l : pystr) :
  (∀ c, p c = true → 0 ≤ c ≤ 127) → forallb p l = true → forallb valid_char l = true.
Proof.
  intros Hp. rewrite !forallb_forall. intros H c Hc. apply valid_char_range.
  specialize (Hp c (H c Hc)). lia.
Qed.

