(* ===== verification/JsonParse.v ===== *)
(** [json.loads], executable: the scanner of CPython's json module over code points,
    with the theorem that it reads back what [json.dumps] writes.  Where a number has a
    fraction or an exponent its value is a parameter. *)

From S2P Require Import Prelude PyStr Json Canonical Calendar Encoding Parsing.

(** [float(text)] of a JSON number. *)
Class FloatRead := { float_of_text : pystr → pyfloat }.

Definition is_ws (c : Z) : bool := (c =? 32) || (c =? 9) || (c =? 10) || (c =? 13).

Fixpoint skip_ws (s : pystr) : pystr :=
  match s with c :: s' => if is_ws c then skip_ws s' else s | [] => [] end.

(** * Strings *)

Definition hex_value (c : Z) : option Z :=
  match digit_value c with Some v => if v <? 16 then Some v else None | None => None end.

Definition hex4 (s : pystr) : option (Z * pystr) :=
  match s with
  | a :: b :: c :: d :: r =>
    match hex_value a, hex_value b, hex_value c, hex_value d with
    | Some a, Some b, Some c, Some d => Some (((a * 16 + b) * 16 + c) * 16 + d, r)
    | _, _, _, _ => None
    end
  | _ => None
  end.

Definition is_high (c : Z) : bool := in_range 55296 56319 c.
Definition is_low (c : Z) : bool := in_range 56320 57343 c.
Definition join_surrogates (hi lo : Z) : Z := 65536 + (hi - 55296) * 1024 + (lo - 56320).

(** After [\u]: one code point, from two escapes for a surrogate pair. *)
Definition unicode_escape (s : pystr) : option (Z * pystr) :=
  match hex4 s with
  | None => None
  | Some (c, r) =>
    match r with
    | b :: u :: r' =>
      if is_high c && (b =? 92) && (u =? 117)
      then match hex4 r' with
           | Some (d, r'') => if is_low d then Some (join_surrogates c d, r'') else Some (c, r)
           | None => None
           end
      else Some (c, r)
    | _ => Some (c, r)
    end
  end.

Definition simple_escape (e : Z) : option Z :=
  if e =? 34 then Some 34 else if e =? 92 then Some 92 else if e =? 47 then Some 47
  else if e =? 98 then Some 8 else if e =? 102 then Some 12 else if e =? 110 then Some 10
  else if e =? 114 then Some 13 else if e =? 116 then Some 9 else None.

(** [scanstring], strict, after the opening quote. *)
Fixpoint scan_string (fuel : nat) (s : pystr) : result (pystr * pystr) :=
  match fuel with
  | O => Err JSONDecodeError
  | S fuel =>
    match s with
    | [] => Err JSONDecodeError
    | c :: s' =>
      if c =? 34 then Ok ([], s')
      else if c <? 32 then Err JSONDecodeError
      else if c =? 92 then
        match s' with
        | [] => Err JSONDecodeError
        | e :: s'' =>
          match (if e =? 117 then unicode_escape s''
                 else match simple_escape e with Some x => Some (x, s'') | None => None end) with
          | Some (x, rest) => '(t, r) ← scan_string fuel rest; Ok (x :: t, r)
          | None => Err JSONDecodeError
          end
        end
      else '(t, r) ← scan_string fuel s'; Ok (c :: t, r)
    end
  end.

(** * Numbers *)

Fixpoint span_digits (s : pystr) : pystr * pystr :=
  match s with
  | c :: s' => if is_digit c then let '(a, r) := span_digits s' in (c :: a, r) else ([], s)
  | [] => ([], [])
  end.

(** The integer part: no leading zeros. *)
Definition scan_int (s : pystr) : option (pystr * pystr) :=
  match s with
  | c :: s' => if c =? 48 then Some ([48], s')
               else if is_digit c then Some (span_digits s) else None
  | [] => None
  end.

(** An optional fraction, and an optional exponent. *)
Definition scan_fraction (s : pystr) : pystr * pystr :=
  match s with
  | c :: s' => if c =? 46 then match span_digits s' with ([], _) => ([], s) | (a, r) => (46 :: a, r) end
               else ([], s)
  | [] => ([], s)
  end.

Definition scan_exponent (s : pystr) : pystr * pystr :=
  match s with
  | c :: s' =>
    if (c =? 101) || (c =? 69)
    then let '(sign, s'') := match s' with
                             | d :: t => if (d =? 43) || (d =? 45) then ([d], t) else ([], s')
                             | [] => ([], s')
                             end in
         match span_digits s'' with ([], _) => ([], s) | (a, r) => (c :: sign ++ a, r) end
    else ([], s)
  | [] => ([], s)
  end.

Section loads.
Context `{FR : !FloatRead}.

(** [_match_number] *)
Definition scan_number (negative : bool) (s : pystr) : result (json * pystr) :=
  match scan_int s with
  | None => Err JSONDecodeError
  | Some (digits, r) =>
    let '(frac, r1) := scan_fraction r in
    let '(exp, r2) := scan_exponent r1 in
    match frac ++ exp with
    | [] => if MAX_STR_DIGITS <? zlen digits then Err ValueError
            else Ok (JInt (if negative then - digits_val digits else digits_val digits), r2)
    | tail => Ok (JFloat (float_of_text ((if negative then [45] else []) ++ digits ++ tail)), r2)
    end
  end.

(** * Values *)

(** A dictionary: the last value of a key, at its first place. *)
Fixpoint dict_set (k : pystr) (v : json) (d : list (pystr * json)) : list (pystr * json) :=
  match d with
  | [] => [(k, v)]
  | (k', v') :: d' => if bool_decide (k = k') then (k', v) :: d' else (k', v') :: dict_set k v d'
  end.
Definition dict_of (pairs : list (pystr * json)) : list (pystr * json) :=
  fold_left (λ d kv, dict_set kv.1 kv.2 d) pairs [].

Definition scan_word (word : pystr) (v : json) (s : pystr) : result (json * pystr) :=
  if startswith word s then Ok (v, drop (length word) s) else Err JSONDecodeError.

(** What starts with neither a quote nor a bracket. *)
Definition scan_atom (s : pystr) : result (json * pystr) :=
  match s with
  | [] => Err JSONDecodeError
  | c :: s' =>
    if c =? 110 then scan_word (py "null") JNull s
    else if c =? 116 then scan_word (py "true") (JBool true) s
    else if c =? 102 then scan_word (py "false") (JBool false) s
    else if c =? 78 then scan_word (py "NaN") (JFloat NaN) s
    else if c =? 73 then scan_word (py "Infinity") (JFloat PInf) s
    else if c =? 45 then
      if startswith (py "Infinity") s' then Ok (JFloat NInf, drop 8 s') else scan_number true s'
    else scan_number false s
  end.

(** [scan_once]; [scan_items] is inside an array at a value, [scan_members] inside an
    object after the quote of a key. *)
Fixpoint scan_value (fuel : nat) (s : pystr) {struct fuel} : result (json * pystr) :=
  match fuel with
  | O => Err JSONDecodeError
  | S fuel =>
    match s with
    | [] => Err JSONDecodeError
    | c :: s' =>
      if c =? 34 then '(t, r) ← scan_string fuel s'; Ok (JStr t, r)
      else if c =? 91 then
        match skip_ws s' with
        | d :: r => if d =? 93 then Ok (JList [], r)
                    else '(vs, r') ← scan_items fuel (d :: r); Ok (JList vs, r')
        | [] => Err JSONDecodeError
        end
      else if c =? 123 then
        match skip_ws s' with
        | d :: r => if d =? 125 then Ok (JObj [], r)
                    else if d =? 34 then '(kvs, r') ← scan_members fuel r; Ok (JObj (dict_of kvs), r')
                    else Err JSONDecodeError
        | [] => Err JSONDecodeError
        end
      else scan_atom s
    end
  end
with scan_items (fuel : nat) (s : pystr) {struct fuel} : result (list json * pystr) :=
  match fuel with
  | O => Err JSONDecodeError
  | S fuel =>
    '(v, r) ← scan_value fuel s;
    match skip_ws r with
    | c :: r' => if c =? 93 then Ok ([v], r')
                 else if c =? 44 then '(vs, r'') ← scan_items fuel (skip_ws r'); Ok (v :: vs, r'')
                 else Err JSONDecodeError
    | [] => Err JSONDecodeError
    end
  end
with scan_members (fuel : nat) (s : pystr) {struct fuel} : result (list (pystr * json) * pystr) :=
  match fuel with
  | O => Err JSONDecodeError
  | S fuel =>
    '(k, r) ← scan_string fuel s;
    match skip_ws r with
    | c :: r1 =>
      if negb (c =? 58) then Err JSONDecodeError else
      '(v, r2) ← scan_value fuel (skip_ws r1);
      match skip_ws r2 with
      | d :: r3 =>
        if d =? 125 then Ok ([(k, v)], r3)
        else if d =? 44 then
          match skip_ws r3 with
          | q :: r4 => if q =? 34 then '(kvs, r5) ← scan_members fuel r4; Ok ((k, v) :: kvs, r5)
                       else Err JSONDecodeError
          | [] => Err JSONDecodeError
          end
        else Err JSONDecodeError
      | [] => Err JSONDecodeError
      end
    | [] => Err JSONDecodeError
    end
  end.

(** [json.loads(text)]; nesting deeper than the interpreter allows is not reached by the
    texts of the program. *)
Definition loads_text (s : pystr) : result json :=
  if startswith [65279] s then Err JSONDecodeError else
  '(v, r) ← scan_value (2 * length s + 2) (skip_ws s);
  match skip_ws r with [] => Ok v | _ => Err JSONDecodeError end.

End loads.

(** * The round trip *)

Definition text_char (c : Z) : bool := valid_char c && negb (in_range 55296 57343 c).

Lemma hex_value_digit n : hex_value (hex_digit (n mod 16)) = Some (n mod 16).
Proof.
  unfold hex_value. pose proof (Z.mod_pos_bound n 16 ltac:(lia)) as Hb.
  destruct (hex_digit_char _ Hb) as [_ ->]. by rewrite (proj2 (Z.ltb_lt _ _)) by lia.
Qed.

Lemma hex4_hex_of c r : 0 ≤ c < 65536 → hex4 (hex_of 4 c ++ r) = Some (c, r).
Proof.
  intros Hc. change (hex_of 4 c ++ r) with (hex_digit (c / 16 / 16 / 16 mod 16) :: hex_digit (c / 16 / 16 mod 16)
    :: hex_digit (c / 16 mod 16) :: hex_digit (c mod 16) :: r).
  unfold hex4. rewrite !hex_value_digit. do 2 f_equal. Z.to_euclidean_division_equations. lia.
Qed.

Lemma unicode_escape_bmp c r : 0 ≤ c < 65536 → is_high c = false → unicode_escape (hex_of 4 c ++ r) = Some (c, r).
Proof.
  intros Hc Hh. unfold unicode_escape. rewrite hex4_hex_of by done. rewrite Hh. by destruct r as [|? [|? ?]].
Qed.

Lemma surrogates n : 0 ≤ n < 2 ^ 20 →
  Z.lor 55296 (Z.land (Z.shiftr n 10) 1023) = 55296 + n / 1024 ∧
  Z.lor 56320 (Z.land n 1023) = 56320 + n mod 1024.
Proof.
  intros Hn. change 1023 with (Z.ones 10). rewrite !Z.land_ones, Z.shiftr_div_pow2 by lia.
  change 55296 with (54 * 2 ^ 10). change 56320 with (55 * 2 ^ 10). change (2 ^ 10) with 1024.
  assert (H : 0 ≤ n / 1024 < 1024) by (Z.to_euclidean_division_equations; lia).
  rewrite (Z.mod_small (n / 1024)) by done. split; [by apply (lor_high 54 10)|].
  apply (lor_high 55 10); [done|]. by apply Z.mod_pos_bound.
Qed.

Lemma unicode_escape_pair n r : 0 ≤ n < 2 ^ 20 →
  unicode_escape (hex_of 4 (55296 + n / 1024) ++ 92 :: 117 :: hex_of 4 (56320 + n mod 1024) ++ r)
  = Some (65536 + n, r).
Proof.
  intros Hn. assert (Hq : 0 ≤ n / 1024 < 1024) by (Z.to_euclidean_division_equations; lia).
  pose proof (Z.mod_pos_bound n 1024 ltac:(lia)) as Hm. unfold unicode_escape. rewrite hex4_hex_of by lia.
  assert (E : is_high (55296 + n / 1024) = true) by (unfold is_high, in_range; rewrite andb_true_iff, !Z.leb_le; lia).
  rewrite E. cbn [Z.eqb andb Pos.eqb]. rewrite hex4_hex_of by lia.
  assert (E' : is_low (56320 + n mod 1024) = true) by (unfold is_low, in_range; rewrite andb_true_iff, !Z.leb_le; lia).
  rewrite E'. unfold join_surrogates. do 2 f_equal. pose proof (Z.div_mod n 1024 ltac:(lia)). lia.
Qed.

(** One escaped character is one step of the scanner. *)
Lemma scan_escape f x e s : e ≠ 117 → simple_escape e = Some x →
  scan_string (S f) (92 :: e :: s) = '(t, r) ← scan_string f s; Ok (x :: t, r).
Proof. intros He Hx. cbn [scan_string Z.eqb Z.ltb Z.compare Pos.compare Pos.compare_cont Pos.eqb].
  rewrite (proj2 (Z.eqb_neq _ _) He), Hx. done. Qed.

Lemma scan_unicode f x s r0 : unicode_escape s = Some (x, r0) →
  scan_string (S f) (92 :: 117 :: s) = '(t, r) ← scan_string f r0; Ok (x :: t, r).
Proof. intros Hx. cbn [scan_string Z.eqb Z.ltb Z.compare Pos.compare Pos.compare_cont Pos.eqb]. by rewrite Hx. Qed.

Lemma scan_plain f c s : c ≠ 34 → c ≠ 92 → 32 ≤ c →
  scan_string (S f) (c :: s) = '(t, r) ← scan_string f s; Ok (c :: t, r).
Proof.
  intros H1 H2 H3. cbn [scan_string].
  by rewrite (proj2 (Z.eqb_neq c 34) H1), (proj2 (Z.ltb_ge c 32) H3), (proj2 (Z.eqb_neq c 92) H2).
Qed.

Lemma escape_common_spec c : match escape_common c with
  | Some e => ∃ x, e = [92; x] ∧ x ≠ 117 ∧ simple_escape x = Some c
  | None => c ≠ 34 ∧ c ≠ 92
  end.
Proof.
  unfold escape_common.
  repeat match goal with |- context [?a =? ?b] => destruct (Z.eqb_spec a b) as [->|]; [by eexists|] end. done.
Qed.

Definition known_escape (esc : Z → pystr) : Prop := esc = escape_char_ascii ∨ esc = escape_char.

Lemma scan_char esc c : known_escape esc → text_char c = true → ∀ f s,
  scan_string (S f) (esc c ++ s) = '(t, r) ← scan_string f s; Ok (c :: t, r).
Proof.
  intros Hesc Hc f s. unfold text_char, valid_char, in_range in Hc.
  rewrite !andb_true_iff, negb_true_iff, andb_false_iff, !Z.leb_le, !Z.leb_gt in Hc.
  pose proof (escape_common_spec c) as Hs.
  assert (Hbmp : c < 65536 → scan_string (S f) (u_escape c ++ s) = '(t, r) ← scan_string f s; Ok (c :: t, r)).
  { intros Hb. unfold u_escape. apply scan_unicode, unicode_escape_bmp; [lia|].
    unfold is_high, in_range. rewrite andb_false_iff, !Z.leb_gt. lia. }
  destruct Hesc as [->| ->]; [unfold escape_char_ascii|unfold escape_char];
    destruct (escape_common c) as [e|]; try (destruct Hs as (x & -> & Hx & Ex); by apply scan_escape).
  - destruct (in_range 32 126 c) eqn:Ea; [|destruct (Z.ltb_spec c 65536)].
    + unfold in_range in Ea. rewrite andb_true_iff, !Z.leb_le in Ea. cbn [app]. apply scan_plain; [apply Hs|apply Hs|lia].
    + by apply Hbmp.
    + assert (Hn : 0 ≤ c - 65536 < 2 ^ 20) by lia. destruct (surrogates _ Hn) as [-> ->].
      unfold u_escape. cbn [app]. rewrite <-app_assoc. cbn [app].
      rewrite (scan_unicode _ _ _ _ (unicode_escape_pair _ s Hn)).
      by replace (65536 + (c - 65536)) with c by lia.
  - destruct (Z.ltb_spec c 32); [apply Hbmp; lia|]. cbn [app]. apply scan_plain; [apply Hs|apply Hs|lia].
Qed.

Lemma scan_quoted esc s : known_escape esc → forallb text_char s = true → ∀ f rest, (length s < f)%nat →
  scan_string f (flat_map esc s ++ 34 :: rest) = Ok (s, rest).
Proof.
  intros Hesc. induction s as [|c s IH]; intros Hs f rest Hf.
  - destruct f; [cbn in Hf; lia|]. done.
  - cbn in Hs. apply andb_true_iff in Hs as [Hc Hs]. destruct f as [|f]; [cbn in Hf; lia|]. cbn in Hf.
    cbn [flat_map]. rewrite <-app_assoc, (scan_char esc c Hesc Hc), IH by (done || lia). done.
Qed.

(** ** Integers *)

(** What may follow a number: it does not continue it. *)
Definition number_stop (rest : pystr) : bool :=
  match rest with c :: _ => negb (is_digit c || (c =? 46) || (c =? 101) || (c =? 69)) | [] => true end.

Lemma span_digits_app s rest : forallb is_digit s = true → number_stop rest = true →
  span_digits (s ++ rest) = (s, rest).
Proof.
  induction s as [|c s IH]; cbn.
  - intros _ Hr. destruct rest as [|c rest]; [done|]. cbn in Hr |- *. by destruct (is_digit c).
  - intros [Hc Hs]%andb_true_iff Hr. by rewrite Hc, IH.
Qed.

Lemma nat_digits_head fuel n acc : 0 < n < 2 ^ Z.of_nat fuel →
  ∃ d s, nat_digits fuel n acc = d :: s ∧ d ≠ 48.
Proof.
  revert n acc. induction fuel as [|f IH]; intros n acc Hn; [cbn in Hn; lia|].
  cbn [nat_digits]. destruct (Z.ltb_spec n 10).
  - exists (48 + n mod 10), acc. split; [done|]. rewrite Z.mod_small by lia. lia.
  - apply IH. rewrite Nat2Z.inj_succ, Z.pow_succ_r in Hn by lia.
    split; [apply Z.div_str_pos; lia|]. apply Z.div_lt_upper_bound; lia.
Qed.

Lemma scan_int_digits n rest : 0 ≤ n → number_stop rest = true →
  scan_int (str_of_nonneg n ++ rest) = Some (str_of_nonneg n, rest).
Proof.
  intros Hn Hr. destruct (Z.eq_dec n 0) as [->|]; [done|].
  destruct (nat_digits_head (S (Z.to_nat (Z.log2 n))) n []) as (d & s & E & Hd).
  { rewrite Nat2Z.inj_succ, Z2Nat.id by apply Z.log2_nonneg. split; [lia|]. apply Z.log2_spec. lia. }
  fold (str_of_nonneg n) in E. pose proof (str_of_nonneg_digits n Hn) as Hdig. rewrite E in Hdig |- *.
  unfold scan_int. cbn [app]. rewrite (proj2 (Z.eqb_neq _ _) Hd).
  assert (Hd' : is_digit d = true) by (cbn in Hdig; by apply andb_true_iff in Hdig as [? _]). rewrite Hd'.
  change (d :: s ++ rest) with ((d :: s) ++ rest). by rewrite span_digits_app.
Qed.

Definition digits_fit (n : Z) : Prop := zlen (str_of_nonneg (Z.abs n)) ≤ MAX_STR_DIGITS.

Section values.
Context `{FR : !FloatRead} `{FP : !FloatRepr}.

Lemma scan_number_digits negative n rest : 0 ≤ n → digits_fit n → number_stop rest = true →
  scan_number negative (str_of_nonneg n ++ rest) = Ok (JInt (if negative then - n else n), rest).
Proof.
  intros Hn Hf Hr. unfold scan_number. rewrite scan_int_digits by done.
  assert (E1 : scan_fraction rest = ([], rest) ∧ scan_exponent rest = ([], rest)).
  { destruct rest as [|c rest]; [done|]. unfold scan_fraction, scan_exponent. cbn in Hr.
    apply negb_true_iff in Hr. rewrite !orb_false_iff in Hr. destruct Hr as [[[_ H1] H2] H3].
    by rewrite H1, H2, H3. }
  destruct E1 as [-> ->]. cbn [app]. unfold digits_fit in Hf. rewrite Z.abs_eq in Hf by done.
  rewrite (proj2 (Z.ltb_ge _ _) Hf), digits_val_str by done. done.
Qed.

Lemma str_of_nonneg_nonempty n : 0 ≤ n → str_of_nonneg n ≠ [].
Proof.
  intros Hn E. pose proof (str_of_int_nonempty n) as H. unfold str_of_int in H.
  destruct (Z.ltb_spec n 0); [lia|done].
Qed.

Lemma scan_atom_int n rest : digits_fit n → number_stop rest = true →
  scan_atom (str_of_int n ++ rest) = Ok (JInt n, rest).
Proof.
  intros Hf Hr. unfold str_of_int. destruct (Z.ltb_spec n 0) as [Hn|Hn].
  - assert (Hf' : digits_fit (- n)) by (unfold digits_fit in *; by rewrite Z.abs_opp).
    pose proof (scan_number_digits true (- n) rest ltac:(lia) Hf' Hr) as H. rewrite Z.opp_involutive in H.
    cbn [app]. unfold scan_atom. cbn [Z.eqb Pos.eqb].
    pose proof (str_of_nonneg_digits (- n) ltac:(lia)) as Hd.
    pose proof (str_of_nonneg_nonempty (- n) ltac:(lia)) as Hne.
    destruct (str_of_nonneg (- n)) as [|c s] eqn:E; [done|]. cbn in Hd. apply andb_true_iff in Hd as [Hc _].
    assert (Hi : startswith (py "Infinity") ((c :: s) ++ rest) = false).
    { unfold is_digit, in_range in Hc. rewrite andb_true_iff, !Z.leb_le in Hc.
      change (startswith (py "Infinity") ((c :: s) ++ rest)) with ((73 =? c) && startswith (py "nfinity") (s ++ rest)).
      by rewrite (proj2 (Z.eqb_neq _ _)) by lia. }
    by rewrite Hi.
  - pose proof (scan_number_digits false n rest Hn Hf Hr) as H.
    pose proof (str_of_nonneg_digits n Hn) as Hd.
    pose proof (str_of_nonneg_nonempty n Hn) as Hne.
    destruct (str_of_nonneg n) as [|c s] eqn:E; [done|]. cbn in Hd. apply andb_true_iff in Hd as [Hc _].
    cbn [app] in *. unfold scan_atom. unfold is_digit, in_range in Hc. rewrite andb_true_iff, !Z.leb_le in Hc.
    by rewrite !(proj2 (Z.eqb_neq c _)) by lia.
Qed.

(** ** Values *)

(** The options under which [loads] reads back what [dumps] writes. *)
Record readable_options (o : dump_options) (item_ws key_ws : pystr) : Prop := {
  ro_escape : known_escape (dump_escape o);
  ro_item : dump_item_sep o = 44 :: item_ws;
  ro_item_ws : forallb is_ws item_ws = true;
  ro_key : dump_key_sep o = 58 :: key_ws;
  ro_key_ws : forallb is_ws key_ws = true;
  ro_sort : dump_sort_keys o = false;
}.

(** The documents: no floats, no lone surrogates, no repeated keys, no integer that
    exceeds the limit of [int()]. *)
Fixpoint plain (j : json) : Prop :=
  match j with
  | JNull | JBool _ => True
  | JInt n => digits_fit n
  | JStr s => forallb text_char s = true
  | JList l => (fix go l := match l with [] => True | x :: l' => plain x ∧ go l' end) l
  | JObj kvs => NoDup (map fst kvs) ∧
      (fix go (kvs : list (pystr * json)) := match kvs with
       | [] => True | (k, v) :: kvs' => forallb text_char k = true ∧ plain v ∧ go kvs' end) kvs
  | JFloat _ | JOther => False
  end.

Lemma skip_ws_ws w s : forallb is_ws w = true → skip_ws (w ++ s) = skip_ws s.
Proof. induction w as [|c w IH]; [done|]. cbn. intros [Hc Hw]%andb_true_iff. rewrite Hc. by apply IH. Qed.

(** Text that starts a value. *)
Definition starts_value (t : pystr) : Prop :=
  ∃ c t', t = c :: t' ∧ is_ws c = false ∧ c ≠ 93 ∧ c < 128.

Lemma skip_ws_value t s : starts_value t → skip_ws (t ++ s) = t ++ s.
Proof. intros (c & t' & -> & Hc & _). cbn. by rewrite Hc. Qed.

Lemma str_of_int_starts n : starts_value (str_of_int n).
Proof.
  destruct (str_of_int n) as [|c t] eqn:E; [by apply str_of_int_nonempty in E|]. exists c, t. split; [done|].
  pose proof (str_of_int_chars n) as H. rewrite E in H. cbn in H. apply andb_true_iff in H as [H _].
  unfold int_char, is_digit, in_range in H. rewrite orb_true_iff, andb_true_iff, !Z.leb_le, Z.eqb_eq in H.
  unfold is_ws. split; [by rewrite !(proj2 (Z.eqb_neq c _)) by lia|lia].
Qed.

Context (o : dump_options) (w1 w2 : pystr) (Ho : readable_options o w1 w2).

Lemma dumps_starts j t : plain j → dumps o j = Ok t → starts_value t.
Proof.
  intros Hj Ht. destruct j as [|[]|n|f|s|l|kvs|]; cbn in Ht; try done; minv; try (by eexists _, _).
  apply str_of_int_starts.
Qed.

Definition reads (j : json) : Prop := plain j → ∀ t, dumps o j = Ok t →
  ∀ f rest, (2 * length t ≤ f)%nat → number_stop rest = true → scan_value f (t ++ rest) = Ok (j, rest).

Lemma scan_items_reads l : Forall reads l → Forall plain l → ∀ ts, mapR (dumps o) l = Ok ts → l ≠ [] →
  ∀ f rest, (2 * length (join (dump_item_sep o) ts) + 1 ≤ f)%nat →
  scan_items f (join (dump_item_sep o) ts ++ 93 :: rest) = Ok (l, rest) ∧ starts_value (join (dump_item_sep o) ts).
Proof.
  induction l as [|x l IH]; intros Hr Hp ts Hts Hne; [done|]. cbn [mapR] in Hts. minv.
  apply Forall_cons in Hr as [Hx Hr]. apply Forall_cons in Hp as [Px Hp].
  match goal with H : dumps o x = Ok ?t |- _ => rename H into Ht, t into tx end.
  match goal with H : mapR _ l = Ok ?t |- _ => rename H into Hl, t into tl end.
  pose proof (dumps_starts _ _ Px Ht) as Hst. intros [|f] rest Hf; [lia|]. cbn [scan_items].
  destruct l as [|y l].
  - cbn in Hl. minv. cbn [join] in *. rewrite (Hx Px _ Ht) by (done || lia). cbn [mbind result_bind].
    split; [done|done].
  - destruct tl as [|t2 tl]; [cbn in Hl; by minv|].
    change (join (dump_item_sep o) (tx :: t2 :: tl)) with (tx ++ dump_item_sep o ++ join (dump_item_sep o) (t2 :: tl)) in *.
    destruct (IH Hr Hp _ Hl ltac:(done) f rest) as [IHs IHst].
    { pose proof (f_equal length (ro_item _ _ _ Ho)) as El. cbn [length] in El. rewrite !length_app in Hf. lia. }
    rewrite !length_app in Hf. rewrite (ro_item _ _ _ Ho) in IHs, IHst, Hf |- *. rewrite <-!app_assoc. cbn [app].
    rewrite (Hx Px _ Ht) by (done || (cbn [length] in Hf; lia)).
    cbn [mbind result_bind skip_ws]. change (is_ws 44) with false. cbn [Z.eqb Pos.eqb].
    rewrite skip_ws_ws by apply (ro_item_ws _ _ _ Ho). rewrite (skip_ws_value _ _ IHst), IHs.
    split; [done|]. destruct Hst as (c & t' & -> & Hc). by exists c, (t' ++ 44 :: w1 ++ join (44 :: w1) (t2 :: tl)).
Qed.

(** A member of an object, and what the encoder joins. *)
Definition member (m : pystr * pystr) : pystr := quote (dump_escape o) m.1 ++ dump_key_sep o ++ m.2.

Definition member_of (kv : pystr * json) (m : pystr * pystr) : Prop := m.1 = kv.1 ∧ dumps o kv.2 = Ok m.2.

Lemma dumps_members (kvs : list (pystr * json)) ms :
  (fix go kvs : result (list (pystr * pystr)) :=
     match kvs with
     | [] => Ok []
     | (k, v) :: kvs' => t ← dumps o v; ts ← go kvs'; Ok ((k, t) :: ts)
     end) kvs = Ok ms → Forall2 member_of kvs ms.
Proof.
  revert ms. induction kvs as [|[k v] kvs IH]; intros ms H; minv; constructor; [done|]. by apply IH.
Qed.

Lemma length_escaped esc s : known_escape esc → (length s ≤ length (flat_map esc s))%nat.
Proof.
  intros He. induction s as [|c s IH]; [done|]. cbn [flat_map]. rewrite length_app. cbn [length].
  assert (H : (1 ≤ length (esc c))%nat); [|lia].
  destruct He as [->| ->]; [unfold escape_char_ascii|unfold escape_char]; pose proof (escape_common_spec c) as Hs;
    destruct (escape_common c) as [e|]; try (destruct Hs as (x & -> & _); cbn; lia);
    repeat case_match; cbn; lia.
Qed.

Lemma scan_members_reads kvs ms : Forall2 member_of kvs ms → Forall (λ kv, reads kv.2) kvs →
  Forall (λ kv, forallb text_char kv.1 = true ∧ plain kv.2) kvs → kvs ≠ [] →
  ∃ body, join (dump_item_sep o) (map member ms) = 34 :: body ∧
  ∀ f rest, (2 * length body + 1 ≤ f)%nat → scan_members f (body ++ 125 :: rest) = Ok (kvs, rest).
Proof.
  induction 1 as [|[k v] [k' t] kvs ms [Ek Et] Hm IH]; intros Hr Hp Hne; [done|]. cbn [fst snd] in Ek, Et. subst k'.
  apply Forall_cons in Hr as [Hv Hr]. apply Forall_cons in Hp as [[Hk Pv] Hp]. cbn [fst snd] in *.
  pose proof (dumps_starts _ _ Pv Et) as Hst.
  assert (Hread : ∀ f tail, (2 * length t ≤ f)%nat → (length k < f)%nat → number_stop tail = true →
    scan_members (S f) (flat_map (dump_escape o) k ++ 34 :: dump_key_sep o ++ t ++ tail) =
    match skip_ws tail with
      | d :: r3 =>
        if d =? 125 then Ok ([(k, v)], r3)
        else if d =? 44 then
          match skip_ws r3 with
          | q :: r4 => if q =? 34 then '(kvs, r5) ← scan_members f r4; Ok ((k, v) :: kvs, r5)
                       else Err JSONDecodeError
          | [] => Err JSONDecodeError
          end
        else Err JSONDecodeError
      | [] => Err JSONDecodeError
      end).
  { intros f tail Hf Hf' Ht. cbn [scan_members]. rewrite (scan_quoted _ _ (ro_escape _ _ _ Ho) Hk) by done.
    cbn [mbind result_bind]. rewrite (ro_key _ _ _ Ho). cbn [app skip_ws]. change (is_ws 58) with false.
    cbn [Z.eqb Pos.eqb negb]. rewrite skip_ws_ws by apply (ro_key_ws _ _ _ Ho).
    rewrite (skip_ws_value _ _ Hst), (Hv Pv _ Et) by done. done. }
  pose proof (length_escaped (dump_escape o) k (ro_escape _ _ _ Ho)) as Hlen.
  pose proof (f_equal length (ro_item _ _ _ Ho)) as Li. pose proof (f_equal length (ro_key _ _ _ Ho)) as Lk.
  cbn [length] in Li, Lk.
  inversion Hm as [|kv m kvs' ms' Hkv Hms]; subst.
  - exists (flat_map (dump_escape o) k ++ 34 :: dump_key_sep o ++ t).
    split; [cbn [map join]; unfold member, quote; cbn [fst snd app]; by rewrite <-!app_assoc|].
    intros [|f] rest Hf; [lia|]. rewrite !length_app in Hf. cbn [length] in Hf. rewrite length_app in Hf.
    rewrite <-app_assoc. cbn [app]. rewrite <-!app_assoc.
    rewrite Hread by (done || lia). done.
  - destruct (IH Hr Hp ltac:(done)) as (body & Ebody & Hbody).
    exists (flat_map (dump_escape o) k ++ 34 :: dump_key_sep o ++ t ++ dump_item_sep o ++ 34 :: body).
    split.
    { cbn [map]. change (join (dump_item_sep o) (member (k, t) :: member m :: map member ms'))
        with (member (k, t) ++ dump_item_sep o ++ join (dump_item_sep o) (member m :: map member ms')).
      cbn [map] in Ebody. rewrite Ebody. unfold member, quote. cbn [fst snd app]. by rewrite <-!app_assoc. }
    intros [|f] rest Hf; [lia|]. rewrite !length_app in Hf. cbn [length] in Hf. rewrite !length_app in Hf.
    cbn [length] in Hf. rewrite <-app_assoc. cbn [app]. rewrite <-!app_assoc. cbn [app].
    assert (Ht : number_stop (dump_item_sep o ++ 34 :: body ++ 125 :: rest) = true) by (by rewrite (ro_item _ _ _ Ho)).
    rewrite Hread by (done || lia). rewrite (ro_item _ _ _ Ho). cbn [app skip_ws]. change (is_ws 44) with false.
    cbn [Z.eqb Pos.eqb]. rewrite skip_ws_ws by apply (ro_item_ws _ _ _ Ho). cbn [skip_ws]. change (is_ws 34) with false.
    cbn [Z.eqb Pos.eqb]. rewrite Hbody by lia. done.
Qed.

Lemma dict_set_fresh k v d : k ∉ map fst d → dict_set k v d = d ++ [(k, v)].
Proof.
  induction d as [|[k' v'] d IH]; [done|]. cbn [map fst dict_set]. intros [Hk Hd]%not_elem_of_cons.
  rewrite bool_decide_eq_false_2 by done. by rewrite IH.
Qed.

Lemma dict_of_distinct kvs : NoDup (map fst kvs) → dict_of kvs = kvs.
Proof.
  intros Hn. unfold dict_of. assert (H : ∀ d, NoDup (map fst (d ++ kvs)) →
    fold_left (λ d kv, dict_set kv.1 kv.2 d) kvs d = d ++ kvs); [|by apply (H [])].
  clear Hn. induction kvs as [|[k v] kvs IH]; intros d Hd; cbn [fold_left fst snd]; [by rewrite app_nil_r|].
  rewrite map_app in Hd. cbn [map fst] in Hd. pose proof Hd as Hd'.
  apply NoDup_app in Hd' as (_ & Hk & _).
  rewrite dict_set_fresh by (intros Hin; apply (Hk _ Hin); left).
  rewrite IH; [by rewrite <-app_assoc|]. by rewrite <-app_assoc, map_app.
Qed.

Lemma plain_list l : plain (JList l) → Forall plain l.
Proof. induction l as [|x l IH]; [constructor|]. intros [Hx Hl]. constructor; [done|by apply IH]. Qed.

Lemma plain_obj kvs : plain (JObj kvs) →
  NoDup (map fst kvs) ∧ Forall (λ kv, forallb text_char kv.1 = true ∧ plain kv.2) kvs.
Proof.
  intros [Hn H]. split; [done|]. clear Hn. induction kvs as [|[k v] kvs IH]; [constructor|].
  destruct H as (Hk & Hv & H). constructor; [done|by apply IH].
Qed.

Lemma scan_value_reads j : reads j.
Proof.
  induction j as [|b|n|f|s|l IH|kvs IH|] using json_rect'; intros Hj t Ht fuel rest Hf Hr; cbn in Ht; minv.
  - destruct fuel; [cbn in Hf; lia|]. done.
  - destruct fuel; [destruct b; minv; cbn in Hf; lia|]. destruct b; minv; done.
  - destruct fuel as [|fuel]. { destruct (str_of_int_starts n) as (c & u & E & _). rewrite E in Hf. cbn in Hf. lia. }
    rewrite <-(scan_atom_int n rest Hj Hr). destruct (str_of_int_starts n) as (c & u & E & _).
    pose proof (str_of_int_chars n) as Hc. rewrite E in Hc |- *. cbn in Hc. apply andb_true_iff in Hc as [Hc _].
    unfold int_char, is_digit, in_range in Hc. rewrite orb_true_iff, andb_true_iff, !Z.leb_le, Z.eqb_eq in Hc.
    cbn [app scan_value]. by rewrite !(proj2 (Z.eqb_neq c _)) by lia.
  - destruct Hj.
  - destruct fuel as [|fuel]; [cbn in Hf; lia|]. unfold quote in *. cbn [app] in *. rewrite <-app_assoc.
    cbn [scan_value Z.eqb Pos.eqb app]. rewrite length_cons, length_app in Hf. cbn [length] in Hf.
    pose proof (length_escaped _ s (ro_escape _ _ _ Ho)) as Hl.
    rewrite (scan_quoted _ _ (ro_escape _ _ _ Ho) Hj) by lia. done.
  - rewrite mapR_go in *. destruct fuel as [|fuel]; [cbn in Hf; lia|]. cbn [app] in *.
    rewrite length_cons, length_app in Hf. cbn [length] in Hf. rewrite <-app_assoc.
    cbn [scan_value Z.eqb Pos.eqb app].
    match goal with H : mapR _ l = Ok ?t |- _ => rename H into Hl, t into tl end.
    destruct l as [|y l]; [cbn in Hl; minv; done|].
    destruct (scan_items_reads (y :: l) IH (plain_list _ Hj) _ Hl ltac:(done) fuel rest ltac:(lia)) as [Hs Hst].
    rewrite (skip_ws_value _ _ Hst). destruct Hst as (c & u & E & Hc & H93 & _). rewrite E in Hs |- *. cbn [app] in *.
    rewrite (proj2 (Z.eqb_neq c 93) H93), Hs. done.
  - destruct (plain_obj _ Hj) as [Hn Hp]. rewrite (ro_sort _ _ _ Ho) in *. destruct fuel as [|fuel]; [cbn in Hf; lia|].
    match goal with H : _ = Ok ?x |- _ => apply dumps_members in H as Hm; clear H; rename x into ms end.
    change (map (λ m, 34 :: (flat_map (dump_escape o) m.1 ++ [34]) ++ dump_key_sep o ++ m.2) ms) with (map member ms) in *.
    cbn [app] in *. rewrite length_cons, length_app in Hf. cbn [length] in Hf. rewrite <-app_assoc.
    cbn [scan_value Z.eqb Pos.eqb app].
    destruct kvs as [|kv kvs]; [inversion Hm; subst; done|].
    destruct (scan_members_reads (kv :: kvs) ms Hm IH Hp ltac:(done)) as (body & E & Hb).
    rewrite E in Hf |- *. cbn [length] in Hf. cbn [app skip_ws]. change (is_ws 34) with false. cbn [Z.eqb Pos.eqb].
    rewrite Hb by lia. cbn [mbind result_bind]. by rewrite dict_of_distinct.
Qed.

(** [json.loads(json.dumps(j)) == j] *)
Lemma loads_dumps j t : plain j → dumps o j = Ok t → loads_text t = Ok j.
Proof.
  intros Hj Ht. pose proof (dumps_starts _ _ Hj Ht) as Hst. unfold loads_text.
  assert (Hb : startswith [65279] t = false).
  { destruct Hst as (c & t' & -> & _ & _ & Hc). cbn [startswith]. by rewrite (proj2 (Z.eqb_neq _ _)) by lia. }
  rewrite Hb. pose proof (skip_ws_value t [] Hst) as Hw. rewrite app_nil_r in Hw. rewrite Hw.
  pose proof (scan_value_reads j Hj t Ht (2 * length t + 2)%nat [] ltac:(lia) eq_refl) as H.
  rewrite app_nil_r in H. by rewrite H.
Qed.

End values.

(** * Bytes *)

(** One character: a lead byte and its continuation bytes, in the shortest form; lone
    surrogates pass, as [errors="surrogatepass"] has it. *)
Definition decode_as (c : Z) (used rest : list Z) : option (Z * list Z) :=
  if valid_char c && bool_decide (utf8_arith c = used) then Some (c, rest) else None.

Definition decode_char (bytes : list Z) : option (Z * list Z) :=
  match bytes with
  | [] => None
  | a :: r =>
    if a <? 128 then decode_as a [a] r
    else if a <? 224 then
      match r with b :: r => decode_as ((a - 192) * 64 + (b - 128)) [a; b] r | _ => None end
    else if a <? 240 then
      match r with
      | b :: c :: r => decode_as (((a - 224) * 64 + (b - 128)) * 64 + (c - 128)) [a; b; c] r
      | _ => None
      end
    else
      match r with
      | b :: c :: d :: r =>
          decode_as ((((a - 240) * 64 + (b - 128)) * 64 + (c - 128)) * 64 + (d - 128)) [a; b; c; d] r
      | _ => None
      end
  end.

Fixpoint decode_utf8 (fuel : nat) (bytes : list Z) : option pystr :=
  match bytes, fuel with
  | [], _ => Some []
  | _, O => None
  | _, S fuel => match decode_char bytes with
                 | Some (c, r) => match decode_utf8 fuel r with Some s => Some (c :: s) | None => None end
                 | None => None
                 end
  end.

Lemma decode_char_utf8 c r : valid_char c = true → decode_char (utf8_arith c ++ r) = Some (c, r).
Proof.
  intros Hc. assert (H : ∀ x used, x = c → used = utf8_arith c → decode_as x used r = Some (c, r)).
  { intros x used -> ->. unfold decode_as. by rewrite Hc, bool_decide_eq_true_2. }
  unfold valid_char, in_range in Hc. rewrite andb_true_iff, !Z.leb_le in Hc.
  assert (Hu : utf8_arith c = utf8_arith c) by done. unfold utf8_arith at 1 in Hu. unfold utf8_arith at 1.
  destruct (Z.ltb_spec c 128); [|destruct (Z.ltb_spec c 2048); [|destruct (Z.ltb_spec c 65536)]];
    cbn [app]; unfold decode_char.
  - rewrite (proj2 (Z.ltb_lt _ _)) by lia. by apply H.
  - rewrite (proj2 (Z.ltb_ge _ 128)), (proj2 (Z.ltb_lt _ 224)) by (Z.to_euclidean_division_equations; lia).
    apply H; [|done]. Z.to_euclidean_division_equations; lia.
  - rewrite (proj2 (Z.ltb_ge _ 128)), (proj2 (Z.ltb_ge _ 224)), (proj2 (Z.ltb_lt _ 240))
      by (Z.to_euclidean_division_equations; lia).
    apply H; [|done]. Z.to_euclidean_division_equations; lia.
  - rewrite (proj2 (Z.ltb_ge _ 128)), (proj2 (Z.ltb_ge _ 224)), (proj2 (Z.ltb_ge _ 240))
      by (Z.to_euclidean_division_equations; lia).
    apply H; [|done]. Z.to_euclidean_division_equations; lia.
Qed.

Lemma utf8_arith_nonempty c : utf8_arith c ≠ [].
Proof. unfold utf8_arith. by repeat case_match. Qed.

Lemma decode_encode_utf8 s : ∀ b fuel, forallb valid_char s = true → encode_utf8 s = Ok b →
  (length b ≤ fuel)%nat → decode_utf8 fuel b = Some s.
Proof.
  induction s as [|c s IH]; intros b fuel Hs Hb Hf; unfold encode_utf8 in Hb; cbn [mapR] in Hb; minv.
  - by destruct fuel.
  - cbn [forallb] in Hs. apply andb_true_iff in Hs as [Hc Hs].
    match goal with H : utf8_char c = Ok ?x |- _ => apply (utf8_char_arith c x Hc) in H as -> end.
    match goal with H : mapR utf8_char s = Ok ?x |- _ => rename H into Hm, x into bs end.
    cbn [concat] in *. rewrite length_app in Hf. pose proof (utf8_arith_nonempty c) as Hne.
    assert (Hd := decode_char_utf8 c (concat bs) Hc).
    destruct (utf8_arith c) as [|b0 bs0] eqn:E; [done|]. cbn [length] in Hf. destruct fuel as [|fuel]; [lia|].
    cbn [app decode_utf8] in *. rewrite Hd, (IH (concat bs) fuel Hs); [done| |lia].
    unfold encode_utf8. by rewrite Hm.
Qed.

Lemma utf8_char_text c : text_char c = true → utf8_char c = Ok (utf8_arith c).
Proof.
  intros Hc. unfold text_char in Hc. apply andb_true_iff in Hc as [Hv Hs%negb_true_iff].
  assert (H : ∃ b, utf8_char c = Ok b).
  { unfold utf8_char. rewrite Hs. repeat case_match; by eexists. }
  destruct H as [b Hb]. rewrite Hb. f_equal. by apply utf8_char_arith.
Qed.

Lemma encode_decode_utf8 fuel : ∀ b s, decode_utf8 fuel b = Some s → forallb text_char s = true →
  encode_utf8 s = Ok b.
Proof.
  induction fuel as [|fuel IH]; intros b s Hd Hs; destruct b as [|b0 b]; cbn [decode_utf8] in Hd;
    try (by injection Hd as <-); [done|].
  destruct (decode_char (b0 :: b)) as [[c r]|] eqn:E; [|done].
  destruct (decode_utf8 fuel r) as [s'|] eqn:Er; [|done]. injection Hd as <-.
  cbn [forallb] in Hs. apply andb_true_iff in Hs as [Hc Hs]. pose proof (IH _ _ Er Hs) as He.
  unfold encode_utf8 in He |- *. cbn [mapR]. rewrite (utf8_char_text c Hc). apply result_bind_ok in He as (bs & Hbs & [= Hr]).
  rewrite Hbs. cbn [mbind result_bind concat]. f_equal. rewrite Hr. symmetry.
  assert (Hused : ∀ x used rest, decode_as x used rest = Some (c, r) → used ++ rest = utf8_arith c ++ r).
  { intros x used rest. unfold decode_as. destruct (_ && _) eqn:Ev; [|done]. intros [= <- <-].
    apply andb_true_iff in Ev as [_ <-%bool_decide_eq_true]. done. }
  unfold decode_char in E. repeat case_match; simplify_eq; by apply Hused in E.
Qed.

(** UTF-8, with or without a byte order mark; the other encodings that [json.loads]
    detects do not occur. *)
Definition loads_bytes `{FloatRead} (b : list Z) : result json :=
  let body := if startswith [239; 187; 191] b then drop 3 b else b in
  match decode_utf8 (length body) body with
  | Some s => loads_text s
  | None => Err (LibraryError "UnicodeDecodeError")
  end.

(** The module as an instance of the interface that the program's parts use. *)
#[export] Instance python_json `{FloatRead} : JsonLoads := {| json_loads := loads_bytes; json_loads_text := loads_text |}.

(** ** Bytes read back *)

Section bytes.
Context `{FR : !FloatRead} `{FP : !FloatRepr} (o : dump_options) (w1 w2 : pystr) (Ho : readable_options o w1 w2).

Lemma known_escape_valid esc c : known_escape esc → valid_char c = true → forallb valid_char (esc c) = true.
Proof. intros [->| ->] Hc; [apply escape_char_ascii_valid|by apply escape_char_valid]. Qed.

Lemma text_valid s : forallb text_char s = true → forallb valid_char s = true.
Proof.
  rewrite !forallb_forall. intros H c Hc. apply H in Hc. unfold text_char in Hc. by apply andb_true_iff in Hc as [? _].
Qed.

Lemma escape_is_ascii c : forallb is_ascii (escape_char_ascii c) = true.
Proof.
  assert (Hh : ∀ w n, forallb is_ascii (hex_of w n) = true).
  { intros w n. apply forallb_forall. intros x Hx. pose proof (proj1 (Forall_forall _ _) (hex_of_ascii w n) x
      (proj2 (list_elem_of_In _ _) Hx)) as H1. pose proof (proj1 (forallb_forall _ _) (hex_of_chars w n) x Hx) as H2.
    unfold hex_char, is_digit, in_range in H2. rewrite orb_true_iff, !andb_true_iff, !Z.leb_le in H2.
    unfold is_ascii. rewrite andb_true_iff, !Z.leb_le. lia. }
  unfold escape_char_ascii. destruct (escape_common c) as [e|] eqn:E.
  { unfold escape_common in E. by repeat case_match; simplify_eq. }
  destruct (in_range 32 126 c) eqn:Er.
  - cbn [forallb]. rewrite andb_true_r. unfold in_range in Er. unfold is_ascii.
    rewrite andb_true_iff, !Z.leb_le in Er |- *. lia.
  - destruct (c <? 65536); unfold u_escape; cbn [app forallb]; rewrite ?forallb_app; cbn [forallb]; by rewrite !Hh.
Qed.

Lemma chars_in (p q : Z → bool) (l : pystr) :
  (∀ c, q c = true → p c = true) → forallb q l = true → forallb p l = true.
Proof. intros H. rewrite !forallb_forall. auto. Qed.

(** Whatever holds of ASCII characters and of escaped ones holds of the text. *)
Lemma dumps_chars (p : Z → bool) : (∀ c, is_ascii c = true → p c = true) →
  (∀ c, text_char c = true → forallb p (dump_escape o c) = true) →
  ∀ j t, plain j → dumps o j = Ok t → forallb p t = true.
Proof.
  intros Hascii Hesc.
  assert (Happ : ∀ a b, forallb p a = true → forallb p b = true → forallb p (a ++ b) = true)
    by (intros a b Ha Hb; by rewrite forallb_app, Ha, Hb).
  assert (Hws : ∀ c w, is_ascii c = true → forallb is_ws w = true → forallb p (c :: w) = true).
  { intros c w Hc Hw. cbn [forallb]. rewrite Hascii by done. cbn [andb]. apply (chars_in p is_ws); [|done].
    intros x Hx. apply Hascii. unfold is_ws in Hx. rewrite !orb_true_iff, !Z.eqb_eq in Hx.
    unfold is_ascii. rewrite andb_true_iff, !Z.leb_le. lia. }
  assert (Hsep : forallb p (dump_item_sep o) = true)
    by (rewrite (ro_item _ _ _ Ho); apply Hws; [done|apply (ro_item_ws _ _ _ Ho)]).
  assert (Hkey : forallb p (dump_key_sep o) = true)
    by (rewrite (ro_key _ _ _ Ho); apply Hws; [done|apply (ro_key_ws _ _ _ Ho)]).
  assert (Hq : ∀ s, forallb text_char s = true → forallb p (quote (dump_escape o) s) = true).
  { intros s Hs. unfold quote. apply Happ; [cbn; by rewrite Hascii|]. apply Happ; [|cbn; by rewrite Hascii].
    induction s as [|c s IH]; [done|]. cbn [flat_map forallb] in *. apply andb_true_iff in Hs as [Hc Hs].
    apply Happ; [by apply Hesc|by apply IH]. }
  assert (Hjoin : ∀ l, Forall (λ t, forallb p t = true) l → forallb p (join (dump_item_sep o) l) = true).
  { intros l. induction 1 as [|x l Hx Hl IH]; [done|]. cbn [join]. destruct l; [done|]. apply Happ; [done|]. by apply Happ. }
  assert (Hwrap : ∀ a b s, is_ascii a = true → is_ascii b = true → forallb p s = true → forallb p (a :: s ++ [b]) = true).
  { intros a b s Ha Hb Hs. cbn [forallb]. rewrite Hascii by done. cbn [andb]. apply Happ; [done|]. cbn. by rewrite Hascii. }
  induction j as [|b|n|f|s|l IH|kvs IH|] using json_rect'; intros t Hj Ht; cbn [dumps] in Ht; minv.
  - apply (chars_in p is_ascii); done.
  - destruct b; minv; apply (chars_in p is_ascii); done.
  - apply (chars_in p int_char); [|apply str_of_int_chars]. intros c Hc. apply Hascii. revert Hc.
    unfold int_char, is_digit, in_range, is_ascii. rewrite orb_true_iff, !andb_true_iff, !Z.leb_le, Z.eqb_eq. lia.
  - destruct Hj.
  - by apply Hq.
  - rewrite mapR_go in *. match goal with H : mapR _ l = Ok ?x |- _ => rename H into Hl, x into ts end.
    apply plain_list in Hj. apply (Hwrap 91 93); [done..|]. apply Hjoin. apply mapR_ok in Hl.
    induction Hl as [|x t l ts Hx Hl IHl]; constructor; apply Forall_cons in IH as [? IH]; apply Forall_cons in Hj as [? Hj]; auto.
  - destruct (plain_obj _ Hj) as [_ Hp]. rewrite (ro_sort _ _ _ Ho) in *.
    match goal with H : _ = Ok ?x |- _ => apply (dumps_members o) in H as Hm; clear H; rename x into ms end.
    change (forallb p (123 :: join (dump_item_sep o) (map (member o) ms) ++ [125]) = true).
    apply Hwrap; [done..|]. apply Hjoin. clear Hj.
    induction Hm as [|[k v] [k' t] kvs ms [Ek Et] Hm IHm]; constructor; apply Forall_cons in IH as [IHv IH];
      apply Forall_cons in Hp as [[Hk Pv] Hp]; [|auto]. cbn [fst snd] in *. subst k'.
    apply Happ; [by apply Hq|]. apply Happ; [done|]. by apply IHv.
Qed.

Lemma dumps_valid j t : plain j → dumps o j = Ok t → forallb valid_char t = true.
Proof.
  apply dumps_chars.
  - intros c. unfold is_ascii, valid_char, in_range. rewrite !andb_true_iff, !Z.leb_le. lia.
  - intros c Hc. apply known_escape_valid; [apply (ro_escape _ _ _ Ho)|]. unfold text_char in Hc.
    by apply andb_true_iff in Hc as [? _].
Qed.

(** A plain document has a text. *)
Lemma dumps_total j : plain j → ∃ t, dumps o j = Ok t.
Proof.
  induction j as [|b|n|f|s|l IH|kvs IH|] using json_rect'; intros Hj; cbn [dumps].
  - by eexists.
  - destruct b; by eexists.
  - by eexists.
  - destruct Hj.
  - by eexists.
  - rewrite mapR_go. destruct (mapR_total (dumps o) l) as [ts Hts]; [|rewrite Hts; by eexists].
    intros x Hx. apply plain_list in Hj. rewrite Forall_forall in IH, Hj. auto.
  - destruct (plain_obj _ Hj) as [_ Hp].
    assert (H : ∃ ms, (fix go kvs : result (list (pystr * pystr)) :=
     match kvs with
     | [] => Ok []
     | (k, v) :: kvs' => t ← dumps o v; ts ← go kvs'; Ok ((k, t) :: ts)
     end) kvs = Ok ms).
    { clear Hj. induction kvs as [|[k v] kvs IHk]; [by exists []|]. apply Forall_cons in IH as [Hv IH].
      apply Forall_cons in Hp as [[_ Pv] Hp]. destruct (Hv Pv) as [t Et]. destruct (IHk IH Hp) as [ms Ems].
      exists ((k, t) :: ms). cbn in Et. rewrite Et. cbn [mbind result_bind]. by rewrite Ems. }
    destruct H as [ms ->]. by eexists.
  - destruct Hj.
Qed.

(** [json.loads(json.dumps(j).encode()) == j] *)
Lemma loads_bytes_dumps j t b : plain j → dumps o j = Ok t → encode_utf8 t = Ok b → loads_bytes b = Ok j.
Proof.
  intros Hj Ht Hb. pose proof (dumps_starts o j t Hj Ht) as Hst.
  assert (Hbom : startswith [239; 187; 191] b = false).
  { destruct Hst as (c & t' & -> & _ & _ & Hc). unfold encode_utf8 in Hb. cbn [mapR] in Hb. minv.
    match goal with H : utf8_char c = Ok _ |- _ => unfold utf8_char in H;
      rewrite (proj2 (Z.ltb_lt _ _) Hc) in H; injection H as <- end.
    cbn [concat app startswith]. by rewrite (proj2 (Z.eqb_neq _ _)) by lia. }
  unfold loads_bytes. rewrite Hbom, (decode_encode_utf8 t b (length b) (dumps_valid j t Hj Ht) Hb) by lia.
  exact (loads_dumps o w1 w2 Ho j t Hj Ht).
Qed.

(** With [ensure_ascii] the text is its own encoding. *)
Lemma dumps_bytes j : dump_escape o = escape_char_ascii → plain j →
  ∃ t, dumps o j = Ok t ∧ encode_utf8 t = Ok t.
Proof.
  intros He Hj. destruct (dumps_total j Hj) as [t Ht]. exists t. split; [done|]. apply encode_utf8_ascii.
  apply Forall_forall. intros c Hc.
  assert (H : forallb is_ascii t = true).
  { apply (dumps_chars is_ascii) with (j := j); [done| |done|done]. intros x Hx. rewrite He. apply escape_is_ascii. }
  pose proof (forallb_elem _ _ _ H Hc) as Ha. unfold is_ascii in Ha. rewrite andb_true_iff, !Z.leb_le in Ha. lia.
Qed.

End bytes.
