(* ===== verification/Base64.v ===== *)
(** base64 (RFC 4648) as CPython encodes and decodes it, with the round trip.  Bytes
    are numbers from 0 to 255. *)

From S2P Require Import Prelude PyStr Json Canonical Calendar Parsing.

(** * base64 (RFC 4648), as CPython decodes it *)

(** [b64encode] and [urlsafe_b64encode] differ in the last two letters. *)
Inductive alphabet := Standard | UrlSafe.

Definition b64_char (al : alphabet) (v : Z) : Z :=
  if v <? 26 then 65 + v else if v <? 52 then 71 + v else if v <? 62 then v - 4
  else match al with
       | Standard => if v =? 62 then 43 else 47
       | UrlSafe => if v =? 62 then 45 else 95
       end.

(** [urlsafe_b64decode] translates [-] and [_] first; [+] and [/] still decode. *)
Definition b64_value (al : alphabet) (c : Z) : option Z :=
  if in_range 65 90 c then Some (c - 65)
  else if in_range 97 122 c then Some (c - 71)
  else if is_digit c then Some (c + 4)
  else if c =? 43 then Some 62
  else if c =? 47 then Some 63
  else match al with
       | Standard => None
       | UrlSafe => if c =? 45 then Some 62 else if c =? 95 then Some 63 else None
       end.

(** The letters, without the padding. *)
Fixpoint b64 (al : alphabet) (raw : list Z) : pystr :=
  match raw with
  | [] => []
  | [a] => [b64_char al (a / 4); b64_char al (a mod 4 * 16)]
  | [a; b] => [b64_char al (a / 4); b64_char al (a mod 4 * 16 + b / 16); b64_char al (b mod 16 * 4)]
  | a :: b :: c :: raw' =>
      b64_char al (a / 4) :: b64_char al (a mod 4 * 16 + b / 16)
      :: b64_char al (b mod 16 * 4 + c / 64) :: b64_char al (c mod 64) :: b64 al raw'
  end.

(** The decoder: characters outside the alphabet are skipped, padding ends the data
    once a group can be complete; a group left open is an error ([binascii.Error]
    is a ValueError). [quad] counts the characters of the group, [left] keeps the
    bits of the last one. *)
Fixpoint a2b (al : alphabet) (quad : nat) (pads : nat) (left : Z) (s : pystr) : result (list Z) :=
  match s with
  | [] => match quad with O => Ok [] | _ => Err ValueError end
  | c :: s' =>
    if c =? 61 then
      if (2 <=? quad)%nat then
        if (4 <=? quad + S pads)%nat then Ok [] else a2b al quad (S pads) left s'
      else a2b al quad pads left s'
    else match b64_value al c with
         | None => a2b al quad pads left s'
         | Some v =>
           match quad with
           | O => a2b al 1%nat O v s'
           | 1%nat => rest ← a2b al 2%nat O (v mod 16) s'; Ok (left * 4 + v / 16 :: rest)
           | 2%nat => rest ← a2b al 3%nat O (v mod 4) s'; Ok (left * 16 + v / 4 :: rest)
           | _ => rest ← a2b al O O 0 s'; Ok (left * 64 + v :: rest)
           end
         end
  end.

Definition is_byte (b : Z) : bool := in_range 0 255 b.

(** * base64 round trip *)

Definition b64_letter (al : alphabet) (v : Z) : bool :=
  bool_decide (b64_value al (b64_char al v) = Some v) && negb (b64_char al v =? 61)
  && is_ascii (b64_char al v) && negb (b64_char al v =? 36).

Lemma b64_letters al : forallb (b64_letter al) (map Z.of_nat (seq 0 64)) = true.
Proof. by destruct al; vm_compute. Qed.

Lemma b64_letter_ok al v : 0 ≤ v < 64 → b64_value al (b64_char al v) = Some v ∧ b64_char al v ≠ 61 ∧
  is_ascii (b64_char al v) = true ∧ b64_char al v ≠ 36.
Proof.
  intros Hv. assert (Hin : v ∈ map Z.of_nat (seq 0 64)).
  { apply list_elem_of_fmap. exists (Z.to_nat v). split; [lia|]. apply elem_of_seq. lia. }
  pose proof (forallb_elem _ _ _ (b64_letters al) Hin) as H. unfold b64_letter in H.
  rewrite !andb_true_iff, !negb_true_iff, !Z.eqb_neq in H. destruct H as [[[H%bool_decide_eq_true ?] ?] ?]. done.
Qed.

(** One letter of the text, at each position of its group. *)
Lemma a2b_letter al quad pads left v s : 0 ≤ v < 64 →
  a2b al quad pads left (b64_char al v :: s) = match quad with
    | O => a2b al 1 O v s
    | 1%nat => rest ← a2b al 2 O (v mod 16) s; Ok (left * 4 + v / 16 :: rest)
    | 2%nat => rest ← a2b al 3 O (v mod 4) s; Ok (left * 16 + v / 4 :: rest)
    | _ => rest ← a2b al O O 0 s; Ok (left * 64 + v :: rest)
    end.
Proof.
  intros Hv. destruct (b64_letter_ok al v Hv) as (E & Hne & _). cbn [a2b].
  by rewrite (proj2 (Z.eqb_neq _ _) Hne), E.
Qed.

(** Induction three bytes at a time. *)
Lemma triples_ind (P : list Z → Prop) : P [] → (∀ a, P [a]) → (∀ a b, P [a; b]) →
  (∀ a b c l, P l → P (a :: b :: c :: l)) → ∀ l, P l.
Proof.
  intros H0 H1 H2 H3. fix IH 1. intros [|a [|b [|c l]]]; [done..|]. apply H3, IH.
Qed.

Lemma byte_range b : is_byte b = true → 0 ≤ b < 256.
Proof. unfold is_byte, in_range. rewrite andb_true_iff, !Z.leb_le. lia. Qed.

Lemma bytes_cons b l : forallb is_byte (b :: l) = true → 0 ≤ b < 256 ∧ forallb is_byte l = true.
Proof. cbn. rewrite andb_true_iff. intros [?%byte_range ?]. done. Qed.

Ltac byte_split :=
  repeat match goal with
  | H : forallb is_byte (_ :: _) = true |- _ => apply bytes_cons in H as [? H]
  end.

Lemma mod_step n k : 0 < n → (1 * n + k) mod n = k mod n.
Proof. intros Hn. rewrite Z.add_comm. apply Z.mod_add. lia. Qed.

Lemma zlen_b64 al raw : zlen (b64 al raw) mod 4 = (if zlen raw mod 3 =? 0 then 0 else if zlen raw mod 3 =? 1 then 2 else 3).
Proof.
  induction raw as [| | |a b c raw IH] using triples_ind; [done..|].
  assert (E1 : zlen (b64 al (a :: b :: c :: raw)) = 1 * 4 + zlen (b64 al raw)) by (cbn [b64]; unfold zlen; cbn [length]; lia).
  assert (E2 : zlen (a :: b :: c :: raw) = 1 * 3 + zlen raw) by (unfold zlen; cbn [length]; lia).
  by rewrite E1, E2, !mod_step by lia.
Qed.

(** Padding completes the group that is open. *)
Definition pads_of (raw : list Z) : nat :=
  if (zlen raw mod 3 =? 0)%Z then O else if (zlen raw mod 3 =? 1)%Z then 2%nat else 1%nat.

Lemma pads_of_b64 al raw : Z.to_nat ((- zlen (b64 al raw)) mod 4) = pads_of raw.
Proof.
  unfold pads_of. pose proof (zlen_b64 al raw) as H. revert H. generalize (zlen (b64 al raw)) as n. intros n.
  destruct (zlen raw mod 3 =? 0); [|destruct (zlen raw mod 3 =? 1)]; intros H.
  - by rewrite Z.mod_opp_l_z.
  - by rewrite Z.mod_opp_l_nz, H by lia.
  - by rewrite Z.mod_opp_l_nz, H by lia.
Qed.

Ltac divmod := Z.to_euclidean_division_equations; lia.

Lemma a2b_b64 al raw : forallb is_byte raw = true → a2b al O O 0 (b64 al raw ++ repeat 61 (pads_of raw)) = Ok raw.
Proof.
  induction raw as [|a|a b|a b c raw IH] using triples_ind; intros H; byte_split.
  - done.
  - change (pads_of [a]) with 2%nat. cbn [b64 app]. rewrite !a2b_letter by divmod.
    cbn -[Z.mul Z.add Z.div Z.modulo]. do 2 f_equal. divmod.
  - change (pads_of [a; b]) with 1%nat. cbn [b64 app]. rewrite !a2b_letter by divmod.
    cbn -[Z.mul Z.add Z.div Z.modulo]. do 2 f_equal; [divmod|]. f_equal. divmod.
  - assert (E2 : zlen (a :: b :: c :: raw) = 1 * 3 + zlen raw) by (unfold zlen; cbn [length]; lia).
    unfold pads_of in IH |- *. rewrite E2, mod_step by lia. cbn [b64 app].
    rewrite !a2b_letter by divmod. rewrite (IH H). cbn -[Z.mul Z.add Z.div Z.modulo]. do 2 f_equal; [divmod|]. f_equal; [divmod|]. f_equal. divmod.
Qed.

(** The text holds letters of the alphabet only. *)
Definition b64_text_char (c : Z) : bool := is_ascii c && negb (c =? 36).

Lemma b64_letter_text al v : 0 ≤ v < 64 → b64_text_char (b64_char al v) = true.
Proof.
  intros (_ & _ & Ha & Hd)%(b64_letter_ok al). unfold b64_text_char. by rewrite Ha, (proj2 (Z.eqb_neq _ _) Hd).
Qed.

Lemma b64_text al raw : forallb is_byte raw = true → forallb b64_text_char (b64 al raw) = true.
Proof.
  induction raw as [|a|a b|a b c raw IH] using triples_ind; intros H; byte_split; cbn [b64 forallb];
    rewrite ?b64_letter_text by divmod; [done..|]. by apply IH.
Qed.


(** [b64encode(raw).decode()] and [b64decode(text)] *)
Definition b64encode (raw : list Z) : pystr := b64 Standard raw ++ repeat 61 (pads_of raw).
Definition b64decode (text : pystr) : result (list Z) :=
  if forallb is_ascii text then a2b Standard O O 0 text else Err ValueError.

Lemma b64decode_encode raw : forallb is_byte raw = true → b64decode (b64encode raw) = Ok raw.
Proof.
  intros H. unfold b64decode, b64encode. rewrite a2b_b64 by done. rewrite forallb_app.
  assert (Ha : forallb is_ascii (b64 Standard raw) = true).
  { pose proof (b64_text Standard raw H) as Ht. rewrite forallb_forall in Ht |- *. intros x Hx. apply Ht in Hx.
    by apply andb_true_iff in Hx as [? _]. }
  assert (Hp : forallb is_ascii (repeat 61 (pads_of raw)) = true) by (by induction (pads_of raw)).
  by rewrite Ha, Hp.
Qed.
