(* ===== verification/Secrets.v ===== *)
(** Client secrets: app/auth/secrets.py over scrypt; what [secrets.token_bytes] and its
    variants draw is an argument. *)

From S2P Require Import Prelude PyStr Json Canonical Calendar Parsing Base64.

(** [_b64] and [_unb64]: no padding is stored. *)
Definition b64_text_of (raw : list Z) : pystr := b64 UrlSafe raw.

(** [urlsafe_b64decode(text + "=" * (-len(text) % 4))]; a text that is not ASCII is a
    ValueError. *)
Definition unb64 (text : pystr) : result (list Z) :=
  if forallb is_ascii text
  then a2b UrlSafe O O 0 (text ++ repeat 61 (Z.to_nat ((- zlen text) mod 4)))
  else Err ValueError.

(** * secrets.py *)

Definition SCRYPT_N : Z := 16384.
Definition SCRYPT_R : Z := 8.
Definition SCRYPT_P : Z := 1.
Definition SCRYPT_PREFIX : pystr := py "scrypt".

(** [hashlib.scrypt(password, salt=, n=, r=, p=, dklen=32)] *)
Class Scrypt := { scrypt : list Z → list Z → Z → Z → Z → result (list Z) }.

(** With the parameters of this module it yields 32 bytes. *)
Class ScryptLaws `{Scrypt} := {
  scrypt_digest : ∀ password salt, ∃ digest,
    scrypt password salt SCRYPT_N SCRYPT_R SCRYPT_P = Ok digest ∧
    length digest = 32%nat ∧ forallb is_byte digest = true;
}.

(** [f"cl_{secrets.token_hex(12)}"], [f"cs_{secrets.token_urlsafe(32)}"] *)
Definition hex_bytes (bytes : list Z) : pystr := concat (map (hex_of 2) bytes).
Definition new_client_id (bytes : list Z) : pystr := py "cl_" ++ hex_bytes bytes.
Definition new_client_secret (bytes : list Z) : pystr := py "cs_" ++ b64_text_of bytes.

Section secrets.
Context `{SC : !Scrypt}.

Definition hash_secret (salt : list Z) (secret : pystr) : result pystr :=
  bytes ← encode_utf8 secret;
  digest ← scrypt bytes salt SCRYPT_N SCRYPT_R SCRYPT_P;
  Ok (SCRYPT_PREFIX ++ [36] ++ str_of_int SCRYPT_N ++ [36] ++ str_of_int SCRYPT_R ++ [36]
      ++ str_of_int SCRYPT_P ++ [36] ++ b64_text_of salt ++ [36] ++ b64_text_of digest).

(** [except (ValueError, TypeError)] *)
Definition is_value_error (e : exn) : bool :=
  match e with ValueError | UnicodeEncodeError | JSONDecodeError | TypeError => true | _ => false end.

(** The candidate digest and the text of the stored one; None where the guarded part
    returns False. *)
Definition candidate (secret stored : pystr) : result (option (list Z * pystr)) :=
  match split_on 36 stored with
  | [prefix; n; r; p; salt; digest] =>
    if negb (bool_decide (prefix = SCRYPT_PREFIX)) then Ok None else
    match (bytes ← encode_utf8 secret; salt ← unb64 salt; n ← int_of_text 10 n;
           r ← int_of_text 10 r; p ← int_of_text 10 p; scrypt bytes salt n r p) with
    | Ok digest_of => Ok (Some (digest_of, digest))
    | Err e => if is_value_error e then Ok None else Err e
    end
  | _ => Ok None
  end.

Definition verify_secret (secret stored : pystr) : result bool :=
  c ← candidate secret stored;
  match c with
  | None => Ok false
  | Some (digest_of, digest) => expected ← unb64 digest; Ok (bool_decide (digest_of = expected))
  end.

End secrets.

Lemma unb64_b64 raw : forallb is_byte raw = true → unb64 (b64_text_of raw) = Ok raw.
Proof.
  intros H. unfold unb64. assert (E : forallb is_ascii (b64_text_of raw) = true).
  { pose proof (b64_text UrlSafe raw H) as Ht. rewrite forallb_forall in Ht |- *. intros x Hx. apply Ht in Hx.
    by apply andb_true_iff in Hx as [? _]. }
  unfold b64_text_of in *. by rewrite E, pads_of_b64, a2b_b64.
Qed.

(** * Hashing and checking a secret *)

Section verify.
Context `{SC : !Scrypt} {SL : ScryptLaws}.

Lemma split_hash salt digest : forallb is_byte salt = true → forallb is_byte digest = true →
  split_on 36 (SCRYPT_PREFIX ++ [36] ++ str_of_int SCRYPT_N ++ [36] ++ str_of_int SCRYPT_R ++ [36]
      ++ str_of_int SCRYPT_P ++ [36] ++ b64_text_of salt ++ [36] ++ b64_text_of digest)
  = [SCRYPT_PREFIX; str_of_int SCRYPT_N; str_of_int SCRYPT_R; str_of_int SCRYPT_P; b64_text_of salt; b64_text_of digest].
Proof.
  intros Hs Hd. assert (H : ∀ raw, forallb is_byte raw = true → 36 ∉ b64_text_of raw)
    by (intros raw Hr; by apply (chars_not_in b64_text_char), eq_refl; apply b64_text).
  cbn [app]. do 4 (rewrite split_on_cons by (eapply bool_decide_unpack; by vm_compute)).
  by rewrite split_on_cons, split_on_none by auto.
Qed.

Lemma hash_secret_ok salt secret bytes : encode_utf8 secret = Ok bytes →
  ∃ digest, scrypt bytes salt SCRYPT_N SCRYPT_R SCRYPT_P = Ok digest ∧ forallb is_byte digest = true ∧
    hash_secret salt secret = Ok (SCRYPT_PREFIX ++ [36] ++ str_of_int SCRYPT_N ++ [36] ++ str_of_int SCRYPT_R
      ++ [36] ++ str_of_int SCRYPT_P ++ [36] ++ b64_text_of salt ++ [36] ++ b64_text_of digest).
Proof.
  intros He. destruct (scrypt_digest bytes salt) as (digest & Hs & _ & Hb). exists digest. split; [done|].
  split; [done|]. unfold hash_secret. by rewrite He; cbn [mbind result_bind]; rewrite Hs.
Qed.

(** What is stored reads back as the parameters, the salt and the digest. *)
Lemma verify_hashed salt secret bytes digest : forallb is_byte salt = true →
  scrypt bytes salt SCRYPT_N SCRYPT_R SCRYPT_P = Ok digest → forallb is_byte digest = true →
  encode_utf8 secret = Ok bytes →
  ∀ other, verify_secret other (SCRYPT_PREFIX ++ [36] ++ str_of_int SCRYPT_N ++ [36] ++ str_of_int SCRYPT_R
      ++ [36] ++ str_of_int SCRYPT_P ++ [36] ++ b64_text_of salt ++ [36] ++ b64_text_of digest)
  = match encode_utf8 other with
    | Ok o => d ← scrypt o salt SCRYPT_N SCRYPT_R SCRYPT_P; Ok (bool_decide (d = digest))
    | Err e => Ok false
    end.
Proof.
  intros Hs Hd Hb He other. unfold verify_secret, candidate. rewrite split_hash by done.
  rewrite bool_decide_eq_true_2 by done. cbn [negb].
  destruct (encode_utf8 other) as [o|e] eqn:Eo; cbn [mbind result_bind].
  - rewrite unb64_b64 by done. cbn [mbind result_bind].
    assert (Hi : ∀ n, n ∈ [SCRYPT_N; SCRYPT_R; SCRYPT_P] → int_of_text 10 (str_of_int n) = Ok n).
    { intros n Hn. rewrite !elem_of_cons, elem_of_nil in Hn. destruct Hn as [ -> |[ -> |[ -> |[]]]]; by vm_compute. }
    rewrite !Hi by (rewrite !elem_of_cons; auto). cbn [mbind result_bind].
    destruct (scrypt_digest o salt) as (d & -> & _). cbn [mbind result_bind]. by rewrite unb64_b64.
  - assert (Hv : is_value_error e = true) by (by rewrite (encode_utf8_err _ _ Eo)). by rewrite Hv.
Qed.

End verify.
