(* ===== verification/Tokens.v ===== *)
(** Access tokens: app/auth/tokens.py.  Signing and decoding a JWT is PyJWT's work and a
    parameter with laws; the claims, their texts and what a verified token says are here. *)

From stdpp Require Import gmap.
From S2P Require Import Prelude PyStr Json Canonical Validation Access Calendar Parsing.

Definition ALGORITHM : pystr := py "ES256".
Definition LEEWAY : Z := 30 * 10 ^ 6.
Definition REQUIRED : list pystr :=
  [py "iss"; py "aud"; py "sub"; py "uid"; py "iat"; py "nbf"; py "exp"; py "jti"].

(** * PyJWT *)

(** A claim as it is given to [jwt.encode]: a text, or a datetime, which it writes as
    whole seconds. *)
Inductive claim := CText (s : pystr) | CTime (t : Instant).

Definition seconds (t : Instant) : Z := t / 10 ^ 6.
Definition claim_json (c : claim) : json :=
  match c with CText s => JStr s | CTime t => JInt (seconds t) end.

(** The claims of a token [jwt.decode] accepts; it refuses a [sub] or [jti] that is not
    a string. *)
Record decoded := { dc_sub : pystr; dc_jti : pystr; dc_claims : list (pystr * json) }.

(** A call of PyJWT returns, or raises the named subclass of [PyJWTError]. *)
Abbreviation pyjwt A := (string + A)%type (only parsing).

Class Jwt := {
  (** [claims, private key, algorithm, kid] *)
  jwt_encode : list (pystr * claim) → pystr → pystr → pystr → result pystr;
  (** [jwt.get_unverified_header(token).get("kid")]: a string or absent. *)
  jwt_header_kid : pystr → pyjwt (option pystr);
  (** [token, key, algorithms, audience, issuer, leeway, required claims], and the time. *)
  jwt_decode : pystr → pystr → list pystr → pystr → pystr → Z → list pystr → Instant → pyjwt decoded;
  (** What [jwt.decode] raises when the key it is given is not a text. *)
  jwt_decode_without_key : pystr → json → exn;
  (** The PEM of the public key of a private key. *)
  public_key_pem : pystr → pystr;
}.

(** Times are checked against the clock with the leeway on either side. *)
Definition started (leeway now : Z) (c : option claim) : bool :=
  match c with Some (CTime t) => seconds t * 10 ^ 6 <=? now + leeway | _ => false end.
Definition unexpired (leeway now : Z) (c : option claim) : bool :=
  match c with Some (CTime t) => now - leeway <? seconds t * 10 ^ 6 | _ => false end.

Definition has_claims {A} (required : list pystr) (claims : list (pystr * A)) : bool :=
  forallb (λ k, match assoc k claims with Some _ => true | None => false end) required.

Class JwtLaws `{Jwt} := {
  (** What is signed with a private key decodes with its public key. *)
  jwt_kid_encode : ∀ claims key kid token, jwt_encode claims key ALGORITHM kid = Ok token →
    jwt_header_kid token = inr (Some kid);
  (** A token is base64 text with dots. *)
  jwt_encode_text : ∀ claims key algorithm kid token, jwt_encode claims key algorithm kid = Ok token →
    token ≠ [] ∧ forallb (λ c, negb (is_space c)) token = true;
  jwt_decode_encode : ∀ claims key kid token audience issuer leeway required now sub jti,
    jwt_encode claims key ALGORITHM kid = Ok token →
    has_claims required claims = true →
    assoc (py "aud") claims = Some (CText audience) → assoc (py "iss") claims = Some (CText issuer) →
    assoc (py "sub") claims = Some (CText sub) → assoc (py "jti") claims = Some (CText jti) →
    started leeway now (assoc (py "iat") claims) = true →
    started leeway now (assoc (py "nbf") claims) = true →
    unexpired leeway now (assoc (py "exp") claims) = true →
    jwt_decode token (public_key_pem key) [ALGORITHM] audience issuer leeway required now
    = inr {| dc_sub := sub; dc_jti := jti; dc_claims := map (λ kc, (kc.1, claim_json kc.2)) claims |};
  (** An accepted token has not expired. *)
  jwt_decode_unexpired : ∀ token key algorithms audience issuer leeway required now d exp,
    jwt_decode token key algorithms audience issuer leeway required now = inr d →
    assoc (py "exp") (dc_claims d) = Some (JInt exp) → now - leeway < exp * 10 ^ 6;
}.

(** * TokenService *)

Record TokenClaims := {
  tc_subject : pystr;
  tc_user_id : UUID;
  tc_organization_id : option UUID;
  tc_scopes : option (list Permission);
  tc_max_privacy_scope : option PrivacyScope;
  tc_agent_client_id : option UUID;
  tc_expires_at : Instant;
  tc_token_id : pystr;
}.

Record TokenService := {
  ts_private_key : pystr;
  ts_key_id : pystr;
  ts_issuer : pystr;
  ts_audience : pystr;
  ts_ttl : Z;
  ts_public_keys : gmap pystr json;   (* what the settings say, whatever its type *)
}.

(** [sorted(scopes)]: permissions are strings. *)
Definition permission_leb (p q : Permission) : bool := pystr_leb (permission_text p) (permission_text q).
Definition scope_list (scopes : list Permission) : pystr :=
  join [32] (map permission_text (sort_by permission_leb scopes)).

(** [PrivacyScope(value)] *)
Definition privacy_of_json (j : json) : result PrivacyScope :=
  match j with
  | JStr s => match List.find (λ p, bool_decide (scope_text p = s)) PRIVACY_ORDER with
              | Some p => Ok p
              | None => Err ValueError
              end
  | _ => Err ValueError
  end.

(** [uuid.UUID(value)] *)
Definition uuid_of_json (j : json) : result UUID :=
  match j with
  | JStr s => uuid_of_text s
  | JNull => Err TypeError
  | _ => Err (LibraryError "AttributeError")
  end.

(** [frozenset(Permission(s) for s in value.split())] *)
Definition scopes_of_text (s : pystr) : result (list Permission) :=
  ps ← mapR permission_of_text (split_ws s); Ok (dict_fromkeys ps).
Definition scopes_of_json (j : json) : result (list Permission) :=
  match j with JStr s => scopes_of_text s | _ => Err (LibraryError "AttributeError") end.

(** [datetime.fromtimestamp(value, UTC)]: years 1 to 9999. *)
Definition of_timestamp_micros (us : Z) : result Instant :=
  if (-62135596800 * 10 ^ 6 <=? us) && (us <? 253402300800 * 10 ^ 6) then Ok us
  else if (-67768040609740800 * 10 ^ 6 <=? us) && (us <? 67768036191676800 * 10 ^ 6) then Err ValueError
  else if (- 2 ^ 63 * 10 ^ 6 <=? us) && (us <? 2 ^ 63 * 10 ^ 6) then Err (LibraryError "OSError")
  else Err (LibraryError "OverflowError").

Definition datetime_of_json (j : json) : result Instant :=
  match j with
  | JInt n => of_timestamp_micros (n * 10 ^ 6)
  | JBool b => of_timestamp_micros (if b then 10 ^ 6 else 0)
  | JFloat (Fin m e) =>
      of_timestamp_micros (if 0 <=? e then m * 2 ^ e * 10 ^ 6 else round_half_even (m * 10 ^ 6 * 5 ^ (- e)) (- e))
  | JFloat NegZero => Ok 0
  | JFloat NaN => Err ValueError
  | JFloat _ => Err (LibraryError "OverflowError")
  | _ => Err TypeError
  end.

Section tokens.
Context `{JW : !Jwt}.

(** [TokenService(...)]: the extra public keys may override the current one. *)
Definition new_token_service (private_key_pem key_id issuer audience : pystr) (ttl : Z)
    (extra_public_keys : gmap pystr json) : TokenService := {|
  ts_private_key := private_key_pem; ts_key_id := key_id; ts_issuer := issuer;
  ts_audience := audience; ts_ttl := ttl;
  ts_public_keys := extra_public_keys ∪ {[key_id := JStr (public_key_pem private_key_pem)]} |}.

(** A claim that is set when its value is not None. *)
Definition claim_unless_none {A} (key : pystr) (text : A → pystr) (value : option A) :
    list (pystr * claim) :=
  match value with Some x => [(key, CText (text x))] | None => [] end.

(** The dictionary that [issue] signs; [token_id] is what [uuid4] drew. *)
Definition issued_claims (s : TokenService) (subject : pystr) (user_id : UUID)
    (organization_id : option UUID) (scopes : option (list Permission))
    (max_privacy_scope : option PrivacyScope) (issued : Instant) (token_id : UUID) :
    list (pystr * claim) :=
  [(py "iss", CText (ts_issuer s)); (py "aud", CText (ts_audience s)); (py "sub", CText subject);
   (py "uid", CText (uuid_str user_id)); (py "iat", CTime issued); (py "nbf", CTime issued);
   (py "exp", CTime (issued + ts_ttl s)); (py "jti", CText (hex_of 32 token_id))]
  ++ claim_unless_none (py "org") uuid_str organization_id
  ++ claim_unless_none (py "scope") scope_list scopes
  ++ claim_unless_none (py "privacy") scope_text max_privacy_scope.

Definition issue (s : TokenService) (subject : pystr) (user_id : UUID)
    (organization_id : option UUID) (scopes : option (list Permission))
    (max_privacy_scope : option PrivacyScope) (now : Instant) (token_id : UUID) :
    result (pystr * Instant) :=
  token ← jwt_encode
    (issued_claims s subject user_id organization_id scopes max_privacy_scope now token_id)
    (ts_private_key s) ALGORITHM (ts_key_id s);
  Ok (token, now + ts_ttl s).

(** [f(claims[key]) if key in claims else None] *)
Definition claim_if_present {A} (key : pystr) (f : json → result A) (claims : list (pystr * json)) :
    result (option A) :=
  match assoc key claims with Some j => x ← f j; Ok (Some x) | None => Ok None end.

(** [claims[key]] *)
Definition claim_item {A} (key : pystr) (f : json → result A) (claims : list (pystr * json)) : result A :=
  match assoc key claims with Some j => f j | None => Err KeyError end.

(** What the accepted claims say. *)
Definition claims_of (d : decoded) : result TokenClaims :=
  let subject := dc_sub d in
  agent_id ← (if startswith (py "agent:") subject
              then u ← uuid_of_text (drop 6 subject); Ok (Some u) else Ok None);
  _ ← ensure (match agent_id with Some _ => true | None => startswith (py "user:") subject end)
        (InvalidTokenError "unknown subject type");
  user_id ← claim_item (py "uid") uuid_of_json (dc_claims d);
  organization_id ← claim_if_present (py "org") uuid_of_json (dc_claims d);
  scopes ← claim_if_present (py "scope") scopes_of_json (dc_claims d);
  max_privacy_scope ← claim_if_present (py "privacy") privacy_of_json (dc_claims d);
  expires_at ← claim_item (py "exp") datetime_of_json (dc_claims d);
  Ok {| tc_subject := subject; tc_user_id := user_id; tc_organization_id := organization_id;
        tc_scopes := scopes; tc_max_privacy_scope := max_privacy_scope;
        tc_agent_client_id := agent_id; tc_expires_at := expires_at; tc_token_id := dc_jti d |}.

(** [except (jwt.PyJWTError, ValueError, KeyError)]; every other exception escapes. *)
Definition to_invalid_token (e : exn) : exn :=
  match e with
  | ValueError | UnicodeEncodeError | JSONDecodeError | KeyError => InvalidTokenError (exn_name e)
  | e => e
  end.

Definition pyjwt_call {A} (r : pyjwt A) : result A :=
  match r with inr x => Ok x | inl name => Err (InvalidTokenError name) end.

Definition verify (s : TokenService) (now : Instant) (token : pystr) : result TokenClaims :=
  match (
    kid ← pyjwt_call (jwt_header_kid token);
    match ts_public_keys s !! default (py "None") kid with
    | None | Some JNull => Err (InvalidTokenError "unknown signing key")
    | Some (JStr key) =>
      d ← pyjwt_call (jwt_decode token key [ALGORITHM] (ts_audience s) (ts_issuer s) LEEWAY REQUIRED now);
      claims_of d
    | Some key => Err (jwt_decode_without_key token key)
    end) with
  | Ok claims => Ok claims
  | Err e => Err (to_invalid_token e)
  end.

End tokens.

(** * A token says what was issued *)

Lemma permission_of_text_text p : permission_of_text (permission_text p) = Ok p.
Proof. by destruct p. Qed.

Lemma permission_text_word p : permission_text p ≠ [] ∧
  forallb (λ c, negb (is_space c)) (permission_text p) = true.
Proof. by destruct p. Qed.

Lemma mapR_permissions ps : mapR permission_of_text (map permission_text ps) = Ok ps.
Proof. induction ps as [|p ps IH]; [done|]. cbn [map mapR]. rewrite permission_of_text_text. cbn. by rewrite IH. Qed.

(** Scopes as text read back as the same set. *)
Lemma scopes_of_scope_list ps :
  scopes_of_text (scope_list ps) = Ok (dict_fromkeys (sort_by permission_leb ps)).
Proof.
  unfold scopes_of_text, scope_list. rewrite split_ws_join.
  - by rewrite mapR_permissions.
  - intros w (p & -> & _)%list_elem_of_fmap. apply permission_text_word.
Qed.

Lemma elem_of_scopes ps p : p ∈ dict_fromkeys (sort_by permission_leb ps) ↔ p ∈ ps.
Proof. by rewrite elem_of_dict_fromkeys, elem_of_sort_by. Qed.

Lemma privacy_of_scope_text p : privacy_of_json (JStr (scope_text p)) = Ok p.
Proof. by destruct p. Qed.

(** ** The round trip *)

Definition trusts_own_key `{Jwt} (s : TokenService) : Prop :=
  ts_public_keys s !! ts_key_id s = Some (JStr (public_key_pem (ts_private_key s))).

Lemma new_service_trusts `{Jwt} private key_id issuer audience ttl extra :
  extra !! key_id = None → trusts_own_key (new_token_service private key_id issuer audience ttl extra).
Proof. intros He. unfold trusts_own_key. cbn. by rewrite lookup_union_r, lookup_singleton_eq. Qed.

(** The subject of a token, and the client it names. *)
Definition subject_text (agent : option UUID) (user_id : UUID) : pystr :=
  match agent with Some a => py "agent:" ++ uuid_str a | None => py "user:" ++ uuid_str user_id end.

Definition uuid_or_none (u : option UUID) : Prop := match u with Some u => is_uuid u | None => True end.

(** The instants at which a token is accepted, to the second and with the leeway. *)
Definition token_live (issued ttl now : Z) : Prop :=
  seconds issued * 10 ^ 6 ≤ now + LEEWAY ∧ now - LEEWAY < seconds (issued + ttl) * 10 ^ 6.

Definition expiry_ok (expires : Instant) : Prop := 0 ≤ expires < 253402300800 * 10 ^ 6.

Section round_trip.
Context `{JW : !Jwt} {JL : JwtLaws}.

Lemma issued_claim s subject user_id org scopes privacy issued tid :
  let claims := issued_claims s subject user_id org scopes privacy issued tid in
  assoc (py "uid") claims = Some (CText (uuid_str user_id)) ∧
  assoc (py "exp") claims = Some (CTime (issued + ts_ttl s)) ∧
  assoc (py "org") claims = option_map (λ o, CText (uuid_str o)) org ∧
  assoc (py "scope") claims = option_map (λ ps, CText (scope_list ps)) scopes ∧
  assoc (py "privacy") claims = option_map (λ p, CText (scope_text p)) privacy ∧
  assoc (py "aud") claims = Some (CText (ts_audience s)) ∧ assoc (py "iss") claims = Some (CText (ts_issuer s)) ∧
  assoc (py "sub") claims = Some (CText subject) ∧ assoc (py "jti") claims = Some (CText (hex_of 32 tid)) ∧
  assoc (py "iat") claims = Some (CTime issued) ∧ assoc (py "nbf") claims = Some (CTime issued) ∧
  has_claims REQUIRED claims = true.
Proof. unfold issued_claims. destruct org, scopes, privacy; split_and!; reflexivity. Qed.

Lemma subject_agent agent user_id : uuid_or_none agent →
  (if startswith (py "agent:") (subject_text agent user_id)
   then u ← uuid_of_text (drop 6 (subject_text agent user_id)); Ok (Some u) else Ok None) = Ok agent ∧
  match agent with Some _ => true | None => startswith (py "user:") (subject_text agent user_id) end = true.
Proof.
  intros Ha. destruct agent as [a|]; [|done]. split; [|done].
  change (startswith _ _) with true. change (drop 6 _) with (uuid_str a). cbn iota. by rewrite uuid_of_text_str.
Qed.

Lemma datetime_of_seconds t : expiry_ok t → datetime_of_json (JInt (seconds t)) = Ok (seconds t * 10 ^ 6).
Proof.
  intros [H1 H2]. unfold datetime_of_json, of_timestamp_micros, seconds.
  rewrite (proj2 (Z.leb_le _ _)), (proj2 (Z.ltb_lt _ _)) by (Z.to_euclidean_division_equations; lia). reflexivity.
Qed.

(** A claim that may be absent reads back. *)
Lemma claim_if_present_text {A} key (f : json → result A) (text : A → pystr) (g : A → A) value claims :
  assoc key claims = option_map (λ x, JStr (text x)) value →
  (∀ x, value = Some x → f (JStr (text x)) = Ok (g x)) →
  claim_if_present key f claims = Ok (option_map g value).
Proof. intros E Hf. unfold claim_if_present. rewrite E. destruct value as [x|]; [|done]. cbn. by rewrite (Hf x). Qed.

Lemma claims_of_spec d agent user_id org scopes privacy expires :
  dc_sub d = subject_text agent user_id → uuid_or_none agent → is_uuid user_id → uuid_or_none org →
  expiry_ok expires →
  assoc (py "uid") (dc_claims d) = Some (JStr (uuid_str user_id)) →
  assoc (py "exp") (dc_claims d) = Some (JInt (seconds expires)) →
  assoc (py "org") (dc_claims d) = option_map (λ o, JStr (uuid_str o)) org →
  assoc (py "scope") (dc_claims d) = option_map (λ ps, JStr (scope_list ps)) scopes →
  assoc (py "privacy") (dc_claims d) = option_map (λ p, JStr (scope_text p)) privacy →
  claims_of d = Ok {| tc_subject := subject_text agent user_id; tc_user_id := user_id;
    tc_organization_id := org; tc_scopes := option_map (λ ps, dict_fromkeys (sort_by permission_leb ps)) scopes;
    tc_max_privacy_scope := privacy; tc_agent_client_id := agent;
    tc_expires_at := seconds expires * 10 ^ 6; tc_token_id := dc_jti d |}.
Proof.
  intros Es Ha Hu Ho Hx Euid Eexp Eorg Escope Eprivacy.
  destruct (subject_agent agent user_id Ha) as [Hs Hk].
  assert (Eorg' := claim_if_present_text (py "org") uuid_of_json uuid_str id org _ Eorg
    ltac:(intros o ->; exact (uuid_of_text_str o Ho))).
  assert (Escope' := claim_if_present_text (py "scope") scopes_of_json scope_list
    (λ ps, dict_fromkeys (sort_by permission_leb ps)) scopes _ Escope
    ltac:(intros ps _; exact (scopes_of_scope_list ps))).
  assert (Eprivacy' := claim_if_present_text (py "privacy") privacy_of_json scope_text id privacy _ Eprivacy
    ltac:(intros p _; exact (privacy_of_scope_text p))).
  assert (Eo : ∀ A (o : option A), option_map id o = o) by (by intros A []). rewrite Eo in Eorg', Eprivacy'.
  unfold claims_of. rewrite Es, Hs. unfold mbind at 1, result_bind at 1. rewrite Hk.
  unfold mbind at 1, result_bind at 1, ensure. unfold claim_item. rewrite Euid, Eexp, Eorg', Escope', Eprivacy'.
  cbn [uuid_of_json]. rewrite (uuid_of_text_str user_id Hu), (datetime_of_seconds expires Hx). reflexivity.
Qed.

Lemma option_map_map {A B C} (g : B → C) (f : A → B) o : option_map g (option_map f o) = option_map (λ x, g (f x)) o.
Proof. by destruct o. Qed.

(** What [issue] returns is verified as what was issued, while the token lives. *)
Lemma verify_issued s agent user_id org scopes privacy issued tid token expires now :
  trusts_own_key s → is_uuid user_id → uuid_or_none agent → uuid_or_none org →
  issue s (subject_text agent user_id) user_id org scopes privacy issued tid = Ok (token, expires) →
  expiry_ok expires → token_live issued (ts_ttl s) now →
  verify s now token = Ok {| tc_subject := subject_text agent user_id; tc_user_id := user_id;
    tc_organization_id := org; tc_scopes := option_map (λ ps, dict_fromkeys (sort_by permission_leb ps)) scopes;
    tc_max_privacy_scope := privacy; tc_agent_client_id := agent;
    tc_expires_at := seconds expires * 10 ^ 6; tc_token_id := hex_of 32 tid |}.
Proof.
  intros Hk Hu Ha Ho Hi He [Hstart Hend]. unfold issue in Hi. minv. unfold verify.
  match goal with H : jwt_encode _ _ _ _ = Ok _ |- _ => rename H into Henc end.
  rewrite (jwt_kid_encode _ _ _ _ Henc). cbn [pyjwt_call mbind result_bind default id]. rewrite Hk.
  destruct (issued_claim s (subject_text agent user_id) user_id org scopes privacy issued tid)
    as (Euid & Eexp & Eorg & Escope & Eprivacy & Eaud & Eiss & Esub & Ejti & Eiat & Enbf & Hreq).
  assert (Hs : started LEEWAY now (Some (CTime issued)) = true) by (unfold started; apply Z.leb_le; exact Hstart).
  assert (Hx : unexpired LEEWAY now (Some (CTime (issued + ts_ttl s))) = true)
    by (unfold unexpired; apply Z.ltb_lt; exact Hend).
  revert Henc Euid Eexp Eorg Escope Eprivacy Eaud Eiss Esub Ejti Eiat Enbf Hreq.
  generalize (issued_claims s (subject_text agent user_id) user_id org scopes privacy issued tid) as claims.
  intros claims Henc Euid Eexp Eorg Escope Eprivacy Eaud Eiss Esub Ejti Eiat Enbf Hreq.
  rewrite <-Eiat in Hs. pose proof Hs as Hn. rewrite Eiat, <-Enbf in Hn. rewrite <-Eexp in Hx.
  rewrite (jwt_decode_encode _ _ _ _ _ _ _ _ _ _ _ Henc Hreq Eaud Eiss Esub Ejti Hs Hn Hx).
  cbn [pyjwt_call mbind result_bind].
  rewrite (claims_of_spec _ agent user_id org scopes privacy (issued + ts_ttl s));
    [reflexivity|reflexivity|done..| | | | |]; cbn [dc_claims]; rewrite assoc_map.
  - by rewrite Euid.
  - by rewrite Eexp.
  - by rewrite Eorg, option_map_map.
  - by rewrite Escope, option_map_map.
  - by rewrite Eprivacy, option_map_map.
Qed.

End round_trip.
