(* ===== verification/Accounts.v ===== *)
(** Users, organizations, memberships and authorization: repositories/users.py,
    organizations.py, memberships.py and services/users.py, organizations.py,
    memberships.py, authorization.py, tenancy.py.  The invariant of the whole
    component is that every organization keeps at least one ADMIN. *)

From S2P Require Import Prelude PyStr Json Regex Validation Access Temporal Database Schema.

(** * Repositories *)

Module UserRepository.

(** [session.get(User, user_id)]: by primary key. *)
Definition get (user_id : UUID) : DB (option user) :=
  gets (λ d, List.find (λ u, u_id u =? user_id) (tab d Users)).

Definition get_by_email (normalized_email : pystr) : DB (option user) :=
  rows ← select Users (λ u, bool_decide (u_email u = normalized_email));
  lift (one_or_none rows).

End UserRepository.

Module OrganizationRepository.

Definition get (organization_id : UUID) : DB (option organization) :=
  gets (λ d, List.find (λ o, o_id o =? organization_id) (tab d Organizations)).

Definition get_by_slug (slug : pystr) : DB (option organization) :=
  rows ← select Organizations (λ o, bool_decide (o_slug o = slug));
  lift (one_or_none rows).

(** The row lock serialises transactions; here each transaction runs alone. *)
Definition lock (organization_id : UUID) : DB bool :=
  gets (exists_row Organizations (λ o, o_id o =? organization_id)).

End OrganizationRepository.

Module MembershipRepository.

Definition mine (org user_id : UUID) (m : membership) : bool :=
  (m_organization_id m =? org) && (m_user_id m =? user_id).

(** [new] and the flush that inserts the row. *)
Definition new (org user_id : UUID) (role : MembershipRole) : DB membership :=
  i ← fresh_id;
  now ← gets db_now;
  let m := {| m_id := i; m_organization_id := org; m_user_id := user_id; m_role := role;
              m_created_at := now |} in
  _ ← exec_insert Memberships m;
  mret m.

Definition get (org user_id : UUID) : DB (option membership) :=
  rows ← select Memberships (mine org user_id);
  lift (one_or_none rows).

(** ORDER BY created_at, id *)
Definition by_creation (a b : membership) : bool :=
  (m_created_at a <? m_created_at b)
  || ((m_created_at a =? m_created_at b) && (m_id a <=? m_id b)).

Definition list_members (org : UUID) : DB (list membership) :=
  rows ← select Memberships (λ m, m_organization_id m =? org);
  mret (sort_by by_creation rows).

Definition count_with_role (org : UUID) (role : MembershipRole) : DB Z :=
  rows ← select Memberships (λ m, (m_organization_id m =? org) && bool_decide (m_role m = role));
  mret (zlen rows).

Definition delete (org : UUID) (m : membership) : DB unit :=
  _ ← guard_ (m_organization_id m =? org) ValueError;
  exec_delete Memberships (λ x, m_id x =? m_id m).

End MembershipRepository.

(** * Authorization *)

Definition NOT_A_MEMBER : exn := PermissionDeniedError "not a member of this organization".

(** [user is None or not user.is_active] *)
Definition is_active_user (u : option user) : bool :=
  match u with Some u => u_is_active u | None => false end.

Definition require_permission (ctx : TenantContext) (permission : Permission) : DB MembershipRole :=
  user ← UserRepository.get (ctx_user_id ctx);
  membership ← MembershipRepository.get (ctx_organization_id ctx) (ctx_user_id ctx);
  match membership with
  | Some m =>
    if negb (is_active_user user) then raise NOT_A_MEMBER
    else if negb (has_permission (m_role m) permission)
    then raise (PermissionDeniedError "role {membership.role} lacks permission {permission}")
    else if negb (scopes_allow (ctx_scopes ctx) permission)
    then raise (PermissionDeniedError "token scope does not include {permission}")
    else mret (m_role m)
  | None => raise NOT_A_MEMBER
  end.

(** * TenancyService *)

Definition resolve_tenant (organization_id user_id : UUID) : DB TenantContext :=
  transaction (
    user ← UserRepository.get user_id;
    membership ← MembershipRepository.get organization_id user_id;
    match membership with
    | Some m =>
      if negb (is_active_user user) then raise NOT_A_MEMBER
      else mret {| ctx_organization_id := organization_id; ctx_user_id := user_id;
                   ctx_role := m_role m; ctx_scopes := None; ctx_max_privacy_scope := None;
                   ctx_agent_client_id := None |}
    | None => raise NOT_A_MEMBER
    end).

(** * UserService and OrganizationService *)

Section accounts.
Context `{UD : !UnicodeData}.

Definition register_user (email display_name : pystr) : DB user :=
  normalized_email ← lift (normalize_email email);
  name ← lift (normalize_name display_name);
  transaction (
    existing ← UserRepository.get_by_email normalized_email;
    match existing with
    | Some _ => raise (ConflictError "a user with this email already exists")
    | None =>
      i ← fresh_id;
      let u := {| u_id := i; u_email := normalized_email; u_display_name := name;
                  u_is_active := true |} in
      _ ← catch_integrity (ConflictError "a user with this email already exists")
            (exec_insert Users u);
      mret u
    end).

Definition create_organization (name slug : pystr) (creator_user_id : UUID) : DB organization :=
  normalized_slug ← lift (normalize_slug slug);
  normalized_name ← lift (normalize_name name);
  transaction (
    creator ← UserRepository.get creator_user_id;
    match creator with
    | Some creator =>
      if negb (u_is_active creator) then raise (NotFoundError "creator user not found") else
      existing ← OrganizationRepository.get_by_slug normalized_slug;
      match existing with
      | Some _ => raise (ConflictError "an organization with this slug already exists")
      | None =>
        i ← fresh_id;
        let o := {| o_id := i; o_slug := normalized_slug; o_name := normalized_name |} in
        _ ← catch_integrity (ConflictError "an organization with this slug already exists")
              (exec_insert Organizations o);
        _ ← MembershipRepository.new (o_id o) (u_id creator) ADMIN;
        mret o
      end
    | None => raise (NotFoundError "creator user not found")
    end).

End accounts.

(** * MembershipService *)

Module MembershipService.

Definition LAST_ADMIN : exn :=
  InvariantViolationError "an organization must keep at least one ADMIN".

Definition authorize (ctx : TenantContext) (permission : Permission) (lock : bool) : DB unit :=
  _ ← (if lock
       then locked ← OrganizationRepository.lock (ctx_organization_id ctx);
            guard_ locked NOT_A_MEMBER
       else mret ());
  _ ← require_permission ctx permission;
  mret ().

Definition require_member (org user_id : UUID) : DB membership :=
  membership ← MembershipRepository.get org user_id;
  match membership with
  | Some m => mret m
  | None => raise (NotFoundError "membership not found")
  end.

Definition ensure_another_admin (org : UUID) : DB unit :=
  n ← MembershipRepository.count_with_role org ADMIN;
  guard_ (negb (n <=? 1)) LAST_ADMIN.

Definition list_members (ctx : TenantContext) : DB (list membership) :=
  transaction (
    _ ← authorize ctx READ_MEMBERS false;
    MembershipRepository.list_members (ctx_organization_id ctx)).

Definition add_member (ctx : TenantContext) (user_id : UUID) (role : MembershipRole) :
    DB membership :=
  transaction (
    _ ← authorize ctx MANAGE_MEMBERS true;
    user ← UserRepository.get user_id;
    _ ← guard_ (is_active_user user) (NotFoundError "user not found");
    existing ← MembershipRepository.get (ctx_organization_id ctx) user_id;
    match existing with
    | Some _ => raise (ConflictError "user is already a member of this organization")
    | None => catch_integrity (ConflictError "user is already a member of this organization")
                (MembershipRepository.new (ctx_organization_id ctx) user_id role)
    end).

Definition with_role (role : MembershipRole) (m : membership) : membership :=
  {| m_id := m_id m; m_organization_id := m_organization_id m; m_user_id := m_user_id m;
     m_role := role; m_created_at := m_created_at m |}.

Definition change_role (ctx : TenantContext) (user_id : UUID) (role : MembershipRole) :
    DB membership :=
  transaction (
    _ ← authorize ctx MANAGE_MEMBERS true;
    m ← require_member (ctx_organization_id ctx) user_id;
    _ ← (if bool_decide (m_role m = ADMIN) && negb (bool_decide (role = ADMIN))
         then ensure_another_admin (ctx_organization_id ctx) else mret ());
    _ ← exec_update Memberships (λ x, m_id x =? m_id m) (with_role role);
    mret (with_role role m)).

Definition remove_member (ctx : TenantContext) (user_id : UUID) : DB unit :=
  transaction (
    _ ← authorize ctx MANAGE_MEMBERS true;
    m ← require_member (ctx_organization_id ctx) user_id;
    _ ← (if bool_decide (m_role m = ADMIN)
         then ensure_another_admin (ctx_organization_id ctx) else mret ());
    MembershipRepository.delete (ctx_organization_id ctx) m).

End MembershipService.

(** * What authorization guarantees *)

Lemma one_or_none_ok {A} (l : list A) x : one_or_none l = Ok (Some x) → l = [x].
Proof. destruct l as [|y [|z l]]; simpl; congruence. Qed.

Lemma one_or_none_none {A} (l : list A) : one_or_none l = Ok None → l = [].
Proof. destruct l as [|y [|z l]]; simpl; congruence. Qed.

Lemma user_get_ok i u d d' :
  UserRepository.get i d = (Ok u, d') ↔ u = List.find (λ u, u_id u =? i) (tab d Users) ∧ d' = d.
Proof. exact (gets_ok (λ d, List.find (λ u, u_id u =? i) (tab d Users)) u d d'). Qed.

Lemma membership_get_ok org i m d d' :
  MembershipRepository.get org i d = (Ok m, d') →
  one_or_none (where_ (MembershipRepository.mine org i) (tab d Memberships)) = Ok m ∧ d' = d.
Proof. intros H. unfold MembershipRepository.get in H. minv. apply select_ok in H as [-> ->]. done. Qed.

(** The current state of an actor: an active user with a membership. *)
Definition current_role (d : db) (org user_id : UUID) (role : MembershipRole) : Prop :=
  is_active_user (List.find (λ u, u_id u =? user_id) (tab d Users)) = true ∧
  ∃ m, where_ (MembershipRepository.mine org user_id) (tab d Memberships) = [m] ∧ m_role m = role.

Lemma require_permission_ok ctx p role d d' :
  require_permission ctx p d = (Ok role, d') ↔
  d' = d ∧ current_role d (ctx_organization_id ctx) (ctx_user_id ctx) role ∧
  has_permission role p = true ∧ scopes_allow (ctx_scopes ctx) p = true.
Proof.
  unfold require_permission. split.
  - intros H. minv. apply user_get_ok in H as [-> ->].
    match goal with H : MembershipRepository.get _ _ _ = _ |- _ => apply membership_get_ok in H as [Hm ->] end.
    destruct x1 as [m|]; [|by minv]. apply one_or_none_ok in Hm.
    destruct (is_active_user _) eqn:Ea; cbn [negb] in *; [|by minv].
    destruct (has_permission _ _) eqn:Eh; cbn [negb] in *; [|by minv].
    destruct (scopes_allow _ _) eqn:Es; cbn [negb] in *; [|by minv].
    minv. split_and!; [done|split; [done|by exists m]|done|done].
  - intros (-> & (Ha & m & Hm & <-) & Hh & Hs).
    apply st_bind_ok. eexists _, _. split; [by apply user_get_ok|].
    apply st_bind_ok. exists (Some m), d. split.
    + unfold MembershipRepository.get. apply st_bind_ok. eexists _, _. split; [by apply select_ok|].
      done.
    + by rewrite Ha, Hh, Hs.
Qed.

Lemma membership_get_eq org i d m :
  where_ (MembershipRepository.mine org i) (tab d Memberships) = [m] →
  MembershipRepository.get org i d = (Ok (Some m), d).
Proof.
  intros H. apply st_bind_ok. eexists _, _. split; [by apply select_ok|].
  apply lift_ok. split; [|done]. done.
Qed.

(** A member whose token does not include the permission is refused. *)
Lemma require_permission_out_of_scope ctx p role d :
  current_role d (ctx_organization_id ctx) (ctx_user_id ctx) role →
  scopes_allow (ctx_scopes ctx) p = false →
  ∃ msg, require_permission ctx p d = (Err (PermissionDeniedError msg), d).
Proof.
  intros (Ha & m & Hm & _) Hs. unfold require_permission.
  erewrite st_bind_eq; [|by apply user_get_ok].
  erewrite st_bind_eq; [|by apply membership_get_eq].
  rewrite Ha, Hs. cbn [negb]. destruct (has_permission _ _); by eexists.
Qed.

(** Authorization reads; it never changes the store. *)
Lemma require_permission_state (R : db → db → Prop) `{!PreOrder R} ctx p :
  respects R (require_permission ctx p).
Proof.
  unfold require_permission, UserRepository.get, MembershipRepository.get.
  respects ltac:(apply select_respects; apply _).
Qed.

(** * At least one ADMIN *)

Definition is_admin_of (org : UUID) (m : membership) : bool :=
  (m_organization_id m =? org) && bool_decide (m_role m = ADMIN).

Definition has_admin (org : UUID) (d : db) : Prop :=
  ∃ m, m ∈ tab d Memberships ∧ is_admin_of org m = true.

Record admins_ok (d : db) : Prop := {
  admins_consistent : consistent d;
  admins_present : ∀ o, o ∈ tab d Organizations → has_admin (o_id o) d;
}.

Lemma compatible_memberships a b :
  compatible Memberships a b = Ok () → m_id a ≠ m_id b.
Proof.
  unfold compatible. cbn [pair_checks membership_pair checks uq]. intros H E. rewrite E in H.
  by rewrite Z.eqb_refl in H.
Qed.

Lemma consistent_membership_ids d :
  consistent d → StronglySorted (λ a b, m_id a ≠ m_id b) (tab d Memberships).
Proof.
  intros Hc. eapply StronglySorted_mono; [apply compatible_memberships|].
  by apply (for_pairs_ok (compatible Memberships)), Hc.
Qed.

Lemma sorted_distinct_inj {A K} (key : A → K) l x y :
  StronglySorted (λ a b, key a ≠ key b) l → x ∈ l → y ∈ l → key x = key y → x = y.
Proof.
  induction 1 as [|a l Hl IH Ha]; [by intros ?%not_elem_of_nil|].
  rewrite Forall_forall in Ha.
  intros [->|Hx]%elem_of_cons [->|Hy]%elem_of_cons E; auto.
  - by destruct (Ha y Hy).
  - by destruct (Ha x Hx).
Qed.

Lemma membership_ids_unique d m m' :
  consistent d → m ∈ tab d Memberships → m' ∈ tab d Memberships → m_id m = m_id m' → m = m'.
Proof. intros Hc%consistent_membership_ids. by apply sorted_distinct_inj. Qed.

(** Two ADMIN rows of one organization: one of them is not [m]. *)
Lemma another_admin d org (m : membership) :
  consistent d → 1 < zlen (where_ (is_admin_of org) (tab d Memberships)) →
  ∃ m', m' ∈ tab d Memberships ∧ is_admin_of org m' = true ∧ m_id m' ≠ m_id m.
Proof.
  intros Hc%consistent_membership_ids Hn.
  assert (Hs := StronglySorted_where _ (is_admin_of org) _ Hc).
  assert (Hin : ∀ x, x ∈ where_ (is_admin_of org) (tab d Memberships) →
    x ∈ tab d Memberships ∧ is_admin_of org x = true) by (intros x [? ?]%elem_of_where_; done).
  destruct (where_ _ _) as [|a [|b l]]; [done|done|].
  apply StronglySorted_inv in Hs as [_ [Hab _]%Forall_cons].
  destruct (decide (m_id a = m_id m)) as [Ha|Ha].
  - exists b. destruct (Hin b) as [? ?]; [by right; left|]. split_and!; congruence.
  - exists a. destruct (Hin a) as [? ?]; [by left|]. done.
Qed.

Lemma is_admin_of_iff org m : is_admin_of org m = true ↔ m_organization_id m = org ∧ m_role m = ADMIN.
Proof. unfold is_admin_of. rewrite andb_true_iff, Z.eqb_eq, bool_decide_eq_true. done. Qed.

(** Changes that touch neither table keep the invariant. *)
Lemma admins_ok_frame ts d d' :
  frame ts d d' → keeps_consistent d d' → Organizations ∉ ts → Memberships ∉ ts →
  admins_ok d → admins_ok d'.
Proof.
  intros F K Ho Hm [Hc Ha]. split; [by apply K|]. unfold has_admin.
  rewrite (frame_tab_other _ _ _ Organizations F), (frame_tab_other _ _ _ Memberships F) by done.
  done.
Qed.

Lemma membership_new_ok org i role m d d' :
  MembershipRepository.new org i role d = (Ok m, d') →
  m_organization_id m = org ∧ m_role m = role ∧ m_user_id m = i ∧ frame [Memberships] d d' ∧
  tab d' Memberships = tab d Memberships ++ [m].
Proof.
  unfold MembershipRepository.new. intros H. minv.
  apply fresh_id_ok in H as [-> ->].
  match goal with H : exec_insert _ _ _ = _ |- _ =>
    apply exec_insert_ok in H as (_ & F & T); [|done] end.
  split_and!; try done. eapply frame_trans; [apply frame_bump|done].
Qed.

Lemma membership_new_consistent org i role :
  respects keeps_consistent (MembershipRepository.new org i role).
Proof.
  unfold MembershipRepository.new.
  respects ltac:(first [apply fresh_id_consistent | by apply exec_insert_consistent]).
Qed.

Lemma authorize_ok ctx p lock u d d' :
  MembershipService.authorize ctx p lock d = (Ok u, d') → d' = d ∧
  (lock = true → exists_row Organizations (λ o, o_id o =? ctx_organization_id ctx) d = true) ∧
  ∃ role, current_role d (ctx_organization_id ctx) (ctx_user_id ctx) role ∧
          has_permission role p = true ∧ scopes_allow (ctx_scopes ctx) p = true.
Proof.
  unfold MembershipService.authorize, OrganizationRepository.lock. intros H. minv.
  match goal with H : require_permission _ _ _ = _ |- _ => apply require_permission_ok in H as (-> & Hr) end.
  destruct lock; minv; (split_and!; [done|done|by eexists]).
Qed.

Lemma membership_get_in org i m d d' :
  MembershipRepository.get org i d = (Ok (Some m), d') →
  d' = d ∧ m ∈ tab d Memberships ∧ m_organization_id m = org ∧ m_user_id m = i.
Proof.
  intros [Hm%one_or_none_ok ->]%membership_get_ok.
  assert (Hin : m ∈ where_ (MembershipRepository.mine org i) (tab d Memberships))
    by (rewrite Hm; by left).
  apply elem_of_where_ in Hin as [Hp Hin]. unfold MembershipRepository.mine in Hp.
  split_and!; [done|done|lia|lia].
Qed.

Lemma require_member_ok org i m d d' :
  MembershipService.require_member org i d = (Ok m, d') →
  d' = d ∧ m ∈ tab d Memberships ∧ m_organization_id m = org ∧ m_user_id m = i.
Proof.
  unfold MembershipService.require_member. intros H. minv. destruct x as [m'|]; minv.
  by eapply membership_get_in.
Qed.

Lemma ensure_another_admin_ok org u d d' :
  MembershipService.ensure_another_admin org d = (Ok u, d') →
  d' = d ∧ 1 < zlen (where_ (is_admin_of org) (tab d Memberships)).
Proof.
  unfold MembershipService.ensure_another_admin, MembershipRepository.count_with_role.
  intros H. minv. match goal with H : select _ _ _ = _ |- _ => apply select_ok in H as [-> ->] end.
  split; [done|]. unfold is_admin_of. cbn [row] in *. lia.
Qed.

Abbreviation keeps_admins := (respects (λ d d', admins_ok d → admins_ok d')).

Lemma register_user_keeps `{UD : !UnicodeData} email name : keeps_admins (register_user email name).
Proof.
  unfold register_user. apply respects_bind; [apply _|apply respects_lift; apply _|intros e].
  apply respects_bind; [apply _|apply respects_lift; apply _|intros n].
  apply keeps_transaction. intros d a d' Ha H. minv.
  match goal with H : UserRepository.get_by_email _ _ = _ |- _ =>
    unfold UserRepository.get_by_email in H; minv; apply select_ok in H as [-> ->] end.
  destruct x as [u|]; minv. apply fresh_id_ok in H as [-> ->].
  match goal with H : catch_integrity _ _ _ = _ |- _ => apply catch_integrity_ok in H; rename H into Hi end.
  assert (K : keeps_consistent (bump d) x2) by (eapply exec_insert_consistent; [|exact Hi]; done).
  apply exec_insert_ok in Hi as (_ & F & _); [|done].
  eapply (admins_ok_frame [Users]); [eapply frame_trans; [apply frame_bump|exact F]| |set_solver|set_solver|done].
  exact K.
Qed.

Lemma get_by_slug_state slug o d d' :
  OrganizationRepository.get_by_slug slug d = (Ok o, d') → d' = d.
Proof. unfold OrganizationRepository.get_by_slug. intros H. minv. by apply select_ok in H as [-> ->]. Qed.

Lemma has_admin_app org l d d' :
  tab d' Memberships = tab d Memberships ++ l → has_admin org d → has_admin org d'.
Proof. intros E (m & Hm & ?). exists m. split; [|done]. rewrite E. apply elem_of_app. by left. Qed.

Lemma create_organization_keeps `{UD : !UnicodeData} name slug creator :
  keeps_admins (create_organization name slug creator).
Proof.
  unfold create_organization. apply respects_bind; [apply _|apply respects_lift; apply _|intros s].
  apply respects_bind; [apply _|apply respects_lift; apply _|intros n].
  apply keeps_transaction. intros d a d' [Hc Ha] H. minv. apply user_get_ok in H as [-> ->].
  destruct (List.find _ _) as [u|]; minv. destruct (negb (u_is_active u)); minv.
  apply get_by_slug_state in H as ->. destruct x as [o|]; minv. apply fresh_id_ok in H as [-> ->].
  repeat match goal with H : catch_integrity _ _ _ = _ |- _ => apply catch_integrity_ok in H; rename H into Hi end.
  match goal with H : MembershipRepository.new _ _ _ _ = _ |- _ => rename H into Hm end.
  pose proof (exec_insert_consistent Organizations _ eq_refl _ _ _ Hi) as K1.
  pose proof (membership_new_consistent _ _ _ _ _ _ Hm) as K2.
  apply exec_insert_ok in Hi as (_ & F1 & T1); [|done].
  apply membership_new_ok in Hm as (Ho & Hr & _ & F2 & T2). cbn [o_id] in Ho.
  split; [apply K2, K1, Hc|]. intros o Hin.
  rewrite (frame_tab_other _ _ _ Organizations F2) in Hin by set_solver.
  rewrite T1 in Hin. apply elem_of_app in Hin as [Hin|Hin].
  - eapply has_admin_app; [|by apply Ha].
    rewrite T2, (frame_tab_other _ _ _ Memberships F1) by set_solver. done.
  - apply list_elem_of_singleton in Hin as ->. eexists. split.
    + rewrite T2. apply elem_of_app. right. by left.
    + by apply is_admin_of_iff.
Qed.

Lemma add_member_keeps ctx i role : keeps_admins (MembershipService.add_member ctx i role).
Proof.
  apply keeps_transaction. intros d a d' [Hc Ha] H. minv. apply authorize_ok in H as (-> & _).
  match goal with H : UserRepository.get _ _ = _ |- _ => apply user_get_ok in H as [-> ->] end.
  match goal with H : MembershipRepository.get _ _ _ = _ |- _ => apply membership_get_ok in H as [_ ->] end.
  case_match; minv. match goal with H : catch_integrity _ _ _ = _ |- _ =>
    apply catch_integrity_ok in H; rename H into Hm end.
  pose proof (membership_new_consistent _ _ _ _ _ _ Hm) as K.
  apply membership_new_ok in Hm as (_ & _ & _ & F & T). split; [by apply K|].
  intros o. rewrite (frame_tab_other _ _ _ Organizations F) by set_solver. intros Hin.
  eapply has_admin_app; [exact T|]. by apply Ha.
Qed.

Lemma change_role_keeps ctx i role : keeps_admins (MembershipService.change_role ctx i role).
Proof.
  apply keeps_transaction. intros d a d' [Hc Ha] H. minv. apply authorize_ok in H as (-> & _).
  match goal with H : MembershipService.require_member _ _ _ = _ |- _ =>
    apply require_member_ok in H as (-> & Hin & Horg & _) end.
  match goal with H : exec_update _ _ _ _ = _ |- _ => rename H into Hu end.
  pose proof (exec_update_consistent Memberships _ _ eq_refl _ _ _ Hu) as K.
  apply exec_update_ok in Hu as (_ & F & T); [|done].
  match goal with H : (if ?b then _ else _) _ = _ |- _ => rename H into Hg end.
  assert (Hstate : x4 = d) by (destruct (_ && _); [by apply ensure_another_admin_ok in Hg as [-> _]|by minv]).
  subst x4. split; [by apply K|]. intros o.
  rewrite (frame_tab_other _ _ _ Organizations F) by set_solver. intros Ho.
  destruct (Ha o Ho) as (m & Hm & Hadm).
  assert (Hkeep : ∀ m', m' ∈ tab d Memberships → m_id m' ≠ m_id x1 → m' ∈ tab x6 Memberships).
  { intros m' Hm' Hne. rewrite T. apply list_elem_of_fmap. exists m'. split; [|done].
    destruct (Z.eqb_spec (m_id m') (m_id x1)); done. }
  destruct (decide (m_id m = m_id x1)) as [Hid|Hne]; [|exists m; auto].
  destruct (decide (role = ADMIN)) as [->|Hrole].
  - exists (MembershipService.with_role ADMIN m). split.
    + rewrite T. apply list_elem_of_fmap. exists m. rewrite Hid, Z.eqb_refl. done.
    + apply is_admin_of_iff in Hadm as [? _]. by apply is_admin_of_iff.
  - assert (m = x1) as -> by (by eapply membership_ids_unique).
    apply is_admin_of_iff in Hadm as [Hoo Hr].
    rewrite bool_decide_eq_true_2, bool_decide_eq_false_2 in Hg by done.
    apply ensure_another_admin_ok in Hg as [_ Hn]. rewrite <-Horg, Hoo in Hn.
    destruct (another_admin d (o_id o) x1 Hc Hn) as (m' & Hm' & Had & Hne). exists m'. auto.
Qed.

Lemma remove_member_keeps ctx i : keeps_admins (MembershipService.remove_member ctx i).
Proof.
  apply keeps_transaction. intros d a d' [Hc Ha] H. minv. apply authorize_ok in H as (-> & _).
  match goal with H : MembershipService.require_member _ _ _ = _ |- _ =>
    apply require_member_ok in H as (-> & Hin & Horg & _) end.
  unfold MembershipRepository.delete in *. minv.
  match goal with H : exec_delete _ _ _ = _ |- _ => rename H into Hd end.
  pose proof (exec_delete_consistent Memberships _ eq_refl _ _ _ Hd) as K.
  apply exec_delete_ok in Hd as (_ & F & T).
  match goal with H : (if ?b then _ else _) _ = _ |- _ => rename H into Hg end.
  assert (Hstate : x4 = d) by (destruct (bool_decide _); [by apply ensure_another_admin_ok in Hg as [-> _]|by minv]).
  subst x4. split; [by apply K|]. intros o.
  rewrite (frame_tab_other _ _ _ Organizations F) by set_solver. intros Ho.
  destruct (Ha o Ho) as (m & Hm & Hadm).
  assert (Hkeep : ∀ m', m' ∈ tab d Memberships → m_id m' ≠ m_id x1 → m' ∈ tab d' Memberships).
  { intros m' Hm' Hne. rewrite T. apply elem_of_where_. split; [|done]. apply negb_true_iff. lia. }
  destruct (decide (m_id m = m_id x1)) as [Hid|Hne]; [|exists m; auto].
  assert (m = x1) as -> by (by eapply membership_ids_unique).
  apply is_admin_of_iff in Hadm as [Hoo Hr]. rewrite bool_decide_eq_true_2 in Hg by done.
  apply ensure_another_admin_ok in Hg as [_ Hn]. rewrite <-Horg, Hoo in Hn.
  destruct (another_admin d (o_id o) x1 Hc Hn) as (m' & Hm' & Had & Hne). exists m'. auto.
Qed.

(** * Reachable account states *)

(** One request: an operation of the account services (whatever it returns), or
    time passing. *)
Inductive account_step `{UD : !UnicodeData} (d : db) : db → Prop :=
  | step_register email name : account_step d (register_user email name d).2
  | step_create name slug creator : account_step d (create_organization name slug creator d).2
  | step_list ctx : account_step d (MembershipService.list_members ctx d).2
  | step_add ctx i role : account_step d (MembershipService.add_member ctx i role d).2
  | step_change ctx i role : account_step d (MembershipService.change_role ctx i role d).2
  | step_remove ctx i : account_step d (MembershipService.remove_member ctx i d).2
  | step_resolve org i : account_step d (resolve_tenant org i d).2
  | step_clock now wall : account_step d (set_clock now wall d).

Lemma list_members_state (R : db → db → Prop) `{!PreOrder R} ctx :
  respects R (MembershipService.list_members ctx).
Proof.
  unfold MembershipService.list_members, MembershipService.authorize,
    MembershipRepository.list_members, OrganizationRepository.lock.
  respects ltac:(first [apply select_respects; apply _ | apply require_permission_state; apply _]).
Qed.

Lemma resolve_tenant_state (R : db → db → Prop) `{!PreOrder R} org i :
  respects R (resolve_tenant org i).
Proof.
  unfold resolve_tenant, UserRepository.get, MembershipRepository.get.
  respects ltac:(apply select_respects; apply _).
Qed.

Lemma account_step_keeps `{UD : !UnicodeData} d d' : account_step d d' → admins_ok d → admins_ok d'.
Proof.
  destruct 1.
  - by apply (respects_snd _ _ d (register_user_keeps _ _)).
  - by apply (respects_snd _ _ d (create_organization_keeps _ _ _)).
  - by apply (respects_snd _ _ d (list_members_state (λ d d', admins_ok d → admins_ok d') _)).
  - by apply (respects_snd _ _ d (add_member_keeps _ _ _)).
  - by apply (respects_snd _ _ d (change_role_keeps _ _ _)).
  - by apply (respects_snd _ _ d (remove_member_keeps _ _)).
  - by apply (respects_snd _ _ d (resolve_tenant_state (λ d d', admins_ok d → admins_ok d') _ _)).
  - intros [Hc Ha]. split; [exact Hc | exact Ha].
Qed.

(** C1. After any sequence of registrations, organization creations and
    membership changes (failed ones included), every organization has a member
    whose role is ADMIN. *)
Theorem every_organization_keeps_an_admin `{UD : !UnicodeData} d org :
  rtc account_step empty_db d → org ∈ tab d Organizations → has_admin (o_id org) d.
Proof.
  intros Hr. assert (Hok : admins_ok d).
  { assert (H0 : admins_ok empty_db).
    { split; [intros t _; done|]. by intros o ?%not_elem_of_nil. }
    revert H0. induction Hr as [|d1 d2 d3 Hs _ IH]; [done|]. intros H1.
    apply IH. by eapply account_step_keeps. }
  by apply Hok.
Qed.

(** A permission check succeeds exactly for an active user with a membership
    of the organization whose current role grants the permission, within the
    scopes of the token; the role it returns is the stored one, never the one in
    the context, and the check changes nothing. *)
Theorem require_permission_spec ctx p role d d' :
  require_permission ctx p d = (Ok role, d') ↔
  d' = d ∧ current_role d (ctx_organization_id ctx) (ctx_user_id ctx) role ∧
  has_permission role p = true ∧ scopes_allow (ctx_scopes ctx) p = true.
Proof. apply require_permission_ok. Qed.
