(* ===== verification/AgentClients.v ===== *)
(** Agent clients: app/services/agent_clients.py.  An ADMIN registers an agent with its
    own service user; the client-credentials exchange gives it a token no wider than its
    row allows.  What [secrets] and [uuid4] draw, and the clock, are arguments. *)

From S2P Require Import Prelude PyStr Json Canonical Regex Validation Access Temporal Database Schema.
From S2P Require Import Calendar Parsing Accounts Secrets Tokens.

Definition AGENT_ROLES : list MembershipRole := [ENGINEER; VIEWER].

(** [Permission] of each stored scope; a text that is none is a ValueError. *)
Definition permissions_of (scopes : list pystr) : result (list Permission) :=
  ps ← mapR permission_of_text scopes; Ok (dict_fromkeys ps).

(** [a <= b] on sets of permissions. *)
Definition subset (a b : list Permission) : bool := forallb (λ p, bool_decide (p ∈ b)) a.

(** [_validate_scopes]: sorted, each one once. *)
Definition validate_scopes (role : MembershipRole) (scopes : list Permission) : result (list Permission) :=
  let requested := dict_fromkeys scopes in
  match requested with
  | [] => Err (ValidationFailedError "an agent needs at least one scope")
  | _ =>
    if subset requested (ROLE_PERMISSIONS role) then Ok (sort_by permission_leb requested)
    else Err (ValidationFailedError "role {role} cannot grant: {excess}")
  end.

Record CreatedAgentClient := { cac_client : agent_client; cac_client_secret : pystr }.
Record IssuedToken := { it_access_token : pystr; it_expires_in : Z; it_scope : pystr }.

Definition by_created_then_name (a b : agent_client) : bool :=
  (ac_created_at a <? ac_created_at b)
  || ((ac_created_at a =? ac_created_at b) && pystr_leb (ac_name a) (ac_name b)).

Definition with_revoked (t : Instant) (c : agent_client) : agent_client :=
  {| ac_id := ac_id c; ac_organization_id := ac_organization_id c; ac_name := ac_name c;
     ac_client_id := ac_client_id c; ac_secret_hash := ac_secret_hash c;
     ac_service_user_id := ac_service_user_id c; ac_allowed_scopes := ac_allowed_scopes c;
     ac_privacy_ceiling := ac_privacy_ceiling c; ac_created_by_user_id := ac_created_by_user_id c;
     ac_revoked_at := Some t; ac_created_at := ac_created_at c |}.

(** What the process draws at random for one client. *)
Record drawn := { dr_id : list Z; dr_secret : list Z; dr_salt : list Z }.

Section agents.
Context `{SC : !Scrypt} `{JW : !Jwt}.

(** The block of [create] inside its transaction. *)
Definition insert_client (ctx : TenantContext) (clean_name : pystr) (agent_role : MembershipRole)
    (allowed : list Permission) (privacy_ceiling : PrivacyScope) (salt : list Z)
    (client_id secret : pystr) : DB agent_client :=
  locked ← OrganizationRepository.lock (ctx_organization_id ctx);
  _ ← guard_ locked NOT_A_MEMBER;
  _ ← require_permission ctx MANAGE_MEMBERS;
  existing ← select AgentClients (λ c, (ac_organization_id c =? ctx_organization_id ctx)
                                       && bool_decide (ac_name c = clean_name));
  _ ← guard_ (match existing with [] => true | _ => false end)
        (ConflictError "an agent client with this name already exists");
  user_id ← fresh_id;
  _ ← exec_insert Users {| u_id := user_id; u_email := client_id ++ py "@agents.contextledger.invalid";
                           u_display_name := take 200 (py "agent: " ++ clean_name); u_is_active := true |};
  _ ← MembershipRepository.new (ctx_organization_id ctx) user_id agent_role;
  secret_hash ← lift (hash_secret salt secret);
  i ← fresh_id;
  now ← gets db_now;
  let client := {| ac_id := i; ac_organization_id := ctx_organization_id ctx; ac_name := clean_name;
    ac_client_id := client_id; ac_secret_hash := secret_hash; ac_service_user_id := user_id;
    ac_allowed_scopes := map permission_text allowed; ac_privacy_ceiling := privacy_ceiling;
    ac_created_by_user_id := ctx_user_id ctx; ac_revoked_at := None; ac_created_at := now |} in
  _ ← exec_insert AgentClients client;
  mret client.

Definition create (ctx : TenantContext) (name : pystr) (role : MembershipRole) (scopes : list Permission)
    (privacy_ceiling : PrivacyScope) (random : drawn) : DB CreatedAgentClient :=
  clean_name ← lift (normalize_name name);
  _ ← guard_ (bool_decide (role ∈ AGENT_ROLES))
        (ValidationFailedError "agents can be ENGINEER or VIEWER, never ADMIN");
  allowed ← lift (validate_scopes role scopes);
  let client_id := new_client_id (dr_id random) in
  let secret := new_client_secret (dr_secret random) in
  client ← transaction
    (insert_client ctx clean_name role allowed privacy_ceiling (dr_salt random) client_id secret);
  mret {| cac_client := client; cac_client_secret := secret |}.

Definition list_clients (ctx : TenantContext) : DB (list agent_client) :=
  transaction (
    _ ← require_permission ctx MANAGE_MEMBERS;
    rows ← select AgentClients (λ c, ac_organization_id c =? ctx_organization_id ctx);
    mret (sort_by by_created_then_name rows)).

(** [revoke]; [now] is the application's clock. *)
Definition revoke (ctx : TenantContext) (agent_client_id : UUID) (now : Instant) : DB agent_client :=
  transaction (
    _ ← require_permission ctx MANAGE_MEMBERS;
    rows ← select AgentClients (λ c, (ac_organization_id c =? ctx_organization_id ctx)
                                     && (ac_id c =? agent_client_id));
    match rows with
    | [] => raise (NotFoundError "agent client not found")
    | client :: _ =>
      match ac_revoked_at client with
      | Some _ => mret client
      | None =>
        _ ← exec_update AgentClients (λ c, ac_id c =? ac_id client) (with_revoked now);
        mret (with_revoked now client)
      end
    end).

(** The scopes granted: those requested, or all that are allowed. *)
Definition granted_scopes (allowed : list Permission) (requested_scope : option pystr) :
    result (list Permission) :=
  match requested_scope with
  | None | Some [] => Ok allowed
  | Some text =>
    match scopes_of_text text with
    | Err ValueError => Err (InvalidScopeError "unknown scope")
    | Err e => Err e
    | Ok requested =>
      if subset requested allowed then Ok requested
      else Err (InvalidScopeError "scope exceeds what this client is allowed")
    end
  end.

(** The exchange after the row is read. *)
Definition issue_for (tokens : TokenService) (client : option agent_client) (client_secret : pystr)
    (requested_scope : option pystr) (salt : list Z) (now : Instant) (token_id : UUID) :
    result IssuedToken :=
  stored ← match client with
           | Some c => Ok (ac_secret_hash c)
           | None => hash_secret salt (py "not-a-secret")
           end;
  correct ← verify_secret client_secret stored;
  match (if correct : bool then client else None) with
  | None => Err (InvalidClientError "invalid client credentials")
  | Some client =>
    _ ← ensure (bool_decide (ac_revoked_at client = None)) (InvalidClientError "client has been revoked");
    allowed ← permissions_of (ac_allowed_scopes client);
    granted ← granted_scopes allowed requested_scope;
    issued ← issue tokens (py "agent:" ++ uuid_str (ac_id client)) (ac_service_user_id client)
               (Some (ac_organization_id client)) (Some granted) (Some (ac_privacy_ceiling client))
               now token_id;
    Ok {| it_access_token := issued.1; it_expires_in := Z.quot (ts_ttl tokens) (10 ^ 6);
          it_scope := scope_list granted |}
  end.

Definition exchange (tokens : TokenService) (client_id client_secret : pystr)
    (requested_scope : option pystr) (salt : list Z) (now : Instant) (token_id : UUID) : DB IssuedToken :=
  rows ← transaction (select AgentClients (λ c, bool_decide (ac_client_id c = client_id)));
  lift (issue_for tokens (head rows) client_secret requested_scope salt now token_id).

Definition is_active (agent_client_id : UUID) : DB bool :=
  rows ← transaction (select AgentClients (λ c, ac_id c =? agent_client_id));
  mret match rows with c :: _ => bool_decide (ac_revoked_at c = None) | [] => false end.

End agents.
