(* ===== verification/FactRepo.v ===== *)
(** Data access for entities, sources, facts and versions (repositories/facts.py)
    and the contradiction rule of app/domain/contradictions.py. *)

From S2P Require Import Prelude PyStr Json Regex Validation Access Temporal History Database.
From S2P Require Import Schema Calendar.

Module FactRepository.

Definition new_source (org : UUID) (name : pystr) (source_type : SourceType) (uri : option pystr)
    (default_authority : Z) : DB fact_source :=
  i ← fresh_id;
  mret {| s_id := i; s_organization_id := org; s_name := name; s_source_type := source_type;
          s_uri := uri; s_default_authority := default_authority |}.

Definition get_source (org source_id : UUID) : DB (option fact_source) :=
  rows ← select FactSources (λ s, (s_organization_id s =? org) && (s_id s =? source_id));
  lift (one_or_none rows).

Definition get_source_by_name (org : UUID) (name : pystr) : DB (option fact_source) :=
  rows ← select FactSources (λ s, (s_organization_id s =? org) && bool_decide (s_name s = name));
  lift (one_or_none rows).

Definition same_entity (org : UUID) (entity_type external_id : pystr) (e : entity) : bool :=
  (e_organization_id e =? org) && bool_decide (e_entity_type e = entity_type)
  && bool_decide (e_external_id e = external_id).

Definition get_or_create_entity (org : UUID) (entity_type external_id : pystr) : DB entity :=
  i ← fresh_id;
  _ ← insert_or_nothing Entities (same_entity org entity_type external_id)
        {| e_id := i; e_organization_id := org; e_entity_type := entity_type;
           e_external_id := external_id |};
  rows ← select Entities (same_entity org entity_type external_id);
  lift (one rows).

Definition same_fact (org entity_id : UUID) (property : pystr) (f : fact) : bool :=
  (f_organization_id f =? org) && (f_entity_id f =? entity_id)
  && bool_decide (f_property f = property).

Definition get_or_create_fact (org entity_id : UUID) (property : pystr) : DB fact :=
  i ← fresh_id;
  _ ← insert_or_nothing Facts (same_fact org entity_id property)
        {| f_id := i; f_organization_id := org; f_entity_id := entity_id; f_property := property |};
  rows ← select Facts (same_fact org entity_id property);
  lift (one rows).

Definition get_fact (org fact_id : UUID) : DB (option fact) :=
  rows ← select Facts (λ f, (f_organization_id f =? org) && (f_id f =? fact_id));
  lift (one_or_none rows).

(** SELECT ... FOR UPDATE; transactions run one after the other here. *)
Definition lock_fact (org fact_id : UUID) : DB unit :=
  _ ← select Facts (λ f, (f_organization_id f =? org) && (f_id f =? fact_id));
  mret ().

Definition of_fact (org fact_id : UUID) (v : fact_version) : bool :=
  (fv_organization_id v =? org) && (fv_fact_id v =? fact_id).

(** ORDER BY version DESC LIMIT 1 *)
Definition latest_version (org fact_id : UUID) : DB (option fact_version) :=
  rows ← select FactVersions (of_fact org fact_id);
  mret (head (sort_by (λ a b, fv_version b <=? fv_version a) rows)).

Definition next_transaction_time (latest : option fact_version) : DB Instant :=
  now ← gets db_wall;
  match latest with
  | Some v => if now <=? fv_recorded_at v then mret (fv_recorded_at v + 1) else mret now
  | None => mret now
  end.

Definition with_end (until at_ : Instant) (v : fact_version) : fact_version := {|
  fv_id := fv_id v; fv_organization_id := fv_organization_id v; fv_fact_id := fv_fact_id v;
  fv_version := fv_version v; fv_value := fv_value v; fv_source_id := fv_source_id v;
  fv_valid_from := fv_valid_from v; fv_valid_until := Some until;
  fv_observed_at := fv_observed_at v; fv_recorded_at := fv_recorded_at v;
  fv_valid_until_recorded_at := Some at_; fv_supersedes_id := fv_supersedes_id v;
  fv_authority := fv_authority v; fv_confidence := fv_confidence v;
  fv_privacy_scope := fv_privacy_scope v |}.

Definition close_version (org : UUID) (v : fact_version) (valid_until recorded_at : Instant) :
    DB unit :=
  exec_update FactVersions
    (λ x, (fv_organization_id x =? org) && (fv_id x =? fv_id v)
          && bool_decide (fv_valid_until x = None))
    (with_end valid_until recorded_at).

Definition new_version (org fact_id : UUID) (version : Z) (value : json) (source_id : UUID)
    (valid_from : Instant) (valid_until : option Instant) (observed_at : Instant)
    (supersedes_id : option UUID) (authority confidence : Z) (privacy_scope : PrivacyScope)
    (recorded_at : Instant) : DB fact_version :=
  i ← fresh_id;
  mret {| fv_id := i; fv_organization_id := org; fv_fact_id := fact_id; fv_version := version;
          fv_value := value; fv_source_id := source_id; fv_valid_from := valid_from;
          fv_valid_until := valid_until; fv_observed_at := observed_at;
          fv_recorded_at := recorded_at;
          fv_valid_until_recorded_at :=
            match valid_until with None => None | Some _ => Some recorded_at end;
          fv_supersedes_id := supersedes_id; fv_authority := authority;
          fv_confidence := confidence; fv_privacy_scope := privacy_scope |}.

Definition get_version (org version_id : UUID) : DB (option fact_version) :=
  rows ← select FactVersions (λ v, (fv_organization_id v =? org) && (fv_id v =? version_id));
  lift (one_or_none rows).

Definition list_versions (org fact_id : UUID) : DB (list fact_version) :=
  rows ← select FactVersions (of_fact org fact_id);
  mret (sort_on fv_version rows).

End FactRepository.

(** [to_snapshot] of services/temporal.py *)
Definition to_snapshot (v : fact_version) : VersionSnapshot := {|
  vs_id := fv_id v; vs_fact_id := fv_fact_id v; vs_version := fv_version v;
  vs_value := fv_value v; vs_source_id := fv_source_id v; vs_valid_from := fv_valid_from v;
  vs_valid_until := fv_valid_until v; vs_observed_at := fv_observed_at v;
  vs_recorded_at := fv_recorded_at v; vs_valid_until_recorded_at := fv_valid_until_recorded_at v;
  vs_supersedes_id := fv_supersedes_id v; vs_authority := fv_authority v;
  vs_confidence := fv_confidence v; vs_privacy_scope := fv_privacy_scope v |}.

(** * The contradiction rule *)

Record VersionFacts := {
  vf_id : UUID; vf_source_id : UUID; vf_value : json; vf_valid_from : Instant;
  vf_valid_until : option Instant; vf_observed_at : Instant; vf_authority : Z;
  vf_confidence : Z }.

Definition RULE_OBSERVED_VALUE_CONFLICT : string := "observed-value-conflict-v1".

(** The reason [new] contradicts [previous], or None. *)
Definition value_conflict (previous new : VersionFacts) : option pystr :=
  if (vf_source_id previous =? vf_source_id new) || py_eqb (vf_value previous) (vf_value new)
  then None
  else if match vf_valid_until previous with
          | Some u => u <=? vf_observed_at previous
          | None => false
          end
  then None
  else if vf_observed_at previous <? vf_valid_from new
  then None
  else Some (py "source " ++ uuid_str (vf_source_id previous) ++ py " observed a different value at "
             ++ utc_iso (vf_observed_at previous) ++ py ", which the new version (valid from "
             ++ utc_iso (vf_valid_from new) ++ py ") also covers").

(** Lexicographic [>] on (authority, confidence, observed_at). *)
Definition preference_gt (a b : VersionFacts) : bool :=
  (vf_authority b <? vf_authority a)
  || ((vf_authority a =? vf_authority b)
      && ((vf_confidence b <? vf_confidence a)
          || ((vf_confidence a =? vf_confidence b) && (vf_observed_at b <? vf_observed_at a)))).

(** [max((a, b), key=...)]: the first of equal keys. *)
Definition preferred (a b : VersionFacts) : UUID := if preference_gt b a then vf_id b else vf_id a.

(** [_rule_view] of services/facts.py *)
Definition rule_view (v : fact_version) : VersionFacts := {|
  vf_id := fv_id v; vf_source_id := fv_source_id v; vf_value := fv_value v;
  vf_valid_from := fv_valid_from v; vf_valid_until := fv_valid_until v;
  vf_observed_at := fv_observed_at v; vf_authority := fv_authority v;
  vf_confidence := fv_confidence v |}.

(** * Lemmas *)

Lemma one_ok {A} (l : list A) x : one l = Ok x → l = [x].
Proof. destruct l as [|y [|z l]]; simpl; congruence. Qed.

Lemma one_or_none_some {A} (l : list A) x : one_or_none l = Ok (Some x) → l = [x].
Proof. destruct l as [|y [|z l]]; simpl; congruence. Qed.

Lemma select_one_or_none t p x d d' :
  (rows ← select t p; lift (one_or_none rows)) d = (Ok (Some x), d') →
  d' = d ∧ p x = true ∧ x ∈ tab d t.
Proof.
  intros H. minv. apply select_ok in H as [-> ->].
  match goal with H : one_or_none _ = _ |- _ => apply one_or_none_some in H; rename H into E end.
  assert (Hx : x ∈ where_ p (tab d t)) by (rewrite E; by left). by apply elem_of_where_ in Hx as [? ?].
Qed.

Lemma get_source_ok org i s d d' :
  FactRepository.get_source org i d = (Ok (Some s), d') →
  d' = d ∧ s ∈ tab d FactSources ∧ s_organization_id s = org ∧ s_id s = i.
Proof.
  intros H. apply (select_one_or_none FactSources) in H as (-> & Hp & Hin).
  split_and!; [done|done|lia|lia].
Qed.

Lemma get_version_ok org i v d d' :
  FactRepository.get_version org i d = (Ok (Some v), d') →
  d' = d ∧ v ∈ tab d FactVersions ∧ fv_organization_id v = org ∧ fv_id v = i.
Proof.
  intros H. apply (select_one_or_none FactVersions) in H as (-> & Hp & Hin).
  split_and!; [done|done|lia|lia].
Qed.

Lemma get_fact_ok org i f d d' :
  FactRepository.get_fact org i d = (Ok (Some f), d') →
  d' = d ∧ f ∈ tab d Facts ∧ f_organization_id f = org ∧ f_id f = i.
Proof.
  intros H. apply (select_one_or_none Facts) in H as (-> & Hp & Hin).
  split_and!; [done|done|lia|lia].
Qed.

Lemma lock_fact_state org i u d d' : FactRepository.lock_fact org i d = (Ok u, d') → d' = d.
Proof. unfold FactRepository.lock_fact. intros H. minv. by apply select_ok in H as [_ ->]. Qed.

Lemma get_or_create_entity_ok org et ext e d d' :
  FactRepository.get_or_create_entity org et ext d = (Ok e, d') →
  frame [Entities] d d' ∧ e ∈ tab d' Entities ∧ e_organization_id e = org ∧
  e_entity_type e = et ∧ e_external_id e = ext ∧
  (tab d' Entities = tab d Entities ∨ tab d' Entities = tab d Entities ++ [e]).
Proof.
  unfold FactRepository.get_or_create_entity. intros H.
  apply st_bind_ok in H as (i & s1 & [-> ->]%fresh_id_ok & H).
  apply st_bind_ok in H as (b & s2 & Hi & H).
  apply st_bind_ok in H as (rows & s3 & [-> ->]%(select_ok Entities) & H).
  apply lift_ok in H as [E%one_ok ->]. cbn [row] in E.
  assert (He : e ∈ where_ (FactRepository.same_entity org et ext) (tab s2 Entities)) by (rewrite E; by left).
  apply elem_of_where_ in He as [Hp He]. pose proof Hp as Hp'.
  unfold FactRepository.same_entity in Hp. rewrite !andb_true_iff, !bool_decide_eq_true in Hp.
  destruct Hp as [[Ho <-] <-].
  apply insert_or_nothing_ok in Hi; [|done].
  destruct Hi as [(_ & -> & _)|(_ & Hno & _ & F & T)].
  - split_and!; try done; [apply frame_bump|lia|by left].
  - split_and!; try done; [eapply frame_trans; [apply frame_bump|done]|lia|].
    right. rewrite T. f_equal. f_equal. rewrite T in He. apply elem_of_app in He as [He|He].
    + exfalso. assert (Hex : exists_row Entities (FactRepository.same_entity org (e_entity_type e) (e_external_id e)) (bump d) = true).
      { apply existsb_exists. exists e. split; [by apply list_elem_of_In|done]. }
      congruence.
    + apply list_elem_of_singleton in He. by symmetry.
Qed.

Lemma get_or_create_fact_ok org ent p f d d' :
  FactRepository.get_or_create_fact org ent p d = (Ok f, d') →
  frame [Facts] d d' ∧ f ∈ tab d' Facts ∧ f_organization_id f = org ∧ f_entity_id f = ent ∧
  f_property f = p ∧
  (tab d' Facts = tab d Facts ∨ tab d' Facts = tab d Facts ++ [f]).
Proof.
  unfold FactRepository.get_or_create_fact. intros H.
  apply st_bind_ok in H as (i & s1 & [-> ->]%fresh_id_ok & H).
  apply st_bind_ok in H as (b & s2 & Hi & H).
  apply st_bind_ok in H as (rows & s3 & [-> ->]%(select_ok Facts) & H).
  apply lift_ok in H as [E%one_ok ->]. cbn [row] in E.
  assert (He : f ∈ where_ (FactRepository.same_fact org ent p) (tab s2 Facts)) by (rewrite E; by left).
  apply elem_of_where_ in He as [Hp He]. pose proof Hp as Hp'.
  unfold FactRepository.same_fact in Hp. rewrite !andb_true_iff, !bool_decide_eq_true in Hp.
  destruct Hp as [[Ho He'] <-].
  apply insert_or_nothing_ok in Hi; [|done].
  destruct Hi as [(_ & -> & _)|(_ & Hno & _ & F & T)].
  - split_and!; try done; [apply frame_bump|lia|lia|by left].
  - split_and!; try done; [eapply frame_trans; [apply frame_bump|done]|lia|lia|].
    right. rewrite T. f_equal. f_equal. rewrite T in He. apply elem_of_app in He as [He|He].
    + exfalso. assert (Hex : exists_row Facts (FactRepository.same_fact org ent (f_property f)) (bump d) = true).
      { apply existsb_exists. exists f. split; [by apply list_elem_of_In|done]. }
      congruence.
    + apply list_elem_of_singleton in He. by symmetry.
Qed.
