(* ===== verification/EvidenceService.v ===== *)
(** Evidence: repositories/evidence.py and services/evidence.py (capture by
    content hash, append-only links, provenance), with [content_hash] of
    domain/evidence.py. *)

From S2P Require Import Prelude PyStr Json Regex Validation Access Temporal History Database.
From S2P Require Import Schema Accounts FactRepo.

(** [hashlib.sha256(bytes).hexdigest()] *)
Class Sha256 := { sha256_hex : list Z → pystr }.

(** Documented behaviour of the digest: 64 lower-case hexadecimal digits. *)
Class Sha256Laws `{Sha256} := {
  sha256_format : ∀ b, sha_hex_ok (sha256_hex b) = true;
}.

Section evidence_service.
Context `{UD : !UnicodeData} `{FR : !FloatRepr} `{SH : !Sha256}.

Definition content_hash (normalized_excerpt : pystr) : result pystr :=
  b ← encode_utf8 normalized_excerpt; Ok (sha256_hex b).

(** ** Repository *)

Definition same_content (org source_id : UUID) (digest : pystr) (e : evidence) : bool :=
  (ev_organization_id e =? org) && (ev_source_id e =? source_id)
  && bool_decide (ev_content_sha256 e = digest).

Definition repo_capture (org source_id : UUID) (evidence_type : EvidenceType) (excerpt digest : pystr)
    (uri : option pystr) (metadata : json) (privacy_scope : PrivacyScope) (captured_at : Instant) :
    DB (evidence * bool) :=
  i ← fresh_id;
  now ← gets db_now;
  inserted ← insert_or_nothing Evidence (same_content org source_id digest)
    {| ev_id := i; ev_organization_id := org; ev_source_id := source_id;
       ev_evidence_type := evidence_type; ev_excerpt := excerpt; ev_content_sha256 := digest;
       ev_uri := uri; ev_metadata := metadata; ev_privacy_scope := privacy_scope;
       ev_captured_at := captured_at; ev_recorded_at := now |};
  rows ← select Evidence (same_content org source_id digest);
  e ← lift (one rows);
  mret (e, inserted).

Definition repo_get (org evidence_id : UUID) : DB (option evidence) :=
  rows ← select Evidence (λ e, (ev_organization_id e =? org) && (ev_id e =? evidence_id));
  lift (one_or_none rows).

Definition repo_get_many (org : UUID) (evidence_ids : list UUID) : DB (list evidence) :=
  select Evidence (λ e, (ev_organization_id e =? org) && bool_decide (ev_id e ∈ evidence_ids)).

Definition link_key (version_id evidence_id : UUID) (l : evidence_link) : bool :=
  (l_fact_version_id l =? version_id) && (l_evidence_id l =? evidence_id).

Definition repo_link (org version_id evidence_id : UUID) (relation : EvidenceRelation)
    (linked_by_user_id : UUID) : DB bool :=
  now ← gets db_now;
  insert_or_nothing EvidenceLinks (link_key version_id evidence_id)
    {| l_organization_id := org; l_fact_version_id := version_id; l_evidence_id := evidence_id;
       l_relation := relation; l_linked_at := now; l_linked_by_user_id := Some linked_by_user_id |}.

Definition repo_get_link (org version_id evidence_id : UUID) : DB (option evidence_link) :=
  rows ← select EvidenceLinks
           (λ l, (l_organization_id l =? org) && link_key version_id evidence_id l);
  lift (one_or_none rows).

(** ORDER BY linked_at, captured_at, id *)
Definition by_link_order (a b : evidence_link * evidence * fact_source) : bool :=
  let '(la, ea, _) := a in
  let '(lb, eb, _) := b in
  (l_linked_at la <? l_linked_at lb)
  || ((l_linked_at la =? l_linked_at lb)
      && ((ev_captured_at ea <? ev_captured_at eb)
          || ((ev_captured_at ea =? ev_captured_at eb) && (ev_id ea <=? ev_id eb)))).

Definition evidence_for_version (org version_id : UUID) :
    DB (list (evidence_link * evidence * fact_source)) :=
  links ← select EvidenceLinks
            (λ l, (l_organization_id l =? org) && (l_fact_version_id l =? version_id));
  evs ← gets (λ d, tab d Evidence);
  sources ← gets (λ d, tab d FactSources);
  let joined := l ← links;
    e ← where_ (λ e, (ev_organization_id e =? l_organization_id l)
                     && (ev_id e =? l_evidence_id l)) evs;
    s ← where_ (λ s, (s_organization_id s =? ev_organization_id e)
                     && (s_id s =? ev_source_id e)) sources;
    [(l, e, s)] in
  mret (sort_by by_link_order joined).

Definition repo_list_sources (org : UUID) : DB (list fact_source) :=
  rows ← select FactSources (λ s, s_organization_id s =? org);
  mret (sort_by (λ a b, pystr_leb (s_name a) (s_name b)) rows).

(** ** link_evidence *)

(** One round of the loop: 1 when a link was created. *)
Definition link_one (ctx : TenantContext) (version_id : UUID) (relation : EvidenceRelation)
    (evidence_id : UUID) : DB Z :=
  existing ← repo_get_link (ctx_organization_id ctx) version_id evidence_id;
  match existing with
  | Some l =>
    if negb (bool_decide (l_relation l = relation))
    then raise (ConflictError "evidence {evidence_id} is already linked as {existing.relation}")
    else mret 0
  | None =>
    inserted ← repo_link (ctx_organization_id ctx) version_id evidence_id relation (ctx_user_id ctx);
    mret (if inserted : bool then 1 else 0)
  end.

Definition sum (l : list Z) : Z := fold_right Z.add 0 l.

Definition link_evidence (ctx : TenantContext) (version_id : UUID) (evidence_ids : list UUID)
    (relation : EvidenceRelation) : DB Z :=
  let unique_ids := dict_fromkeys evidence_ids in
  match unique_ids with
  | [] => mret 0
  | _ =>
    version ← FactRepository.get_version (ctx_organization_id ctx) version_id;
    match version with
    | None => raise (NotFoundError "fact version not found")
    | Some _ =>
      rows ← repo_get_many (ctx_organization_id ctx) unique_ids;
      let found := map ev_id rows in
      if existsb (λ i, negb (bool_decide (i ∈ found))) unique_ids
      then raise (NotFoundError "evidence not found: {missing}")
      else
        created ← mapM_ (link_one ctx version_id relation) unique_ids;
        mret (sum created)
    end
  end.

(** ** EvidenceService *)

Definition capture_evidence (ctx : TenantContext) (source_id : UUID) (evidence_type : EvidenceType)
    (excerpt : pystr) (captured_at : datetime) (uri : option pystr) (metadata : json)
    (privacy_scope : PrivacyScope) : DB (evidence * bool) :=
  normalized ← lift (normalize_excerpt excerpt);
  digest ← lift (content_hash normalized);
  clean_metadata ← lift (validate_metadata metadata);
  clean_uri ← lift (normalize_uri uri);
  at_ ← lift (require_aware captured_at);
  transaction (
    _ ← require_permission ctx WRITE_FACTS;
    source ← FactRepository.get_source (ctx_organization_id ctx) source_id;
    match source with
    | None => raise (NotFoundError "source not found")
    | Some _ =>
      repo_capture (ctx_organization_id ctx) source_id evidence_type normalized digest clean_uri
        clean_metadata privacy_scope at_
    end).

Definition attach (ctx : TenantContext) (version_id evidence_id : UUID)
    (relation : EvidenceRelation) : DB bool :=
  transaction (
    _ ← require_permission ctx WRITE_FACTS;
    created ← link_evidence ctx version_id [evidence_id] relation;
    mret (0 <? created)).

Definition provenance (ctx : TenantContext) (version_id : UUID) :
    DB (VersionSnapshot * fact_source * list (evidence_link * evidence * fact_source)) :=
  transaction (
    _ ← require_permission ctx READ_FACTS;
    version ← FactRepository.get_version (ctx_organization_id ctx) version_id;
    match version with
    | None => raise (NotFoundError "fact version not found")
    | Some v =>
      source ← FactRepository.get_source (ctx_organization_id ctx) (fv_source_id v);
      match source with
      | None => raise (NotFoundError "source not found")
      | Some s =>
        rows ← evidence_for_version (ctx_organization_id ctx) version_id;
        mret (to_snapshot v, s, rows)
      end
    end).

Definition list_sources (ctx : TenantContext) : DB (list fact_source) :=
  transaction (
    _ ← require_permission ctx READ_FACTS;
    repo_list_sources (ctx_organization_id ctx)).

Definition get_source (ctx : TenantContext) (source_id : UUID) : DB fact_source :=
  transaction (
    _ ← require_permission ctx READ_FACTS;
    source ← FactRepository.get_source (ctx_organization_id ctx) source_id;
    match source with
    | None => raise (NotFoundError "source not found")
    | Some s => mret s
    end).

End evidence_service.

(** * What linking does *)

Lemma link_evidence_frame ctx v ids rel :
  respects (frame [EvidenceLinks]) (link_evidence ctx v ids rel).
Proof.
  unfold link_evidence, link_one, repo_get_link, repo_link, FactRepository.get_version, repo_get_many.
  respects ltac:(first [apply select_respects; apply _ | apply insert_or_nothing_frame; [done|by left]]).
Qed.

Lemma link_evidence_consistent ctx v ids rel :
  respects keeps_consistent (link_evidence ctx v ids rel).
Proof.
  unfold link_evidence, link_one, repo_get_link, repo_link, FactRepository.get_version, repo_get_many.
  respects ltac:(first [apply select_respects; apply _ | by apply insert_or_nothing_consistent]).
Qed.
