(* ===== verification/FactService.v ===== *)
(** Recording temporal facts: services/facts.py.  [record_version] is the single
    write path of fact versions. *)

From S2P Require Import Prelude PyStr Json Regex Validation Access Temporal History Database.
From S2P Require Import Schema Accounts FactRepo EvidenceService.

(** The command "source S says entity E's property P has value V from valid_from". *)
Record RecordFactVersion := {
  rc_entity_type : pystr;
  rc_external_id : pystr;
  rc_property : pystr;
  rc_value : json;
  rc_source_id : UUID;
  rc_valid_from : datetime;
  rc_valid_until : option datetime;
  rc_observed_at : option datetime;
  rc_authority : option py_int;
  rc_confidence : option decimal;   (* Decimal(str(confidence)), None if not a number *)
  rc_privacy_scope : PrivacyScope;
  rc_evidence_ids : list UUID;
}.

Section fact_service.
Context `{UD : !UnicodeData} `{FR : !FloatRepr}.

Definition register_source (ctx : TenantContext) (name : pystr) (source_type : SourceType)
    (uri : option pystr) (default_authority : py_int) : DB fact_source :=
  normalized_name ← lift (normalize_name name);
  normalized_uri ← lift (normalize_uri uri);
  authority ← lift (validate_authority default_authority);
  transaction (
    _ ← require_permission ctx WRITE_FACTS;
    existing ← FactRepository.get_source_by_name (ctx_organization_id ctx) normalized_name;
    match existing with
    | Some _ => raise (ConflictError "a source with this name already exists")
    | None =>
      source ← FactRepository.new_source (ctx_organization_id ctx) normalized_name source_type
                 normalized_uri authority;
      _ ← catch_integrity (ConflictError "a source with this name already exists")
            (exec_insert FactSources source);
      mret source
    end).

(** [_detect_value_conflict] *)
Definition detect_value_conflict (ctx : TenantContext) (entity_id : UUID) (previous : fact_version)
    (left : VersionFacts) (new : fact_version) : DB unit :=
  let right := rule_view new in
  match value_conflict left right with
  | None => mret ()
  | Some reason =>
    i ← fresh_id;
    now ← gets db_now;
    exec_insert Contradictions {|
      c_id := i; c_organization_id := ctx_organization_id ctx; c_entity_id := entity_id;
      c_left_version_id := fv_id previous; c_right_version_id := fv_id new;
      c_kind := VALUE_CONFLICT; c_detector := RULE_OBSERVED_VALUE_CONFLICT; c_explanation := reason;
      c_preferred_version_id := Some (preferred left right);
      c_privacy_scope := max_scope (fv_privacy_scope previous) (fv_privacy_scope new);
      c_status := OPEN; c_resolution_note := None; c_resolved_by_user_id := None;
      c_resolved_at := None; c_detected_at := now |}
  end.

(** The plan, from the latest version's window. *)
Definition plan_from (latest : option fact_version) (window : ValidityWindow) : result VersionPlan :=
  match latest with
  | None => plan_new_version None window
  | Some l =>
    previous ← make_window (Aware (fv_valid_from l)) (option_map Aware (fv_valid_until l));
    plan_new_version (Some {| lv_version := fv_version l; lv_window := previous |}) window
  end.

(** Steps 4 to 6 of [record_version]: plan, take the transaction time, close the
    previous version and insert the new one. *)
Definition append_version (org fact_id : UUID) (window : ValidityWindow) (observed_at : Instant)
    (value : json) (source_id : UUID) (authority confidence : Z) (privacy_scope : PrivacyScope) :
    DB (option fact_version * fact_version) :=
  latest ← FactRepository.latest_version org fact_id;
  plan ← lift (plan_from latest window);
  recorded_at ← FactRepository.next_transaction_time latest;
  _ ← match latest, vp_close_previous_at plan with
      | Some l, Some at_ => FactRepository.close_version org l at_ recorded_at
      | _, _ => mret ()
      end;
  v ← FactRepository.new_version org fact_id (vp_version plan) value source_id
        (vw_valid_from window) (vw_valid_until window) observed_at (option_map fv_id latest)
        authority confidence privacy_scope recorded_at;
  _ ← exec_insert FactVersions v;
  mret (latest, v).

Definition record_version (ctx : TenantContext) (command : RecordFactVersion) : DB fact_version :=
  entity_type ← lift (normalize_identifier (rc_entity_type command));
  external_id ← lift (normalize_external_id (rc_external_id command));
  property_name ← lift (normalize_identifier (rc_property command));
  value ← lift (validate_fact_value (rc_value command));
  window ← lift (make_window (rc_valid_from command) (rc_valid_until command));
  observed_at ← lift (require_aware
    match rc_observed_at command with Some o => o | None => rc_valid_from command end);
  confidence ← lift (normalize_confidence (rc_confidence command));
  transaction (
    _ ← require_permission ctx WRITE_FACTS;
    source ← FactRepository.get_source (ctx_organization_id ctx) (rc_source_id command);
    match source with
    | None => raise (NotFoundError "source not found")
    | Some source =>
      authority ← lift (validate_authority
        match rc_authority command with None => PyInt (s_default_authority source) | Some a => a end);
      entity ← FactRepository.get_or_create_entity (ctx_organization_id ctx) entity_type external_id;
      fact ← FactRepository.get_or_create_fact (ctx_organization_id ctx) (e_id entity) property_name;
      _ ← FactRepository.lock_fact (ctx_organization_id ctx) (f_id fact);
      r ← append_version (ctx_organization_id ctx) (f_id fact) window observed_at value
            (s_id source) authority confidence (rc_privacy_scope command);
      let '(latest, v) := r in
      _ ← match latest with
          | Some l => detect_value_conflict ctx (e_id entity) l (rule_view l) v
          | None => mret ()
          end;
      _ ← link_evidence ctx (fv_id v) (rc_evidence_ids command) SUPPORTS;
      mret v
    end).

Definition get_version (ctx : TenantContext) (version_id : UUID) : DB fact_version :=
  transaction (
    _ ← require_permission ctx READ_FACTS;
    version ← FactRepository.get_version (ctx_organization_id ctx) version_id;
    match version with
    | None => raise (NotFoundError "fact version not found")
    | Some v => mret v
    end).

Definition get_fact (ctx : TenantContext) (fact_id : UUID) : DB fact :=
  transaction (
    _ ← require_permission ctx READ_FACTS;
    f ← FactRepository.get_fact (ctx_organization_id ctx) fact_id;
    match f with
    | None => raise (NotFoundError "fact not found")
    | Some f => mret f
    end).

Definition list_versions (ctx : TenantContext) (fact_id : UUID) : DB (list fact_version) :=
  transaction (
    _ ← require_permission ctx READ_FACTS;
    f ← FactRepository.get_fact (ctx_organization_id ctx) fact_id;
    match f with
    | None => raise (NotFoundError "fact not found")
    | Some _ => FactRepository.list_versions (ctx_organization_id ctx) fact_id
    end).

End fact_service.
