(* ===== verification/Ledger.v ===== *)
(** The invariant of the fact ledger: every fact's versions form a well-formed
    chain, and [record_version] keeps it, appending exactly one version. *)

From S2P Require Import Prelude PyStr Json Regex Validation Access Temporal History Database.
From S2P Require Import Schema Accounts FactRepo EvidenceService FactService.

(** The versions of one fact, oldest first. *)
Definition versions_of (fact_id : UUID) (d : db) : list fact_version :=
  where_ (λ v, fv_fact_id v =? fact_id) (tab d FactVersions).

Definition history_of (fact_id : UUID) (d : db) : list VersionSnapshot :=
  map to_snapshot (versions_of fact_id d).

(** A version recorded with a fixed end learned it when it was recorded; any
    other end is set by a later version. *)
Definition settled (l : list VersionSnapshot) : Prop :=
  chain l ∧ ∀ v c, last l = Some v → vs_valid_until_recorded_at v = Some c → c = vs_recorded_at v.

Record ledger_ok (d : db) : Prop := {
  lo_consistent : consistent d;
  lo_fact : ∀ v, v ∈ tab d FactVersions → fk_fact (fv_organization_id v) (fv_fact_id v) d = true;
  lo_chain : ∀ fact_id, settled (history_of fact_id d);
}.

(** * Rows of one fact *)

Lemma compatible_facts a b : compatible Facts a b = Ok () → f_id a ≠ f_id b.
Proof.
  unfold compatible. cbn [pair_checks fact_pair checks uq]. intros H E. rewrite E in H.
  by rewrite Z.eqb_refl in H.
Qed.

Lemma compatible_versions a b : compatible FactVersions a b = Ok () → fv_id a ≠ fv_id b.
Proof.
  unfold compatible. cbn [pair_checks fact_version_pair checks]. intros H E. rewrite E in H.
  by rewrite Z.eqb_refl in H.
Qed.

Lemma consistent_sorted t (R : row t → row t → Prop) d :
  (∀ a b, compatible t a b = Ok () → R a b) → outbox t = false → consistent d →
  StronglySorted R (tab d t).
Proof.
  intros HR Ht Hc. eapply StronglySorted_mono; [exact HR|]. by apply (for_pairs_ok (compatible t)), Hc.
Qed.

Lemma fact_ids_unique d f g :
  consistent d → f ∈ tab d Facts → g ∈ tab d Facts → f_id f = f_id g → f = g.
Proof.
  intros Hc. apply (sorted_distinct_inj f_id).
  by apply (consistent_sorted Facts _ d compatible_facts).
Qed.

Lemma version_ids_unique d v w :
  consistent d → v ∈ tab d FactVersions → w ∈ tab d FactVersions → fv_id v = fv_id w → v = w.
Proof.
  intros Hc. apply (sorted_distinct_inj fv_id).
  by apply (consistent_sorted FactVersions _ d compatible_versions).
Qed.

(** The tenant filter changes nothing for a fact of the tenant. *)
Lemma of_fact_versions d f :
  ledger_ok d → f ∈ tab d Facts →
  where_ (FactRepository.of_fact (f_organization_id f) (f_id f)) (tab d FactVersions)
  = versions_of (f_id f) d.
Proof.
  intros H Hf. apply where_ext. intros v Hv. unfold FactRepository.of_fact.
  destruct (Z.eqb_spec (fv_fact_id v) (f_id f)) as [E|]; [|by rewrite andb_false_r].
  rewrite andb_true_r. apply Z.eqb_eq.
  destruct (proj1 (exists_row_spec Facts _ d) (lo_fact d H v Hv)) as (g & Hg & Hp).
  assert (g = f) as -> by (apply (fact_ids_unique d); [apply H|done|done|lia]). lia.
Qed.

(** ** The latest version *)

Lemma insert_by_last {A} (key : A → Z) x l :
  (∀ y, y ∈ l → key x < key y) → insert_by (λ a b, key b <=? key a) x l = l ++ [x].
Proof.
  induction l as [|y l IH]; intros Hl; simpl; [done|].
  assert (key x < key y) by (apply Hl; by left).
  destruct (Z.leb_spec (key y) (key x)); [lia|]. f_equal. apply IH. intros z Hz. apply Hl. by right.
Qed.

Lemma sort_desc_reverse {A} (key : A → Z) l :
  StronglySorted (λ a b, key a < key b) l → sort_by (λ a b, key b <=? key a) l = reverse l.
Proof.
  induction 1 as [|x l Hl IH Hx]; simpl; [done|].
  rewrite IH, reverse_cons. apply insert_by_last. intros y Hy. rewrite elem_of_reverse in Hy.
  rewrite Forall_forall in Hx. by apply Hx.
Qed.

Lemma history_versions_sorted l :
  chain (map to_snapshot l) → StronglySorted (λ a b, fv_version a < fv_version b) l.
Proof.
  intros H%chain_sorted. induction l as [|v l IH]; [constructor|].
  simpl in H. apply StronglySorted_inv in H as [Hl Hv]. constructor; [auto|].
  rewrite Forall_fmap in Hv. eapply Forall_impl; [exact Hv|]. intros w (Hw & _). exact Hw.
Qed.

Lemma head_reverse {A} (l : list A) : head (reverse l) = last l.
Proof. rewrite <-(reverse_involutive l) at 2. by rewrite last_reverse. Qed.

Lemma latest_version_ok d f latest d' :
  ledger_ok d → f ∈ tab d Facts →
  FactRepository.latest_version (f_organization_id f) (f_id f) d = (Ok latest, d') →
  d' = d ∧ latest = last (versions_of (f_id f) d).
Proof.
  intros H Hf Hl. unfold FactRepository.latest_version in Hl. minv.
  match goal with H : select _ _ _ = _ |- _ => apply (select_ok FactVersions) in H as [-> ->] end.
  split; [done|]. cbn [row]. rewrite (of_fact_versions d f H Hf).
  rewrite sort_desc_reverse; [apply head_reverse|]. apply history_versions_sorted, (lo_chain d H).
Qed.

Lemma next_transaction_time_ok latest r d d' :
  FactRepository.next_transaction_time latest d = (Ok r, d') →
  d' = d ∧ (∀ l, latest = Some l → fv_recorded_at l < r).
Proof.
  unfold FactRepository.next_transaction_time. intros H. minv. destruct latest as [l|]; [|minv; done].
  destruct (Z.leb_spec (db_wall d) (fv_recorded_at l)); minv; (split; [done|]);
    intros l' [= <-]; lia.
Qed.

(** Read: the plan is made from a stored window that is already well formed. *)
Lemma plan_from_some l window plan :
  plan_from (Some l) window = Ok plan →
  vp_version plan = fv_version l + 1 ∧ fv_valid_from l < vw_valid_from window ∧
  match fv_valid_until l with
  | None => vp_close_previous_at plan = Some (vw_valid_from window)
  | Some u => u ≤ vw_valid_from window ∧ vp_close_previous_at plan = None
  end.
Proof.
  unfold plan_from. intros H. apply result_bind_ok in H as (w & Hw & H).
  assert (Ew : vw_valid_from w = fv_valid_from l ∧ vw_valid_until w = fv_valid_until l).
  { unfold make_window in Hw. destruct (fv_valid_until l) as [u|]; cbn in Hw.
    - destruct (u <=? fv_valid_from l); [done|]. by injection Hw as <-.
    - by injection Hw as <-. }
  destruct Ew as [Ef Eu]. unfold plan_new_version in H. cbn [lv_window lv_version] in H.
  rewrite Ef, Eu in H.
  destruct (Z.leb_spec (vw_valid_from window) (fv_valid_from l)); [done|].
  destruct (fv_valid_until l) as [u|].
  - destruct (Z.ltb_spec (vw_valid_from window) u); [done|]. injection H as <-. cbn. split_and!; done || lia.
  - injection H as <-. cbn. done.
Qed.

Lemma plan_from_none window plan :
  plan_from None window = Ok plan → vp_version plan = 1 ∧ vp_close_previous_at plan = None.
Proof. unfold plan_from, plan_new_version. intros H. by injection H as <-. Qed.

Lemma last_snoc_inv {A} (l : list A) x : last l = Some x → ∃ k, l = k ++ [x].
Proof.
  destruct l as [|y l _] using rev_ind; [done|]. rewrite last_snoc. intros [= ->]. by exists l.
Qed.

(** * Appending a version *)

(** What closing the previous version does to a row. *)
Definition closing (org : UUID) (latest : option fact_version) (at_ : option Instant)
    (recorded_at : Instant) (x : fact_version) : fact_version :=
  match latest, at_ with
  | Some l, Some t =>
    if (fv_organization_id x =? org) && (fv_id x =? fv_id l) && bool_decide (fv_valid_until x = None)
    then FactRepository.with_end t recorded_at x else x
  | _, _ => x
  end.

Lemma closing_fact org latest at_ r x : fv_fact_id (closing org latest at_ r x) = fv_fact_id x.
Proof. unfold closing. destruct latest; [|done]. destruct at_; [|done]. by case_match. Qed.

Lemma closing_org org latest at_ r x :
  fv_organization_id (closing org latest at_ r x) = fv_organization_id x.
Proof. unfold closing. destruct latest; [|done]. destruct at_; [|done]. by case_match. Qed.

Lemma closing_other org l at_ r x : fv_id x ≠ fv_id l → closing org (Some l) at_ r x = x.
Proof.
  intros Hne. unfold closing. destruct at_; [|done].
  destruct (Z.eqb_spec (fv_id x) (fv_id l)); [done|]. by rewrite andb_false_r.
Qed.

(** The effect of one successful [append_version] on a fact of its tenant. *)
Record appended (f : fact) (window : ValidityWindow) (d : db) (latest : option fact_version)
    (v : fact_version) (d' : db) : Prop := {
  ap_latest : latest = last (versions_of (f_id f) d);
  ap_org : fv_organization_id v = f_organization_id f;
  ap_fact : fv_fact_id v = f_id f;
  ap_from : fv_valid_from v = vw_valid_from window;
  ap_until : fv_valid_until v = vw_valid_until window;
  ap_until_rec : fv_valid_until_recorded_at v
                 = option_map (λ _, fv_recorded_at v) (fv_valid_until v);
  ap_supersedes : fv_supersedes_id v = option_map fv_id latest;
  ap_recorded : ∀ l, latest = Some l → fv_recorded_at l < fv_recorded_at v;
  ap_plan : ∃ plan, plan_from latest window = Ok plan ∧ fv_version v = vp_version plan ∧
    tab d' FactVersions
    = map (closing (f_organization_id f) latest (vp_close_previous_at plan) (fv_recorded_at v))
        (tab d FactVersions) ++ [v];
  ap_ordered : before_end (fv_valid_from v) (fv_valid_until v) = true;
  ap_frame : frame [FactVersions] d d';
  ap_consistent : consistent d';
}.

Lemma closing_step org latest at_ r u d d' :
  match latest, at_ with
  | Some l, Some t => FactRepository.close_version org l t r
  | _, _ => mret ()
  end d = (Ok u, d') →
  frame [FactVersions] d d' ∧ keeps_consistent d d' ∧
  tab d' FactVersions = map (closing org latest at_ r) (tab d FactVersions).
Proof.
  unfold closing. destruct latest as [l|]; [destruct at_ as [t|]|]; intros H;
    [|minv; split_and!; [apply frame_refl|by intros ?|symmetry; apply map_id]..].
  unfold FactRepository.close_version in H.
  pose proof (exec_update_consistent FactVersions _ _ eq_refl _ _ _ H) as K.
  apply exec_update_ok in H as (_ & F & T); [|done]. split_and!; [done|done|].
  rewrite T. apply map_ext. intros x. done.
Qed.

Lemma insert_checks_version v d :
  insert_checks FactVersions v d = Ok () → before_end (fv_valid_from v) (fv_valid_until v) = true.
Proof.
  intros [H _]%insert_checks_ok. apply checks_ok in H.
  cbn [row_checks] in H. unfold fact_version_checks in H. rewrite !Forall_cons in H. cbn [fst] in H. tauto.
Qed.

Lemma append_version_ok f window observed value source authority confidence scope d latest v d' :
  ledger_ok d → f ∈ tab d Facts →
  append_version (f_organization_id f) (f_id f) window observed value source authority confidence
    scope d = (Ok (latest, v), d') →
  appended f window d latest v d' ∧ fv_value v = value ∧ fv_source_id v = source ∧
  fv_observed_at v = observed ∧ fv_authority v = authority ∧ fv_confidence v = confidence ∧
  fv_privacy_scope v = scope.
Proof.
  intros Hl Hf H. unfold append_version in H.
  apply st_bind_ok in H as (lt & s1 & H1 & H).
  apply latest_version_ok in H1 as [-> Elt]; [|done|done].
  apply st_bind_ok in H as (plan & s2 & [Hp ->]%lift_ok & H).
  apply st_bind_ok in H as (rec & s3 & Hrec & H).
  apply next_transaction_time_ok in Hrec as [-> Hrec].
  apply st_bind_ok in H as (u & s4 & Hc & H).
  apply closing_step in Hc as (F1 & K1 & T1).
  apply st_bind_ok in H as (v' & s5 & Hn & H).
  unfold FactRepository.new_version in Hn. minv.
  match goal with H : fresh_id _ = _ |- _ => apply fresh_id_ok in H as [-> ->] end.
  match goal with H : exec_insert _ _ _ = _ |- _ => rename H into Hi end.
  pose proof (exec_insert_consistent FactVersions _ eq_refl _ _ _ Hi) as K2.
  apply exec_insert_ok in Hi as (Hck & F2 & T2); [|done].
  assert (F0 : frame [FactVersions] s4 (bump s4)) by apply frame_bump.
  split; [|done]. split; try done.
  - exists plan. split_and!; [done|done|]. rewrite T2. cbn [tab bump]. by rewrite T1.
  - exact (insert_checks_version _ _ Hck).
  - by eapply frame_trans, frame_trans.
  - apply K2. intros t Ht. apply (K1 (lo_consistent d Hl) t Ht).
Qed.

(** The history of the fact afterwards, and of every other fact. *)
Lemma appended_histories f window d latest v d' :
  ledger_ok d → f ∈ tab d Facts → appended f window d latest v d' →
  (∀ g, g ≠ f_id f → versions_of g d' = versions_of g d) ∧
  match latest with
  | None => versions_of (f_id f) d = [] ∧ versions_of (f_id f) d' = [v]
  | Some l => ∃ k l', versions_of (f_id f) d = k ++ [l] ∧ versions_of (f_id f) d' = k ++ [l'; v] ∧
      (fv_valid_until l = None ∧ l' = FactRepository.with_end (fv_valid_from v) (fv_recorded_at v) l
       ∨ fv_valid_until l ≠ None ∧ l' = l)
  end.
Proof.
  intros Hl Hf A. destruct (ap_plan _ _ _ _ _ _ A) as (plan & Hp & Hv & T).
  set (c := closing (f_organization_id f) latest (vp_close_previous_at plan) (fv_recorded_at v)) in T.
  assert (Hsplit : ∀ g, versions_of g d'
    = map c (versions_of g d) ++ (if f_id f =? g then [v] else [])).
  { intros g. unfold versions_of. rewrite T, where_app, where_map.
    cbn [where_ List.filter]. rewrite (ap_fact _ _ _ _ _ _ A). f_equal. f_equal.
    apply where_ext. intros x _. subst c. by rewrite closing_fact. }
  assert (Hlin : ∀ l, latest = Some l → l ∈ tab d FactVersions ∧ fv_fact_id l = f_id f).
  { intros l Hlat. rewrite (ap_latest _ _ _ _ _ _ A) in Hlat.
    apply last_snoc_inv in Hlat as [k Hk].
    assert (Hin : l ∈ versions_of (f_id f) d) by (rewrite Hk; set_solver).
    apply elem_of_where_ in Hin as [? ?]. split; [done|lia]. }
  assert (Hid : ∀ x, x ∈ tab d FactVersions → (∀ l, latest = Some l → x ≠ l) → c x = x).
  { intros x Hx Hne. subst c. destruct latest as [l|]; [|done]. apply closing_other. intros E.
    apply (Hne l eq_refl). eapply version_ids_unique; [apply Hl|done|by apply Hlin|done]. }
  split.
  { intros g Hg. rewrite Hsplit. destruct (Z.eqb_spec (f_id f) g); [congruence|].
    rewrite app_nil_r. apply map_id_in.
    intros x [? ?]%elem_of_where_. apply Hid; [done|].
    intros l Hlat ->. destruct (Hlin l Hlat). lia. }
  pose proof (Hsplit (f_id f)) as Hf'. rewrite Z.eqb_refl in Hf'.
  pose proof (ap_latest _ _ _ _ _ _ A) as Hlat. destruct latest as [l|].
  - symmetry in Hlat. apply last_snoc_inv in Hlat as [k Hk]. exists k, (c l).
    split; [done|]. split.
    + rewrite Hf', Hk, map_app, <-app_assoc. f_equal. apply map_id_in.
      intros x Hx. apply Hid.
      * assert (Hin : x ∈ versions_of (f_id f) d) by (rewrite Hk; set_solver).
        by apply elem_of_where_ in Hin as [_ ?].
      * intros l' [= <-] ->.
        pose proof (history_versions_sorted _ (proj1 (lo_chain d Hl (f_id f)))) as Hs.
        rewrite Hk in Hs. apply StronglySorted_snoc in Hs as [_ Hs].
        rewrite Forall_forall in Hs. specialize (Hs _ Hx). lia.
    + apply plan_from_some in Hp as (_ & _ & Hp). destruct (Hlin l eq_refl) as [Hin _].
      assert (Hlorg : fv_organization_id l = f_organization_id f).
      { destruct (proj1 (exists_row_spec Facts _ d) (lo_fact d Hl l Hin)) as (g & Hg & Hgp).
        assert (g = f) as -> by (apply (fact_ids_unique d); [apply Hl|done|done|]; destruct (Hlin l eq_refl); lia).
        lia. }
      subst c. unfold closing. destruct (fv_valid_until l) as [u|] eqn:Eu.
      * right. split; [done|]. by destruct Hp as [_ ->].
      * left. split; [done|]. rewrite Hp, Hlorg, !Z.eqb_refl. cbn.
        by rewrite (ap_from _ _ _ _ _ _ A).
  - symmetry in Hlat. assert (Hn : versions_of (f_id f) d = []).
    { destruct (versions_of (f_id f) d) as [|y l _] using rev_ind; [done|].
      by rewrite last_snoc in Hlat. }
    split; [done|]. by rewrite Hf', Hn.
Qed.

(** * The chain after appending *)

Lemma history_last l v k : map to_snapshot (k ++ [v]) = l → last l = Some (to_snapshot v).
Proof. intros <-. rewrite map_app. apply last_snoc. Qed.

Lemma well_ended_new v :
  fv_valid_until_recorded_at v = option_map (λ _, fv_recorded_at v) (fv_valid_until v) →
  before_end (fv_valid_from v) (fv_valid_until v) = true → well_ended (to_snapshot v).
Proof.
  unfold well_ended, before_end. cbn. intros ->. destruct (fv_valid_until v); simpl; [lia|done].
Qed.

Lemma settled_of_last l v :
  chain (l ++ [to_snapshot v]) →
  fv_valid_until_recorded_at v = option_map (λ _, fv_recorded_at v) (fv_valid_until v) →
  settled (l ++ [to_snapshot v]).
Proof.
  intros Hc Hr. split; [done|]. intros w c. rewrite last_snoc. intros [= <-]. cbn. rewrite Hr.
  destruct (fv_valid_until v); simpl; congruence.
Qed.

Lemma appended_settled f window d latest v d' :
  ledger_ok d → f ∈ tab d Facts → appended f window d latest v d' →
  settled (history_of (f_id f) d').
Proof.
  intros Hl Hf A. pose proof (appended_histories _ _ _ _ _ _ Hl Hf A) as [_ Hh].
  destruct (ap_plan _ _ _ _ _ _ A) as (plan & Hp & Hv & _).
  assert (Hwe : well_ended (to_snapshot v))
    by (apply well_ended_new; [apply (ap_until_rec _ _ _ _ _ _ A)|apply (ap_ordered _ _ _ _ _ _ A)]).
  pose proof (ap_until_rec _ _ _ _ _ _ A) as Hur. pose proof (ap_supersedes _ _ _ _ _ _ A) as Hsup.
  unfold history_of. destruct latest as [l|].
  - destruct Hh as (k & l' & Hold & Hnew & Hcase). rewrite Hnew.
    apply plan_from_some in Hp as (Hver & Hfrom & Hplan).
    pose proof (ap_recorded _ _ _ _ _ _ A l eq_refl) as Hrec.
    pose proof (ap_from _ _ _ _ _ _ A) as Hvf.
    destruct (lo_chain d Hl (f_id f)) as [Hch Hset]. unfold history_of in Hch, Hset.
    rewrite Hold, map_app in Hch, Hset. cbn [map] in Hch, Hset.
    replace (map to_snapshot (k ++ [l'; v]))
      with ((map to_snapshot k ++ [to_snapshot l']) ++ [to_snapshot v])
      by (rewrite map_app, <-app_assoc; done).
    apply settled_of_last; [|done]. rewrite <-app_assoc.
    assert (Hsup' : vs_supersedes_id (to_snapshot v) = Some (vs_id (to_snapshot l'))
      ∧ vs_version (to_snapshot v) = vs_version (to_snapshot l') + 1)
      by (destruct Hcase as [[_ ->]|[_ ->]]; cbn; rewrite Hsup, Hv; done).
    destruct Hsup' as [Hs1 Hs2].
    destruct Hcase as [[Hopen ->]|[Hend ->]]; apply chain_snoc; try done.
    + change (to_snapshot (FactRepository.with_end (fv_valid_from v) (fv_recorded_at v) l))
        with (closed_at (to_snapshot l) (fv_valid_from v) (fv_recorded_at v)).
      apply chain_close_last; [done|cbn; lia|cbn; lia].
    + unfold precedes. cbn. split_and!; [lia|lia|lia|]. do 2 eexists. split_and!; [done|done|lia|lia].
    + pose proof (chain_ended _ Hch) as He. rewrite Forall_app, Forall_singleton in He.
      destruct He as [_ He]. unfold well_ended in He. cbn in He.
      destruct (fv_valid_until l) as [u|] eqn:Eu; [|done]. destruct Hplan as [Hu _].
      destruct (fv_valid_until_recorded_at l) as [c|] eqn:Ec; [|done].
      assert (c = fv_recorded_at l) as -> by (apply (Hset (to_snapshot l)); [apply last_snoc|done]).
      unfold precedes. cbn. split_and!; [lia|lia|lia|]. exists u, (fv_recorded_at l).
      split_and!; [done|done|lia|lia].
  - destruct Hh as [_ ->]. apply plan_from_none in Hp as [Hp _].
    apply (settled_of_last []); [|done]. apply chain_single; [cbn; congruence|done|done].
Qed.

Lemma appended_ledger_ok f window d latest v d' :
  ledger_ok d → f ∈ tab d Facts → appended f window d latest v d' → ledger_ok d'.
Proof.
  intros Hl Hf A. pose proof (appended_histories _ _ _ _ _ _ Hl Hf A) as [Ho _].
  pose proof (ap_frame _ _ _ _ _ _ A) as F.
  assert (Efacts : tab d' Facts = tab d Facts) by (apply (frame_tab_other _ _ _ _ F); [done|set_solver]).
  split.
  - apply (ap_consistent _ _ _ _ _ _ A).
  - intros w Hw. destruct (ap_plan _ _ _ _ _ _ A) as (plan & _ & _ & T).
    rewrite T in Hw. unfold fk_fact. apply exists_row_spec. rewrite Efacts.
    apply elem_of_app in Hw as [(x & -> & Hx)%list_elem_of_fmap|Hw].
    + rewrite closing_org, closing_fact. apply (exists_row_spec Facts), (lo_fact d Hl x Hx).
    + apply list_elem_of_singleton in Hw as ->. exists f. split; [done|].
      rewrite (ap_org _ _ _ _ _ _ A), (ap_fact _ _ _ _ _ _ A). lia.
  - intros g. destruct (decide (g = f_id f)) as [->|Hg].
    + by eapply appended_settled.
    + unfold history_of. rewrite Ho by done. apply (lo_chain d Hl g).
Qed.

(** Changes elsewhere keep the ledger. *)
Lemma ledger_ok_mono d d' :
  ledger_ok d → consistent d' → tab d' FactVersions = tab d FactVersions → grows Facts d d' →
  ledger_ok d'.
Proof.
  intros Hl Hc Hv [l Hg]. split; [done| |].
  - intros w Hw. rewrite Hv in Hw. apply exists_row_spec.
    destruct (proj1 (exists_row_spec Facts _ d) (lo_fact d Hl w Hw)) as (g & Hin & Hp).
    exists g. split; [|done]. rewrite Hg. apply elem_of_app. by left.
  - intros g. unfold history_of, versions_of. rewrite Hv. apply (lo_chain d Hl g).
Qed.

Lemma ledger_ok_frame ts d d' :
  frame ts d d' → keeps_consistent d d' → FactVersions ∉ ts → Facts ∉ ts →
  ledger_ok d → ledger_ok d'.
Proof.
  intros F K Hv Hf Hl. apply (ledger_ok_mono d); [done|apply K, Hl| |].
  - by apply (frame_tab_other _ _ _ _ F).
  - by apply (grows_frame _ _ _ _ F).
Qed.

Lemma empty_ledger_ok : ledger_ok empty_db.
Proof.
  split; [intros t _; done|by intros v ?%not_elem_of_nil|].
  intros g. split; [apply chain_nil|done].
Qed.

(** * record_version *)

Lemma get_or_create_entity_consistent org et ext :
  respects keeps_consistent (FactRepository.get_or_create_entity org et ext).
Proof.
  unfold FactRepository.get_or_create_entity.
  respects ltac:(first [apply fresh_id_consistent | apply select_respects; apply _
                       | by apply insert_or_nothing_consistent]).
Qed.

Lemma get_or_create_fact_consistent org e p :
  respects keeps_consistent (FactRepository.get_or_create_fact org e p).
Proof.
  unfold FactRepository.get_or_create_fact.
  respects ltac:(first [apply fresh_id_consistent | apply select_respects; apply _
                       | by apply insert_or_nothing_consistent]).
Qed.

Lemma detect_frame ctx e p left new :
  respects (frame [Contradictions]) (detect_value_conflict ctx e p left new).
Proof.
  unfold detect_value_conflict.
  respects ltac:(first [apply fresh_id_frame | apply exec_insert_frame; [done|by left]]).
Qed.

Lemma detect_consistent ctx e p left new :
  respects keeps_consistent (detect_value_conflict ctx e p left new).
Proof.
  unfold detect_value_conflict.
  respects ltac:(first [apply fresh_id_consistent | by apply exec_insert_consistent]).
Qed.

(** The trace of a successful [record_version]: the fact it appended to, the
    store just before and just after appending, and the store it leaves. *)
Lemma record_version_trace `{UD : !UnicodeData} `{FR : !FloatRepr} ctx cmd d v d' :
  ledger_ok d → record_version ctx cmd d = (Ok v, d') →
  ∃ f window latest d1 d2,
    make_window (rc_valid_from cmd) (rc_valid_until cmd) = Ok window ∧
    f_organization_id f = ctx_organization_id ctx ∧ f ∈ tab d1 Facts ∧
    frame [Entities; Facts] d d1 ∧ ledger_ok d1 ∧
    appended f window d1 latest v d2 ∧
    frame [Contradictions; EvidenceLinks] d2 d' ∧ ledger_ok d' ∧
    fv_value v = rc_value cmd ∧ fv_source_id v = rc_source_id cmd ∧
    fv_privacy_scope v = rc_privacy_scope cmd ∧
    (∃ role, current_role d (ctx_organization_id ctx) (ctx_user_id ctx) role ∧
             has_permission role WRITE_FACTS = true ∧ scopes_allow (ctx_scopes ctx) WRITE_FACTS = true) ∧
    (∃ e, e ∈ tab d1 Entities ∧ e_id e = f_entity_id f ∧
          normalize_identifier (rc_entity_type cmd) = Ok (e_entity_type e) ∧
          normalize_external_id (rc_external_id cmd) = Ok (e_external_id e)) ∧
    normalize_identifier (rc_property cmd) = Ok (f_property f).
Proof.
  intros Hl H. unfold record_version in H.
  apply st_bind_ok in H as (et & ? & [Het ->]%lift_ok & H).
  apply st_bind_ok in H as (ext & ? & [Hext ->]%lift_ok & H).
  apply st_bind_ok in H as (prop & ? & [Hprop ->]%lift_ok & H).
  apply st_bind_ok in H as (val & ? & [Hval ->]%lift_ok & H).
  apply st_bind_ok in H as (window & ? & [Hw ->]%lift_ok & H).
  apply st_bind_ok in H as (obs & ? & [Hobs ->]%lift_ok & H).
  apply st_bind_ok in H as (conf & ? & [Hconf ->]%lift_ok & H).
  apply (proj1 (transaction_ok _ _ _ _)) in H.
  apply st_bind_ok in H as (role & ? & (-> & Hrole)%require_permission_ok & H).
  apply st_bind_ok in H as (src & s1 & Hsrc & H).
  destruct src as [src|]; [|by minv]. apply get_source_ok in Hsrc as (-> & Hsrc & _ & Hsid).
  apply st_bind_ok in H as (auth & ? & [Hauth ->]%lift_ok & H).
  apply st_bind_ok in H as (e & s2 & He & H).
  apply st_bind_ok in H as (f & s3 & Hf & H).
  apply st_bind_ok in H as (u & s4 & ->%lock_fact_state & H).
  apply st_bind_ok in H as ([latest v'] & s5 & Ha & H).
  apply st_bind_ok in H as (u1 & s6 & Hd & H).
  apply st_bind_ok in H as (n & s7 & Hk & H). minv.
  pose proof (get_or_create_entity_consistent _ _ _ _ _ _ He) as K1.
  pose proof (get_or_create_fact_consistent _ _ _ _ _ _ Hf) as K2.
  apply get_or_create_entity_ok in He as (F1 & Hein & _ & Het' & Hext' & _).
  apply get_or_create_fact_ok in Hf as (F2 & Hfin & Hforg & Hfe & Hfp & Hgrow).
  assert (L1 : ledger_ok s2) by (by eapply (ledger_ok_frame [Entities]); [exact F1|exact K1|set_solver|set_solver|]).
  assert (L2 : ledger_ok s3).
  { apply (ledger_ok_mono s2); [done|apply K2, L1| |].
    - apply (frame_tab_other _ _ _ _ F2); [done|set_solver].
    - destruct Hgrow as [E|E]; [exists []; by rewrite app_nil_r|by eexists]. }
  rewrite <-Hforg in Ha. apply append_version_ok in Ha as (A & Hvv & Hvs & _ & _ & _ & Hvp); [|done|done].
  assert (L3 : ledger_ok s5) by (by eapply appended_ledger_ok).
  assert (FK : frame [Contradictions] s5 s6 ∧ keeps_consistent s5 s6).
  { destruct latest as [l|]; [|minv; split; [apply frame_refl|by intros ?]].
    split; [by eapply detect_frame|by eapply detect_consistent]. }
  destruct FK as [F3 K3].
  pose proof (link_evidence_frame _ _ _ _ _ _ _ Hk) as F4.
  pose proof (link_evidence_consistent _ _ _ _ _ _ _ Hk) as K4.
  assert (F5 : frame [Contradictions; EvidenceLinks] s5 s7)
    by (eapply frame_trans; (eapply frame_weaken; [|eassumption]); set_solver).
  assert (L4 : ledger_ok s7).
  { eapply ledger_ok_frame; [exact F5|intros C; apply K4, K3, C|set_solver|set_solver|done]. }
  apply validate_fact_value_ok in Hval as [-> _].
  exists f, window, latest, s3, s5. split_and!; try done.
  - eapply frame_trans; (eapply frame_weaken; [|eassumption]); set_solver.
  - congruence.
  - by exists role.
  - exists e. split_and!; [|done|congruence|congruence].
    rewrite (frame_tab_other _ _ _ Entities F2); [done|done|set_solver].
  - congruence.
Qed.

Lemma record_version_keeps `{UD : !UnicodeData} `{FR : !FloatRepr} ctx cmd :
  respects (λ d d', ledger_ok d → ledger_ok d') (record_version ctx cmd).
Proof.
  intros d r d' H Hl. destruct r as [v|e].
  - apply record_version_trace in H as (f & w & lt & d1 & d2 & _ & _ & _ & _ & _ & _ & _ & Hok & _); done.
  - unfold record_version in H.
    repeat (apply st_bind_err in H as [H|(? & ? & [_ ->]%lift_ok & H)];
      [unfold lift in H; injection H as _ <-; done|]).
    by apply transaction_err in H as [_ ->].
Qed.

(** * The other operations do not touch the ledger's histories *)

(** [m] changes only the tables [ts] and keeps their constraints. *)
Definition writes_only (ts : list table) {A} (m : DB A) : Prop :=
  respects (frame ts) m ∧ respects keeps_consistent m.

Lemma writes_only_ledger ts {A} (m : DB A) :
  writes_only ts m → FactVersions ∉ ts → Facts ∉ ts →
  respects (λ d d', ledger_ok d → ledger_ok d') m.
Proof.
  intros [HF HK] Hv Hf d r d' H. apply (ledger_ok_frame ts); [by eapply HF|by eapply HK|done|done].
Qed.

Ltac writes_only_leaf :=
  first [ apply select_respects; apply _
        | apply require_permission_state; apply _
        | apply respects_catch
        | apply fresh_id_frame
        | apply fresh_id_consistent
        | apply exec_insert_frame; [done|set_solver]
        | by apply exec_insert_consistent
        | apply exec_update_frame; [done|set_solver]
        | by apply exec_update_consistent
        | apply insert_or_nothing_frame; [done|set_solver]
        | by apply insert_or_nothing_consistent
        | eapply frame_weaken; [|apply link_evidence_frame]; set_solver
        | apply link_evidence_consistent ].

Lemma register_user_writes `{UD : !UnicodeData} email name :
  writes_only [Users] (register_user email name).
Proof.
  unfold register_user, UserRepository.get_by_email. split; respects writes_only_leaf.
Qed.

Lemma create_organization_writes `{UD : !UnicodeData} name slug i :
  writes_only [Organizations; Memberships] (create_organization name slug i).
Proof.
  unfold create_organization, UserRepository.get, OrganizationRepository.get_by_slug,
    MembershipRepository.new.
  split; respects writes_only_leaf.
Qed.

Lemma register_source_writes `{UD : !UnicodeData} ctx name ty uri auth :
  writes_only [FactSources] (register_source ctx name ty uri auth).
Proof.
  unfold register_source, FactRepository.get_source_by_name, FactRepository.new_source.
  split; respects writes_only_leaf.
Qed.

Lemma capture_evidence_writes `{UD : !UnicodeData} `{FR : !FloatRepr} `{SH : !Sha256}
    ctx s ty ex at_ uri meta scope :
  writes_only [Evidence] (capture_evidence ctx s ty ex at_ uri meta scope).
Proof.
  unfold capture_evidence, repo_capture, FactRepository.get_source.
  split; respects writes_only_leaf.
Qed.

Lemma attach_writes ctx v e rel : writes_only [EvidenceLinks] (attach ctx v e rel).
Proof.
  unfold attach. split; respects ltac:(first
    [apply link_evidence_frame | apply link_evidence_consistent | writes_only_leaf]).
Qed.

(** * Properties *)

Section ledger_properties.
Context `{UD : !UnicodeData} `{FR : !FloatRepr}.

(** C6. [record_version] keeps the ledger well formed whatever it returns: per
    fact, versions are numbered 1, 2, 3, ..., supersede each other in one chain,
    advance in both timelines, never overlap in valid time, and every superseded
    version has an end learned no later than the next version; and the
    uniqueness and exclusion constraints of every table but the outboxes still hold. *)
Theorem record_version_keeps_ledger ctx cmd d r d' :
  ledger_ok d → record_version ctx cmd d = (r, d') → ledger_ok d'.
Proof. intros Hl H. by apply (record_version_keeps ctx cmd d r d' H). Qed.

(** A successful [record_version] appends exactly one version to one fact of
    the caller's tenant: the histories of all other facts are untouched, the
    earlier versions of this fact are untouched, and the previous latest version
    is only closed, at the start of the new version, when it was open. *)
Theorem record_version_appends ctx cmd d v d' :
  ledger_ok d → record_version ctx cmd d = (Ok v, d') →
  fv_organization_id v = ctx_organization_id ctx ∧
  fv_value v = rc_value cmd ∧ fv_privacy_scope v = rc_privacy_scope cmd ∧
  (∀ g, g ≠ fv_fact_id v → versions_of g d' = versions_of g d) ∧
  ∃ k, versions_of (fv_fact_id v) d' = k ++ [v] ∧
    (versions_of (fv_fact_id v) d = k ∨
     ∃ l k0, versions_of (fv_fact_id v) d = k0 ++ [l] ∧ fv_valid_until l = None ∧
       k = k0 ++ [FactRepository.with_end (fv_valid_from v) (fv_recorded_at v) l]).
Proof.
  intros Hl H.
  apply record_version_trace in H as
    (f & w & lt & d1 & d2 & _ & Horg & Hf & F1 & L1 & A & F2 & _ & Hv & _ & Hp & _); [|done].
  assert (E1 : ∀ g, versions_of g d1 = versions_of g d)
    by (intros g; unfold versions_of; rewrite (frame_tab_other _ _ _ FactVersions F1); [done|done|set_solver]).
  assert (E2 : ∀ g, versions_of g d' = versions_of g d2)
    by (intros g; unfold versions_of; rewrite (frame_tab_other _ _ _ FactVersions F2); [done|done|set_solver]).
  pose proof (appended_histories _ _ _ _ _ _ L1 Hf A) as [Ho Hh].
  rewrite (ap_fact _ _ _ _ _ _ A). split_and!; [by rewrite (ap_org _ _ _ _ _ _ A)|done|done| |].
  - intros g Hg. by rewrite E2, Ho, E1.
  - rewrite E2, <-E1. destruct lt as [l|].
    + destruct Hh as (k & l' & Hold & Hnew & [[Hn ->]|[Hn ->]]).
      * exists (k ++ [FactRepository.with_end (fv_valid_from v) (fv_recorded_at v) l]).
        split; [by rewrite Hnew, <-app_assoc|]. right. by exists l, k.
      * exists (k ++ [l]). split; [by rewrite Hnew, <-app_assoc|]. by left.
    + destruct Hh as [Hold Hnew]. exists []. split; [done|by left].
Qed.

(** C7. What was known never changes: for an instant [K] before the transaction
    time of the new version, every fact's history as known at [K] (values,
    validity and ends as they looked then) is the same after the write. *)
Theorem record_version_preserves_past_knowledge ctx cmd d v d' K :
  ledger_ok d → record_version ctx cmd d = (Ok v, d') → K < fv_recorded_at v →
  ∀ g, known_history (history_of g d') (Some K) = known_history (history_of g d) (Some K).
Proof.
  intros Hl H HK g.
  apply record_version_trace in H as
    (f & w & lt & d1 & d2 & _ & Horg & Hf & F1 & L1 & A & F2 & Lf & _); [|done].
  assert (E1 : ∀ g, versions_of g d1 = versions_of g d)
    by (intros g'; unfold versions_of; rewrite (frame_tab_other _ _ _ FactVersions F1); [done|done|set_solver]).
  assert (E2 : ∀ g, versions_of g d' = versions_of g d2)
    by (intros g'; unfold versions_of; rewrite (frame_tab_other _ _ _ FactVersions F2); [done|done|set_solver]).
  pose proof (appended_histories _ _ _ _ _ _ L1 Hf A) as [Ho Hh].
  unfold history_of. rewrite E2, <-E1.
  destruct (decide (g = f_id f)) as [->|Hg]; [|by rewrite Ho].
  pose proof (lo_chain d1 L1 (f_id f)) as [Hch _]. unfold history_of in Hch.
  pose proof (appended_settled _ _ _ _ _ _ L1 Hf A) as [Hch' _]. unfold history_of in Hch'.
  destruct lt as [l|].
  - destruct Hh as (k & l' & Hold & Hnew & Hcase). rewrite Hnew, Hold in *.
    assert (Esplit : map to_snapshot (k ++ [l'; v])
      = (map to_snapshot k ++ [to_snapshot l']) ++ [to_snapshot v])
      by (rewrite map_app, <-app_assoc; done).
    rewrite Esplit in Hch' |- *. rewrite map_app in Hch |- *. cbn [map] in Hch |- *.
    assert (Hmid : chain (map to_snapshot k ++ [to_snapshot l'])).
    { destruct Hcase as [[Hn ->]|[Hn ->]]; [|done].
      change (to_snapshot (FactRepository.with_end (fv_valid_from v) (fv_recorded_at v) l))
        with (closed_at (to_snapshot l) (fv_valid_from v) (fv_recorded_at v)).
      destruct (ap_plan _ _ _ _ _ _ A) as (plan & (_ & Hfrom & _)%plan_from_some & _).
      pose proof (ap_recorded _ _ _ _ _ _ A l eq_refl). pose proof (ap_from _ _ _ _ _ _ A).
      apply chain_close_last; [done|cbn; lia|cbn; lia]. }
    rewrite known_history_snoc; [|done|done|done].
    destruct Hcase as [[Hn ->]|[Hn ->]]; [|done].
    pose proof (chain_ended _ Hch) as He. rewrite Forall_app, Forall_singleton in He.
    destruct He as [_ He]. unfold well_ended in He. cbn in He. rewrite Hn in He.
    destruct (fv_valid_until_recorded_at l) eqn:Er; [done|].
    change (to_snapshot (FactRepository.with_end (fv_valid_from v) (fv_recorded_at v) l))
      with (closed_at (to_snapshot l) (fv_valid_from v) (fv_recorded_at v)) in Hmid |- *.
    by apply known_history_close.
  - destruct Hh as [Hold Hnew]. rewrite Hnew, Hold in *. cbn [map] in *.
    apply (known_history_snoc [] (to_snapshot v)); [apply chain_nil|done|done].
Qed.

(** Resolving a question (valid at [T], as known at [K]) on the stored history
    of any fact never raises: the answer is the single known version valid at [T]
    when there is one, and None otherwise. *)
Theorem resolve_total_and_unique fact_id d t kk k :
  ledger_ok d → require_aware_opt kk = Ok k →
  ∃ r, resolve (history_of fact_id d) (Aware t) kk = Ok r ∧
       ∀ v, r = Some v ↔ v ∈ known_history (history_of fact_id d) k ∧ is_valid_at v t = true.
Proof.
  intros Hl Hk. destruct (lo_chain d Hl fact_id) as [Hc _]. eexists. split; [by apply resolve_chain|].
  intros v. apply (head_where (λ v, is_valid_at v t)).
  by apply disjoint_at_most_one, known_history_disjoint.
Qed.

(** The versions known at [K] are the first versions of the chain, each as
    it looked then: knowledge is a prefix of the history. *)
Theorem known_versions_are_a_prefix fact_id d k :
  ledger_ok d →
  ∃ n, known_history (history_of fact_id d) k
       = map (λ v, as_known v k) (take n (history_of fact_id d)).
Proof. intros Hl. apply known_history_prefix, (lo_chain d Hl). Qed.

End ledger_properties.
