(* ===== verification/AppendOnly.v ===== *)
(** What the triggers of the immutable tables add up to: whatever statements run, a
    recorded row stays what it was, except that an open fact version is closed once. *)

From S2P Require Import Prelude PyStr Json Regex Validation Access Temporal Database Schema.

(** Any statement of any table but the outboxes, whether it succeeds or not. *)
Inductive sql :=
  | INSERT (t : table) (x : row t)
  | UPDATE (t : table) (p : row t → bool) (f : row t → row t)
  | DELETE (t : table) (p : row t → bool).

Definition sql_table (s : sql) : table :=
  match s with INSERT t _ => t | UPDATE t _ _ => t | DELETE t _ => t end.

Definition run_sql (s : sql) : DB unit :=
  match s with INSERT t x => exec_insert t x | UPDATE t p f => exec_update t p f | DELETE t p => exec_delete t p end.

(** The tables with a trigger that forbids UPDATE and DELETE. *)
Definition immutable (t : table) : bool :=
  match t with
  | Evidence | EvidenceLinks | ContextSnapshots | SnapshotFacts | Decisions | DecisionFacts
  | FactRevocations | RevocationImpacts | AgentRuns => true
  | _ => false
  end.

(** A version and what it may become. *)
Definition kept (v v' : fact_version) : bool :=
  same_claim v v' && (bool_decide (fv_valid_until v = None) || same_end v v').

Definition becomes (v v' : fact_version) : Prop := kept v v' = true.

Record append_only (d d' : db) : Prop := {
  ao_rows : ∀ t, immutable t = true → grows t d d';
  ao_versions : ∃ l k, tab d' FactVersions = l ++ k ∧ Forall2 becomes (tab d FactVersions) l;
}.

Lemma same_claim_spec v v' : same_claim v v' = true →
  fv_id v' = fv_id v ∧ fv_organization_id v' = fv_organization_id v ∧ fv_fact_id v' = fv_fact_id v ∧
  fv_version v' = fv_version v ∧ fv_value v' = fv_value v ∧ fv_source_id v' = fv_source_id v ∧
  fv_valid_from v' = fv_valid_from v ∧ fv_observed_at v' = fv_observed_at v ∧
  fv_recorded_at v' = fv_recorded_at v ∧ fv_supersedes_id v' = fv_supersedes_id v ∧
  fv_authority v' = fv_authority v ∧ fv_confidence v' = fv_confidence v ∧ fv_privacy_scope v' = fv_privacy_scope v.
Proof. unfold same_claim. rewrite !andb_true_iff, !Z.eqb_eq, !bool_decide_eq_true. tauto. Qed.

Lemma same_claim_refl v : same_claim v v = true.
Proof. unfold same_claim. rewrite !Z.eqb_refl, !bool_decide_eq_true_2 by done. done. Qed.

Lemma kept_refl v : kept v v = true.
Proof.
  unfold kept. rewrite same_claim_refl. apply orb_true_iff. right.
  unfold same_end. by rewrite !bool_decide_eq_true_2.
Qed.

Lemma kept_trans u v w : kept u v = true → kept v w = true → kept u w = true.
Proof.
  unfold kept, same_end. rewrite !andb_true_iff, !orb_true_iff, !andb_true_iff, !bool_decide_eq_true.
  intros [C1 E1] [C2 E2]. split.
  - apply same_claim_spec in C1, C2. unfold same_claim.
    rewrite !andb_true_iff, !Z.eqb_eq, !bool_decide_eq_true. intuition congruence.
  - destruct E1 as [E1|[E1 E1']]; [by left|]. destruct E2 as [E2|[E2 E2']]; [left|right; split]; congruence.
Qed.

#[export] Instance becomes_preorder : PreOrder becomes.
Proof. split; [exact kept_refl|exact kept_trans]. Qed.

#[export] Instance append_only_preorder : PreOrder append_only.
Proof.
  split.
  - intros d. split; [done|]. exists (tab d FactVersions), []. rewrite app_nil_r. split; [done|].
    reflexivity.
  - intros a b c [R1 (l1 & k1 & E1 & F1)] [R2 (l2 & k2 & E2 & F2)]. split.
    + intros t Ht. transitivity b; auto.
    + rewrite E1 in F2. apply Forall2_app_inv_l in F2 as (m1 & m2 & G1 & G2 & ->).
      exists m1, (m2 ++ k2). split; [by rewrite E2, app_assoc|].
      by transitivity l1.
Qed.

Lemma append_only_frame ts d d' : frame ts d d' → FactVersions ∉ ts → (∀ t, t ∈ ts → immutable t = false) →
  append_only d d'.
Proof.
  intros F Hv Hi. split.
  - intros t Ht. apply (grows_frame ts); [done|by destruct t|]. intros Hin. by rewrite Hi in Ht.
  - rewrite (frame_tab_other _ _ _ FactVersions F); [|done|done]. apply append_only_preorder.
Qed.

(** A statement on [t] that adds rows, and changes none that it may not. *)
Lemma append_only_table t d d' :
  frame [t] d d' → (immutable t = true → grows t d d') →
  (∀ e : t = FactVersions, append_only d d') → append_only d d'.
Proof.
  intros F Hg Hv. destruct (table_eq_dec t FactVersions) as [e|Hne]; [by apply Hv|]. split.
  - intros u Hu. destruct (table_eq_dec t u) as [->|Hn]; [auto|]. apply (grows_frame [t]); [done|by destruct u|set_solver].
  - rewrite (frame_tab_other _ _ _ FactVersions F); [|done|set_solver]. apply append_only_preorder.
Qed.

Lemma exec_insert_append_only t x : outbox t = false → respects append_only (exec_insert t x).
Proof.
  intros Ho d r d' H. destruct (exec_insert_cases t x d Ho) as [(e & _ & E)|(_ & d1 & E & F & T)];
    rewrite E in H; injection H as _ <-; [reflexivity|].
  apply (append_only_table t); [done|by exists [x]|]. intros ->. split.
  - intros u Hu. apply (grows_frame [FactVersions]); [done|by destruct u|]. intros ->%list_elem_of_singleton. done.
  - exists (tab d FactVersions), [x]. split; [done|reflexivity].
Qed.

Lemma forbidden_write t x y : immutable t = true → before_write t x y = forbid_modification.
Proof. by destruct t. Qed.

Lemma enforce_kept v v' : enforce_append_only v (Some v') = Ok () → kept v v' = true.
Proof.
  unfold enforce_append_only, kept. destruct (same_claim v v'); [|done]. cbn [negb andb].
  destruct (bool_decide _), (same_end v v'); done.
Qed.

Lemma exec_update_append_only t p f : outbox t = false → respects append_only (exec_update t p f).
Proof.
  intros Ho d r d' H. destruct (exec_update_cases t p f d Ho) as [(e & _ & E)|(Hc & d1 & E & F & T)];
    rewrite E in H; injection H as _ <-; [reflexivity|].
  unfold update_checks in Hc. destruct (for_all (λ x, before_write t x (Some (f x))) _) as [[]|] eqn:Eb; [|done].
  pose proof (proj1 (for_all_ok _ _) Eb) as Hb. clear Hc Eb E. apply (append_only_table t); [done| |].
  - intros Hi. exists []. rewrite T, app_nil_r. apply map_id_in. intros x Hx. destruct (p x) eqn:Ep; [|done].
    exfalso. specialize (Hb x ltac:(by apply elem_of_where_)). cbv beta in Hb. by rewrite forbidden_write in Hb.
  - intros ->. split.
    + intros u Hu. apply (grows_frame [FactVersions]); [done|by destruct u|]. intros ->%list_elem_of_singleton. done.
    + exists (tab d1 FactVersions), []. rewrite app_nil_r. split; [done|]. rewrite T.
      apply Forall2_fmap_r, Forall2_same_length_lookup. split; [done|]. intros i v w Hi Hw.
      pose proof (eq_trans (eq_sym Hw) Hi) as [= ->]. unfold compose. destruct (p v) eqn:Ep; [|apply kept_refl]. unfold becomes.
      apply enforce_kept, (Hb v), elem_of_where_. split; [done|]. by apply list_elem_of_lookup_2 in Hi.
Qed.

Lemma exec_delete_append_only t p : outbox t = false → respects append_only (exec_delete t p).
Proof.
  intros Ho d r d' H. destruct r as [[]|e]; cycle 1.
  { unfold exec_delete, mbind, st_bind in H. destruct (for_all _ _); [done|]. injection H as _ <-. reflexivity. }
  apply exec_delete_ok in H as (Hb & F & T). pose proof (proj1 (for_all_ok _ _) Hb) as Hb'. clear Hb.
  assert (Hkeep : (∀ x y, before_write t x y ≠ Ok ()) ∨ t = FactVersions → tab d' t = tab d t).
  { intros Ht. rewrite T. apply where_true. intros x Hx. apply negb_true_iff. destruct (p x) eqn:Ep; [|done].
    specialize (Hb' x ltac:(by apply elem_of_where_)). exfalso. destruct Ht as [Ht| ->]; [by apply (Ht x None)|done]. }
  apply (append_only_table t); [done| |].
  - intros Hi. exists []. rewrite app_nil_r. apply Hkeep. left. intros x y. by rewrite forbidden_write.
  - intros ->. split.
    + intros u Hu. apply (grows_frame [FactVersions]); [done|by destruct u|]. intros ->%list_elem_of_singleton. done.
    + rewrite Hkeep by by right. apply append_only_preorder.
Qed.

Lemma run_sql_append_only s : outbox (sql_table s) = false → respects append_only (run_sql s).
Proof.
  destruct s as [t x|t p f|t p]; cbn [sql_table run_sql]; intros Ho;
    [by apply exec_insert_append_only|by apply exec_update_append_only|by apply exec_delete_append_only].
Qed.

(** A session: any statements, in any order, ignoring their failures. *)
Definition session (l : list sql) (d : db) : db := fold_left (λ d s, (run_sql s d).2) l d.

Lemma session_append_only l d : (∀ s, s ∈ l → outbox (sql_table s) = false) → append_only d (session l d).
Proof.
  revert d. induction l as [|s l IH]; intros d Hl; [reflexivity|]. cbn [session fold_left].
  transitivity ((run_sql s d).2); [|apply IH; intros x Hx; apply Hl; by right].
  apply respects_snd, run_sql_append_only, Hl. by left.
Qed.

(** The ledger is append-only in the database itself.  Whatever statements run, by the
    program or past it - inserts, updates and deletes of any tables but the outboxes, that
    succeed or fail, in any order - every row of evidence, its links, snapshots, decisions,
    their citations, revocations, their impacts and agent runs stays where it was and
    as it was; every fact version keeps its place and everything it claims (value,
    source, both instants, authority, confidence, scope, predecessor); and an end that
    was set once never changes. *)
Theorem no_statement_rewrites_history l d :
  (∀ s, s ∈ l → outbox (sql_table s) = false) →
  (∀ t, immutable t = true → ∃ new, tab (session l d) t = tab d t ++ new) ∧
  ∃ old new, tab (session l d) FactVersions = old ++ new ∧
    Forall2 (λ v v', same_claim v v' = true ∧
                     (fv_valid_until v ≠ None → fv_valid_until v' = fv_valid_until v ∧
                        fv_valid_until_recorded_at v' = fv_valid_until_recorded_at v))
            (tab d FactVersions) old.
Proof.
  intros Hl. pose proof (session_append_only l d Hl) as H.
  destruct H as [Hr (old & new & E & F)]. split; [exact Hr|]. exists old, new. split; [done|].
  eapply Forall2_impl; [exact F|]. intros v v'. unfold becomes, kept, same_end.
  rewrite andb_true_iff, orb_true_iff, andb_true_iff, !bool_decide_eq_true. intros [Hc He]. split; [done|].
  intros Hn. destruct He as [He|He]; [done|exact He].
Qed.
