(* ===== verification/TemporalService.v ===== *)
(** Temporal resolution over the store: repositories/temporal.py (the SQL
    conditions) and services/temporal.py.  The main result is that the SQL answer
    is the answer of the reference semantics. *)

From S2P Require Import Prelude PyStr Json Regex Validation Access Temporal History Database.
From S2P Require Import Schema Accounts FactRepo EvidenceService FactService Ledger.

(** * SQL conditions *)

(** [EXISTS (SELECT ... FROM fact_revocations WHERE ...)] as known at [known_at]. *)
Definition revoked_as_known (v : fact_version) (known_at : option Instant) (d : db) : bool :=
  exists_row FactRevocations
    (λ r, (r_organization_id r =? fv_organization_id v) && (r_fact_version_id r =? fv_id v)
          && known_by (r_revoked_at r) known_at) d.

Definition not_revoked_condition (known_at : option Instant) (d : db) (v : fact_version) : bool :=
  negb (revoked_as_known v known_at d).

(** A comparison with NULL is not true. *)
Definition sql_gt (c : option Instant) (x : Instant) : bool :=
  match c with Some c => x <? c | None => false end.
Definition is_null {A} (c : option A) : bool := match c with None => true | Some _ => false end.

Definition valid_at_condition (valid_at : Instant) (known_at : option Instant) (d : db)
    (v : fact_version) : bool :=
  match known_at with
  | None =>
    (fv_valid_from v <=? valid_at)
    && (is_null (fv_valid_until v) || sql_gt (fv_valid_until v) valid_at)
    && not_revoked_condition None d v
  | Some k =>
    not_revoked_condition (Some k) d v
    && (fv_recorded_at v <=? k)
    && (fv_valid_from v <=? valid_at)
    && (is_null (fv_valid_until v) || sql_gt (fv_valid_until_recorded_at v) k
        || sql_gt (fv_valid_until v) valid_at)
  end.

(** * TemporalRepository *)

Module TemporalRepository.

Definition get_entity (org : UUID) (entity_type external_id : pystr) : DB (option entity) :=
  rows ← select Entities (FactRepository.same_entity org entity_type external_id);
  lift (one_or_none rows).

(** The property of the fact a version joins with, if the fact belongs to the entity. *)
Definition joined_property (d : db) (entity_id : UUID) (v : fact_version) : option pystr :=
  option_map f_property (List.find
    (λ f, (f_organization_id f =? fv_organization_id v) && (f_id f =? fv_fact_id v)
          && (f_entity_id f =? entity_id)) (tab d Facts)).

(** Versions of the tenant with the property of their fact, restricted to the entity. *)
Definition versions_with_property (d : db) (org entity_id : UUID) (p : fact_version → bool) :
    list (fact_version * pystr) :=
  omap (λ v, option_map (pair v) (joined_property d entity_id v))
    (where_ (λ v, (fv_organization_id v =? org) && p v) (tab d FactVersions)).

(** ORDER BY fact_id, version DESC *)
Definition by_fact_desc (a b : fact_version * pystr) : bool :=
  (fv_fact_id a.1 <? fv_fact_id b.1)
  || ((fv_fact_id a.1 =? fv_fact_id b.1) && (fv_version b.1 <=? fv_version a.1)).

(** DISTINCT ON (fact_id): the first row of each run. *)
Fixpoint distinct_on_fact (l : list (fact_version * pystr)) : list (fact_version * pystr) :=
  match l with
  | [] => []
  | x :: l' => match distinct_on_fact l' with
               | y :: r => if fv_fact_id x.1 =? fv_fact_id y.1 then x :: r else x :: y :: r
               | [] => [x]
               end
  end.

Definition facts_valid_at (org entity_id : UUID) (valid_at : Instant) (known_at : option Instant) :
    DB (list (fact_version * pystr)) :=
  gets (λ d, distinct_on_fact (sort_by by_fact_desc
    (versions_with_property d org entity_id (valid_at_condition valid_at known_at d)))).

(** ORDER BY property, version *)
Definition by_property_version (a b : fact_version * pystr) : bool :=
  if bool_decide (a.2 = b.2) then fv_version a.1 <=? fv_version b.1 else pystr_leb a.2 b.2.

Definition entity_versions (org entity_id : UUID) (known_at : option Instant) :
    DB (list (fact_version * pystr)) :=
  gets (λ d, sort_by by_property_version
    (versions_with_property d org entity_id (λ v, known_by (fv_recorded_at v) known_at))).

End TemporalRepository.

(** * TemporalService *)

Section temporal_service.
Context `{UD : !UnicodeData}.

Definition require_entity (org : UUID) (entity_type external_id : pystr) : DB entity :=
  et ← lift (normalize_identifier entity_type);
  ext ← lift (normalize_external_id external_id);
  e ← TemporalRepository.get_entity org et ext;
  match e with
  | None => raise (NotFoundError "entity not found")
  | Some e => mret e
  end.

(** [clock] is the service's own clock, used when no [valid_at] is given. *)
Definition facts_at (clock : Instant) (ctx : TenantContext) (entity_type external_id : pystr)
    (valid_at known_at : option datetime) : DB (list ResolvedFact) :=
  instant ← lift (require_aware match valid_at with Some v => v | None => Aware clock end);
  known ← lift (require_aware_opt known_at);
  resolved ← transaction (
    _ ← require_permission ctx READ_FACTS;
    e ← require_entity (ctx_organization_id ctx) entity_type external_id;
    rows ← TemporalRepository.facts_valid_at (ctx_organization_id ctx) (e_id e) instant known;
    mret (map (λ vp : fact_version * pystr, {|
      rf_fact_id := fv_fact_id vp.1; rf_entity_id := e_id e; rf_entity_type := e_entity_type e;
      rf_external_id := e_external_id e; rf_property := vp.2;
      rf_version := as_known (to_snapshot vp.1) known |}) rows));
  mret (sort_by (λ a b, pystr_leb (rf_property a) (rf_property b)) resolved).

Definition history (ctx : TenantContext) (fact_id : UUID) (known_at : option datetime) :
    DB (list VersionSnapshot) :=
  versions ← transaction (
    _ ← require_permission ctx READ_FACTS;
    f ← FactRepository.get_fact (ctx_organization_id ctx) fact_id;
    match f with
    | None => raise (NotFoundError "fact not found")
    | Some _ =>
      rows ← FactRepository.list_versions (ctx_organization_id ctx) fact_id;
      mret (map to_snapshot rows)
    end);
  lift (history_as_known versions known_at).

(** Rows grouped by fact, in the order the facts first appear. *)
Definition by_fact (rows : list (fact_version * pystr)) :
    list (UUID * list VersionSnapshot * pystr) :=
  map (λ i,
         let mine := where_ (λ r, fv_fact_id r.1 =? i) rows in
         (i, map (λ r, to_snapshot r.1) mine,
          match last mine with Some r => r.2 | None => [] end))
    (dict_fromkeys (map (λ r, fv_fact_id r.1) rows)).

Definition changes_between (ctx : TenantContext) (entity_type external_id : pystr)
    (start end_ : datetime) (known_at : option datetime) : DB (list FactChange) :=
  s ← lift (require_aware start);
  e ← lift (require_aware end_);
  _ ← guard_ (negb (e <=? s)) (ValidationFailedError "end must be later than start");
  known ← lift (require_aware_opt known_at);
  rows ← transaction (
    _ ← require_permission ctx READ_FACTS;
    ent ← require_entity (ctx_organization_id ctx) entity_type external_id;
    TemporalRepository.entity_versions (ctx_organization_id ctx) (e_id ent) known);
  changes ← lift (mapR (λ '(i, versions, prop),
      c ← change_between versions start end_ known_at;
      Ok (option_map (λ '(before, after, transitions), {|
            fc_fact_id := i; fc_property := prop; fc_before := before; fc_after := after;
            fc_transitions := transitions |}) c)) (by_fact rows));
  mret (sort_by (λ a b, pystr_leb (fc_property a) (fc_property b)) (omap id changes)).

Definition lineage (ctx : TenantContext) (version_id : UUID) : DB Lineage :=
  chain ← transaction (
    _ ← require_permission ctx READ_FACTS;
    target ← FactRepository.get_version (ctx_organization_id ctx) version_id;
    match target with
    | None => raise (NotFoundError "fact version not found")
    | Some t =>
      rows ← FactRepository.list_versions (ctx_organization_id ctx) (fv_fact_id t);
      mret (map to_snapshot rows)
    end);
  match List.find (λ v, vs_id v =? version_id) chain with
  | None => raise StopIteration
  | Some current => mret {|
      ln_version := current;
      ln_ancestors := where_ (λ v, vs_version v <? vs_version current) chain;
      ln_descendants := where_ (λ v, vs_version current <? vs_version v) chain |}
  end.

(** [sorted(entries, key=(valid_from, property, version))] *)
Definition by_timeline (a b : TimelineEntry) : bool :=
  (vs_valid_from (te_version a) <? vs_valid_from (te_version b))
  || ((vs_valid_from (te_version a) =? vs_valid_from (te_version b))
      && (if bool_decide (te_property a = te_property b)
          then vs_version (te_version a) <=? vs_version (te_version b)
          else pystr_leb (te_property a) (te_property b))).

Definition entity_timeline (ctx : TenantContext) (entity_type external_id : pystr)
    (known_at : option datetime) : DB (list TimelineEntry) :=
  known ← lift (require_aware_opt known_at);
  rows ← transaction (
    _ ← require_permission ctx READ_FACTS;
    e ← require_entity (ctx_organization_id ctx) entity_type external_id;
    TemporalRepository.entity_versions (ctx_organization_id ctx) (e_id e) known);
  mret (sort_by by_timeline
    (map (λ vp : fact_version * pystr,
            {| te_property := vp.2; te_version := as_known (to_snapshot vp.1) known |}) rows)).

End temporal_service.

(** * SQL and reference agree *)

(** Without a revocation, the SQL condition on a row is "known, and valid at
    [valid_at] as it looked then". *)
Lemma valid_at_condition_reference v t k d :
  well_ended (to_snapshot v) →
  valid_at_condition t k d v
  = is_known (to_snapshot v) k && is_valid_at (as_known (to_snapshot v) k) t
    && negb (revoked_as_known v k d).
Proof.
  unfold well_ended, valid_at_condition, not_revoked_condition, is_known, known_by, is_valid_at,
    as_known, before_end, sql_gt, is_null. cbn.
  destruct k as [k|].
  - destruct (fv_valid_until v) as [u|] eqn:Eu, (fv_valid_until_recorded_at v) as [c|] eqn:Ec;
      try done; intros Hw.
    + destruct (revoked_as_known v (Some k) d); [by rewrite andb_false_r|]. cbn.
      destruct (Z.leb_spec c k); cbn; rewrite ?Eu; lia.
    + destruct (revoked_as_known v (Some k) d); [by rewrite andb_false_r|]. cbn. rewrite ?Eu. lia.
  - intros _. destruct (revoked_as_known v None d); [by rewrite !andb_false_r|].
    destruct (fv_valid_until v) as [u|] eqn:Eu; cbn; rewrite ?Eu; lia.
Qed.

Lemma history_well_ended d fact_id v :
  ledger_ok d → v ∈ versions_of fact_id d → well_ended (to_snapshot v).
Proof.
  intros Hl Hv. destruct (lo_chain d Hl fact_id) as [Hc _].
  pose proof (chain_ended _ Hc) as He. rewrite Forall_forall in He. apply He.
  apply list_elem_of_fmap. by exists v.
Qed.

(** The rows of one fact that the SQL condition selects. *)
Definition sql_answer (d : db) (fact_id : UUID) (t : Instant) (k : option Instant) :
    list VersionSnapshot :=
  map (λ v, as_known (to_snapshot v) k) (where_ (valid_at_condition t k d) (versions_of fact_id d)).

Lemma sql_answer_reference d fact_id t k :
  ledger_ok d → (∀ v, v ∈ versions_of fact_id d → revoked_as_known v k d = false) →
  sql_answer d fact_id t k
  = where_ (λ v, is_valid_at v t) (known_history (history_of fact_id d) k).
Proof.
  intros Hl Hr. unfold sql_answer, known_history, history_of.
  rewrite chain_version_sorted by (apply (lo_chain d Hl fact_id)).
  rewrite !where_map, !map_map, where_where. f_equal.
  apply where_ext. intros v Hv. rewrite valid_at_condition_reference by (by eapply history_well_ended).
  by rewrite Hr, andb_true_r.
Qed.

(** C8. The SQL engine and the reference agree: on a ledger kept by the
    operations, for a fact none of whose versions is revoked as known at [K], the
    rows matched by [valid_at_condition] are exactly the answer of
    [reference.resolve], at most one row, so DISTINCT ON never drops anything. *)
Theorem sql_matches_reference d fact_id t k kk :
  ledger_ok d → require_aware_opt kk = Ok k →
  (∀ v, v ∈ versions_of fact_id d → revoked_as_known v k d = false) →
  resolve (history_of fact_id d) (Aware t) kk = Ok (head (sql_answer d fact_id t k)) ∧
  (length (sql_answer d fact_id t k) ≤ 1)%nat.
Proof.
  intros Hl Hk Hr. rewrite sql_answer_reference by done.
  destruct (lo_chain d Hl fact_id) as [Hc _]. split; [by apply resolve_chain|].
  by apply disjoint_at_most_one, known_history_disjoint.
Qed.

(** C9. With revocations the SQL answer is the reference answer minus the versions
    revoked as known at [K]; the reference ignores revocations, so the two differ
    exactly when the resolved version has been revoked. *)
Theorem sql_answer_with_revocations d fact_id t k v :
  ledger_ok d → v ∈ versions_of fact_id d →
  (as_known (to_snapshot v) k ∈ sql_answer d fact_id t k ↔
   as_known (to_snapshot v) k ∈ known_history (history_of fact_id d) k ∧
   is_valid_at (as_known (to_snapshot v) k) t = true ∧ revoked_as_known v k d = false).
Proof.
  intros Hl Hv.
  assert (Huniq : ∀ w, w ∈ versions_of fact_id d →
    as_known (to_snapshot w) k = as_known (to_snapshot v) k → w = v).
  { intros w Hw E. apply (f_equal vs_id) in E. rewrite !as_known_id in E.
    apply elem_of_where_ in Hw as [_ Hw], Hv as [_ Hv].
    by apply (version_ids_unique d); [apply Hl| | |]. }
  assert (Hknown : as_known (to_snapshot v) k ∈ known_history (history_of fact_id d) k ↔
                   is_known (to_snapshot v) k = true).
  { unfold known_history, history_of.
    rewrite chain_version_sorted by (apply (lo_chain d Hl fact_id)).
    rewrite where_map, map_map, list_elem_of_fmap. split.
    - intros (w & E & [Hkw Hw]%elem_of_where_). by rewrite <-(Huniq w Hw (eq_sym E)).
    - intros Hk. exists v. split; [done|]. by apply elem_of_where_. }
  rewrite Hknown. unfold sql_answer. rewrite list_elem_of_fmap. split.
  - intros (w & E & [Hc Hw]%elem_of_where_). rewrite (Huniq w Hw (eq_sym E)) in *.
    rewrite valid_at_condition_reference in Hc by (by eapply history_well_ended).
    rewrite !andb_true_iff, negb_true_iff in Hc. tauto.
  - intros (Hk & Ht & Hr). exists v. split; [done|]. apply elem_of_where_. split; [|done].
    rewrite valid_at_condition_reference by (by eapply history_well_ended).
    by rewrite Hk, Ht, Hr.
Qed.
