(* ===== verification/Ranking.v ===== *)
(** Hybrid ranking: app/domain/retrieval.py (limits, trust, reciprocal rank
    fusion).  Scores are floats; the theorems need only that the scores at hand
    are totally ordered (no NaN). *)

From S2P Require Import Prelude PyStr Json Regex Validation Access.

(** Arithmetic and comparison of scores. *)
Class ScoreOps := {
  score : Type;
  s_zero : score;
  s_one : score;
  s_add : score → score → score;
  s_sub : score → score → score;
  s_mul : score → score → score;
  s_recip : Z → score;            (* 1.0 / n *)
  s_of_thousandths : Z → score;   (* float(Decimal) of a confidence *)
  s_of_percent : Z → score;       (* n / 100.0 *)
  s_leb : score → score → bool;
}.

Class ScoreLaws `{ScoreOps} := {
  s_total : ∀ a b, s_leb a b = false → s_leb b a = true;
  s_trans : ∀ a b c, s_leb a b = true → s_leb b c = true → s_leb a c = true;
  s_anti : ∀ a b, s_leb a b = true → s_leb b a = true → a = b;
}.

Section ranking.
Context `{SO : !ScoreOps}.

Definition s_ltb (a b : score) : bool := negb (s_leb b a).
Definition s_eqb (a b : score) : bool := s_leb a b && s_leb b a.

Definition MAX_LIMIT : Z := 50.
Definition DEFAULT_RRF_K : Z := 60.

Definition validate_limit (limit : Z) : result Z :=
  if (1 <=? limit) && (limit <=? MAX_LIMIT) then Ok limit
  else Err (ValidationFailedError "limit must be between 1 and {MAX_LIMIT}").

Definition validate_trust_weight (weight : score) : result score :=
  if s_leb s_zero weight && s_leb weight s_one then Ok weight
  else Err (ValidationFailedError "trust_weight must be between 0 and 1").

(** How many candidates each branch fetches before fusion. *)
Definition candidate_pool_size (limit : Z) : Z := Z.min 200 (Z.max 40 (limit * 4)).

Definition trust_score (authority confidence : Z) : score :=
  s_mul (s_of_percent authority) (s_of_thousandths confidence).

Record VectorHit := { vh_id : UUID; vh_distance : score }.
Record TextHit := { th_id : UUID; th_score : score }.

Record RankedCandidate := {
  rc_id : UUID;
  rc_vector_rank : option Z;
  rc_vector_distance : option score;
  rc_text_rank : option Z;
  rc_text_score : option score;
  rc_rrf_score : score;
  rc_trust : score;
  rc_score : score;
}.

(** Tuple comparison [(x, id) <= (y, id')], ascending and descending in [x]. *)
Definition pair_leb (x : score) (i : UUID) (y : score) (j : UUID) : bool :=
  s_ltb x y || (s_eqb x y && (i <=? j)).

Definition by_distance (a b : VectorHit) : bool :=
  pair_leb (vh_distance a) (vh_id a) (vh_distance b) (vh_id b).
Definition by_text_score (a b : TextHit) : bool :=
  s_ltb (th_score b) (th_score a) || (s_eqb (th_score a) (th_score b) && (th_id a <=? th_id b)).
Definition by_final_score (a b : RankedCandidate) : bool :=
  s_ltb (rc_score b) (rc_score a) || (s_eqb (rc_score a) (rc_score b) && (rc_id a <=? rc_id b)).

(** [_dedupe]: each version's first (best) hit. *)
Fixpoint dedupe_from {A} (ident : A → UUID) (seen : list UUID) (hits : list A) : list A :=
  match hits with
  | [] => []
  | h :: hits' => if bool_decide (ident h ∈ seen) then dedupe_from ident seen hits'
                  else h :: dedupe_from ident (ident h :: seen) hits'
  end.
Definition dedupe {A} (ident : A → UUID) (hits : list A) : list A := dedupe_from ident [] hits.

(** [{hit.fact_version_id: (i, hit)}.get(version_id)] *)
Definition rank_of {A} (ident : A → UUID) (i : UUID) (ranked : list (Z * A)) : option (Z * A) :=
  List.find (λ r, ident r.2 =? i) ranked.

Definition trust_of (i : UUID) (trust : list (UUID * score)) : score :=
  match List.find (λ t, t.1 =? i) trust with Some t => t.2 | None => s_zero end.

Definition rrf_term {A} (rrf_k : Z) (r : option (Z * A)) : score :=
  match r with Some (n, _) => s_recip (rrf_k + n) | None => s_zero end.

Definition candidate (trust_weight : score) (rrf_k : Z) (trust : list (UUID * score))
    (vector_rank : list (Z * VectorHit)) (text_rank : list (Z * TextHit)) (i : UUID) :
    RankedCandidate :=
  let v := rank_of vh_id i vector_rank in
  let t := rank_of th_id i text_rank in
  let rrf := s_add (rrf_term rrf_k v) (rrf_term rrf_k t) in
  let version_trust := trust_of i trust in
  {| rc_id := i;
     rc_vector_rank := option_map fst v;
     rc_vector_distance := option_map (λ r, vh_distance r.2) v;
     rc_text_rank := option_map fst t;
     rc_text_score := option_map (λ r, th_score r.2) t;
     rc_rrf_score := rrf;
     rc_trust := version_trust;
     rc_score := s_mul rrf (s_add (s_sub s_one trust_weight) (s_mul trust_weight version_trust)) |}.

(** Each branch, best first, one hit per version. *)
Definition ranked_vectors (vector_hits : list VectorHit) : list VectorHit :=
  dedupe vh_id (sort_by by_distance vector_hits).
Definition ranked_texts (text_hits : list TextHit) : list TextHit :=
  dedupe th_id (sort_by by_text_score text_hits).

(** [vector_rank.keys() | text_rank.keys()]: a set; its iteration order does not
    matter ([fuse_deterministic]). *)
Definition fused_ids (vector_hits : list VectorHit) (text_hits : list TextHit) : list UUID :=
  dict_fromkeys (map vh_id (ranked_vectors vector_hits) ++ map th_id (ranked_texts text_hits)).

Definition fuse_over (ids : list UUID) (vector_hits : list VectorHit) (text_hits : list TextHit)
    (trust : list (UUID * score)) (trust_weight : score) (rrf_k : Z) : list RankedCandidate :=
  let vector_rank := enumerate_from 1 (ranked_vectors vector_hits) in
  let text_rank := enumerate_from 1 (ranked_texts text_hits) in
  sort_by by_final_score (map (candidate trust_weight rrf_k trust vector_rank text_rank) ids).

Definition fuse_ranked (vector_hits : list VectorHit) (text_hits : list TextHit)
    (trust : list (UUID * score)) (trust_weight : score) (rrf_k : Z) : list RankedCandidate :=
  fuse_over (fused_ids vector_hits text_hits) vector_hits text_hits trust trust_weight rrf_k.

Definition fuse (vector_hits : list VectorHit) (text_hits : list TextHit)
    (trust : list (UUID * score)) (trust_weight : score) (rrf_k : Z) :
    result (list RankedCandidate) :=
  _ ← validate_trust_weight trust_weight;
  if rrf_k <? 1 then Err (ValidationFailedError "rrf_k must be positive")
  else Ok (fuse_ranked vector_hits text_hits trust trust_weight rrf_k).

(** ** Deduplication keeps the best hit *)

Lemma elem_of_dedupe_from {A} (ident : A → UUID) seen l x :
  x ∈ dedupe_from ident seen l → x ∈ l ∧ ident x ∉ seen.
Proof.
  revert seen. induction l as [|h l IH]; intros seen; simpl; [by intros ?%not_elem_of_nil|].
  case_bool_decide as Hs.
  - intros [??]%IH. split; [by right|done].
  - intros [->|[Hx Hn]%IH]%elem_of_cons; [split; [by left|done]|].
    split; [by right|]. set_solver.
Qed.

Lemma dedupe_from_ids {A} (ident : A → UUID) seen l i :
  i ∈ map ident (dedupe_from ident seen l) ↔ i ∈ map ident l ∧ i ∉ seen.
Proof.
  revert seen. induction l as [|h l IH]; intros seen; simpl; [set_solver|].
  case_bool_decide; [rewrite IH; set_solver|].
  cbn [map]. rewrite !elem_of_cons, (IH (ident h :: seen)). destruct (decide (i = ident h)); set_solver.
Qed.

Lemma dedupe_from_NoDup {A} (ident : A → UUID) seen l :
  NoDup (map ident (dedupe_from ident seen l)).
Proof.
  revert seen. induction l as [|h l IH]; intros seen; cbn [dedupe_from]; [constructor|].
  case_bool_decide; [done|]. cbn [map]. constructor; [|done].
  change (ident h ∉ map ident (dedupe_from ident (ident h :: seen) l)).
  rewrite dedupe_from_ids. set_solver.
Qed.

(** The hit kept for a version precedes its other hits. *)
Lemma dedupe_from_first {A} (le : A → A → bool) (ident : A → UUID) seen l x y :
  (∀ z, le z z = true) → StronglySorted le l →
  x ∈ dedupe_from ident seen l → y ∈ l → ident y = ident x → le x y = true.
Proof.
  intros Hrefl Hl. revert seen. induction Hl as [|h l Hl IH Hh]; intros seen; simpl;
    [by intros ?%not_elem_of_nil|].
  rewrite Forall_forall in Hh. case_bool_decide as Hs; intros Hx Hy E.
  - apply elem_of_cons in Hy as [->|Hy]; [|by eapply IH].
    apply elem_of_dedupe_from in Hx as [_ Hn]. congruence.
  - apply elem_of_cons in Hx as [->|Hx].
    + apply elem_of_cons in Hy as [->|Hy]; [done|]. by apply Is_true_true, Hh.
    + apply elem_of_cons in Hy as [->|Hy]; [|by eapply IH].
      apply elem_of_dedupe_from in Hx as [_ Hn]. set_solver.
Qed.

(** ** Ranks *)

Lemma rank_of_spec {A} (ident : A → UUID) i l n :
  match rank_of ident i (enumerate_from n l) with
  | Some (r, h) => l !! Z.to_nat (r - n) = Some h ∧ n ≤ r ∧ ident h = i
  | None => i ∉ map ident l
  end.
Proof.
  revert n. induction l as [|h l IH]; intros n; simpl; [apply not_elem_of_nil|].
  unfold rank_of. cbn [enumerate_from List.find snd]. destruct (Z.eqb_spec (ident h) i) as [E|E].
  - rewrite Z.sub_diag. done.
  - specialize (IH (n + 1)). unfold rank_of in IH. destruct (List.find _ _) as [[r h']|].
    + destruct IH as (IH & ? & ?). split_and!; [|lia|done].
      replace (Z.to_nat (r - n)) with (S (Z.to_nat (r - (n + 1)))) by lia. done.
    + intros [?|?]%elem_of_cons; [congruence|done].
Qed.

Lemma candidate_id w k trust vr tr i : rc_id (candidate w k trust vr tr i) = i.
Proof. done. Qed.

Lemma elem_of_fused_ids vs ts i : i ∈ fused_ids vs ts ↔ i ∈ map vh_id vs ∨ i ∈ map th_id ts.
Proof.
  unfold fused_ids, ranked_vectors, ranked_texts, dedupe.
  rewrite elem_of_dict_fromkeys, elem_of_app, !dedupe_from_ids.
  rewrite !list_elem_of_fmap. setoid_rewrite elem_of_sort_by. set_solver.
Qed.

Lemma fuse_over_ids ids vs ts trust w k : map rc_id (fuse_over ids vs ts trust w k) ≡ₚ ids.
Proof.
  unfold fuse_over. rewrite sort_by_perm, map_map. simpl. by rewrite map_id.
Qed.

Lemma fuse_ranked_ids_NoDup vs ts trust w k : NoDup (map rc_id (fuse_ranked vs ts trust w k)).
Proof. unfold fuse_ranked. rewrite fuse_over_ids. apply NoDup_dict_fromkeys. Qed.

Lemma fuse_ranked_ids vs ts trust w k i :
  i ∈ map rc_id (fuse_ranked vs ts trust w k) ↔ i ∈ map vh_id vs ∨ i ∈ map th_id ts.
Proof. unfold fuse_ranked. by rewrite fuse_over_ids, elem_of_fused_ids. Qed.

Lemma elem_of_fuse_ranked vs ts trust w k c :
  c ∈ fuse_ranked vs ts trust w k →
  c = candidate w k trust (enumerate_from 1 (ranked_vectors vs))
        (enumerate_from 1 (ranked_texts ts)) (rc_id c).
Proof.
  unfold fuse_ranked, fuse_over. rewrite elem_of_sort_by.
  by intros (i & -> & _)%list_elem_of_fmap.
Qed.

Lemma fuse_ok vs ts trust w k r :
  fuse vs ts trust w k = Ok r ↔
  validate_trust_weight w = Ok w ∧ 1 ≤ k ∧ r = fuse_ranked vs ts trust w k.
Proof.
  unfold fuse, validate_trust_weight, mbind, result_bind.
  destruct (s_leb s_zero w && s_leb w s_one); [|naive_solver].
  destruct (Z.ltb_spec k 1); split; [done|lia|naive_solver|naive_solver].
Qed.

(** ** Orders *)

Context `{SL : !ScoreLaws}.

Lemma s_leb_refl a : s_leb a a = true.
Proof. destruct (s_leb a a) eqn:E; [done|]. pose proof (s_total a a E). congruence. Qed.

Lemma s_eqb_eq a b : s_eqb a b = true ↔ a = b.
Proof.
  unfold s_eqb. rewrite andb_true_iff. split; [intros [??]; by apply s_anti|].
  intros ->. by rewrite s_leb_refl.
Qed.

Lemma s_ltb_iff a b : s_ltb a b = true ↔ s_leb a b = true ∧ a ≠ b.
Proof.
  unfold s_ltb. rewrite negb_true_iff. split.
  - intros H. split; [by apply s_total|]. intros ->. by rewrite s_leb_refl in H.
  - intros [H Hne]. destruct (s_leb b a) eqn:E; [|done]. by destruct (Hne (s_anti a b H E)).
Qed.

Lemma pair_leb_iff x i y j : pair_leb x i y j = true ↔ (s_leb x y = true ∧ x ≠ y) ∨ (x = y ∧ i ≤ j).
Proof. unfold pair_leb. rewrite orb_true_iff, andb_true_iff, s_ltb_iff, s_eqb_eq, Z.leb_le. done. Qed.

Lemma pair_leb_total x i y j : pair_leb x i y j = false → pair_leb y j x i = true.
Proof.
  intros H. destruct (pair_leb y j x i) eqn:E; [done|]. exfalso.
  apply not_true_iff_false in H, E. rewrite pair_leb_iff in H, E.
  destruct (s_leb x y) eqn:Exy.
  - destruct (s_leb y x) eqn:Eyx.
    + assert (x = y) as -> by (by apply s_anti). destruct (Z.le_ge_cases i j); [tauto|]. apply E. right. split; [done|lia].
    + apply H. left. split; [done|]. intros ->. congruence.
  - apply E. left. split; [by apply s_total|]. intros ->. by rewrite s_leb_refl in Exy.
Qed.

Lemma pair_leb_trans x i y j z k :
  pair_leb x i y j = true → pair_leb y j z k = true → pair_leb x i z k = true.
Proof.
  rewrite !pair_leb_iff. intros [[H1 N1]|[-> H1]] [[H2 N2]|[-> H2]].
  - left. split; [by eapply s_trans|]. intros ->. apply N1. by apply s_anti.
  - left. done.
  - left. done.
  - right. split; [done|lia].
Qed.

Lemma pair_leb_anti x i y j :
  pair_leb x i y j = true → pair_leb y j x i = true → x = y ∧ i = j.
Proof.
  rewrite !pair_leb_iff. intros [[H1 N1]|[-> H1]] [[H2 N2]|[E H2]]; try done.
  - by destruct (N1 (s_anti _ _ H1 H2)).
  - split; [done|lia].
Qed.

(** The descending orders are the ascending one read backwards in the score. *)
Lemma desc_iff (x : score) i (y : score) j :
  s_ltb y x || (s_eqb x y && (i <=? j)) = true ↔ (s_leb y x = true ∧ x ≠ y) ∨ (x = y ∧ i ≤ j).
Proof. rewrite orb_true_iff, andb_true_iff, s_ltb_iff, s_eqb_eq, Z.leb_le. naive_solver. Qed.

Lemma desc_total (x : score) i (y : score) j :
  s_ltb y x || (s_eqb x y && (i <=? j)) = false → s_ltb x y || (s_eqb y x && (j <=? i)) = true.
Proof.
  intros H. apply desc_iff. apply not_true_iff_false in H. rewrite desc_iff in H.
  destruct (s_leb x y) eqn:E.
  - destruct (s_leb y x) eqn:E'.
    + assert (x = y) as -> by (by apply s_anti). right. split; [done|]. destruct (Z.le_ge_cases i j); [tauto|lia].
    + left. split; [done|]. intros ->. congruence.
  - exfalso. apply H. left. split; [by apply s_total|]. intros ->. by rewrite s_leb_refl in E.
Qed.

Lemma desc_trans (x : score) i (y : score) j (z : score) k :
  s_ltb y x || (s_eqb x y && (i <=? j)) = true → s_ltb z y || (s_eqb y z && (j <=? k)) = true →
  s_ltb z x || (s_eqb x z && (i <=? k)) = true.
Proof.
  rewrite !desc_iff. intros [[H1 N1]|[-> H1]] [[H2 N2]|[-> H2]].
  - left. split; [by eapply s_trans|]. intros ->. apply N1. by apply s_anti.
  - left. done.
  - left. done.
  - right. split; [done|lia].
Qed.

Lemma desc_anti (x : score) i (y : score) j :
  s_ltb y x || (s_eqb x y && (i <=? j)) = true → s_ltb x y || (s_eqb y x && (j <=? i)) = true →
  x = y ∧ i = j.
Proof.
  rewrite !desc_iff. intros [[H1 N1]|[-> H1]] [[H2 N2]|[E H2]]; try done.
  - by destruct (N1 (s_anti _ _ H2 H1)).
  - split; [done|lia].
Qed.


Lemma by_distance_total a b : by_distance a b = false → by_distance b a = true.
Proof. apply pair_leb_total. Qed.
Lemma by_distance_trans a b c : by_distance a b = true → by_distance b c = true → by_distance a c = true.
Proof. apply pair_leb_trans. Qed.
Lemma by_distance_anti a b : by_distance a b = true → by_distance b a = true → a = b.
Proof. intros H1 H2. destruct (pair_leb_anti _ _ _ _ H1 H2). destruct a, b. simpl in *. congruence. Qed.

Lemma by_text_total a b : by_text_score a b = false → by_text_score b a = true.
Proof. apply desc_total. Qed.
Lemma by_text_trans a b c :
  by_text_score a b = true → by_text_score b c = true → by_text_score a c = true.
Proof. apply desc_trans. Qed.
Lemma by_text_anti a b : by_text_score a b = true → by_text_score b a = true → a = b.
Proof. intros H1 H2. destruct (desc_anti _ _ _ _ H1 H2). destruct a, b. simpl in *. congruence. Qed.

Lemma by_final_total a b : by_final_score a b = false → by_final_score b a = true.
Proof. apply desc_total. Qed.
Lemma by_final_trans a b c :
  by_final_score a b = true → by_final_score b c = true → by_final_score a c = true.
Proof. apply desc_trans. Qed.

Lemma sort_candidates_perm (f : UUID → RankedCandidate) l k :
  (∀ i, rc_id (f i) = i) → l ≡ₚ k →
  sort_by by_final_score (map f l) = sort_by by_final_score (map f k).
Proof using SL.
  intros Hf H. apply (StronglySorted_unique_strong by_final_score).
  - intros x y Hx Hy. rewrite elem_of_sort_by in Hx, Hy.
    apply list_elem_of_fmap in Hx as (i & -> & _), Hy as (j & -> & _).
    rewrite !Is_true_true. intros H1 H2. destruct (desc_anti _ _ _ _ H1 H2) as [_ E].
    rewrite !Hf in E. by subst.
  - apply sort_by_sorted; [apply by_final_total|apply by_final_trans].
  - apply sort_by_sorted; [apply by_final_total|apply by_final_trans].
  - rewrite !sort_by_perm. by apply fmap_Permutation.
Qed.

Lemma ranked_vectors_perm vs vs' : vs ≡ₚ vs' → ranked_vectors vs = ranked_vectors vs'.
Proof using SL.
  intros H. unfold ranked_vectors. f_equal.
  by apply sort_by_unique; [apply by_distance_total|apply by_distance_trans|apply by_distance_anti|].
Qed.

Lemma ranked_texts_perm ts ts' : ts ≡ₚ ts' → ranked_texts ts = ranked_texts ts'.
Proof using SL.
  intros H. unfold ranked_texts. f_equal.
  by apply sort_by_unique; [apply by_text_total|apply by_text_trans|apply by_text_anti|].
Qed.

Lemma fuse_ranked_sorted vs ts trust w k :
  StronglySorted by_final_score (fuse_ranked vs ts trust w k).
Proof using SL. apply sort_by_sorted; [apply by_final_total|apply by_final_trans]. Qed.

(** Fusion is deterministic: the order in which the branches (and the union
    of their key sets) deliver candidates does not matter. *)
Theorem fuse_deterministic vs vs' ts ts' trust w k ids :
  vs ≡ₚ vs' → ts ≡ₚ ts' → ids ≡ₚ fused_ids vs ts →
  fuse vs ts trust w k = fuse vs' ts' trust w k ∧
  fuse_over ids vs ts trust w k = fuse_ranked vs ts trust w k.
Proof using SL.
  intros Hv Ht Hi. split.
  - unfold fuse, fuse_ranked, fuse_over, fused_ids.
    by rewrite (ranked_vectors_perm vs vs'), (ranked_texts_perm ts ts').
  - by apply sort_candidates_perm.
Qed.

(** What fusion returns: one candidate per version found by a branch, best
    score first with ties broken by id; a branch's rank of a candidate is its
    place among that branch's distinct versions, taken at its best hit, and is
    absent exactly when the branch did not find it. *)
Theorem fuse_spec vs ts trust w k r :
  fuse vs ts trust w k = Ok r →
  NoDup (map rc_id r) ∧ StronglySorted by_final_score r ∧
  (∀ i, i ∈ map rc_id r ↔ i ∈ map vh_id vs ∨ i ∈ map th_id ts) ∧
  ∀ c, c ∈ r →
    (rc_vector_rank c = None ↔ rc_id c ∉ map vh_id vs) ∧
    (∀ n, rc_vector_rank c = Some n → ∃ h, ranked_vectors vs !! Z.to_nat (n - 1) = Some h ∧
       1 ≤ n ∧ vh_id h = rc_id c ∧ rc_vector_distance c = Some (vh_distance h) ∧
       ∀ h', h' ∈ vs → vh_id h' = rc_id c → s_leb (vh_distance h) (vh_distance h') = true).
Proof using SL.
  intros (_ & _ & ->)%fuse_ok. split_and!.
  - apply fuse_ranked_ids_NoDup.
  - apply fuse_ranked_sorted.
  - apply fuse_ranked_ids.
  - intros c ->%elem_of_fuse_ranked. cbn [candidate rc_vector_rank rc_id rc_vector_distance].
    pose proof (rank_of_spec vh_id (rc_id c) (ranked_vectors vs) 1) as Hr.
    destruct (rank_of _ _ _) as [[r h]|]; cbn [option_map fst snd].
    + destruct Hr as (Hl & Hr & Hid). apply list_elem_of_lookup_2 in Hl as Hin. split.
      * split; [done|]. intros Hn. destruct Hn. rewrite <-Hid. apply list_elem_of_fmap.
        exists h. split; [done|]. apply elem_of_dedupe_from in Hin as [Hin _].
        by rewrite elem_of_sort_by in Hin.
      * intros n [= <-]. exists h. split_and!; try done. intros h' Hh' E.
        assert (H : by_distance h h' = true).
        { eapply (dedupe_from_first by_distance vh_id []); [| | done | |congruence].
          - intros z. apply pair_leb_iff. right. split; [done|lia].
          - apply sort_by_sorted; [apply by_distance_total|apply by_distance_trans].
          - by apply elem_of_sort_by. }
        apply pair_leb_iff in H as [[? _]|[-> _]]; [done|apply s_leb_refl].
    + split; [|done]. split; [|done]. intros _ Hin. apply Hr.
      unfold ranked_vectors, dedupe. rewrite dedupe_from_ids. split; [|apply not_elem_of_nil].
      rewrite !list_elem_of_fmap in *. setoid_rewrite elem_of_sort_by. done.
Qed.

End ranking.
