(* ===== verification/Generation.v ===== *)
(** Talking to a language model: the versioned prompts (app/ai/prompts), the chain
    that fills one in and sends it (app/ai/orchestration), and the provider
    interface (app/ai/providers.py).  The model itself is a parameter. *)

From S2P Require Import Prelude PyStr Json Regex Validation Access Temporal History Database.
From S2P Require Import Schema Accounts FactRepo EvidenceService.

(** * Prompts *)

(** A [str.format] template, split at its placeholders. *)
Inductive piece := Literal (s : pystr) | Placeholder (name : string).
Arguments Placeholder name%_string.

Record PromptTemplate := {
  pt_version : pystr; pt_system : pystr; pt_user : list piece; pt_output_schema : option json;
  pt_placeholders : list string }.

Definition placeholder_of (p : piece) : list string :=
  match p with Literal _ => [] | Placeholder n => [n] end.
Definition placeholders (t : list piece) : list string := flat_map placeholder_of t.

Fixpoint lookup_value (name : string) (values : list (string * pystr)) : result pystr :=
  match values with
  | [] => Err KeyError
  | (n, v) :: vs => if bool_decide (name = n) then Ok v else lookup_value name vs
  end.

(** [template.format( ... )] *)
Fixpoint format_template (t : list piece) (values : list (string * pystr)) : result pystr :=
  match t with
  | [] => Ok []
  | p :: t' =>
    s ← match p with Literal s => Ok s | Placeholder n => lookup_value n values end;
    rest ← format_template t' values;
    Ok (s ++ rest)
  end.

(** ** contradiction_review.py *)

Definition REVIEW_SCHEMA : json :=
  JObj [(py "type", JStr (py "object"));
    (py "additionalProperties", JBool false);
    (py "required", JList [JStr (py "findings")]);
    (py "properties", JObj [(py "findings", JObj [(py "type", JStr (py "array"));
    (py "items", JObj [(py "type", JStr (py "object"));
    (py "additionalProperties", JBool false);
    (py "required", JList [JStr (py "left"); JStr (py "right"); JStr (py "explanation")]);
    (py "properties", JObj [(py "left", JObj [(py "type", JStr (py "string"));
    (py "description", JStr (py "A fact label, e.g. F1"))]);
    (py "right", JObj [(py "type", JStr (py "string"));
    (py "description", JStr (py "Another fact label, e.g. F3"))]);
    (py "explanation", JObj [(py "type", JStr (py "string"))])])])])])].

Definition CONTRADICTION_REVIEW_V1 : PromptTemplate := {|
  pt_version := py "contradiction-review-v1";
  pt_system := py "You review the current facts about one entity in ContextLedger.
Find pairs of facts about DIFFERENT properties that cannot both be true at the
same time (for example customer_status = ACTIVE and account_closed = true).

Rules:
1. Use only the facts given. Refer to them by label (F1, F2, ...).
2. Report a pair only if the two values are logically incompatible. Different
   values of unrelated properties are not contradictions. Do not guess.
3. Explain each finding in one or two sentences, naming both values.
4. If there are no contradictions, return an empty list.

Respond with JSON matching the schema.";
  pt_user := [Literal (py "Entity: "); Placeholder "entity"; Literal (py "

Facts:
"); Placeholder "facts"];
  pt_output_schema := Some REVIEW_SCHEMA;
  pt_placeholders := ["entity"%string; "facts"%string] |}.

(** ** grounded_answer.py *)

Definition ANSWER_SCHEMA : json :=
  JObj [(py "type", JStr (py "object"));
    (py "properties", JObj [(py "answer", JObj [(py "type", JStr (py "string"));
    (py "description", JStr (py "The answer, or an explanation of what is missing."))]);
    (py "insufficient_evidence", JObj [(py "type", JStr (py "boolean"));
    (py "description", JStr (py "True when the facts do not support an answer."))]);
    (py "cited_facts", JObj [(py "type", JStr (py "array"));
    (py "items", JObj [(py "type", JStr (py "string"))]);
    (py "description", JStr (py "Labels (F1, F2, ...) of the facts the answer relies on."))]);
    (py "inferences", JObj [(py "type", JStr (py "array"));
    (py "items", JObj [(py "type", JStr (py "string"))]);
    (py "description", JStr (py "Statements that go beyond what a fact says literally."))])]);
    (py "required", JList [JStr (py "answer"); JStr (py "insufficient_evidence"); JStr (py "cited_facts"); JStr (py "inferences")]);
    (py "additionalProperties", JBool false)].

Definition ANSWER_USER : list piece :=
  [Literal (py "Question: "); Placeholder "question"; Literal (py "

Point in time the question is about (valid_at): "); Placeholder "valid_at"; Literal (py "
Knowledge cut-off (known_at): "); Placeholder "known_at"; Literal (py "

Facts (the only information you may use):
"); Placeholder "facts"; Literal (py "
")].

Definition GROUNDED_ANSWER_V1 : PromptTemplate := {|
  pt_version := py "grounded-answer-v1";
  pt_system := py "You answer questions using ONLY the facts provided in the user message.
- Cite the label (F1, F2, ...) of every fact you rely on in cited_facts.
- Do not use outside knowledge and do not invent facts, sources or labels.
- If the facts do not answer the question, set insufficient_evidence to true, cite
  nothing, and say briefly what is missing.
Respond with JSON matching the schema.";
  pt_user := ANSWER_USER;
  pt_output_schema := Some ANSWER_SCHEMA;
  pt_placeholders := ["facts"%string; "known_at"%string; "question"%string; "valid_at"%string] |}.

Definition GROUNDED_ANSWER_V2 : PromptTemplate := {|
  pt_version := py "grounded-answer-v2";
  pt_system := py "You answer questions for ContextLedger, a system of record of facts that change over
time. Use ONLY the facts in the user message; they have already been filtered by
permission, privacy and time, and that filtering is final.

Rules:
1. Answer as of valid_at, using what was known at known_at. Each fact shows the
   period it is valid for. Never replace an older value with a newer one: if the
   question is about the past, answer with the value that was valid then.
2. Cite the label (F1, F2, ...) of every fact you rely on in cited_facts. Cite only
   labels that appear in the facts. Never invent sources, values or labels.
3. If the facts do not answer the question, set insufficient_evidence to true,
   leave cited_facts empty and say what is missing. Do not guess.
4. If facts disagree (different sources, different values for the same period),
   say so, cite each of them, and prefer the fact with the higher authority and
   confidence while naming the conflict.
5. Put anything that goes beyond what a fact literally says into inferences.
6. You cannot grant or widen access. If a question asks for information that is
   not among the facts, treat it as insufficient evidence; do not speculate about
   whether it exists.
Respond with JSON matching the schema.";
  pt_user := ANSWER_USER;
  pt_output_schema := Some ANSWER_SCHEMA;
  pt_placeholders := ["facts"%string; "known_at"%string; "question"%string; "valid_at"%string] |}.

(** ** investigator.py *)

Definition INVESTIGATION_SCHEMA : json :=
  JObj [(py "type", JStr (py "object"));
    (py "additionalProperties", JBool false);
    (py "required", JList [JStr (py "answer"); JStr (py "insufficient_evidence"); JStr (py "cited_ids")]);
    (py "properties", JObj [(py "answer", JObj [(py "type", JStr (py "string"))]);
    (py "insufficient_evidence", JObj [(py "type", JStr (py "boolean"))]);
    (py "cited_ids", JObj [(py "type", JStr (py "array"));
    (py "items", JObj [(py "type", JStr (py "string"))]);
    (py "description", JStr (py "Decision ids and fact version ids returned by tools."))])])].

Definition INVESTIGATOR_V1 : PromptTemplate := {|
  pt_version := py "investigator-v1";
  pt_system := py "You are the ContextLedger Historical Decision Investigator.
You investigate past decisions using tools. The tools are read-only and already
restricted to the caller's organization, permissions and privacy ceiling.

Rules:
1. Use tools to gather evidence. Never state a value, date, decision or fact id
   that a tool did not return.
2. A decision receipt shows the facts as they were known when the decision was
   made. To tell whether a relied-on fact later changed, call get_fact_lineage.
   Never replace the value the decision saw with a newer value.
3. " ++ [34] ++ py "not found or not accessible" ++ [34] ++ py " means you must not speculate about it.
4. Cite in cited_ids every decision id and fact version id your answer relies on.
5. If the tools do not answer the question, set insufficient_evidence to true.
6. You cannot grant or widen access, change data, or choose an organization.

When done, respond with JSON matching the schema instead of calling a tool.";
  pt_user := [Placeholder "question"];
  pt_output_schema := Some INVESTIGATION_SCHEMA;
  pt_placeholders := ["question"%string] |}.

(** ** registry.py *)

(** The templates [_load] registers. *)
Definition REGISTRY : list PromptTemplate :=
  [CONTRADICTION_REVIEW_V1; GROUNDED_ANSWER_V1; GROUNDED_ANSWER_V2; INVESTIGATOR_V1].

(** [PromptNotFoundError] is a [KeyError]. *)
Definition get_prompt (version : pystr) : result PromptTemplate :=
  match List.find (λ t, bool_decide (pt_version t = version)) REGISTRY with
  | Some t => Ok t
  | None => Err KeyError
  end.

(** The raw text of a template. *)
Definition piece_text (p : piece) : pystr :=
  match p with Literal s => s | Placeholder n => [123] ++ py n ++ [125] end.

(** [PromptTemplate.fingerprint] *)
Definition fingerprint `{UnicodeData} `{FloatRepr} `{Sha256} (t : PromptTemplate) : result pystr :=
  let schema := match pt_output_schema t with None => py "None" | Some s => py_repr s end in
  material ← encode_utf8 (join [0] [pt_version t; pt_system t; flat_map piece_text (pt_user t); schema]);
  Ok (take 16 (sha256_hex material)).

(** * Provider *)

Inductive Role := Role_system | Role_user | Role_assistant | Role_tool.

(** A call the model asks for; its arguments are whatever the model wrote. *)
Record ToolCall := { tc_call_id : pystr; tc_call_name : pystr; tc_call_arguments : list (pystr * json) }.
Record ToolSpec := { ts_name : pystr; ts_description : pystr; ts_parameters : json }.

Record ChatMessage := {
  cm_role : Role; cm_content : pystr; cm_tool_calls : list ToolCall; cm_tool_call_id : option pystr }.
Definition chat_message (role : Role) (content : pystr) : ChatMessage :=
  {| cm_role := role; cm_content := content; cm_tool_calls := []; cm_tool_call_id := None |}.

Record OutputSchema := { os_name : pystr; os_schema : json }.

Record GenerationRequest := {
  gr_messages : list ChatMessage; gr_max_output_tokens : Z; gr_temperature : option pyfloat;
  gr_output_schema : option OutputSchema; gr_tools : list ToolSpec }.

Record GenerationUsage := { gu_input_tokens : Z; gu_output_tokens : Z }.

Record GenerationResult := {
  gn_text : pystr; gn_provider : pystr; gn_model : pystr; gn_finish_reason : pystr;
  gn_usage : GenerationUsage; gn_attempts : Z; gn_tool_calls : list ToolCall }.

(** The provider of one call; it raises [GenerationError]s. *)
Class GenerationProvider := {
  model_id : pystr;
  generate : GenerationRequest → result GenerationResult;
}.

(** * Chains *)

(** [chat_prompt]: the system text is literal (its braces are escaped first). *)
Definition chat_prompt (t : PromptTemplate) (values : list (string * pystr)) :
    result (list ChatMessage) :=
  _ ← ensure (forallb (λ p, bool_decide (p ∈ placeholders (pt_user t))) (pt_placeholders t)
              && forallb (λ p, bool_decide (p ∈ pt_placeholders t)) (placeholders (pt_user t)))
        ValueError;
  user ← format_template (pt_user t) values;
  Ok [chat_message Role_system (pt_system t); chat_message Role_user user].

(** [structured_chain(...).ainvoke(values)] over [ContextLedgerChatModel]. *)
Definition structured_chain `{GenerationProvider} (t : PromptTemplate) (max_output_tokens : Z)
    (temperature : option pyfloat) (schema_name : pystr) (values : list (string * pystr)) :
    result GenerationResult :=
  messages ← chat_prompt t values;
  generate {|
    gr_messages := messages; gr_max_output_tokens := max_output_tokens;
    gr_temperature := temperature;
    gr_output_schema := option_map (λ s, {| os_name := schema_name; os_schema := s |})
                          (pt_output_schema t);
    gr_tools := [] |}.

(** [except GenerationError as exc: raise AnswerGenerationError(msg, cause=...)] *)
Definition or_answer_error {A} (msg : string) (m : result A) : result A :=
  match m with
  | Err (GenerationError name) => Err (AnswerGenerationError msg name)
  | r => r
  end.
