(* ===== verification/Retrieval.v ===== *)
(** Hybrid retrieval: repositories/retrieval.py (the candidate queries with their
    hard filters, hydration) and services/retrieval.py (validation, the two
    permission checks, fusion, the result cache). *)

From S2P Require Import Prelude PyStr Json Regex Validation Access Temporal History Database.
From S2P Require Import Schema Accounts FactRepo EvidenceService FactService Ledger AppendOnly.
From S2P Require Import TemporalService Ranking Calendar.

(** PostgreSQL full-text search, pgvector and the embedding provider.  The HNSW
    scan is approximate: it returns some of the matching rows, at most [n]. *)
Class SearchEngine `{ScoreOps} := {
  tsvector : Type;
  tsquery : Type;
  vector : Type;
  or_tsquery : pystr → tsquery;
  ts_match : tsvector → tsquery → bool;             (* @@ *)
  ts_rank_cd : tsvector → tsquery → score;
  cosine_distance : vector → vector → score;
  hnsw_scan : Z → list VectorHit → list VectorHit;  (* ORDER BY distance LIMIT n *)
  confidence_at_least : decimal → Z → bool;         (* column >= bound decimal *)
  provider_model_id : pystr;
  provider_embed : list pystr → option (list vector);  (* None: EmbeddingProviderError *)
}.

Class SearchEngineLaws `{SearchEngine} := {
  hnsw_scan_sub : ∀ n l, hnsw_scan n l ⊆+ l;
  hnsw_scan_limit : ∀ n l, zlen (hnsw_scan n l) ≤ Z.max 0 n;
}.

(** Texts of a request's values: [float] of a score, [str] of a decimal, [isoformat]. *)
Class RequestText `{ScoreOps} := {
  score_float : score → pyfloat;
  decimal_str : decimal → pystr;
  datetime_iso : datetime → pystr;
}.

Section retrieval.
Context `{UD : !UnicodeData} `{SO : !ScoreOps} `{SE : !SearchEngine}.

(** Rows of [fact_search_documents] and [fact_embeddings], written by a trigger
    and by the embedding worker. *)
Record search_document := { sd_organization_id : UUID; sd_fact_version_id : UUID; sd_vector : tsvector }.
Record fact_embedding := {
  fe_organization_id : UUID; fe_fact_version_id : UUID; fe_model : pystr; fe_embedding : vector }.
Record search_index := { si_documents : list search_document; si_embeddings : list fact_embedding }.

(** * Repository *)

Record RetrievalFilters := {
  fl_entity_type : option pystr;
  fl_external_ids : list pystr;
  fl_properties : list pystr;
  fl_source_ids : list UUID;
  fl_min_authority : option Z;
  fl_min_confidence : option decimal;
}.

(** An empty tuple of values does not restrict. *)
Definition in_or_all `{EqDecision A} (x : A) (l : list A) : bool :=
  bool_decide (l = []) || bool_decide (x ∈ l).

Definition at_least_opt {A} (ge : A → Z → bool) (bound : option A) (x : Z) : bool :=
  match bound with None => true | Some b => ge b x end.

Record search_scope := {
  sc_org : UUID;
  sc_valid_at : Instant;
  sc_known_at : option Instant;
  sc_scopes : list PrivacyScope;
  sc_filters : RetrievalFilters;
}.

(** The WHERE clause of [_scoped] on a version joined with its fact and entity. *)
Definition scoped_where (q : search_scope) (d : db) (v : fact_version) (f : fact) (e : entity) : bool :=
  let fl := sc_filters q in
  (fv_organization_id v =? sc_org q)
  && valid_at_condition (sc_valid_at q) (sc_known_at q) d v
  && bool_decide (fv_privacy_scope v ∈ sc_scopes q)
  && match fl_entity_type fl with None => true | Some t => bool_decide (e_entity_type e = t) end
  && in_or_all (e_external_id e) (fl_external_ids fl)
  && in_or_all (f_property f) (fl_properties fl)
  && in_or_all (fv_source_id v) (fl_source_ids fl)
  && at_least_opt Z.leb (fl_min_authority fl) (fv_authority v)
  && at_least_opt confidence_at_least (fl_min_confidence fl) (fv_confidence v).

Definition fact_of (v : fact_version) (f : fact) : bool :=
  (f_organization_id f =? fv_organization_id v) && (f_id f =? fv_fact_id v).
Definition entity_of (f : fact) (e : entity) : bool :=
  (e_organization_id e =? f_organization_id f) && (e_id e =? f_entity_id f).
Definition source_of (v : fact_version) (s : fact_source) : bool :=
  (s_organization_id s =? fv_organization_id v) && (s_id s =? fv_source_id v).

(** One row per version that passes, once per joined fact and entity. *)
Definition scoped (q : search_scope) (d : db) (v : fact_version) : list fact_version :=
  f ← where_ (fact_of v) (tab d Facts);
  e ← where_ (entity_of f) (tab d Entities);
  if scoped_where q d v f e then [v] else [].

Definition text_branch (q : search_scope) (index : search_index) (query : pystr) (pool : Z) (d : db) :
    list TextHit :=
  let tq := or_tsquery query in
  take (Z.to_nat pool) (sort_by by_text_score (
    doc ← where_ (λ x, ts_match (sd_vector x) tq) (si_documents index);
    v ← where_ (λ v, (fv_organization_id v =? sd_organization_id doc)
                     && (fv_id v =? sd_fact_version_id doc)) (tab d FactVersions);
    _ ← scoped q d v;
    [{| th_id := sd_fact_version_id doc; th_score := ts_rank_cd (sd_vector doc) tq |}])).

Definition vector_branch (q : search_scope) (index : search_index) (query_vector : vector)
    (model : pystr) (pool : Z) (d : db) : list VectorHit :=
  hnsw_scan pool (
    emb ← where_ (λ x, bool_decide (fe_model x = model)) (si_embeddings index);
    v ← where_ (λ v, (fv_organization_id v =? fe_organization_id emb)
                     && (fv_id v =? fe_fact_version_id emb)) (tab d FactVersions);
    _ ← scoped q d v;
    [{| vh_id := fe_fact_version_id emb;
        vh_distance := cosine_distance (fe_embedding emb) query_vector |}]).

Definition candidates (q : search_scope) (index : search_index) (query : pystr)
    (query_vector : option vector) (model : pystr) (pool : Z) : DB (list VectorHit * list TextHit) :=
  gets (λ d, (match query_vector with
              | Some qv => vector_branch q index qv model pool d
              | None => []
              end, text_branch q index query pool d)).

Record HydratedVersion := {
  hv_version : fact_version; hv_property : pystr; hv_entity_type : pystr;
  hv_external_id : pystr; hv_source_name : pystr; hv_source_type : SourceType }.

(** The dict of hydrated rows, as its items in insertion order. *)
Definition hydrate (org : UUID) (version_ids : list UUID) : DB (list (UUID * HydratedVersion)) :=
  match version_ids with
  | [] => mret []
  | _ => gets (λ d,
      v ← where_ (λ v, (fv_organization_id v =? org) && bool_decide (fv_id v ∈ version_ids))
            (tab d FactVersions);
      f ← where_ (fact_of v) (tab d Facts);
      e ← where_ (entity_of f) (tab d Entities);
      s ← where_ (source_of v) (tab d FactSources);
      [(fv_id v, {| hv_version := v; hv_property := f_property f;
                    hv_entity_type := e_entity_type e; hv_external_id := e_external_id e;
                    hv_source_name := s_name s; hv_source_type := s_source_type s |})])
  end.

(** [rows[key]]: the last item written under the key. *)
Definition dict_get {A} (i : UUID) (rows : list (UUID * A)) : result A :=
  match List.find (λ r, r.1 =? i) (rev rows) with Some r => Ok r.2 | None => Err KeyError end.

(** * Requests and results *)

Record RetrievalQuery := {
  rq_query : pystr;
  rq_limit : Z;
  rq_valid_at : option datetime;
  rq_known_at : option datetime;
  rq_entity_type : option pystr;
  rq_external_ids : list pystr;
  rq_properties : list pystr;
  rq_source_ids : list UUID;
  rq_min_authority : option Z;
  rq_min_confidence : option (option decimal);  (* Decimal(str(x)); inner None: not a number *)
  rq_max_privacy_scope : option PrivacyScope;
  rq_trust_weight : score;
}.

Record RetrievedFact := {
  rt_version : VersionSnapshot; rt_entity_type : pystr; rt_external_id : pystr;
  rt_property : pystr; rt_source_name : pystr; rt_source_type : SourceType;
  rt_ranking : RankedCandidate }.

Inductive VectorSearchStatus := VS_used | VS_unavailable.
Inductive CacheStatus := CS_hit | CS_miss | CS_off.

Record RetrievalResult := {
  rr_query : pystr; rr_valid_at : Instant; rr_known_at : option Instant;
  rr_vector_search : VectorSearchStatus; rr_embedding_model : pystr;
  rr_privacy_scopes : list PrivacyScope; rr_vector_candidates : Z; rr_text_candidates : Z;
  rr_results : list RetrievedFact; rr_cache : CacheStatus }.

Definition MAX_FILTER_VALUES : Z := 100.

(** [Decimal(0) <= d <= Decimal(1)]; a NaN signals [InvalidOperation]. *)
Definition decimal_in_unit (d : decimal) : result bool :=
  match d with
  | Dec m e => Ok ((0 <=? m) && (if 0 <=? e then m * 10 ^ e <=? 1 else m <=? 10 ^ (- e)))
  | DInfinity _ => Ok false
  | DNaN => Err InvalidOperation
  end.

Definition normalize_min_confidence (x : option (option decimal)) : result (option decimal) :=
  match x with
  | None => Ok None
  | Some None => Err InvalidOperation
  | Some (Some d) =>
    ok ← decimal_in_unit d;
    if ok : bool then Ok (Some d)
    else Err (ValidationFailedError "min_confidence must be between 0 and 1")
  end.

(** [tuple(sorted({...}))] *)
Definition sorted_texts (l : list pystr) : list pystr := sort_by pystr_leb (dict_fromkeys l).

Definition too_many {A} (l : list A) : result unit :=
  ensure (negb (MAX_FILTER_VALUES <? zlen l))
    (ValidationFailedError "{name} accepts at most {MAX_FILTER_VALUES} values").

Definition normalize_filters (request : RetrievalQuery) : result RetrievalFilters :=
  _ ← too_many (rq_external_ids request);
  _ ← too_many (rq_properties request);
  _ ← too_many (rq_source_ids request);
  _ ← ensure (match rq_min_authority request with
              | Some a => (0 <=? a) && (a <=? 100) | None => true end)
        (ValidationFailedError "min_authority must be between 0 and 100");
  min_confidence ← normalize_min_confidence (rq_min_confidence request);
  entity_type ← match rq_entity_type request with
                | None => Ok None
                | Some t => t' ← normalize_identifier t; Ok (Some t')
                end;
  external_ids ← mapR normalize_external_id (rq_external_ids request);
  properties ← mapR normalize_identifier (rq_properties request);
  Ok {| fl_entity_type := entity_type; fl_external_ids := sorted_texts external_ids;
        fl_properties := sorted_texts properties;
        fl_source_ids := sort_on id (dict_fromkeys (rq_source_ids request));
        fl_min_authority := rq_min_authority request; fl_min_confidence := min_confidence |}.

(** What a cache entry is keyed by. *)
Record cache_material := {
  ck_organization_id : UUID; ck_generation : Z; ck_scopes : list PrivacyScope; ck_model : pystr;
  ck_query : pystr; ck_limit : Z; ck_trust_weight : score; ck_filters : RetrievalFilters;
  ck_valid_at : option datetime; ck_known_at : option datetime }.

(** The [ResultCache] protocol over a store [C]. *)
Record ResultCache (C : Type) := {
  cache_generation : UUID → ST C (option Z);
  cache_key : cache_material → result pystr;
  cache_get : pystr → ST C (option RetrievalResult);
  cache_put : pystr → RetrievalResult → ST C unit;
}.
Arguments cache_generation {C}.
Arguments cache_key {C}.
Arguments cache_get {C}.
Arguments cache_put {C}.

(** * RetrievalService *)

(** [replace(result, cache=...)] *)
Definition with_cache (c : CacheStatus) (r : RetrievalResult) : RetrievalResult := {|
  rr_query := rr_query r; rr_valid_at := rr_valid_at r; rr_known_at := rr_known_at r;
  rr_vector_search := rr_vector_search r; rr_embedding_model := rr_embedding_model r;
  rr_privacy_scopes := rr_privacy_scopes r; rr_vector_candidates := rr_vector_candidates r;
  rr_text_candidates := rr_text_candidates r; rr_results := rr_results r; rr_cache := c |}.

(** [_embed]: no vector when the provider fails. *)
Definition embed_query (query : pystr) : result (option vector) :=
  match provider_embed [query] with
  | None => Ok None
  | Some [] => Err IndexError
  | Some (v :: _) => Ok (Some v)
  end.

Definition retrieved (rows : list (UUID * HydratedVersion)) (known_at : option Instant)
    (c : RankedCandidate) : result RetrievedFact :=
  row ← dict_get (rc_id c) rows;
  Ok {| rt_version := as_known (to_snapshot (hv_version row)) known_at;
        rt_entity_type := hv_entity_type row; rt_external_id := hv_external_id row;
        rt_property := hv_property row; rt_source_name := hv_source_name row;
        rt_source_type := hv_source_type row; rt_ranking := c |}.

Definition trust_of_rows (rows : list (UUID * HydratedVersion)) : list (UUID * score) :=
  map (λ r, (r.1, trust_score (fv_authority (hv_version r.2)) (fv_confidence (hv_version r.2))))
    (rev rows).

Definition ids_of_hits (vector_hits : list VectorHit) (text_hits : list TextHit) : list UUID :=
  sort_on id (dict_fromkeys (map vh_id vector_hits ++ map th_id text_hits)).

(** Everything after the embedding: the read-only transaction, fusion, results. *)
Definition search_store (ctx : TenantContext) (request : RetrievalQuery) (index : search_index)
    (query : pystr) (limit : Z) (trust_weight : score) (filters : RetrievalFilters)
    (valid_at : Instant) (known_at : option Instant) (query_vector : option vector) :
    DB RetrievalResult :=
  let pool := candidate_pool_size limit in
  r ← transaction (
    role ← require_permission ctx READ_FACTS;
    let scopes := visible_privacy_scopes role
                    [rq_max_privacy_scope request; ctx_max_privacy_scope ctx] in
    let q := {| sc_org := ctx_organization_id ctx; sc_valid_at := valid_at;
                sc_known_at := known_at; sc_scopes := scopes; sc_filters := filters |} in
    hits ← candidates q index query query_vector provider_model_id pool;
    rows ← hydrate (ctx_organization_id ctx) (ids_of_hits hits.1 hits.2);
    mret (scopes, hits, rows));
  let '(scopes, (vector_hits, text_hits), rows) := r in
  ranked ← lift (fuse vector_hits text_hits (trust_of_rows rows) trust_weight DEFAULT_RRF_K);
  results ← lift (mapR (retrieved rows known_at) (take (Z.to_nat limit) ranked));
  mret {| rr_query := query; rr_valid_at := valid_at; rr_known_at := known_at;
          rr_vector_search := match query_vector with Some _ => VS_used | None => VS_unavailable end;
          rr_embedding_model := provider_model_id;
          rr_privacy_scopes := where_ (λ s, bool_decide (s ∈ scopes)) PRIVACY_ORDER;
          rr_vector_candidates := zlen vector_hits; rr_text_candidates := zlen text_hits;
          rr_results := results; rr_cache := CS_off |}.

(** Look the result up; the key to store a fresh one under, if caching is on. *)
Definition cache_lookup {C} (cache : option (ResultCache C)) (material : Z → cache_material)
    (org : UUID) : ST (db * C) (option pystr * option RetrievalResult) :=
  match cache with
  | None => mret (None, None)
  | Some c =>
    generation ← on_ext (cache_generation c org);
    match generation with
    | None => mret (None, None)
    | Some g =>
      key ← lift (cache_key c (material g));
      cached ← on_ext (cache_get c key);
      mret (Some key, cached)
    end
  end.

(** [others] is what other transactions do between the first permission check
    and the search itself. *)
Definition search {C} (cache : option (ResultCache C)) (clock : Instant) (others : db → db)
    (index : search_index) (ctx : TenantContext) (request : RetrievalQuery) :
    ST (db * C) RetrievalResult :=
  query ← lift (normalize_query (rq_query request));
  limit ← lift (validate_limit (rq_limit request));
  trust_weight ← lift (validate_trust_weight (rq_trust_weight request));
  filters ← lift (normalize_filters request);
  valid_at ← lift (require_aware
    match rq_valid_at request with Some v => v | None => Aware clock end);
  known_at ← lift (require_aware_opt (rq_known_at request));
  role ← on_db (transaction (require_permission ctx READ_FACTS));
  found ← cache_lookup cache (λ g, {|
      ck_organization_id := ctx_organization_id ctx; ck_generation := g;
      ck_scopes := visible_privacy_scopes role
                     [rq_max_privacy_scope request; ctx_max_privacy_scope ctx];
      ck_model := provider_model_id; ck_query := query; ck_limit := limit;
      ck_trust_weight := trust_weight; ck_filters := filters;
      ck_valid_at := rq_valid_at request; ck_known_at := rq_known_at request |})
    (ctx_organization_id ctx);
  match found with
  | (_, Some cached) => mret (with_cache CS_hit cached)
  | (cache_key_, None) =>
    query_vector ← lift (embed_query query);
    _ ← on_db (modify others);
    r ← on_db (search_store ctx request index query limit trust_weight filters valid_at known_at
                 query_vector);
    let r := with_cache match cache_key_ with Some _ => CS_miss | None => CS_off end r in
    _ ← match cache, cache_key_, query_vector with
        | Some c, Some key, Some _ => on_ext (cache_put c key r)
        | _, _, _ => mret ()
        end;
    mret r
  end.

(** * What the candidate queries return *)

(** A version passes the filters, joined with its fact and entity. *)
Definition in_scope (q : search_scope) (d : db) (v : fact_version) : Prop :=
  v ∈ tab d FactVersions ∧ ∃ f e, f ∈ tab d Facts ∧ fact_of v f = true ∧
    e ∈ tab d Entities ∧ entity_of f e = true ∧ scoped_where q d v f e = true.

Lemma elem_of_scoped q d v w :
  v ∈ tab d FactVersions → w ∈ scoped q d v → w = v ∧ in_scope q d v.
Proof.
  unfold scoped. intros Hv (f & Hf & [Hvf Hft]%elem_of_where_)%list_elem_of_bind.
  apply list_elem_of_bind in Hf as (e & Hw & [Hfe He]%elem_of_where_).
  destruct (scoped_where q d v f e) eqn:E; [|by apply not_elem_of_nil in Hw].
  apply list_elem_of_singleton in Hw as ->. split; [done|]. split; [done|]. by exists f, e.
Qed.

Lemma in_scope_org q d v : in_scope q d v → fv_organization_id v = sc_org q.
Proof.
  intros (_ & f & e & _ & _ & _ & _ & H). unfold scoped_where in H.
  rewrite !andb_true_iff, Z.eqb_eq in H. tauto.
Qed.

Lemma in_take {A} n (l : list A) x : x ∈ take n l → x ∈ l.
Proof. intros (i & Hi & _)%elem_of_take. by apply list_elem_of_lookup_2 in Hi. Qed.

Lemma elem_of_text_branch q index query pool d h :
  h ∈ text_branch q index query pool d → ∃ v, in_scope q d v ∧ fv_id v = th_id h.
Proof.
  unfold text_branch. intros Hh%in_take. rewrite elem_of_sort_by in Hh.
  apply list_elem_of_bind in Hh as (doc & Hh & _).
  apply list_elem_of_bind in Hh as (v & Hh & [Hv Hin]%elem_of_where_).
  apply list_elem_of_bind in Hh as (w & ->%list_elem_of_singleton & Hw).
  apply elem_of_scoped in Hw as [_ Hs]; [|done]. exists v. split; [done|].
  rewrite andb_true_iff, !Z.eqb_eq in Hv. tauto.
Qed.

Lemma elem_of_vector_branch `{SEL : !SearchEngineLaws} q index qv model pool d h :
  h ∈ vector_branch q index qv model pool d → ∃ v, in_scope q d v ∧ fv_id v = vh_id h.
Proof.
  unfold vector_branch. intros Hh. eapply elem_of_submseteq in Hh; [|apply hnsw_scan_sub].
  apply list_elem_of_bind in Hh as (emb & Hh & _).
  apply list_elem_of_bind in Hh as (v & Hh & [Hv Hin]%elem_of_where_).
  apply list_elem_of_bind in Hh as (w & ->%list_elem_of_singleton & Hw).
  apply elem_of_scoped in Hw as [_ Hs]; [|done]. exists v. split; [done|].
  rewrite andb_true_iff, !Z.eqb_eq in Hv. tauto.
Qed.

(** Every candidate of either branch is a version in scope. *)
Lemma candidates_in_scope `{SEL : !SearchEngineLaws} q index query qv model pool d hits d' i :
  candidates q index query qv model pool d = (Ok hits, d') →
  i ∈ map vh_id hits.1 ∨ i ∈ map th_id hits.2 → ∃ v, in_scope q d v ∧ fv_id v = i.
Proof.
  unfold candidates. intros [-> _]%gets_ok. cbn [fst snd].
  intros [(h & -> & Hh)%list_elem_of_fmap|(h & -> & Hh)%list_elem_of_fmap].
  - destruct qv as [qv|]; [by eapply elem_of_vector_branch | by apply not_elem_of_nil in Hh].
  - by eapply elem_of_text_branch.
Qed.

Lemma dict_get_ok {A} i (rows : list (UUID * A)) x : dict_get i rows = Ok x → (i, x) ∈ rows.
Proof.
  unfold dict_get. destruct (List.find _ _) as [[j y]|] eqn:E; [|done]. intros [= ->].
  apply List.find_some in E as [Hin Hj%Z.eqb_eq]. cbn in Hj. subst j.
  by apply list_elem_of_In, List.in_rev.
Qed.

Lemma elem_of_hydrate org ids rows d d' i row :
  hydrate org ids d = (Ok rows, d') → (i, row) ∈ rows →
  let v := hv_version row in
  v ∈ tab d FactVersions ∧ fv_id v = i ∧ fv_organization_id v = org ∧
  ∃ f e s, f ∈ tab d Facts ∧ fact_of v f = true ∧ e ∈ tab d Entities ∧ entity_of f e = true ∧
    s ∈ tab d FactSources ∧ source_of v s = true ∧
    row = {| hv_version := v; hv_property := f_property f; hv_entity_type := e_entity_type e;
             hv_external_id := e_external_id e; hv_source_name := s_name s;
             hv_source_type := s_source_type s |}.
Proof.
  unfold hydrate. destruct ids as [|i0 ids].
  - intros [-> _]%st_ret_ok Hr. by apply not_elem_of_nil in Hr.
  - intros [-> _]%gets_ok Hr.
    apply list_elem_of_bind in Hr as (v & Hr & [Hv Hvt]%elem_of_where_).
    apply list_elem_of_bind in Hr as (f & Hr & [Hf Hft]%elem_of_where_).
    apply list_elem_of_bind in Hr as (e & Hr & [He Het]%elem_of_where_).
    apply list_elem_of_bind in Hr as (s & Hr & [Hs Hst]%elem_of_where_).
    apply list_elem_of_singleton in Hr as [= -> ->]. cbn.
    rewrite andb_true_iff, Z.eqb_eq in Hv. split_and!; try done; [tauto|]. by exists f, e, s.
Qed.

Lemma hydrate_state org ids rows d d' : hydrate org ids d = (Ok rows, d') → d' = d.
Proof. unfold hydrate. destruct ids; [by intros [_ ->]%st_ret_ok | by intros [_ ->]%gets_ok]. Qed.

Lemma retrieved_ok rows k c t : retrieved rows k c = Ok t →
  ∃ row, (rc_id c, row) ∈ rows ∧ rt_ranking t = c ∧
    rt_version t = as_known (to_snapshot (hv_version row)) k ∧
    rt_entity_type t = hv_entity_type row ∧ rt_external_id t = hv_external_id row ∧
    rt_property t = hv_property row ∧ rt_source_name t = hv_source_name row.
Proof.
  unfold retrieved. intros (row & Hd & [= <-])%result_bind_ok. exists row.
  by apply dict_get_ok in Hd.
Qed.

(** The scope of a search made in role [role]. *)
Definition scope_for (ctx : TenantContext) (request : RetrievalQuery) (filters : RetrievalFilters)
    (valid_at : Instant) (known_at : option Instant) (role : MembershipRole) : search_scope := {|
  sc_org := ctx_organization_id ctx; sc_valid_at := valid_at; sc_known_at := known_at;
  sc_scopes := visible_privacy_scopes role [rq_max_privacy_scope request; ctx_max_privacy_scope ctx];
  sc_filters := filters |}.

(** One returned fact: a version of the store that is in scope, shown as known. *)
Definition result_in_scope (q : search_scope) (d : db) (t : RetrievedFact) : Prop :=
  ∃ v, in_scope q d v ∧ rt_version t = as_known (to_snapshot v) (sc_known_at q) ∧
       rc_id (rt_ranking t) = fv_id v.

Record search_outcome (q : search_scope) (limit : Z) (d : db) (r : RetrievalResult) : Prop := {
  so_limit : zlen (rr_results r) ≤ limit;
  so_distinct : NoDup (map (λ t, rc_id (rt_ranking t)) (rr_results r));
  so_in_scope : ∀ t, t ∈ rr_results r → result_in_scope q d t;
  so_sorted : ScoreLaws → StronglySorted by_final_score (map rt_ranking (rr_results r));
}.

Lemma search_store_ok `{SEL : !SearchEngineLaws} ctx request index query limit w filters t k qv d r d' :
  consistent d → 0 ≤ limit →
  search_store ctx request index query limit w filters t k qv d = (Ok r, d') →
  d' = d ∧ ∃ role, current_role d (ctx_organization_id ctx) (ctx_user_id ctx) role ∧
    has_permission role READ_FACTS = true ∧ scopes_allow (ctx_scopes ctx) READ_FACTS = true ∧
    search_outcome (scope_for ctx request filters t k role) limit d r.
Proof.
  intros Hc Hlim H. unfold search_store in H.
  apply st_bind_ok in H as ([[scopes [vs ts]] rows] & s1 & Ht & H).
  apply (proj1 (transaction_ok _ _ _ _)) in Ht.
  apply st_bind_ok in Ht as (role & s2 & Hp & Ht).
  apply require_permission_ok in Hp as (-> & Hrole & Hperm & Hsc).
  apply st_bind_ok in Ht as (hits & s3 & Hcand & Ht).
  apply st_bind_ok in Ht as (rows' & s4 & Hh & [[= -> <- <-] ->]%st_ret_ok).
  assert (s3 = d) as -> by (by unfold candidates in Hcand; apply gets_ok in Hcand as [_ ->]).
  pose proof (hydrate_state _ _ _ _ _ Hh) as ->.
  apply st_bind_ok in H as (ranked & s5 & [Hf ->]%lift_ok & H).
  apply st_bind_ok in H as (results & s6 & [Hm ->]%lift_ok & [-> ->]%st_ret_ok).
  split; [done|]. exists role. split_and!; try done.
  apply fuse_ok in Hf as (_ & _ & ->). apply mapR_ok in Hm.
  set (q := scope_for ctx request filters t k role).
  assert (Hrank : map rt_ranking results
          = take (Z.to_nat limit) (fuse_ranked vs ts (trust_of_rows rows) w DEFAULT_RRF_K)).
  { clear -Hm. induction Hm as [|c x l l' Hx _ IH]; [done|]. simpl. f_equal; [|done].
    by apply retrieved_ok in Hx as (row & _ & ? & _). }
  split; cbn [rr_results].
  - unfold zlen. rewrite <-(length_map rt_ranking), Hrank, length_take. lia.
  - rewrite <-(map_map rt_ranking rc_id), Hrank. rewrite <-List.firstn_map.
    eapply sublist_NoDup; [apply fuse_ranked_ids_NoDup|apply sublist_take].
  - intros x Hx. apply list_elem_of_lookup in Hx as [n Hn].
    destruct (Forall2_lookup_r _ _ _ _ _ Hm Hn) as (c & Hcn & Hxc).
    apply list_elem_of_lookup_2, in_take in Hcn.
    assert (Hid : rc_id c ∈ map rc_id (fuse_ranked vs ts (trust_of_rows rows) w DEFAULT_RRF_K))
      by (apply list_elem_of_fmap; by exists c).
    apply (proj1 (fuse_ranked_ids _ _ _ _ _ _)) in Hid.
    destruct (candidates_in_scope _ _ _ _ _ _ _ _ _ _ Hcand Hid) as (v & Hv & Hvid).
    apply retrieved_ok in Hxc as (row & Hrow & <- & Hver & _).
    destruct (elem_of_hydrate _ _ _ _ _ _ _ Hh Hrow) as (Hin & Hrid & _).
    exists v. split_and!; [done| |done].
    assert (hv_version row = v) as <-; [|done].
    apply (version_ids_unique d); [done|done|apply Hv|congruence].
  - intros HL. rewrite Hrank. apply StronglySorted_take, fuse_ranked_sorted.
Qed.

Lemma search_outcome_with_cache q limit d r c :
  search_outcome q limit d (with_cache c r) ↔ search_outcome q limit d r.
Proof. split; intros [H1 H2 H3 H4]; split; done. Qed.

Lemma validate_limit_ok n m : validate_limit n = Ok m ↔ m = n ∧ 1 ≤ n ≤ MAX_LIMIT.
Proof.
  unfold validate_limit. destruct (_ && _) eqn:E; [|split; [done|]].
  - rewrite andb_true_iff, !Z.leb_le in E. naive_solver.
  - rewrite andb_false_iff, !Z.leb_gt in E. lia.
Qed.

(** The cache key material of a request made in role [role]. *)
Definition material_for (ctx : TenantContext) (request : RetrievalQuery) (query : pystr)
    (filters : RetrievalFilters) (role : MembershipRole) (g : Z) : cache_material := {|
  ck_organization_id := ctx_organization_id ctx; ck_generation := g;
  ck_scopes := visible_privacy_scopes role
                 [rq_max_privacy_scope request; ctx_max_privacy_scope ctx];
  ck_model := provider_model_id; ck_query := query; ck_limit := rq_limit request;
  ck_trust_weight := rq_trust_weight request; ck_filters := filters;
  ck_valid_at := rq_valid_at request; ck_known_at := rq_known_at request |}.

(** The instants a request asks about: those it carries, else now and everything. *)
Definition asked_instants (clock : Instant) (request : RetrievalQuery) (t : Instant)
    (k : option Instant) : Prop :=
  (rq_valid_at request = Some (Aware t) ∨ rq_valid_at request = None ∧ t = clock) ∧
  rq_known_at request = option_map Aware k.

Lemma asked_instants_ok clock request t k :
  require_aware match rq_valid_at request with Some v => v | None => Aware clock end = Ok t →
  require_aware_opt (rq_known_at request) = Ok k → asked_instants clock request t k.
Proof.
  intros Ht Hk. split.
  - destruct (rq_valid_at request) as [[us|us]|]; cbn in Ht; [|done|]; injection Ht as ->; auto.
  - destruct (rq_known_at request) as [[us|us]|]; cbn in Hk; [|done|]; by injection Hk as <-.
Qed.

(** How a search ends: with a cached result, or with a fresh one. *)
Lemma search_cases {C} (cache : option (ResultCache C)) clock others index ctx request s r s' :
  search cache clock others index ctx request s = (Ok r, s') →
  ∃ query filters t k role,
    normalize_query (rq_query request) = Ok query ∧ normalize_filters request = Ok filters ∧
    asked_instants clock request t k ∧ 1 ≤ rq_limit request ≤ MAX_LIMIT ∧
    current_role s.1 (ctx_organization_id ctx) (ctx_user_id ctx) role ∧
    has_permission role READ_FACTS = true ∧ scopes_allow (ctx_scopes ctx) READ_FACTS = true ∧
    ((∃ key r0, cache_lookup cache (material_for ctx request query filters role)
                  (ctx_organization_id ctx) s = (Ok (key, Some r0), s') ∧ r = with_cache CS_hit r0) ∨
     (∃ key qv r0 s1, cache_lookup cache (material_for ctx request query filters role)
                        (ctx_organization_id ctx) s = (Ok (key, None), s1) ∧
        search_store ctx request index query (rq_limit request) (rq_trust_weight request) filters
          t k qv (others s1.1) = (Ok r0, s'.1) ∧
        r = with_cache match key with Some _ => CS_miss | None => CS_off end r0 ∧
        match cache, key, qv with
        | Some c, Some ky, Some _ => cache_put c ky r s1.2 = (Ok (), s'.2)
        | _, _, _ => s'.2 = s1.2
        end)).
Proof.
  intros H. unfold search in H.
  apply st_bind_ok in H as (query & ? & [Hq ->]%lift_ok & H).
  apply st_bind_ok in H as (limit & ? & [[-> Hlim]%validate_limit_ok ->]%lift_ok & H).
  apply st_bind_ok in H as (w & ? & [Hw ->]%lift_ok & H).
  assert (w = rq_trust_weight request) as ->.
  { unfold validate_trust_weight in Hw. destruct (_ && _); congruence. }
  apply st_bind_ok in H as (filters & ? & [Hf ->]%lift_ok & H).
  apply st_bind_ok in H as (t & ? & [Ht ->]%lift_ok & H).
  apply st_bind_ok in H as (k & ? & [Hk ->]%lift_ok & H).
  apply st_bind_ok in H as (role & s0 & Hp & H).
  apply (proj1 (on_db_ok _ _ _ _)) in Hp as [Hp Hs0].
  apply (proj1 (transaction_ok _ _ _ _)), require_permission_ok in Hp as (Hd & Hr & Hperm & Hsc).
  assert (s0 = s) as -> by (destruct s0, s; cbn in *; congruence).
  assert (Hask : asked_instants clock request t k) by by apply asked_instants_ok.
  exists query, filters, t, k, role. split; [done|]. split; [done|]. split; [exact Hask|]. split; [exact Hlim|].
  split; [done|]. split; [done|]. split; [done|].
  apply st_bind_ok in H as ([key [r0|]] & s1 & Hl & H).
  - left. apply st_ret_ok in H as [-> ->]. by exists key, r0.
  - right. apply st_bind_ok in H as (qv & s2 & [He ->]%lift_ok & H).
    apply st_bind_ok in H as ([] & s3 & Hm & H).
    apply (proj1 (on_db_ok _ _ _ _)) in Hm as [Hm Hs3]. apply modify_ok in Hm.
    apply st_bind_ok in H as (r0 & s4 & Hst & H).
    apply (proj1 (on_db_ok _ _ _ _)) in Hst as [Hst Hs4].
    apply st_bind_ok in H as ([] & s5 & Hput & [-> ->]%st_ret_ok).
    rewrite Hm in Hst. exists key, qv, r0, s1. split; [exact Hl|].
    destruct cache as [c|]; [destruct key as [ky|]; [destruct qv as [qv|]|]|].
    + apply (proj1 (on_ext_ok _ _ _ _)) in Hput as [Hput Hs5]. rewrite Hs4, Hs3 in Hput.
      rewrite Hs5. done.
    + apply st_ret_ok in Hput as [_ ->]. split_and!; try done. congruence.
    + apply st_ret_ok in Hput as [_ ->]. split_and!; try done. congruence.
    + destruct key, qv; apply st_ret_ok in Hput as [_ ->]; (split_and!; [done|done|congruence]).
Qed.

Lemma search_store_times ctx request index query limit w filters t k qv d r d' :
  search_store ctx request index query limit w filters t k qv d = (Ok r, d') →
  rr_valid_at r = t ∧ rr_known_at r = k.
Proof.
  intros H. unfold search_store in H.
  apply st_bind_ok in H as ([[scopes [vs ts]] rows] & s1 & Ht & H).
  apply st_bind_ok in H as (ranked & s5 & [Hf ->]%lift_ok & H).
  by apply st_bind_ok in H as (results & s6 & [Hm ->]%lift_ok & [-> ->]%st_ret_ok).
Qed.

(** C10. Whatever other transactions do meanwhile, a search that reads the store
    returns only facts of the caller's tenant that pass every hard filter (time as
    known, privacy of the caller's current role and ceilings, metadata), each
    once, at most [limit] of them, best first; and it changes nothing. *)
Theorem search_returns_only_visible_facts {SEL : SearchEngineLaws} {C} clock others index ctx
    request d (c : C) r d' c' :
  search None clock others index ctx request (d, c) = (Ok r, (d', c')) →
  consistent (others d) →
  d' = others d ∧ c' = c ∧ rr_cache r = CS_off ∧
  asked_instants clock request (rr_valid_at r) (rr_known_at r) ∧
  ∃ filters role, normalize_filters request = Ok filters ∧
    current_role d' (ctx_organization_id ctx) (ctx_user_id ctx) role ∧
    has_permission role READ_FACTS = true ∧ scopes_allow (ctx_scopes ctx) READ_FACTS = true ∧
    search_outcome (scope_for ctx request filters (rr_valid_at r) (rr_known_at r) role)
      (rq_limit request) d' r.
Proof.
  intros H Hc. apply search_cases in H as (q & filters & t & k & role & _ & Hf & Hask & Hlim & _ & _ & _ & H).
  destruct H as [(key & r0 & Hl & _)|(key & qv & r0 & s1 & Hl & Hs & -> & Hput)].
  - cbn [cache_lookup] in Hl. by apply st_ret_ok in Hl as [? _].
  - apply st_ret_ok in Hl as [[= ->] ->]. cbn [fst snd] in *.
    destruct (search_store_times _ _ _ _ _ _ _ _ _ _ _ _ _ Hs) as [<- <-].
    apply search_store_ok in Hs as (-> & role' & ? & ? & ? & ?); [|done|lia].
    split; [done|]. split; [done|]. split; [done|]. split; [exact Hask|].
    exists filters, role'. split_and!; try done.
    by apply search_outcome_with_cache.
Qed.

(** * Caching *)

(** A result shows only versions that the ledger holds - as they were when it was made -
    of [m]'s tenant, within [m]'s scopes. *)
Definition visible_result (d : db) (m : cache_material) (r : RetrievalResult) : Prop :=
  ∀ t, t ∈ rr_results r → ∃ u v, v ∈ tab d FactVersions ∧ becomes u v ∧
    rt_version t = as_known (to_snapshot u) (rr_known_at r) ∧
    fv_organization_id v = ck_organization_id m ∧ fv_privacy_scope v ∈ ck_scopes m.

(** What was visible stays so as the ledger grows. *)
Lemma visible_result_grows d d' m r : append_only d d' → visible_result d m r → visible_result d' m r.
Proof.
  intros [_ (l & k & E & F)] Hv t Ht. destruct (Hv t Ht) as (u & v & Hin & Huv & Hs & Ho & Hp).
  apply list_elem_of_lookup in Hin as [i Hi]. destruct (Forall2_lookup_l _ _ _ _ _ F Hi) as (w & Hw & Hvw).
  exists u, w. pose proof Hvw as Hc. unfold becomes, kept in Hc. apply andb_true_iff, proj1, same_claim_spec in Hc.
  destruct_and! Hc. split; [rewrite E; apply elem_of_app; left; by apply list_elem_of_lookup_2 in Hw|].
  split; [by transitivity v|]. split; [done|]. split; congruence.
Qed.

(** What a cache promises its client, whether its commands succeed or fail: [stored c k r]
    when an entry [r] sits under [k]. *)
Class CacheLaws {C} (cache : ResultCache C) := {
  stored : C → pystr → RetrievalResult → Prop;
  generation_stored : ∀ org c x c', cache_generation cache org c = (x, c') →
    ∀ k r, stored c' k r → stored c k r;
  get_stored : ∀ key c x c', cache_get cache key c = (x, c') →
    (∀ k r', stored c' k r' → stored c k r') ∧ (∀ r', x = Ok (Some r') → stored c key r');
  put_stored : ∀ key r c x c', cache_put cache key r c = (x, c') →
    ∀ k r', stored c' k r' → stored c k r' ∨ (k = key ∧ r' = r);
}.

(** Keys of different organizations differ. *)
Class TenantKeys {C} (cache : ResultCache C) :=
  tenant_of_key : ∀ m m' k, is_uuid (ck_organization_id m) → is_uuid (ck_organization_id m') →
    cache_key cache m = Ok k → cache_key cache m' = Ok k → ck_organization_id m = ck_organization_id m'.

(** Every entry is visible to the readers its key stands for. *)
Definition cache_sound {C} (cache : ResultCache C) `{!CacheLaws cache} (d : db) (c : C) : Prop :=
  ∀ k r, stored c k r → ∃ m, cache_key cache m = Ok k ∧ visible_result d m r.

Lemma cache_sound_grows {C} (cache : ResultCache C) `{!CacheLaws cache} d d' c :
  append_only d d' → cache_sound cache d c → cache_sound cache d' c.
Proof. intros Ha Hc k r Hk. destruct (Hc k r Hk) as (m & Hm & Hv). exists m. split; [done|]. by apply (visible_result_grows d). Qed.

Lemma visible_with_cache d m r c : visible_result d m (with_cache c r) ↔ visible_result d m r.
Proof. done. Qed.

Lemma cache_lookup_stored {C} (cache : ResultCache C) `{!CacheLaws cache} material org s key r s' :
  cache_lookup (Some cache) material org s = (Ok (key, r), s') →
  s'.1 = s.1 ∧ (∀ k r', stored s'.2 k r' → stored s.2 k r') ∧
  (∀ ky, key = Some ky → ∃ g, cache_key cache (material g) = Ok ky) ∧
  (∀ r', r = Some r' → ∃ g ky, cache_key cache (material g) = Ok ky ∧ stored s.2 ky r').
Proof.
  intros H. apply st_bind_ok in H as (g & s1 & Hg & H).
  apply (proj1 (on_ext_ok _ _ _ _)) in Hg as [Hg Hs1].
  pose proof (generation_stored _ _ _ _ Hg) as Hg'.
  destruct g as [g|]; [|by apply st_ret_ok in H as [[= -> ->] ->]].
  apply st_bind_ok in H as (ky0 & ? & [Hky ->]%lift_ok & H).
  apply st_bind_ok in H as (x & s2 & Hget & [[= -> ->] ->]%st_ret_ok).
  apply (proj1 (on_ext_ok _ _ _ _)) in Hget as [Hget Hs2].
  destruct (get_stored _ _ _ _ Hget) as [Hk Hr]. split_and!; [congruence|auto| |].
  - intros ky [= <-]. by exists g.
  - intros r' ->. exists g, ky0. auto.
Qed.

Lemma outcome_visible ctx request filters t k role d limit r query g :
  search_outcome (scope_for ctx request filters t k role) limit d r → rr_known_at r = k →
  visible_result d (material_for ctx request query filters role g) r.
Proof.
  intros [_ _ Hin _] <- x Hx. destruct (Hin x Hx) as (v & Hv & Hver & _). exists v, v.
  split; [apply Hv|]. split; [reflexivity|]. split; [done|]. split; [by apply in_scope_org in Hv|].
  destruct Hv as (_ & f & e & _ & _ & _ & _ & H). unfold scoped_where in H.
  rewrite !andb_true_iff, bool_decide_eq_true in H. apply H.
Qed.

(** C11. The cache never holds, under a key, a fact hidden from the readers the key stands
    for: every fact version that an entry shows is one that the ledger holds (as it was
    when the entry was made), it belongs to the tenant of the key and its scope is one of
    the key's.  A search keeps this, whatever statements other transactions run meanwhile,
    as long as the caller's role is the same at the two permission checks of the search.
    (The key is computed from the role at the first check and the result from the role
    at the second.) *)
Theorem search_keeps_cache_sound {SEL : SearchEngineLaws} {C} (cache : ResultCache C)
    `{!CacheLaws cache} clock others index ctx request d c r s' :
  cache_sound cache d c → consistent (others d) → append_only d (others d) →
  (∀ role role', current_role d (ctx_organization_id ctx) (ctx_user_id ctx) role →
     current_role (others d) (ctx_organization_id ctx) (ctx_user_id ctx) role' → role' = role) →
  search (Some cache) clock others index ctx request (d, c) = (Ok r, s') →
  cache_sound cache s'.1 s'.2.
Proof.
  intros Hc Hd Ha Hrole H.
  apply search_cases in H as (q & filters & t & k & role & _ & Hf & _ & Hlim & Hr & _ & _ & H).
  destruct H as [(key & r0 & Hl & _)|(key & qv & r0 & s1 & Hl & Hs & -> & Hput)];
    pose proof (cache_lookup_stored cache _ _ _ _ _ _ Hl) as (Hs1 & Hst & Hkey & _); cbn [fst snd] in *.
  - rewrite Hs1. intros ky r' Hk. by apply Hc, Hst.
  - pose proof (proj2 (search_store_times _ _ _ _ _ _ _ _ _ _ _ _ _ Hs)) as Hkn. rewrite Hs1 in Hs.
    apply search_store_ok in Hs as (-> & role' & Hr' & _ & _ & Hout); [|done|lia].
    rewrite (Hrole _ _ Hr Hr') in Hout. apply (cache_sound_grows cache _ (others d)) in Hc; [|done].
    intros ky r' Hk. destruct key as [key|], qv as [qv|]; try (rewrite Hput in Hk; by apply Hc, Hst).
    destruct (put_stored _ _ _ _ _ Hput _ _ Hk) as [Hk'|[-> ->]]; [by apply Hc, Hst|].
    destruct (Hkey key eq_refl) as [g Hg]. eexists. split; [exact Hg|].
    apply visible_with_cache. by eapply outcome_visible.
Qed.

(** A cache hit never widens what the caller may read: an entry of a sound
    cache found under the caller's key is visible to the caller's current role and
    ceilings, unless another key material collides with the caller's. *)
Theorem cache_hit_stays_visible {C} (cache : ResultCache C) `{!CacheLaws cache}
    clock others index ctx request d c r s' :
  cache_sound cache d c →
  search (Some cache) clock others index ctx request (d, c) = (Ok r, s') → rr_cache r = CS_hit →
  ∃ role query filters g,
    current_role d (ctx_organization_id ctx) (ctx_user_id ctx) role ∧
    has_permission role READ_FACTS = true ∧ scopes_allow (ctx_scopes ctx) READ_FACTS = true ∧
    let mine := material_for ctx request query filters role g in
    ((∀ m, cache_key cache m = cache_key cache mine → m = mine) → visible_result d mine r).
Proof.
  intros Hc H Hhit.
  apply search_cases in H as (q & filters & t & k & role & _ & Hf & _ & Hlim & Hr & Hp & Hs & H).
  destruct H as [(key & r0 & Hl & ->)|(key & qv & r0 & s1 & _ & _ & -> & _)]; [|by destruct key].
  pose proof (cache_lookup_stored cache _ _ _ _ _ _ Hl) as (_ & _ & _ & Hg). destruct (Hg r0 eq_refl) as (g & ky & Hky & Hst).
  exists role, q, filters, g. split_and!; try done.
  destruct (Hc _ _ Hst) as (m & Hm & Hv). intros mine Hinj. rewrite <-Hky in Hm. by rewrite <-(Hinj m Hm).
Qed.

End retrieval.
