(* ===== verification/Grounding.v ===== *)
(** Grounded answers: what a model may see and what it may cite
    (app/ai/grounding.py), and the pipeline around it (app/services/answers.py). *)

From S2P Require Import Prelude PyStr Json Regex Validation Access Temporal History Database.
From S2P Require Import Schema Calendar Accounts FactRepo EvidenceService FactService Ledger.
From S2P Require Import TemporalService Ranking Generation Retrieval.

Definition source_type_text (t : SourceType) : pystr :=
  match t with
  | SYSTEM_OF_RECORD => py "SYSTEM_OF_RECORD" | API => py "API" | DOCUMENT => py "DOCUMENT"
  | HUMAN => py "HUMAN" | AGENT => py "AGENT"
  end.

(** [str(confidence)] of a NUMERIC(4, 3) column. *)
Definition confidence_str (c : Z) : pystr := str_of_int (c / 1000) ++ [46] ++ dec 3 (c mod 1000).

(** [f"F{i}"] *)
Definition fact_label (i : Z) : pystr := 70 :: str_of_int i.

(** * Packing *)

Record PackedFact := {
  pf_label : pystr; pf_fact_version_id : UUID; pf_fact_id : UUID; pf_source_id : UUID;
  pf_source_name : pystr; pf_source_type : pystr; pf_entity_type : pystr;
  pf_external_id : pystr; pf_property : pystr; pf_value : json; pf_valid_from : Instant;
  pf_valid_until : option Instant; pf_recorded_at : Instant; pf_authority : Z;
  pf_confidence : Z }.

Section packing.
Context `{SO : !ScoreOps}.

Definition pack_fact (i : Z) (r : RetrievedFact) : PackedFact := {|
  pf_label := fact_label i; pf_fact_version_id := vs_id (rt_version r);
  pf_fact_id := vs_fact_id (rt_version r); pf_source_id := vs_source_id (rt_version r);
  pf_source_name := rt_source_name r; pf_source_type := source_type_text (rt_source_type r);
  pf_entity_type := rt_entity_type r; pf_external_id := rt_external_id r;
  pf_property := rt_property r; pf_value := vs_value (rt_version r);
  pf_valid_from := vs_valid_from (rt_version r); pf_valid_until := vs_valid_until (rt_version r);
  pf_recorded_at := vs_recorded_at (rt_version r); pf_authority := vs_authority (rt_version r);
  pf_confidence := vs_confidence (rt_version r) |}.

Definition pack_facts (results : list RetrievedFact) : list PackedFact :=
  map (λ p, pack_fact p.1 p.2) (enumerate_from 1 results).
End packing.

Definition GROUNDING_MAX_VALUE_CHARS : Z := 500.

(** [json.dumps(v, ensure_ascii=False, sort_keys=True, default=str)] *)
Definition prompt_value_options : dump_options :=
  {| dump_escape := escape_char; dump_allow_nan := true;
     dump_item_sep := [44; 32]; dump_key_sep := [58; 32]; dump_sort_keys := true |}.

(** [text[:n] + suffix] of a text longer than [n]. *)
Definition truncated (n : Z) (suffix text : pystr) : pystr :=
  if n <? zlen text then take (Z.to_nat n) text ++ suffix else text.

Section rendering.
Context `{FR : !FloatRepr}.

Definition render_fact (f : PackedFact) : result pystr :=
  value ← dumps prompt_value_options (pf_value f);
  let value := truncated GROUNDING_MAX_VALUE_CHARS (py "...(truncated)") value in
  let until := match pf_valid_until f with Some u => utc_iso u | None => py "open-ended" end in
  Ok (py "[" ++ pf_label f ++ py "] " ++ pf_entity_type f ++ py "/" ++ pf_external_id f ++ py " "
      ++ pf_property f ++ py " = " ++ value ++ py " | valid " ++ utc_iso (pf_valid_from f)
      ++ py " to " ++ until ++ py " | source " ++ quote escape_char_ascii (pf_source_name f)
      ++ py " (" ++ pf_source_type f ++ py ") | authority " ++ str_of_int (pf_authority f)
      ++ py ", confidence " ++ confidence_str (pf_confidence f) ++ py " | recorded "
      ++ utc_iso (pf_recorded_at f)).

Definition render_facts (facts : list PackedFact) : result pystr :=
  match facts with
  | [] => Ok (py "(no facts)")
  | _ => lines ← mapR render_fact facts; Ok (join [10] lines)
  end.
End rendering.

(** * Checking *)

Inductive AnswerStatus := ANSWERED | INSUFFICIENT_EVIDENCE | UNGROUNDED.
#[export] Instance AnswerStatus_eq_dec : EqDecision AnswerStatus.
Proof. solve_decision. Defined.

(** [not l] *)
Definition is_empty {A} (l : list A) : bool := match l with [] => true | _ => false end.

Record ModelAnswer := {
  ma_answer : pystr; ma_insufficient_evidence : bool; ma_cited_facts : list pystr;
  ma_inferences : list pystr }.

Record GroundingCheck := {
  gc_status : AnswerStatus; gc_cited : list PackedFact; gc_rejected_labels : list pystr }.

(** [isinstance(x, list) and all(isinstance(c, str) for c in x)] *)
Definition strings_of (j : json) : option (list pystr) :=
  match j with
  | JList l => mapM (λ x, match x with JStr s => Some s | _ => None end) l
  | _ => None
  end.

Definition malformed {A} : result A := Err (GenerationError "MalformedGenerationError").

(** Subscripting anything but a dict raises [TypeError], a missing key [KeyError]. *)
Definition parse_model_answer (payload : json) : result ModelAnswer :=
  match payload with
  | JObj kvs =>
    match assoc (py "answer") kvs, assoc (py "insufficient_evidence") kvs,
          assoc (py "cited_facts") kvs with
    | Some answer, Some insufficient, Some cited =>
      let inferences := default (JList []) (assoc (py "inferences") kvs) in
      match answer, insufficient, strings_of cited, strings_of inferences with
      | JStr answer, JBool insufficient, Some cited, Some inferences =>
          Ok {| ma_answer := strip answer; ma_insufficient_evidence := insufficient;
                ma_cited_facts := map strip cited; ma_inferences := inferences |}
      | _, _, _, _ => malformed
      end
    | _, _, _ => malformed
    end
  | _ => malformed
  end.

Section checking.
Context `{UD : !UnicodeData}.

(** [by_label.get(label.upper())], the dict being built from [supplied]. *)
Definition by_label (supplied : list PackedFact) (label : pystr) : option PackedFact :=
  List.find (λ f, bool_decide (pf_label f = upper label)) (rev supplied).

(** [fact in cited]: facts of one request are told apart by their labels. *)
Definition already_cited (fact : PackedFact) (cited : list PackedFact) : bool :=
  bool_decide (pf_label fact ∈ map pf_label cited).

(** The loop over the cited labels: (cited, rejected), both in order. *)
Fixpoint cite (supplied : list PackedFact) (labels : list pystr) (cited : list PackedFact)
    (rejected : list pystr) : list PackedFact * list pystr :=
  match labels with
  | [] => (cited, rejected)
  | label :: labels' =>
    match by_label supplied label with
    | None => cite supplied labels' cited (rejected ++ [label])
    | Some fact => if already_cited fact cited then cite supplied labels' cited rejected
                   else cite supplied labels' (cited ++ [fact]) rejected
    end
  end.

Definition check_answer (model : ModelAnswer) (supplied : list PackedFact) : GroundingCheck :=
  let '(cited, rejected) := cite supplied (ma_cited_facts model) [] [] in
  if ma_insufficient_evidence model
  then {| gc_status := INSUFFICIENT_EVIDENCE; gc_cited := []; gc_rejected_labels := rejected |}
  else if negb (is_empty rejected) || is_empty cited || is_empty (ma_answer model)
  then {| gc_status := UNGROUNDED; gc_cited := []; gc_rejected_labels := rejected |}
  else {| gc_status := ANSWERED; gc_cited := cited; gc_rejected_labels := rejected |}.

(** ** What the loop returns *)

Lemma by_label_some supplied label f :
  by_label supplied label = Some f → f ∈ supplied ∧ pf_label f = upper label.
Proof.
  unfold by_label. intros [Hin Hl%bool_decide_eq_true]%List.find_some.
  split; [|done]. by apply list_elem_of_In, List.in_rev.
Qed.

Lemma by_label_none supplied label :
  by_label supplied label = None ↔ ∀ f, f ∈ supplied → pf_label f ≠ upper label.
Proof.
  unfold by_label. split.
  - intros H f Hf E. eapply List.find_none in H; [|rewrite <-List.in_rev; by apply list_elem_of_In].
    by apply bool_decide_eq_false in H.
  - intros H. destruct (List.find _ _) as [f|] eqn:E; [|done]. exfalso.
    apply by_label_some in E as [Hin Hl]. by apply (H f).
Qed.

(** Rejected labels are those of no supplied fact; cited facts are supplied, each once. *)
Lemma cite_ok supplied labels cited rejected :
  (∀ f, f ∈ cited → f ∈ supplied) → NoDup (map pf_label cited) →
  let r := cite supplied labels cited rejected in
  (∀ f, f ∈ r.1 → f ∈ supplied) ∧ NoDup (map pf_label r.1) ∧
  r.2 = rejected ++ where_ (λ l, bool_decide (by_label supplied l = None)) labels ∧
  (∀ l, l ∈ map pf_label r.1 ↔ l ∈ map pf_label cited ∨
     ∃ c, c ∈ labels ∧ l = upper c ∧ by_label supplied c ≠ None).
Proof.
  revert cited rejected. induction labels as [|label labels IH]; intros cited rejected Hc Hn; cbn [cite].
  - rewrite app_nil_r. split_and!; try done. set_solver.
  - destruct (by_label supplied label) as [fact|] eqn:E.
    + destruct (by_label_some _ _ _ E) as [Hin Hl]. unfold already_cited.
      destruct (bool_decide _) eqn:Hd.
      * apply bool_decide_eq_true in Hd. destruct (IH cited rejected Hc Hn) as (I1 & I2 & I3 & I4).
        split_and!; try done.
        -- rewrite I3. cbn [where_ List.filter]. by rewrite E.
        -- intros l. rewrite I4. setoid_rewrite elem_of_cons. split; [naive_solver|].
           intros [?|(c & [-> | ?] & -> & ?)]; [by left| |right; by exists c].
           left. by rewrite <-Hl.
      * apply bool_decide_eq_false in Hd.
        destruct (IH (cited ++ [fact]) rejected) as (I1 & I2 & I3 & I4).
        { intros f [? | ->%list_elem_of_singleton]%elem_of_app; auto. }
        { rewrite map_app. apply NoDup_app. split_and!; [done| |apply NoDup_singleton].
          intros x Hx ->%list_elem_of_singleton. done. }
        split_and!; try done.
        -- rewrite I3. cbn [where_ List.filter]. by rewrite E.
        -- intros l. rewrite I4, map_app, elem_of_app. change (map pf_label [fact]) with [pf_label fact].
           rewrite list_elem_of_singleton.
           setoid_rewrite elem_of_cons. split.
           ++ intros [[? | ->]|(c & ? & -> & ?)]; [by left| |right; exists c; auto].
              right. exists label. rewrite E. auto.
           ++ intros [?|(c & [-> | ?] & -> & ?)]; [by do 2 left| |right; by exists c].
              left. right. by rewrite Hl.
    + destruct (IH cited (rejected ++ [label]) Hc Hn) as (I1 & I2 & I3 & I4).
      split_and!; try done.
      * rewrite I3, <-app_assoc. f_equal. cbn [where_ List.filter app]. by rewrite E.
      * intros l. rewrite I4. setoid_rewrite elem_of_cons. split; [naive_solver|].
        intros [?|(c & [-> | ?] & -> & ?)]; [by left|done|right; by exists c].
Qed.

Lemma is_empty_true {A} (l : list A) : is_empty l = true ↔ l = [].
Proof. by destruct l. Qed.
Lemma is_empty_false {A} (l : list A) : is_empty l = false ↔ l ≠ [].
Proof. by destruct l. Qed.

(** An answer is released exactly when the model claims enough evidence, says
    something, cites something, and cites only supplied facts. *)
Definition grounded_in (model : ModelAnswer) (supplied : list PackedFact) : Prop :=
  ma_insufficient_evidence model = false ∧ ma_answer model ≠ [] ∧ ma_cited_facts model ≠ [] ∧
  ∀ l, l ∈ ma_cited_facts model → ∃ f, f ∈ supplied ∧ pf_label f = upper l.

Lemma rejected_none supplied labels :
  where_ (λ l, bool_decide (by_label supplied l = None)) labels = [] ↔
  ∀ l, l ∈ labels → ∃ f, f ∈ supplied ∧ pf_label f = upper l.
Proof.
  rewrite where_nil_iff. split; intros H l Hl; specialize (H l Hl).
  - apply bool_decide_eq_false in H. destruct (by_label supplied l) as [f|] eqn:E; [|done].
    exists f. by apply by_label_some.
  - apply bool_decide_eq_false. destruct H as (f & Hf & Hfl). intros Hn.
    by apply (proj1 (by_label_none _ _) Hn f).
Qed.

(** A model's answer is released exactly when it claims evidence, is not
    empty, and every label it cites (at least one) names a supplied fact; the
    citations shown are then exactly the supplied facts those labels name, each
    once.  One invented label withholds the whole answer, with no citation. *)
Theorem check_answer_grounds model supplied :
  let check := check_answer model supplied in
  (gc_status check = ANSWERED ↔ grounded_in model supplied) ∧
  (gc_status check = INSUFFICIENT_EVIDENCE ↔ ma_insufficient_evidence model = true) ∧
  (gc_status check ≠ ANSWERED → gc_cited check = []) ∧
  (∀ f, f ∈ gc_cited check → f ∈ supplied) ∧ NoDup (map pf_label (gc_cited check)) ∧
  (gc_status check = ANSWERED →
     ∀ l, l ∈ map pf_label (gc_cited check) ↔ ∃ c, c ∈ ma_cited_facts model ∧ l = upper c) ∧
  (∀ l, l ∈ gc_rejected_labels check ↔
     l ∈ ma_cited_facts model ∧ ∀ f, f ∈ supplied → pf_label f ≠ upper l).
Proof.
  unfold check_answer, grounded_in.
  destruct (cite_ok supplied (ma_cited_facts model) [] []) as (I1 & I2 & I3 & I4);
    [by intros f ?%not_elem_of_nil|constructor|].
  destruct (cite _ _ [] []) as [cited rejected]. cbn [fst snd app map] in *. subst rejected.
  assert (Hrej : ∀ l, l ∈ where_ (λ l, bool_decide (by_label supplied l = None)) (ma_cited_facts model) ↔
     l ∈ ma_cited_facts model ∧ ∀ f, f ∈ supplied → pf_label f ≠ upper l).
  { intros l. by rewrite elem_of_where_, bool_decide_eq_true, by_label_none, (comm and). }
  destruct (ma_insufficient_evidence model).
  { cbn. split_and!; try done; [naive_solver|by intros f ?%not_elem_of_nil|constructor]. }
  destruct (_ || _) eqn:E; cbn.
  - rewrite !orb_true_iff, negb_true_iff, !is_empty_true, is_empty_false in E.
    split_and!; try done; [|by intros f ?%not_elem_of_nil|constructor].
    split; [done|]. intros (_ & Ha & Hne & Hall). exfalso.
    apply rejected_none in Hall as Hr. destruct E as [[?|Hc]|?]; [done| |done].
    destruct (ma_cited_facts model) as [|c cs]; [done|].
    assert (Hin : upper c ∈ map pf_label cited).
    { apply I4. right. exists c. split_and!; [by left|done|]. intros Hn.
      destruct (Hall c) as (f & Hf & Hfl); [by left|]. by apply (proj1 (by_label_none _ _) Hn f). }
    subst cited. by apply not_elem_of_nil in Hin.
  - rewrite !orb_false_iff, negb_false_iff, !is_empty_false, is_empty_true in E.
    destruct E as [[Hr Hc] Ha]. pose proof (proj1 (rejected_none _ _) Hr) as Hall.
    split_and!; try done.
    + split; [|done]. intros _. split_and!; try done. intros Hn. rewrite Hn in I4.
      destruct cited as [|x xs]; [done|].
      destruct (proj1 (I4 (pf_label x))) as [?%not_elem_of_nil|(c & ?%not_elem_of_nil & _)]; [by left|done|done].
    + intros _ l. rewrite I4. split.
      * intros [?%not_elem_of_nil|(c & ? & ? & _)]; [done|by exists c].
      * intros (c & Hcin & ->). right. exists c. split_and!; try done. intros Hn.
        destruct (Hall c Hcin) as (f & Hf & Hfl). by apply (proj1 (by_label_none _ _) Hn f).
Qed.
End checking.

(** * The answering pipeline *)

Definition MAX_QUESTION_CHARS : Z := 1000.

Record Citation := {
  ci_label : pystr; ci_fact_version_id : UUID; ci_fact_id : UUID; ci_source_id : UUID;
  ci_source_name : pystr; ci_entity_type : pystr; ci_external_id : pystr; ci_property : pystr;
  ci_valid_from : Instant; ci_valid_until : option Instant }.

Record RetrievalInfo := {
  inf_valid_at : Instant; inf_known_at : option Instant; inf_vector_search : VectorSearchStatus;
  inf_privacy_scopes : list PrivacyScope; inf_facts_supplied : Z; inf_cache : CacheStatus }.

(** The measured [latency_ms] is left out. *)
Record GenerationInfo := {
  gi_provider : pystr; gi_model : pystr; gi_prompt_version : pystr; gi_prompt_fingerprint : pystr;
  gi_input_tokens : Z; gi_output_tokens : Z; gi_attempts : Z; gi_finish_reason : pystr }.

Record GroundedAnswer := {
  ga_question : pystr; ga_status : AnswerStatus; ga_answer : option pystr; ga_grounded : bool;
  ga_insufficient_evidence : bool; ga_citations : list Citation; ga_inferences : list pystr;
  ga_rejected_citations : list pystr; ga_retrieval : RetrievalInfo;
  ga_generation : option GenerationInfo; ga_supplied_fact_version_ids : list UUID }.

Record AnswerQuery := {
  aq_question : pystr; aq_valid_at : option datetime; aq_known_at : option datetime; aq_limit : Z;
  aq_entity_type : option pystr; aq_external_ids : list pystr; aq_properties : list pystr;
  aq_max_privacy_scope : option PrivacyScope }.

Definition citation_of (f : PackedFact) : Citation := {|
  ci_label := pf_label f; ci_fact_version_id := pf_fact_version_id f; ci_fact_id := pf_fact_id f;
  ci_source_id := pf_source_id f; ci_source_name := pf_source_name f;
  ci_entity_type := pf_entity_type f; ci_external_id := pf_external_id f;
  ci_property := pf_property f; ci_valid_from := pf_valid_from f;
  ci_valid_until := pf_valid_until f |}.

(** [_json_content]: only a [JSONDecodeError] is a malformed generation. *)
Definition json_content `{JsonLoads} (text : pystr) : result json :=
  match json_loads_text text with Err JSONDecodeError => malformed | r => r end.

Section answers.
Context `{UD : !UnicodeData} `{FR : !FloatRepr} `{SH : !Sha256} `{SO : !ScoreOps} `{SE : !SearchEngine}.
Context `{JL : !JsonLoads} `{GP : !GenerationProvider}.

(** 0.3, the float nearest to 30 / 100. *)
Definition DEFAULT_TRUST_WEIGHT : score := s_of_percent 30.

Definition answer_retrieval (question : pystr) (query : AnswerQuery) : RetrievalQuery := {|
  rq_query := question; rq_limit := aq_limit query; rq_valid_at := aq_valid_at query;
  rq_known_at := aq_known_at query; rq_entity_type := aq_entity_type query;
  rq_external_ids := aq_external_ids query; rq_properties := aq_properties query;
  rq_source_ids := []; rq_min_authority := None; rq_min_confidence := None;
  rq_max_privacy_scope := aq_max_privacy_scope query; rq_trust_weight := DEFAULT_TRUST_WEIGHT |}.

Definition retrieval_info (r : RetrievalResult) (supplied : Z) : RetrievalInfo := {|
  inf_valid_at := rr_valid_at r; inf_known_at := rr_known_at r;
  inf_vector_search := rr_vector_search r; inf_privacy_scopes := rr_privacy_scopes r;
  inf_facts_supplied := supplied; inf_cache := rr_cache r |}.

Definition no_facts_answer (question : pystr) (info : RetrievalInfo) : GroundedAnswer := {|
  ga_question := question; ga_status := INSUFFICIENT_EVIDENCE;
  ga_answer := Some (py "No facts you are allowed to see match this question at that time.");
  ga_grounded := true; ga_insufficient_evidence := true; ga_citations := []; ga_inferences := [];
  ga_rejected_citations := []; ga_retrieval := info; ga_generation := None;
  ga_supplied_fact_version_ids := [] |}.

Definition answer_inputs (question : pystr) (r : RetrievalResult) (facts_text : pystr) :
    list (string * pystr) := [
  ("question"%string, question);
  ("valid_at"%string, utc_iso (rr_valid_at r));
  ("known_at"%string, match rr_known_at r with
                      | Some k => utc_iso k | None => py "everything recorded so far" end);
  ("facts"%string, facts_text)].

(** From the model's checked answer to the result. *)
Definition checked_answer (question : pystr) (facts : list PackedFact) (info : RetrievalInfo)
    (model : ModelAnswer) (generation : GenerationInfo) : GroundedAnswer :=
  let check := check_answer model facts in
  let answered := bool_decide (gc_status check = ANSWERED) in
  let ungrounded := bool_decide (gc_status check = UNGROUNDED) in {|
    ga_question := question; ga_status := gc_status check;
    ga_answer := if ungrounded then None else Some (ma_answer model);
    ga_grounded := negb ungrounded;
    ga_insufficient_evidence := bool_decide (gc_status check = INSUFFICIENT_EVIDENCE);
    ga_citations := map citation_of (gc_cited check);
    ga_inferences := if answered then ma_inferences model else [];
    ga_rejected_citations := gc_rejected_labels check; ga_retrieval := info;
    ga_generation := Some generation;
    ga_supplied_fact_version_ids := map pf_fact_version_id facts |}.

(** [GroundedAnswerService.answer] over any [retrieve]. *)
Definition answer {St} (retrieve : TenantContext → RetrievalQuery → ST St RetrievalResult)
    (prompt : PromptTemplate) (max_output_tokens : Z) (temperature : option pyfloat)
    (ctx : TenantContext) (query : AnswerQuery) : ST St GroundedAnswer :=
  let question := join [32] (split_ws (aq_question query)) in
  if is_empty question
  then raise (ValidationFailedError "question must not be empty")
  else if MAX_QUESTION_CHARS <? zlen question
  then raise (ValidationFailedError "question must be at most {MAX_QUESTION_CHARS} characters")
  else
    retrieval ← retrieve ctx (answer_retrieval question query);
    let facts := pack_facts (rr_results retrieval) in
    let info := retrieval_info retrieval (zlen facts) in
    if is_empty facts then mret (no_facts_answer question info)
    else
      text ← lift (render_facts facts);
      reply ← lift (or_answer_error "the language model could not produce an answer" (
        message ← structured_chain prompt max_output_tokens temperature (py "grounded_answer")
                    (answer_inputs question retrieval text);
        payload ← json_content (gn_text message);
        model ← parse_model_answer payload;
        Ok (message, model)));
      print ← lift (fingerprint prompt);
      let '(message, model) := reply in
      mret (checked_answer question facts info model {|
        gi_provider := gn_provider message; gi_model := gn_model message;
        gi_prompt_version := pt_version prompt; gi_prompt_fingerprint := print;
        gi_input_tokens := gu_input_tokens (gn_usage message);
        gi_output_tokens := gu_output_tokens (gn_usage message);
        gi_attempts := gn_attempts message; gi_finish_reason := gn_finish_reason message |}).

(** How an answer ends: without a model call when nothing was retrieved, or
    with the check of what the model said. *)
Lemma answer_cases {St} (retrieve : TenantContext → RetrievalQuery → ST St RetrievalResult)
    prompt max temperature ctx query s a s' :
  answer retrieve prompt max temperature ctx query s = (Ok a, s') →
  ∃ question r, question = join [32] (split_ws (aq_question query)) ∧
    1 ≤ zlen question ≤ MAX_QUESTION_CHARS ∧
    retrieve ctx (answer_retrieval question query) s = (Ok r, s') ∧
    let facts := pack_facts (rr_results r) in
    let info := retrieval_info r (zlen facts) in
    (rr_results r = [] ∧ a = no_facts_answer question info ∨
     rr_results r ≠ [] ∧ ∃ model generation, a = checked_answer question facts info model generation).
Proof.
  unfold answer. set (question := join [32] _). intros H.
  destruct (is_empty question) eqn:Hq; [by apply raise_ok in H|].
  destruct (_ <? _) eqn:Hlen; [by apply raise_ok in H|]. rewrite Z.ltb_ge in Hlen. rewrite is_empty_false in Hq.
  apply st_bind_ok in H as (r & s1 & Hr & H). exists question, r.
  assert (1 ≤ zlen question) by (unfold zlen; destruct question; [done|cbn [length]; lia]).
  destruct (is_empty (pack_facts (rr_results r))) eqn:Hf.
  - apply st_ret_ok in H as [-> ->]. split_and!; try done. left. split; [|done].
    apply is_empty_true in Hf. unfold pack_facts in Hf. by destruct (rr_results r).
  - apply st_bind_ok in H as (text & s2 & [_ ->]%lift_ok & H).
    apply st_bind_ok in H as ([message model] & s3 & [_ ->]%lift_ok & H).
    apply st_bind_ok in H as (print & s4 & [_ ->]%lift_ok & [-> ->]%st_ret_ok).
    split_and!; try done. right. split; [by intros E; rewrite E in Hf|]. by do 2 eexists.
Qed.

Lemma pack_facts_from f results : f ∈ pack_facts results →
  ∃ r, r ∈ results ∧ pf_fact_version_id f = vs_id (rt_version r).
Proof.
  unfold pack_facts. generalize 1. induction results as [|r results IH]; intros i Hf.
  - by apply not_elem_of_nil in Hf.
  - cbn [enumerate_from map] in Hf. apply elem_of_cons in Hf as [-> | Hf].
    + exists r. split; [by left|done].
    + destruct (IH _ Hf) as (r' & Hin & E). exists r'. split; [by right|done].
Qed.

(** C23. An answer over the store cites only fact versions that the caller may
    see at that time (tenant, privacy of the current role, time as known): every
    citation comes from the search, never from the model.  An answer given has
    text and at least one citation; a withheld one has neither; with nothing
    retrieved no model is called. *)
Theorem answers_cite_only_visible_facts {SEL : SearchEngineLaws} {C} clock others index prompt max
    temperature ctx query d (c : C) a s' :
  answer (search None clock others index) prompt max temperature ctx query (d, c) = (Ok a, s') →
  consistent (others d) →
  ∃ filters role r,
    current_role (others d) (ctx_organization_id ctx) (ctx_user_id ctx) role ∧
    has_permission role READ_FACTS = true ∧
    let request := answer_retrieval (ga_question a) query in
    let q := scope_for ctx request filters (rr_valid_at r) (rr_known_at r) role in
    asked_instants clock request (rr_valid_at r) (rr_known_at r) ∧
    search_outcome q (aq_limit query) (others d) r ∧
    (∀ i, i ∈ ga_citations a → ∃ v, in_scope q (others d) v ∧ ci_fact_version_id i = fv_id v) ∧
    (ga_status a = ANSWERED → ga_citations a ≠ [] ∧ ∃ text, ga_answer a = Some text ∧ text ≠ []) ∧
    (ga_status a = UNGROUNDED → ga_citations a = [] ∧ ga_answer a = None) ∧
    (ga_generation a = None ↔ rr_results r = []) ∧
    (rr_results r = [] → ga_status a = INSUFFICIENT_EVIDENCE ∧ ga_citations a = []).
Proof.
  intros H Hc. apply answer_cases in H as (question & r & _ & _ & H & Ha).
  apply search_cases in H as (q & filters & t & k & role & _ & Hf & Hask & Hlim & _ & _ & _ & H).
  destruct H as [(key & r0 & Hl & _)|(key & qv & r0 & s1 & Hl & Hs & -> & Hput)];
    [by apply st_ret_ok in Hl as [? _]|].
  apply st_ret_ok in Hl as [[= ->] ->]. cbn [fst snd] in *.
  destruct (search_store_times _ _ _ _ _ _ _ _ _ _ _ _ _ Hs) as [<- <-].
  apply search_store_ok in Hs as (_ & role' & Hrole & Hperm & _ & Hout); [|done|lia].
  exists filters, role', (with_cache CS_off r0).
  split; [done|]. split; [done|]. cbv zeta.
  assert (Hq : ga_question a = question) by (destruct Ha as [[_ ->]|(_ & m & g & ->)]; done).
  rewrite Hq. clear Hq. split; [exact Hask|]. destruct Ha as [[Hnil ->]|(Hne & m & g & ->)].
  - split_and!; try done; [by apply search_outcome_with_cache|by intros i ?%not_elem_of_nil].
  - set (facts := pack_facts _). cbn [ga_citations ga_status ga_answer ga_generation checked_answer].
    assert (Hcited : gc_status (check_answer m facts) = ANSWERED → gc_cited (check_answer m facts) ≠ []
      ∧ ma_answer m ≠ []).
    { unfold check_answer. destruct (cite _ _ _ _) as [cited rejected].
      destruct (ma_insufficient_evidence m); [done|]. destruct (_ || _) eqn:E; [done|]. intros _.
      rewrite !orb_false_iff, negb_false_iff, !is_empty_false in E. tauto. }
    assert (Hnone : gc_status (check_answer m facts) = UNGROUNDED → gc_cited (check_answer m facts) = []).
    { unfold check_answer. destruct (cite _ _ _ _) as [cited rejected].
      destruct (ma_insufficient_evidence m); [done|]. by destruct (_ || _). }
    split_and!; try done.
    + by apply search_outcome_with_cache.
    + intros i (f & -> & Hfi)%list_elem_of_fmap.
      assert (Hsup : f ∈ facts).
      { destruct (cite_ok facts (ma_cited_facts m) [] []) as (I1 & _);
          [by intros x ?%not_elem_of_nil|constructor|].
        unfold check_answer in Hfi. destruct (cite _ _ _ _) as [cited rejected]. cbn [fst] in I1.
        destruct (ma_insufficient_evidence m); [by apply not_elem_of_nil in Hfi|].
        destruct (_ || _); [by apply not_elem_of_nil in Hfi|]. by apply I1. }
      apply pack_facts_from in Hsup as (x & Hx & E). destruct (so_in_scope _ _ _ _ Hout x Hx) as (v & Hv & Hver & _).
      exists v. split; [done|]. cbn. by rewrite E, Hver, as_known_id.
    + intros Hs. destruct (Hcited Hs) as [H1 H2]. split; [by intros ?%map_eq_nil|].
      exists (ma_answer m). split; [|done]. by rewrite Hs.
    + intros Hs. split; [by rewrite (Hnone Hs)|]. by rewrite Hs.
Qed.
End answers.
