(* ===== verification/ContradictionService.v ===== *)
(** Contradictions: list, inspect, resolve, and the optional review by a model
    (app/services/contradictions.py).  The deterministic rule that detects them
    is in FactRepo.v and runs in FactService.v. *)

From S2P Require Import Prelude PyStr Json Regex Validation Access Temporal History Database.
From S2P Require Import Schema Calendar Accounts FactRepo EvidenceService FactService Ledger.
From S2P Require Import TemporalService Ranking Generation Retrieval Grounding.

Definition MAX_CONTRADICTIONS : Z := 200.
Definition MAX_REVIEW_FACTS : Z := 50.
Definition REVIEW_MAX_VALUE_CHARS : Z := 300.

Record ContradictionSide := {
  cd_fact_id : UUID; cd_property : pystr; cd_source_id : UUID; cd_source_name : pystr;
  cd_version : VersionSnapshot }.

Record ContradictionView := {
  cv_id : UUID; cv_entity_type : pystr; cv_external_id : pystr; cv_kind : ContradictionKind;
  cv_detector : string; cv_explanation : pystr; cv_status : ContradictionStatus;
  cv_preferred_version_id : option UUID; cv_privacy_scope : PrivacyScope;
  cv_left : ContradictionSide; cv_right : ContradictionSide; cv_detected_at : Instant;
  cv_resolved_at : option Instant; cv_resolved_by_user_id : option UUID;
  cv_resolution_note : option pystr }.

Record ReviewResult := {
  rv_entity_type : pystr; rv_external_id : pystr; rv_facts_reviewed : Z;
  rv_created : list ContradictionView; rv_already_known : Z; rv_rejected_findings : Z;
  rv_prompt_version : pystr; rv_model : option pystr }.

(** * Helpers *)

(** [_visible]; the scopes are in [PRIVACY_ORDER] already. *)
Definition visible_for (ctx : TenantContext) (permission : Permission) : DB (list PrivacyScope) :=
  role ← require_permission ctx permission;
  mret (visible_privacy_scopes role [ctx_max_privacy_scope ctx]).

Definition one_of (ctx : TenantContext) (i : UUID) (visible : list PrivacyScope)
    (c : contradiction) : bool :=
  (c_organization_id c =? ctx_organization_id ctx) && (c_id c =? i)
  && bool_decide (c_privacy_scope c ∈ visible).

(** [_row]; [session.scalar] takes the first row. *)
Definition contradiction_row (ctx : TenantContext) (i : UUID) (visible : list PrivacyScope) :
    DB contradiction :=
  rows ← select Contradictions (one_of ctx i visible);
  match head rows with
  | None => raise (NotFoundError "contradiction not found")
  | Some c => mret c
  end.

Definition side (org version_id : UUID) : DB (ContradictionSide * entity) :=
  rows ← gets (λ d,
    v ← where_ (λ v, (fv_organization_id v =? org) && (fv_id v =? version_id)) (tab d FactVersions);
    f ← where_ (fact_of v) (tab d Facts);
    e ← where_ (entity_of f) (tab d Entities);
    s ← where_ (source_of v) (tab d FactSources);
    [({| cd_fact_id := f_id f; cd_property := f_property f; cd_source_id := s_id s;
         cd_source_name := s_name s; cd_version := to_snapshot v |}, e)]);
  lift (one rows).

Definition view (row : contradiction) : DB ContradictionView :=
  l ← side (c_organization_id row) (c_left_version_id row);
  r ← side (c_organization_id row) (c_right_version_id row);
  let '(left_side, entity) := l in
  mret {| cv_id := c_id row; cv_entity_type := e_entity_type entity;
          cv_external_id := e_external_id entity; cv_kind := c_kind row;
          cv_detector := c_detector row; cv_explanation := c_explanation row;
          cv_status := c_status row; cv_preferred_version_id := c_preferred_version_id row;
          cv_privacy_scope := c_privacy_scope row; cv_left := left_side; cv_right := r.1;
          cv_detected_at := c_detected_at row; cv_resolved_at := c_resolved_at row;
          cv_resolved_by_user_id := c_resolved_by_user_id row;
          cv_resolution_note := c_resolution_note row |}.

(** * list, get, resolve *)

(** ORDER BY detected_at DESC, id *)
Definition latest_detected (a b : contradiction) : bool :=
  (c_detected_at b <? c_detected_at a)
  || ((c_detected_at a =? c_detected_at b) && (c_id a <=? c_id b)).

Definition equals_opt `{EqDecision A} (x : A) (o : option A) : bool :=
  match o with None => true | Some y => bool_decide (x = y) end.

Definition list_contradictions (ctx : TenantContext) (status : option ContradictionStatus)
    (entity_type external_id : option pystr) (limit : Z) : DB (list ContradictionView) :=
  if negb ((1 <=? limit) && (limit <=? MAX_CONTRADICTIONS))
  then raise (ValidationFailedError "limit must be between 1 and {MAX_LIST}")
  else transaction (
    visible ← visible_for ctx READ_FACTS;
    rows ← gets (λ d,
      c ← where_ (λ c, (c_organization_id c =? ctx_organization_id ctx)
                       && bool_decide (c_privacy_scope c ∈ visible)
                       && equals_opt (c_status c) status) (tab d Contradictions);
      e ← where_ (λ e, (e_organization_id e =? c_organization_id c)
                       && (e_id e =? c_entity_id c)) (tab d Entities);
      if equals_opt (e_entity_type e) entity_type && equals_opt (e_external_id e) external_id
      then [c] else []);
    mapM_ view (take (Z.to_nat limit) (sort_by latest_detected rows))).

Definition get_contradiction (ctx : TenantContext) (i : UUID) : DB ContradictionView :=
  transaction (
    visible ← visible_for ctx READ_FACTS;
    row ← contradiction_row ctx i visible;
    view row).

Definition resolved (ctx : TenantContext) (status : ContradictionStatus) (note : option pystr)
    (now : Instant) (c : contradiction) : contradiction := {|
  c_id := c_id c; c_organization_id := c_organization_id c; c_entity_id := c_entity_id c;
  c_left_version_id := c_left_version_id c; c_right_version_id := c_right_version_id c;
  c_kind := c_kind c; c_detector := c_detector c; c_explanation := c_explanation c;
  c_preferred_version_id := c_preferred_version_id c; c_privacy_scope := c_privacy_scope c;
  c_status := status; c_resolution_note := note; c_resolved_by_user_id := Some (ctx_user_id ctx);
  c_resolved_at := Some now; c_detected_at := c_detected_at c |}.

(** [clock] is [datetime.now(UTC)] of the service. *)
Definition resolve_contradiction (clock : Instant) (ctx : TenantContext) (i : UUID)
    (status : ContradictionStatus) (note : option pystr) : DB ContradictionView :=
  if bool_decide (status = OPEN)
  then raise (ValidationFailedError "status must be resolved or dismissed")
  else transaction (
    visible ← visible_for ctx WRITE_FACTS;
    row ← contradiction_row ctx i visible;
    if negb (bool_decide (c_status row = OPEN))
    then raise (ConflictError "contradiction is already {row.status.value}")
    else
      _ ← exec_update Contradictions (λ c, c_id c =? c_id row) (resolved ctx status note clock);
      view (resolved ctx status note clock row)).

(** * The review by a model *)

Section review.
Context `{UD : !UnicodeData} `{FR : !FloatRepr} `{JL : !JsonLoads} `{GP : !GenerationProvider}.

(** [json.dumps(value, default=str)] *)
Definition default_options : dump_options :=
  {| dump_escape := escape_char_ascii; dump_allow_nan := true;
     dump_item_sep := [44; 32]; dump_key_sep := [58; 32]; dump_sort_keys := false |}.

Definition render_labelled (labelled : list (pystr * ResolvedFact)) : result pystr :=
  lines ← mapR (λ lf : pystr * ResolvedFact,
      value ← dumps default_options (vs_value (rf_version lf.2));
      Ok (py "[" ++ lf.1 ++ py "] " ++ rf_property lf.2 ++ py " = "
          ++ truncated REVIEW_MAX_VALUE_CHARS (py "...") value)) labelled;
  Ok (join [10] lines).

(** One item of ["findings"]: a missing key or a wrong type is malformed. *)
Definition finding_of (item : json) : result (pystr * pystr * pystr) :=
  match item with
  | JObj kvs =>
    match assoc (py "left") kvs, assoc (py "right") kvs, assoc (py "explanation") kvs with
    | Some l, Some r, Some e => Ok (py_str l, py_str r, py_str e)
    | _, _, _ => malformed
    end
  | _ => malformed
  end.

(** [_parse_findings]; iterating an empty string or dict yields nothing, a
    non-empty one yields strings, which have no keys. *)
Definition parse_findings (text : pystr) : result (list (pystr * pystr * pystr)) :=
  match json_loads_text text with
  | Err JSONDecodeError | Err ValueError => malformed
  | Err e => Err e
  | Ok (JObj kvs) =>
    match assoc (py "findings") kvs with
    | Some (JList items) => mapR finding_of items
    | Some (JObj []) | Some (JStr []) => Ok []
    | _ => malformed
    end
  | Ok _ => malformed
  end.

(** [labelled.get(label)] *)
Definition labelled_get (labelled : list (pystr * ResolvedFact)) (label : pystr) :
    option ResolvedFact := assoc label labelled.

(** The accepted findings, and how many were rejected. *)
Fixpoint screen_findings (labelled : list (pystr * ResolvedFact))
    (findings : list (pystr * pystr * pystr)) :
    list (ResolvedFact * ResolvedFact * pystr) * Z :=
  match findings with
  | [] => ([], 0)
  | (l, r, explanation) :: fs =>
    let '(accepted, rejected) := screen_findings labelled fs in
    match labelled_get labelled l, labelled_get labelled r with
    | Some lf, Some rf =>
      if rf_fact_id lf =? rf_fact_id rf then (accepted, rejected + 1)
      else ((lf, rf, explanation) :: accepted, rejected)
    | _, _ => (accepted, rejected + 1)
    end
  end.

Definition version_id (f : ResolvedFact) : UUID := vs_id (rf_version f).

(** [sorted((left, right), key=lambda f: str(f.version.id))];
    the texts are ordered like the ids. *)
Definition in_id_order (lf rf : ResolvedFact) : ResolvedFact * ResolvedFact :=
  if version_id rf <? version_id lf then (rf, lf) else (lf, rf).

Definition pair_known (org l r : UUID) : DB bool :=
  gets (exists_row Contradictions (λ c, (c_organization_id c =? org)
    && (c_left_version_id c =? l) && (c_right_version_id c =? r))).

Definition semantic_row (ctx : TenantContext) (i : UUID) (now : Instant)
    (first second : ResolvedFact) (explanation : pystr) : contradiction := {|
  c_id := i; c_organization_id := ctx_organization_id ctx; c_entity_id := rf_entity_id first;
  c_left_version_id := version_id first; c_right_version_id := version_id second;
  c_kind := SEMANTIC; c_detector := "llm:contradiction-review-v1";
  c_explanation := take 2000 explanation; c_preferred_version_id := None;
  c_privacy_scope := max_scope (vs_privacy_scope (rf_version first))
                               (vs_privacy_scope (rf_version second));
  c_status := OPEN; c_resolution_note := None; c_resolved_by_user_id := None;
  c_resolved_at := None; c_detected_at := now |}.

(** One accepted finding: None when the pair is already recorded. *)
Definition store_finding (ctx : TenantContext) (finding : ResolvedFact * ResolvedFact * pystr) :
    DB (option ContradictionView) :=
  let '(lf, rf, explanation) := finding in
  let '(first, second) := in_id_order lf rf in
  existing ← pair_known (ctx_organization_id ctx) (version_id first) (version_id second);
  if existing : bool then mret None
  else
    i ← fresh_id;
    now ← gets db_now;
    let row := semantic_row ctx i now first second explanation in
    _ ← exec_insert Contradictions row;
    v ← view row;
    mret (Some v).

Definition review_prompt : PromptTemplate := CONTRADICTION_REVIEW_V1.

(** [chain.ainvoke] and [_parse_findings] under one [except GenerationError]. *)
Definition ask_for_findings (max_output_tokens : Z) (entity_type external_id : pystr)
    (labelled : list (pystr * ResolvedFact)) : result (GenerationResult * list (pystr * pystr * pystr)) :=
  or_answer_error "the model could not review the facts" (
    text ← render_labelled labelled;
    message ← structured_chain review_prompt max_output_tokens (Some (Fin 0 0))
                (py "contradiction_review")
                [("entity"%string, entity_type ++ [58] ++ external_id); ("facts"%string, text)];
    findings ← parse_findings (gn_text message);
    Ok (message, findings)).

(** [clock] is what [facts_at] takes as the present. *)
Definition review_entity (clock : Instant) (ctx : TenantContext) (entity_type external_id : pystr)
    (max_output_tokens : Z) : DB ReviewResult :=
  role ← transaction (
    role ← require_permission ctx READ_FACTS;
    _ ← require_permission ctx WRITE_FACTS;
    mret role);
  let visible := visible_privacy_scopes role [ctx_max_privacy_scope ctx] in
  all ← facts_at clock ctx entity_type external_id None None;
  let facts := take (Z.to_nat MAX_REVIEW_FACTS)
                 (where_ (λ f, bool_decide (vs_privacy_scope (rf_version f) ∈ visible)) all) in
  let result := λ created known rejected model, {|
    rv_entity_type := entity_type; rv_external_id := external_id;
    rv_facts_reviewed := zlen facts; rv_created := created; rv_already_known := known;
    rv_rejected_findings := rejected; rv_prompt_version := pt_version review_prompt;
    rv_model := model |} in
  if zlen facts <? 2 then mret (result [] 0 0 None)
  else
    let labelled := map (λ p, (fact_label p.1, p.2)) (enumerate_from 1 facts) in
    reply ← lift (ask_for_findings max_output_tokens entity_type external_id labelled);
    let '(message, findings) := reply in
    let '(accepted, rejected) := screen_findings labelled findings in
    views ← transaction (
      _ ← require_permission ctx WRITE_FACTS;
      mapM_ (store_finding ctx) accepted);
    mret (result (omap id views) (zlen (where_ (λ v, match v with None => true | Some _ => false end) views)) rejected
            (Some (if is_empty (gn_model message) then model_id else gn_model message))).

End review.

(** * Reading changes nothing *)

#[export] Instance eq_preorder : PreOrder (eq (A := db)).
Proof. split; [by intros d|by intros a b c -> ->]. Qed.

Lemma view_state row : respects eq (view row).
Proof. unfold view, side. respects fail. Qed.

Lemma visible_for_ok ctx p visible d d' :
  visible_for ctx p d = (Ok visible, d') →
  d' = d ∧ ∃ role, current_role d (ctx_organization_id ctx) (ctx_user_id ctx) role ∧
    has_permission role p = true ∧ visible = visible_privacy_scopes role [ctx_max_privacy_scope ctx].
Proof.
  unfold visible_for. intros H. apply st_bind_ok in H as (role & s1 & Hp & [-> ->]%st_ret_ok).
  apply require_permission_ok in Hp as (-> & Hr & Hp & _). split; [done|]. by exists role.
Qed.

Lemma contradiction_row_ok ctx i visible row d d' :
  contradiction_row ctx i visible d = (Ok row, d') →
  d' = d ∧ row ∈ tab d Contradictions ∧ c_organization_id row = ctx_organization_id ctx ∧
  c_id row = i ∧ c_privacy_scope row ∈ visible.
Proof.
  unfold contradiction_row. intros H.
  apply st_bind_ok in H as (rows & s1 & [-> ->]%(select_ok Contradictions) & H). cbn [Database.row] in H.
  destruct (where_ _ _) as [|c l] eqn:E; cbn in H; [by apply raise_ok in H|].
  apply st_ret_ok in H as [-> ->]. split; [done|].
  assert (Hin : c ∈ where_ (one_of ctx i visible) (tab d Contradictions)) by (rewrite E; by left).
  apply elem_of_where_ in Hin as [Hp Hin]. unfold one_of in Hp.
  rewrite !andb_true_iff, !Z.eqb_eq, bool_decide_eq_true in Hp. tauto.
Qed.

Lemma resolve_contradiction_ok clock ctx i status note d v d' :
  resolve_contradiction clock ctx i status note d = (Ok v, d') →
  status ≠ OPEN ∧ ∃ role row,
    current_role d (ctx_organization_id ctx) (ctx_user_id ctx) role ∧
    has_permission role WRITE_FACTS = true ∧ row ∈ tab d Contradictions ∧
    c_organization_id row = ctx_organization_id ctx ∧ c_id row = i ∧
    c_privacy_scope row ∈ visible_privacy_scopes role [ctx_max_privacy_scope ctx] ∧
    c_status row = OPEN ∧ frame [Contradictions] d d' ∧
    tab d' Contradictions
      = map (λ c, if c_id c =? i then resolved ctx status note clock c else c) (tab d Contradictions).
Proof.
  unfold resolve_contradiction. destruct (bool_decide (status = OPEN)) eqn:Hs; [by intros []%raise_ok|].
  apply bool_decide_eq_false in Hs. intros H. split; [done|].
  apply (proj1 (transaction_ok _ _ _ _)) in H.
  apply st_bind_ok in H as (visible & s1 & Hv & H). apply visible_for_ok in Hv as (-> & role & Hr & Hp & ->).
  apply st_bind_ok in H as (row & s2 & Hrow & H).
  apply contradiction_row_ok in Hrow as (-> & Hin & Ho & Hi & Hvis).
  destruct (bool_decide (c_status row = OPEN)) eqn:Ho'; cbn [negb] in H; [|by apply raise_ok in H].
  apply bool_decide_eq_true in Ho'.
  apply st_bind_ok in H as (u & s3 & Hu & Hview). apply view_state in Hview as ->.
  apply exec_update_ok in Hu as (_ & F & T); [|done]. rewrite Hi in T.
  by exists role, row.
Qed.

(** Resolving closes an open contradiction that the caller may see and may
    write, records who and when, and changes no other contradiction and no fact;
    it succeeds once: from then on nobody resolves it again. *)
Theorem resolve_closes_once clock ctx i status note d v d' :
  resolve_contradiction clock ctx i status note d = (Ok v, d') →
  (∃ role row,
     current_role d (ctx_organization_id ctx) (ctx_user_id ctx) role ∧
     has_permission role WRITE_FACTS = true ∧ row ∈ tab d Contradictions ∧ c_id row = i ∧
     c_organization_id row = ctx_organization_id ctx ∧
     c_privacy_scope row ∈ visible_privacy_scopes role [ctx_max_privacy_scope ctx] ∧
     c_status row = OPEN ∧ resolved ctx status note clock row ∈ tab d' Contradictions) ∧
  frame [Contradictions] d d' ∧
  (∀ c, c_id c ≠ i → c ∈ tab d' Contradictions ↔ c ∈ tab d Contradictions) ∧
  (∀ c, c ∈ tab d' Contradictions → c_id c = i →
     c_status c = status ∧ status ≠ OPEN ∧ c_resolved_by_user_id c = Some (ctx_user_id ctx) ∧
     c_resolved_at c = Some clock ∧ c_resolution_note c = note) ∧
  (∀ clock' ctx' status' note' v' d'',
     resolve_contradiction clock' ctx' i status' note' d' ≠ (Ok v', d'')).
Proof.
  intros H. apply resolve_contradiction_ok in H as (Hs & role & row & Hr & Hp & Hin & Ho & Hi & Hvis & Hst & F & T).
  assert (Hafter : ∀ c, c ∈ tab d' Contradictions → c_id c = i → ∃ c0, c = resolved ctx status note clock c0).
  { intros c Hc Hci. rewrite T in Hc. apply list_elem_of_fmap in Hc as (c0 & -> & Hc0).
    destruct (Z.eqb_spec (c_id c0) i); [by exists c0|done]. }
  split_and!; try done.
  - exists role, row. split_and!; try done. rewrite T. apply list_elem_of_fmap. exists row.
    by rewrite Hi, Z.eqb_refl.
  - intros c Hc. rewrite T, list_elem_of_fmap. split.
    + intros (c0 & -> & Hc0). by destruct (Z.eqb_spec (c_id c0) i).
    + intros Hin'. exists c. split; [|done]. by destruct (Z.eqb_spec (c_id c) i).
  - intros c Hc Hci. by destruct (Hafter c Hc Hci) as (c0 & ->).
  - intros clock' ctx' status' note' v' d'' H'.
    apply resolve_contradiction_ok in H' as (_ & role' & row' & _ & _ & Hin' & _ & Hi' & _ & Hst' & _).
    destruct (Hafter row' Hin' Hi') as (c0 & ->). done.
Qed.

Section review_properties.
Context `{UD : !UnicodeData} `{FR : !FloatRepr} `{JL : !JsonLoads} `{GP : !GenerationProvider}.

Lemma facts_at_state clock ctx et ext t k : respects eq (facts_at clock ctx et ext t k).
Proof.
  unfold facts_at, require_entity, TemporalRepository.get_entity, TemporalRepository.facts_valid_at.
  respects ltac:(first [apply require_permission_state; apply _ | apply select_respects; apply _]).
Qed.

(** Every accepted finding is a pair of labelled facts of two different facts. *)
Lemma screen_findings_ok labelled findings a b e :
  (a, b, e) ∈ (screen_findings labelled findings).1 →
  a ∈ map snd labelled ∧ b ∈ map snd labelled ∧ rf_fact_id a ≠ rf_fact_id b.
Proof.
  assert (Hget : ∀ l f, labelled_get labelled l = Some f → f ∈ map snd labelled).
  { unfold labelled_get. induction labelled as [|[k x] rest IH]; [done|]. intros l f. cbn [assoc map].
    destruct (bool_decide _); [intros [= ->]; by left|]. intros Hf. right. by eapply IH. }
  induction findings as [|[[l r] ex] fs IH]; cbn [screen_findings]; [by intros ?%not_elem_of_nil|].
  destruct (screen_findings labelled fs) as [accepted rejected]. cbn [fst] in IH.
  destruct (labelled_get labelled l) as [lf|] eqn:El; [|exact IH].
  destruct (labelled_get labelled r) as [rf|] eqn:Er; [|exact IH].
  destruct (Z.eqb_spec (rf_fact_id lf) (rf_fact_id rf)) as [|Hne]; [exact IH|].
  cbn [fst]. intros [[= -> -> ->]|Hin]%elem_of_cons; [|by apply IH].
  split_and!; [by eapply Hget|by eapply Hget|done].
Qed.

(** Storing a finding adds one row, or none when the pair is recorded already. *)
Lemma store_finding_ok ctx a b e o d d' :
  store_finding ctx (a, b, e) d = (Ok o, d') →
  frame [Contradictions] d d' ∧ ∃ rows, tab d' Contradictions = tab d Contradictions ++ rows ∧
    length rows = length (match o with None => [] | Some v => [v] end) ∧
    ∀ c, c ∈ rows → ∃ i now, let p := in_id_order a b in c = semantic_row ctx i now p.1 p.2 e.
Proof.
  unfold store_finding. destruct (in_id_order a b) as [first second] eqn:Ep. intros H.
  apply st_bind_ok in H as (existing & s1 & [-> ->]%gets_ok & H).
  destruct (exists_row _ _ _).
  - apply st_ret_ok in H as [-> ->]. split; [apply frame_refl|]. exists [].
    split_and!; [by rewrite app_nil_r|done|by intros c ?%not_elem_of_nil].
  - apply st_bind_ok in H as (i & s2 & [-> ->]%fresh_id_ok & H).
    apply st_bind_ok in H as (now & s3 & [-> ->]%gets_ok & H).
    apply st_bind_ok in H as (u & s4 & Hi & H). apply exec_insert_ok in Hi as (_ & F & T); [|done].
    apply st_bind_ok in H as (v & s5 & Hv & [-> ->]%st_ret_ok). apply view_state in Hv as <-.
    split; [by eapply frame_trans; [apply frame_bump|]|]. eexists. split_and!; [exact T|done|].
    intros c ->%list_elem_of_singleton. by do 2 eexists.
Qed.

Lemma store_findings_ok ctx accepted views d d' :
  mapM_ (store_finding ctx) accepted d = (Ok views, d') →
  frame [Contradictions] d d' ∧ ∃ rows, tab d' Contradictions = tab d Contradictions ++ rows ∧
    length rows = length (omap id views) ∧
    ∀ c, c ∈ rows → ∃ a b e i now, (a, b, e) ∈ accepted ∧
      let p := in_id_order a b in c = semantic_row ctx i now p.1 p.2 e.
Proof.
  revert views d. induction accepted as [|[[a b] e] accepted IH]; intros views d H; cbn [mapM_] in H.
  - apply st_ret_ok in H as [-> ->]. split; [apply frame_refl|]. exists [].
    split_and!; [by rewrite app_nil_r|done|by intros c ?%not_elem_of_nil].
  - apply st_bind_ok in H as (o & d1 & Ho & H).
    apply st_bind_ok in H as (os & d2 & Hos & [-> ->]%st_ret_ok).
    apply store_finding_ok in Ho as (F1 & rows1 & T1 & L1 & R1).
    apply IH in Hos as (F2 & rows2 & T2 & L2 & R2).
    split; [by eapply frame_trans|]. exists (rows1 ++ rows2). split_and!.
    + by rewrite T2, T1, app_assoc.
    + rewrite length_app, L1, L2. by destruct o.
    + intros c [Hc|Hc]%elem_of_app.
      * destruct (R1 c Hc) as (i & now & E). exists a, b, e, i, now. split; [by left|done].
      * destruct (R2 c Hc) as (a' & b' & e' & i & now & Hin & E). exists a', b', e', i, now.
        split; [by right|done].
Qed.

Lemma labelled_facts (facts : list ResolvedFact) :
  map snd (map (λ p, (fact_label p.1, p.2)) (enumerate_from 1 facts)) = facts.
Proof.
  rewrite map_map. cbn. generalize 1. induction facts as [|f facts IH]; intros i; [done|].
  cbn [enumerate_from map snd]. by rewrite IH.
Qed.

Lemma in_id_order_cases a b : in_id_order a b = (a, b) ∨ in_id_order a b = (b, a).
Proof. unfold in_id_order. destruct (_ <? _); auto. Qed.

Lemma max_scope_cases a b : max_scope a b = a ∨ max_scope a b = b.
Proof. unfold max_scope. destruct (_ <? _)%nat; auto. Qed.

(** Whatever the model answers, a review only adds open suggestions, each
    between current versions of two different facts of the entity, both visible
    to the caller, with no preferred side and readable only by those who may read
    both; it adds as many as it reports and writes nothing else. *)
Theorem review_adds_only_visible_suggestions clock ctx et ext max d rv d' :
  review_entity clock ctx et ext max d = (Ok rv, d') →
  ∃ role facts rows,
    current_role d (ctx_organization_id ctx) (ctx_user_id ctx) role ∧
    has_permission role READ_FACTS = true ∧ has_permission role WRITE_FACTS = true ∧
    facts_at clock ctx et ext None None d = (Ok facts, d) ∧
    frame [Contradictions] d d' ∧ tab d' Contradictions = tab d Contradictions ++ rows ∧
    length rows = length (rv_created rv) ∧
    ∀ c, c ∈ rows → c_kind c = SEMANTIC ∧ c_status c = OPEN ∧ c_preferred_version_id c = None ∧
      let visible := visible_privacy_scopes role [ctx_max_privacy_scope ctx] in
      c_privacy_scope c ∈ visible ∧
      ∃ a b, a ∈ facts ∧ b ∈ facts ∧ rf_fact_id a ≠ rf_fact_id b ∧
        c_left_version_id c = version_id a ∧ c_right_version_id c = version_id b ∧
        vs_privacy_scope (rf_version a) ∈ visible ∧ vs_privacy_scope (rf_version b) ∈ visible ∧
        c_privacy_scope c = max_scope (vs_privacy_scope (rf_version a)) (vs_privacy_scope (rf_version b)).
Proof.
  intros H. unfold review_entity in H.
  apply st_bind_ok in H as (role & s1 & Hp & H). apply (proj1 (transaction_ok _ _ _ _)) in Hp.
  apply st_bind_ok in Hp as (role0 & s2 & Hp1 & Hp).
  apply require_permission_ok in Hp1 as (-> & Hr & Hread & _).
  apply st_bind_ok in Hp as (role1 & s3 & Hp2 & [-> ->]%st_ret_ok).
  apply require_permission_ok in Hp2 as (-> & Hr1 & Hwrite & _).
  assert (role1 = role0) as ->.
  { destruct Hr as (_ & m & Hm & <-), Hr1 as (_ & m' & Hm' & <-). rewrite Hm in Hm'. by injection Hm' as ->. }
  apply st_bind_ok in H as (all & s4 & Hall & H). pose proof (facts_at_state _ _ _ _ _ _ _ _ _ Hall) as <-.
  set (visible := visible_privacy_scopes role0 _) in *.
  set (facts := take _ _) in H. exists role0, all.
  assert (Hfacts : ∀ f, f ∈ facts → f ∈ all ∧ vs_privacy_scope (rf_version f) ∈ visible).
  { intros f Hf%in_take. apply elem_of_where_ in Hf as [Hv Hf]. by apply bool_decide_eq_true in Hv. }
  destruct (zlen facts <? 2).
  - apply st_ret_ok in H as [-> ->]. exists []. split_and!; try done; [by rewrite app_nil_r|].
    by intros c ?%not_elem_of_nil.
  - apply st_bind_ok in H as ([message findings] & s5 & [_ ->]%lift_ok & H).
    destruct (screen_findings _ findings) as [accepted rejected] eqn:Es.
    apply st_bind_ok in H as (views & s6 & Ht & [-> ->]%st_ret_ok).
    apply (proj1 (transaction_ok _ _ _ _)) in Ht.
    apply st_bind_ok in Ht as (role2 & s7 & Hp3 & Hs). apply require_permission_ok in Hp3 as (-> & _).
    apply store_findings_ok in Hs as (F & rows & T & L & R). exists rows.
    split_and!; try done. intros c Hc. destruct (R c Hc) as (a & b & e & i & now & Hin & Ec).
    replace accepted with (screen_findings (map (λ p, (fact_label p.1, p.2)) (enumerate_from 1 facts))
      findings).1 in Hin by by rewrite Es.
    apply screen_findings_ok in Hin. rewrite labelled_facts in Hin. destruct Hin as (Ha & Hb & Hne). destruct (Hfacts a Ha) as [Ha' Hva], (Hfacts b Hb) as [Hb' Hvb].
    destruct (in_id_order_cases a b) as [E|E]; rewrite E in Ec; cbv zeta in Ec; subst c; cbn.
    + split_and!; try done; [by destruct (max_scope_cases (vs_privacy_scope (rf_version a))
        (vs_privacy_scope (rf_version b))) as [-> | ->]|]. by exists a, b.
    + split_and!; try done; [by destruct (max_scope_cases (vs_privacy_scope (rf_version b))
        (vs_privacy_scope (rf_version a))) as [-> | ->]|]. exists b, a. by split_and!; auto.
Qed.
End review_properties.
