(* ===== verification/Store.v ===== *)
(** The short-lived shared store of app/cache/store.py and its small clients:
    the rate limiter (cache/rate_limit.py) and the single-use OAuth states
    (cache/oauth_state.py).  Time is in milliseconds. *)

From stdpp Require Import gmap.
From S2P Require Import Prelude PyStr Json Regex Validation Access Temporal History Database.
From S2P Require Import Schema Accounts FactRepo EvidenceService Canonical.

(** A value is the bytes stored. *)
Abbreviation bytes := (list Z) (only parsing).

(** [MemoryStore]: the dict of (value, expiry) and the clock.  [kv_up] is whether
    a Redis server answers. *)
Record kv := { kv_data : gmap pystr (bytes * Z); kv_clock : Z; kv_up : bool }.
Record Counter := { counter_value : Z; counter_ttl_ms : Z }.

Abbreviation KV := (ST kv) (only parsing).

Definition with_data (f : gmap pystr (bytes * Z) → gmap pystr (bytes * Z)) (s : kv) : kv :=
  {| kv_data := f (kv_data s); kv_clock := kv_clock s; kv_up := kv_up s |}.
Definition at_time (t : Z) (s : kv) : kv :=
  {| kv_data := kv_data s; kv_clock := t; kv_up := kv_up s |}.

Definition answering (up : bool) (s : kv) : kv :=
  {| kv_data := kv_data s; kv_clock := kv_clock s; kv_up := up |}.

(** [int(value)] of the stored decimal text. *)
Definition int_of_bytes (b : bytes) : result Z :=
  match b with
  | [] => Err ValueError
  | _ => if forallb is_digit b then Ok (fold_left (λ a c, a * 10 + (c - 48)) b 0) else Err ValueError
  end.

Module MemoryStore.

(** [_live]: drops the entry when its time has come. *)
Definition live (key : pystr) : KV (option (bytes * Z)) := λ s,
  match kv_data s !! key with
  | Some (v, expires) =>
    if expires <=? kv_clock s then (Ok None, with_data (delete key) s) else (Ok (Some (v, expires)), s)
  | None => (Ok None, s)
  end.

Definition get (key : pystr) : KV (option bytes) :=
  entry ← live key; mret (option_map fst entry).

Definition put (key : pystr) (value : bytes) (expires : Z) : KV unit :=
  modify (with_data (insert key (value, expires))).

Definition set (key : pystr) (value : bytes) (ttl : Z) (only_if_absent : bool) : KV bool :=
  entry ← (if only_if_absent then live key else mret None);
  match entry with
  | Some _ => mret false
  | None =>
    now ← gets kv_clock;
    _ ← put key value (now + ttl);
    mret true
  end.

Definition get_and_delete (key : pystr) : KV (option bytes) :=
  entry ← live key;
  _ ← modify (with_data (delete key));
  mret (option_map fst entry).

Definition delete_key (key : pystr) : KV unit := modify (with_data (delete key)).

Definition increment (key : pystr) (ttl : Z) : KV Counter :=
  entry ← live key;
  now ← gets kv_clock;
  r ← match entry with
      | None => mret (1, now + ttl)
      | Some (v, expires) => n ← lift (int_of_bytes v); mret (n + 1, expires)
      end;
  let '(value, expires) := r in
  _ ← put key (str_of_int value) expires;
  mret {| counter_value := value; counter_ttl_ms := Z.max 0 (expires - now) |}.

End MemoryStore.

(** [RedisStore]: the same commands, each one atomic, or [StoreUnavailableError].  A
    command that gets no answer may have been executed all the same: whether it was is
    not in the program's hands, and [executed] says it. *)
Module RedisStore.
Section redis.
Context (executed : kv → bool).

Definition call {A} (m : KV A) : KV A := λ s,
  if kv_up s then m s else (Err StoreUnavailableError, if executed s then (m s).2 else s).

(** [_ms]: at least one millisecond. *)
Definition ms (ttl : Z) : Z := Z.max 1 ttl.

Definition get (key : pystr) : KV (option bytes) := call (MemoryStore.get key).
Definition set (key : pystr) (value : bytes) (ttl : Z) (only_if_absent : bool) : KV bool :=
  call (MemoryStore.set key value (ms ttl) only_if_absent).
Definition get_and_delete (key : pystr) : KV (option bytes) := call (MemoryStore.get_and_delete key).
Definition delete_key (key : pystr) : KV unit := call (MemoryStore.delete_key key).
Definition increment (key : pystr) (ttl : Z) : KV Counter := call (MemoryStore.increment key (ms ttl)).

End redis.
End RedisStore.

(** [except StoreUnavailableError] *)
Definition unless_available {A} (m : KV A) (fallback : KV A) : KV A := λ s,
  match m s with
  | (Err StoreUnavailableError, s') => fallback s'
  | r => r
  end.

(** ** What an operation leaves in the store *)

(** The value under a key and its expiry, unless it has expired. *)
Definition live_entry (s : kv) (key : pystr) : option (bytes * Z) :=
  match kv_data s !! key with
  | Some (v, e) => if e <=? kv_clock s then None else Some (v, e)
  | None => None
  end.

Lemma live_spec key s :
  MemoryStore.live key s = (Ok (live_entry s key),
    match live_entry s key with
    | Some _ => s
    | None => with_data (delete key) s
    end).
Proof.
  unfold MemoryStore.live, live_entry. destruct (kv_data s !! key) as [[v e]|] eqn:E.
  - by destruct (e <=? kv_clock s).
  - f_equal. destruct s as [m t u]. unfold with_data. simpl in *. f_equal. by rewrite delete_id.
Qed.

Lemma live_entry_other s key k : k ≠ key →
  ∀ f, (∀ m, f m !! k = m !! k) → live_entry (with_data f s) k = live_entry s k.
Proof. intros Hk f Hf. unfold live_entry. simpl. by rewrite Hf. Qed.

Lemma live_entry_insert s key v e :
  live_entry (with_data (insert key (v, e)) s) key = if e <=? kv_clock s then None else Some (v, e).
Proof. unfold live_entry. simpl. by rewrite lookup_insert_eq. Qed.

Lemma live_entry_delete s key : live_entry (with_data (delete key) s) key = None.
Proof. unfold live_entry. simpl. by rewrite lookup_delete_eq. Qed.

Lemma with_data_compose f g s : with_data f (with_data g s) = with_data (λ m, f (g m)) s.
Proof. done. Qed.

Lemma set_absent_spec key v ttl s :
  MemoryStore.set key v ttl true s =
  match live_entry s key with
  | Some _ => (Ok false, s)
  | None => (Ok true, with_data (insert key (v, kv_clock s + ttl)) s)
  end.
Proof.
  unfold MemoryStore.set, mbind, st_bind. rewrite live_spec.
  destruct (live_entry s key); [done|]. unfold gets, MemoryStore.put, modify, mret, st_ret.
  unfold with_data. simpl. by rewrite insert_delete_eq.
Qed.

Lemma set_spec key v ttl s :
  MemoryStore.set key v ttl false s = (Ok true, with_data (insert key (v, kv_clock s + ttl)) s).
Proof. done. Qed.

Lemma get_spec key s : ∃ s', MemoryStore.get key s = (Ok (option_map fst (live_entry s key)), s') ∧
  (∀ k, live_entry s' k = live_entry s k) ∧ kv_clock s' = kv_clock s ∧ kv_up s' = kv_up s.
Proof.
  unfold MemoryStore.get, mbind, st_bind. rewrite live_spec. eexists. split; [done|].
  destruct (live_entry s key) as [[v e]|] eqn:E; [done|]. split; [|done]. intros k.
  destruct (decide (k = key)) as [->|Hk]; [by rewrite live_entry_delete|].
  apply live_entry_other with (key := key); [done|]. intros m. by rewrite lookup_delete_ne.
Qed.

Lemma get_and_delete_spec key s :
  MemoryStore.get_and_delete key s
  = (Ok (option_map fst (live_entry s key)), with_data (delete key) s).
Proof.
  unfold MemoryStore.get_and_delete, mbind, st_bind. rewrite live_spec.
  destruct (live_entry s key); [done|]. unfold modify, mret, st_ret, with_data.
  simpl. by rewrite delete_delete_eq.
Qed.

Lemma int_of_str n : 0 ≤ n → int_of_bytes (str_of_int n) = Ok n.
Proof.
  intros Hn. unfold int_of_bytes, str_of_int. destruct (Z.ltb_spec n 0); [lia|].
  assert (Hne := Canonical.str_of_int_nonempty n). unfold str_of_int in Hne.
  destruct (Z.ltb_spec n 0); [lia|]. destruct (str_of_nonneg n) eqn:E; [done|]. rewrite <-E.
  rewrite Canonical.str_of_nonneg_digits by done. f_equal. by apply Canonical.digits_val_str.
Qed.

(** A counter under a key: its value and expiry. *)
Definition counter_at (s : kv) (key : pystr) : option (Z * Z) :=
  match live_entry s key with
  | Some (v, e) => match int_of_bytes v with Ok n => Some (n, e) | Err _ => None end
  | None => None
  end.

(** What [increment] makes of a counter at time [now]. *)
Definition bump_counter (c : option (Z * Z)) (now ttl : Z) : Z * Z :=
  match c with Some (n, e) => (n + 1, e) | None => (1, now + ttl) end.

(** The entry under the key, if any, is a positive counter. *)
Definition counter_ok (s : kv) (key : pystr) : Prop :=
  ∀ v e, live_entry s key = Some (v, e) → ∃ n, 0 < n ∧ v = str_of_int n.

Lemma increment_spec key ttl s :
  counter_ok s key → 0 < ttl →
  let '(n, e) := bump_counter (counter_at s key) (kv_clock s) ttl in
  ∃ s', MemoryStore.increment key ttl s
        = (Ok {| counter_value := n; counter_ttl_ms := Z.max 0 (e - kv_clock s) |}, s') ∧
    counter_ok s' key ∧ counter_at s' key = Some (n, e) ∧ 0 < n ∧ kv_clock s < e ∧
    kv_clock s' = kv_clock s ∧ kv_up s' = kv_up s ∧
    ∀ k, k ≠ key → live_entry s' k = live_entry s k.
Proof.
  intros Hok Ht. unfold MemoryStore.increment, counter_at.
  unfold mbind at 1, st_bind at 1. rewrite live_spec.
  destruct (live_entry s key) as [[v e]|] eqn:E.
  - destruct (Hok v e E) as (n & Hn & ->). rewrite int_of_str by lia. cbn [bump_counter].
    assert (He : kv_clock s < e).
    { unfold live_entry in E. destruct (kv_data s !! key) as [[v' e']|]; [|done].
      destruct (Z.leb_spec e' (kv_clock s)); [done|]. injection E as _ E2. lia. }
    unfold mbind, st_bind, gets, lift. cbn -[str_of_int int_of_bytes].
    rewrite ?int_of_str by lia. cbn -[str_of_int int_of_bytes].
    eexists. split; [done|]. 
    assert (El : live_entry (with_data (insert key (str_of_int (n + 1), e)) s) key
                 = Some (str_of_int (n + 1), e)).
    { rewrite live_entry_insert. destruct (Z.leb_spec e (kv_clock s)); [lia|done]. }
    split_and!; try done; try lia.
    + intros v' e' Hl. rewrite El in Hl. injection Hl as <- <-. exists (n + 1). split; [lia|done].
    + unfold counter_at. rewrite El, int_of_str by lia. done.
    + intros k Hk. apply live_entry_other with (key := key); [done|]. intros m. by rewrite lookup_insert_ne.
  - cbn [bump_counter]. unfold mbind, st_bind, gets. cbn.
    eexists. split; [done|].
    assert (El : ∀ s0, kv_clock s0 = kv_clock s →
      live_entry (with_data (insert key (str_of_int 1, kv_clock s + ttl)) s0) key
      = Some (str_of_int 1, kv_clock s + ttl)).
    { intros s0 Hs0. rewrite live_entry_insert, Hs0.
      destruct (Z.leb_spec (kv_clock s + ttl) (kv_clock s)); [lia|done]. }
    split_and!; try done; try lia.
    + intros v' e' Hl. rewrite El in Hl by done. injection Hl as <- <-. by exists 1.
    + unfold counter_at. rewrite El by done. by rewrite int_of_str.
    + intros k Hk. rewrite with_data_compose. apply live_entry_other with (key := key); [done|].
      intros m. by rewrite lookup_insert_ne, lookup_delete_ne.
Qed.

(** * The interface the clients use *)

(** [KeyValueStore]: the commands of a store. *)
Class KeyValueStore := {
  store_get : pystr → KV (option bytes);
  store_set : pystr → bytes → Z → bool → KV bool;
  store_get_and_delete : pystr → KV (option bytes);
  store_delete : pystr → KV unit;
  store_increment : pystr → Z → KV Counter;
}.

(** A command does what the in-process store does, or fails - before it was executed or
    after. *)
Definition as_memory {A} (m memory : KV A) : Prop :=
  ∀ s, m s = memory s ∨
    (kv_up s = false ∧ (m s).1 = Err StoreUnavailableError ∧ ((m s).2 = s ∨ (m s).2 = (memory s).2)).

Class KeyValueStoreLaws `{KeyValueStore} := {
  get_law : ∀ k, as_memory (store_get k) (MemoryStore.get k);
  set_law : ∀ k v ttl nx, 1 ≤ ttl → as_memory (store_set k v ttl nx) (MemoryStore.set k v ttl nx);
  get_and_delete_law : ∀ k, as_memory (store_get_and_delete k) (MemoryStore.get_and_delete k);
  delete_law : ∀ k, as_memory (store_delete k) (MemoryStore.delete_key k);
  increment_law : ∀ k ttl, 1 ≤ ttl → as_memory (store_increment k ttl) (MemoryStore.increment k ttl);
}.

Definition memory_store : KeyValueStore := {|
  store_get := MemoryStore.get; store_set := MemoryStore.set;
  store_get_and_delete := MemoryStore.get_and_delete; store_delete := MemoryStore.delete_key;
  store_increment := MemoryStore.increment |}.

Definition redis_store (executed : kv → bool) : KeyValueStore := {|
  store_get := RedisStore.get executed; store_set := RedisStore.set executed;
  store_get_and_delete := RedisStore.get_and_delete executed; store_delete := RedisStore.delete_key executed;
  store_increment := RedisStore.increment executed |}.

(** [build_store]: Redis when a URL is configured. *)
Definition build_store (executed : kv → bool) (redis_url : pystr) : KeyValueStore :=
  match redis_url with [] => memory_store | _ => redis_store executed end.

Lemma call_as_memory {A} executed (m : KV A) : as_memory (RedisStore.call executed m) m.
Proof. intros s. unfold RedisStore.call. destruct (kv_up s); [by left|]. right. destruct (executed s); auto. Qed.

(** Either store keeps the laws, so the clients' theorems hold for both. *)
Lemma build_store_laws executed url : @KeyValueStoreLaws (build_store executed url).
Proof.
  destruct url as [|c url]; simpl; [split; intros; by left|].
  split; intros; cbn [redis_store store_get store_set store_get_and_delete store_delete store_increment];
    unfold RedisStore.get, RedisStore.set, RedisStore.get_and_delete, RedisStore.delete_key,
      RedisStore.increment, RedisStore.ms; rewrite ?Z.max_r by done; apply call_as_memory.
Qed.

(** A store that answers behaves as the in-process one. *)
Lemma as_memory_up {A} (m memory : KV A) s :
  as_memory m memory → kv_up s = true → m s = memory s.
Proof. intros H Hu. destruct (H s) as [E|[E _]]; [done|congruence]. Qed.

(** A failure, whatever it leaves. *)
Lemma as_memory_failed {A} (m memory : KV A) s : as_memory m memory →
  m s = memory s ∨ ∃ s1, kv_up s = false ∧ m s = (Err StoreUnavailableError, s1) ∧ (s1 = s ∨ s1 = (memory s).2).
Proof.
  intros H. destruct (H s) as [E|(Hu & E & Hs)]; [by left|]. right. destruct (m s) as [r s1]. cbn [fst snd] in *. subst r. eauto.
Qed.

(** * Rate limiting *)

Record RateLimitDecision := {
  rl_allowed : bool; rl_limit : Z; rl_remaining : Z; rl_retry_after_seconds : Z }.

Section rate_limit.
Context `{KS : KeyValueStore} (window_seconds : Z).

Definition ratelimit_key (subject : pystr) : pystr := py "cl:ratelimit:" ++ subject.

(** [math.ceil(ms / 1000)] *)
Definition ceil_seconds (ms : Z) : Z := - ((- ms) / 1000).

Definition hit (subject : pystr) (limit : Z) : KV RateLimitDecision :=
  unless_available (
    counter ← store_increment (ratelimit_key subject) (window_seconds * 1000);
    let allowed := counter_value counter <=? limit in
    mret {| rl_allowed := allowed; rl_limit := limit;
            rl_remaining := Z.max 0 (limit - counter_value counter);
            rl_retry_after_seconds :=
              if allowed then 0 else Z.max 1 (ceil_seconds (counter_ttl_ms counter)) |})
    (mret {| rl_allowed := true; rl_limit := limit; rl_remaining := limit;
             rl_retry_after_seconds := 0 |}).

(** Requests of one subject, each with its time and whether the store answers then; which
    of them were allowed. *)
Fixpoint hits_at (subject : pystr) (limit : Z) (arrivals : list (Z * bool)) : KV (list bool) :=
  match arrivals with
  | [] => mret []
  | (t, up) :: arrivals' =>
    _ ← modify (answering up);
    _ ← modify (at_time t);
    r ← hit subject limit;
    rest ← hits_at subject limit arrivals';
    mret (rl_allowed r :: rest)
  end.

Definition count_true (l : list bool) : Z := zlen (where_ id l).

(** The requests allowed among those the store answered. *)
Definition allowed_answered (arrivals : list (Z * bool)) (bs : list bool) : Z :=
  count_true (zip_with (λ a b, a.2 && b) arrivals bs).

Lemma count_true_cons b l : count_true (b :: l) = (if b then 1 else 0) + count_true l.
Proof. unfold count_true, zlen. destruct b; simpl; lia. Qed.

Context `{KL : !KeyValueStoreLaws} (Hwindow : 1 ≤ window_seconds).

Lemma hit_spec subject limit s :
  kv_up s = true → counter_ok s (ratelimit_key subject) →
  let '(n, e) := bump_counter (counter_at s (ratelimit_key subject)) (kv_clock s) (window_seconds * 1000) in
  ∃ s', hit subject limit s
        = (Ok {| rl_allowed := n <=? limit; rl_limit := limit; rl_remaining := Z.max 0 (limit - n);
                 rl_retry_after_seconds :=
                   if n <=? limit then 0 else Z.max 1 (ceil_seconds (Z.max 0 (e - kv_clock s))) |}, s') ∧
    counter_ok s' (ratelimit_key subject) ∧
    counter_at s' (ratelimit_key subject) = Some (n, e) ∧ 0 < n ∧ kv_clock s < e ∧
    kv_clock s' = kv_clock s ∧ kv_up s' = true.
Proof using KL Hwindow.
  intros Hu Hok. pose proof (increment_spec _ (window_seconds * 1000) s Hok ltac:(lia)) as H.
  destruct (bump_counter _ _ _) as [n e]. destruct H as (s' & Hi & ? & ? & ? & ? & ? & Hu' & _).
  exists s'. split; [|rewrite Hu'; done].
  unfold hit, unless_available, mbind, st_bind.
  rewrite (as_memory_up _ _ s (increment_law (ratelimit_key subject) (window_seconds * 1000) ltac:(lia)) Hu), Hi. done.
Qed.

(** A store that does not answer: the request goes through, counted or not. *)
Lemma hit_fails_open subject limit s : kv_up s = false →
  (store_increment (ratelimit_key subject) (window_seconds * 1000) s).1 = Err StoreUnavailableError →
  (hit subject limit s).1
  = Ok {| rl_allowed := true; rl_limit := limit; rl_remaining := limit; rl_retry_after_seconds := 0 |}.
Proof.
  intros _ E. unfold hit, unless_available, mbind, st_bind. destruct (store_increment _ _ s) as [r s1]. cbn [fst] in E. by subst r.
Qed.

(** Either way, the counter. *)
Lemma hit_any subject limit s : counter_ok s (ratelimit_key subject) →
  let key := ratelimit_key subject in
  let '(n, e) := bump_counter (counter_at s key) (kv_clock s) (window_seconds * 1000) in
  ∃ r s', hit subject limit s = (Ok r, s') ∧ counter_ok s' key ∧ kv_clock s' = kv_clock s ∧
    ((counter_at s' key = Some (n, e) ∧ 0 < n ∧ kv_clock s < e ∧ (kv_up s = true → rl_allowed r = (n <=? limit))) ∨
     (kv_up s = false ∧ counter_at s' key = counter_at s key)).
Proof using KL Hwindow.
  intros Hok key. pose proof (increment_spec key (window_seconds * 1000) s Hok ltac:(lia)) as H.
  destruct (bump_counter _ _ _) as [n e]. destruct H as (s1 & Hi & Hok1 & Hc1 & Hn & He & Hclk & _ & _).
  unfold hit, unless_available, mbind, st_bind. fold key.
  destruct (as_memory_failed _ _ s (increment_law key (window_seconds * 1000) ltac:(lia)))
    as [E|(s2 & Hu & E & [-> | ->])]; rewrite E; rewrite ?Hi; cbn [snd]; eexists _, _; (split; [reflexivity|]).
  - split; [done|]. split; [done|]. left. done.
  - split; [done|]. split; [done|]. by right.
  - split; [done|]. split; [done|]. left. split_and!; try done. congruence.
Qed.

Lemma counter_ok_later s key t : counter_ok s key → kv_clock s ≤ t → counter_ok (at_time t s) key.
Proof.
  intros Hok Ht v e Hl. apply (Hok v e). unfold live_entry in *. cbn [at_time kv_data kv_clock] in *.
  destruct (kv_data s !! key) as [[v' e']|]; [|done]. destruct (Z.leb_spec e' t); [done|].
  destruct (Z.leb_spec e' (kv_clock s)); [lia|done].
Qed.

(** As time passes a counter stays until it expires. *)
Lemma counter_at_later s key t : kv_clock s ≤ t →
  counter_at (at_time t s) key = match counter_at s key with
                                 | Some (n, e) => if e <=? t then None else Some (n, e)
                                 | None => None
                                 end.
Proof.
  intros Ht. unfold counter_at, live_entry. cbn [at_time kv_data kv_clock].
  destruct (kv_data s !! key) as [[v e]|]; [|done].
  destruct (Z.leb_spec e t), (Z.leb_spec e (kv_clock s)); try lia; try done;
    destruct (int_of_bytes v); try done.
  - destruct (Z.leb_spec e t); [done|lia].
  - destruct (Z.leb_spec e t); [lia|done].
Qed.

(** One hit at time [t], then the others. *)
Lemma hits_at_cons subject limit t up arrivals s bs s' :
  counter_ok s (ratelimit_key subject) → kv_clock s ≤ t →
  hits_at subject limit ((t, up) :: arrivals) s = (Ok bs, s') →
  let key := ratelimit_key subject in
  let '(n, e) := bump_counter (counter_at (at_time t s) key) t (window_seconds * 1000) in
  ∃ b s1 bs1, bs = b :: bs1 ∧ hits_at subject limit arrivals s1 = (Ok bs1, s') ∧
    counter_ok s1 key ∧ kv_clock s1 = t ∧
    ((counter_at s1 key = Some (n, e) ∧ 0 < n ∧ t < e ∧ (up = true → b = (n <=? limit))) ∨
     (up = false ∧ counter_at s1 key = counter_at (at_time t s) key)).
Proof using KL Hwindow.
  intros Hok Ht H key. cbn [hits_at] in H.
  apply st_bind_ok in H as ([] & s0 & ->%modify_ok & H).
  apply st_bind_ok in H as ([] & s0 & ->%modify_ok & H).
  apply st_bind_ok in H as (r & s1 & Hh & H).
  pose proof (hit_any subject limit (at_time t (answering up s)) (counter_ok_later (answering up s) _ t Hok Ht)) as Hs.
  cbn zeta in Hs. fold key in Hs.
  change (counter_at (at_time t (answering up s)) key) with (counter_at (at_time t s) key) in Hs.
  cbn [at_time answering kv_clock kv_up] in Hs.
  destruct (bump_counter _ _ _) as [n e]. destruct Hs as (r' & s1' & Hs & Hok1 & Hclk & Hcase).
  rewrite Hs in Hh. injection Hh as <- <-.
  apply st_bind_ok in H as (rest & s2 & Hrest & [-> ->]%st_ret_ok). exists (rl_allowed r'), s1', rest. done.
Qed.

Lemma allowed_answered_cons a arrivals b bs :
  allowed_answered (a :: arrivals) (b :: bs) = (if a.2 && b then 1 else 0) + allowed_answered arrivals bs.
Proof. apply count_true_cons. Qed.

(** While the counter lives, what is left of its budget bounds the hits. *)
Lemma hits_in_window subject limit arrivals : ∀ s n e bs s',
  counter_ok s (ratelimit_key subject) → counter_at s (ratelimit_key subject) = Some (n, e) →
  StronglySorted Z.le (kv_clock s :: map fst arrivals) → (∀ t, t ∈ map fst arrivals → t < e) →
  hits_at subject limit arrivals s = (Ok bs, s') → allowed_answered arrivals bs ≤ Z.max 0 (limit - n).
Proof using KL Hwindow.
  induction arrivals as [|[t up] arrivals IH]; intros s n e bs s' Hok Hc Hs He H.
  { unfold allowed_answered, count_true, zlen. simpl. lia. }
  apply StronglySorted_inv in Hs as [Hs Hclk]. pose proof (Forall_inv Hclk) as Ht. cbn [fst] in Ht.
  pose proof (He t ltac:(by left)) as Hte.
  pose proof (hits_at_cons _ _ _ _ _ _ _ _ Hok Ht H) as Hcons. cbn zeta in Hcons.
  rewrite counter_at_later, Hc in Hcons by done. destruct (Z.leb_spec e t); [lia|]. cbn [bump_counter] in Hcons.
  destruct Hcons as (b & s1 & bs1 & -> & H1 & Hok1 & Hclk1 & Hcase). rewrite allowed_answered_cons. cbn [snd].
  pose proof (λ m Hm, IH s1 m e bs1 s' Hok1 Hm ltac:(by rewrite Hclk1) (λ t Ht, He t ltac:(by right)) H1) as IH1.
  destruct Hcase as [(Hc1 & _ & _ & Hb)|[-> Hc1]]; specialize (IH1 _ Hc1); [|cbn [andb]; lia].
  destruct up; [|cbn [andb]; lia]. rewrite Hb by done. cbn [andb]. destruct (Z.leb_spec (n + 1) limit); lia.
Qed.

(** From the first request counted in a fresh window, [limit] at most. *)
Lemma hits_fresh subject limit t0 arrivals : ∀ s bs s',
  counter_ok s (ratelimit_key subject) → counter_at s (ratelimit_key subject) = None → t0 ≤ kv_clock s →
  StronglySorted Z.le (kv_clock s :: map fst arrivals) →
  (∀ u, u ∈ map fst arrivals → u < t0 + window_seconds * 1000) →
  hits_at subject limit arrivals s = (Ok bs, s') → allowed_answered arrivals bs ≤ Z.max 0 limit.
Proof using KL Hwindow.
  induction arrivals as [|[t up] arrivals IH]; intros s bs s' Hok Hc H0 Hs He H.
  { unfold allowed_answered, count_true, zlen. simpl. lia. }
  apply StronglySorted_inv in Hs as [Hs Hclk]. pose proof (Forall_inv Hclk) as Ht. cbn [fst] in Ht.
  pose proof (hits_at_cons _ _ _ _ _ _ _ _ Hok Ht H) as Hcons. cbn zeta in Hcons.
  rewrite counter_at_later, Hc in Hcons by done. cbn [bump_counter] in Hcons.
  destruct Hcons as (b & s1 & bs1 & -> & H1 & Hok1 & Hclk1 & Hcase). rewrite allowed_answered_cons. cbn [snd].
  destruct Hcase as [(Hc1 & _ & _ & Hb)|[-> Hc1]].
  - assert (Hle : allowed_answered arrivals bs1 ≤ Z.max 0 (limit - 1)).
    { eapply hits_in_window; [exact Hok1|exact Hc1|by rewrite Hclk1| |exact H1].
      intros u Hu. specialize (He u ltac:(by right)). lia. }
    destruct up; [|cbn [andb]; lia]. rewrite Hb by done. cbn [andb]. destruct (Z.leb_spec 1 limit); lia.
  - cbn [andb]. rewrite Z.add_0_l. eapply (IH s1); [exact Hok1|exact Hc1|lia|by rewrite Hclk1| |exact H1].
    intros u Hu. apply He. by right.
Qed.

(** The first request finds no counter alive. *)
Lemma hits_from_expired subject limit a arrivals s bs s' :
  counter_ok s (ratelimit_key subject) → counter_at (at_time a.1 s) (ratelimit_key subject) = None →
  StronglySorted Z.le (kv_clock s :: map fst (a :: arrivals)) →
  (∀ u, u ∈ map fst arrivals → u < a.1 + window_seconds * 1000) →
  hits_at subject limit (a :: arrivals) s = (Ok bs, s') → allowed_answered (a :: arrivals) bs ≤ Z.max 0 limit.
Proof using KL Hwindow.
  destruct a as [t up]. cbn [fst map]. intros Hok Hc Hs He H.
  pose proof (StronglySorted_inv Hs) as [Hs1 Hclk]. pose proof (Forall_inv Hclk) as Ht. cbn [fst] in Ht.
  assert (Ha : hits_at subject limit ((t, up) :: arrivals) (at_time t s) = (Ok bs, s')) by exact H.
  eapply (hits_fresh subject limit t ((t, up) :: arrivals) (at_time t s)).
  - by apply counter_ok_later.
  - exact Hc.
  - cbn [at_time kv_clock]. lia.
  - cbn [at_time kv_clock map fst]. constructor; [exact Hs1|]. constructor; [lia|].
    by apply StronglySorted_inv in Hs1 as [_ Hs1].
  - intros u Hu. cbn [map fst] in Hu. apply elem_of_cons in Hu as [-> |Hu]; [lia|]. by apply He.
  - exact Ha.
Qed.

Lemma counter_at_positive s key n e : counter_ok s key → counter_at s key = Some (n, e) → 0 < n.
Proof.
  intros Hok Hc. unfold counter_at in Hc. destruct (live_entry s key) as [[v e']|] eqn:E; [|done].
  destruct (Hok v e' E) as (m & Hm & ->). rewrite int_of_str in Hc by lia. injection Hc as -> _. done.
Qed.

(** A counter about to expire leaves its own budget and one fresh window. *)
Lemma hits_bound subject limit arrivals : ∀ s n e bs s',
  counter_ok s (ratelimit_key subject) →
  counter_at s (ratelimit_key subject) = Some (n, e) → 0 ≤ limit →
  StronglySorted Z.le (kv_clock s :: map fst arrivals) →
  (∀ t, t ∈ map fst arrivals → t < e + window_seconds * 1000) →
  hits_at subject limit arrivals s = (Ok bs, s') → allowed_answered arrivals bs ≤ Z.max 0 (limit - n) + limit.
Proof using KL Hwindow.
  induction arrivals as [|[t up] arrivals IH]; intros s n e bs s' Hok Hc Hlim Hs He H.
  { unfold allowed_answered, count_true, zlen. simpl. lia. }
  pose proof (StronglySorted_inv Hs) as [Hs1 Hclk]. pose proof (Forall_inv Hclk) as Ht. cbn [fst] in Ht.
  pose proof (counter_at_later s (ratelimit_key subject) t Ht) as Hlater. rewrite Hc in Hlater.
  destruct (Z.leb_spec e t) as [Hte|Hte].
  - assert (allowed_answered ((t, up) :: arrivals) bs ≤ Z.max 0 limit); [|lia].
    apply (hits_from_expired subject limit (t, up) arrivals s bs s'); try done. cbn [fst].
    intros u Hin. specialize (He u ltac:(by right)). lia.
  - pose proof (hits_at_cons _ _ _ _ _ _ _ _ Hok Ht H) as Hcons. cbn zeta in Hcons.
    rewrite Hlater in Hcons. cbn [bump_counter] in Hcons.
    destruct Hcons as (b & s1 & bs1 & -> & H1 & Hok1 & Hclk1 & Hcase). rewrite allowed_answered_cons. cbn [snd].
    pose proof (λ m Hm, IH s1 m e bs1 s' Hok1 Hm Hlim ltac:(by rewrite Hclk1) (λ t Ht, He t ltac:(by right)) H1) as IH1.
    destruct Hcase as [(Hc1 & _ & _ & Hb)|[-> Hc1]]; specialize (IH1 _ Hc1); [|cbn [andb]; lia].
    destruct up; [|cbn [andb]; lia]. rewrite Hb by done. cbn [andb]. destruct (Z.leb_spec (n + 1) limit); lia.
Qed.

(** C17. The fixed window bounds every interval while the store answers: whatever the
    times of a subject's requests, and whichever of them the store answers, those
    requests in any interval shorter than the window (measured from the first of them)
    that the store answers are allowed at most [2 * limit] times, and at most [limit]
    times when no window is open at the start of the interval.  A request the store
    does not answer is outside the bound: the limiter fails open on it, and it may or
    may not have been counted. *)
Theorem rate_limit_bounds_any_interval subject limit t up arrivals s bs s' :
  counter_ok s (ratelimit_key subject) → 0 ≤ limit →
  StronglySorted Z.le (kv_clock s :: t :: map fst arrivals) →
  (∀ u, u ∈ map fst arrivals → u < t + window_seconds * 1000) →
  hits_at subject limit ((t, up) :: arrivals) s = (Ok bs, s') →
  allowed_answered ((t, up) :: arrivals) bs ≤ 2 * limit ∧
  (counter_at (at_time t s) (ratelimit_key subject) = None → allowed_answered ((t, up) :: arrivals) bs ≤ limit).
Proof using KL Hwindow.
  intros Hok Hlim Hs He H.
  assert (Hfresh : counter_at (at_time t s) (ratelimit_key subject) = None →
    allowed_answered ((t, up) :: arrivals) bs ≤ Z.max 0 limit).
  { intros Hc. by apply (hits_from_expired subject limit (t, up) arrivals s bs s'). }
  split; [|intros Hc; specialize (Hfresh Hc); lia].
  destruct (counter_at (at_time t s) _) as [[n e]|] eqn:Hc; [|specialize (Hfresh eq_refl); lia].
  pose proof (StronglySorted_inv Hs) as [Hs1 Hclk]. pose proof (Forall_inv Hclk) as Ht. cbn [fst] in Ht.
  rewrite counter_at_later in Hc by done. destruct (counter_at s _) as [[n0 e0]|] eqn:Hc0; [|done].
  destruct (Z.leb_spec e0 t); [done|]. injection Hc as -> ->.
  assert (Hn : 0 < n) by exact (counter_at_positive _ _ _ _ Hok Hc0).
  assert (Hb : allowed_answered ((t, up) :: arrivals) bs ≤ Z.max 0 (limit - n) + limit); [|lia].
  eapply hits_bound; [exact Hok|exact Hc0|exact Hlim|exact Hs| |exact H].
  intros u Hu. cbn [map fst] in Hu. apply elem_of_cons in Hu as [-> |Hu]; [lia|]. specialize (He u Hu). lia.
Qed.

Lemma ceil_seconds_spec x : x ≤ ceil_seconds x * 1000.
Proof. unfold ceil_seconds. pose proof (Z.mul_div_le (- x) 1000 ltac:(lia)). lia. Qed.

(** A refused caller that waits [retry_after_seconds] finds its window over,
    and [remaining] is what the limit leaves after this request. *)
Theorem rate_limit_retry_after subject limit s r s' :
  kv_up s = true → counter_ok s (ratelimit_key subject) →
  hit subject limit s = (Ok r, s') → rl_allowed r = false →
  rl_remaining r = 0 ∧ 1 ≤ rl_retry_after_seconds r ∧
  counter_at (at_time (kv_clock s + rl_retry_after_seconds r * 1000) s') (ratelimit_key subject) = None.
Proof using KL Hwindow.
  intros Hu Hok H Hr. pose proof (hit_spec subject limit s Hu Hok) as Hs.
  destruct (bump_counter _ _ _) as [n e]. destruct Hs as (s1 & Hs & _ & Hc & _ & _ & Hclk & _).
  rewrite Hs in H. injection H as <- <-. cbn in *. rewrite Hr.
  pose proof (ceil_seconds_spec (Z.max 0 (e - kv_clock s))).
  apply Z.leb_gt in Hr. split_and!; [lia|lia|].
  rewrite counter_at_later by lia. rewrite Hc. destruct (Z.leb_spec e (kv_clock s + Z.max 1 (ceil_seconds (Z.max 0 (e - kv_clock s))) * 1000)); [done|lia].
Qed.

End rate_limit.

(** * OAuth states *)

(** [json.dumps(v, sort_keys=True)] *)
Definition sorted_options : dump_options :=
  {| dump_escape := escape_char_ascii; dump_allow_nan := true;
     dump_item_sep := [44; 32]; dump_key_sep := [58; 32]; dump_sort_keys := true |}.

Section oauth_state.
Context `{KS : KeyValueStore} `{FR : !FloatRepr} `{SH : !Sha256} `{JL : !JsonLoads}.
Context (ttl_seconds : Z).

Definition oauth_key (state : pystr) : result pystr :=
  b ← encode_utf8 state; Ok (py "cl:oauth:state:" ++ sha256_hex b).

(** [state] is [secrets.token_urlsafe(STATE_BYTES)]. *)
Definition issue (state : pystr) (payload : json) : KV pystr :=
  key ← lift (oauth_key state);
  text ← lift (dumps sorted_options payload);
  encoded ← lift (encode_utf8 text);
  _ ← store_set key encoded (ttl_seconds * 1000) false;
  mret state.

Definition consume (state : pystr) : KV (option json) :=
  if bool_decide (state = []) || (512 <? zlen state) then mret None else
  key ← lift (oauth_key state);
  raw ← store_get_and_delete key;
  match raw with
  | None => mret None
  | Some raw => payload ← lift (json_loads raw); mret (Some payload)
  end.

(** What may happen to the store without the state being issued again. *)
Inductive unissued_step (key : pystr) (s : kv) : kv → Prop :=
  | step_time t : kv_clock s ≤ t → unissued_step key s (at_time t s)
  | step_read k : unissued_step key s (store_get k s).2
  | step_consume k : unissued_step key s (store_get_and_delete k s).2
  | step_delete k : unissued_step key s (store_delete k s).2
  | step_set k v ttl nx : k ≠ key → 1 ≤ ttl → unissued_step key s (store_set k v ttl nx s).2
  | step_increment k ttl : k ≠ key → 1 ≤ ttl → unissued_step key s (store_increment k ttl s).2.

Context `{KL : !KeyValueStoreLaws}.

Lemma live_none_later s key t : kv_clock s ≤ t → live_entry s key = None → live_entry (at_time t s) key = None.
Proof.
  unfold live_entry. cbn [at_time kv_data kv_clock]. destruct (kv_data s !! key) as [[v e]|]; [|done].
  destruct (Z.leb_spec e (kv_clock s)), (Z.leb_spec e t); try done; lia.
Qed.

Lemma live_delete_none s k key : live_entry s key = None → live_entry (with_data (delete k) s) key = None.
Proof.
  intros H. destruct (decide (key = k)) as [->|Hk]; [apply live_entry_delete|].
  rewrite (live_entry_other s k key) by (done || intros m; by rewrite lookup_delete_ne). done.
Qed.

Lemma live_insert_none s k key ve :
  k ≠ key → live_entry s key = None → live_entry (with_data (insert k ve) s) key = None.
Proof.
  intros Hk H. rewrite (live_entry_other s k key) by (congruence || intros m; by rewrite lookup_insert_ne).
  done.
Qed.

(** No command on another key makes an absent entry appear. *)
Lemma memory_keeps_absent {A} (m memory : KV A) s key :
  as_memory m memory → live_entry s key = None →
  live_entry (memory s).2 key = None → live_entry (m s).2 key = None.
Proof. intros H Hs Hm. destruct (as_memory_failed _ _ s H) as [E|(s1 & _ & E & [-> | ->])]; by rewrite E. Qed.

Lemma live_state_none s k key : live_entry s key = None → live_entry (MemoryStore.live k s).2 key = None.
Proof. intros H. rewrite live_spec. cbn [snd]. destruct (live_entry s k); [done|by apply live_delete_none]. Qed.

Lemma set_absent s k v ttl nx key :
  k ≠ key → live_entry s key = None → live_entry (MemoryStore.set k v ttl nx s).2 key = None.
Proof.
  intros Hk H. destruct nx; [|rewrite set_spec; by apply live_insert_none].
  rewrite set_absent_spec. destruct (live_entry s k); [done|]. by apply live_insert_none.
Qed.

Lemma increment_absent s k ttl key :
  k ≠ key → live_entry s key = None → live_entry (MemoryStore.increment k ttl s).2 key = None.
Proof.
  intros Hk H. unfold MemoryStore.increment, mbind, st_bind. rewrite live_spec.
  destruct (live_entry s k) as [[v e]|]; unfold gets, lift, mret, st_ret.
  - destruct (int_of_bytes v); [|done]. by apply live_insert_none.
  - apply live_insert_none; [done|]. by apply live_delete_none.
Qed.

Lemma unissued_step_absent key s s' :
  unissued_step key s s' → live_entry s key = None → live_entry s' key = None.
Proof using KL.
  intros [t Ht|k|k|k|k v ttl nx Hk Ht|k ttl Hk Ht] H; [by apply live_none_later|..].
  - eapply memory_keeps_absent; [apply get_law|done|].
    destruct (get_spec k s) as (s1 & -> & Hl & _). cbn. by rewrite Hl.
  - eapply memory_keeps_absent; [apply get_and_delete_law|done|].
    rewrite get_and_delete_spec. by apply live_delete_none.
  - eapply memory_keeps_absent; [apply delete_law|done|]. by apply live_delete_none.
  - eapply memory_keeps_absent; [by apply set_law|done|]. by apply set_absent.
  - eapply memory_keeps_absent; [by apply increment_law|done|]. by apply increment_absent.
Qed.

Lemma consume_some state s p s' :
  consume state s = (Ok (Some p), s') →
  ∃ key v e, oauth_key state = Ok key ∧ live_entry s key = Some (v, e) ∧ json_loads v = Ok p ∧
    live_entry s' key = None.
Proof using KL.
  unfold consume. destruct (_ || _); [by intros [? _]%st_ret_ok|]. intros H.
  apply st_bind_ok in H as (key & ? & [Hk ->]%lift_ok & H).
  apply st_bind_ok in H as (raw & s1 & Hg & H).
  destruct (as_memory_failed _ _ s (get_and_delete_law key)) as [E|(? & _ & E & _)]; rewrite E in Hg; [|done].
  rewrite get_and_delete_spec in Hg. injection Hg as <- <-.
  destruct (live_entry s key) as [[v e]|] eqn:El; [|by apply st_ret_ok in H as [? _]].
  cbn [option_map fst] in H.
  apply st_bind_ok in H as (p' & ? & [Hp ->]%lift_ok & [[= ->] ->]%st_ret_ok).
  exists key, v, e. split_and!; try done. apply live_entry_delete.
Qed.

(** A state is accepted at most once: after a successful [consume], whatever
    other keys are used and however much time passes, it is refused until it is
    issued again. *)
Theorem oauth_state_single_use state key s p s1 s2 q s3 :
  oauth_key state = Ok key → consume state s = (Ok (Some p), s1) →
  rtc (unissued_step key) s1 s2 → consume state s2 = (Ok q, s3) → q = None.
Proof using KL.
  intros Hk H1 Hsteps H2. apply consume_some in H1 as (key' & _ & _ & Hk' & _ & _ & Hnone).
  assert (key' = key) as -> by congruence.
  assert (Hs2 : live_entry s2 key = None).
  { clear H2. induction Hsteps as [|a b c Hab _ IH]; [done|]. apply IH. by eapply unissued_step_absent. }
  destruct q as [q|]; [|done].
  apply consume_some in H2 as (k & v & e & Hk2 & Hl & _). congruence.
Qed.

(** Until it expires, a state issued on a store that answers gives back what
    was stored for it. *)
Theorem oauth_issue_consume state payload s st s1 t :
  1 ≤ ttl_seconds → kv_up s = true → bool_decide (state = []) || (512 <? zlen state) = false →
  issue state payload s = (Ok st, s1) → kv_clock s ≤ t < kv_clock s + ttl_seconds * 1000 →
  ∃ text encoded, dumps sorted_options payload = Ok text ∧ encode_utf8 text = Ok encoded ∧
    st = state ∧
    (consume state (at_time t s1)).1 = (p ← json_loads encoded; Ok (Some p)).
Proof using KL.
  intros Httl Hu Hlen H Ht. unfold issue in H.
  apply st_bind_ok in H as (key & ? & [Hk ->]%lift_ok & H).
  apply st_bind_ok in H as (text & ? & [Hd ->]%lift_ok & H).
  apply st_bind_ok in H as (enc & ? & [He ->]%lift_ok & H).
  apply st_bind_ok in H as (b & s2 & Hset & [-> ->]%st_ret_ok).
  rewrite (as_memory_up _ _ s (set_law key enc (ttl_seconds * 1000) false ltac:(lia)) Hu) in Hset.
  rewrite set_spec in Hset. injection Hset as <- <-.
  exists text, enc. split_and!; try done.
  unfold consume. rewrite Hlen. unfold mbind at 1, st_bind at 1, lift. rewrite Hk. cbn [fst].
  unfold mbind at 1, st_bind at 1.
  rewrite (as_memory_up _ _ _ (get_and_delete_law key)) by done.
  rewrite get_and_delete_spec.
  assert (El : live_entry (at_time t (with_data (insert key (enc, kv_clock s + ttl_seconds * 1000)) s)) key
               = Some (enc, kv_clock s + ttl_seconds * 1000)).
  { unfold live_entry. cbn. rewrite lookup_insert_eq.
    destruct (Z.leb_spec (kv_clock s + ttl_seconds * 1000) t); [lia|done]. }
  rewrite El. cbn [option_map fst]. unfold mbind, st_bind, result_bind, lift.
  by destruct (json_loads enc).
Qed.

End oauth_state.
