(* ===== verification/Authentication.v ===== *)
(** Who a request acts for: app/api/dependencies.py (principal, tenant context, rate
    limit) and the mapping of errors to answers of app/api/errors.py. *)

From S2P Require Import Prelude PyStr Json Canonical Regex Validation Access Temporal Database Schema.
From S2P Require Import Calendar Parsing Accounts Secrets Tokens AgentClients Store.

(** The headers that identify the caller; [request.headers.get] of each. *)
Record Request := { rq_authorization : option pystr; rq_user_id : option pystr }.

(** [auth_mode == "development-headers"] and the limit per minute. *)
Record Settings := { st_development_headers : bool; st_requests_per_minute : Z }.

Record Principal := {
  pr_user_id : UUID;
  pr_organization_id : option UUID;
  pr_scopes : option (list Permission);
  pr_max_privacy_scope : option PrivacyScope;
  pr_agent_client_id : option UUID;
}.

(** [text.partition(sep)] for one character; without it, the rest is empty. *)
Fixpoint partition_on (sep : Z) (s : pystr) : pystr * pystr :=
  match s with
  | [] => ([], [])
  | c :: s' => if c =? sep then ([], s') else let '(a, b) := partition_on sep s' in (c :: a, b)
  end.

(** A header counts as sent when it is not empty. *)
Definition sent (header : option pystr) : option pystr :=
  match header with Some [] => None | h => h end.

Section authentication.
Context `{UD : !UnicodeData} `{JW : !Jwt}.

(** The token of an Authorization header with the bearer scheme. *)
Definition bearer_token (authorization : pystr) : option pystr :=
  let '(scheme, token) := partition_on 32 authorization in
  if negb (bool_decide (lower scheme = py "bearer")) || bool_decide (token = []) then None
  else Some (strip token).

Definition principal_of (claims : TokenClaims) : Principal :=
  {| pr_user_id := tc_user_id claims; pr_organization_id := tc_organization_id claims;
     pr_scopes := tc_scopes claims; pr_max_privacy_scope := tc_max_privacy_scope claims;
     pr_agent_client_id := tc_agent_client_id claims |}.

Definition authenticate (tokens : TokenService) (settings : Settings) (now : Instant)
    (request : Request) : result Principal :=
  match sent (rq_authorization request) with
  | Some authorization =>
    match bearer_token authorization with
    | None => Err (AuthenticationRequiredError "use 'Authorization: Bearer <access token>'")
    | Some token =>
      match verify tokens now token with
      | Ok claims => Ok (principal_of claims)
      | Err (InvalidTokenError _) => Err (AuthenticationRequiredError "invalid or expired access token")
      | Err e => Err e
      end
    end
  | None =>
    if negb (st_development_headers settings)
    then Err (AuthenticationRequiredError "send 'Authorization: Bearer <access token>'") else
    match sent (rq_user_id request) with
    | None => Err (AuthenticationRequiredError "send a Bearer token or the user id header")
    | Some raw =>
      match uuid_of_text raw with
      | Ok u => Ok {| pr_user_id := u; pr_organization_id := None; pr_scopes := None;
                      pr_max_privacy_scope := None; pr_agent_client_id := None |}
      | Err ValueError => Err (AuthenticationRequiredError "the user id header must be a UUID")
      | Err e => Err e
      end
    end
  end.

(** The subject whose requests are counted. *)
Definition rate_subject (principal : Principal) : pystr :=
  match pr_agent_client_id principal with
  | Some a => py "agent:" ++ uuid_str a
  | None => py "user:" ++ uuid_str (pr_user_id principal)
  end.

Section limits.
Context `{KS : KeyValueStore} (window_seconds : Z).

Definition enforce_rate_limit (subject : pystr) (limit : Z) : KV unit :=
  if limit <=? 0 then mret () else
  decision ← hit window_seconds subject limit;
  guard_ (rl_allowed decision) (RateLimitedError limit (rl_retry_after_seconds decision)).

Definition get_principal (tokens : TokenService) (settings : Settings) (now : Instant)
    (request : Request) : KV Principal :=
  principal ← lift (authenticate tokens settings now request);
  _ ← enforce_rate_limit (rate_subject principal) (st_requests_per_minute settings);
  mret principal.

End limits.

(** Two transactions for an agent; [others] is what commits between them. *)
Definition get_tenant (others : db → db) (organization_id : UUID) (principal : Principal) :
    DB TenantContext :=
  _ ← guard_ (match pr_organization_id principal with
              | Some o => o =? organization_id
              | None => true
              end) NOT_A_MEMBER;
  _ ← match pr_agent_client_id principal with
      | Some a => active ← is_active a; guard_ active NOT_A_MEMBER
      | None => mret ()
      end;
  _ ← modify others;
  ctx ← resolve_tenant organization_id (pr_user_id principal);
  _ ← guard_ (negb (bool_decide (pr_agent_client_id principal ≠ None) && bool_decide (ctx_role ctx = ADMIN)))
        (PermissionDeniedError "agents may not act with the ADMIN role");
  mret {| ctx_organization_id := ctx_organization_id ctx; ctx_user_id := ctx_user_id ctx;
          ctx_role := ctx_role ctx; ctx_scopes := pr_scopes principal;
          ctx_max_privacy_scope := pr_max_privacy_scope principal;
          ctx_agent_client_id := pr_agent_client_id principal |}.

End authentication.

(** * api/errors.py *)

(** [STATUS_BY_ERROR] and [status_for]: the class of a domain error decides. *)
Definition status_for (e : exn) : Z :=
  match e with
  | ValidationFailedError _ => 422
  | NotFoundError _ => 404
  | ConflictError _ | InvariantViolationError _ => 409
  | PermissionDeniedError _ => 403
  | _ => 400
  end.

Definition error_code (e : exn) : string :=
  match e with
  | ValidationFailedError _ => "validation_failed"
  | NotFoundError _ => "not_found"
  | ConflictError _ => "conflict"
  | PermissionDeniedError _ => "permission_denied"
  | InvariantViolationError _ => "invariant_violation"
  | _ => "domain_error"
  end.

Record problem := { pb_status : Z; pb_code : string; pb_headers : list (string * pystr) }.

(** What the installed handlers answer; None where none is installed, which the
    correlation middleware turns into a 500. *)
Definition handle_error (e : exn) : option problem :=
  match e with
  | AuthenticationRequiredError _ =>
      Some {| pb_status := 401; pb_code := "authentication_required";
              pb_headers := [("WWW-Authenticate", py "Bearer")%string] |}
  | RateLimitedError limit retry =>
      Some {| pb_status := 429; pb_code := "rate_limited";
              pb_headers := [("Retry-After", str_of_int retry); ("RateLimit-Limit", str_of_int limit);
                             ("RateLimit-Remaining", py "0")]%string |}
  | ServiceUnavailableError _ =>
      Some {| pb_status := 503; pb_code := "service_unavailable"; pb_headers := [] |}
  | AnswerGenerationError _ _ | InvestigationError _ =>
      Some {| pb_status := 503; pb_code := "generation_unavailable";
              pb_headers := [("Retry-After", py "5")%string] |}
  | e => if is_domain_error e
         then Some {| pb_status := status_for e; pb_code := error_code e; pb_headers := [] |}
         else None
  end.
