(* ===== verification/Idempotency.v ===== *)
(** Idempotent retries: app/cache/idempotency.py, an ASGI middleware over the shared
    store, and the body limit in front of it (app/core/security.py).  The endpoint
    behind them is an argument: what it sends, and whether it raises. *)

From stdpp Require Import gmap.
From S2P Require Import Prelude PyStr Json Canonical Regex Validation Access Temporal Database Schema.
From S2P Require Import Calendar Encoding Parsing JsonParse Base64 EvidenceService Tokens Store.
From S2P Require Import Authentication.

(** * Requests and responses *)

(** What [receive] yields. *)
Inductive received := BodyPart (body : bytes) (more_body : bool) | Disconnect.

(** What is passed to [send]. *)
Inductive sent_message :=
  | ResponseStart (status : Z) (headers : list (bytes * bytes))
  | ResponseBody (body : bytes)
  | OtherMessage.

Record HttpRequest := {
  hr_is_http : bool;                    (* scope["type"] == "http" *)
  hr_method : pystr;
  hr_path : pystr;
  hr_query_string : bytes;
  hr_idempotency_key : option pystr;
  hr_content_length : list bytes;       (* every content-length header *)
  hr_authorization : option pystr;
  hr_user_id : option pystr;
}.

(** Limits, and what is kept or left alone. *)
Definition MAX_STORED_BODY : Z := 1024 * 1024.
Definition REPLAYED_RESPONSE_HEADERS : list pystr := [py "content-type"; py "location"; py "etag"].
Definition EXCLUDED_PATHS : list pystr := [py "/oauth/token"; py "/auth/dev-token"].

Definition endswith (p s : pystr) : bool := startswith (reverse p) (reverse s).

(** [KEY_PATTERN.fullmatch] *)
Definition key_ok (raw : pystr) : bool :=
  (1 <=? zlen raw) && (zlen raw <=? 255) && forallb (in_range 33 126) raw.

(** [_read_body]: up to the first part without more, or a disconnect. *)
Fixpoint read_body (messages : list received) : bytes :=
  match messages with
  | BodyPart b true :: rest => b ++ read_body rest
  | BodyPart b false :: _ => b
  | _ => []
  end.

(** How a request is dealt with before the endpoint. *)
Inductive admission :=
  | Pass                                                   (* without protection *)
  | Refuse (p : problem)
  | Replay (status : Z) (headers : list (bytes * bytes)) (body : bytes)
  | Reserved (store_key fingerprint : pystr) (body : bytes).

Definition problem_of (status : Z) (code : string) (headers : list (string * pystr)) : problem :=
  {| pb_status := status; pb_code := code; pb_headers := headers |}.
Definition KEY_INVALID : problem := problem_of 400 "idempotency_key_invalid" [].
Definition STORE_UNAVAILABLE : problem := problem_of 503 "service_unavailable" [].
Definition KEY_REUSED : problem := problem_of 422 "idempotency_key_reused" [].
Definition KEY_IN_USE : problem := problem_of 409 "idempotency_key_in_use" [("Retry-After"%string, py "1")].

Section middleware.
Context `{UD : !UnicodeData} `{JW : !Jwt} `{SH : !Sha256} `{FP : !FloatRepr} `{FR : !FloatRead}.
Context `{KS : KeyValueStore}.
Context (tokens : TokenService) (allow_header_auth : bool) (ttl_seconds lock_seconds : Z).

(** [_subject]: the caller whose keys are meant. *)
Definition subject (now : Instant) (request : HttpRequest) : result (option pystr) :=
  match sent (hr_authorization request) with
  | Some authorization =>
    match bearer_token authorization with
    | None => Ok None
    | Some token =>
      match verify tokens now token with
      | Ok claims => Ok (Some match tc_agent_client_id claims with
                              | Some a => py "agent:" ++ uuid_str a
                              | None => py "user:" ++ uuid_str (tc_user_id claims)
                              end)
      | Err (InvalidTokenError _) => Ok None
      | Err e => Err e
      end
    end
  | None =>
    match (if allow_header_auth then sent (hr_user_id request) else None) with
    | Some raw => match uuid_of_text raw with
                  | Ok u => Ok (Some (py "user:" ++ uuid_str u))
                  | Err ValueError => Ok None
                  | Err e => Err e
                  end
    | None => Ok None
    end
  end.

Definition fingerprint_of (request : HttpRequest) (body : bytes) : result pystr :=
  method ← encode_utf8 (hr_method request);
  path ← encode_utf8 (hr_path request);
  Ok (sha256_hex (join [0] [method; path; hr_query_string request; body])).

Definition store_key_of (subject raw_key : pystr) : result pystr :=
  b ← encode_utf8 (subject ++ [0] ++ raw_key); Ok (py "cl:idempotency:" ++ sha256_hex b).

Definition json_bytes (j : json) : result bytes :=
  text ← dumps default_options j; encode_utf8 text.

Definition pending_record (fingerprint : pystr) : json :=
  JObj [(py "state", JStr (py "pending")); (py "fingerprint", JStr fingerprint)].

Definition header_json (h : pystr * pystr) : json := JList [JStr h.1; JStr h.2].

Definition done_record (fingerprint : pystr) (status : Z) (headers : list (pystr * pystr)) (body : bytes) :
    json :=
  JObj [(py "state", JStr (py "done")); (py "fingerprint", JStr fingerprint); (py "status", JInt status);
        (py "headers", JList (map header_json headers)); (py "body", JStr (b64encode body))].

(** The stored headers and body, encoded again. *)
Definition stored_header (j : json) : result (bytes * bytes) :=
  match j with
  | JList [JStr k; JStr v] => k ← encode_utf8 k; v ← encode_utf8 v; Ok (k, v)
  | _ => Err (LibraryError "AttributeError")
  end.

Definition REPLAYED : bytes * bytes := (py "idempotent-replayed", py "true").

Definition replay (fields : list (pystr * json)) : result admission :=
  match assoc (py "headers") fields, assoc (py "status") fields, assoc (py "body") fields with
  | Some (JList hs), Some (JInt status), Some (JStr body) =>
    headers ← mapR stored_header hs;
    body ← b64decode body;
    Ok (Replay status (headers ++ [REPLAYED]) body)
  | Some (JList _), Some _, Some _ | Some _, _, _ => Err TypeError
  | None, _, _ => Err KeyError
  end.

(** [_answer_existing]: the record is an object that this module wrote. *)
Definition answer_existing (existing : option bytes) (fingerprint : pystr) : result admission :=
  record ← match existing with
           | None => Ok (JObj [])
           | Some b => loads_bytes b
           end;
  match record with
  | JObj fields =>
    reused ← match fields with
             | [] => Ok false
             | _ => match assoc (py "fingerprint") fields with
                    | Some f => Ok (negb (py_eqb f (JStr fingerprint)))
                    | None => Err KeyError
                    end
             end;
    if reused : bool then Ok (Refuse KEY_REUSED) else
    match assoc (py "state") fields with
    | Some state => if py_eqb state (JStr (py "done")) then replay fields else Ok (Refuse KEY_IN_USE)
    | None => Ok (Refuse KEY_IN_USE)
    end
  | _ => Err TypeError
  end.

(** [__call__] up to the endpoint. *)
Definition reserve (store_key fingerprint : pystr) (body : bytes) : KV admission :=
  pending ← lift (json_bytes (pending_record fingerprint));
  unless_available (
    reserved ← store_set store_key pending (lock_seconds * 1000) true;
    if reserved : bool then mret (Reserved store_key fingerprint body) else
    existing ← store_get store_key;
    lift (answer_existing existing fingerprint))
  (mret (Refuse STORE_UNAVAILABLE)).

Definition admission_of (now : Instant) (request : HttpRequest) (messages : list received) : KV admission :=
  if negb (hr_is_http request) || negb (bool_decide (hr_method request = py "POST")) then mret Pass else
  match hr_idempotency_key request with
  | None => mret Pass
  | Some raw_key =>
    if existsb (λ p, endswith p (hr_path request)) EXCLUDED_PATHS then mret Pass else
    if negb (key_ok raw_key) then mret (Refuse KEY_INVALID) else
    caller ← lift (subject now request);
    match caller with
    | None => mret Pass
    | Some subject =>
      let body := read_body messages in
      fingerprint ← lift (fingerprint_of request body);
      store_key ← lift (store_key_of subject raw_key);
      reserve store_key fingerprint body
    end
  end.

(** * The endpoint's response *)

(** What the endpoint sent, and the exception it raised, if any. *)
Record outcome := { oc_messages : list sent_message; oc_raised : option exn }.

Record captured := {
  cp_status : Z; cp_headers : list (pystr * pystr); cp_chunks : list bytes; cp_size : Z }.

Definition no_capture : captured := {| cp_status := 500; cp_headers := []; cp_chunks := []; cp_size := 0 |}.

(** [bytes.decode()], strict: no lone surrogates either. *)
Definition decode_strict (b : bytes) : result pystr :=
  match decode_utf8 (length b) b with
  | Some s => if forallb text_char s then Ok s else Err (LibraryError "UnicodeDecodeError")
  | None => Err (LibraryError "UnicodeDecodeError")
  end.

Definition kept_header (h : bytes * bytes) : result (option (pystr * pystr)) :=
  name ← decode_strict h.1;
  if bool_decide (lower name ∈ REPLAYED_RESPONSE_HEADERS)
  then value ← decode_strict h.2; Ok (Some (lower name, value)) else Ok None.

(** [capture]: a failure to decode a header is raised into the endpoint. *)
Definition capture_message (c : captured) (m : sent_message) : result captured :=
  match m with
  | ResponseStart status headers =>
    kept ← mapR kept_header headers;
    Ok {| cp_status := status; cp_headers := cp_headers c ++ omap id kept;
          cp_chunks := cp_chunks c; cp_size := cp_size c |}
  | ResponseBody body =>
    let size := cp_size c + zlen body in
    Ok {| cp_status := cp_status c; cp_headers := cp_headers c;
          cp_chunks := if size <=? MAX_STORED_BODY then cp_chunks c ++ [body] else cp_chunks c;
          cp_size := size |}
  | OtherMessage => Ok c
  end.

Fixpoint capture (c : captured) (messages : list sent_message) : result captured :=
  match messages with
  | [] => Ok c
  | m :: rest => c' ← capture_message c m; capture c' rest
  end.

(** [_release]: a store that is down leaves the reservation to expire. *)
Definition release (store_key : pystr) : KV unit :=
  unless_available (store_delete store_key) (mret ()).

(** [_execute] after the endpoint has run. *)
Definition finish (store_key fingerprint : pystr) (o : outcome) : KV unit :=
  match capture no_capture (oc_messages o), oc_raised o with
  | Err e, _ => _ ← release store_key; raise e
  | Ok _, Some e => _ ← release store_key; raise e
  | Ok c, None =>
    if negb ((200 <=? cp_status c) && (cp_status c <? 300)) || (MAX_STORED_BODY <? cp_size c)
    then release store_key
    else
      record ← lift (json_bytes (done_record fingerprint (cp_status c) (cp_headers c) (concat (cp_chunks c))));
      unless_available (_ ← store_set store_key record (ttl_seconds * 1000) false; mret ()) (mret ())
  end.

(** The messages that were sent before [capture] raised. *)
Fixpoint sent_before (c : captured) (messages : list sent_message) : list sent_message :=
  match messages with
  | [] => []
  | m :: rest => match capture_message c m with Ok c' => m :: sent_before c' rest | Err _ => [] end
  end.

(** How many messages [_read_body] receives, and how many [__call__] does. *)
Fixpoint body_reads (messages : list received) : nat :=
  match messages with BodyPart _ true :: rest => S (body_reads rest) | _ => 1 end.

Definition reads_of (now : Instant) (request : HttpRequest) (messages : list received) : nat :=
  if negb (hr_is_http request) || negb (bool_decide (hr_method request = py "POST")) then O else
  match hr_idempotency_key request with
  | None => O
  | Some raw_key =>
    if existsb (λ p, endswith p (hr_path request)) EXCLUDED_PATHS || negb (key_ok raw_key) then O else
    match subject now request with Ok (Some _) => body_reads messages | _ => O end
  end.

(** [_execute]: the endpoint gets the body back in one message. *)
Definition execute (app : list received → nat * outcome) (store_key fingerprint : pystr) (body : bytes) :
    KV outcome := λ s,
  let o := (app [BodyPart body false]).2 in
  let '(r, s') := finish store_key fingerprint o s in
  (Ok {| oc_messages := sent_before no_capture (oc_messages o);
         oc_raised := match r with Ok _ => None | Err e => Some e end |}, s').

(** The whole middleware: how many messages were received, how the request was dealt with,
    and what the endpoint did, if it ran; an exception is a value, for the caller's
    [except]. *)
Definition call (now : Instant) (app : list received → nat * outcome) (request : HttpRequest)
    (messages : list received) : KV (nat * result (admission * outcome)) := λ s,
  let reads := reads_of now request messages in
  match admission_of now request messages s with
  | (Ok (Reserved store_key fingerprint body as a), s1) =>
    let '(r, s2) := execute app store_key fingerprint body s1 in
    (Ok (reads, o ← r; Ok (a, o)), s2)
  | (Ok Pass, s1) => let '(n, o) := app messages in (Ok (n, Ok (Pass, o)), s1)
  | (Ok a, s1) => (Ok (reads, Ok (a, {| oc_messages := []; oc_raised := None |})), s1)
  | (Err e, s1) => (Ok (reads, Err e), s1)
  end.

End middleware.

(** * The body limit *)

(** [int(value)] of a header's bytes: the space characters are the ASCII ones of C. *)
Definition int_of_header (value : bytes) : result Z :=
  if existsb (λ c, is_space c && negb (in_range 9 13 c || (c =? 32))) value then Err ValueError
  else int_of_text 10 value.

(** The status a declared length is refused with. *)
Fixpoint declared_refused (max_bytes : Z) (content_lengths : list bytes) : option Z :=
  match content_lengths with
  | [] => None
  | value :: rest =>
    match int_of_header value with
    | Err _ => Some 400
    | Ok declared => if max_bytes <? declared then Some 413 else declared_refused max_bytes rest
    end
  end.

(** [limited_receive]: what the application receives; then only disconnects. *)
Fixpoint limited (max_bytes seen : Z) (messages : list received) : list received :=
  match messages with
  | [] => []
  | BodyPart body more :: rest =>
    let seen := seen + zlen body in
    if max_bytes <? seen then [Disconnect] else BodyPart body more :: limited max_bytes seen rest
  | Disconnect :: rest => Disconnect :: limited max_bytes seen rest
  end.

(** [too_large] after the application has received [n] messages. *)
Fixpoint too_large (max_bytes seen : Z) (n : nat) (messages : list received) : bool :=
  match n, messages with
  | S n, BodyPart body _ :: rest =>
    let seen := seen + zlen body in (max_bytes <? seen) || too_large max_bytes seen n rest
  | S n, Disconnect :: rest => too_large max_bytes seen n rest
  | _, _ => false
  end.

Inductive guarded (A : Type) := Rejected (status : Z) | Through (answer : A).
Arguments Rejected {A} status.
Arguments Through {A} answer.

(** [BodySizeLimitMiddleware] around an application that answers after its reads: the
    answer, or its exception, is replaced when the body turned out to be too large. *)
Definition body_limit {A} (max_bytes : Z) (request : HttpRequest) (messages : list received)
    (app : list received → KV (nat * result A)) : KV (guarded A) :=
  if negb (hr_is_http request) || (max_bytes <=? 0)
  then r ← app messages; a ← lift r.2; mret (Through a)
  else match declared_refused max_bytes (hr_content_length request) with
       | Some status => mret (Rejected status)
       | None =>
         r ← app (limited max_bytes 0 messages);
         if too_large max_bytes 0 r.1 messages then mret (Rejected 413)
         else a ← lift r.2; mret (Through a)
       end.
