(* ===== verification/Retries.v ===== *)
(** What an idempotency key guarantees: while a request with the key runs, no other is
    executed, and once it has succeeded, a retry gets the stored response and a different
    request under the key is refused. *)

From stdpp Require Import gmap.
From S2P Require Import Prelude PyStr Json Canonical Regex Validation Access Temporal Database Schema.
From S2P Require Import Calendar Encoding Parsing JsonParse Base64 EvidenceService Tokens Store.
From S2P Require Import Authentication Idempotency.

(** * Records *)

Section records.
Context `{UD : !UnicodeData} `{SH : !Sha256} {SL : Sha256Laws} `{FP : !FloatRepr} `{FR : !FloatRead}.

Lemma default_readable : readable_options default_options [32] [32].
Proof. by split; try (left; done). Qed.

Lemma json_bytes_loads j : plain j → ∃ b, json_bytes j = Ok b ∧ loads_bytes b = Ok j.
Proof.
  intros Hj. destruct (dumps_bytes default_options [32] [32] default_readable j eq_refl Hj) as (t & Ht & Hb).
  exists t. unfold json_bytes. rewrite Ht. split; [exact Hb|].
  exact (loads_bytes_dumps default_options [32] [32] default_readable j t t Hj Ht Hb).
Qed.

Lemma ascii_text s : forallb is_ascii s = true → forallb text_char s = true.
Proof.
  rewrite !forallb_forall. intros H c Hc. apply H in Hc. unfold is_ascii in Hc. rewrite andb_true_iff, !Z.leb_le in Hc.
  unfold text_char, valid_char, in_range. rewrite andb_true_iff, andb_true_iff, negb_true_iff, andb_false_iff, !Z.leb_le, Z.leb_gt. lia.
Qed.

Lemma sha_text b : forallb text_char (sha256_hex b) = true.
Proof.
  apply ascii_text. pose proof (sha256_format b) as H. unfold sha_hex_ok in H. apply andb_true_iff in H as [_ H].
  rewrite forallb_forall in H |- *. intros c Hc. apply H in Hc. unfold is_digit, in_range in Hc.
  rewrite orb_true_iff, !andb_true_iff, !Z.leb_le in Hc. unfold is_ascii. rewrite andb_true_iff, !Z.leb_le. lia.
Qed.

Lemma pending_plain fp : forallb text_char fp = true → plain (pending_record fp).
Proof. intros Hf. split; [by eapply bool_decide_unpack; vm_compute|]. by repeat split. Qed.

Lemma small_digits n : 0 ≤ n < 1000 → digits_fit n.
Proof.
  intros Hn. unfold digits_fit. rewrite Z.abs_eq by lia. unfold str_of_nonneg.
  assert (Hl : (Z.to_nat (Z.log2 n) ≤ 9)%nat).
  { pose proof (Z.log2_le_mono n 999 ltac:(lia)) as H. change (Z.log2 999) with 9 in H. lia. }
  assert (H : ∀ fuel m acc, (length (nat_digits fuel m acc) ≤ fuel + length acc)%nat).
  { induction fuel as [|f IH]; intros m acc; [done|]. cbn [nat_digits]. destruct (m <? 10); [cbn [length]; lia|].
    etransitivity; [apply IH|]. cbn [length]. lia. }
  unfold zlen, MAX_STR_DIGITS. specialize (H (S (Z.to_nat (Z.log2 n))) n []). cbn [length] in H. lia.
Qed.

Definition header_text (h : pystr * pystr) : Prop := forallb text_char h.1 = true ∧ forallb text_char h.2 = true.

Lemma b64_ascii raw : forallb is_byte raw = true → forallb is_ascii (b64encode raw) = true.
Proof.
  intros H. unfold b64encode. rewrite forallb_app.
  assert (Ha : forallb is_ascii (b64 Standard raw) = true).
  { apply (chars_in is_ascii b64_text_char); [|by apply b64_text]. intros c Hc. by apply andb_true_iff in Hc as [? _]. }
  rewrite Ha. by induction (pads_of raw).
Qed.

Lemma done_plain fp status headers body : forallb text_char fp = true → 0 ≤ status < 1000 →
  Forall header_text headers → forallb is_byte body = true → plain (done_record fp status headers body).
Proof.
  intros Hf Hs Hh Hb. split; [by eapply bool_decide_unpack; vm_compute|].
  split; [done|]. split; [done|]. split; [done|]. split; [exact Hf|]. split; [done|]. split; [by apply small_digits|].
  split; [done|]. split; [|split; [done|split; [by apply ascii_text, b64_ascii|done]]].
  induction Hh as [|h hs [H1 H2] Hh IH]; [done|]. split; [|exact IH]. split; [exact H1|]. split; [exact H2|done].
Qed.

Lemma fingerprint_text rq body fp : fingerprint_of rq body = Ok fp → forallb text_char fp = true.
Proof. unfold fingerprint_of. intros H. minv. apply sha_text. Qed.

(** ** Answers from a record *)

Lemma answer_pending pb fp fp' : forallb text_char fp = true → json_bytes (pending_record fp) = Ok pb →
  answer_existing (Some pb) fp' = Ok (Refuse (if bool_decide (fp' = fp) then KEY_IN_USE else KEY_REUSED)).
Proof.
  intros Hf Hb. destruct (json_bytes_loads _ (pending_plain fp Hf)) as (b & Hb' & Hl).
  rewrite Hb in Hb'. injection Hb' as <-. unfold answer_existing. rewrite Hl.
  cbn [mbind result_bind pending_record]. change (assoc (py "fingerprint") _) with (Some (JStr fp)).
  cbn [mbind result_bind py_eqb]. destruct (decide (fp' = fp)) as [->|Hn].
  - rewrite !(bool_decide_eq_true_2 (fp = fp)) by done. cbn [negb].
    change (assoc (py "state") _) with (Some (JStr (py "pending"))). cbn [py_eqb].
    rewrite (bool_decide_eq_false_2 (py "pending" = py "done")) by done. reflexivity.
  - rewrite (bool_decide_eq_false_2 (fp = fp')), (bool_decide_eq_false_2 (fp' = fp)) by congruence. reflexivity.
Qed.

Lemma stored_headers (hs : list (pystr * pystr)) (bs : list (bytes * bytes)) :
  Forall2 (λ h b, encode_utf8 h.1 = Ok b.1 ∧ encode_utf8 h.2 = Ok b.2) hs bs →
  mapR stored_header (map header_json hs) = Ok bs.
Proof.
  induction 1 as [|h [b1 b2] hs bs [H1 H2] _ IH]; [done|]. cbn [map mapR]. rewrite IH. cbn [fst snd] in H1, H2.
  unfold stored_header, header_json. by rewrite H1, H2.
Qed.

Lemma answer_done db fp fp' status hs bs body : forallb text_char fp = true → 0 ≤ status < 1000 →
  Forall header_text hs → forallb is_byte body = true →
  Forall2 (λ h b, encode_utf8 h.1 = Ok b.1 ∧ encode_utf8 h.2 = Ok b.2) hs bs →
  json_bytes (done_record fp status hs body) = Ok db →
  answer_existing (Some db) fp'
  = Ok (if bool_decide (fp' = fp) then Replay status (bs ++ [REPLAYED]) body else Refuse KEY_REUSED).
Proof.
  intros Hf Hs Hh Hb He Hd. destruct (json_bytes_loads _ (done_plain fp status hs body Hf Hs Hh Hb)) as (b & Hb' & Hl).
  rewrite Hd in Hb'. injection Hb' as <-. unfold answer_existing. rewrite Hl.
  cbn [mbind result_bind done_record]. change (assoc (py "fingerprint") _) with (Some (JStr fp)).
  cbn [mbind result_bind py_eqb]. destruct (decide (fp' = fp)) as [->|Hn].
  - rewrite !(bool_decide_eq_true_2 (fp = fp)) by done. cbn [negb].
    change (assoc (py "state") _) with (Some (JStr (py "done"))). cbn [py_eqb].
    rewrite (bool_decide_eq_true_2 (py "done" = py "done")) by done. unfold replay.
    change (assoc (py "headers") _) with (Some (JList (map header_json hs))).
    change (assoc (py "status") _) with (Some (JInt status)).
    change (assoc (py "body") _) with (Some (JStr (b64encode body))). cbv beta iota.
    rewrite (stored_headers hs bs He). cbn [mbind result_bind]. by rewrite (b64decode_encode body Hb).
  - rewrite (bool_decide_eq_false_2 (fp = fp')), (bool_decide_eq_false_2 (fp' = fp)) by congruence. reflexivity.
Qed.

(** ** What is kept of a response *)

(** Headers an endpoint sends: an ASCII name and a UTF-8 value. *)
Definition header_ok (h : bytes * bytes) : Prop := forallb is_ascii h.1 = true ∧ ∃ v, decode_strict h.2 = Ok v.

Definition kept_headers (hs : list (bytes * bytes)) : list (bytes * bytes) :=
  omap (λ h, if bool_decide (map ascii_lower_char h.1 ∈ REPLAYED_RESPONSE_HEADERS)
             then Some (map ascii_lower_char h.1, h.2) else None) hs.

Lemma decode_strict_text b s : decode_strict b = Ok s → forallb text_char s = true ∧ encode_utf8 s = Ok b.
Proof.
  unfold decode_strict. destruct (decode_utf8 _ b) as [t|] eqn:E; [|done]. destruct (forallb text_char t) eqn:Et; [|done].
  intros [= ->]. split; [done|]. by apply (encode_decode_utf8 (length b)).
Qed.

Lemma ascii_encode s : forallb is_ascii s = true → encode_utf8 s = Ok s.
Proof.
  intros H. unfold encode_utf8. induction s as [|c s IH]; [done|]. cbn [forallb] in H. apply andb_true_iff in H as [Hc H].
  cbn [mapR]. specialize (IH H). unfold is_ascii in Hc. apply andb_true_iff in Hc as [H0%Z.leb_le H1%Z.leb_le].
  assert (utf8_char c = Ok [c]) as ->.
  { unfold utf8_char. rewrite (proj2 (Z.ltb_lt c 128)) by lia. done. }
  apply result_bind_ok in IH as (cs & Hcs & [= Hs]). rewrite Hcs. cbn [mbind result_bind concat app]. by rewrite Hs.
Qed.

Lemma ascii_decode_strict b : forallb is_ascii b = true → decode_strict b = Ok b.
Proof.
  intros H. unfold decode_strict. pose proof (ascii_text b H) as Ht.
  rewrite (decode_encode_utf8 b b (length b)); [by rewrite Ht| |by apply ascii_encode|lia].
  rewrite forallb_forall in Ht |- *. intros c Hc. apply Ht in Hc. unfold text_char in Hc. by apply andb_true_iff in Hc as [? _].
Qed.

Definition total_size (parts : list bytes) : Z := zlen (concat parts).

Lemma total_size_cons b parts : total_size (b :: parts) = zlen b + total_size parts.
Proof. unfold total_size, zlen. cbn [concat]. rewrite length_app. lia. Qed.

Lemma total_size_nonneg parts : 0 ≤ total_size parts.
Proof. unfold total_size, zlen. lia. Qed.

Lemma concat_bytes parts : Forall (λ b, forallb is_byte b = true) parts → forallb is_byte (concat parts) = true.
Proof. induction 1 as [|b parts H _ IH]; [done|]. cbn [concat]. rewrite forallb_app. by rewrite H, IH. Qed.

Lemma capture_parts parts : ∀ c, cp_size c + total_size parts ≤ MAX_STORED_BODY →
  capture c (map ResponseBody parts)
  = Ok {| cp_status := cp_status c; cp_headers := cp_headers c; cp_chunks := cp_chunks c ++ parts;
          cp_size := cp_size c + total_size parts |}.
Proof.
  induction parts as [|b parts IH]; intros c Hc.
  - destruct c as [st hd ck sz]. cbn [map capture cp_status cp_headers cp_chunks cp_size]. by rewrite app_nil_r, Z.add_0_r.
  - rewrite total_size_cons in Hc |- *. pose proof (total_size_nonneg parts) as Hp. cbn [map capture capture_message].
    rewrite (proj2 (Z.leb_le _ _)) by lia. cbn [mbind result_bind]. rewrite IH by (cbn [cp_size]; lia).
    cbn [cp_status cp_headers cp_chunks cp_size]. by rewrite <- app_assoc, Z.add_assoc.
Qed.

Lemma kept_headers_ok hs : Forall header_ok hs → ∃ kept, mapR kept_header hs = Ok kept ∧
  Forall header_text (omap id kept) ∧
  Forall2 (λ h b, encode_utf8 h.1 = Ok b.1 ∧ encode_utf8 h.2 = Ok b.2) (omap id kept) (kept_headers hs).
Proof.
  induction 1 as [|h hs [Hn [v Hv]] _ (kept & Hk & Ht & He)]; [by exists []|].
  assert (Hl : forallb is_ascii (map ascii_lower_char h.1) = true).
  { rewrite forallb_forall in Hn |- *. intros x [c [<- Hc%Hn]]%in_map_iff. unfold is_ascii in Hc |- *.
    unfold ascii_lower_char. destruct (is_upper_az c) eqn:E; [|done]. unfold is_upper_az, in_range in E.
    rewrite andb_true_iff, !Z.leb_le in *. lia. }
  unfold kept_headers. cbn [mapR omap list_omap]. rewrite Hk. unfold kept_header at 1.
  rewrite (ascii_decode_strict _ Hn). cbn [mbind result_bind]. unfold lower. rewrite Hn.
  case_bool_decide as Hd.
  - rewrite Hv. apply decode_strict_text in Hv as [Hv1 Hv2]. eexists. split; [reflexivity|].
    cbn [omap list_omap id]. split; constructor; try done.
    + by split; [apply ascii_text|].
    + by split; [apply ascii_encode|].
  - eexists. split; [reflexivity|]. by cbn [omap list_omap id].
Qed.

(** A response that is sent in order: its start, then its body. *)
Definition response (status : Z) (headers : list (bytes * bytes)) (parts : list bytes) : outcome :=
  {| oc_messages := ResponseStart status headers :: map ResponseBody parts; oc_raised := None |}.

Lemma capture_response status hs parts : Forall header_ok hs → total_size parts ≤ MAX_STORED_BODY →
  ∃ kept, capture no_capture (oc_messages (response status hs parts))
          = Ok {| cp_status := status; cp_headers := kept; cp_chunks := parts; cp_size := total_size parts |} ∧
  Forall header_text kept ∧
  Forall2 (λ h b, encode_utf8 h.1 = Ok b.1 ∧ encode_utf8 h.2 = Ok b.2) kept (kept_headers hs).
Proof.
  intros Hh Hp. destruct (kept_headers_ok hs Hh) as (kept & Hk & Ht & He). exists (omap id kept). split; [|done].
  cbn [response oc_messages capture capture_message]. rewrite Hk. cbn [mbind result_bind].
  rewrite capture_parts by (cbn [no_capture cp_size]; lia). cbn [no_capture cp_size cp_headers cp_chunks cp_status].
  done.
Qed.

End records.

(** * The entry of a key *)

(** A state change that leaves the entry of [K] alone while it lives. *)
Definition keeps (K : pystr) (s s' : kv) : Prop :=
  kv_clock s ≤ kv_clock s' ∧
  ∀ v e, live_entry s K = Some (v, e) → kv_clock s' < e → live_entry s' K = Some (v, e).

#[export] Instance keeps_preorder K : PreOrder (keeps K).
Proof.
  split; [by split|]. intros s1 s2 s3 [H1 L1] [H2 L2]. split; [lia|]. intros v e Hl He.
  apply L2; [|done]. apply L1; [done|lia].
Qed.

Section entries.
Context `{KS : KeyValueStore} {KL : KeyValueStoreLaws}.

Lemma memory_keeps {A} (m memory : KV A) K s : as_memory m memory → keeps K s (memory s).2 → keeps K s (m s).2.
Proof. intros H Hm. destruct (as_memory_failed _ _ s H) as [E|(s1 & _ & E & [-> | ->])]; rewrite E; [done|reflexivity|done]. Qed.

Lemma same_entry_keeps K s s' : kv_clock s' = kv_clock s → live_entry s' K = live_entry s K → keeps K s s'.
Proof. intros Hc Hl. split; [by rewrite Hc|]. intros v e H _. by rewrite Hl. Qed.

Lemma other_data_keeps K k f s : K ≠ k → (∀ m, f m !! K = m !! K) → keeps K s (with_data f s).
Proof. intros Hk Hf. apply same_entry_keeps; [done|]. by apply (live_entry_other s k). Qed.

Lemma live_keeps K k s : keeps K s (MemoryStore.live k s).2.
Proof.
  rewrite live_spec. cbn [snd]. destruct (live_entry s k) as [ve|] eqn:E; [reflexivity|].
  destruct (decide (K = k)) as [->|Hk].
  - apply same_entry_keeps; [done|]. by rewrite live_entry_delete, E.
  - apply (other_data_keeps K k); [done|]. intros m. by rewrite lookup_delete_ne.
Qed.

Lemma get_keeps K k s : keeps K s (store_get k s).2.
Proof.
  eapply memory_keeps; [apply get_law|]. destruct (get_spec k s) as (s1 & -> & Hl & Hc & _).
  apply same_entry_keeps; [done|apply Hl].
Qed.

Lemma set_absent_keeps K k v ttl s : 1 ≤ ttl → keeps K s (store_set k v ttl true s).2.
Proof.
  intros Ht. eapply memory_keeps; [by apply set_law|]. rewrite set_absent_spec.
  destruct (live_entry s k) as [ve|] eqn:E; [reflexivity|]. destruct (decide (K = k)) as [->|Hk].
  - split; [done|]. intros v' e'. by rewrite E.
  - apply (other_data_keeps K k); [done|]. intros m. by rewrite lookup_insert_ne.
Qed.

Lemma set_other_keeps K k v ttl nx s : K ≠ k → 1 ≤ ttl → keeps K s (store_set k v ttl nx s).2.
Proof.
  intros Hk Ht. destruct nx; [by apply set_absent_keeps|]. eapply memory_keeps; [by apply set_law|].
  rewrite set_spec. apply (other_data_keeps K k); [done|]. intros m. by rewrite lookup_insert_ne.
Qed.

Lemma delete_other_keeps K k s : K ≠ k → keeps K s (store_delete k s).2.
Proof.
  intros Hk. eapply memory_keeps; [apply delete_law|]. apply (other_data_keeps K k); [done|].
  intros m. by rewrite lookup_delete_ne.
Qed.

Lemma consume_other_keeps K k s : K ≠ k → keeps K s (store_get_and_delete k s).2.
Proof.
  intros Hk. eapply memory_keeps; [apply get_and_delete_law|]. rewrite get_and_delete_spec.
  apply (other_data_keeps K k); [done|]. intros m. by rewrite lookup_delete_ne.
Qed.

Lemma increment_other_keeps K k ttl s : K ≠ k → 1 ≤ ttl → keeps K s (store_increment k ttl s).2.
Proof.
  intros Hk Ht. eapply memory_keeps; [by apply increment_law|].
  unfold MemoryStore.increment, mbind, st_bind. rewrite live_spec.
  assert (Hi : ∀ ve s1, keeps K s1 (with_data (insert k ve) s1)).
  { intros ve s1. apply (other_data_keeps K k); [done|]. intros m. by rewrite lookup_insert_ne. }
  assert (Hd : keeps K s (with_data (delete k) s)).
  { apply (other_data_keeps K k); [done|]. intros m. by rewrite lookup_delete_ne. }
  destruct (live_entry s k) as [[v e]|]; unfold gets, lift, mret, st_ret.
  - destruct (int_of_bytes v); [apply Hi|reflexivity].
  - etransitivity; [exact Hd|apply Hi].
Qed.

Lemma keeps_later K s t : kv_clock s ≤ t → keeps K s (at_time t s).
Proof.
  intros Ht. split; [done|]. intros v e. unfold live_entry. cbn [at_time kv_data kv_clock].
  destruct (kv_data s !! K) as [[v' e']|]; [|done]. destruct (Z.leb_spec e' (kv_clock s)); [done|].
  intros [= -> ->] He. destruct (Z.leb_spec e t); [lia|done].
Qed.

End entries.

Section retries.
Context `{UD : !UnicodeData} `{JW : !Jwt} `{SH : !Sha256} {SL : Sha256Laws} `{FP : !FloatRepr} `{FR : !FloatRead}.
Context `{KS : KeyValueStore} {KL : KeyValueStoreLaws}.
Context (tokens : TokenService) (allow_header_auth : bool) (ttl_seconds lock_seconds : Z).
Context (Httl : 1 ≤ ttl_seconds) (Hlock : 1 ≤ lock_seconds).

Abbreviation admission_of' := (admission_of tokens allow_header_auth lock_seconds) (only parsing).
Abbreviation finish' := (finish ttl_seconds) (only parsing).

Lemma respects_unless K {A} (m fallback : KV A) :
  respects (keeps K) m → respects (keeps K) fallback → respects (keeps K) (unless_available m fallback).
Proof.
  intros Hm Hf s r s' H. unfold unless_available in H. destruct (m s) as [[a|e] s1] eqn:E.
  - injection H as <- <-. by eapply Hm.
  - destruct e; try (injection H as <- <-; by eapply Hm). etransitivity; [by eapply Hm|by eapply Hf].
Qed.

Lemma command_respects K {A} (m : KV A) : (∀ s, keeps K s (m s).2) → respects (keeps K) m.
Proof. intros H s r s' E. specialize (H s). by rewrite E in H. Qed.

(** A request, whatever its key, only fills an empty entry. *)
Lemma reserve_keeps K k fp body : respects (keeps K) (reserve lock_seconds k fp body).
Proof.
  unfold reserve. respects ltac:(first [apply respects_unless
    | apply command_respects; intros ?; apply set_absent_keeps; lia
    | apply command_respects; intros ?; apply get_keeps]).
Qed.

Lemma admit_keeps K now rq msgs : respects (keeps K) (admission_of' now rq msgs).
Proof. unfold admission_of. respects ltac:(apply reserve_keeps). Qed.

Lemma finish_keeps K k fp o : K ≠ k → respects (keeps K) (finish' k fp o).
Proof.
  intros Hk. unfold finish, release. respects ltac:(first [apply respects_unless
    | apply command_respects; intros ?; apply set_other_keeps; [done|lia]
    | apply command_respects; intros ?; by apply delete_other_keeps]).
Qed.

(** What else happens to the store while a request with key [K] runs or is remembered:
    time passes, Redis fails and recovers, requests arrive, requests with other keys
    finish, and other parts of the program use their own keys. *)
Inductive other_step (K : pystr) (s : kv) : kv → Prop :=
  | os_time t : kv_clock s ≤ t → other_step K s (at_time t s)
  | os_outage up : other_step K s {| kv_data := kv_data s; kv_clock := kv_clock s; kv_up := up |}
  | os_request now rq msgs : other_step K s (admission_of' now rq msgs s).2
  | os_finish k fp o : K ≠ k → other_step K s (finish' k fp o s).2
  | os_get k : other_step K s (store_get k s).2
  | os_consume k : K ≠ k → other_step K s (store_get_and_delete k s).2
  | os_delete k : K ≠ k → other_step K s (store_delete k s).2
  | os_set k v ttl nx : K ≠ k → 1 ≤ ttl → other_step K s (store_set k v ttl nx s).2
  | os_increment k ttl : K ≠ k → 1 ≤ ttl → other_step K s (store_increment k ttl s).2.

Lemma other_step_keeps K s s' : other_step K s s' → keeps K s s'.
Proof.
  intros [t Ht|up|now rq msgs|k fp o Hk|k|k Hk|k Hk|k v ttl nx Hk Ht|k ttl Hk Ht].
  - by apply keeps_later.
  - by apply same_entry_keeps.
  - apply (respects_snd (keeps K) _ s (admit_keeps K now rq msgs)).
  - apply (respects_snd (keeps K) _ s (finish_keeps K k fp o Hk)).
  - apply get_keeps.
  - by apply consume_other_keeps.
  - by apply delete_other_keeps.
  - by apply set_other_keeps.
  - by apply increment_other_keeps.
Qed.

Lemma other_steps_keep K s s' : rtc (other_step K) s s' → keeps K s s'.
Proof. induction 1 as [|s s1 s2 H _ IH]; [reflexivity|]. etransitivity; [by apply other_step_keeps|done]. Qed.

(** A request that takes part under store key [K], with a fingerprint. *)
Definition keyed (now : Instant) (rq : HttpRequest) (msgs : list received) (K fp : pystr) : Prop :=
  hr_is_http rq = true ∧ hr_method rq = py "POST" ∧
  existsb (λ p, endswith p (hr_path rq)) EXCLUDED_PATHS = false ∧
  ∃ raw caller, hr_idempotency_key rq = Some raw ∧ key_ok raw = true ∧
    subject tokens allow_header_auth now rq = Ok (Some caller) ∧
    fingerprint_of rq (read_body msgs) = Ok fp ∧ store_key_of caller raw = Ok K.

Lemma admit_keyed now rq msgs K fp s : keyed now rq msgs K fp →
  admission_of' now rq msgs s = reserve lock_seconds K fp (read_body msgs) s.
Proof.
  intros (Hh & Hm & Hp & raw & caller & Hr & Hk & Hs & Hf & HK). unfold admission_of.
  rewrite Hh, Hm, Hr, Hp, Hk. rewrite bool_decide_eq_true_2 by done. cbn [negb orb].
  erewrite st_bind_eq; [|by apply lift_ok]. cbv beta iota zeta.
  erewrite st_bind_eq; [|by apply lift_ok]. erewrite st_bind_eq; [|by apply lift_ok]. done.
Qed.

Lemma answer_not_reserved existing fp K fp' body : answer_existing existing fp ≠ Ok (Reserved K fp' body).
Proof.
  unfold answer_existing. intros H. minv.
  match goal with H : match ?r with JObj _ => _ | _ => _ end = _ |- _ => destruct r; try done end. minv.
  match goal with H : (if ?b then _ else _) = _ |- _ => destruct b; [done|] end.
  match goal with H : match ?r with Some _ => _ | None => _ end = _ |- _ => destruct r; [|done] end.
  match goal with H : (if ?b then _ else _) = _ |- _ => destruct b; [|done] end.
  unfold replay in *. repeat case_match; try done. by minv.
Qed.

(** A reservation that was made. *)
Lemma reserve_reserved k fp0 body0 s K fp body s' :
  reserve lock_seconds k fp0 body0 s = (Ok (Reserved K fp body), s') →
  k = K ∧ fp0 = fp ∧ body0 = body ∧ ∃ pb, json_bytes (pending_record fp) = Ok pb ∧
  live_entry s K = None ∧ live_entry s' K = Some (pb, kv_clock s + lock_seconds * 1000) ∧
  kv_clock s' = kv_clock s ∧ kv_up s' = kv_up s.
Proof.
  unfold reserve. intros H. apply st_bind_ok in H as (pb & ? & [Hpb ->]%lift_ok & H).
  unfold unless_available in H.
  destruct (as_memory_failed _ _ s (set_law k pb (lock_seconds * 1000) true ltac:(lia))) as [E|(? & _ & E & _)].
  2:{ unfold mbind, st_bind in H. by rewrite E in H. }
  rewrite set_absent_spec in E. destruct (live_entry s k) as [ve|] eqn:El.
  - unfold mbind at 1, st_bind at 1 in H. rewrite E in H. unfold mbind, st_bind, lift in H.
    destruct (store_get k s) as [[x|e] s1].
    + destruct (answer_existing x fp0) as [a|[]] eqn:Ea; try done. injection H as -> _.
      by apply answer_not_reserved in Ea.
    + by destruct e.
  - unfold mbind, st_bind in H. rewrite E in H. injection H as -> -> -> <-. split_and!; try done.
    exists pb. split_and!; try done. rewrite live_entry_insert. by rewrite (proj2 (Z.leb_gt _ _)) by lia.
Qed.

(** A request whose key has an entry is answered from it. *)
Lemma reserve_existing K fp body s v e a : forallb text_char fp = true →
  live_entry s K = Some (v, e) → answer_existing (Some v) fp = Ok a →
  (reserve lock_seconds K fp body s).1 = Ok a ∨
  kv_up s = false ∧ (reserve lock_seconds K fp body s).1 = Ok (Refuse STORE_UNAVAILABLE).
Proof.
  intros Hf Hl Ha. destruct (json_bytes_loads _ (pending_plain fp Hf)) as (pb & Hpb & _). unfold reserve.
  erewrite st_bind_eq; [|by apply lift_ok]. unfold unless_available.
  destruct (as_memory_failed _ _ s (set_law K pb (lock_seconds * 1000) true ltac:(lia))) as [E|(? & Hu & E & _)].
  2:{ right. split; [done|]. unfold mbind, st_bind. by rewrite E. }
  rewrite set_absent_spec, Hl in E.
  destruct (as_memory_failed _ _ s (get_law K)) as [Eg|(? & Hu & Eg & _)].
  - left. unfold mbind, st_bind. rewrite E, Eg. destruct (get_spec K s) as (s1 & -> & _). rewrite Hl.
    cbn [option_map fst]. unfold lift. by rewrite Ha.
  - right. split; [exact Hu|]. unfold mbind, st_bind. by rewrite E, Eg.
Qed.

Lemma admit_reserved now rq msgs s K fp body s' : admission_of' now rq msgs s = (Ok (Reserved K fp body), s') →
  keyed now rq msgs K fp ∧ body = read_body msgs.
Proof.
  unfold admission_of. intros H. destruct (negb (hr_is_http rq) || _) eqn:E0; [by minv|].
  apply orb_false_iff in E0 as [E1%negb_false_iff E2%negb_false_iff%bool_decide_eq_true].
  destruct (hr_idempotency_key rq) as [raw|] eqn:Er; [|by minv].
  destruct (existsb _ _) eqn:Ep; [by minv|]. destruct (key_ok raw) eqn:Ek; cbn [negb] in H; [|by minv].
  apply st_bind_ok in H as (caller & ? & [Hs ->]%lift_ok & H). destruct caller as [caller|]; [|by minv].
  apply st_bind_ok in H as (fp' & ? & [Hf ->]%lift_ok & H). apply st_bind_ok in H as (K' & ? & [HK ->]%lift_ok & H).
  apply reserve_reserved in H as (<- & <- & <- & _). split; [|done].
  split; [done|]. split; [done|]. split; [done|]. by exists raw, caller.
Qed.

Lemma keyed_text now rq msgs K fp : keyed now rq msgs K fp → forallb text_char fp = true.
Proof. intros (_ & _ & _ & raw & caller & _ & _ & _ & Hf & _). by eapply fingerprint_text. Qed.

(** The answer to a request under a key whose record is [v]. *)
Lemma admit_existing now rq msgs K fp s v e a : keyed now rq msgs K fp →
  live_entry s K = Some (v, e) → answer_existing (Some v) fp = Ok a →
  (admission_of' now rq msgs s).1 = Ok a ∨
  kv_up s = false ∧ (admission_of' now rq msgs s).1 = Ok (Refuse STORE_UNAVAILABLE).
Proof.
  intros Hk Hl Ha. rewrite (admit_keyed _ _ _ _ _ _ Hk).
  exact (reserve_existing K fp _ s v e a (keyed_text _ _ _ _ _ Hk) Hl Ha).
Qed.

(** A successful response, finished while the store answers, leaves its record. *)
Lemma finish_stores K fp status hs parts s : forallb text_char fp = true → 200 ≤ status < 300 →
  Forall header_ok hs → Forall (λ b, forallb is_byte b = true) parts → total_size parts ≤ MAX_STORED_BODY →
  kv_up s = true →
  ∃ db kept, json_bytes (done_record fp status kept (concat parts)) = Ok db ∧ Forall header_text kept ∧
    Forall2 (λ h b, encode_utf8 h.1 = Ok b.1 ∧ encode_utf8 h.2 = Ok b.2) kept (kept_headers hs) ∧
    (finish' K fp (response status hs parts) s).1 = Ok () ∧
    kv_clock (finish' K fp (response status hs parts) s).2 = kv_clock s ∧
    kv_up (finish' K fp (response status hs parts) s).2 = kv_up s ∧
    live_entry (finish' K fp (response status hs parts) s).2 K = Some (db, kv_clock s + ttl_seconds * 1000).
Proof.
  intros Hf Hs Hh Hb Hp Hu. destruct (capture_response status hs parts Hh Hp) as (kept & Hc & Ht & He).
  assert (Hbody : forallb is_byte (concat parts) = true) by by apply concat_bytes.
  destruct (json_bytes_loads _ (done_plain fp status kept (concat parts) Hf ltac:(lia) Ht Hbody)) as (db & Hdb & _).
  exists db, kept. split; [done|]. split; [done|]. split; [done|].
  assert (Hfin : finish' K fp (response status hs parts) s
    = (Ok (), with_data (<[K := (db, kv_clock s + ttl_seconds * 1000)]>) s)).
  { unfold finish. rewrite Hc. cbn [response oc_raised cp_status cp_headers cp_chunks cp_size].
    rewrite (proj2 (Z.leb_le 200 status)), (proj2 (Z.ltb_lt status 300)), (proj2 (Z.ltb_ge _ _)) by lia. cbn [andb negb orb].
    erewrite st_bind_eq; [|by apply lift_ok]. unfold unless_available.
    pose proof (as_memory_up _ _ s (set_law K db (ttl_seconds * 1000) false ltac:(lia)) Hu) as E.
    rewrite set_spec in E. unfold mbind, st_bind. by rewrite E. }
  rewrite Hfin. split; [done|]. split; [done|]. split; [done|]. cbn [snd]. rewrite live_entry_insert.
  by rewrite (proj2 (Z.leb_gt _ _)) by lia.
Qed.

(** C13. While a request holds an idempotency key, no other is executed under it.  Once
    [admission_of] has reserved a key, then for less than the lock time, whatever happens -
    time passes, the store fails and recovers, requests with any key arrive, requests
    under other keys finish, other parts of the program use other keys - as long as no
    request under this same key finishes (the holder itself, or an earlier one that has
    outlived its own lock, whose late release would free the key:
    [late_release_frees_the_key] in ScenarioRetries.v), a request under the key is not
    passed to the endpoint: it is told that the key is in use, or, when its method,
    path, query or body give another fingerprint, that the key belongs to another request;
    when the store is down it is refused, not executed. *)
Theorem a_running_key_is_not_executed_again now rq msgs s0 K fp body s1 s2 now' rq' msgs' fp' :
  admission_of' now rq msgs s0 = (Ok (Reserved K fp body), s1) →
  rtc (other_step K) s1 s2 → kv_clock s2 < kv_clock s0 + lock_seconds * 1000 →
  keyed now' rq' msgs' K fp' →
  (admission_of' now' rq' msgs' s2).1 = Ok (Refuse (if bool_decide (fp' = fp) then KEY_IN_USE else KEY_REUSED)) ∨
  kv_up s2 = false ∧ (admission_of' now' rq' msgs' s2).1 = Ok (Refuse STORE_UNAVAILABLE).
Proof.
  intros H0 Hs Hc Hk. destruct (admit_reserved _ _ _ _ _ _ _ _ H0) as [Hk0 _].
  rewrite (admit_keyed _ _ _ _ _ _ Hk0) in H0.
  destruct (reserve_reserved _ _ _ _ _ _ _ _ H0) as (_ & _ & _ & pb & Hpb & _ & Hl & Hc1 & _).
  destruct (other_steps_keep _ _ _ Hs) as [_ Hkeep].
  apply (admit_existing _ _ _ _ _ _ _ _ _ Hk (Hkeep _ _ Hl ltac:(lia))).
  apply (answer_pending pb fp fp' (keyed_text _ _ _ _ _ Hk0) Hpb).
Qed.

(** C14. A retry of a request that succeeded gets its stored response.  When the endpoint
    has answered with a 2xx status, headers of ASCII names and UTF-8 values and a body of
    at most 1 MiB, and the store answers then, a request under the same key within the
    retention time is answered with the same status and body, and the kept headers with
    their values unchanged, if it is the same request, and refused otherwise; it is
    never executed - whatever happens to the store meanwhile (time, outages, requests
    with any key arriving, requests under other keys finishing, other keys being used),
    as long as no other request under this same key finishes, which only one that
    overlapped with this one, its lock having run out, could do. *)
Theorem a_finished_key_is_replayed now rq msgs K fp s2 status hs parts s4 now' rq' msgs' fp' :
  keyed now rq msgs K fp → 200 ≤ status < 300 → Forall header_ok hs →
  Forall (λ b, forallb is_byte b = true) parts → total_size parts ≤ MAX_STORED_BODY → kv_up s2 = true →
  rtc (other_step K) (finish' K fp (response status hs parts) s2).2 s4 → kv_clock s4 < kv_clock s2 + ttl_seconds * 1000 →
  keyed now' rq' msgs' K fp' →
  (finish' K fp (response status hs parts) s2).1 = Ok () ∧
  ((admission_of' now' rq' msgs' s4).1
   = Ok (if bool_decide (fp' = fp) then Replay status (kept_headers hs ++ [REPLAYED]) (concat parts)
         else Refuse KEY_REUSED) ∨
   kv_up s4 = false ∧ (admission_of' now' rq' msgs' s4).1 = Ok (Refuse STORE_UNAVAILABLE)).
Proof.
  intros Hk0 Hs Hh Hb Hp Hu Hsteps Hc Hk.
  destruct (finish_stores K fp status hs parts s2 (keyed_text _ _ _ _ _ Hk0) Hs Hh Hb Hp Hu)
    as (db & kept & Hdb & Ht & He & Hok & Hc3 & _ & Hl).
  split; [done|]. destruct (other_steps_keep _ _ _ Hsteps) as [_ Hkeep].
  apply (admit_existing _ _ _ _ _ _ _ _ _ Hk (Hkeep _ _ Hl ltac:(lia))).
  assert (Hbody : forallb is_byte (concat parts) = true) by by apply concat_bytes.
  exact (answer_done db fp fp' status kept _ _ (keyed_text _ _ _ _ _ Hk0) ltac:(lia) Ht Hbody He Hdb).
Qed.

Lemma reads_keyed now rq msgs K fp : keyed now rq msgs K fp →
  reads_of tokens allow_header_auth now rq msgs = body_reads msgs.
Proof.
  intros (Hh & Hm & Hp & raw & caller & Hr & Hk & Hs & _). unfold reads_of. rewrite Hh, Hm, Hr, Hp, Hk, Hs.
  by rewrite bool_decide_eq_true_2.
Qed.

(** A free key is reserved while the store answers. *)
Lemma admit_free now rq msgs K fp s : keyed now rq msgs K fp → live_entry s K = None → kv_up s = true →
  ∃ pb, admission_of' now rq msgs s
  = (Ok (Reserved K fp (read_body msgs)), with_data (<[K := (pb, kv_clock s + lock_seconds * 1000)]>) s).
Proof.
  intros Hk Hl Hu. rewrite (admit_keyed _ _ _ _ _ _ Hk).
  destruct (json_bytes_loads _ (pending_plain fp (keyed_text _ _ _ _ _ Hk))) as (pb & Hpb & _). exists pb.
  unfold reserve. erewrite st_bind_eq; [|by apply lift_ok]. unfold unless_available.
  pose proof (as_memory_up _ _ s (set_law K pb (lock_seconds * 1000) true ltac:(lia)) Hu) as E.
  rewrite set_absent_spec, Hl in E. erewrite st_bind_eq; [|exact E]. reflexivity.
Qed.

(** C15. The body limit answers 413 to a request that the idempotency middleware has
    executed.  A keyed POST whose body arrives in two parts without a declared length,
    the second one passing the limit, is answered 413, although the endpoint has run on
    the first part alone and succeeded: its response is stored under the key, and a
    later request with that shorter body is answered from the store. *)
Theorem truncated_body_is_executed max_bytes now rq b c K fp s app status hs parts now' rq' :
  0 < zlen b ≤ max_bytes → max_bytes < zlen b + zlen c → hr_content_length rq = [] →
  keyed now rq [BodyPart b false] K fp → live_entry s K = None → kv_up s = true →
  (app [BodyPart b false]).2 = response status hs parts → 200 ≤ status < 300 → Forall header_ok hs →
  Forall (λ b, forallb is_byte b = true) parts → total_size parts ≤ MAX_STORED_BODY →
  keyed now' rq' [BodyPart b false] K fp →
  ∃ s', body_limit max_bytes rq [BodyPart b true; BodyPart c false]
          (call tokens allow_header_auth ttl_seconds lock_seconds now app rq) s = (Ok (Rejected 413), s') ∧
    (admission_of' now' rq' [BodyPart b false] s').1
    = Ok (Replay status (kept_headers hs ++ [REPLAYED]) (concat parts)).
Proof.
  intros Hb Hc Hd Hk Hl Hu Happ Hs Hh Hp Ht Hk'.
  assert (Hk2 : keyed now rq [BodyPart b true; Disconnect] K fp).
  { unfold keyed in *. cbn [read_body] in *. by rewrite app_nil_r. }
  destruct (admit_free _ _ _ _ _ s Hk2 Hl Hu) as [pb Ha].
  set (s1 := with_data _ s) in Ha.
  destruct (finish_stores K fp status hs parts s1 (keyed_text _ _ _ _ _ Hk) Hs Hh Hp Ht Hu)
    as (db & kept & Hdb & Htext & He & Hok & Hc1 & Hu1 & Hl1).
  exists (finish' K fp (response status hs parts) s1).2. split.
  - unfold body_limit. rewrite (proj1 Hk), Hd, (proj2 (Z.leb_gt max_bytes 0)) by lia. cbn [negb orb declared_refused].
    cbn [limited]. rewrite Z.add_0_l, (proj2 (Z.ltb_ge max_bytes (zlen b))), (proj2 (Z.ltb_lt _ _) Hc) by lia.
    unfold call, mbind at 1, st_bind at 1. rewrite Ha. unfold execute. cbn [read_body]. rewrite app_nil_r, Happ.
    destruct (finish' _ _ _ s1) as [r s2]. rewrite (reads_keyed _ _ _ _ _ Hk2). cbn [fst body_reads too_large].
    rewrite Z.add_0_l, (proj2 (Z.ltb_lt _ _) Hc), orb_true_r. done.
  - destruct (admit_existing _ _ _ _ _ _ _ _ (if bool_decide (fp = fp) then
      Replay status (kept_headers hs ++ [REPLAYED]) (concat parts) else Refuse KEY_REUSED) Hk' Hl1) as [E|[E _]].
    + assert (Hbody : forallb is_byte (concat parts) = true) by by apply concat_bytes.
      exact (answer_done db fp fp status kept _ _ (keyed_text _ _ _ _ _ Hk) ltac:(lia) Htext Hbody He Hdb).
    + rewrite E. by rewrite bool_decide_eq_true_2.
    + rewrite Hu1 in E. unfold s1 in E. cbn [with_data kv_up] in E. congruence.
Qed.

End retries.
