(* ===== verification/McpState.v ===== *)
(** The temporary state of an MCP session, app/mcp/state.py, over the shared store: what
    a session remembers of its last snapshot and queries, with a sliding time to live. *)

From stdpp Require Import gmap.
From S2P Require Import Prelude PyStr Json Canonical Regex Validation Access Temporal Database Schema.
From S2P Require Import Calendar Encoding Parsing JsonParse EvidenceService Store Idempotency Retries.

Definition MAX_RECENT_QUERIES : nat := 10.

Record SessionContext := {
  sc_session_id : pystr; sc_last_snapshot_id : option UUID; sc_snapshot_fact_version_ids : list UUID;
  sc_recent_queries : list json; sc_updated_at : option Instant }.

Section session.
Context `{FP : !FloatRepr} `{FR : !FloatRead} `{KS : KeyValueStore}.
Context (organization_id user_id : UUID) (agent_name session_id : pystr) (ttl_seconds : Z).

Definition session_key : pystr :=
  py "cl:mcp:session:" ++ uuid_str organization_id ++ [58] ++ uuid_str user_id ++ [58] ++ agent_name
  ++ [58] ++ session_id.

(** [data[k] = v] *)
Fixpoint put_field (k : pystr) (v : json) (data : list (pystr * json)) : list (pystr * json) :=
  match data with
  | [] => [(k, v)]
  | (k', v') :: rest => if bool_decide (k = k') then (k', v) :: rest else (k', v') :: put_field k v rest
  end.

(** [_load]: an entry is an object that [_save] wrote. *)
Definition load : KV (list (pystr * json)) :=
  raw ← store_get session_key;
  match raw with
  | None => mret []
  | Some b => j ← lift (loads_bytes b);
              lift match j with JObj kvs => Ok kvs | _ => Err TypeError end
  end.

(** [_save] *)
Definition save_session (now : Instant) (data : list (pystr * json)) : KV unit :=
  b ← lift (json_bytes (JObj (put_field (py "updated_at") (JStr (utc_iso now)) data)));
  _ ← store_set session_key b (ttl_seconds * 1000) false;
  mret ().

Definition list_field (k : pystr) (data : list (pystr * json)) : result (list json) :=
  match assoc k data with None => Ok [] | Some (JList l) => Ok l | Some _ => Err TypeError end.

Definition remember_query (now : Instant) (query : pystr) : KV unit :=
  unless_available (
    data ← load;
    recent ← lift (list_field (py "recent_queries") data);
    let queries := where_ (λ q, negb (py_eqb q (JStr query))) recent in
    save_session now (put_field (py "recent_queries")
      (JList (take MAX_RECENT_QUERIES (JStr query :: queries))) data))
  (mret ()).

Definition remember_snapshot (now : Instant) (snapshot_id : UUID) (fact_version_ids : list UUID) : KV unit :=
  unless_available (
    data ← load;
    save_session now (put_field (py "snapshot_fact_version_ids")
      (JList (map (λ v, JStr (uuid_str v)) fact_version_ids))
      (put_field (py "last_snapshot_id") (JStr (uuid_str snapshot_id)) data)))
  (mret ()).

(** The fields as [current] reads them back. *)
Definition read_uuid (j : json) : result UUID :=
  match j with JStr s => uuid_of_text s | _ => Err (LibraryError "AttributeError") end.
Definition read_instant (j : json) : result Instant :=
  match j with JStr s => read_utc_iso s | _ => Err TypeError end.
Definition read_opt {A} (read : json → result A) (field : option json) : result (option A) :=
  match field with
  | None | Some JNull => Ok None
  | Some j => a ← read j; Ok (Some a)
  end.

Definition current : KV SessionContext :=
  data ← load;
  last ← lift (read_opt read_uuid (assoc (py "last_snapshot_id") data));
  versions ← lift (l ← list_field (py "snapshot_fact_version_ids") data; mapR read_uuid l);
  queries ← lift (list_field (py "recent_queries") data);
  updated ← lift (read_opt read_instant (assoc (py "updated_at") data));
  mret {| sc_session_id := session_id; sc_last_snapshot_id := last;
          sc_snapshot_fact_version_ids := versions; sc_recent_queries := queries;
          sc_updated_at := updated |}.

End session.

(** * What a session remembers, abstractly *)

Record memory := { mm_snapshot : option (UUID * list UUID); mm_queries : list pystr; mm_updated : option Instant }.

Inductive session_op := Searched (query : pystr) | Captured (snapshot_id : UUID) (fact_version_ids : list UUID).

Definition remember (now : Instant) (op : session_op) (m : memory) : memory :=
  match op with
  | Searched q =>
    {| mm_snapshot := mm_snapshot m;
       mm_queries := take MAX_RECENT_QUERIES (q :: where_ (λ x, negb (bool_decide (x = q))) (mm_queries m));
       mm_updated := Some now |}
  | Captured i vs => {| mm_snapshot := Some (i, vs); mm_queries := mm_queries m; mm_updated := Some now |}
  end.

Definition nothing : memory := {| mm_snapshot := None; mm_queries := []; mm_updated := None |}.

Definition context_of (session_id : pystr) (m : memory) : SessionContext := {|
  sc_session_id := session_id; sc_last_snapshot_id := option_map fst (mm_snapshot m);
  sc_snapshot_fact_version_ids := match mm_snapshot m with Some (_, vs) => vs | None => [] end;
  sc_recent_queries := map JStr (mm_queries m); sc_updated_at := mm_updated m |}.

Definition op_ok (op : session_op) : Prop :=
  match op with
  | Searched q => forallb text_char q = true
  | Captured i vs => is_uuid i ∧ Forall is_uuid vs
  end.

(** The dict [kvs] represents [m]. *)
Record represents (m : memory) (kvs : list (pystr * json)) : Prop := {
  rep_plain : plain (JObj kvs);
  rep_last : assoc (py "last_snapshot_id") kvs = option_map (λ x, JStr (uuid_str x.1)) (mm_snapshot m);
  rep_versions : assoc (py "snapshot_fact_version_ids") kvs
    = option_map (λ x, JList (map (λ v, JStr (uuid_str v)) x.2)) (mm_snapshot m);
  rep_queries : assoc (py "recent_queries") kvs
    = match mm_queries m with [] => None | qs => Some (JList (map JStr qs)) end;
  rep_updated : assoc (py "updated_at") kvs = option_map (λ t, JStr (utc_iso t)) (mm_updated m);
  rep_uuids : ∀ i vs, mm_snapshot m = Some (i, vs) → is_uuid i ∧ Forall is_uuid vs;
  rep_texts : Forall (λ q, forallb text_char q = true) (mm_queries m);
  rep_instant : ∀ t, mm_updated m = Some t → is_instant t;
}.

Lemma assoc_put_eq k v kvs : assoc k (put_field k v kvs) = Some v.
Proof.
  induction kvs as [|[k' v'] kvs IH]; cbn [put_field assoc].
  - by rewrite bool_decide_eq_true_2.
  - destruct (bool_decide (k = k')) eqn:E; cbn [assoc]; by rewrite E.
Qed.

Lemma assoc_put_ne k k' v kvs : k ≠ k' → assoc k (put_field k' v kvs) = assoc k kvs.
Proof.
  intros Hne. induction kvs as [|[k2 v2] kvs IH]; cbn [put_field assoc].
  - by rewrite bool_decide_eq_false_2.
  - destruct (bool_decide (k' = k2)) eqn:E; cbn [assoc].
    + apply bool_decide_eq_true in E as <-. by rewrite bool_decide_eq_false_2.
    + by rewrite IH.
Qed.

Lemma put_keys k v kvs x : x ∈ map fst (put_field k v kvs) → x = k ∨ x ∈ map fst kvs.
Proof.
  induction kvs as [|[k' v'] kvs IH]; cbn [put_field map fst].
  - intros ->%list_elem_of_singleton. by left.
  - destruct (bool_decide (k = k')) eqn:E; cbn [map fst]; rewrite !elem_of_cons; [tauto|].
    intros [->|H%IH]; [tauto|]. tauto.
Qed.

Lemma plain_put k v kvs : forallb text_char k = true → plain v → plain (JObj kvs) → plain (JObj (put_field k v kvs)).
Proof.
  intros Hk Hv. induction kvs as [|[k' v'] kvs IH]; intros [Hnd H]; cbn [put_field].
  - split; [apply NoDup_singleton|]. by split_and!.
  - destruct H as (Hk' & Hv' & H). cbn [map fst] in Hnd. apply NoDup_cons in Hnd as [Hnin Hnd].
    destruct (bool_decide (k = k')) eqn:E.
    + split; [cbn [map fst]; by apply NoDup_cons|]. by split_and!.
    + destruct IH as [Hnd' H']; [by split|]. split; [|by split_and!]. cbn [map fst]. apply NoDup_cons. split; [|done].
      intros [->|Hin]%put_keys; [|done]. by rewrite bool_decide_eq_true_2 in E.
Qed.

Lemma plain_strings l : Forall (λ s, forallb text_char s = true) l → plain (JList (map JStr l)).
Proof. induction 1 as [|s l Hs _ IH]; [done|]. by split. Qed.

Lemma below_128_text s : Forall (λ c, 0 ≤ c < 128) s → forallb text_char s = true.
Proof.
  intros H. apply ascii_text. apply forallb_forall. intros c Hc. rewrite Forall_forall in H.
  apply list_elem_of_In, H in Hc. unfold is_ascii. rewrite andb_true_iff, !Z.leb_le. lia.
Qed.

Lemma uuid_text u : forallb text_char (uuid_str u) = true.
Proof.
  apply ascii_text. pose proof (uuid_str_chars u) as H. rewrite forallb_forall in H |- *. intros c Hc. apply H in Hc.
  unfold uuid_char, is_digit, in_range in Hc. unfold is_ascii.
  rewrite !orb_true_iff, !andb_true_iff, !Z.leb_le, Z.eqb_eq in Hc. rewrite andb_true_iff, !Z.leb_le. lia.
Qed.

Lemma dec_text w n : forallb text_char (dec w n) = true.
Proof.
  apply ascii_text. unfold dec. revert n. induction w as [|w IH]; intros n; [done|]. cbn [numeral].
  rewrite forallb_app, IH. cbn [forallb andb]. rewrite andb_true_r. unfold dec_digit, is_ascii.
  pose proof (Z.mod_pos_bound n 10 ltac:(lia)). rewrite andb_true_iff, !Z.leb_le. lia.
Qed.

Lemma utc_iso_text t : forallb text_char (utc_iso t) = true.
Proof.
  unfold utc_iso. destruct (ord_to_ymd _) as [[y m] d].
  rewrite !forallb_app, !dec_text. destruct (_ =? 0); [done|].
  change (46 :: dec 6 (t mod DAY mod 1000000)) with ([46] ++ dec 6 (t mod DAY mod 1000000)).
  by rewrite forallb_app, dec_text.
Qed.

Lemma represents_nothing : represents nothing [].
Proof. split; try done. split; [constructor|done]. Qed.

Lemma queries_field m kvs : represents m kvs →
  list_field (py "recent_queries") kvs = Ok (map JStr (mm_queries m)).
Proof. intros H. unfold list_field. rewrite (rep_queries _ _ H). by destruct (mm_queries m). Qed.

Lemma other_queries q qs : where_ (λ x, negb (py_eqb x (JStr q))) (map JStr qs)
  = map JStr (where_ (λ x, negb (bool_decide (x = q))) qs).
Proof. by rewrite where_map. Qed.

Lemma represents_search m kvs now q : represents m kvs → is_instant now → forallb text_char q = true →
  represents (remember now (Searched q) m) (put_field (py "updated_at") (JStr (utc_iso now))
    (put_field (py "recent_queries") (JList (take MAX_RECENT_QUERIES
       (JStr q :: where_ (λ x, negb (py_eqb x (JStr q))) (map JStr (mm_queries m))))) kvs)).
Proof.
  intros [Hp Hl Hv Hq Hu Hid Ht Hi] Hnow Htext.
  rewrite other_queries. change (JStr q :: map JStr ?l) with (map JStr (q :: l)). rewrite firstn_map.
  set (qs := take MAX_RECENT_QUERIES _).
  assert (Hqs : Forall (λ q, forallb text_char q = true) qs).
  { apply Forall_take. constructor; [done|]. apply Forall_forall. intros x [_ Hx]%elem_of_where_.
    rewrite Forall_forall in Ht. by apply Ht. }
  split; cbn [remember mm_snapshot mm_queries mm_updated]; try done.
  - apply plain_put; [done|apply utc_iso_text|]. apply plain_put; [done|by apply plain_strings|done].
  - by rewrite !assoc_put_ne.
  - by rewrite !assoc_put_ne.
  - rewrite assoc_put_ne, assoc_put_eq by done. reflexivity.
  - by rewrite assoc_put_eq.
  - by intros t [= <-].
Qed.

Lemma represents_capture m kvs now i vs : represents m kvs → is_instant now → is_uuid i → Forall is_uuid vs →
  represents (remember now (Captured i vs) m) (put_field (py "updated_at") (JStr (utc_iso now))
    (put_field (py "snapshot_fact_version_ids") (JList (map (λ v, JStr (uuid_str v)) vs))
      (put_field (py "last_snapshot_id") (JStr (uuid_str i)) kvs))).
Proof.
  intros [Hp Hl Hv Hq Hu Hid Ht Hi] Hnow Hiu Hvs.
  assert (Hids : plain (JList (map (λ v, JStr (uuid_str v)) vs))).
  { rewrite <- (map_map uuid_str JStr). apply plain_strings, Forall_forall. intros x (v & -> & _)%list_elem_of_fmap.
    apply uuid_text. }
  split; cbn [remember mm_snapshot mm_queries mm_updated]; try done.
  - repeat (apply plain_put; [done|first [apply utc_iso_text|exact Hids|apply uuid_text]|]). done.
  - rewrite 2!assoc_put_ne by done. by rewrite assoc_put_eq.
  - rewrite assoc_put_ne by done. by rewrite assoc_put_eq.
  - by rewrite !assoc_put_ne.
  - by rewrite assoc_put_eq.
  - by intros ? ? [= <- <-].
  - by intros t [= <-].
Qed.

Section refinement.
Context `{FP : !FloatRepr} `{FR : !FloatRead} `{KS : KeyValueStore} {KL : KeyValueStoreLaws}.
Context (organization_id user_id : UUID) (agent_name session_id : pystr) (ttl_seconds : Z).
Context (Httl : 1 ≤ ttl_seconds).

Abbreviation K := (session_key organization_id user_id agent_name session_id) (only parsing).
Abbreviation load' := (load organization_id user_id agent_name session_id) (only parsing).
Abbreviation current' := (current organization_id user_id agent_name session_id) (only parsing).

Definition run_op (now : Instant) (op : session_op) : KV unit :=
  match op with
  | Searched q => remember_query organization_id user_id agent_name session_id ttl_seconds now q
  | Captured i vs => remember_snapshot organization_id user_id agent_name session_id ttl_seconds now i vs
  end.

(** The store holds [m] under the session's key until [e]. *)
Definition holds (m : memory) (e : Z) (s : kv) : Prop :=
  ∃ b kvs, live_entry s K = Some (b, e) ∧ loads_bytes b = Ok (JObj kvs) ∧ represents m kvs.

Definition holds_or_empty (m : memory) (s : kv) : Prop :=
  m = nothing ∧ live_entry s K = None ∨ ∃ e, holds m e s.

Lemma load_holds m s : holds_or_empty m s → kv_up s = true →
  ∃ kvs s1, load' s = (Ok kvs, s1) ∧ represents m kvs ∧ kv_clock s1 = kv_clock s ∧ kv_up s1 = true.
Proof.
  intros H Hu. destruct (get_spec K s) as (s1 & Hg & _ & Hc & Hup).
  assert (E : store_get K s = (Ok (option_map fst (live_entry s K)), s1)).
  { rewrite (as_memory_up _ _ s (get_law K) Hu). exact Hg. }
  assert (Hu1 : kv_up s1 = true) by congruence.
  unfold load. destruct H as [[-> Hl]|(e & b & kvs & Hl & Hb & Hr)]; rewrite Hl in E; cbn [option_map fst] in E.
  - exists [], s1. erewrite st_bind_eq by exact E. split; [done|]. split; [apply represents_nothing|done].
  - exists kvs, s1. erewrite st_bind_eq by exact E. cbv beta iota.
    erewrite st_bind_eq; [|apply lift_ok; by split].
    split; [done|done].
Qed.

Lemma save_holds now data m s : represents m (put_field (py "updated_at") (JStr (utc_iso now)) data) →
  kv_up s = true → ∃ s1, save_session organization_id user_id agent_name session_id ttl_seconds now data s = (Ok (), s1) ∧
    holds m (kv_clock s + ttl_seconds * 1000) s1 ∧ kv_clock s1 = kv_clock s.
Proof.
  intros Hr Hu. destruct (json_bytes_loads _ (rep_plain _ _ Hr)) as (b & Hb & Hl).
  exists (with_data (<[K := (b, kv_clock s + ttl_seconds * 1000)]>) s). unfold save_session.
  erewrite st_bind_eq; [|by apply lift_ok].
  pose proof (as_memory_up _ _ s (set_law K b (ttl_seconds * 1000) false ltac:(lia)) Hu) as E.
  rewrite set_spec in E. erewrite st_bind_eq by exact E. split; [done|]. split; [|done].
  exists b, (put_field (py "updated_at") (JStr (utc_iso now)) data). split; [|done].
  rewrite live_entry_insert. by rewrite (proj2 (Z.leb_gt _ _)) by lia.
Qed.

(** Each operation does to the store what [remember] does to the memory. *)
Lemma op_refines now op m s : holds_or_empty m s → kv_up s = true → is_instant now → op_ok op →
  ∃ s1, run_op now op s = (Ok (), s1) ∧ holds (remember now op m) (kv_clock s + ttl_seconds * 1000) s1 ∧
    kv_clock s1 = kv_clock s.
Proof.
  intros H Hu Hnow Hop. destruct (load_holds m s H Hu) as (kvs & s1 & E & Hr & Hc & Hu1).
  destruct op as [q|i vs]; cbn [run_op].
  - destruct (save_holds now _ _ s1 (represents_search m kvs now q Hr Hnow Hop) Hu1) as (s2 & Hs & Hh & Hc2).
    exists s2. rewrite Hc in Hh, Hc2. split; [|done]. unfold remember_query, unless_available.
    erewrite st_bind_eq by exact E. erewrite st_bind_eq; [|apply lift_ok; split; [by apply queries_field|done]].
    cbv zeta. by rewrite Hs.
  - destruct Hop as [Hi Hvs].
    destruct (save_holds now _ _ s1 (represents_capture m kvs now i vs Hr Hnow Hi Hvs) Hu1) as (s2 & Hs & Hh & Hc2).
    exists s2. rewrite Hc in Hh, Hc2. split; [|done]. unfold remember_snapshot, unless_available.
    erewrite st_bind_eq by exact E. by rewrite Hs.
Qed.

Lemma current_holds m s : holds_or_empty m s → kv_up s = true →
  ∃ s1, current' s = (Ok (context_of session_id m), s1).
Proof.
  intros H Hu. destruct (load_holds m s H Hu) as (kvs & s1 & E & Hr & _ & _). exists s1. unfold current.
  erewrite st_bind_eq by exact E. pose proof Hr as [_ Hl Hv Hq Hup Hid _ Hi].
  assert (Huid : ∀ u, is_uuid u → read_uuid (JStr (uuid_str u)) = Ok u) by (intros u Hu'; by apply uuid_of_text_str).
  erewrite st_bind_eq.
  2:{ apply lift_ok. split; [|done]. instantiate (1 := option_map fst (mm_snapshot m)). rewrite Hl.
      destruct (mm_snapshot m) as [[i vs]|]; [|done]. cbn [option_map fst read_opt].
      rewrite Huid by (by destruct (Hid i vs eq_refl)). done. }
  erewrite st_bind_eq.
  2:{ apply lift_ok. split; [|done].
      instantiate (1 := match mm_snapshot m with Some (_, vs) => vs | None => [] end). unfold list_field. rewrite Hv.
      destruct (mm_snapshot m) as [[i vs]|]; [|done]. cbn [option_map snd mbind result_bind].
      destruct (Hid i vs eq_refl) as [_ Hvs]. clear -Hvs Huid.
      induction Hvs as [|v vs Hv _ IH]; [done|]. cbn [map mapR]. rewrite Huid, IH by done. done. }
  erewrite st_bind_eq; [|apply lift_ok; split; [by apply queries_field|done]].
  erewrite st_bind_eq.
  2:{ apply lift_ok. split; [|done]. instantiate (1 := mm_updated m). rewrite Hup.
      destruct (mm_updated m) as [t|]; [|done]. cbn [option_map read_opt read_instant].
      rewrite read_utc_iso_ok by by apply Hi. done. }
  done.
Qed.

Lemma run_op_keeps key now op : key ≠ K →
  respects (keeps key) (run_op now op).
Proof.
  intros Hk. destruct op as [q|i vs]; cbn [run_op]; unfold remember_query, remember_snapshot, load, save_session;
    respects ltac:(first [apply respects_unless
      | apply command_respects; intros ?; apply get_keeps
      | apply command_respects; intros ?; apply set_other_keeps; [done|lia]]).
Qed.

End refinement.

(** A key determines its session, among ids of one length. *)
Lemma session_key_inj o u a i o' u' a' i' : is_uuid o → is_uuid u → is_uuid o' → is_uuid u' → length i = length i' →
  session_key o u a i = session_key o' u' a' i' → o = o' ∧ u = u' ∧ a = a' ∧ i = i'.
Proof.
  intros Ho Hu Ho' Hu' Hi H. unfold session_key in H. apply app_inj_length in H as [_ H]; [|done].
  apply app_inj_length in H as [E1 H]; [|by rewrite !length_uuid_str]. apply uuid_str_inj in E1; [|done|done].
  apply app_inj_length in H as [_ H]; [|done]. apply app_inj_length in H as [E2 H]; [|by rewrite !length_uuid_str].
  apply uuid_str_inj in E2; [|done|done]. apply app_inj_length in H as [_ H]; [|done].
  apply app_inj_2 in H as [E3 H]; [|by rewrite !length_app, Hi]. injection H as E4. done.
Qed.

Section sessions.
Context `{FP : !FloatRepr} `{FR : !FloatRead} `{KS : KeyValueStore} {KL : KeyValueStoreLaws}.
Context (organization_id user_id : UUID) (agent_name session_id : pystr) (ttl_seconds : Z).
Context (Httl : 1 ≤ ttl_seconds) (Horg : is_uuid organization_id) (Huser : is_uuid user_id).

Abbreviation K := (session_key organization_id user_id agent_name session_id) (only parsing).
Abbreviation run_op' := (run_op organization_id user_id agent_name session_id ttl_seconds) (only parsing).

(** What happens to the store besides the session: time, outages, the sessions of other
    agents, and whatever leaves a living entry of the session alone. *)
Inductive elsewhere (s : kv) : kv → Prop :=
  | el_time t : kv_clock s ≤ t → elsewhere s (at_time t s)
  | el_outage up : elsewhere s {| kv_data := kv_data s; kv_clock := kv_clock s; kv_up := up |}
  | el_session o u a i ttl now op : 1 ≤ ttl → is_uuid o → is_uuid u → length i = length session_id →
      (o, u, a, i) ≠ (organization_id, user_id, agent_name, session_id) →
      elsewhere s (run_op o u a i ttl now op s).2
  | el_other s' : keeps K s s' → elsewhere s s'.

Lemma elsewhere_keeps s s' : rtc elsewhere s s' → keeps K s s'.
Proof.
  induction 1 as [s|s s1 s2 H _ IH]; [reflexivity|]. etransitivity; [|exact IH].
  destruct H as [t Ht|up|o u a i ttl now op Ht Ho Hu Hi Hne|s' H]; [by apply keeps_later|by apply same_entry_keeps| |done].
  apply (respects_snd (keeps K) _ s), run_op_keeps; [done|]. intros E. apply Hne.
  apply session_key_inj in E as (-> & -> & -> & ->); done.
Qed.

(** The calls of one session, each within the time to live of the one before. *)
Inductive session : list (Instant * session_op) → kv → Prop :=
  | first_call now op s : live_entry s K = None → kv_up s = true → is_instant now → op_ok op →
      session [(now, op)] (run_op' now op s).2
  | next_call ops now op s1 s2 : session ops s1 → rtc elsewhere s1 s2 →
      kv_clock s2 < kv_clock s1 + ttl_seconds * 1000 → kv_up s2 = true → is_instant now → op_ok op →
      session (ops ++ [(now, op)]) (run_op' now op s2).2.

Definition recalled (ops : list (Instant * session_op)) : memory :=
  fold_left (λ m x, remember x.1 x.2 m) ops nothing.

Lemma session_holds ops s : session ops s →
  holds organization_id user_id agent_name session_id (recalled ops) (kv_clock s + ttl_seconds * 1000) s.
Proof.
  induction 1 as [now op s Hl Hu Hnow Hop|ops now op s1 s2 _ IH Hs Hc Hu Hnow Hop].
  - destruct (op_refines organization_id user_id agent_name session_id ttl_seconds Httl now op nothing s)
      as (s3 & E & Hh & Hc); [by left|done|done|done|]. rewrite E. cbn [snd]. by rewrite Hc.
  - destruct IH as (b & kvs & Hl & Hb & Hr). destruct (elsewhere_keeps _ _ Hs) as [_ Hk].
    destruct (op_refines organization_id user_id agent_name session_id ttl_seconds Httl now op (recalled ops) s2)
      as (s3 & E & Hh & Hc3); [|done|done|done|].
    { right. eexists _, b, kvs. split; [by apply Hk|done]. }
    rewrite E. cbn [snd]. rewrite Hc3. unfold recalled. by rewrite fold_left_app.
Qed.

(** The session state refines what a session should remember.  However the calls of
    a session (searches and captured snapshots) are interleaved with time, outages and
    the sessions of other agents, as long as each comes within the time to live of the
    one before, [current] returns the last captured snapshot with its versions and the
    ten latest distinct queries, newest first; no other agent's session shows in it. *)
Theorem session_remembers_its_own ops s s' :
  session ops s → rtc elsewhere s s' → kv_clock s' < kv_clock s + ttl_seconds * 1000 → kv_up s' = true →
  ∃ s2, current organization_id user_id agent_name session_id s'
    = (Ok (context_of session_id (recalled ops)), s2).
Proof.
  intros (b & kvs & Hl & Hb & Hr)%session_holds Hs Hc Hu. destruct (elsewhere_keeps _ _ Hs) as [_ Hk].
  apply current_holds; [|done]. right. eexists _, b, kvs. split; [by apply Hk|done].
Qed.

End sessions.
