(* ===== verification/AgentAccess.v ===== *)
(** What an agent can do: from the registration of a client through its token to the
    tenant context of a request.  An agent acts inside its organization, with no scope
    and no privacy class that its row does not allow, until it is revoked. *)

From S2P Require Import Prelude PyStr Json Canonical Regex Validation Access Temporal Database Schema.
From S2P Require Import Calendar Parsing Base64 Accounts Secrets Tokens AgentClients Authentication.

(** * Rows that were just inserted *)

Lemma inserted_alone {A} (p : A → bool) l x :
  (∀ y, y ∈ l → p y = false) → p x = true → where_ p (l ++ [x]) = [x].
Proof.
  intros Hl Hx. rewrite where_app. cbn. rewrite Hx.
  replace (where_ p l) with (@nil A); [done|]. symmetry. induction l as [|y l IH]; [done|].
  cbn. rewrite (Hl y) by (by left). apply IH. intros z Hz. apply Hl. by right.
Qed.

Lemma find_where {A} (p : A → bool) l : List.find p l = head (where_ p l).
Proof. induction l as [|x l IH]; [done|]. cbn. by destruct (p x). Qed.

(** Two rows that may be in a table together differ on every unique key. *)
Lemma compatible_differ t (a b : row t) (same : bool) name :
  compatible t a b = Ok () → uq same name ∈ pair_checks t a b → same = false.
Proof. intros Hc Hin. apply negb_true_iff. exact (checks_in _ _ _ Hc Hin). Qed.

(** * The bearer header *)

Section header.
Context `{UD : !UnicodeData} `{JW : !Jwt} {JL : JwtLaws}.

Definition bearer (token : pystr) : pystr := py "Bearer " ++ token.

Lemma bearer_token_text token : token ≠ [] → forallb (λ c, negb (is_space c)) token = true →
  bearer_token (bearer token) = Some token.
Proof.
  intros Hne Ht. unfold bearer_token. change (partition_on 32 (bearer token)) with (py "Bearer", token).
  cbv beta iota. change (lower (py "Bearer")) with (py "bearer"). rewrite bool_decide_eq_true_2 by reflexivity.
  rewrite bool_decide_eq_false_2 by done. cbn [negb orb]. by rewrite strip_nonspace.
Qed.

Lemma authenticate_bearer tokens settings now token user_header :
  token ≠ [] → forallb (λ c, negb (is_space c)) token = true →
  authenticate tokens settings now {| rq_authorization := Some (bearer token); rq_user_id := user_header |}
  = match verify tokens now token with
    | Ok claims => Ok (principal_of claims)
    | Err (InvalidTokenError _) => Err (AuthenticationRequiredError "invalid or expired access token")
    | Err e => Err e
    end.
Proof.
  intros Hne Ht. unfold authenticate. cbn [rq_authorization].
  change (sent (Some (bearer token))) with (Some (bearer token)). cbv beta iota.
  by rewrite bearer_token_text.
Qed.

End header.

(** * The tenant context *)

Section tenant.
Context `{JW : !Jwt}.

Lemma is_active_ok i b d d' : is_active i d = (Ok b, d') → d' = d ∧
  (b = true → ∃ c, c ∈ tab d AgentClients ∧ ac_id c = i ∧ ac_revoked_at c = None).
Proof.
  unfold is_active. intros H. minv. apply (select_ok AgentClients) in H as [-> ->]. split; [done|].
  destruct (where_ _ _) as [|c cs] eqn:E; [done|]. intros Hr%bool_decide_eq_true. exists c.
  pose proof (list_elem_of_here c cs) as Hc. rewrite <-E in Hc.
  apply elem_of_where_ in Hc as [Hi%Z.eqb_eq Hc]. done.
Qed.

Lemma resolve_tenant_ok org i ctx d d' : resolve_tenant org i d = (Ok ctx, d') →
  d' = d ∧ current_role d org i (ctx_role ctx) ∧ ctx_organization_id ctx = org ∧ ctx_user_id ctx = i.
Proof.
  unfold resolve_tenant. intros H. minv. apply user_get_ok in H as [-> ->].
  match goal with H : MembershipRepository.get _ _ _ = _ |- _ => apply membership_get_ok in H as [Hm ->] end.
  case_match; [|by minv]. apply one_or_none_ok in Hm.
  destruct (is_active_user _) eqn:Ea; cbn [negb] in *; [|by minv]. minv.
  split_and!; [done|split; [done|by eexists]|done|done].
Qed.

Lemma get_tenant_ok others org pr ctx d d' : get_tenant others org pr d = (Ok ctx, d') →
  d' = others d ∧ current_role d' org (pr_user_id pr) (ctx_role ctx) ∧
  (∀ o, pr_organization_id pr = Some o → o = org) ∧
  (∀ a, pr_agent_client_id pr = Some a → ctx_role ctx ≠ ADMIN ∧
    ∃ c, c ∈ tab d AgentClients ∧ ac_id c = a ∧ ac_revoked_at c = None) ∧
  ctx_organization_id ctx = org ∧ ctx_user_id ctx = pr_user_id pr ∧ ctx_scopes ctx = pr_scopes pr ∧
  ctx_max_privacy_scope ctx = pr_max_privacy_scope pr ∧ ctx_agent_client_id ctx = pr_agent_client_id pr.
Proof.
  unfold get_tenant. intros H. minv. cbn [ctx_organization_id ctx_user_id ctx_scopes ctx_max_privacy_scope
    ctx_agent_client_id ctx_role] in *.
  match goal with H : resolve_tenant _ _ _ = _ |- _ => apply resolve_tenant_ok in H as (-> & Hr & Ho & Hu) end.
  match goal with H : negb _ = true |- _ => rename H into Hrole end.
  match goal with H : match pr_organization_id pr with _ => _ end = true |- _ => rename H into Horg end.
  destruct (pr_agent_client_id pr) as [a|]; minv.
  - match goal with H : is_active _ _ = _ |- _ => apply is_active_ok in H as (-> & Ha) end.
    rewrite bool_decide_eq_true_2 in Hrole by done. cbn in Hrole.
    apply negb_true_iff, bool_decide_eq_false in Hrole.
    split_and!; try done; [intros o Eo; rewrite Eo in Horg; by apply Z.eqb_eq|].
    intros a' [= <-]. split; [done|]. by apply Ha.
  - split_and!; try done. intros o Eo. rewrite Eo in Horg. by apply Z.eqb_eq.
Qed.

End tenant.

(** * The exchange *)

Section exchange.
Context `{UD : !UnicodeData} `{SC : !Scrypt} `{JW : !Jwt} {JL : JwtLaws}.

Lemma issue_text s subject u org scopes privacy now tid token expires :
  issue s subject u org scopes privacy now tid = Ok (token, expires) →
  token ≠ [] ∧ forallb (λ c, negb (is_space c)) token = true ∧ expires = now + ts_ttl s.
Proof. unfold issue. intros H. minv. by edestruct jwt_encode_text. Qed.

Lemma subset_elem a b p : subset a b = true → p ∈ a → p ∈ b.
Proof. unfold subset. rewrite forallb_forall. intros H Hp. apply list_elem_of_In, H in Hp. by apply bool_decide_eq_true in Hp. Qed.

Lemma permissions_of_elem texts ps p : permissions_of texts = Ok ps → p ∈ ps → permission_text p ∈ texts.
Proof.
  unfold permissions_of. intros H Hp. minv. rewrite elem_of_dict_fromkeys in Hp.
  match goal with H : mapR _ _ = Ok _ |- _ => apply mapR_ok in H as Hf end.
  apply list_elem_of_lookup in Hp as [i Hi]. destruct (Forall2_lookup_r _ _ _ _ _ Hf Hi) as (t & Ht & Et).
  apply list_elem_of_lookup. exists i. rewrite Ht. f_equal. unfold permission_of_text in Et.
  case_match eqn:E; [|done]. injection Et as ->. apply find_some in E as [_ E]. by apply bool_decide_eq_true in E.
Qed.

Lemma granted_within allowed requested granted p :
  granted_scopes allowed requested = Ok granted → p ∈ granted → p ∈ allowed.
Proof.
  unfold granted_scopes. destruct requested as [[|c text]|]; [naive_solver| |naive_solver].
  destruct (scopes_of_text _) as [r|[]] eqn:E; try done. destruct (subset r allowed) eqn:Es; [|done].
  intros [= ->]. by apply subset_elem.
Qed.

(** What a successful exchange rests on. *)
Lemma exchange_ok tokens client_id secret requested salt now tid d issued d1 :
  exchange tokens client_id secret requested salt now tid d = (Ok issued, d1) →
  d1 = d ∧ ∃ c allowed granted expires, c ∈ tab d AgentClients ∧ ac_client_id c = client_id ∧
    ac_revoked_at c = None ∧ verify_secret secret (ac_secret_hash c) = Ok true ∧
    permissions_of (ac_allowed_scopes c) = Ok allowed ∧ granted_scopes allowed requested = Ok granted ∧
    issue tokens (subject_text (Some (ac_id c)) (ac_service_user_id c)) (ac_service_user_id c)
      (Some (ac_organization_id c)) (Some granted) (Some (ac_privacy_ceiling c)) now tid
    = Ok (it_access_token issued, expires).
Proof.
  unfold exchange. intros H. minv.
  match goal with H : select _ _ _ = _ |- _ => apply (select_ok AgentClients) in H as [-> ->] end. split; [done|].
  match goal with H : issue_for _ _ _ _ _ _ _ = _ |- _ => rename H into Hi end.
  destruct (where_ _ _) as [|c cs] eqn:E; cbn [head] in Hi; unfold issue_for in Hi; minv.
  { by match goal with H : match (if ?b then _ else _) with _ => _ end = _ |- _ => destruct b end. }
  match goal with H : verify_secret _ _ = Ok ?b |- _ => destruct b; [rename H into Hv|done] end. minv.
  match goal with H : bool_decide _ = true |- _ => apply bool_decide_eq_true in H end.
  match goal with H : issue _ _ _ _ _ _ _ _ = Ok ?r |- _ => destruct r as [token expires] end.
  pose proof (list_elem_of_here c cs) as Hc. rewrite <-E in Hc.
  apply elem_of_where_ in Hc as [Hi%bool_decide_eq_true Hc]. eexists c, _, _, expires. done.
Qed.

Definition client_uuids (c : agent_client) : Prop :=
  is_uuid (ac_id c) ∧ is_uuid (ac_service_user_id c) ∧ is_uuid (ac_organization_id c).

(** The principal of a token that was issued for a client. *)
Definition agent_principal (c : agent_client) (granted : list Permission) : Principal := {|
  pr_user_id := ac_service_user_id c; pr_organization_id := Some (ac_organization_id c);
  pr_scopes := Some (dict_fromkeys (sort_by permission_leb granted));
  pr_max_privacy_scope := Some (ac_privacy_ceiling c); pr_agent_client_id := Some (ac_id c) |}.

Lemma authenticate_issued tokens settings c granted now tid token expires later user_header :
  trusts_own_key tokens → client_uuids c →
  issue tokens (subject_text (Some (ac_id c)) (ac_service_user_id c)) (ac_service_user_id c)
    (Some (ac_organization_id c)) (Some granted) (Some (ac_privacy_ceiling c)) now tid = Ok (token, expires) →
  expiry_ok (now + ts_ttl tokens) → token_live now (ts_ttl tokens) later →
  authenticate tokens settings later {| rq_authorization := Some (bearer token); rq_user_id := user_header |}
  = Ok (agent_principal c granted).
Proof.
  intros Hk (Hi & Hu & Ho) He Hx Hl. destruct (issue_text _ _ _ _ _ _ _ _ _ _ He) as (Hne & Ht & ->).
  rewrite authenticate_bearer by done. by rewrite (verify_issued tokens (Some (ac_id c)) _ (Some (ac_organization_id c)) _ _ _ _ _ _ _ Hk Hu Hi Ho He Hx Hl).
Qed.

(** C2. An agent acts inside its client: the token that an exchange gives out, while it
    lives, authenticates as the service user of the client, and wherever that principal
    becomes a tenant context, the organization is the client's, the client is not
    revoked, the role is the current one and not ADMIN, every permission that any check
    grants is among the client's scopes, and no privacy class above its ceiling is
    visible. *)
Theorem agent_acts_within_its_client tokens client_id secret requested salt now tid d issued d1
    settings later user_header :
  trusts_own_key tokens → (∀ c, c ∈ tab d AgentClients → client_uuids c) →
  exchange tokens client_id secret requested salt now tid d = (Ok issued, d1) →
  expiry_ok (now + ts_ttl tokens) → token_live now (ts_ttl tokens) later →
  ∃ c principal, c ∈ tab d AgentClients ∧ ac_client_id c = client_id ∧ ac_revoked_at c = None ∧
    verify_secret secret (ac_secret_hash c) = Ok true ∧
    authenticate tokens settings later
      {| rq_authorization := Some (bearer (it_access_token issued)); rq_user_id := user_header |} = Ok principal ∧
    ∀ others organization_id ctx d2 d3,
      get_tenant others organization_id principal d2 = (Ok ctx, d3) →
      organization_id = ac_organization_id c ∧ ctx_organization_id ctx = ac_organization_id c ∧
      ctx_agent_client_id ctx = Some (ac_id c) ∧
      (∃ c2, c2 ∈ tab d2 AgentClients ∧ ac_id c2 = ac_id c ∧ ac_revoked_at c2 = None) ∧
      current_role d3 (ac_organization_id c) (ac_service_user_id c) (ctx_role ctx) ∧ ctx_role ctx ≠ ADMIN ∧
      (∀ p role d4 d5, require_permission ctx p d4 = (Ok role, d5) →
         permission_text p ∈ ac_allowed_scopes c ∧ has_permission role p = true) ∧
      (∀ role s, s ∈ visible_privacy_scopes role [ctx_max_privacy_scope ctx] →
         (privacy_index s ≤ privacy_index (ac_privacy_ceiling c))%nat).
Proof.
  intros Hk Hids Hx He Hl.
  destruct (exchange_ok _ _ _ _ _ _ _ _ _ _ Hx) as (_ & c & allowed & granted & expires & Hc & Hcid & Hr & Hv & Hp & Hg & Hi).
  exists c, (agent_principal c granted). split_and!; try done.
  { eapply authenticate_issued; [done|by apply Hids|exact Hi|done|done]. }
  intros others org ctx d2 d3 Ht. destruct (get_tenant_ok _ _ _ _ _ _ Ht) as (-> & Hrole & Horg & Ha & Eo & Eu & Es & Em & Ea).
  cbn [agent_principal pr_user_id pr_organization_id pr_scopes pr_max_privacy_scope pr_agent_client_id] in *.
  pose proof (Horg _ eq_refl) as <-. destruct (Ha _ eq_refl) as [Hadmin Hc2]. split_and!; try done.
  - intros p role d4 d5 (_ & _ & Hh & Hs)%require_permission_ok. split; [|done].
    rewrite Es in Hs. cbn in Hs. rewrite bool_decide_eq_true, elem_of_scopes in Hs.
    eapply permissions_of_elem; [exact Hp|]. exact (granted_within _ _ _ _ Hg Hs).
  - intros role s Hs. rewrite Em in Hs. unfold visible_privacy_scopes in Hs.
    apply elem_of_visible_order in Hs. cbn [narrow] in Hs. lia.
Qed.

(** * A registered client can act *)

Lemma elem_of_where_not {A} (p : A → bool) l : where_ p l = [] → ∀ y, y ∈ l → p y = false.
Proof.
  intros E y Hy. destruct (p y) eqn:Ep; [|done]. assert (H : y ∈ where_ p l) by (by apply elem_of_where_).
  rewrite E in H. by apply elem_of_nil in H.
Qed.

(** What registration adds to the database: one user, one membership, one client, each
    alone under its keys. *)
Record registered (ctx : TenantContext) (name : pystr) (role : MembershipRole) (allowed : list Permission)
    (ceiling : PrivacyScope) (client_id : pystr) (c : agent_client) (d : db) : Prop := {
  rg_organization : ac_organization_id c = ctx_organization_id ctx;
  rg_client_id : ac_client_id c = client_id;
  rg_scopes : ac_allowed_scopes c = map permission_text allowed;
  rg_ceiling : ac_privacy_ceiling c = ceiling;
  rg_unrevoked : ac_revoked_at c = None;
  rg_user : ∃ u, where_ (λ u, u_id u =? ac_service_user_id c) (tab d Users) = [u] ∧ u_is_active u = true;
  rg_membership : ∃ m, where_ (MembershipRepository.mine (ac_organization_id c) (ac_service_user_id c))
    (tab d Memberships) = [m] ∧ m_role m = role;
  rg_client : where_ (λ c', bool_decide (ac_client_id c' = ac_client_id c)) (tab d AgentClients) = [c];
  rg_client_by_id : where_ (λ c', ac_id c' =? ac_id c) (tab d AgentClients) = [c];
}.

Lemma tab_bump d t : tab (bump d) t = tab d t.
Proof. done. Qed.

Lemma insert_alone t (x : row t) d d' u (p : row t → bool) name :
  outbox t = false → exec_insert t x d = (Ok u, d') → p x = true →
  (∀ y, uq (p y) name ∈ pair_checks t y x) → where_ p (tab d' t) = [x].
Proof.
  intros Ho H Hx Hp. destruct (exec_insert_ok _ _ _ _ _ Ho H) as (Hc & _ & ->).
  apply insert_checks_ok in Hc as [_ Hc]. apply inserted_alone; [|done].
  intros y Hy. exact (compatible_differ _ _ _ _ _ (Hc y Hy) (Hp y)).
Qed.

Lemma insert_client_ok ctx name role allowed ceiling salt client_id secret d c d' :
  insert_client ctx name role allowed ceiling salt client_id secret d = (Ok c, d') →
  hash_secret salt secret = Ok (ac_secret_hash c) ∧
  registered ctx name role allowed ceiling client_id c d'.
Proof.
  unfold insert_client, MembershipRepository.new. intros H. minv.
  repeat match goal with
  | H : require_permission _ _ _ = _ |- _ => apply require_permission_ok in H as (-> & _)
  | H : fresh_id _ = _ |- _ => apply fresh_id_ok in H as [-> ->]
  end.
  match goal with H : exec_insert Users _ _ = _ |- _ => rename H into Hu end.
  match goal with H : exec_insert Memberships _ _ = _ |- _ => rename H into Hm end.
  match goal with H : exec_insert AgentClients _ _ = _ |- _ => rename H into Hc end.
  destruct (exec_insert_ok Memberships _ _ _ _ eq_refl Hm) as (_ & Fm & _).
  destruct (exec_insert_ok AgentClients _ _ _ _ eq_refl Hc) as (_ & Fc & _).
  split; [done|]. split; try done.
  - eexists. rewrite (frame_tab_other _ _ _ Users Fc), tab_bump, (frame_tab_other _ _ _ Users Fm), tab_bump by set_solver.
    split; [apply (insert_alone Users _ _ _ _ _ "pk_users" eq_refl Hu)|done]; cbn; [apply Z.eqb_refl|].
    intros y. left.
  - eexists. rewrite (frame_tab_other _ _ _ Memberships Fc), tab_bump by set_solver.
    split; [apply (insert_alone Memberships _ _ _ _ _
      "uq_organization_memberships_organization_id_user_id" eq_refl Hm)|done].
    + unfold MembershipRepository.mine. cbn. by rewrite !Z.eqb_refl.
    + intros y. right. left.
  - apply (insert_alone AgentClients _ _ _ _ _ "uq_agent_clients_client_id" eq_refl Hc).
    + by apply bool_decide_eq_true_2.
    + intros y. right. left.
  - apply (insert_alone AgentClients _ _ _ _ _ "pk_agent_clients" eq_refl Hc); [apply Z.eqb_refl|].
    intros y. left.
Qed.

Lemma validate_scopes_ok role scopes allowed : validate_scopes role scopes = Ok allowed →
  allowed = sort_by permission_leb (dict_fromkeys scopes) ∧ ∀ p, p ∈ scopes → has_permission role p = true.
Proof.
  unfold validate_scopes. destruct (dict_fromkeys scopes) as [|q ps] eqn:E; [done|].
  destruct (subset _ _) eqn:Es; [|done]. intros [= <-]. split; [done|].
  intros p Hp. apply bool_decide_eq_true_2. eapply subset_elem; [exact Es|]. rewrite <-E. by apply elem_of_dict_fromkeys.
Qed.

Lemma permissions_of_texts ps : permissions_of (map permission_text ps) = Ok (dict_fromkeys ps).
Proof. unfold permissions_of. by rewrite mapR_permissions. Qed.

Lemma create_ok ctx name role scopes ceiling random d created d1 :
  create ctx name role scopes ceiling random d = (Ok created, d1) →
  role ∈ AGENT_ROLES ∧ ∃ clean allowed, validate_scopes role scopes = Ok allowed ∧
  cac_client_secret created = new_client_secret (dr_secret random) ∧
  hash_secret (dr_salt random) (cac_client_secret created) = Ok (ac_secret_hash (cac_client created)) ∧
  registered ctx clean role allowed ceiling (new_client_id (dr_id random)) (cac_client created) d1.
Proof.
  unfold create. intros H. minv.
  match goal with H : insert_client _ _ _ _ _ _ _ _ _ = _ |- _ => apply insert_client_ok in H as [Hh Hr] end.
  match goal with H : bool_decide _ = true |- _ => apply bool_decide_eq_true in H end.
  split; [done|]. by eexists _, _.
Qed.

(** A fresh secret is ASCII text, and verifies against its own hash. *)
Lemma encode_secret bytes : forallb is_byte bytes = true →
  encode_utf8 (new_client_secret bytes) = Ok (new_client_secret bytes).
Proof.
  intros H. apply encode_utf8_ascii. unfold new_client_secret. apply Forall_app. split; [by repeat constructor|].
  apply Forall_forall. intros c Hc. pose proof (forallb_elem _ _ _ (b64_text UrlSafe _ H) Hc) as Ht.
  unfold b64_text_char, is_ascii in Ht. rewrite !andb_true_iff, !Z.leb_le in Ht. lia.
Qed.

Lemma verify_own `{SL : !ScryptLaws} salt bytes stored : forallb is_byte salt = true → forallb is_byte bytes = true →
  hash_secret salt (new_client_secret bytes) = Ok stored → verify_secret (new_client_secret bytes) stored = Ok true.
Proof.
  intros Hs Hb Hh. pose proof (encode_secret bytes Hb) as He.
  destruct (hash_secret_ok salt _ _ He) as (digest & Hd & Hdb & E). rewrite Hh in E. injection E as ->.
  rewrite (verify_hashed salt _ _ digest Hs Hd Hdb He), He, Hd. cbn [mbind result_bind].
  by rewrite bool_decide_eq_true_2.
Qed.

(** The key of the service signs. *)
Definition can_sign (s : TokenService) : Prop :=
  ∀ claims, ∃ token, jwt_encode claims (ts_private_key s) ALGORITHM (ts_key_id s) = Ok token.

Lemma current_role_registered ctx name role allowed ceiling cid c d :
  registered ctx name role allowed ceiling cid c d →
  current_role d (ac_organization_id c) (ac_service_user_id c) role.
Proof.
  intros [_ _ _ _ _ (u & Hu & Ha) (m & Hm & Hr) _ _]. split; [|by exists m].
  by rewrite find_where, Hu.
Qed.

Lemma resolve_tenant_eq org i role d : current_role d org i role →
  resolve_tenant org i d = (Ok {| ctx_organization_id := org; ctx_user_id := i; ctx_role := role;
    ctx_scopes := None; ctx_max_privacy_scope := None; ctx_agent_client_id := None |}, d).
Proof.
  intros (Ha & m & Hm & <-). unfold resolve_tenant. apply transaction_ok.
  erewrite st_bind_eq; [|by apply user_get_ok].
  erewrite st_bind_eq; [|by apply membership_get_eq]. by rewrite Ha.
Qed.

Lemma select_clients (p : agent_client → bool) rows d :
  where_ p (tab d AgentClients) = rows → transaction (select AgentClients p) d = (Ok rows, d).
Proof. intros <-. apply transaction_ok, (select_ok AgentClients). done. Qed.

Lemma is_active_eq c d : where_ (λ c', ac_id c' =? ac_id c) (tab d AgentClients) = [c] →
  ac_revoked_at c = None → is_active (ac_id c) d = (Ok true, d).
Proof.
  intros Hw Hr. unfold is_active. erewrite st_bind_eq; [|exact (select_clients _ _ _ Hw)].
  cbv beta iota. by rewrite bool_decide_eq_true_2.
Qed.

Lemma get_tenant_eq c granted role d :
  current_role d (ac_organization_id c) (ac_service_user_id c) role → role ≠ ADMIN →
  where_ (λ c', ac_id c' =? ac_id c) (tab d AgentClients) = [c] → ac_revoked_at c = None →
  get_tenant id (ac_organization_id c) (agent_principal c granted) d
  = (Ok {| ctx_organization_id := ac_organization_id c; ctx_user_id := ac_service_user_id c; ctx_role := role;
           ctx_scopes := Some (dict_fromkeys (sort_by permission_leb granted));
           ctx_max_privacy_scope := Some (ac_privacy_ceiling c); ctx_agent_client_id := Some (ac_id c) |}, d).
Proof.
  intros Hr Ha Hw Hn. unfold get_tenant. cbn [agent_principal pr_user_id pr_organization_id pr_scopes
    pr_max_privacy_scope pr_agent_client_id].
  erewrite st_bind_eq; [|apply (guard_ok _ _ ()); split; [apply Z.eqb_refl|reflexivity]].
  erewrite st_bind_eq; [|erewrite st_bind_eq; [by apply (guard_ok _ _ ())|by apply is_active_eq]].
  erewrite st_bind_eq; [|by apply (modify_ok _ ())]. erewrite st_bind_eq; [|by apply resolve_tenant_eq].
  cbn [ctx_role ctx_organization_id ctx_user_id]. rewrite (bool_decide_eq_false_2 (role = ADMIN)) by done.
  rewrite andb_false_r. reflexivity.
Qed.

Lemma issue_ok s subject u org scopes privacy now tid : can_sign s →
  ∃ token, issue s subject u org scopes privacy now tid = Ok (token, now + ts_ttl s).
Proof.
  intros Hk. unfold issue. edestruct Hk as [token E]. rewrite E. by exists token.
Qed.

(** The exchange of a registered client with its own secret. *)
Lemma exchange_registered tokens ctx name role allowed ceiling cid c d secret salt now tid :
  registered ctx name role allowed ceiling cid c d → can_sign tokens →
  verify_secret secret (ac_secret_hash c) = Ok true →
  ∃ issued, exchange tokens (ac_client_id c) secret None salt now tid d = (Ok issued, d) ∧
    issue tokens (subject_text (Some (ac_id c)) (ac_service_user_id c)) (ac_service_user_id c)
      (Some (ac_organization_id c)) (Some (dict_fromkeys allowed)) (Some (ac_privacy_ceiling c)) now tid
    = Ok (it_access_token issued, now + ts_ttl tokens).
Proof.
  intros Hr Hk Hv. destruct (issue_ok tokens (subject_text (Some (ac_id c)) (ac_service_user_id c))
    (ac_service_user_id c) (Some (ac_organization_id c)) (Some (dict_fromkeys allowed))
    (Some (ac_privacy_ceiling c)) now tid Hk) as [token Hi].
  eexists {| it_access_token := token |}. split; [|exact Hi]. unfold exchange.
  erewrite st_bind_eq; [|exact (select_clients _ _ _ (rg_client _ _ _ _ _ _ _ _ Hr))]. cbn [head]. unfold issue_for. cbn [mbind result_bind].
  rewrite Hv. cbn [mbind result_bind]. rewrite (rg_unrevoked _ _ _ _ _ _ _ _ Hr), (rg_scopes _ _ _ _ _ _ _ _ Hr).
  rewrite bool_decide_eq_true_2 by done. cbn [ensure mbind result_bind]. rewrite permissions_of_texts.
  cbn [granted_scopes mbind result_bind]. cbn [subject_text] in Hi. rewrite Hi. reflexivity.
Qed.

(** C3. A registered client can act at once: the secret that [create] returns exchanges
    for a token, the token authenticates, and in the organization where the client was
    registered it becomes a tenant context with the registered role, never ADMIN, and
    the registered ceiling; a permission check then grants exactly the registered
    scopes. *)
Theorem registered_client_can_act `{SL : !ScryptLaws} ctx name role scopes ceiling random d created d1
    tokens settings salt now tid later :
  create ctx name role scopes ceiling random d = (Ok created, d1) →
  forallb is_byte (dr_secret random) = true → forallb is_byte (dr_salt random) = true →
  client_uuids (cac_client created) → trusts_own_key tokens → can_sign tokens →
  expiry_ok (now + ts_ttl tokens) → token_live now (ts_ttl tokens) later →
  ∃ issued principal ctx',
    exchange tokens (ac_client_id (cac_client created)) (cac_client_secret created) None salt now tid d1
      = (Ok issued, d1) ∧
    authenticate tokens settings later
      {| rq_authorization := Some (bearer (it_access_token issued)); rq_user_id := None |} = Ok principal ∧
    get_tenant id (ctx_organization_id ctx) principal d1 = (Ok ctx', d1) ∧
    ctx_role ctx' = role ∧ role ≠ ADMIN ∧ ctx_max_privacy_scope ctx' = Some ceiling ∧
    ctx_agent_client_id ctx' = Some (ac_id (cac_client created)) ∧
    ∀ p, require_permission ctx' p d1 = (Ok role, d1) ↔ p ∈ scopes.
Proof.
  intros Hc Hsecret Hsalt Hids Hk Hsign Hx Hl.
  destruct (create_ok _ _ _ _ _ _ _ _ _ Hc) as (Hrole & clean & allowed & Hv & Es & Hh & Hr).
  destruct (validate_scopes_ok _ _ _ Hv) as [-> Hhas]. rewrite Es in Hh |- *.
  pose proof (verify_own _ _ _ Hsalt Hsecret Hh) as Hver.
  destruct (exchange_registered tokens _ _ _ _ _ _ _ _ _ salt now tid Hr Hsign Hver) as (issued & He & Hi).
  pose proof (current_role_registered _ _ _ _ _ _ _ _ Hr) as Hcur.
  assert (Hne : role ≠ ADMIN) by (intros ->; unfold AGENT_ROLES in Hrole; set_solver).
  exists issued. eexists (agent_principal _ _), _. split_and!; [exact He| | | | | | |].
  - by eapply authenticate_issued.
  - rewrite <-(rg_organization _ _ _ _ _ _ _ _ Hr).
    apply get_tenant_eq; [exact Hcur|done|apply (rg_client_by_id _ _ _ _ _ _ _ _ Hr)|apply (rg_unrevoked _ _ _ _ _ _ _ _ Hr)].
  - done.
  - done.
  - cbn. f_equal. apply (rg_ceiling _ _ _ _ _ _ _ _ Hr).
  - done.
  - intros p. rewrite require_permission_ok. cbn [ctx_organization_id ctx_user_id ctx_scopes scopes_allow].
    rewrite bool_decide_eq_true, elem_of_scopes, elem_of_dict_fromkeys, elem_of_sort_by, elem_of_dict_fromkeys.
    naive_solver.
Qed.

End exchange.

(** * Revocation *)

Section revocation.
Context `{UD : !UnicodeData} `{SC : !Scrypt} `{JW : !Jwt} {JL : JwtLaws}.

Lemma clients_differ {K} (key : agent_client → K) name (same : agent_client → agent_client → bool) d :
  (∀ a b, uq (same a b) name ∈ pair_checks AgentClients a b) → (∀ a b, key a = key b → same a b = true) →
  consistent d → ∀ a b, a ∈ tab d AgentClients → b ∈ tab d AgentClients → key a = key b → a = b.
Proof.
  intros Hin Hsame Hc a b Ha Hb E. apply (sorted_distinct_inj key (tab d AgentClients)); [|done..].
  eapply StronglySorted_mono; [|by apply (for_pairs_ok (compatible AgentClients)), Hc].
  intros x y Hxy Exy. apply Hsame in Exy. by rewrite (compatible_differ _ _ _ _ _ Hxy (Hin x y)) in Exy.
Qed.

Lemma client_by_id d a b : consistent d → a ∈ tab d AgentClients → b ∈ tab d AgentClients →
  ac_id a = ac_id b → a = b.
Proof.
  intros Hc. apply (clients_differ ac_id "pk_agent_clients" (λ a b, ac_id a =? ac_id b)); [|by intros; apply Z.eqb_eq|done].
  intros x y. left.
Qed.

Lemma client_by_client_id d a b : consistent d → a ∈ tab d AgentClients → b ∈ tab d AgentClients →
  ac_client_id a = ac_client_id b → a = b.
Proof.
  intros Hc. apply (clients_differ ac_client_id "uq_agent_clients_client_id"
    (λ a b, bool_decide (ac_client_id a = ac_client_id b))); [|by intros; apply bool_decide_eq_true|done].
  intros x y. right. left.
Qed.

Definition revoked_in (d : db) (i : UUID) : Prop :=
  ∀ c, c ∈ tab d AgentClients → ac_id c = i → ac_revoked_at c ≠ None.

Lemma revoke_revokes ctx i now d c d' : consistent d →
  revoke ctx i now d = (Ok c, d') →
  ac_id c = i ∧ ac_organization_id c = ctx_organization_id ctx ∧ ac_revoked_at c ≠ None ∧
  revoked_in d' i ∧ ∀ c2, c2 ∈ tab d' AgentClients → ac_client_id c2 = ac_client_id c → ac_id c2 = i.
Proof.
  intros Hcons. unfold revoke. intros H. minv.
  match goal with H : require_permission _ _ _ = _ |- _ => apply require_permission_ok in H as (-> & _) end.
  match goal with H : select _ _ _ = _ |- _ => apply (select_ok AgentClients) in H as [-> ->] end.
  destruct (where_ _ _) as [|c0 cs] eqn:E; [by minv|].
  pose proof (list_elem_of_here c0 cs) as Hc. rewrite <-E in Hc.
  apply elem_of_where_ in Hc as [[Ho%Z.eqb_eq Hi%Z.eqb_eq]%andb_true_iff Hc].
  destruct (ac_revoked_at c0) as [t|] eqn:Er; minv.
  - split_and!; [done|done|by rewrite Er| |].
    + intros c2 Hc2 Hi2. by rewrite (client_by_id _ c2 c0 Hcons Hc2 Hc ltac:(congruence)), Er.
    + intros c2 Hc2 E2. by rewrite (client_by_client_id _ c2 c0 Hcons Hc2 Hc E2).
  - match goal with H : exec_update _ _ _ _ = _ |- _ => apply exec_update_ok in H as (_ & _ & T); [|done] end.
    cbn [with_revoked ac_id ac_organization_id ac_revoked_at ac_client_id]. split_and!; [done|done|done| |].
    + intros c2 Hc2 Hi2. rewrite T in Hc2. apply list_elem_of_fmap in Hc2 as (y & -> & Hy).
      destruct (Z.eqb_spec (ac_id y) (ac_id c0)) as [|Hne]; [done|]. congruence.
    + intros c2 Hc2 E2. rewrite T in Hc2. apply list_elem_of_fmap in Hc2 as (y & -> & Hy).
      assert (y = c0) as ->; [|by rewrite Z.eqb_refl in *].
      apply (client_by_client_id d); [done..|]. by destruct (ac_id y =? ac_id c0).
Qed.

Lemma is_active_revoked i d : revoked_in d i → is_active i d = (Ok false, d).
Proof.
  intros Hr. unfold is_active.
  erewrite st_bind_eq; [|exact (select_clients (λ c, ac_id c =? i) _ d eq_refl)]. cbv beta.
  destruct (where_ _ _) as [|c cs] eqn:E; [done|]. pose proof (list_elem_of_here c cs) as Hc. rewrite <-E in Hc.
  apply elem_of_where_ in Hc as [Hi%Z.eqb_eq Hc]. by rewrite bool_decide_eq_false_2 by (by apply Hr).
Qed.

(** Revocation stops an agent: [revoke] marks the client for good, no token that names
    a revoked client becomes a tenant context in any organization, and no exchange for
    it succeeds, whatever secret is presented. *)
Theorem revocation_stops_the_agent ctx i now d c d1 : consistent d →
  revoke ctx i now d = (Ok c, d1) →
  revoked_in d1 i ∧
  (∀ others organization_id principal d2, revoked_in d2 i → pr_agent_client_id principal = Some i →
     get_tenant others organization_id principal d2 = (Err NOT_A_MEMBER, d2)) ∧
  (∀ tokens secret requested salt now' tid issued d2,
     exchange tokens (ac_client_id c) secret requested salt now' tid d1 ≠ (Ok issued, d2)).
Proof.
  intros Hcons Hr. destruct (revoke_revokes _ _ _ _ _ _ Hcons Hr) as (Hi & _ & _ & Hrev & Hcid). split_and!; [done| |].
  - intros others org pr d2 Hrev2 Ha. unfold get_tenant. rewrite Ha.
    destruct (match pr_organization_id pr with Some _ => _ | None => _ end); [|by apply st_bind_err; left].
    apply st_bind_err. right. exists (), d2. split; [by apply guard_ok|].
    apply st_bind_err. left. apply st_bind_err. right. exists false, d2. split; [by apply is_active_revoked|done].
  - intros tokens secret requested salt now' tid issued d2 H.
    destruct (exchange_ok _ _ _ _ _ _ _ _ _ _ H) as (_ & c2 & _ & _ & _ & Hc2 & E2 & Hn & _).
    by apply (Hrev c2 Hc2 (Hcid c2 Hc2 E2)).
Qed.

Lemma insert_client_consistent ctx name role allowed ceiling salt client_id secret :
  respects keeps_consistent (insert_client ctx name role allowed ceiling salt client_id secret).
Proof.
  unfold insert_client, OrganizationRepository.lock.
  respects ltac:(first [apply fresh_id_consistent | by apply exec_insert_consistent
    | apply membership_new_consistent | apply require_permission_state; apply _ | apply select_respects; apply _]).
Qed.

Lemma create_consistent ctx name role scopes ceiling random :
  respects keeps_consistent (create ctx name role scopes ceiling random).
Proof. unfold create. respects ltac:(apply insert_client_consistent). Qed.

End revocation.
