(* ===== verification/RetrievalCache.v ===== *)
(** The shared cache of retrieval results: app/cache/retrieval.py, as an
    implementation of the [ResultCache] interface of Retrieval.v over the
    key-value store of Store.v. *)

From stdpp Require Import gmap.
From S2P Require Import Prelude PyStr Json Regex Validation Access Temporal History Database.
From S2P Require Import Schema Accounts FactRepo EvidenceService Canonical FactService Ledger.
From S2P Require Import TemporalService Ranking Calendar Retrieval Store.

(** Pydantic's [TypeAdapter(RetrievalResult)]. *)
Class ResultCodec `{SearchEngine} := {
  dump_result : RetrievalResult → list Z;
  validate_result : list Z → option RetrievalResult;   (* None: ValidationError *)
}.

(** What was dumped validates to itself; a bare number is not a result. *)
Class ResultCodecLaws `{ResultCodec} := {
  validate_dump : ∀ r, validate_result (dump_result r) = Some r;
  validate_number : ∀ n, validate_result (str_of_int n) = None;
}.

Section retrieval_cache.
Context `{UD : !UnicodeData} `{SO : !ScoreOps} `{SE : !SearchEngine} `{RC : !ResultCodec} `{RT : !RequestText}.
Context `{FR : !FloatRepr} `{SH : !Sha256} `{KS : KeyValueStore} (ttl_seconds : Z).

Definition GENERATION_TTL_SECONDS : Z := 7 * 24 * 3600.

Definition generation_key (org : UUID) : pystr := py "cl:retrieval:gen:" ++ uuid_str org.

Definition generation (org : UUID) : KV (option Z) :=
  unless_available (
    raw ← store_get (generation_key org);
    match raw with
    | None => mret (Some 0)
    | Some raw => n ← lift (int_of_bytes raw); mret (Some n)
    end) (mret None).

Definition invalidate (org : UUID) : KV unit :=
  unless_available (
    _ ← store_increment (generation_key org) (GENERATION_TTL_SECONDS * 1000);
    mret ()) (mret ()).

Definition opt_json {A} (f : A → json) (x : option A) : json :=
  match x with None => JNull | Some a => f a end.
Definition instant_text (value : option datetime) (default : pystr) : json :=
  JStr match value with None => default | Some v => datetime_iso v end.

(** [json.dumps(material, sort_keys=True)], hashed. *)
Definition material_json (m : cache_material) : json :=
  let fl := ck_filters m in
  JObj [
    (py "scopes", JList (map JStr (sort_by pystr_leb (map scope_text (ck_scopes m)))));
    (py "model", JStr (ck_model m));
    (py "query", JStr (ck_query m));
    (py "limit", JInt (ck_limit m));
    (py "trust_weight", JFloat (score_float (ck_trust_weight m)));
    (py "entity_type", opt_json JStr (fl_entity_type fl));
    (py "external_ids", JList (map JStr (fl_external_ids fl)));
    (py "properties", JList (map JStr (fl_properties fl)));
    (py "source_ids", JList (map (λ s, JStr (uuid_str s)) (fl_source_ids fl)));
    (py "min_authority", opt_json JInt (fl_min_authority fl));
    (py "min_confidence", opt_json (λ d, JStr (decimal_str d)) (fl_min_confidence fl));
    (py "valid_at", instant_text (ck_valid_at m) (py "now"));
    (py "known_at", instant_text (ck_known_at m) (py "latest"))].

Definition KEY_VERSION : pystr := py "v1".

Definition entry_key (org : UUID) (g : Z) (digest : pystr) : pystr :=
  py "cl:retrieval:" ++ KEY_VERSION ++ py ":" ++ uuid_str org ++ py ":" ++ str_of_int g
  ++ py ":" ++ digest.

Definition key (m : cache_material) : result pystr :=
  material ← dumps sorted_options (material_json m);
  encoded ← encode_utf8 material;
  Ok (entry_key (ck_organization_id m) (ck_generation m) (sha256_hex encoded)).

Definition get (k : pystr) : KV (option RetrievalResult) :=
  raw ← unless_available (store_get k) (mret None);
  match raw with
  | None => mret None
  | Some raw => mret (validate_result raw)
  end.

Definition put (k : pystr) (r : RetrievalResult) : KV unit :=
  unless_available (
    _ ← store_set k (dump_result r) (ttl_seconds * 1000) false;
    mret ()) (mret ()).

Definition RetrievalCache : ResultCache kv := {|
  cache_generation := generation; cache_key := key; cache_get := get; cache_put := put |}.

(** ** It keeps the interface's promises *)

Context `{KL : !KeyValueStoreLaws} `{RL : !ResultCodecLaws} (Httl : 1 ≤ ttl_seconds).

(** A result sits under a key. *)
Definition holds (s : kv) (k : pystr) (r : RetrievalResult) : Prop :=
  ∃ v e, kv_data s !! k = Some (v, e) ∧ validate_result v = Some r.

Lemma holds_delete s k0 k r : holds (with_data (delete k0) s) k r → holds s k r.
Proof.
  intros (v & e & Hl & Hv). exists v, e. split; [|done]. simpl in Hl.
  by apply lookup_delete_Some in Hl as [_ ?].
Qed.

Lemma store_get_holds k0 s x s' :
  store_get k0 s = (x, s') →
  (∀ k r, holds s' k r → holds s k r) ∧
  (∀ v, x = Ok (Some v) → ∀ r, validate_result v = Some r → holds s k0 r).
Proof using KL.
  intros H.
  assert (Hm : ∀ k r, holds (MemoryStore.get k0 s).2 k r → holds s k r).
  { unfold MemoryStore.get, mbind, st_bind. rewrite live_spec.
    destruct (live_entry s k0); [done|]. intros k r. apply holds_delete. }
  destruct (as_memory_failed _ _ s (get_law k0)) as [E|(s1 & _ & E & Hs1)]; rewrite E in H.
  2:{ injection H as <- <-. split; [|done]. destruct Hs1 as [-> | ->]; [done|exact Hm]. }
  split; [by rewrite H in Hm|].
  unfold MemoryStore.get, mbind, st_bind in H. rewrite live_spec in H.
  destruct (live_entry s k0) as [[v e]|] eqn:El; unfold mret, st_ret in H; injection H as <- <-; [|done].
  intros v' [= <-] r Hr. exists v, e. split; [|done].
  unfold live_entry in El. destruct (kv_data s !! k0) as [[v0 e0]|]; [|done].
  by destruct (e0 <=? kv_clock s); [|injection El as -> ->].
Qed.

Lemma generation_holds org s x s' :
  generation org s = (x, s') → ∀ k r, holds s' k r → holds s k r.
Proof using KL.
  unfold generation, unless_available, mbind, st_bind. intros H.
  destruct (store_get (generation_key org) s) as [y s1] eqn:E. apply store_get_holds in E as [E _].
  destruct y as [[v|]|e].
  - unfold lift in H. destruct (int_of_bytes v) as [n|e]; [by injection H as <- <-|].
    destruct e; by injection H as <- <-.
  - by injection H as <- <-.
  - destruct e; by injection H as <- <-.
Qed.

Lemma get_holds k0 s x s' :
  get k0 s = (x, s') → (∀ k r, holds s' k r → holds s k r) ∧ (∀ r, x = Ok (Some r) → holds s k0 r).
Proof using KL.
  unfold get, unless_available, mbind, st_bind. intros H.
  destruct (store_get k0 s) as [y s1] eqn:E. apply store_get_holds in E as [E1 E2].
  destruct y as [[v|]|e].
  - injection H as <- <-. split; [done|]. intros r [= Hr]. by eapply E2.
  - by injection H as <- <-.
  - destruct e; by injection H as <- <-.
Qed.

Lemma put_holds k0 r s x s' :
  put k0 r s = (x, s') → ∀ k r', holds s' k r' → holds s k r' ∨ (k = k0 ∧ r' = r).
Proof using KL RL Httl.
  unfold put, unless_available, mbind, st_bind. intros H k r' Hh.
  assert (Hset : s' = (MemoryStore.set k0 (dump_result r) (ttl_seconds * 1000) false s).2 →
    holds s k r' ∨ (k = k0 ∧ r' = r)).
  { intros ->. destruct Hh as (v & e & Hl & Hv). rewrite set_spec in Hl. cbn in Hl.
    apply lookup_insert_Some in Hl as [[-> [= <- <-]]|[_ Hl]].
    - right. split; [done|]. rewrite validate_dump in Hv. congruence.
    - left. by exists v, e. }
  destruct (as_memory_failed _ _ s (set_law k0 (dump_result r) (ttl_seconds * 1000) false ltac:(lia)))
    as [E|(s1 & _ & E & Hs1)]; rewrite E in H.
  - apply Hset. rewrite set_spec in H |- *. by injection H as _ <-.
  - injection H as _ <-. destruct Hs1 as [-> |Hs1]; [by left|by apply Hset].
Qed.

#[export] Instance retrieval_cache_laws : CacheLaws RetrievalCache :=
  @Build_CacheLaws _ _ RetrievalCache holds generation_holds get_holds put_holds.

#[export] Instance retrieval_cache_tenants : TenantKeys RetrievalCache.
Proof.
  intros m m' k Hm Hm' Hk Hk'. cbn [cache_key RetrievalCache] in Hk, Hk'. unfold key in Hk, Hk'.
  apply result_bind_ok in Hk as (t & _ & Hk). apply result_bind_ok in Hk as (b & _ & [= <-]).
  apply result_bind_ok in Hk' as (t' & _ & Hk'). apply result_bind_ok in Hk' as (b' & _ & E%(f_equal (λ x, match x with Ok k => k | Err _ => [] end))).
  unfold entry_key in E. do 3 apply app_inv_head in E.
  apply app_inj_length in E as [E _]; [by apply uuid_str_inj|by rewrite !length_uuid_str].
Qed.

(** ** Invalidation *)

Lemma int_text_no_colon n : 58 ∉ str_of_int n.
Proof.
  intros H. pose proof (str_of_int_chars n) as Hc.
  pose proof (forallb_elem _ _ _ Hc H). done.
Qed.

(** Entries of different generations of one organization have different keys. *)
Lemma entry_key_generation org g g' x y : entry_key org g x = entry_key org g' y → g = g'.
Proof.
  unfold entry_key. intros E. repeat apply app_inv_head in E.
  apply app_sep_unique in E as [E _]; [by apply str_of_int_inj|apply int_text_no_colon|apply int_text_no_colon].
Qed.

(** [n] is the organization's generation: its live counter, or 0 without one. *)
Definition generation_is (s : kv) (org : UUID) (n : Z) : Prop :=
  counter_ok s (generation_key org) ∧
  n = match counter_at s (generation_key org) with Some (n, _) => n | None => 0 end.

Lemma generation_spec org s n :
  kv_up s = true → generation_is s org n → (generation org s).1 = Ok (Some n).
Proof using KL.
  intros Hu [Hok ->]. unfold generation, unless_available, mbind, st_bind.
  rewrite (as_memory_up _ _ s (get_law _) Hu).
  destruct (get_spec (generation_key org) s) as (s1 & -> & _). unfold counter_at.
  destruct (live_entry s (generation_key org)) as [[v e]|] eqn:E; [|done].
  destruct (Hok v e E) as (m & Hm & ->). cbn [option_map fst]. unfold lift.
  by rewrite int_of_str by lia.
Qed.

Lemma invalidate_spec org s c s' :
  kv_up s = true →
  MemoryStore.increment (generation_key org) (GENERATION_TTL_SECONDS * 1000) s = (Ok c, s') →
  invalidate org s = (Ok (), s').
Proof using KL.
  intros Hu Hi. unfold invalidate, unless_available, mbind, st_bind.
  assert (Hle : 1 ≤ GENERATION_TTL_SECONDS * 1000) by (unfold GENERATION_TTL_SECONDS; lia).
  by rewrite (as_memory_up _ _ s (increment_law _ _ Hle) Hu), Hi.
Qed.

(** A write that invalidates while the counter lives moves the organization
    to the next generation, under which no earlier entry can be found: every
    request then looks up keys different from all keys of the old generation. *)
Theorem invalidate_orphans_entries org s n e m m' k k' :
  kv_up s = true → counter_ok s (generation_key org) →
  counter_at s (generation_key org) = Some (n, e) →
  ck_organization_id m = org → ck_generation m = n → key m = Ok k →
  ck_organization_id m' = org → key m' = Ok k' →
  ∃ s', invalidate org s = (Ok (), s') ∧ (generation org s').1 = Ok (Some (n + 1)) ∧
        (ck_generation m' = n + 1 → k' ≠ k).
Proof using KL.
  intros Hu Hok Hc Hm Hg Hk Hm' Hk'.
  pose proof (increment_spec _ (GENERATION_TTL_SECONDS * 1000) s Hok ltac:(unfold GENERATION_TTL_SECONDS; lia)) as Hi.
  rewrite Hc in Hi. cbn [bump_counter] in Hi.
  destruct Hi as (s' & Hi & Hok' & Hc' & _ & _ & _ & Hu' & _). exists s'. split_and!.
  - by eapply invalidate_spec.
  - apply generation_spec; [congruence|]. split; [done|]. by rewrite Hc'.
  - intros Hg' ->. unfold key in Hk, Hk'.
    apply result_bind_ok in Hk as (t & _ & (b & _ & [= Hk])%result_bind_ok).
    apply result_bind_ok in Hk' as (t' & _ & (b' & _ & [= Hk'])%result_bind_ok).
    rewrite <-Hk in Hk'. rewrite Hm, Hm' in Hk'. apply entry_key_generation in Hk'. lia.
Qed.

(** The counter's time to live is never extended, so it can repeat itself: a
    first-generation counter that expires is recreated by the next write with the
    value it had, and that write orphans nothing. *)
Theorem generation_can_repeat org s e t :
  kv_up s = true → counter_ok s (generation_key org) →
  counter_at s (generation_key org) = Some (1, e) → e ≤ t → kv_clock s ≤ t →
  (generation org s).1 = Ok (Some 1) ∧
  (generation org (invalidate org (at_time t s)).2).1 = Ok (Some 1).
Proof using KL.
  intros Hu Hok Hc He Ht. split.
  - apply generation_spec; [done|]. split; [done|]. by rewrite Hc.
  - pose proof (increment_spec _ (GENERATION_TTL_SECONDS * 1000) (at_time t s)
      (counter_ok_later _ _ _ Hok Ht) ltac:(unfold GENERATION_TTL_SECONDS; lia)) as Hi.
    rewrite counter_at_later, Hc in Hi by done. destruct (Z.leb_spec e t); [|lia].
    cbn [bump_counter] in Hi. destruct Hi as (s' & Hi & Hok' & Hc' & _ & _ & _ & Hu' & _).
    rewrite (invalidate_spec org (at_time t s) _ _ Hu Hi). cbn [snd].
    apply generation_spec; [by rewrite Hu'|]. split; [done|]. by rewrite Hc'.
Qed.

End retrieval_cache.
