(* ===== verification/Consumers.v ===== *)
(** Event consumers: retries, dead letters and deduplication (app/events/consumer.py,
    the poll loop of workers/event_consumers.py), the two handlers
    (app/events/handlers.py), their repositories, and the activity read model
    (app/services/activity.py). *)

From stdpp Require Import gmap.
From S2P Require Import Prelude PyStr Json Regex Validation Access Temporal History Database.
From S2P Require Import Schema EventRelay Accounts FactRepo EvidenceService Canonical FactService.
From S2P Require Import Ledger TemporalService Ranking Retrieval Store RetrievalCache.

(** * Repositories *)

Module ProcessedEventRepository.

Definition same_delivery (consumer : pystr) (event_id : UUID) (p : processed_event) : bool :=
  bool_decide (pe_consumer p = consumer) && (pe_event_id p =? event_id).

Definition claim (consumer : pystr) (event_id organization_id : UUID) (event_type : pystr) : DB bool :=
  insert_or_nothing ProcessedEvents (same_delivery consumer event_id)
    {| pe_consumer := consumer; pe_event_id := event_id; pe_organization_id := organization_id;
       pe_event_type := event_type |}.

End ProcessedEventRepository.

Definition facts_recorded : pystr := py "facts_recorded".
Definition evidence_captured : pystr := py "evidence_captured".
Definition decisions_recorded : pystr := py "decisions_recorded".

Definition ACTIVITY_COUNTERS : list pystr := [facts_recorded; evidence_captured; decisions_recorded].

Module ActivityRepository.

(** [counter: column + n] *)
Definition add_to (counter : pystr) (n : Z) (x : activity_day) : activity_day :=
  let if_ c := if bool_decide (counter = c) then n else 0 in
  {| ad_organization_id := ad_organization_id x; ad_day := ad_day x;
     ad_facts_recorded := ad_facts_recorded x + if_ facts_recorded;
     ad_evidence_captured := ad_evidence_captured x + if_ evidence_captured;
     ad_decisions_recorded := ad_decisions_recorded x + if_ decisions_recorded |}.

Definition of_day (org : UUID) (day : Z) (x : activity_day) : bool :=
  (ad_organization_id x =? org) && (ad_day x =? day).

Definition empty_day (org : UUID) (day : Z) : activity_day :=
  {| ad_organization_id := org; ad_day := day; ad_facts_recorded := 0; ad_evidence_captured := 0;
     ad_decisions_recorded := 0 |}.

(** INSERT ... ON CONFLICT (organization_id, day) DO UPDATE *)
Definition increment (org : UUID) (day : Z) (counter : pystr) : DB unit :=
  _ ← guard_ (bool_decide (counter ∈ ACTIVITY_COUNTERS)) ValueError;
  existing ← gets (exists_row ActivityDaily (of_day org day));
  if existing : bool then exec_update ActivityDaily (of_day org day) (add_to counter 1)
  else exec_insert ActivityDaily (add_to counter 1 (empty_day org day)).

Definition recent (org : UUID) (since : Z) : DB (list activity_day) :=
  gets (λ d, sort_on ad_day (where_ (λ x, (ad_organization_id x =? org) && (since <=? ad_day x))
                                    (tab d ActivityDaily))).

End ActivityRepository.

(** * Handlers *)

(** [X] is the state outside the database that a handler may use. *)
Record EventHandler (X : Type) := {
  eh_name : pystr; eh_topics : list pystr; eh_event_types : list pystr;
  eh_handle : EventEnvelope → ST (db * X) unit }.
Arguments eh_name {X}.
Arguments eh_topics {X}.
Arguments eh_event_types {X}.
Arguments eh_handle {X}.

Definition COUNTER_BY_TYPE : list (pystr * pystr) := [
  (py "fact.version_recorded", facts_recorded);
  (py "evidence.captured", evidence_captured);
  (py "decision.recorded", decisions_recorded)].

(** [time.astimezone(UTC).date()] *)
Definition utc_day (t : Instant) : Z := t / 86400000000.

Definition ActivityProjector {X} : EventHandler X := {|
  eh_name := py "activity-projector";
  eh_topics := [FACTS_TOPIC; EVIDENCE_TOPIC; DECISIONS_TOPIC];
  eh_event_types := map fst COUNTER_BY_TYPE;
  eh_handle := λ event,
    counter ← lift (match assoc (en_type event) COUNTER_BY_TYPE with
                    | Some c => Ok c | None => Err KeyError end);
    on_db (ActivityRepository.increment (en_organization_id event) (utc_day (en_time event)) counter) |}.

(** A computation on one half of a pair of states. *)
Definition on_left {S C A} (m : ST S A) : ST (S * C) A := λ s, let '(r, x) := m s.1 in (r, (x, s.2)).
Definition on_right {S C A} (m : ST C A) : ST (S * C) A := λ s, let '(r, x) := m s.2 in (r, (s.1, x)).

Definition RetrievalCacheInvalidator {B} `{KS : KeyValueStore} : EventHandler (kv * B) := {|
  eh_name := py "retrieval-cache-invalidator";
  eh_topics := [FACTS_TOPIC];
  eh_event_types := [py "fact.version_recorded"; py "fact.embedding_stored"; py "fact.revoked"];
  eh_handle := λ event, on_ext (on_left (invalidate (en_organization_id event))) |}.

(** A broker next to other state. *)
Definition beside {C B} `{PB : Publisher B} : Publisher (C * B) := {|
  publish := λ ms s, let '(r, b) := publish ms s.2 in (r, (s.1, b));
  published := λ s, published s.2 |}.

Lemma beside_laws {C B} `{PB : Publisher B} `{PL : !PublisherLaws B} : @PublisherLaws (C * B) beside.
Proof.
  split. intros ms [c b] r [c' b'] H. cbn in *. destruct (publish ms b) as [r1 b1] eqn:E.
  injection H as <- <- <-. by apply (publish_sent _ _ _ _ E).
Qed.

(** * EventProcessor *)

Inductive Outcome := HANDLED | DUPLICATE | IGNORED | DEAD_LETTERED.

Record RetryPolicy := { rp_max_attempts : Z }.

(** What surrounds one attempt: the transactions of others that commit before it,
    and how its own ends. *)
Record attempt_env := { at_others : db → db; at_commit : commit_outcome }.

Section processor.
Context {X : Type} `{PB : !Publisher X} `{EC : EventCodec} `{PF : !PayloadFields} `{ET : ExceptionText}.
Context (handler : EventHandler X) (retry : RetryPolicy).

(** The envelope and its payload, both valid. *)
Definition decode (value : list Z) : result EventEnvelope :=
  match model_validate_json value with
  | None => Err (LibraryError "ValidationError")
  | Some event => _ ← event_payload event; Ok event
  end.

Definition apply_event (env : attempt_env) (event : EventEnvelope) : ST (db * X) Outcome :=
  _ ← on_db (modify (at_others env));
  db_transaction (at_commit env) (
    first_time ← on_db (ProcessedEventRepository.claim (eh_name handler) (en_id event)
                          (en_organization_id event) (en_type event));
    if first_time : bool then _ ← eh_handle handler event; mret HANDLED else mret DUPLICATE).

(** [except PermanentEventError] *)
Definition is_permanent (exc : exn) : bool :=
  match exc with PermanentEventError _ => true | _ => false end.

(** The attempts that are left; an exception is kept as its text and its attempt. *)
Fixpoint attempts (env : Z → attempt_env) (remaining : nat) (attempt : Z) (error : pystr * Z)
    (event : EventEnvelope) : ST (db * X) (Outcome + pystr * Z) :=
  match remaining with
  | O => mret (inr error)
  | S remaining =>
    r ← try_ (apply_event (env attempt) event);
    match r with
    | Ok outcome => mret (inl outcome)
    | Err exc =>
      if is_permanent exc then mret (inr (py "permanent: " ++ exn_str exc, attempt))
      else attempts env remaining (attempt + 1)
             (py (exn_name exc) ++ py ": " ++ take 200 (exn_str exc), attempt) event
    end
  end.

Definition dead_letter_message (message : IncomingMessage) (error : pystr) (n : Z) :
    result OutgoingMessage :=
  name ← encode_utf8 (eh_name handler);
  err ← encode_utf8 (take 500 error);
  count ← encode_utf8 (str_of_int n);
  source ← encode_utf8 (im_topic message ++ py "/" ++ str_of_int (im_partition message)
                        ++ py "/" ++ str_of_int (im_offset message));
  Ok {| om_topic := dead_letter_topic (im_topic message);
        om_key := default [] (im_key message); om_value := im_value message;
        om_headers := im_headers message ++ [(py "dlq_consumer", name); (py "dlq_error", err);
                        (py "dlq_attempts", count); (py "dlq_source", source)] |}.

Definition dead_letter (message : IncomingMessage) (error : pystr) (n : Z) : ST (db * X) unit :=
  m ← lift (dead_letter_message message error n);
  on_ext (publish [m]).

Definition process (env : Z → attempt_env) (message : IncomingMessage) : ST (db * X) Outcome :=
  match decode (im_value message) with
  | Err exc => _ ← dead_letter message (py "undecodable: " ++ py (exn_name exc)) 0; mret DEAD_LETTERED
  | Ok event =>
    if negb (bool_decide (en_type event ∈ eh_event_types handler)) then mret IGNORED else
    r ← attempts env (Z.to_nat (rp_max_attempts retry)) 1 (py "no attempt made", 0) event;
    match r with
    | inl outcome => mret outcome
    | inr (error, n) => _ ← dead_letter message error n; mret DEAD_LETTERED
    end
  end.

(** * The poll loop *)

Definition partition_of (m : IncomingMessage) : pystr * Z := (im_topic m, im_partition m).

Abbreviation offsets := (gmap (pystr * Z) Z) (only parsing).

Definition note_offset (o : offsets) (m : IncomingMessage) : offsets :=
  <[partition_of m := Z.max (default 0 (o !! partition_of m)) (im_offset m + 1)]> o.

Definition next_offsets (processed : list IncomingMessage) : offsets := fold_left note_offset processed ∅.

(** One pass over the records of a poll, each with its own surroundings, then the
    commit of the offsets; the broker keeps the offsets of other partitions. *)
Definition consume (env : IncomingMessage → Z → attempt_env) (commit : commit_outcome)
    (records : list IncomingMessage) : ST ((db * X) * offsets) unit :=
  _ ← on_left (mapM_ (λ m, process (env m) m) records);
  match records with
  | [] => mret ()
  | _ =>
    match commit with
    | Committed => on_right (modify (λ o, next_offsets records ∪ o))
    | RolledBack e => raise e
    | CommittedUnseen e => _ ← on_right (modify (λ o, next_offsets records ∪ o)); raise e
    end
  end.

End processor.

(** * The activity read model refines counting each event once *)

Definition consumer_rows (name : pystr) (d : db) : list processed_event :=
  where_ (λ p, bool_decide (pe_consumer p = name)) (tab d ProcessedEvents).

Definition dedup_row (name : pystr) (e : EventEnvelope) : processed_event := {|
  pe_consumer := name; pe_event_id := en_id e; pe_organization_id := en_organization_id e;
  pe_event_type := en_type e |}.

(** The specification: the events seen so far; one seen again changes nothing. *)
Definition see (e : EventEnvelope) (handled : list EventEnvelope) : list EventEnvelope :=
  if bool_decide (en_id e ∈ map en_id handled) then handled else handled ++ [e].

Definition counts_in (org : UUID) (day : Z) (counter : pystr) (e : EventEnvelope) : bool :=
  (en_organization_id e =? org) && (utc_day (en_time e) =? day)
  && bool_decide (assoc (en_type e) COUNTER_BY_TYPE = Some counter).

Definition count_of (handled : list EventEnvelope) (org : UUID) (day : Z) (counter : pystr) : Z :=
  zlen (where_ (counts_in org day counter) handled).

(** A counter of the read model; a day without a row counts zero. *)
Definition counter_value (counter : pystr) (x : activity_day) : Z :=
  if bool_decide (counter = facts_recorded) then ad_facts_recorded x
  else if bool_decide (counter = evidence_captured) then ad_evidence_captured x
  else if bool_decide (counter = decisions_recorded) then ad_decisions_recorded x else 0.

Definition counter_of (d : db) (org : UUID) (day : Z) (counter : pystr) : Z :=
  match where_ (ActivityRepository.of_day org day) (tab d ActivityDaily) with
  | x :: _ => counter_value counter x
  | [] => 0
  end.

(** The database holds what the specification says. *)
Record projection (name : pystr) (handled : list EventEnvelope) (d : db) : Prop := {
  pj_ids : NoDup (map en_id handled);
  pj_rows : consumer_rows name d = map (dedup_row name) handled;
  pj_counters : ∀ org day counter, counter ∈ ACTIVITY_COUNTERS →
    counter_of d org day counter = count_of handled org day counter;
}.

Lemma see_seen e handled : en_id e ∈ map en_id handled → see e handled = handled.
Proof. intros H. unfold see. by rewrite bool_decide_eq_true_2. Qed.

Lemma see_twice e handled : see e (see e handled) = see e handled.
Proof.
  unfold see at 1. case_bool_decide as H; [done|]. exfalso. apply H. unfold see.
  case_bool_decide; [done|]. rewrite map_app. apply elem_of_app. right. by left.
Qed.

Lemma counter_value_add counter c n x :
  counter ∈ ACTIVITY_COUNTERS → c ∈ ACTIVITY_COUNTERS →
  counter_value counter (ActivityRepository.add_to c n x)
  = counter_value counter x + (if bool_decide (c = counter) then n else 0).
Proof.
  unfold ACTIVITY_COUNTERS. rewrite !elem_of_cons. intros Hc Hd.
  unfold counter_value, ActivityRepository.add_to.
  destruct Hc as [->|[->|[->|[]%not_elem_of_nil]]], Hd as [->|[->|[->|[]%not_elem_of_nil]]];
    repeat (case_bool_decide; [|try done]); try discriminate;
    cbn [ad_facts_recorded ad_evidence_captured ad_decisions_recorded]; lia.
Qed.

Lemma increment_counts org day c u d d' :
  ActivityRepository.increment org day c d = (Ok u, d') →
  c ∈ ACTIVITY_COUNTERS ∧ frame [ActivityDaily] d d' ∧
  ∀ org' day' counter, counter ∈ ACTIVITY_COUNTERS →
    counter_of d' org' day' counter = counter_of d org' day' counter
    + (if (org =? org') && (day =? day') && bool_decide (c = counter) then 1 else 0).
Proof.
  intros H. unfold ActivityRepository.increment in H.
  apply st_bind_ok in H as ([] & ? & [Hc ->]%guard_ok & H). apply bool_decide_eq_true in Hc.
  apply st_bind_ok in H as (b & ? & [-> ->]%gets_ok & H). split; [done|].
  set (p := ActivityRepository.of_day org day) in *.
  destruct (exists_row ActivityDaily p d) eqn:Ep.
  - apply exec_update_ok in H as (_ & F & T); [|done]. split; [done|]. intros org' day' counter Hn.
    unfold counter_of. rewrite T, where_map.
    set (g := λ x, if p x then ActivityRepository.add_to c 1 x else x).
    assert (Eq : ∀ x, ActivityRepository.of_day org' day' (g x) = ActivityRepository.of_day org' day' x).
    { intros x. unfold g. by destruct (p x). }
    rewrite (where_ext _ (ActivityRepository.of_day org' day')) by (intros; apply Eq).
    destruct (where_ (ActivityRepository.of_day org' day') (tab d ActivityDaily)) as [|x l] eqn:Ew.
    + cbn. destruct (Z.eqb_spec org org') as [->|]; [|done]. destruct (Z.eqb_spec day day') as [->|]; [|done].
      rewrite (proj2 (exists_row_false ActivityDaily p d) Ew) in Ep. done.
    + assert (Hx : ActivityRepository.of_day org' day' x = true).
      { assert (Hin : x ∈ x :: l) by left. rewrite <-Ew in Hin. by apply elem_of_where_ in Hin as [? _]. }
      cbn [map]. unfold g. assert (Epx : p x = (org =? org') && (day =? day')).
      { unfold p, ActivityRepository.of_day in *. apply andb_true_iff in Hx as [->%Z.eqb_eq ->%Z.eqb_eq].
        rewrite (Z.eqb_sym org), (Z.eqb_sym day). done. }
      rewrite Epx. destruct (_ && _); cbn [andb]; [by apply counter_value_add|lia].
  - apply exec_insert_ok in H as (_ & F & T); [|done]. split; [done|]. intros org' day' counter Hn.
    unfold counter_of. rewrite T, where_app. apply (exists_row_false ActivityDaily) in Ep.
    destruct (where_ (ActivityRepository.of_day org' day') (tab d ActivityDaily)) as [|x l] eqn:Ew.
    + cbn [app where_ List.filter]. unfold ActivityRepository.of_day at 1. cbn.
      destruct (Z.eqb_spec org org') as [->|]; [|done]. destruct (Z.eqb_spec day day') as [->|]; [|done].
      cbn [andb]. rewrite (counter_value_add counter c 1 (ActivityRepository.empty_day org' day')) by done.
      f_equal. unfold counter_value. by repeat case_bool_decide.
    + cbn [app]. assert (Hx : ActivityRepository.of_day org' day' x = true ∧ x ∈ tab d ActivityDaily).
      { apply elem_of_where_. rewrite Ew. left. }
      destruct Hx as [Hx Hin]. assert (Hp : p x = false) by (by apply (proj1 (where_nil_iff p _) Ep)).
      unfold p, ActivityRepository.of_day in *. apply andb_true_iff in Hx as [E1%Z.eqb_eq E2%Z.eqb_eq].
      rewrite E1, E2 in Hp. rewrite (Z.eqb_sym org), (Z.eqb_sym day), Hp. cbn. lia.
Qed.

Lemma count_of_app handled e org day counter :
  count_of (handled ++ [e]) org day counter
  = count_of handled org day counter + (if counts_in org day counter e then 1 else 0).
Proof.
  unfold count_of. rewrite where_app, zlen_app. f_equal. cbn. by destruct (counts_in _ _ _ _).
Qed.

(** A claim that succeeds is the first one, and leaves its record. *)
Lemma claim_cases name e d b d' :
  ProcessedEventRepository.claim name (en_id e) (en_organization_id e) (en_type e) d = (Ok b, d') →
  if b then (∀ p, p ∈ tab d ProcessedEvents → ProcessedEventRepository.same_delivery name (en_id e) p = false) ∧
            frame [ProcessedEvents] d d' ∧
            tab d' ProcessedEvents = tab d ProcessedEvents ++ [dedup_row name e]
  else d' = d ∧ ∃ p, p ∈ tab d ProcessedEvents ∧ ProcessedEventRepository.same_delivery name (en_id e) p = true.
Proof.
  intros H. apply insert_or_nothing_ok in H as [(-> & -> & H)|(-> & H & _ & F & T)]; [| |done].
  - split; [done|]. by apply (exists_row_spec ProcessedEvents) in H.
  - split_and!; try done. by apply where_nil_iff, (exists_row_false ProcessedEvents).
Qed.

(** The records of a consumer tell which events it has handled. *)
Lemma claimed_iff name handled d e :
  projection name handled d →
  en_id e ∈ map en_id handled ↔
  ∃ p, p ∈ tab d ProcessedEvents ∧ ProcessedEventRepository.same_delivery name (en_id e) p = true.
Proof.
  intros [_ Hr _]. assert (Hin : ∀ p, p ∈ map (dedup_row name) handled ↔
    pe_consumer p = name ∧ p ∈ tab d ProcessedEvents).
  { intros p. rewrite <-Hr. unfold consumer_rows. by rewrite elem_of_where_, bool_decide_eq_true. }
  unfold ProcessedEventRepository.same_delivery. split.
  - intros (e' & Hid & He)%list_elem_of_fmap.
    assert (Hp : dedup_row name e' ∈ map (dedup_row name) handled) by (apply list_elem_of_fmap; by exists e').
    apply Hin in Hp as [_ Hp]. exists (dedup_row name e'). split; [done|]. cbn.
    rewrite bool_decide_eq_true_2 by done. apply Z.eqb_eq. by symmetry.
  - intros (p & Hp & [Hn%bool_decide_eq_true Hid%Z.eqb_eq]%andb_true_iff).
    assert (Hm : p ∈ map (dedup_row name) handled) by by apply Hin.
    apply list_elem_of_fmap in Hm as (e' & -> & He). cbn in Hid. rewrite <-Hid.
    apply list_elem_of_fmap. by exists e'.
Qed.

Section projector.
Context {X : Type} `{PB : !Publisher X} `{EC : EventCodec} `{PF : !PayloadFields} `{ET : ExceptionText}.
Context (retry : RetryPolicy).

Let projector : EventHandler X := ActivityProjector.
Let name : pystr := eh_name projector.

(** Transactions of others leave the read model and this consumer's records alone. *)
Definition keeps_projection (f : db → db) : Prop :=
  ∀ d, consumer_rows name (f d) = consumer_rows name d ∧ tab (f d) ActivityDaily = tab d ActivityDaily.

Lemma projection_frame handled d d' :
  consumer_rows name d' = consumer_rows name d → tab d' ActivityDaily = tab d ActivityDaily →
  projection name handled d → projection name handled d'.
Proof.
  intros Hr Ha [Hi Hp Hc]. split; [done|congruence|]. intros org day counter H.
  unfold counter_of. rewrite Ha. by apply Hc.
Qed.

Definition subscribed (e : EventEnvelope) : Prop := en_type e ∈ map fst COUNTER_BY_TYPE.

(** One transaction: the event is counted once, or nothing happens. *)
Lemma apply_event_refines env e handled d (x : X) r d' (x' : X) :
  keeps_projection (at_others env) → projection name handled d →
  apply_event projector env e (d, x) = (r, (d', x')) →
  x' = x ∧
  (projection name handled d' ∧ is_ok r = false ∨
   projection name (see e handled) d' ∧
   ∀ o, r = Ok o → o = HANDLED ∧ en_id e ∉ map en_id handled ∨ o = DUPLICATE ∧ en_id e ∈ map en_id handled).
Proof.
  intros Hk Hp H. unfold apply_event in H.
  rewrite (st_bind_eq _ _ _ () (at_others env d, x)) in H by done.
  destruct (Hk d) as [Hk1 Hk2]. assert (Hp0 : projection name handled (at_others env d)).
  { by apply (projection_frame handled d). }
  clear Hp. set (d0 := at_others env d) in *. clearbody d0.
  assert (Hx : ∀ r1 s1, (first_time ← on_db (ProcessedEventRepository.claim name
      (en_id e) (en_organization_id e) (en_type e));
    if first_time : bool then _ ← eh_handle projector e; mret HANDLED else mret DUPLICATE)
    (d0, x) = (r1, s1) → s1.2 = x).
  { intros r1 [d1 x1] H1. unfold mbind at 1, st_bind at 1, on_db at 1 in H1. cbn [fst snd] in H1.
    destruct (ProcessedEventRepository.claim _ _ _ _ _) as [[[]|] d2].
    - unfold mbind at 1, st_bind at 1 in H1. cbn [eh_handle projector ActivityProjector] in H1.
      unfold mbind at 1, st_bind at 1, lift, on_db in H1. cbn [fst snd] in H1.
      destruct (assoc _ _) as [c|]; [|by injection H1 as _ _ <-].
      destruct (ActivityRepository.increment _ _ _ _) as [[]]; by injection H1 as _ _ <-.
    - by injection H1 as _ _ <-.
    - by injection H1 as _ _ <-. }
  apply db_transaction_cases in H as [(o & H & Hr)|(r1 & ee & [d1 x1] & H & -> & [= -> ->] & _)].
  2:{ split; [by apply Hx in H|]. left. by split. }
  split; [by apply Hx in H|]. right. clear Hx.
  apply st_bind_ok in H as (b & [d1 x1] & [Hc Hx1]%on_db_ok & H). cbn [fst snd] in Hc, Hx1. subst x1.
  apply claim_cases in Hc. destruct b.
  - destruct Hc as (Hnew & F1 & T1).
    assert (Hni : en_id e ∉ map en_id handled).
    { intros Hin. apply (claimed_iff name handled d0 e Hp0) in Hin as (p & Hp & Hs).
      by rewrite Hnew in Hs. }
    apply st_bind_ok in H as ([] & [d2 x2] & H & [-> [= -> ->]]%st_ret_ok).
    cbn [eh_handle projector ActivityProjector] in H.
    apply st_bind_ok in H as (c & ? & [Hc ->]%lift_ok & [Hi _]%on_db_ok). cbn [fst snd] in Hi.
    destruct (assoc _ _) as [c'|] eqn:Ec; [|done]. injection Hc as ->.
    apply increment_counts in Hi as (Hcm & F2 & Hcount).
    split.
    2:{ intros o' Ho. left. split; [|done].
        destruct Hr as [[_ ->]|(? & _ & ->)]; [by injection Ho|done]. }
    unfold see. rewrite bool_decide_eq_false_2 by done. destruct Hp0 as [Hi Hrows Hcnt]. split.
    + rewrite map_app. apply NoDup_app. split_and!; [done| |by apply NoDup_singleton].
      by intros i Hin ->%list_elem_of_singleton.
    + unfold consumer_rows. rewrite (frame_tab_other _ _ _ ProcessedEvents F2) by (done || set_solver).
      rewrite T1, where_app, map_app. fold (consumer_rows name d0). by rewrite Hrows.
    + intros org day counter Hin. rewrite Hcount, count_of_app by done.
      rewrite <-Hcnt by done. unfold counter_of at 1.
      rewrite (frame_tab_other _ _ _ ActivityDaily F1) by (done || set_solver). fold (counter_of d0 org day counter).
      f_equal. unfold counts_in. rewrite Ec. cbn [andb].
      assert (Ed : bool_decide (Some c = Some counter) = bool_decide (c = counter)).
      { apply bool_decide_ext. naive_solver. }
      by rewrite Ed.
  - destruct Hc as [-> Hin]. apply st_ret_ok in H as [-> [= -> ->]].
    apply (claimed_iff name handled d0 e Hp0) in Hin. rewrite see_seen by done. split; [done|].
    intros o' Ho. right. split; [|done]. destruct Hr as [[_ ->]|(? & _ & ->)]; [by injection Ho|done].
Qed.

(** The attempts never raise: they count the event once, or leave no trace. *)
Lemma attempts_refine env n : ∀ attempt error handled e d (x : X) r d' (x' : X),
  (∀ a, keeps_projection (at_others (env a))) → projection name handled d →
  attempts projector env n attempt error e (d, x) = (r, (d', x')) →
  ∃ handled' o, r = Ok o ∧ projection name handled' d' ∧
    (handled' = handled ∨ handled' = see e handled) ∧
    ∀ oc, o = inl oc → handled' = see e handled ∧
      (oc = HANDLED ∧ en_id e ∉ map en_id handled ∨ oc = DUPLICATE).
Proof.
  induction n as [|n IH]; intros attempt error handled e d x r d' x' Hk Hp H; cbn [attempts] in H.
  { injection H as <- <- <-. exists handled, (inr error). split_and!; try done. by left. }
  unfold mbind at 1, st_bind at 1, try_ in H.
  destruct (apply_event projector (env attempt) e (d, x)) as [r1 [d1 x1]] eqn:E.
  destruct (apply_event_refines _ _ _ _ _ _ _ _ (Hk attempt) Hp E) as [-> Hcases].
  destruct r1 as [oc|exc].
  - injection H as <- <- <-. destruct Hcases as [[_ ?]|[Hp' Ho]]; [done|].
    exists (see e handled), (inl oc). split_and!; try done; [by right|]. intros ? [= <-]. split; [done|].
    destruct (Ho oc eq_refl) as [[-> ?]|[-> ?]]; [by left|by right].
  - assert (Hsteps : ∃ h1, projection name h1 d1 ∧ (h1 = handled ∨ h1 = see e handled)).
    { destruct Hcases as [[? _]|[? _]]; eauto. }
    destruct Hsteps as (h1 & Hp1 & Hh1). destruct (is_permanent exc).
    + injection H as <- <- <-. eexists h1, _. split_and!; done.
    + destruct (IH _ _ _ _ _ _ _ _ _ Hk Hp1 H) as (h2 & o & -> & Hp2 & Hh2 & Ho).
      exists h2, o. split_and!; try done.
      * destruct Hh1 as [-> | ->]; [done|]. right. rewrite see_twice in Hh2. naive_solver.
      * intros oc Hoc. destruct (Ho oc Hoc) as [-> Hoc']. destruct Hh1 as [-> | ->]; [done|].
        rewrite see_twice. split; [done|]. destruct Hoc' as [[-> Hni]| ->]; [|by right].
        left. split; [done|]. intros Hin. apply Hni. by rewrite see_seen.
Qed.

Lemma dead_letter_db (m : IncomingMessage) error n d (x : X) r d' (x' : X) :
  dead_letter projector m error n (d, x) = (r, (d', x')) → d' = d.
Proof.
  unfold dead_letter, mbind, st_bind, lift, on_ext. destruct (dead_letter_message _ _ _ _).
  - cbn. destruct (publish _ _). by intros [= _ <- _].
  - by intros [= _ <- _].
Qed.

(** The specification of one delivery: what it answers and what it has seen after. *)
Inductive spec_step (m : IncomingMessage) (handled : list EventEnvelope) :
    result Outcome → list EventEnvelope → Prop :=
  | spec_undecodable exc r :
      decode (im_value m) = Err exc → r = Ok DEAD_LETTERED ∨ is_ok r = false →
      spec_step m handled r handled
  | spec_ignored e :
      decode (im_value m) = Ok e → ¬ subscribed e → spec_step m handled (Ok IGNORED) handled
  | spec_handled e :
      decode (im_value m) = Ok e → subscribed e → en_id e ∉ map en_id handled →
      spec_step m handled (Ok HANDLED) (handled ++ [e])
  | spec_duplicate e :
      decode (im_value m) = Ok e → subscribed e → spec_step m handled (Ok DUPLICATE) (see e handled)
  | spec_gave_up e r handled' :
      decode (im_value m) = Ok e → subscribed e → handled' = handled ∨ handled' = see e handled →
      r = Ok DEAD_LETTERED ∨ is_ok r = false → spec_step m handled r handled'.

Lemma process_refines env m handled d (x : X) r d' (x' : X) :
  (∀ a, keeps_projection (at_others (env a))) → projection name handled d →
  process projector retry env m (d, x) = (r, (d', x')) →
  ∃ handled', projection name handled' d' ∧ spec_step m handled r handled'.
Proof.
  intros Hk Hp H. unfold process in H. destruct (decode (im_value m)) as [e|exc] eqn:Ed.
  2:{ unfold mbind, st_bind in H. destruct (dead_letter _ _ _ _ _) as [r1 [d1 x1]] eqn:E.
      apply dead_letter_db in E as ->. exists handled.
      destruct r1 as [[]|]; injection H as <- <- <-; (split; [done|]); apply (spec_undecodable _ _ exc); auto. }
  case_bool_decide as Hs; cbn [negb] in H.
  2:{ injection H as <- <- <-. exists handled. split; [done|]. by apply (spec_ignored _ _ e). }
  unfold mbind at 1, st_bind at 1 in H.
  destruct (attempts _ _ _ _ _ _ _) as [r1 [d1 x1]] eqn:E.
  destruct (attempts_refine _ _ _ _ _ _ _ _ _ _ _ Hk Hp E) as (h1 & o & -> & Hp1 & Hh & Ho).
  destruct o as [oc|[error n]].
  - injection H as <- <- <-. exists h1. destruct (Ho oc eq_refl) as [-> Hoc]. split; [done|].
    destruct Hoc as [[-> Hni]| ->]; [|by apply spec_duplicate].
    unfold see. rewrite bool_decide_eq_false_2 by done. by apply spec_handled.
  - unfold mbind, st_bind in H. destruct (dead_letter _ _ _ _ _) as [r2 [d2 x2]] eqn:E2.
    apply dead_letter_db in E2 as ->. exists h1.
    assert (d' = d1 ∧ (r = Ok DEAD_LETTERED ∨ is_ok r = false)) as [-> Hr].
    { destruct r2 as [[]|]; injection H as <- <- <-; auto. }
    split; [done|]. by apply (spec_gave_up _ _ e).
Qed.

(** Deliveries one after the other, with their answers; of the specification too. *)
Inductive runs : list (IncomingMessage * result Outcome) → db * X → db * X → Prop :=
  | runs_none s : runs [] s s
  | runs_one m r tr env s s1 s2 :
      (∀ a, keeps_projection (at_others (env a))) → process projector retry env m s = (r, s1) →
      runs tr s1 s2 → runs ((m, r) :: tr) s s2.

Inductive spec_runs : list (IncomingMessage * result Outcome) →
    list EventEnvelope → list EventEnvelope → Prop :=
  | spec_runs_none h : spec_runs [] h h
  | spec_runs_one m r tr h h1 h2 :
      spec_step m h r h1 → spec_runs tr h1 h2 → spec_runs ((m, r) :: tr) h h2.

Lemma runs_refine tr handled s s' :
  projection name handled s.1 → runs tr s s' →
  ∃ handled', spec_runs tr handled handled' ∧ projection name handled' s'.1.
Proof.
  intros Hp Hr. revert handled Hp. induction Hr as [s|m r tr env [d x] [d1 x1] s2 Hk H _ IH]; intros handled Hp.
  { exists handled. split; [constructor|done]. }
  destruct (process_refines env m handled d x r d1 x1 Hk Hp H) as (h1 & Hp1 & Hs).
  destruct (IH h1 Hp1) as (h2 & Hs2 & Hp2). exists h2. split; [|done]. by apply (spec_runs_one _ _ _ _ h1).
Qed.

(** C33. Refinement: whatever is delivered, how often and in which order, and
    whatever fails (the handler, a commit, the answer to a commit, the dead-letter
    topic), the activity read model runs as the specification, which keeps the
    events seen and counts each once; an event seen again changes nothing. *)
Theorem projector_refines_counting tr s s' :
  projection name [] s.1 → runs tr s s' →
  ∃ handled, spec_runs tr [] handled ∧ NoDup (map en_id handled) ∧
    ∀ org day counter, counter ∈ ACTIVITY_COUNTERS →
      counter_of s'.1 org day counter = count_of handled org day counter.
Proof.
  intros Hp Hr. destruct (runs_refine tr [] s s' Hp Hr) as (h & Hs & [Hi _ Hc]). by exists h.
Qed.

End projector.

(** * No message is skipped *)

(** A handler touches neither the records of the consumers nor the broker. *)
Class HandlerLaws {X : Type} `{PB : !Publisher X} (handler : EventHandler X) := {
  handle_keeps : ∀ e s r s', eh_handle handler e s = (r, s') →
    tab s'.1 ProcessedEvents = tab s.1 ProcessedEvents ∧ published s'.2 = published s.2;
}.

#[export] Instance projector_laws {X : Type} `{PB : !Publisher X} :
  HandlerLaws (ActivityProjector (X := X)).
Proof.
  split. intros e [d x] r [d' x'] H. cbn [eh_handle ActivityProjector] in H.
  unfold mbind at 1, st_bind at 1, lift, on_db in H. cbn [fst snd] in H.
  destruct (assoc _ _) as [c|]; [|by injection H as _ <- <-].
  destruct (ActivityRepository.increment _ _ _ _) as [r1 d1] eqn:E. injection H as _ <- <-.
  split; [|done]. cbn [fst].
  assert (R : respects (frame [ActivityDaily]) (ActivityRepository.increment
                (en_organization_id e) (utc_day (en_time e)) c)).
  { unfold ActivityRepository.increment.
    respects ltac:(first [apply exec_insert_frame; [done|by left] | apply exec_update_frame; [done|by left]]). }
  apply (frame_tab_other _ _ _ ProcessedEvents (R _ _ _ E)); [done|set_solver].
Qed.

#[export] Instance invalidator_laws {B : Type} `{PB : !Publisher B} `{KS : KeyValueStore} :
  @HandlerLaws (kv * B) beside (RetrievalCacheInvalidator (B := B)).
Proof.
  split. intros e [d [k b]] r [d' [k' b']] H. cbn [eh_handle RetrievalCacheInvalidator] in H.
  unfold on_ext, on_left in H. cbn [fst snd] in H. destruct (invalidate _ _) as [r1 k1].
  by injection H as _ <- <- <-.
Qed.

Section delivery.
Context {X : Type} `{PB : !Publisher X} `{PL : !PublisherLaws X} `{EC : EventCodec} `{PF : !PayloadFields} `{ET : ExceptionText}.
Context (handler : EventHandler X) `{HL : !HandlerLaws handler} (retry : RetryPolicy).

Abbreviation world := (db * X)%type (only parsing).

(** This consumer's records and the broker's messages only grow. *)
Definition later (s s' : world) : Prop :=
  (∀ p, pe_consumer p = eh_name handler → p ∈ tab s.1 ProcessedEvents → p ∈ tab s'.1 ProcessedEvents) ∧
  (∃ l, published s'.2 = published s.2 ++ l).

#[export] Instance later_preorder : PreOrder later.
Proof.
  split.
  - intros s. split; [done|]. exists []. by rewrite app_nil_r.
  - intros a b c [H1 [l1 E1]] [H2 [l2 E2]]. split; [auto|]. exists (l1 ++ l2).
    by rewrite E2, E1, app_assoc.
Qed.

(** What is published is not undone by a rollback. *)
Lemma later_rollback (s s' : world) : later s s' → later s (s.1, s'.2).
Proof. intros [_ H]. by split. Qed.

Definition others_keep_records (f : db → db) : Prop :=
  ∀ d p, pe_consumer p = eh_name handler → p ∈ tab d ProcessedEvents → p ∈ tab (f d) ProcessedEvents.

Definition dead_lettered (x : X) (m : IncomingMessage) : Prop :=
  ∃ om, om ∈ published x ∧ om_topic om = dead_letter_topic (im_topic m) ∧ om_value om = im_value m.

Definition recorded (d : db) (e : EventEnvelope) : Prop :=
  ∃ p, p ∈ tab d ProcessedEvents ∧ ProcessedEventRepository.same_delivery (eh_name handler) (en_id e) p = true.

(** A message needs no further delivery. *)
Definition settled (s : world) (m : IncomingMessage) : Prop :=
  dead_lettered s.2 m ∨
  ∃ e, decode (im_value m) = Ok e ∧ (en_type e ∉ eh_event_types handler ∨ recorded s.1 e).

Lemma settled_later s s' m : later s s' → settled s m → settled s' m.
Proof.
  intros [Hr [l Hl]] [(om & Hin & Ht & Hv)|(e & He & Hs)].
  - left. exists om. rewrite Hl. split_and!; try done. apply elem_of_app. by left.
  - right. exists e. split; [done|]. destruct Hs as [Hs|(p & Hp & Hd)]; [by left|right].
    exists p. split; [|done]. apply Hr; [|done].
    unfold ProcessedEventRepository.same_delivery in Hd.
    by apply andb_true_iff in Hd as [?%bool_decide_eq_true _].
Qed.

Lemma apply_event_later env e :
  others_keep_records (at_others env) → respects later (apply_event handler env e).
Proof using HL.
  intros Ho s r s' H. unfold apply_event in H. destruct s as [d x].
  rewrite (st_bind_eq _ _ _ () (at_others env d, x)) in H by done.
  transitivity (at_others env d, x); [split; [apply Ho|exists []; by rewrite app_nil_r]|].
  set (s0 := (at_others env d, x)) in *. clearbody s0.
  set (m := first_time ← _; _) in H.
  assert (Hm : respects later m).
  { unfold m. intros s1 r1 s2 H1. unfold mbind at 1, st_bind at 1, on_db in H1.
    destruct (ProcessedEventRepository.claim _ _ _ _ (s1.1)) as [rc d1] eqn:Ec.
    assert (L : later s1 (d1, s1.2)).
    { assert (G : grows ProcessedEvents s1.1 d1).
      { by apply (insert_or_nothing_grows ProcessedEvents ProcessedEvents _ _ eq_refl eq_refl _ _ _ Ec). }
      destruct G as [l G]. split; cbn [fst snd]; [|exists []; by rewrite app_nil_r].
      intros p _ Hp. rewrite G. apply elem_of_app. by left. }
    destruct rc as [[]|]; [|by injection H1 as <- <-..].
    unfold mbind, st_bind in H1. destruct (eh_handle handler e (d1, s1.2)) as [rh s3] eqn:Eh.
    destruct (handle_keeps _ _ _ _ Eh) as [K1 K2]. cbn [fst snd] in K1, K2.
    assert (L2 : later (d1, s1.2) s3).
    { split; cbn [fst snd]; [intros p _; by rewrite K1|exists []; by rewrite app_nil_r]. }
    destruct rh as [[]|]; injection H1 as <- <-; by etrans. }
  apply db_transaction_cases in H as [(o & H & _)|(r1 & ee & s1 & H & -> & -> & _)].
  - by apply Hm in H.
  - by apply later_rollback, (Hm _ _ _ H).
Qed.

Lemma apply_event_recorded env e s o s' :
  apply_event handler env e s = (Ok o, s') → recorded s'.1 e.
Proof using HL.
  intros H. unfold apply_event in H. destruct s as [d x].
  rewrite (st_bind_eq _ _ _ () (at_others env d, x)) in H by done.
  apply db_transaction_cases in H as [(a & H & _)|(r1 & ee & s1 & _ & [=] & _)].
  apply st_bind_ok in H as (b & [d1 x1] & [Hc _]%on_db_ok & H). cbn [fst snd] in Hc.
  apply claim_cases in Hc. destruct b.
  - destruct Hc as (_ & _ & T1).
    apply st_bind_ok in H as ([] & s2 & H & [_ ->]%st_ret_ok). apply handle_keeps in H as [K _].
    exists (dedup_row (eh_name handler) e). cbn [fst] in K. rewrite K, T1. split.
    + apply elem_of_app. right. by left.
    + unfold ProcessedEventRepository.same_delivery. cbn. by rewrite bool_decide_eq_true_2, Z.eqb_refl.
  - apply st_ret_ok in H as [_ ->]. cbn [fst]. destruct Hc as [-> Hc]. exact Hc.
Qed.

Lemma attempts_later env n : ∀ attempt error e,
  (∀ a, others_keep_records (at_others (env a))) →
  respects later (attempts handler env n attempt error e).
Proof using HL.
  induction n as [|n IH]; intros attempt error e Ho; cbn [attempts]; [apply respects_ret; apply _|].
  apply respects_bind; [apply _| |].
  - intros s r s' H. unfold try_ in H.
    destruct (apply_event handler (env attempt) e s) as [r1 s1] eqn:E. injection H as <- <-.
    by apply (apply_event_later _ _ (Ho attempt) _ _ _ E).
  - intros [oc|exc]; [apply respects_ret; apply _|].
    destruct (is_permanent exc); [apply respects_ret; apply _|by apply IH].
Qed.

Lemma attempts_recorded env n : ∀ attempt error e s oc s',
  attempts handler env n attempt error e s = (Ok (inl oc), s') → recorded s'.1 e.
Proof using HL.
  induction n as [|n IH]; intros attempt error e s oc s' H; cbn [attempts] in H; [done|].
  apply st_bind_ok in H as (r & s1 & Hr & H). apply (proj1 (try_ok _ _ _ _)) in Hr. destruct r as [o|exc].
  - apply st_ret_ok in H as [[= <-] ->]. by apply (apply_event_recorded _ _ _ _ _ Hr).
  - destruct (is_permanent exc); [by apply st_ret_ok in H as [? _]|by apply (IH _ _ _ _ _ _ H)].
Qed.

Lemma dead_letter_later m error n : respects later (dead_letter handler m error n).
Proof using PL.
  apply respects_bind; [apply _|apply respects_lift; apply _|]. intros om [d x] r s' H.
  unfold on_ext in H. cbn [fst snd] in H. destruct (publish [om] x) as [r1 x1] eqn:E.
  injection H as <- <-. destruct (publish_sent _ _ _ _ E) as (sent & Hs & _).
  split; [done|]. by exists sent.
Qed.

Lemma dead_letter_sent m error n s s' :
  dead_letter handler m error n s = (Ok (), s') → dead_lettered s'.2 m.
Proof using PL.
  intros H. apply st_bind_ok in H as (om & ? & [Hom ->]%lift_ok & [H _]%on_ext_ok).
  destruct (publish_sent _ _ _ _ H) as (sent & Hs & _ & Hall).
  exists om. split.
  - rewrite Hs. apply elem_of_app. right.
    assert (Hin : om ∈ where_ (λ m, bool_decide (om_key m = om_key om)) sent).
    { rewrite (Hall eq_refl). apply elem_of_where_. split; [by apply bool_decide_eq_true|by left]. }
    by apply elem_of_where_ in Hin as [_ ?].
  - unfold dead_letter_message in Hom.
    repeat (apply result_bind_ok in Hom as (? & _ & Hom)). by injection Hom as <-.
Qed.

Definition env_ok (env : Z → attempt_env) : Prop := ∀ a, others_keep_records (at_others (env a)).

Lemma process_later env m : env_ok env → respects later (process handler retry env m).
Proof using HL PL.
  intros Ho. unfold process. destruct (decode (im_value m)) as [e|exc].
  - destruct (negb _); [apply (respects_ret later)|].
    apply respects_bind; [apply _|by apply attempts_later|]. intros [oc|[error n]]; [apply (respects_ret later)|].
    apply respects_bind; [apply _|apply dead_letter_later|]. intros []. apply (respects_ret later).
  - apply respects_bind; [apply _|apply dead_letter_later|]. intros []. apply (respects_ret later).
Qed.

(** A message that [process] answers for is settled. *)
Lemma process_settles env m s o s' : process handler retry env m s = (Ok o, s') → settled s' m.
Proof using HL PL.
  intros H. unfold process in H. destruct (decode (im_value m)) as [e|exc] eqn:Ed.
  - case_bool_decide as Hs; cbn [negb] in H.
    + apply st_bind_ok in H as ([oc|[error n]] & s1 & Ha & H).
      * apply st_ret_ok in H as [_ ->]. right. exists e. split; [done|]. right.
        by apply (attempts_recorded _ _ _ _ _ _ _ _ Ha).
      * apply st_bind_ok in H as ([] & s2 & H & [_ ->]%st_ret_ok). left. by eapply dead_letter_sent.
    + right. exists e. split; [done|]. by left.
  - apply st_bind_ok in H as ([] & s2 & H & [_ ->]%st_ret_ok). left. by eapply dead_letter_sent.
Qed.

Lemma process_all_later env ms :
  (∀ m, m ∈ ms → env_ok (env m)) → respects later (mapM_ (λ m, process handler retry (env m) m) ms).
Proof using HL PL. intros Ho. apply respects_mapM; [apply _|]. intros m Hm. by apply process_later, Ho. Qed.

Lemma process_all_settles env ms : ∀ s os s',
  (∀ m, m ∈ ms → env_ok (env m)) →
  mapM_ (λ m, process handler retry (env m) m) ms s = (Ok os, s') → ∀ m, m ∈ ms → settled s' m.
Proof using HL PL.
  induction ms as [|m0 ms IH]; intros s os s' Ho H m Hm; [by apply not_elem_of_nil in Hm|].
  cbn [mapM_] in H. apply st_bind_ok in H as (o & s1 & H0 & H).
  apply st_bind_ok in H as (os1 & s2 & H1 & [_ ->]%st_ret_ok).
  assert (Ho' : ∀ m, m ∈ ms → env_ok (env m)) by (intros k Hk; apply Ho; by right).
  apply elem_of_cons in Hm as [->|Hm]; [|by apply (IH _ _ _ Ho' H1)].
  apply (settled_later s1); [|by apply process_settles in H0].
  by apply (process_all_later _ _ Ho' _ _ _ H1).
Qed.

(** An offset to commit is one past a processed record. *)
Lemma next_offsets_spec ms k off :
  next_offsets ms !! k = Some off →
  off ≤ 0 ∨ ∃ m, m ∈ ms ∧ partition_of m = k ∧ off = im_offset m + 1.
Proof.
  unfold next_offsets. intros H.
  assert (G : ∀ l (o : gmap (pystr * Z) Z), fold_left note_offset l o !! k = Some off →
    off ≤ 0 ∨ o !! k = Some off ∨ ∃ m, m ∈ l ∧ partition_of m = k ∧ off = im_offset m + 1).
  { clear H. induction l as [|m l IH]; intros o H; [by right; left|]. cbn [fold_left] in H.
    destruct (IH _ H) as [?|[Ho|(m' & Hm & Hk & Hoff)]]; [by left| |].
    - unfold note_offset in Ho. destruct (decide (partition_of m = k)) as [<-|Hne].
      + rewrite lookup_insert_eq in Ho. injection Ho as <-.
        destruct (o !! partition_of m) as [n|] eqn:En; cbn [default from_option id].
        * destruct (Z.max_spec n (im_offset m + 1)) as [[_ ->]|[_ ->]].
          -- right. right. exists m. split_and!; try done. by left.
          -- by right; left.
        * destruct (Z.max_spec 0 (im_offset m + 1)) as [[_ ->]|[_ ->]]; [|by left].
          right. right. exists m. split_and!; try done. by left.
      + rewrite lookup_insert_ne in Ho by done. by right; left.
    - right. right. exists m'. split_and!; try done. by right. }
  destruct (G ms ∅ H) as [?|[?|?]]; [by left|by rewrite lookup_empty in *|by right].
Qed.

(** What the broker stores: a log per partition, in offset order. *)
Context (log : pystr * Z → list IncomingMessage).
Context (Hlog : ∀ k, StronglySorted (λ a b, im_offset a < im_offset b) (log k)).
Context (Hpart : ∀ k m, m ∈ log k → partition_of m = k ∧ 0 ≤ im_offset m).

Definition committed (o : gmap (pystr * Z) Z) (k : pystr * Z) : Z := default 0 (o !! k).

(** [getmany] continues each partition from its committed offset. *)
Definition fetched (o : gmap (pystr * Z) Z) (records : list IncomingMessage) : Prop :=
  ∀ k, ∃ n, where_ (λ m, bool_decide (partition_of m = k)) records
            = take n (where_ (λ m, committed o k <=? im_offset m) (log k)).

(** The consumer, restarted after every failure, among everything else that runs. *)
Inductive consumer_step (w : world * gmap (pystr * Z) Z) : world * gmap (pystr * Z) Z → Prop :=
  | step_poll env commit records r w' :
      (∀ m, env_ok (env m)) → fetched w.2 records →
      consume handler retry env commit records w = (r, w') → consumer_step w w'
  | step_other s : later w.1 s → consumer_step w (s, w.2).

(** Nothing below a committed offset waits. *)
Definition none_skipped (w : world * gmap (pystr * Z) Z) : Prop :=
  ∀ k m, m ∈ log k → im_offset m < committed w.2 k → settled w.1 m.

Lemma sorted_prefix {A} (f : A → Z) l n a b :
  StronglySorted (λ x y, f x < f y) l → a ∈ take n l → b ∈ l → f b ≤ f a → b ∈ take n l.
Proof.
  intros Hs Ha Hb Hle. rewrite <-(take_drop n l) in Hb. apply elem_of_app in Hb as [Hb|Hb]; [done|].
  exfalso. rewrite <-(take_drop n l) in Hs.
  assert (f a < f b); [|lia]. clear Hle. revert Hs Ha Hb. generalize (take n l) as p, (drop n l) as q.
  intros p q. induction p as [|x p IH]; intros Hs Ha Hb; [by apply not_elem_of_nil in Ha|].
  cbn [app] in Hs. apply StronglySorted_inv in Hs as [Hs Hx]. rewrite Forall_forall in Hx.
  apply elem_of_cons in Ha as [->|Ha]; [|by apply IH]. apply Hx, elem_of_app. by right.
Qed.

Lemma consume_cases env commit records s o r s' o' :
  (∀ m, env_ok (env m)) → consume handler retry env commit records (s, o) = (r, (s', o')) →
  later s s' ∧
  (o' = o ∨ o' = next_offsets records ∪ o ∧ ∀ m, m ∈ records → settled s' m).
Proof using HL PL.
  intros Ho H. unfold consume, mbind at 1, st_bind at 1, on_left in H. cbn [fst snd] in H.
  destruct (mapM_ _ records s) as [[os|e] s1] eqn:E.
  2:{ injection H as _ <- <-. split; [|by left].
      by apply (process_all_later env records (λ m _, Ho m) _ _ _ E). }
  pose proof (process_all_later env records (λ m _, Ho m) _ _ _ E) as L.
  pose proof (process_all_settles env records s os s1 (λ m _, Ho m) E) as S.
  destruct records as [|m0 ms]; [injection H as _ <- <-; split; [done|by left]|].
  set (l := m0 :: ms) in *. destruct commit as [|e|e].
  - unfold on_right, modify in H. injection H as _ <- <-. split; [done|]. by right.
  - injection H as _ <- <-. split; [done|]. by left.
  - unfold mbind, st_bind, on_right, modify, raise in H. injection H as _ <- <-. split; [done|]. by right.
Qed.

Lemma consumer_step_none_skipped w w' : consumer_step w w' → none_skipped w → none_skipped w'.
Proof using HL PL Hlog Hpart.
  intros [env commit records r [s' o'] Ho Hf H|s Hl] Hn k m Hm Hoff.
  2:{ apply (settled_later w.1); [done|]. by apply (Hn k). }
  destruct w as [s o]. apply consume_cases in H as [L Hc]; [|done]. cbn [fst snd] in *.
  assert (Hold : im_offset m < committed o k → settled s' m).
  { intros Hlt. apply (settled_later s); [done|]. by apply (Hn k). }
  destruct Hc as [->|[-> Hs]]; [by apply Hold|]. unfold committed in Hoff.
  destruct (next_offsets records !! k) as [off|] eqn:En.
  2:{ apply Hold. unfold committed. rewrite lookup_union in Hoff. rewrite En in Hoff.
      by rewrite (left_id_L None (union)) in Hoff. }
  rewrite (lookup_union_Some_l _ _ _ off) in Hoff by done. cbn in Hoff.
  apply next_offsets_spec in En as [Hneg|(m' & Hm' & Hk & ->)].
  { destruct (Hpart k m Hm). lia. }
  destruct (Z.lt_ge_cases (im_offset m) (committed o k)) as [Hlt|Hge]; [by apply Hold|].
  destruct (Hf k) as [n Hfk].
  assert (Hin' : m' ∈ take n (where_ (λ m, committed o k <=? im_offset m) (log k))).
  { rewrite <-Hfk. apply elem_of_where_. by rewrite bool_decide_eq_true. }
  assert (Hin : m ∈ take n (where_ (λ m, committed o k <=? im_offset m) (log k))).
  { eapply (sorted_prefix im_offset); [|exact Hin'| |lia].
    - by apply StronglySorted_where, Hlog.
    - apply elem_of_where_. split; [by apply Z.leb_le|done]. }
  rewrite <-Hfk in Hin. apply elem_of_where_ in Hin as [_ Hin]. by apply Hs.
Qed.

(** C36. At-least-once consumption: whatever the order of polls, handler failures,
    rollbacks, lost commits of offsets or of transactions and restarts, every
    message below a committed offset was applied to the database, is of a type the
    consumer does not handle, or is in the dead-letter topic. *)
Theorem no_message_is_skipped s0 w :
  rtc consumer_step (s0, ∅) w → none_skipped w.
Proof using HL PL Hlog Hpart.
  intros H. assert (H0 : none_skipped (s0, ∅)).
  { intros k m Hm Hoff. unfold committed in Hoff. cbn [snd] in Hoff. rewrite lookup_empty in Hoff.
    cbn in Hoff. destruct (Hpart k m Hm). lia. }
  revert H0. induction H as [w|w w1 w2 Hs _ IH]; [done|]. intros H0.
  by apply IH, (consumer_step_none_skipped w).
Qed.

End delivery.

(** * services/activity.py *)

Definition MAX_DAYS : Z := 366.

Record ActivityReport := {
  ar_since : Z; ar_days : list activity_day; ar_pending_events : Z }.

(** [date.min] in days from 1 January 1970. *)
Definition DATE_MIN : Z := -719162.

Definition activity_recent (ctx : TenantContext) (days today : Z) : DB ActivityReport :=
  _ ← guard_ ((1 <=? days) && (days <=? MAX_DAYS))
        (ValidationFailedError "days must be between 1 and {MAX_DAYS}");
  let since := today - (days - 1) in
  _ ← guard_ (DATE_MIN <=? since) (LibraryError "OverflowError");
  transaction (
    _ ← require_permission ctx READ_FACTS;
    rows ← ActivityRepository.recent (ctx_organization_id ctx) since;
    pending ← EventOutboxRepository.pending (Some (ctx_organization_id ctx));
    mret {| ar_since := since; ar_days := rows; ar_pending_events := pending |}).
