(* ===== verification/EventFlow.v ===== *)
(** The event pipeline end to end: triggers, outbox, relay, broker, consumer.  The
    parts are those of Schema.v, EventRelay.v and Consumers.v. *)

From stdpp Require Import gmap.
From S2P Require Import Prelude PyStr Json Regex Validation Access Temporal History Database.
From S2P Require Import Schema EventRelay Accounts FactRepo EvidenceService Canonical FactService.
From S2P Require Import Ledger TemporalService Ranking Retrieval Store RetrievalCache Consumers.

Section flow.
Context {X : Type} `{PX : !Publisher X} `{EC : EventCodec} `{PF : !PayloadFields} `{EL : !EventCodecLaws} `{ET : ExceptionText}.
Context {B : Type} `{PB : !Publisher B} `{PL : !PublisherLaws B}.
Context (batch_size : Z) (organization_id : option UUID) (retry : RetryPolicy).

Let projector : EventHandler X := ActivityProjector.
Let name : pystr := eh_name projector.

(** The payload model of an event's type accepts its payload. *)
Definition well_typed (e : outbox_event) : Prop := event_payload (envelope_for e) = Ok ().

(** The message the relay sends for such an event decodes to the event. *)
Lemma sent_decodes e m : well_typed e → message_for e = Ok m → decode (om_value m) = Ok (envelope_for e).
Proof using EL.
  intros Hw H. unfold message_for in H. apply result_bind_ok in H as (topic & Ht & H).
  repeat (apply result_bind_ok in H as (? & _ & H)). injection H as <-. unfold decode.
  cbn [om_value]. rewrite validate_dumped, Hw. done.
Qed.

(** [im] carries what the relay published for [e]. *)
Definition carries (im : IncomingMessage) (e : outbox_event) : Prop :=
  ∃ m, message_for e = Ok m ∧ im_value im = om_value m.

(** A delivery that answered without giving the message up. *)
Definition applied (d : IncomingMessage * result Outcome) : Prop :=
  ∃ o, d.2 = Ok o ∧ o ≠ DEAD_LETTERED.

(** The messages carry emitted events, and so do the events the specification saw. *)
Lemma spec_runs_real (emitted : list outbox_event) tr h h' : (∀ e, e ∈ emitted → well_typed e) →
  spec_runs tr h h' → (∀ d, d ∈ tr → ∃ e, e ∈ emitted ∧ carries d.1 e) →
  (∀ x, x ∈ h → ∃ e : outbox_event, e ∈ emitted ∧ x = envelope_for e) →
  ∀ x, x ∈ h' → ∃ e : outbox_event, e ∈ emitted ∧ x = envelope_for e.
Proof using EL.
  intros Hty. induction 1 as [h|m r tr h h1 h2 Hs _ IH]; intros Htr Hh; [done|].
  apply IH; [intros d Hd; apply Htr; by right|].
  destruct (Htr (m, r) ltac:(by left)) as (e & He & om & Hom & Hv). cbn [fst] in Hv.
  assert (Hd : decode (im_value m) = Ok (envelope_for e)) by (rewrite Hv; apply sent_decodes; [by apply Hty|done]).
  assert (Hsee : ∀ x, x ∈ h ++ [envelope_for e] → ∃ e : outbox_event, e ∈ emitted ∧ x = envelope_for e).
  { intros x [Hx| ->%list_elem_of_singleton]%elem_of_app; [by apply Hh|by exists e]. }
  assert (Hsee' : ∀ x, x ∈ see (envelope_for e) h → ∃ e : outbox_event, e ∈ emitted ∧ x = envelope_for e).
  { intros x. unfold see. case_bool_decide; [apply Hh|apply Hsee]. }
  destruct Hs as [exc r He' _|e' He' _|e' He' _ _|e' He' _|e' r h1' He' _ [->| ->] _];
    rewrite Hd in He'; try done; injection He' as <-; done.
Qed.

Lemma see_in e h : en_id e ∈ map en_id (see e h).
Proof.
  unfold see. case_bool_decide; [done|]. rewrite map_app. apply elem_of_app. right. by left.
Qed.

Lemma spec_step_grows m h r h' : spec_step m h r h' → ∀ i, i ∈ map en_id h → i ∈ map en_id h'.
Proof.
  assert (Happ : ∀ e i, i ∈ map en_id h → i ∈ map en_id (h ++ [e])).
  { intros e i Hi. rewrite map_app. apply elem_of_app. by left. }
  assert (Hsee : ∀ e i, i ∈ map en_id h → i ∈ map en_id (see e h)).
  { intros e i Hi. unfold see. case_bool_decide; auto. }
  intros [| | | |e r' h1' _ _ [->| ->] _]; auto.
Qed.

(** Every delivery that was applied left its event among those seen. *)
Lemma spec_runs_seen tr h h' :
  spec_runs tr h h' →
  (∀ i, i ∈ map en_id h → i ∈ map en_id h') ∧
  (∀ d e, d ∈ tr → applied d → decode (im_value d.1) = Ok e → subscribed e → en_id e ∈ map en_id h').
Proof.
  induction 1 as [h|m r tr h h1 h2 Hs _ [IH1 IH2]].
  { split; [done|]. by intros d e ?%not_elem_of_nil. }
  split; [intros i Hi; by apply IH1, (spec_step_grows m h r h1)|].
  intros d e [->|Hd]%elem_of_cons Ha Hdec Hsub; [|by apply (IH2 d)].
  apply IH1. destruct Ha as (o & Ho & Hne). cbn [fst snd] in *. subst r.
  inversion Hs as [exc r He _|e' He Hn|e' He _ Hni|e' He _|e' r h1' He _ _ Hr]; subst;
    rewrite Hdec in He; try done; try (injection He as <-); try done.
  - rewrite map_app. apply elem_of_app. right. by left.
  - apply see_in.
  - destruct Hr as [[= ->]|?]; done.
Qed.

(** Same keys, same elements: a filtered count is the same. *)
Lemma same_count {A} (key : A → Z) (p : A → bool) l k :
  NoDup (map key l) → NoDup (map key k) → (∀ x, p x = true → x ∈ l ↔ x ∈ k) →
  length (where_ p l) = length (where_ p k).
Proof.
  intros Hl Hk Hin. apply Permutation_length, NoDup_Permutation.
  - apply (NoDup_fmap_1 key). by apply map_where_NoDup.
  - apply (NoDup_fmap_1 key). by apply map_where_NoDup.
  - intros x. rewrite !elem_of_where_. naive_solver.
Qed.

Lemma assoc_in {A} k (l : list (pystr * A)) v : assoc k l = Some v → k ∈ map fst l.
Proof.
  induction l as [|[k' v'] l IH]; cbn [assoc]; [done|]. case_bool_decide as E; intros H; cbn [map].
  - subst. by left.
  - right. by apply IH.
Qed.

(** Each counter is the number of emitted events it counts, when the events are well
    typed, the outbox is drained and every published message was applied. *)
Lemma relayed_counts d b w tr (s s' : db * X) org day counter :
  NoDup (map eo_id (tab d EventOutbox)) → published b = [] →
  rtc (relay_step batch_size organization_id)
    {| rw_db := d; rw_broker := b; rw_emitted := tab d EventOutbox |} w →
  tab (rw_db w) EventOutbox = [] → NoDup (map eo_event_id (rw_emitted w)) →
  (∀ e, e ∈ rw_emitted w → well_typed e) →
  projection name [] s.1 → runs retry tr s s' →
  (∀ t, t ∈ tr → ∃ m, m ∈ published (rw_broker w) ∧ im_value t.1 = om_value m) →
  (∀ m, m ∈ published (rw_broker w) → ∃ t, t ∈ tr ∧ im_value t.1 = om_value m ∧ applied t) →
  counter ∈ ACTIVITY_COUNTERS →
  counter_of s'.1 org day counter
  = zlen (where_ (λ e, counts_in org day counter (envelope_for e)) (rw_emitted w)).
Proof using EL PL.
  intros Hn Hb Hw Hempty Hids Hty Hp Hr Hfrom Hall Hc.
  destruct (relay_reachable_ok batch_size organization_id d b w Hn Hb Hw) as [_ _ Hkept Hreal].
  destruct (runs_refine retry tr [] s s' Hp Hr) as (h & Hspec & [Hnd _ Hcnt]).
  rewrite Hcnt by done. unfold count_of, zlen. f_equal.
  assert (Hcarry : ∀ t, t ∈ tr → ∃ e, e ∈ rw_emitted w ∧ carries t.1 e).
  { intros t Ht. destruct (Hfrom t Ht) as (m & Hm & Hv). destruct (Hreal m Hm) as (e & He & Hme).
    exists e. split; [done|]. by exists m. }
  pose proof (spec_runs_real (rw_emitted w) tr [] h Hty Hspec Hcarry) as Hh.
  rewrite <-(length_map envelope_for), <-(where_map envelope_for (counts_in org day counter)).
  apply (same_count en_id); [done| |].
  { by rewrite List.map_map. }
  intros x Hx. rewrite list_elem_of_fmap. split.
  - intros (e & He & ->)%Hh; [by exists e|]. by intros y ?%not_elem_of_nil.
  - intros (e & -> & He). destruct (Hkept e He) as [Hin|(m & Hme & Hm)].
    { rewrite Hempty in Hin. by apply not_elem_of_nil in Hin. }
    destruct (Hall m Hm) as (t & Ht & Hv & Ha). destruct (spec_runs_seen tr [] h Hspec) as [_ Hseen].
    assert (Hin : en_id (envelope_for e) ∈ map en_id h).
    { apply (Hseen t); [done|done|by rewrite Hv; apply sent_decodes; [by apply Hty|]|].
      unfold counts_in in Hx. apply andb_true_iff in Hx as [_ Hx%bool_decide_eq_true].
      by apply (assoc_in _ _ _ Hx). }
    apply list_elem_of_fmap in Hin as (x & Hid & Hin).
    destruct (Hh ltac:(by intros y ?%not_elem_of_nil) x Hin) as (e' & He' & ->).
    assert (e = e') as ->; [|done]. by apply (same_key_same eo_event_id (rw_emitted w)).
Qed.

End flow.
