(* ===== verification/EmbeddingQueue.v ===== *)
(** The embedding queue and its worker: app/domain/embeddings.py,
    app/repositories/embeddings.py and app/workers/embeddings.py.  A job is leased
    to one worker at a time; the provider is called between transactions. *)

From stdpp Require Import gmap.
From S2P Require Import Prelude PyStr Json Regex Validation Access Temporal History Database.
From S2P Require Import Schema Accounts FactRepo EvidenceService Canonical FactService Ledger.
From S2P Require Import TemporalService Ranking Retrieval Store RetrievalCache.

(** * domain/embeddings.py *)

Definition EMBEDDING_DIMENSIONS : Z := 1536.
Definition FACT_TEXT_TEMPLATE : pystr := py "fact-text-v1".

(** [s.replace(c, new)] for a one-character [c]. *)
Definition replace_char (c : Z) (new s : pystr) : pystr :=
  flat_map (λ x, if x =? c then new else [x]) s.

Section documents.
Context `{FR : !FloatRepr} `{SH : !Sha256}.

Definition render_fact_document (entity_type external_id prop : pystr) (value : json) : result pystr :=
  let readable_property := replace_char 46 (py " / ") (replace_char 95 (py " ") prop) in
  rendered_value ← dumps document_options value;
  Ok (entity_type ++ py " " ++ external_id ++ [10] ++ readable_property ++ py ": " ++ rendered_value).

Definition document_hash (text : pystr) : result pystr :=
  b ← encode_utf8 text; Ok (sha256_hex b).

End documents.

(** Seconds are whole microseconds here; the product is computed before the cap is
    applied, and an integer of 1024 bits or more is no float. *)
Definition retry_delay (attempts base cap : Z) : result Z :=
  if attempts <? 1 then Ok 0
  else if 1024 <=? attempts - 1 then Err (LibraryError "OverflowError")
  else Ok (Z.min cap (base * 2 ^ (attempts - 1))).

(** * repositories/embeddings.py *)

Record ClaimedJob := {
  cj_job_id : UUID; cj_organization_id : UUID; cj_fact_version_id : UUID; cj_lease_token : UUID;
  cj_attempts : Z }.
Record FactDocumentSource := {
  ds_organization_id : UUID; ds_fact_version_id : UUID; ds_entity_type : pystr;
  ds_external_id : pystr; ds_property : pystr; ds_value : json }.

Definition in_scope (organization_id : option UUID) (o : UUID) : bool :=
  match organization_id with None => true | Some i => o =? i end.

Module EmbeddingJobStore.
Section store.
Context (model : pystr).

(** ** enqueue_missing *)

Definition job_of (v : UUID) (j : embedding_job) : bool :=
  (ej_fact_version_id j =? v) && bool_decide (ej_model j = model).
Definition embedding_of (v : UUID) (e : embedding_row) : bool :=
  (em_fact_version_id e =? v) && bool_decide (em_model e = model).

Definition missing (organization_id : option UUID) (d : db) : list fact_version :=
  where_ (λ v, negb (exists_row EmbeddingJobs (job_of (fv_id v)) d)
               && negb (exists_row FactEmbeddings (embedding_of (fv_id v)) d)
               && in_scope organization_id (fv_organization_id v)) (tab d FactVersions).

Definition pending_job (i : UUID) (now : Instant) (v : fact_version) : embedding_job := {|
  ej_id := i; ej_organization_id := fv_organization_id v; ej_fact_version_id := fv_id v;
  ej_model := model; ej_status := PENDING; ej_attempts := 0; ej_available_at := now;
  ej_locked_at := None; ej_lease_token := None; ej_last_error := None; ej_created_at := now |}.

Definition enqueue (v : fact_version) : DB bool :=
  i ← fresh_id;
  now ← gets db_now;
  insert_or_nothing EmbeddingJobs (job_of (fv_id v)) (pending_job i now v).

Definition enqueue_missing (limit : Z) (organization_id : option UUID) : DB Z :=
  rows ← gets (λ d, take (Z.to_nat limit) (sort_on fv_recorded_at (missing organization_id d)));
  inserted ← mapM_ enqueue rows;
  mret (zlen (where_ id inserted)).

(** ** claim *)

Definition due (lease : Z) (now : Instant) (j : embedding_job) : bool :=
  bool_decide (ej_model j = model) && (ej_available_at j <=? now)
  && (bool_decide (ej_status j = PENDING)
      || bool_decide (ej_status j = RUNNING)
         && match ej_locked_at j with Some t => t <? now - lease | None => false end).

(** ORDER BY available_at, created_at *)
Definition by_due (a b : embedding_job) : bool :=
  (ej_available_at a <? ej_available_at b)
  || (ej_available_at a =? ej_available_at b) && (ej_created_at a <=? ej_created_at b).

Definition leased (now : Instant) (token : UUID) (j : embedding_job) : embedding_job := {|
  ej_id := ej_id j; ej_organization_id := ej_organization_id j;
  ej_fact_version_id := ej_fact_version_id j; ej_model := ej_model j; ej_status := RUNNING;
  ej_attempts := ej_attempts j + 1; ej_available_at := ej_available_at j;
  ej_locked_at := Some now; ej_lease_token := Some token; ej_last_error := ej_last_error j;
  ej_created_at := ej_created_at j |}.

Definition take_lease (j : embedding_job) : DB ClaimedJob :=
  token ← fresh_id;
  now ← gets db_now;
  _ ← exec_update EmbeddingJobs (λ x, ej_id x =? ej_id j) (leased now token);
  mret {| cj_job_id := ej_id j; cj_organization_id := ej_organization_id j;
          cj_fact_version_id := ej_fact_version_id j; cj_lease_token := token;
          cj_attempts := ej_attempts j + 1 |}.

(** [locked]: the rows other transactions hold (FOR UPDATE SKIP LOCKED). *)
Definition claimable (batch_size lease : Z) (organization_id : option UUID)
    (locked : embedding_job → bool) (d : db) : list embedding_job :=
  take (Z.to_nat batch_size) (sort_by by_due
    (where_ (λ j, due lease (db_now d) j && in_scope organization_id (ej_organization_id j)
                  && negb (locked j)) (tab d EmbeddingJobs))).

Definition claim (batch_size lease : Z) (organization_id : option UUID)
    (locked : embedding_job → bool) : DB (list ClaimedJob) :=
  jobs ← gets (claimable batch_size lease organization_id locked);
  mapM_ take_lease jobs.

(** ** documents and cached vectors *)

Definition documents (jobs : list ClaimedJob) : DB (list FactDocumentSource) :=
  gets (λ d,
    v ← where_ (λ v, bool_decide (fv_id v ∈ map cj_fact_version_id jobs)) (tab d FactVersions);
    f ← where_ (λ f, (f_organization_id f =? fv_organization_id v) && (f_id f =? fv_fact_id v))
               (tab d Facts);
    e ← where_ (λ e, (e_organization_id e =? f_organization_id f) && (e_id e =? f_entity_id f))
               (tab d Entities);
    [{| ds_organization_id := fv_organization_id v; ds_fact_version_id := fv_id v;
        ds_entity_type := e_entity_type e; ds_external_id := e_external_id e;
        ds_property := f_property f; ds_value := fv_value v |}]).

Definition same_text (organization_id : UUID) (digest : pystr) (e : embedding_row) : bool :=
  (em_organization_id e =? organization_id) && bool_decide (em_model e = model)
  && bool_decide (em_content_sha256 e = digest).

(** DISTINCT ON (content_sha256): one of the rows with each digest, here the first. *)
Definition cached_vectors (organization_id : UUID) (hashes : list pystr) :
    DB (list (pystr * list pyfloat)) :=
  gets (λ d,
    digest ← dict_fromkeys hashes;
    match where_ (same_text organization_id digest) (tab d FactEmbeddings) with
    | e :: _ => [(digest, em_embedding e)]
    | [] => []
    end).

(** ** outcomes *)

Definition save_embedding (job : ClaimedJob) (vector : list pyfloat)
    (text_template content_sha256 : pystr) : DB bool :=
  now ← gets db_now;
  insert_or_nothing FactEmbeddings (embedding_of (cj_fact_version_id job))
    {| em_organization_id := cj_organization_id job; em_fact_version_id := cj_fact_version_id job;
       em_model := model; em_dimensions := EMBEDDING_DIMENSIONS; em_embedding := vector;
       em_text_template := text_template; em_content_sha256 := content_sha256; em_created_at := now |}.

Definition holds_lease (job : ClaimedJob) (j : embedding_job) : bool :=
  (ej_id j =? cj_job_id job) && bool_decide (ej_lease_token j = Some (cj_lease_token job)).

Definition released (status : EmbeddingJobStatus) (available_at : option Instant)
    (last_error : option pystr) (j : embedding_job) : embedding_job := {|
  ej_id := ej_id j; ej_organization_id := ej_organization_id j;
  ej_fact_version_id := ej_fact_version_id j; ej_model := ej_model j; ej_status := status;
  ej_attempts := ej_attempts j; ej_available_at := default (ej_available_at j) available_at;
  ej_locked_at := None; ej_lease_token := None; ej_last_error := last_error;
  ej_created_at := ej_created_at j |}.

Definition complete (job : ClaimedJob) : DB bool :=
  held ← gets (exists_row EmbeddingJobs (holds_lease job));
  _ ← exec_update EmbeddingJobs (holds_lease job) (released SUCCEEDED None None);
  mret held.

Definition fail (job : ClaimedJob) (error : pystr) (retry_in : option Z) : DB unit :=
  now ← gets db_now;
  exec_update EmbeddingJobs (holds_lease job)
    (match retry_in with
     | None => released FAILED None (Some (take 500 error))
     | Some delay => released PENDING (Some (now + delay)) (Some (take 500 error))
     end).

End store.
End EmbeddingJobStore.

(** * workers/embeddings.py *)

Record WorkerStats := {
  ws_enqueued : Z; ws_claimed : Z; ws_succeeded : Z; ws_failed : Z; ws_reused : Z;
  ws_embedded : Z; ws_tokens : Z; ws_lease_lost : Z }.

Definition no_stats : WorkerStats := {|
  ws_enqueued := 0; ws_claimed := 0; ws_succeeded := 0; ws_failed := 0; ws_reused := 0;
  ws_embedded := 0; ws_tokens := 0; ws_lease_lost := 0 |}.

Definition add_stats (a b : WorkerStats) : WorkerStats := {|
  ws_enqueued := ws_enqueued a + ws_enqueued b; ws_claimed := ws_claimed a + ws_claimed b;
  ws_succeeded := ws_succeeded a + ws_succeeded b; ws_failed := ws_failed a + ws_failed b;
  ws_reused := ws_reused a + ws_reused b; ws_embedded := ws_embedded a + ws_embedded b;
  ws_tokens := ws_tokens a + ws_tokens b; ws_lease_lost := ws_lease_lost a + ws_lease_lost b |}.

Record EmbeddingBatch := { eb_vectors : list (list pyfloat); eb_total_tokens : Z }.

(** The worker's settings; [ew_retrieval_cache] is whether it has one. *)
Record EmbeddingWorker := {
  ew_model : pystr; ew_max_batch_size : Z; ew_batch_size : Z; ew_max_attempts : Z; ew_lease : Z;
  ew_retry_base : Z; ew_retry_cap : Z; ew_organization_id : option UUID;
  ew_retrieval_cache : bool }.

(** The transactions of an iteration, in order; [Write] also records a failure. *)
Inductive phase := Reconcile | Claim | Read | Write.

(** What surrounds an iteration: what other transactions do before each of its
    own, how its transactions end, the rows others hold, the provider's answers. *)
Record worker_env := {
  we_others : phase → db → db; we_commit : phase → commit_outcome;
  we_locked : embedding_job → bool; we_embed : list pystr → result EmbeddingBatch }.

(** A Python dict from its items: the last value of a key, at its first place. *)
Definition dict_get {K V} `{EqDecision K} (k : K) (items : list (K * V)) : option V :=
  option_map snd (List.find (λ kv, bool_decide (kv.1 = k)) (rev items)).
Definition dict_items {K V} `{EqDecision K} (items : list (K * V)) : list (K * V) :=
  k ← dict_fromkeys (map fst items);
  match dict_get k items with Some v => [(k, v)] | None => [] end.

(** [items[i : i + n] for i in range(0, len(items), n)] *)
Fixpoint chunks {A} (fuel n : nat) (l : list A) : list (list A) :=
  match fuel, l with
  | S fuel, _ :: _ => take n l :: chunks fuel n (drop n l)
  | _, _ => []
  end.
Definition ranges {A} (n : Z) (l : list A) : result (list (list A)) :=
  if n =? 0 then Err ValueError
  else Ok (if n <? 0 then [] else chunks (length l) (Z.to_nat n) l).

Definition zip_strict {A B} (l : list A) (k : list B) : result (list (A * B)) :=
  if Nat.eqb (length l) (length k) then Ok (combine l k) else Err ValueError.

Definition is_provider_error (e : exn) : bool :=
  match e with EmbeddingProviderError _ => true | _ => false end.

Section worker.
Context `{FR : !FloatRepr} `{SH : !Sha256} `{KS : KeyValueStore} `{ET : ExceptionText}.
Context (w : EmbeddingWorker) (env : worker_env).

Definition in_phase {A} (p : phase) (m : DB A) : ST (db * kv) A :=
  _ ← on_db (modify (we_others env p));
  db_transaction (we_commit env p) (on_db m).

(** A job with the text of its version and the digest of the text. *)
Definition prepare (sources : list FactDocumentSource) (job : ClaimedJob) :
    result (ClaimedJob * (pystr * pystr)) :=
  match dict_get (cj_fact_version_id job) (map (λ s, (ds_fact_version_id s, s)) sources) with
  | None => Err KeyError
  | Some s =>
    text ← render_fact_document (ds_entity_type s) (ds_external_id s) (ds_property s) (ds_value s);
    digest ← document_hash text;
    Ok (job, (text, digest))
  end.

Definition organizations_of (jobs : list ClaimedJob) : list UUID :=
  dict_fromkeys (map cj_organization_id jobs).

Definition hashes_of (o : UUID) (prepared : list (ClaimedJob * (pystr * pystr))) : list pystr :=
  map (λ p, p.2.2) (where_ (λ p, cj_organization_id p.1 =? o) prepared).

(** The texts of the jobs, and the vectors their organizations already have. *)
Definition read_phase (jobs : list ClaimedJob) :
    DB (list (ClaimedJob * (pystr * pystr)) * list ((UUID * pystr) * list pyfloat)) :=
  sources ← EmbeddingJobStore.documents jobs;
  prepared ← lift (mapR (prepare sources) jobs);
  cached ← mapM_ (λ o,
    vectors ← EmbeddingJobStore.cached_vectors (ew_model w) o (hashes_of o prepared);
    mret (map (λ kv, ((o, kv.1), kv.2)) vectors)) (organizations_of jobs);
  mret (prepared, concat cached).

Definition to_embed (prepared : list (ClaimedJob * (pystr * pystr)))
    (cache : list ((UUID * pystr) * list pyfloat)) : list (pystr * pystr) :=
  dict_items (map (λ p, (p.2.2, p.2.1))
    (where_ (λ p, bool_decide (dict_get (cj_organization_id p.1, p.2.2) cache = None)) prepared)).

Fixpoint embed_all (batches : list (list (pystr * pystr))) : result (list (pystr * list pyfloat) * Z) :=
  match batches with
  | [] => Ok ([], 0)
  | chunk :: batches =>
    batch ← we_embed env (map snd chunk);
    fresh ← zip_strict (map fst chunk) (eb_vectors batch);
    rest ← embed_all batches;
    Ok (fresh ++ rest.1, eb_total_tokens batch + rest.2)
  end.

Definition embed_texts (items : list (pystr * pystr)) : result (list (pystr * list pyfloat) * Z) :=
  batches ← ranges (ew_max_batch_size w) items; embed_all batches.

(** Store the vector of a job and mark the job; whether it was reused, and kept. *)
Definition write_one (cache : list ((UUID * pystr) * list pyfloat)) (fresh : list (pystr * list pyfloat))
    (p : ClaimedJob * (pystr * pystr)) : DB (bool * bool) :=
  let cached := dict_get (cj_organization_id p.1, p.2.2) cache in
  vector ← lift (match cached with
                 | Some v => Ok v
                 | None => match dict_get p.2.2 fresh with Some v => Ok v | None => Err KeyError end
                 end);
  _ ← EmbeddingJobStore.save_embedding (ew_model w) p.1 vector FACT_TEXT_TEMPLATE p.2.2;
  kept ← EmbeddingJobStore.complete p.1;
  mret (bool_decide (cached ≠ None), kept).

Definition fail_one (error : pystr) (job : ClaimedJob) : DB bool :=
  let final := ew_max_attempts w <=? cj_attempts job in
  retry_in ← lift (if final then Ok None
                   else delay ← retry_delay (cj_attempts job) (ew_retry_base w) (ew_retry_cap w);
                        Ok (Some delay));
  _ ← EmbeddingJobStore.fail job error retry_in;
  mret final.

Definition record_failure (jobs : list ClaimedJob) (error : pystr) : ST (db * kv) WorkerStats :=
  final ← in_phase Write (mapM_ (fail_one error) jobs);
  mret {| ws_enqueued := 0; ws_claimed := 0; ws_succeeded := 0; ws_failed := zlen (where_ id final);
          ws_reused := 0; ws_embedded := 0; ws_tokens := 0; ws_lease_lost := 0 |}.

Definition process_jobs (jobs : list ClaimedJob) : ST (db * kv) WorkerStats :=
  read ← in_phase Read (read_phase jobs);
  let '(prepared, cache) := read in
  let items := to_embed prepared cache in
  match embed_texts items with
  | Err exc =>
    if is_provider_error exc
    then record_failure jobs (py (exn_name exc) ++ py ": " ++ exn_str exc)
    else raise exc
  | Ok (fresh, tokens) =>
    results ← in_phase Write (mapM_ (write_one cache fresh) prepared);
    _ ← mapM_ (λ o, on_ext (invalidate o))
          (if ew_retrieval_cache w then sort_on id (organizations_of jobs) else []);
    mret {| ws_enqueued := 0; ws_claimed := 0;
            ws_succeeded := zlen (where_ snd results); ws_failed := 0;
            ws_reused := zlen (where_ fst results); ws_embedded := zlen items;
            ws_tokens := tokens; ws_lease_lost := zlen (where_ (λ x, negb x.2) results) |}
  end.

Definition run_worker : ST (db * kv) WorkerStats :=
  enqueued ← in_phase Reconcile
    (EmbeddingJobStore.enqueue_missing (ew_model w) (ew_batch_size w * 4) (ew_organization_id w));
  jobs ← in_phase Claim
    (EmbeddingJobStore.claim (ew_model w) (ew_batch_size w) (ew_lease w) (ew_organization_id w)
       (we_locked env));
  let found := {| ws_enqueued := enqueued; ws_claimed := zlen jobs; ws_succeeded := 0;
                  ws_failed := 0; ws_reused := 0; ws_embedded := 0; ws_tokens := 0; ws_lease_lost := 0 |} in
  match jobs with
  | [] => mret found
  | _ => stats ← process_jobs jobs; mret (add_stats stats found)
  end.

End worker.

(** The one-shot backfill: at most [max_batches] iterations, until one claims nothing. *)
Section drain.
Context `{FR : !FloatRepr} `{SH : !Sha256} `{KS : KeyValueStore} `{ET : ExceptionText}.
Context (w : EmbeddingWorker).

Fixpoint drain_jobs (envs : nat → worker_env) (max_batches : nat) (total : WorkerStats) :
    ST (db * kv) WorkerStats :=
  match max_batches with
  | O => mret total
  | S n =>
    stats ← run_worker w (envs n);
    let total := add_stats total stats in
    if ws_claimed stats =? 0 then mret total else drain_jobs envs n total
  end.

End drain.
