(* ===== verification/Leases.v ===== *)
(** The embedding queue is safe under any number of workers: how the row of a job
    moves, what holds of every row, and that an iteration of a worker keeps both. *)

From stdpp Require Import gmap.
From S2P Require Import Prelude PyStr Json Regex Validation Access Temporal History Database.
From S2P Require Import Schema Accounts FactRepo EvidenceService Canonical FactService Ledger.
From S2P Require Import TemporalService Ranking Retrieval Store RetrievalCache EmbeddingQueue.

Import EmbeddingJobStore.

(** * The life of a job *)

(** A lease is taken on a waiting job or on one whose lease has run out; only a
    lease is given back. *)
Inductive job_step : embedding_job → embedding_job → Prop :=
  | step_lease j now token lease :
      ej_status j = PENDING ∨
      ej_status j = RUNNING ∧ (∃ t, ej_locked_at j = Some t ∧ t < now - lease) →
      job_step j (leased now token j)
  | step_release j token status available_at last_error :
      ej_lease_token j = Some token → status ≠ RUNNING →
      job_step j (released status available_at last_error j).

(** What a job is about never changes; attempts only grow. *)
Record same_work (j j' : embedding_job) : Prop := {
  sw_id : ej_id j' = ej_id j;
  sw_organization : ej_organization_id j' = ej_organization_id j;
  sw_version : ej_fact_version_id j' = ej_fact_version_id j;
  sw_model : ej_model j' = ej_model j;
  sw_attempts : ej_attempts j ≤ ej_attempts j';
}.

#[export] Instance same_work_preorder : PreOrder same_work.
Proof.
  split; [by intros j; split|]. intros a b c [A1 A2 A3 A4 A5] [B1 B2 B3 B4 B5].
  split; [congruence..|lia].
Qed.

Lemma job_steps_same_work j j' : rtc job_step j j' → same_work j j'.
Proof.
  induction 1 as [j|j j1 j' H _ IH]; [reflexivity|]. etrans; [|exact IH].
  destruct H; split; cbn; try done; lia.
Qed.

(** The status and the lease agree, and a finished job has its embedding. *)
Record job_ok (d : db) (j : embedding_job) : Prop := {
  jo_lease : ej_status j = RUNNING ↔ ej_lease_token j ≠ None;
  jo_locked : ej_status j = RUNNING ↔ ej_locked_at j ≠ None;
  jo_attempts : 0 ≤ ej_attempts j ∧ (ej_status j ≠ PENDING → 1 ≤ ej_attempts j);
  jo_done : ej_status j = SUCCEEDED →
    exists_row FactEmbeddings (embedding_of (ej_model j) (ej_fact_version_id j)) d = true;
}.

Definition queue_ok (d : db) : Prop :=
  consistent d ∧ ∀ j, j ∈ tab d EmbeddingJobs → job_ok d j.

(** No row disappears; each goes through steps, and a new one started as PENDING. *)
Definition evolves (d d' : db) : Prop :=
  ∃ kept new, tab d' EmbeddingJobs = kept ++ new ∧
    Forall2 (rtc job_step) (tab d EmbeddingJobs) kept ∧
    Forall (λ j, ∃ j0, ej_status j0 = PENDING ∧ ej_attempts j0 = 0 ∧ rtc job_step j0 j) new.

#[export] Instance evolves_preorder : PreOrder evolves.
Proof.
  split.
  - intros d. exists (tab d EmbeddingJobs), []. rewrite app_nil_r. by split_and!.
  - intros a b c (k1 & n1 & T1 & F1 & N1) (k2 & n2 & T2 & F2 & N2). rewrite T1 in F2.
    apply Forall2_app_inv_l in F2 as (k2a & k2b & Fa & Fb & ->).
    exists k2a, (k2b ++ n2). rewrite T2, app_assoc. split_and!; [done| |].
    + by transitivity k1.
    + apply Forall_app. split; [|done]. apply Forall_forall. intros j' Hj'.
      apply list_elem_of_lookup in Hj' as [i Hi].
      destruct (Forall2_lookup_r _ _ _ _ _ Fb Hi) as (j & Hj & Hs).
      rewrite Forall_lookup in N1. destruct (N1 i j Hj) as (j0 & Hp & Ha & Hr).
      exists j0. split_and!; try done. by etrans.
Qed.

(** From a sound queue, to a sound queue, along the steps. *)
Definition queue_rel (d d' : db) : Prop :=
  queue_ok d → queue_ok d' ∧ evolves d d' ∧ grows FactEmbeddings d d'.

#[export] Instance queue_rel_preorder : PreOrder queue_rel.
Proof.
  split; [intros d H; split_and!; [done|reflexivity..]|]. intros a b c Hab Hbc Ha.
  destruct (Hab Ha) as (Hb & E1 & G1). destruct (Hbc Hb) as (Hc & E2 & G2).
  split_and!; [done|by etrans|by etrans].
Qed.

Lemma exists_row_in_grown t p d d' : grows t d d' → exists_row t p d = true → exists_row t p d' = true.
Proof. intros [l E]. unfold exists_row. rewrite E, existsb_app. by intros ->. Qed.

Lemma job_ok_grows d d' j : grows FactEmbeddings d d' → job_ok d j → job_ok d' j.
Proof. intros G [H1 H2 H3 H4]. split; try done. intros Hs. by apply (exists_row_in_grown _ _ d), H4. Qed.

Lemma same_tables_rel d d' : tab d' = tab d → queue_rel d d'.
Proof.
  intros T [Hc Hj]. assert (G : grows FactEmbeddings d d') by (exists []; by rewrite app_nil_r, T).
  split_and!; [split|..|done].
  - intros t Ht. rewrite T. by apply Hc.
  - intros j Hin. rewrite T in Hin. apply (job_ok_grows d); auto.
  - exists (tab d EmbeddingJobs), []. rewrite app_nil_r, T. by split_and!.
Qed.

(** ** The statements of the repository *)

Lemma frame_queue_rel ts d d' :
  frame ts d d' → EmbeddingJobs ∉ ts → FactEmbeddings ∉ ts → keeps_consistent d d' → queue_rel d d'.
Proof.
  intros F Hj He Hc [Hcon Hok]. assert (G : grows FactEmbeddings d d') by by apply (grows_frame ts).
  assert (Ej : tab d' EmbeddingJobs = tab d EmbeddingJobs) by by apply (frame_tab_other ts).
  split_and!; [split; [by apply Hc|]| |done].
  - intros j Hin. rewrite Ej in Hin. apply (job_ok_grows d); auto.
  - exists (tab d' EmbeddingJobs), []. rewrite app_nil_r, Ej. by split_and!.
Qed.

Lemma fresh_id_queue : respects queue_rel fresh_id.
Proof.
  intros d r d' H. apply (frame_queue_rel []); [by apply (fresh_id_frame [] _ _ _ H)|set_solver..|].
  by apply (fresh_id_consistent _ _ _ H).
Qed.

Lemma update_job_rel p f d r d' :
  exec_update EmbeddingJobs p f d = (r, d') →
  (∀ j, j ∈ tab d EmbeddingJobs → p j = true → job_step j (f j)) →
  (∀ j, j ∈ tab d EmbeddingJobs → p j = true → job_ok d j → job_ok d (f j)) → queue_rel d d'.
Proof.
  intros H Hs Hj Hq. destruct (exec_update_cases EmbeddingJobs p f d eq_refl)
    as [(e & _ & E)|(_ & d1 & E & F & T)]; rewrite E in H; injection H as <- <-.
  { split_and!; [done|reflexivity..]. }
  assert (G : grows FactEmbeddings d d1) by (apply (grows_frame _ _ _ _ F); [done|set_solver]).
  split_and!; [split|..|done].
  - apply (exec_update_consistent EmbeddingJobs p f eq_refl _ _ _ E), Hq.
  - intros j' Hin. rewrite T in Hin. apply list_elem_of_fmap in Hin as (j & -> & Hin).
    apply (job_ok_grows d); [done|]. destruct (p j) eqn:Ep; [|by apply Hq]. apply Hj; [done..|by apply Hq].
  - eexists _, []. rewrite app_nil_r. split_and!; [exact T| |done].
    apply Forall2_fmap_r. assert (Hs' : ∀ j, j ∈ tab d EmbeddingJobs →
      rtc job_step j (if p j then f j else j)).
    { intros j Hin. destruct (p j) eqn:Ep; [|by constructor]. by apply rtc_once, Hs. }
    clear -Hs'. induction (tab d EmbeddingJobs) as [|j l IH]; constructor; [apply Hs'; by left|].
    apply IH. intros x Hx. apply Hs'. by right.
Qed.

Lemma insert_job_rel x d r d' :
  exec_insert EmbeddingJobs x d = (r, d') →
  ej_status x = PENDING → ej_attempts x = 0 → ej_lease_token x = None → ej_locked_at x = None →
  queue_rel d d'.
Proof.
  intros H Hp Ha Hl Hk Hq. destruct (exec_insert_cases EmbeddingJobs x d eq_refl)
    as [(e & _ & E)|(_ & d1 & E & F & T)]; rewrite E in H; injection H as <- <-.
  { split_and!; [done|reflexivity..]. }
  assert (G : grows FactEmbeddings d d1) by (apply (grows_frame _ _ _ _ F); [done|set_solver]).
  split_and!; [split|..|done].
  - apply (exec_insert_consistent EmbeddingJobs x eq_refl _ _ _ E), Hq.
  - intros j Hin. rewrite T in Hin. apply elem_of_app in Hin as [Hin| ->%list_elem_of_singleton].
    + apply (job_ok_grows d); [done|by apply Hq].
    + split; rewrite ?Hp, ?Ha, ?Hl, ?Hk; naive_solver.
  - exists (tab d EmbeddingJobs), [x]. rewrite T. split_and!; [done| |].
    + reflexivity.
    + apply Forall_singleton. exists x. split_and!; [done..|]. by constructor.
Qed.

Lemma insert_embedding_rel x d r d' : exec_insert FactEmbeddings x d = (r, d') → queue_rel d d'.
Proof.
  intros H Hq. assert (G : grows FactEmbeddings d d').
  { by apply (exec_insert_grows FactEmbeddings FactEmbeddings x eq_refl eq_refl _ _ _ H). }
  pose proof (exec_insert_frame [FactEmbeddings] FactEmbeddings x eq_refl ltac:(by left) _ _ _ H) as F.
  assert (Ej : tab d' EmbeddingJobs = tab d EmbeddingJobs).
  { apply (frame_tab_other _ _ _ EmbeddingJobs F); [done|set_solver]. }
  split_and!; [split|..|done].
  - apply (exec_insert_consistent FactEmbeddings x eq_refl _ _ _ H), Hq.
  - intros j Hin. rewrite Ej in Hin. apply (job_ok_grows d); [done|by apply Hq].
  - exists (tab d EmbeddingJobs), []. rewrite app_nil_r, Ej. by split_and!.
Qed.

Lemma enqueue_missing_rel model limit org : respects queue_rel (enqueue_missing model limit org).
Proof.
  unfold enqueue_missing, enqueue, insert_or_nothing.
  respects ltac:(first [apply fresh_id_queue
    | match goal with |- respects _ (exec_insert EmbeddingJobs _) =>
        intros ? ? ? Hi; by apply (insert_job_rel _ _ _ _ Hi) end]).
Qed.

Lemma compatible_jobs a b : compatible EmbeddingJobs a b = Ok () → ej_id a ≠ ej_id b.
Proof.
  unfold compatible. cbn [pair_checks embedding_job_pair checks uq]. intros H E. rewrite E in H.
  by rewrite Z.eqb_refl in H.
Qed.

Lemma job_ids_unique d x y :
  consistent d → x ∈ tab d EmbeddingJobs → y ∈ tab d EmbeddingJobs → ej_id x = ej_id y → x = y.
Proof.
  intros Hc. apply (sorted_distinct_inj ej_id).
  by apply (consistent_sorted EmbeddingJobs _ d compatible_jobs).
Qed.

(** A row of the queue, later. *)
Lemma evolves_row d d' j :
  evolves d d' → j ∈ tab d EmbeddingJobs → ∃ j', j' ∈ tab d' EmbeddingJobs ∧ rtc job_step j j'.
Proof.
  intros (kept & new & T & F & _) Hj. apply list_elem_of_lookup in Hj as [i Hi].
  destruct (Forall2_lookup_l _ _ _ _ _ F Hi) as (j' & Hj' & Hs). exists j'. split; [|done].
  rewrite T. apply elem_of_app. left. by eapply list_elem_of_lookup_2.
Qed.

(** The row a claim is about. *)
Definition identified (model : pystr) (d : db) (c : ClaimedJob) : Prop :=
  ∃ j, j ∈ tab d EmbeddingJobs ∧ ej_id j = cj_job_id c ∧
       ej_fact_version_id j = cj_fact_version_id c ∧ ej_model j = model.

Lemma identified_evolves model d d' c : evolves d d' → identified model d c → identified model d' c.
Proof.
  intros E (j & Hj & Hi & Hv & Hm). destruct (evolves_row d d' j E Hj) as (j' & Hj' & Hs).
  destruct (job_steps_same_work _ _ Hs) as [S1 S2 S3 S4 _]. exists j'. split_and!; [done|congruence..].
Qed.

Lemma identified_all model d c j :
  consistent d → identified model d c → j ∈ tab d EmbeddingJobs → ej_id j = cj_job_id c →
  ej_fact_version_id j = cj_fact_version_id c ∧ ej_model j = model.
Proof.
  intros Hc (j0 & Hj0 & Hi & Hv & Hm) Hj He.
  assert (j = j0) as -> by (apply (job_ids_unique d); [done..|congruence]). done.
Qed.

(** A job that [claim] may take at [now]. *)
Definition leasable (lease : Z) (now : Instant) (j : embedding_job) : Prop :=
  ej_status j = PENDING ∨ ej_status j = RUNNING ∧ ∃ t, ej_locked_at j = Some t ∧ t < now - lease.

Lemma due_leasable model lease now j : due model lease now j = true → ej_model j = model ∧ leasable lease now j.
Proof.
  unfold due. intros [[Hm%bool_decide_eq_true _]%andb_true_iff H]%andb_true_iff. split; [done|].
  apply orb_true_iff in H as [H%bool_decide_eq_true|[H%bool_decide_eq_true Hl]%andb_true_iff]; [by left|].
  right. split; [done|]. destruct (ej_locked_at j) as [t|]; [|done]. exists t. split; [done|lia].
Qed.

Lemma take_lease_rel lease j d r d' :
  take_lease j d = (r, d') → (∀ x, x ∈ tab d EmbeddingJobs → ej_id x = ej_id j → leasable lease (db_now d) x) →
  queue_rel d d' ∧
  (∀ x, x ∈ tab d EmbeddingJobs → ej_id x ≠ ej_id j → x ∈ tab d' EmbeddingJobs) ∧
  (∀ x, x ∈ tab d' EmbeddingJobs → ej_id x ≠ ej_id j → x ∈ tab d EmbeddingJobs) ∧
  db_now d' = db_now d ∧ frame [EmbeddingJobs] d d' ∧
  (∀ c, r = Ok c → cj_job_id c = ej_id j ∧ cj_fact_version_id c = ej_fact_version_id j).
Proof.
  intros H Hl. unfold take_lease in H.
  unfold mbind at 1, st_bind at 1, fresh_id in H. unfold mbind at 1, st_bind at 1, gets in H.
  unfold mbind at 1, st_bind at 1 in H.
  set (d0 := bump d) in *. set (p := λ x : row EmbeddingJobs, ej_id x =? ej_id j) in *.
  set (f := leased (db_now d0) (db_next d)) in *.
  destruct (exec_update EmbeddingJobs p f d0) as [r1 d1] eqn:E.
  assert (d1 = d' ∧ (∀ c, r = Ok c → cj_job_id c = ej_id j ∧ cj_fact_version_id c = ej_fact_version_id j))
    as [-> Hc].
  { destruct r1 as [[]|]; injection H as <- <-; split; try done. by intros c [= <-]. }
  clear H.
  assert (F : frame [EmbeddingJobs] d0 d').
  { by apply (exec_update_frame [EmbeddingJobs] EmbeddingJobs p f eq_refl ltac:(by left) _ _ _ E). }
  assert (F0 : frame [EmbeddingJobs] d d') by (etrans; [apply frame_bump|exact F]).
  split_and!; [| | |by apply F0|done|done].
  - etrans; [by apply (fresh_id_queue d (Ok (db_next d)))|].
    apply (update_job_rel _ _ _ _ _ E).
    + intros x Hx Hp. apply (step_lease x _ _ lease), Hl; [done|by apply Z.eqb_eq].
    + intros x Hx Hp [J1 J2 J3 J4]. split; cbn; try done; try lia; naive_solver.
  - intros x Hx Hne. destruct (exec_update_cases EmbeddingJobs p f d0 eq_refl)
      as [(e & _ & E')|(_ & d2 & E' & _ & T)]; rewrite E' in E; injection E as <- <-; [done|].
    rewrite T. apply list_elem_of_fmap. exists x. split; [|done]. unfold p. by rewrite (proj2 (Z.eqb_neq _ _)).
  - intros x Hx Hne. destruct (exec_update_cases EmbeddingJobs p f d0 eq_refl)
      as [(e & _ & E')|(_ & d2 & E' & _ & T)]; rewrite E' in E; injection E as <- <-; [done|].
    rewrite T in Hx. apply list_elem_of_fmap in Hx as (y & -> & Hy). destruct (p y) eqn:Ep; [|done].
    apply Z.eqb_eq in Ep. cbn in Hne. by destruct Hne.
Qed.

(** Claiming: leases on distinct rows, one after the other. *)
Lemma take_leases_rel model lease l : ∀ d r d',
  mapM_ take_lease l d = (r, d') → queue_ok d → NoDup (map ej_id l) →
  (∀ j, j ∈ l → identified model d {| cj_job_id := ej_id j; cj_organization_id := 0;
     cj_fact_version_id := ej_fact_version_id j; cj_lease_token := 0; cj_attempts := 0 |}) →
  (∀ j x, j ∈ l → x ∈ tab d EmbeddingJobs → ej_id x = ej_id j → leasable lease (db_now d) x) →
  queue_rel d d' ∧ ∀ cs, r = Ok cs → ∀ c, c ∈ cs → identified model d' c.
Proof.
  induction l as [|j l IH]; intros d r d' H Hq Hn Hi Hl; cbn [mapM_] in H.
  { injection H as <- <-. split; [reflexivity|]. intros cs [= <-] c Hc. by apply not_elem_of_nil in Hc. }
  apply NoDup_cons in Hn as [Hj Hn].
  unfold mbind at 1, st_bind at 1 in H. destruct (take_lease j d) as [r1 d1] eqn:E.
  destruct (take_lease_rel lease _ _ _ _ E) as (R1 & _ & K2 & Hnow & _ & Hc1).
  { intros x. by apply Hl; left. }
  destruct (R1 Hq) as (Hq1 & E1 & _). destruct r1 as [c1|e].
  2:{ injection H as <- <-. split; [done|]. by intros cs [=]. }
  unfold mbind at 1, st_bind at 1 in H. destruct (mapM_ take_lease l d1) as [r2 d2] eqn:E2.
  destruct (IH d1 r2 d2 E2 Hq1 Hn) as [R2 Hids].
  { intros x Hx. apply (identified_evolves _ d); [done|]. apply Hi. by right. }
  { intros x y Hx Hy Hxy. rewrite Hnow. apply (Hl x); [by right| |done]. apply K2; [done|].
    intros Heq. apply Hj, list_elem_of_fmap. exists x. split; [congruence|done]. }
  assert (d2 = d') as -> by (by destruct r2; injection H as _ <-).
  split; [by etrans|]. intros cs -> c Hc. destruct r2 as [cs2|]; [|done].
  injection H as <-. destruct (R2 Hq1) as (_ & Ev & _).
  apply elem_of_cons in Hc as [->|Hc]; [|by apply (Hids cs2)].
  destruct (Hc1 c1 eq_refl) as [Hid Hv]. apply (identified_evolves _ d1); [done|].
  destruct (Hi j ltac:(by left)) as (x & Hx & Hxi & Hxv & Hxm). cbn in Hxi, Hxv.
  apply (identified_evolves _ d); [done|]. exists x. split_and!; [done|congruence..].
Qed.

Lemma sublist_take {A} n (l : list A) : sublist (take n l) l.
Proof. rewrite <-(take_drop n l) at 2. apply sublist_inserts_r. done. Qed.

Lemma sorted_distinct_keys {A} (key : A → Z) l :
  StronglySorted (λ a b, key a ≠ key b) l → NoDup (map key l).
Proof.
  induction 1 as [|a l Hl IH Ha]; cbn [map]; constructor; [|done].
  intros (x & Hx & Hin)%list_elem_of_fmap. rewrite Forall_forall in Ha. by apply (Ha x Hin).
Qed.

Lemma claim_rel model batch lease org locked d r d' :
  claim model batch lease org locked d = (r, d') → queue_ok d →
  queue_rel d d' ∧ ∀ cs, r = Ok cs → ∀ c, c ∈ cs → identified model d' c.
Proof.
  intros H Hq. unfold claim, mbind, st_bind, gets in H. set (jobs := claimable _ _ _ _ _ _) in H.
  assert (Hin : ∀ j, j ∈ jobs → j ∈ tab d EmbeddingJobs ∧ due model lease (db_now d) j = true).
  { intros j Hj%in_take_elem. rewrite elem_of_sort_by in Hj. apply elem_of_where_ in Hj as [Hj ?].
    split; [done|]. by apply andb_true_iff in Hj as [[? _]%andb_true_iff _]. }
  destruct Hq as [Hc Hok]. apply (take_leases_rel model lease jobs d r d' H).
  - by split.
  - assert (Hs : NoDup (map ej_id (tab d EmbeddingJobs))).
    { by apply sorted_distinct_keys, (consistent_sorted EmbeddingJobs _ d compatible_jobs). }
    unfold jobs, claimable. set (l := where_ _ _).
    assert (Hl : NoDup (map ej_id l)) by by apply map_where_NoDup.
    eapply sublist_NoDup; [|apply fmap_sublist, sublist_take].
    change (NoDup (map ej_id (sort_by by_due l))). by rewrite sort_by_perm.
  - intros j [Hj Hd]%Hin. apply due_leasable in Hd as [Hm _]. by exists j.
  - intros j x [Hj Hd]%Hin Hx He. assert (x = j) as -> by by apply (job_ids_unique d).
    by apply due_leasable in Hd as [_ ?].
Qed.

(** Giving a lease back touches the row that holds it. *)
Lemma release_rel c status at_ err d r d' :
  exec_update EmbeddingJobs (holds_lease c) (released status at_ err) d = (r, d') →
  status ≠ RUNNING →
  (status = SUCCEEDED → ∀ j, j ∈ tab d EmbeddingJobs → ej_id j = cj_job_id c →
     exists_row FactEmbeddings (embedding_of (ej_model j) (ej_fact_version_id j)) d = true) →
  queue_rel d d'.
Proof.
  intros H Hs Hd. assert (Hh : ∀ j, holds_lease c j = true →
    ej_id j = cj_job_id c ∧ ej_lease_token j = Some (cj_lease_token c)).
  { intros j. unfold holds_lease. by intros [?%Z.eqb_eq ?%bool_decide_eq_true]%andb_true_iff. }
  apply (update_job_rel _ _ _ _ _ H); intros j Hj [Hi Ht]%Hh.
  - by apply (step_release j (cj_lease_token c)).
  - intros [J1 J2 J3 J4]. split; cbn; [naive_solver..| |].
    + split; [lia|]. intros _. apply J3. rewrite (proj2 J1); [done|by rewrite Ht].
    + intros ->. by apply Hd.
Qed.

Lemma save_embedding_rel model c v t h d r d' :
  save_embedding model c v t h d = (r, d') →
  queue_rel d d' ∧
  (is_ok r = true → exists_row FactEmbeddings (embedding_of model (cj_fact_version_id c)) d' = true).
Proof.
  intros H. unfold save_embedding in H. split.
  - unfold insert_or_nothing, mbind, st_bind, gets in H.
    destruct (exists_row _ _ d); [by injection H as _ <-|].
    destruct (exec_insert FactEmbeddings _ d) as [r1 d1] eqn:E. apply insert_embedding_rel in E.
    by destruct r1 as [[]|]; injection H as _ <-.
  - intros Hr. destruct r as [b|]; [|done].
    apply insert_or_nothing_ok in H as [(_ & -> & H)|(_ & _ & _ & _ & T)]; [done| |done].
    apply (exists_row_spec FactEmbeddings). rewrite T. eexists. split; [apply elem_of_app; right; by left|].
    unfold embedding_of. cbn. by rewrite Z.eqb_refl, bool_decide_eq_true_2.
Qed.

Section worker_proofs.
Context `{FR : !FloatRepr} `{SH : !Sha256} `{KS : KeyValueStore} `{ET : ExceptionText}.
Context (w : EmbeddingWorker) (env : worker_env).

(** Storing the vectors: no job succeeds without its embedding. *)
Lemma write_one_rel cache fresh p d r d' :
  write_one w cache fresh p d = (r, d') → queue_ok d → identified (ew_model w) d p.1 → queue_rel d d'.
Proof.
  intros H Hq Hi. unfold write_one in H. unfold mbind at 1, st_bind at 1, lift in H.
  destruct (match dict_get _ cache with Some _ => _ | None => _ end) as [vector|e];
    [|injection H as _ <-; reflexivity].
  unfold mbind at 1, st_bind at 1 in H.
  destruct (save_embedding _ _ _ _ _ _) as [r1 d1] eqn:E1.
  destruct (save_embedding_rel _ _ _ _ _ _ _ _ E1) as [R1 X1].
  destruct r1 as [b|e]; [|by injection H as _ <-].
  unfold mbind at 1, st_bind at 1, complete in H. unfold mbind at 1, st_bind at 1, gets in H.
  unfold mbind at 1, st_bind at 1 in H.
  destruct (exec_update EmbeddingJobs _ _ _) as [r2 d2] eqn:E2.
  etrans; [exact R1|]. assert (d2 = d') as -> by (by destruct r2 as [[]|]; injection H as _ <-).
  destruct (R1 Hq) as ([Hc1 _] & Ev & _).
  apply (release_rel _ _ _ _ _ _ _ E2); [done|]. intros _ j Hj Hid.
  destruct (identified_all (ew_model w) d1 p.1 j) as [-> ->]; try done; [|by apply X1].
  by apply (identified_evolves _ d).
Qed.

Lemma write_all_rel cache fresh ps : ∀ d r d',
  mapM_ (write_one w cache fresh) ps d = (r, d') → queue_ok d →
  (∀ p, p ∈ ps → identified (ew_model w) d p.1) → queue_rel d d'.
Proof.
  induction ps as [|p ps IH]; intros d r d' H Hq Hi; cbn [mapM_] in H; [by injection H as _ <-|].
  unfold mbind at 1, st_bind at 1 in H. destruct (write_one w cache fresh p d) as [r1 d1] eqn:E.
  pose proof (write_one_rel _ _ _ _ _ _ E Hq (Hi p ltac:(by left))) as R1.
  destruct r1 as [x|]; [|by injection H as _ <-].
  unfold mbind at 1, st_bind at 1 in H. destruct (mapM_ _ ps d1) as [r2 d2] eqn:E2.
  assert (d2 = d') as -> by (by destruct r2; injection H as _ <-).
  etrans; [exact R1|]. destruct (R1 Hq) as (Hq1 & Ev & _). apply (IH _ _ _ E2 Hq1).
  intros q Hp. apply (identified_evolves _ d); [done|]. apply Hi. by right.
Qed.

Lemma fail_one_rel error c : respects queue_rel (fail_one w error c).
Proof.
  unfold fail_one, fail. apply respects_bind; [apply _|apply (respects_lift queue_rel)|]. intros retry_in.
  apply respects_bind; [apply _| |intros []; apply (respects_ret queue_rel)].
  apply respects_bind; [apply _|apply (respects_gets queue_rel)|]. intros now d r d' H.
  destruct retry_in; by apply (release_rel _ _ _ _ _ _ _ H).
Qed.

(** One transaction of the worker among those of the others. *)
Lemma in_phase_rel {A} p (m : DB A) d k r d' k' :
  in_phase env p m (d, k) = (r, (d', k')) →
  (∀ d, queue_rel d (we_others env p d)) →
  (∀ r1 d1, m (we_others env p d) = (r1, d1) → queue_ok (we_others env p d) → queue_rel (we_others env p d) d1) →
  k' = k ∧ queue_rel d d' ∧ (∀ a, r = Ok a → m (we_others env p d) = (Ok a, d')).
Proof.
  intros H Ho Hm. unfold in_phase in H.
  rewrite (st_bind_eq _ _ _ () (we_others env p d, k)) in H by done.
  assert (Hall : ∀ r1 d1, m (we_others env p d) = (r1, d1) → queue_rel d d1).
  { intros r1 d1 E. etrans; [apply Ho|]. intros Hq. by apply (Hm r1 d1 E). }
  unfold db_transaction, on_db in H. cbn [fst snd] in H.
  destruct (m (we_others env p d)) as [[a|e] d1] eqn:E.
  - assert (R : queue_rel d d1) by (by apply (Hall (Ok a) d1)).
    destruct (we_commit env p) as [|e|e]; injection H as <- <- <-;
      (split_and!; [done|first [exact R|apply Ho]|naive_solver]).
  - injection H as <- <- <-. split_and!; [done|apply Ho|done].
Qed.

Lemma read_phase_state jobs : respects (=) (read_phase w jobs).
Proof. unfold read_phase, documents, cached_vectors. respects ltac:(fail). Qed.

Lemma prepare_job sources job p : prepare sources job = Ok p → p.1 = job.
Proof.
  unfold prepare. destruct (dict_get _ _) as [s|]; [|done].
  intros (text & _ & (digest & _ & [= <-])%result_bind_ok)%result_bind_ok. done.
Qed.

Lemma read_phase_jobs jobs d ps cache d' p :
  read_phase w jobs d = (Ok (ps, cache), d') → p ∈ ps → p.1 ∈ jobs.
Proof.
  intros H Hp. unfold read_phase in H. apply st_bind_ok in H as (sources & d1 & _ & H).
  apply st_bind_ok in H as (prepared & d2 & [Hm _]%lift_ok & H).
  apply st_bind_ok in H as (cached & d3 & _ & [[= -> _] _]%st_ret_ok).
  apply mapR_ok in Hm. apply list_elem_of_lookup in Hp as [i Hi].
  destruct (Forall2_lookup_r _ _ _ _ _ Hm Hi) as (job & Hj & He).
  apply prepare_job in He as ->. by eapply list_elem_of_lookup_2.
Qed.

Lemma on_ext_all_state {A} (f : A → ST kv unit) l : ∀ s r s',
  mapM_ (λ x, on_ext (f x)) l s = (r, s') → s'.1 = s.1.
Proof.
  assert (R : respects (λ s s' : db * kv, s'.1 = s.1) (mapM_ (λ x, on_ext (f x)) l)); [|exact R].
  apply respects_mapM.
  - split; [by intros s|]. intros a b c H1 H2. congruence.
  - intros x _ [d k] r s' H. unfold on_ext in H. destruct (f x _). by injection H as _ <-.
Qed.

Context (Hothers : ∀ p d, queue_rel d (we_others env p d)).

Lemma process_rel jobs d k r d' k' :
  process_jobs w env jobs (d, k) = (r, (d', k')) → queue_ok d →
  (∀ c, c ∈ jobs → identified (ew_model w) d c) → queue_rel d d'.
Proof using Hothers.
  intros H Hq Hi. unfold process_jobs in H. unfold mbind at 1, st_bind at 1 in H.
  destruct (in_phase env Read (read_phase w jobs) (d, k)) as [rr [d1 k1]] eqn:Er.
  destruct (in_phase_rel Read _ _ _ _ _ _ Er (Hothers Read)) as (-> & R1 & Hok).
  { intros r1 d0 E _. by rewrite (read_phase_state jobs _ _ _ E). }
  destruct rr as [[ps cache]|e]; [|by injection H as _ <-].
  specialize (Hok _ eq_refl). destruct (R1 Hq) as (Hq1 & Ev1 & _).
  assert (Hi1 : ∀ c, c ∈ jobs → identified (ew_model w) d1 c).
  { intros c Hc. apply (identified_evolves _ d); auto. }
  etrans; [exact R1|]. destruct (embed_texts w env (to_embed ps cache)) as [[fresh tokens]|exc].
  - unfold mbind at 1, st_bind at 1 in H.
    destruct (in_phase env Write (mapM_ (write_one w cache fresh) ps) (d1, k)) as [rw [d2 k2]] eqn:Ew.
    destruct (in_phase_rel Write _ _ _ _ _ _ Ew (Hothers Write)) as (-> & R2 & _).
    { intros r1 d3 E Hq3. apply (write_all_rel _ _ _ _ _ _ E Hq3). intros p Hp.
      apply (identified_evolves _ d1); [by apply Hothers|]. apply Hi1. by apply (read_phase_jobs _ _ _ _ _ _ Hok). }
    destruct rw as [results|]; [|by injection H as _ <-].
    unfold mbind at 1, st_bind at 1 in H.
    destruct (mapM_ _ _ (d2, k)) as [ri [d3 k3]] eqn:Ei. apply on_ext_all_state in Ei. cbn in Ei. subst d3.
    by destruct ri; injection H as _ <-.
  - destruct (is_provider_error exc); [|by injection H as _ <-].
    unfold record_failure, mbind, st_bind in H.
    destruct (in_phase env Write (mapM_ (fail_one w _) jobs) (d1, k)) as [rw [d2 k2]] eqn:Ew.
    destruct (in_phase_rel Write _ _ _ _ _ _ Ew (Hothers Write)) as (-> & R2 & _).
    { intros r1 d3 E _. refine (respects_mapM queue_rel _ _ _ _ _ _ E). intros c _. apply fail_one_rel. }
    by destruct rw; injection H as _ <-.
Qed.

Lemma run_worker_rel d k r d' k' :
  run_worker w env (d, k) = (r, (d', k')) → queue_rel d d'.
Proof using Hothers.
  intros H Hq. assert (R : queue_rel d d'); [|by apply R]. unfold run_worker in H.
  unfold mbind at 1, st_bind at 1 in H.
  destruct (in_phase env Reconcile _ (d, k)) as [r1 [d1 k1]] eqn:E1.
  destruct (in_phase_rel Reconcile _ _ _ _ _ _ E1 (Hothers Reconcile)) as (-> & R1 & _).
  { intros r0 d0 E _. by apply (enqueue_missing_rel _ _ _ _ _ _ E). }
  destruct r1 as [n|]; [|by injection H as _ <-]. destruct (R1 Hq) as (Hq1 & _).
  unfold mbind at 1, st_bind at 1 in H.
  destruct (in_phase env Claim _ (d1, k)) as [r2 [d2 k2]] eqn:E2.
  destruct (in_phase_rel Claim _ _ _ _ _ _ E2 (Hothers Claim)) as (-> & R2 & Hok).
  { intros r0 d0 E Hq0. by apply (claim_rel _ _ _ _ _ _ _ _ E). }
  destruct r2 as [jobs|]; [|injection H as _ <-; by etrans]. specialize (Hok _ eq_refl).
  destruct (Hothers Claim d1 Hq1) as (Hq1' & _). destruct (claim_rel _ _ _ _ _ _ _ _ Hok Hq1') as [_ Hids].
  destruct (R2 Hq1) as (Hq2 & _). destruct jobs as [|j jobs]; [injection H as _ <-; by etrans|].
  set (l := j :: jobs) in *. clearbody l. unfold mbind at 1, st_bind at 1 in H.
  destruct (process_jobs w env l (d2, k)) as [r3 [d3 k3]] eqn:E3.
  pose proof (process_rel _ _ _ _ _ _ E3 Hq2 (Hids l eq_refl)) as R3.
  assert (d3 = d') as -> by (by destruct r3; injection H as _ <-).
  etrans; [exact R1|]. by etrans.
Qed.

(** A finished job is never touched again. *)
Lemma finished_stays d j j' :
  job_ok d j → ej_status j = SUCCEEDED ∨ ej_status j = FAILED → rtc job_step j j' → j' = j.
Proof.
  intros [J1 _ _ _] Hs H. destruct H as [|j j1 j2 Hstep _]; [done|]. exfalso.
  destruct Hstep as [j now token lease Hp|j token status at_ err Ht _].
  - destruct Hs as [Hs|Hs], Hp as [Hp|[Hp _]]; congruence.
  - assert (ej_status j = RUNNING) by (apply J1; by rewrite Ht). destruct Hs; congruence.
Qed.

(** C39. Any number of workers, whatever the provider answers and however commits
    end, keep the queue sound: a job is RUNNING exactly while it is leased, a
    SUCCEEDED job has its embedding, rows move only by taking a free or expired
    lease or giving a lease back, and finished jobs stay as they are. *)
Theorem worker_keeps_queue d k r d' k' :
  queue_ok d → run_worker w env (d, k) = (r, (d', k')) →
  queue_ok d' ∧ evolves d d' ∧ grows FactEmbeddings d d' ∧
  (∀ j, j ∈ tab d EmbeddingJobs → ej_status j = SUCCEEDED ∨ ej_status j = FAILED →
     j ∈ tab d' EmbeddingJobs).
Proof using Hothers.
  intros Hq H. destruct (run_worker_rel d k r d' k' H Hq) as (Hq' & Ev & G).
  split_and!; [done..|]. intros j Hj Hs.
  destruct (evolves_row _ _ _ Ev Hj) as (j' & Hj' & Hsteps).
  destruct Hq as [_ Hok]. by rewrite (finished_stays d j j' (Hok j Hj) Hs Hsteps) in Hj'.
Qed.

End worker_proofs.

(** * What an iteration makes of its jobs *)

(** The row of a job whose lease is still held gets its outcome; others stay. *)
Definition outcome_row (f : ClaimedJob → embedding_job → embedding_job) (jobs : list ClaimedJob)
    (j : embedding_job) : embedding_job :=
  match List.find (λ c, holds_lease c j) jobs with Some c => f c j | None => j end.

Definition lease_held (d : db) (c : ClaimedJob) : bool := exists_row EmbeddingJobs (holds_lease c) d.

Section outcomes.
Context {A B : Type} (op : A → DB B) (job : A → ClaimedJob) (now : Instant).
Context (f : ClaimedJob → embedding_job → embedding_job).
Context (Hfree : ∀ c j, ej_lease_token (f c j) = None).
Context (Hop : ∀ a d b d', op a d = (Ok b, d') → db_now d = now →
  db_now d' = now ∧
  tab d' EmbeddingJobs = map (λ j, if holds_lease (job a) j then f (job a) j else j) (tab d EmbeddingJobs)).

Lemma outcomes_of_jobs l : ∀ d bs d',
  mapM_ op l d = (Ok bs, d') → db_now d = now →
  tab d' EmbeddingJobs = map (outcome_row f (map job l)) (tab d EmbeddingJobs).
Proof using Hfree Hop.
  induction l as [|a l IH]; intros d bs d' H Hn; cbn [mapM_] in H.
  { apply st_ret_ok in H as [_ ->]. symmetry. by apply map_id_in. }
  apply st_bind_ok in H as (b & d1 & H0 & H). apply st_bind_ok in H as (bs1 & d2 & H1 & [_ ->]%st_ret_ok).
  destruct (Hop _ _ _ _ H0 Hn) as [Hn1 T]. rewrite (IH _ _ _ H1 Hn1), T, List.map_map.
  apply map_ext. intros j. unfold outcome_row. cbn [map List.find].
  destruct (holds_lease (job a) j) eqn:Eh; [|done].
  assert (En : ∀ cs, List.find (λ c, holds_lease c (f (job a) j)) cs = None).
  { induction cs as [|c cs IHc]; [done|]. cbn [List.find]. unfold holds_lease at 1.
    rewrite Hfree, bool_decide_eq_false_2 by done. by rewrite andb_false_r. }
  by rewrite En.
Qed.

(** A lease of another job is not given back. *)
Lemma outcome_keeps_lease a c d b d' :
  op a d = (Ok b, d') → db_now d = now → cj_job_id c ≠ cj_job_id (job a) →
  (∀ c j, ej_id (f c j) = ej_id j) → lease_held d' c = lease_held d c.
Proof using Hop.
  intros H Hn Hne Hid. destruct (Hop _ _ _ _ H Hn) as [_ T]. apply eq_true_iff_eq.
  unfold lease_held. rewrite !exists_row_spec, T. split.
  - intros (x & Hx & Hh). apply list_elem_of_fmap in Hx as (y & -> & Hy). exists y. split; [done|].
    destruct (holds_lease (job a) y) eqn:Ea; [|done]. exfalso. unfold holds_lease in Hh, Ea.
    rewrite Hid in Hh. apply andb_true_iff in Hh as [E1%Z.eqb_eq _], Ea as [E2%Z.eqb_eq _]. congruence.
  - intros (y & Hy & Hh). exists y. split; [|done]. apply list_elem_of_fmap. exists y. split; [|done].
    destruct (holds_lease (job a) y) eqn:Ea; [|done]. exfalso. unfold holds_lease in Hh, Ea.
    apply andb_true_iff in Hh as [E1%Z.eqb_eq _], Ea as [E2%Z.eqb_eq _]. congruence.
Qed.

End outcomes.

Lemma release_state c f d u d' :
  exec_update EmbeddingJobs (holds_lease c) f d = (Ok u, d') →
  db_now d' = db_now d ∧
  tab d' EmbeddingJobs = map (λ j, if holds_lease c j then f j else j) (tab d EmbeddingJobs).
Proof. intros (_ & F & T)%exec_update_ok; [|done]. split; [apply F|exact T]. Qed.

Section outcome_proofs.
Context `{FR : !FloatRepr} `{SH : !Sha256} `{KS : KeyValueStore} `{ET : ExceptionText}.
Context (w : EmbeddingWorker) (env : worker_env).

Definition done_row : ClaimedJob → embedding_job → embedding_job :=
  λ _, released SUCCEEDED None None.

(** After a provider failure: back to the queue with backoff, or FAILED for good. *)
Definition failed_row (now : Instant) (error : pystr) (c : ClaimedJob) : embedding_job → embedding_job :=
  if ew_max_attempts w <=? cj_attempts c then released FAILED None (Some (take 500 error))
  else match retry_delay (cj_attempts c) (ew_retry_base w) (ew_retry_cap w) with
       | Ok delay => released PENDING (Some (now + delay)) (Some (take 500 error))
       | Err _ => released PENDING None None
       end.

Lemma write_one_outcome cache fresh p d b d' :
  write_one w cache fresh p d = (Ok b, d') →
  db_now d' = db_now d ∧ b.2 = lease_held d p.1 ∧
  tab d' EmbeddingJobs = map (λ j, if holds_lease p.1 j then done_row p.1 j else j) (tab d EmbeddingJobs).
Proof.
  intros H. unfold write_one in H. apply st_bind_ok in H as (v & ? & [_ ->]%lift_ok & H).
  apply st_bind_ok in H as (sb & d1 & Hs & H). apply st_bind_ok in H as (kept & d2 & Hc & [-> ->]%st_ret_ok).
  assert (F : frame [FactEmbeddings] d d1).
  { apply (insert_or_nothing_frame [FactEmbeddings] FactEmbeddings _ _ eq_refl ltac:(by left) _ _ _ Hs). }
  assert (Ej : tab d1 EmbeddingJobs = tab d EmbeddingJobs).
  { apply (frame_tab_other _ _ _ EmbeddingJobs F); [done|set_solver]. }
  unfold complete in Hc. apply st_bind_ok in Hc as (h & ? & [-> ->]%gets_ok & Hc).
  apply st_bind_ok in Hc as (u & d3 & Hu & [-> ->]%st_ret_ok).
  apply release_state in Hu as [Hn T]. rewrite Hn, T, Ej. split_and!; [apply F| |done].
  cbn [snd]. unfold lease_held, exists_row. by rewrite Ej.
Qed.

Lemma write_all_kept cache fresh ps : ∀ d bs d',
  mapM_ (write_one w cache fresh) ps d = (Ok bs, d') → NoDup (map (λ p, cj_job_id p.1) ps) →
  map snd bs = map (λ p, lease_held d p.1) ps.
Proof.
  induction ps as [|p ps IH]; intros d bs d' H Hn; cbn [mapM_] in H.
  { by apply st_ret_ok in H as [-> ->]. }
  apply st_bind_ok in H as (b & d1 & H0 & H). apply st_bind_ok in H as (bs1 & d2 & H1 & [-> ->]%st_ret_ok).
  cbn [map] in *. apply NoDup_cons in Hn as [Hp Hn]. rewrite (IH _ _ _ H1 Hn).
  pose proof (write_one_outcome _ _ _ _ _ _ H0) as (_ & -> & _). f_equal.
  apply map_ext_in. intros q Hq%list_elem_of_In.
  apply (outcome_keeps_lease (write_one w cache fresh) fst (db_now d) done_row) with (a := p) (b := b);
    try done.
  - intros a d0 b0 d0' Ha Hd0. destruct (write_one_outcome _ _ _ _ _ _ Ha) as (En & _ & T).
    split; [congruence|done].
  - intros E. apply Hp. rewrite <-E. apply list_elem_of_fmap. by exists q.
Qed.

Lemma fail_one_outcome error c d b d' :
  fail_one w error c d = (Ok b, d') →
  db_now d' = db_now d ∧ b = (ew_max_attempts w <=? cj_attempts c) ∧
  tab d' EmbeddingJobs = map (λ j, if holds_lease c j then failed_row (db_now d) error c j else j)
                             (tab d EmbeddingJobs).
Proof.
  intros H. unfold fail_one in H. apply st_bind_ok in H as (ri & ? & [Hr ->]%lift_ok & H).
  apply st_bind_ok in H as (u & d1 & H & [-> ->]%st_ret_ok).
  unfold fail in H. apply st_bind_ok in H as (now & ? & [-> ->]%gets_ok & H).
  unfold failed_row. destruct (ew_max_attempts w <=? cj_attempts c).
  - injection Hr as <-. apply release_state in H as [Hn T]. by split_and!.
  - destruct (retry_delay _ _ _) as [delay|e]; [|done]. injection Hr as <-.
    apply release_state in H as [Hn T]. by split_and!.
Qed.

(** The two ways an iteration that returns ends, from the state [d] its last
    transaction starts in. *)
Definition succeeded_from (jobs : list ClaimedJob) (d d' : db) (stats : WorkerStats) : Prop :=
  tab d' EmbeddingJobs = map (outcome_row done_row jobs) (tab d EmbeddingJobs) ∧
  ws_succeeded stats = zlen (where_ (lease_held d) jobs) ∧
  ws_lease_lost stats = zlen (where_ (λ c, negb (lease_held d c)) jobs) ∧ ws_failed stats = 0.

Definition failed_from (jobs : list ClaimedJob) (d d' : db) (stats : WorkerStats) : Prop :=
  (∃ error, tab d' EmbeddingJobs = map (outcome_row (failed_row (db_now d) error) jobs) (tab d EmbeddingJobs)) ∧
  ws_failed stats = zlen (where_ (λ c, ew_max_attempts w <=? cj_attempts c) jobs) ∧ ws_succeeded stats = 0.

Lemma in_phase_ok {A} p (m : DB A) d k a d' k' :
  in_phase env p m (d, k) = (Ok a, (d', k')) → m (we_others env p d) = (Ok a, d') ∧ k' = k.
Proof.
  unfold in_phase. intros H. rewrite (st_bind_eq _ _ _ () (we_others env p d, k)) in H by done.
  unfold db_transaction, on_db in H. cbn [fst snd] in H.
  destruct (m (we_others env p d)) as [[x|e] d1]; [destruct (we_commit env p)|]; naive_solver.
Qed.

Lemma prepared_jobs jobs d ps cache d' :
  read_phase w jobs d = (Ok (ps, cache), d') → map fst ps = jobs.
Proof.
  intros H. unfold read_phase in H. apply st_bind_ok in H as (sources & d1 & _ & H).
  apply st_bind_ok in H as (prepared & d2 & [Hm _]%lift_ok & H).
  apply st_bind_ok in H as (cached & d3 & _ & [[= -> _] _]%st_ret_ok).
  apply mapR_ok in Hm. clear -Hm. induction Hm as [|j p js ps Hp _ IH]; [done|]. cbn [map].
  by rewrite IH, (prepare_job _ _ _ Hp).
Qed.

Lemma where_length {A B} (f : A → bool) (g : B → bool) l k :
  map f l = map g k → length (where_ f l) = length (where_ g k).
Proof.
  revert k. induction l as [|x l IH]; intros [|y k] E; try done. cbn [map] in E. injection E as Ex E.
  cbn [where_ List.filter]. rewrite Ex. destruct (g y); cbn [length]; [f_equal|]; by apply IH.
Qed.

(** What an iteration that returns does to its jobs: those whose lease is
    still held all become SUCCEEDED, or after a provider failure all go back to the
    queue with backoff or FAILED at the attempt limit; a job whose lease another
    worker has taken over meanwhile is left alone, and counted as lost. *)
Theorem process_outcome jobs d k stats d' k' :
  process_jobs w env jobs (d, k) = (Ok stats, (d', k')) → NoDup (map cj_job_id jobs) →
  let d1 := we_others env Write (we_others env Read d) in
  succeeded_from jobs d1 d' stats ∨ failed_from jobs d1 d' stats.
Proof.
  intros H Hn d1. unfold process_jobs in H. apply st_bind_ok in H as ([ps cache] & [d2 k2] & Hr & H).
  apply in_phase_ok in Hr as [Hr ->]. pose proof (prepared_jobs _ _ _ _ _ Hr) as Hjobs.
  apply read_phase_state in Hr. subst d2. fold d1 in H.
  destruct (embed_texts w env (to_embed ps cache)) as [[fresh tokens]|exc].
  - left. apply st_bind_ok in H as (results & [d3 k3] & Hw & H).
    apply in_phase_ok in Hw as [Hw ->]. fold d1 in Hw.
    apply st_bind_ok in H as (us & [d4 k4] & Hinv & [-> [= -> ->]]%st_ret_ok).
    apply on_ext_all_state in Hinv. cbn in Hinv. subst d4.
    assert (Hkept : map snd results = map (lease_held d1) jobs).
    { rewrite (write_all_kept _ _ _ _ _ _ Hw), <-Hjobs, List.map_map; [done|].
      by rewrite <-(List.map_map fst cj_job_id), Hjobs. }
    split_and!; cbn [ws_succeeded ws_lease_lost ws_failed]; [| | |done].
    + rewrite <-Hjobs. apply (outcomes_of_jobs (write_one w cache fresh) fst (db_now d1) done_row)
        with (bs := results); try done.
      intros a d0 b0 d0' Ha Hd0. destruct (write_one_outcome _ _ _ _ _ _ Ha) as (En & _ & T).
      split; [congruence|done].
    + unfold zlen. f_equal. by apply where_length.
    + unfold zlen. f_equal. apply where_length.
      rewrite <-(List.map_map snd negb), <-(List.map_map (lease_held d1) negb). by rewrite Hkept.
  - destruct (is_provider_error exc); [right|by apply raise_ok in H].
    unfold record_failure in H. set (error := _ ++ _) in H.
    apply st_bind_ok in H as (final & [d3 k3] & Hw & [-> [= -> ->]]%st_ret_ok).
    apply in_phase_ok in Hw as [Hw _]. fold d1 in Hw. split_and!; cbn [ws_succeeded ws_failed]; [| |done].
    + exists error. rewrite <-(map_id jobs) at 1.
      apply (outcomes_of_jobs (fail_one w error) id (db_now d1) (failed_row (db_now d1) error)) with (bs := final);
        try done.
      * intros c j. unfold failed_row. destruct (_ <=? _); [done|]. by destruct (retry_delay _ _ _).
      * intros c d0 b0 d0' Ha Hd0. destruct (fail_one_outcome _ _ _ _ _ Ha) as (En & _ & T).
        rewrite Hd0 in T. split; [congruence|done].
    + unfold zlen. f_equal. revert Hw. generalize d1. intros d4 Hw.
      assert (Hb : final = map (λ c, ew_max_attempts w <=? cj_attempts c) jobs).
      { clear -Hw. revert d4 final d3 Hw. induction jobs as [|c l IH]; intros d4 final d3 Hw; cbn [mapM_] in Hw.
        - by apply st_ret_ok in Hw as [-> _].
        - apply st_bind_ok in Hw as (b & d5 & Hb & Hw). apply st_bind_ok in Hw as (bs & d6 & Hbs & [-> _]%st_ret_ok).
          apply fail_one_outcome in Hb as (_ & -> & _). cbn [map]. f_equal. by eapply IH. }
      apply where_length. by rewrite Hb, List.map_id.
Qed.

End outcome_proofs.
