(* ===== verification/Drained.v ===== *)
(** When nothing is left for the embedding workers to do: a worker that runs alone, and
    a drain of it that ends before its limit of batches. *)

From stdpp Require Import gmap.
From S2P Require Import Prelude PyStr Json Regex Validation Access Temporal History Database.
From S2P Require Import Schema Accounts FactRepo EvidenceService Canonical FactService Ledger.
From S2P Require Import TemporalService Ranking Retrieval Store RetrievalCache EmbeddingQueue Leases.

Import EmbeddingJobStore.

Lemma take_sorted_nil {A} (le : A → A → bool) n l : 1 ≤ n → take (Z.to_nat n) (sort_by le l) = [] → l = [].
Proof.
  intros Hn H. apply nil_length_inv. rewrite <-(length_sort_by le l).
  apply (f_equal length) in H. rewrite length_take in H. cbn in H. lia.
Qed.

Lemma mapM_nil {S A B} (f : A → ST S B) l s s' : mapM_ f l s = (Ok [], s') → l = [] ∧ s' = s.
Proof.
  destruct l as [|x l]; cbn [mapM_]; intros H; [by apply st_ret_ok in H as [_ ->]|].
  apply st_bind_ok in H as (y & s1 & _ & H). by apply st_bind_ok in H as (ys & s2 & _ & [? _]%st_ret_ok).
Qed.

(** * Jobs are filed under the organization of their version *)

(** The foreign key of the jobs, of every row. *)
Definition filed (d : db) : Prop := ∀ j, j ∈ tab d EmbeddingJobs →
  fk_version (ej_organization_id j) (ej_fact_version_id j) d = true.

(** Versions stay, and so does the foreign key. *)
Definition filed_rel (d d' : db) : Prop :=
  tab d' FactVersions = tab d FactVersions ∧ (filed d → filed d').

#[export] Instance filed_rel_preorder : PreOrder filed_rel.
Proof. split; [by split|]. intros a b c [T1 H1] [T2 H2]. split; [congruence|auto]. Qed.

Lemma fk_version_same org i d d' : tab d' FactVersions = tab d FactVersions → fk_version org i d' = fk_version org i d.
Proof. intros T. unfold fk_version, exists_row. by rewrite T. Qed.

(** Rows are added under the key, or are the same work as before. *)
Lemma filed_step d d' : tab d' FactVersions = tab d FactVersions →
  (∀ j, j ∈ tab d' EmbeddingJobs → fk_version (ej_organization_id j) (ej_fact_version_id j) d = true ∨
     ∃ j0, j0 ∈ tab d EmbeddingJobs ∧ ej_organization_id j = ej_organization_id j0 ∧
           ej_fact_version_id j = ej_fact_version_id j0) → filed_rel d d'.
Proof.
  intros T H. split; [done|]. intros Hf j Hj. rewrite (fk_version_same _ _ d d' T).
  destruct (H j Hj) as [?|(j0 & H0 & -> & ->)]; [done|by apply Hf].
Qed.

Lemma same_tables_filed d d' : tab d' = tab d → filed_rel d d'.
Proof. intros T. apply filed_step; rewrite T; [done|]. intros j Hj. right. by exists j. Qed.

Lemma frame_filed ts d d' : frame ts d d' → FactVersions ∉ ts → EmbeddingJobs ∉ ts → filed_rel d d'.
Proof.
  intros F Hv Hj. apply filed_step; [by apply (frame_tab_other ts)|].
  rewrite (frame_tab_other ts _ _ EmbeddingJobs F) by done. intros j Hin. right. by exists j.
Qed.

Lemma fresh_id_filed : respects filed_rel fresh_id.
Proof. intros d r d' H. apply (frame_filed []); [by apply (fresh_id_frame [] _ _ _ H)|set_solver..]. Qed.

Lemma exec_insert_job_filed x : respects filed_rel (exec_insert EmbeddingJobs x).
Proof.
  intros d r d' H.
  destruct (exec_insert_cases EmbeddingJobs x d eq_refl) as [(e & _ & E)|(Hc & d1 & E & F & T)];
    rewrite E in H; injection H as _ <-; [reflexivity|].
  apply filed_step; [apply (frame_tab_other _ _ _ FactVersions F); [done|set_solver]|].
  intros j Hj. rewrite T in Hj. apply elem_of_app in Hj as [Hj| ->%list_elem_of_singleton]; [right; by exists j|]. left.
  apply insert_checks_ok in Hc as [Hc _]. unfold row_checks, embedding_job_checks in Hc.
  apply (checks_in _ _ (IntegrityError "fk_embedding_jobs_organization_id_fact_versions") Hc). do 5 right. left.
Qed.

Lemma insert_job_filed clash x : respects filed_rel (insert_or_nothing EmbeddingJobs clash x).
Proof. unfold insert_or_nothing. respects ltac:(apply exec_insert_job_filed). Qed.

Lemma insert_embedding_filed clash x : respects filed_rel (insert_or_nothing FactEmbeddings clash x).
Proof.
  intros d r d' H. apply (frame_filed [FactEmbeddings]); [|set_solver..].
  exact (insert_or_nothing_frame [FactEmbeddings] FactEmbeddings clash x eq_refl ltac:(by left) _ _ _ H).
Qed.

Lemma update_job_filed p f : (∀ j, ej_organization_id (f j) = ej_organization_id j ∧
    ej_fact_version_id (f j) = ej_fact_version_id j) → respects filed_rel (exec_update EmbeddingJobs p f).
Proof.
  intros Hf d r d' H. destruct (exec_update_cases EmbeddingJobs p f d eq_refl) as [(e & _ & E)|(_ & d1 & E & F & T)];
    rewrite E in H; injection H as _ <-; [reflexivity|].
  apply filed_step; [apply (frame_tab_other _ _ _ FactVersions F); [done|set_solver]|].
  intros j Hj. rewrite T in Hj. apply list_elem_of_fmap in Hj as (x & -> & Hx). right. exists x. split; [done|].
  destruct (p x); [apply Hf|done].
Qed.

Ltac filed_leaf := first [apply fresh_id_filed | apply insert_job_filed | apply insert_embedding_filed
  | apply update_job_filed; intros []; repeat case_match; by split].

(** A worker changes no version, and files jobs as the foreign key says. *)
Section worker_filed.
Context `{FR : !FloatRepr} `{SH : !Sha256} `{KS : KeyValueStore} `{ET : ExceptionText}.
Context (w : EmbeddingWorker) (env : worker_env).

Definition moved (s s' : db * kv) : Prop := filed_rel s.1 s'.1.

#[local] Instance moved_preorder : PreOrder moved.
Proof. split; [intros s; red; reflexivity|]. intros a b c H1 H2. red in H1, H2 |- *. by etrans. Qed.

Context (Hothers : ∀ p d, filed_rel d (we_others env p d)).

Lemma in_phase_filed {A} p (m : DB A) : respects filed_rel m → respects moved (in_phase env p m).
Proof using Hothers.
  intros Hm [d k] r [d' k'] H. unfold in_phase in H.
  rewrite (st_bind_eq _ _ _ () (we_others env p d, k)) in H by done. red. cbn [fst].
  etrans; [apply (Hothers p)|]. unfold db_transaction, on_db in H. cbn [fst snd] in H.
  destruct (m (we_others env p d)) as [[a|e] d1] eqn:E; pose proof (Hm _ _ _ E) as R.
  - destruct (we_commit env p); injection H as <- <- <-; first [exact R|reflexivity].
  - injection H as <- <- <-. reflexivity.
Qed.

Lemma on_ext_filed {A} (m : ST kv A) : respects moved (on_ext m).
Proof. intros [d k] r [d' k'] H. unfold on_ext in H. destruct (m _). injection H as _ <- _. red. reflexivity. Qed.

Lemma run_worker_filed : respects moved (run_worker w env).
Proof using Hothers.
  unfold run_worker, process_jobs, record_failure.
  respects ltac:(first [apply on_ext_filed
    | apply in_phase_filed; unfold enqueue_missing, enqueue, claim, take_lease, read_phase, documents, cached_vectors,
        write_one, save_embedding, complete, fail_one, EmbeddingJobStore.fail; respects ltac:(filed_leaf)]).
Qed.

End worker_filed.

(** * An iteration that finds nothing *)

Section drained.
Context `{FR : !FloatRepr} `{SH : !Sha256} `{KS : KeyValueStore} `{ET : ExceptionText}.
Context (w : EmbeddingWorker) (env : worker_env).

Lemma process_claims_nothing jobs s stats s' :
  process_jobs w env jobs s = (Ok stats, s') → ws_claimed stats = 0.
Proof.
  intros H. unfold process_jobs in H. apply st_bind_ok in H as ([ps cache] & s1 & _ & H).
  destruct (embed_texts w env (to_embed ps cache)) as [[fresh tokens]|exc].
  - apply st_bind_ok in H as (results & s2 & _ & H). by apply st_bind_ok in H as (us & s3 & _ & [-> _]%st_ret_ok).
  - destruct (is_provider_error exc); [|by apply raise_ok in H].
    unfold record_failure in H. by apply st_bind_ok in H as (final & s3 & _ & [-> _]%st_ret_ok).
Qed.

(** The worker runs alone; between its transactions only time passes. *)
Definition alone_env : Prop :=
  (∀ p d, tab (we_others env p d) = tab d ∧ db_now d ≤ db_now (we_others env p d)) ∧
  (∀ j, we_locked env j = false).

Lemma enqueue_missing_state model limit org d n d' :
  enqueue_missing model limit org d = (Ok n, d') → 1 ≤ limit →
  frame [EmbeddingJobs] d d' ∧
  (missing model org d = [] ∧ d' = d ∨
   ∃ j, j ∈ tab d' EmbeddingJobs ∧ ej_model j = model ∧ ej_status j = PENDING ∧
        ej_available_at j = db_now d ∧ in_scope org (ej_organization_id j) = true).
Proof.
  intros H Hlim. unfold enqueue_missing in H. apply st_bind_ok in H as (rows & ? & [-> ->]%gets_ok & H).
  apply st_bind_ok in H as (ins & d2 & H & [_ ->]%st_ret_ok).
  assert (R : ∀ l, respects (frame [EmbeddingJobs]) (mapM_ (enqueue model) l)).
  { intros l. unfold enqueue. respects ltac:(first [apply fresh_id_frame
      | apply insert_or_nothing_frame; [done|by left]]). }
  split; [by apply (R _ _ _ _ H)|].
  assert (G : ∀ l, respects (grows EmbeddingJobs) (mapM_ (enqueue model) l)).
  { intros l. unfold enqueue. respects ltac:(first [apply fresh_id_grows | by apply insert_or_nothing_grows]). }
  destruct (take (Z.to_nat limit) (sort_on fv_recorded_at (missing model org d))) as [|v l] eqn:El.
  { left. apply st_ret_ok in H as [_ ->]. split; [|done]. by apply take_sorted_nil in El. }
  right. assert (Hv : v ∈ missing model org d).
  { assert (Hin : v ∈ v :: l) by left. rewrite <-El in Hin. apply in_take_elem in Hin.
    unfold sort_on in Hin. by rewrite elem_of_sort_by in Hin. }
  unfold missing in Hv. apply elem_of_where_ in Hv as [[[Hj _]%andb_true_iff Hsc]%andb_true_iff _].
  apply negb_true_iff in Hj. cbn [mapM_] in H. apply st_bind_ok in H as (b & d1 & He & H).
  apply st_bind_ok in H as (bs & d3 & H & [_ ->]%st_ret_ok). destruct (G l _ _ _ H) as [k Tk].
  unfold enqueue in He. apply st_bind_ok in He as (i & ? & [-> ->]%fresh_id_ok & He).
  apply st_bind_ok in He as (now & ? & [-> ->]%gets_ok & He).
  apply insert_or_nothing_ok in He as [(_ & _ & Hex)|(_ & _ & _ & _ & T)]; [| |done].
  { change (exists_row EmbeddingJobs (job_of model (fv_id v)) d = true) in Hex. congruence. }
  exists (pending_job model (db_next d) (db_now d) v). rewrite Tk, T. split_and!; try done.
  apply elem_of_app. left. apply elem_of_app. right. by left.
Qed.

(** A row that is not due has finished, failed, is leased, or waits. *)
Lemma not_due_cases lease now d j :
  job_ok d j →
  due (ej_model j) lease now j = true ∨ ej_status j = SUCCEEDED ∨
  ej_status j = FAILED ∨ now < ej_available_at j ∨
  ∃ t, ej_status j = RUNNING ∧ ej_locked_at j = Some t ∧ now - lease ≤ t.
Proof.
  intros [_ J2 _ _]. destruct (Z.lt_ge_cases now (ej_available_at j)) as [?|Hge]; [naive_solver|].
  assert (Hdue : due (ej_model j) lease now j
    = (bool_decide (ej_status j = PENDING) || bool_decide (ej_status j = RUNNING)
       && match ej_locked_at j with Some t => t <? now - lease | None => false end)).
  { unfold due. rewrite bool_decide_eq_true_2 by done. by rewrite (proj2 (Z.leb_le _ _) Hge). }
  rewrite Hdue. destruct (ej_status j); [by left| |auto|auto].
  destruct (ej_locked_at j) as [t|]; [|by destruct (proj1 J2 eq_refl)].
  destruct (Z.ltb_spec t (now - lease)); [by left|].
  right; right; right; right. by exists t.
Qed.

(** An iteration that claims nothing leaves nothing to do. *)
Definition settled (d : db) (v : fact_version) : Prop :=
  exists_row FactEmbeddings (embedding_of (ew_model w) (fv_id v)) d = true ∨
  ∃ j, j ∈ tab d EmbeddingJobs ∧ job_of (ew_model w) (fv_id v) j = true ∧
    (ej_status j = FAILED ∨ db_now d < ej_available_at j ∨
     ∃ t, ej_status j = RUNNING ∧ ej_locked_at j = Some t ∧ db_now d - ew_lease w ≤ t).

Lemma idle_settled d k stats d' k' :
  queue_ok d → filed d → alone_env → 1 ≤ ew_batch_size w →
  run_worker w env (d, k) = (Ok stats, (d', k')) → ws_claimed stats = 0 →
  ∀ v, v ∈ tab d' FactVersions → in_scope (ew_organization_id w) (fv_organization_id v) = true → settled d' v.
Proof.
  intros Hq Hfiled [Hot Hlock] Hb H Hz v Hv Hsc.
  assert (Hf' : filed d').
  { apply (run_worker_filed w env (λ p d, same_tables_filed _ _ (proj1 (Hot p d))) _ _ _ H), Hfiled. }
  unfold run_worker in H.
  apply st_bind_ok in H as (n & [d1 k1] & H1 & H). apply in_phase_ok in H1 as [H1 ->].
  apply st_bind_ok in H as (jobs & [d2 k2] & H2 & H). apply in_phase_ok in H2 as [H2 ->].
  assert (jobs = []) as ->.
  { destruct jobs as [|c jobs]; [done|]. apply st_bind_ok in H as (st & s3 & Hp & [-> _]%st_ret_ok).
    apply process_claims_nothing in Hp. cbn in Hz. rewrite Hp in Hz. unfold zlen in Hz. cbn in Hz. lia. }
  apply st_ret_ok in H as [_ [= -> ->]].
  assert (Hrel : queue_rel d d2).
  { etrans; [apply same_tables_rel, (Hot Reconcile d)|].
    etrans; [exact (enqueue_missing_rel _ _ _ _ _ _ H1)|].
    unfold claim in H2. apply st_bind_ok in H2 as (l & ? & [-> ->]%gets_ok & [_ ->]%mapM_nil).
    apply same_tables_rel, (Hot Claim d1). }
  destruct (Hrel Hq) as ([Hcon Hok] & _).
  unfold claim in H2. apply st_bind_ok in H2 as (l & ? & [-> ->]%gets_ok & [Hl ->]%mapM_nil).
  destruct (Hot Claim d1) as [T1 N1]. set (d2 := we_others env Claim d1) in *.
  unfold claimable in Hl. apply take_sorted_nil in Hl; [|done].
  assert (Hnone : ∀ j, j ∈ tab d2 EmbeddingJobs →
    due (ew_model w) (ew_lease w) (db_now d2) j = true → in_scope (ew_organization_id w) (ej_organization_id j) = false).
  { intros j Hj Hd. pose proof (proj1 (where_nil_iff _ _) Hl j Hj) as E. cbn in E. rewrite Hd, Hlock in E.
    by rewrite andb_true_r in E. }
  apply enqueue_missing_state in H1 as [F [[Hm ->]|(j & Hj & Hjm & Hjs & Hja & Hjo)]]; [| |lia].
  2:{ exfalso. rewrite (Hnone j) in Hjo; [done|by rewrite T1|]. unfold due.
      rewrite !bool_decide_eq_true_2 by done. cbn [andb orb]. rewrite andb_true_r.
      apply Z.leb_le. rewrite Hja. etrans; [|exact N1]. by rewrite (frame_now _ _ _ F). }
  unfold missing in Hm. destruct (Hot Reconcile d) as [T0 _]. set (d0 := we_others env Reconcile d) in *.
  rewrite T1 in Hv. pose proof (proj1 (where_nil_iff _ _) Hm v Hv) as E. cbn in E. rewrite Hsc, andb_true_r in E.
  apply andb_false_iff in E as [E%negb_false_iff|E%negb_false_iff].
  - apply (exists_row_spec EmbeddingJobs) in E as (j & Hj & Hjob). rewrite <-T1 in Hj.
    pose proof Hjob as Hjob'. unfold job_of in Hjob. apply andb_true_iff in Hjob as [Hv1%Z.eqb_eq Hmod%bool_decide_eq_true].
    destruct (not_due_cases (ew_lease w) (db_now d2) d2 j (Hok j Hj)) as [Hd|[Hs|Hrest]].
    + exfalso. rewrite <-T1 in Hv. specialize (Hf' j Hj). apply exists_row_spec in Hf' as (u & Hu & [Ho%Z.eqb_eq Hi%Z.eqb_eq]%andb_true_iff).
      assert (u = v) as -> by (apply (version_ids_unique d2); [done..|congruence]).
      rewrite Ho, (Hnone j Hj) in Hsc; [done|by rewrite <-Hmod].
    + left. rewrite <-Hmod, <-Hv1. by apply (jo_done d2 j (Hok j Hj)).
    + right. exists j. by split_and!.
  - left. apply (exists_row_spec FactEmbeddings) in E as (e & He & Hem). apply (exists_row_spec FactEmbeddings).
    exists e. by rewrite T1.
Qed.

End drained.

(** * A drain *)

Section drains.
Context `{FR : !FloatRepr} `{SH : !Sha256} `{KS : KeyValueStore} `{ET : ExceptionText}.
Context (w : EmbeddingWorker).

Lemma claimed_counts env s stats s' : run_worker w env s = (Ok stats, s') → 0 ≤ ws_claimed stats.
Proof.
  intros H. unfold run_worker in H. apply st_bind_ok in H as (n & s1 & _ & H).
  apply st_bind_ok in H as (jobs & s2 & _ & H). destruct jobs as [|c jobs]; [by apply st_ret_ok in H as [-> _]|].
  apply st_bind_ok in H as (st & s3 & Hp & [-> _]%st_ret_ok). apply process_claims_nothing in Hp.
  cbn [add_stats ws_claimed]. rewrite Hp. unfold zlen. lia.
Qed.


End drains.
