(* ===== verification/Decisions.v ===== *)
(** Context snapshots, decisions and their receipts: domain/decisions.py,
    repositories/decisions.py and services/decisions.py. *)

From S2P Require Import Prelude PyStr Json Regex Validation Access Temporal History Database.
From S2P Require Import Schema Accounts FactRepo EvidenceService Canonical FactService Ledger.
From S2P Require Import TemporalService Ranking Retrieval Calendar.

(** What a JSONB column gives back for a stored value. *)
Class Jsonb := { jsonb_read : json → json }.

Section receipts.
Context `{FR : !FloatRepr} `{SH : !Sha256}.

(** * domain/decisions.py *)

Definition RECEIPT_SCHEMA : pystr := py "contextledger.receipt.v1".

Definition canonical_json (value : json) : result pystr := dumps canonical_options value.

Definition value_sha256 (value : json) : result pystr :=
  text ← canonical_json value; b ← encode_utf8 text; Ok (sha256_hex b).

(** Everything the receipt hash covers; the mapping of facts is its items. *)
Record ReceiptContent := {
  rcn_organization_id : UUID;
  rcn_decision_id : UUID;
  rcn_snapshot_id : UUID;
  rcn_decided_at : Instant;
  rcn_decided_by_user_id : UUID;
  rcn_agent : option pystr;
  rcn_action : pystr;
  rcn_outcome : json;
  rcn_rationale : option pystr;
  rcn_query : pystr;
  rcn_valid_at : Instant;
  rcn_known_at : Instant;
  rcn_embedding_model : pystr;
  rcn_vector_search : pystr;
  rcn_privacy_scopes : list pystr;
  rcn_facts : list (UUID * (Z * pystr));   (* version -> (position, digest of the value) *)
  rcn_relied_on : list UUID;
}.

Definition uuid_json (u : UUID) : json := JStr (uuid_str u).
Definition text_or_null (t : option pystr) : json := match t with None => JNull | Some t => JStr t end.

Definition fact_entry (relied_on : list UUID) (item : UUID * (Z * pystr)) : json :=
  JObj [(py "fact_version_id", uuid_json item.1);
        (py "position", JInt item.2.1);
        (py "value_sha256", JStr item.2.2);
        (py "relied_on", JBool (bool_decide (item.1 ∈ relied_on)))].

Definition receipt_document (c : ReceiptContent) : json :=
  JObj [
    (py "schema", JStr RECEIPT_SCHEMA);
    (py "organization_id", uuid_json (rcn_organization_id c));
    (py "decision", JObj [
      (py "id", uuid_json (rcn_decision_id c));
      (py "decided_at", JStr (utc_iso (rcn_decided_at c)));
      (py "decided_by_user_id", uuid_json (rcn_decided_by_user_id c));
      (py "agent", text_or_null (rcn_agent c));
      (py "action", JStr (rcn_action c));
      (py "outcome", rcn_outcome c);
      (py "rationale", text_or_null (rcn_rationale c))]);
    (py "context", JObj [
      (py "snapshot_id", uuid_json (rcn_snapshot_id c));
      (py "query", JStr (rcn_query c));
      (py "valid_at", JStr (utc_iso (rcn_valid_at c)));
      (py "known_at", JStr (utc_iso (rcn_known_at c)));
      (py "embedding_model", JStr (rcn_embedding_model c));
      (py "vector_search", JStr (rcn_vector_search c));
      (py "privacy_scopes", JList (map JStr (sort_by pystr_leb (rcn_privacy_scopes c))))]);
    (py "facts", JList (map (fact_entry (rcn_relied_on c))
                          (sort_on (λ item : UUID * (Z * pystr), item.2.1) (rcn_facts c))))].

Definition receipt_hash (c : ReceiptContent) : result pystr :=
  text ← canonical_json (receipt_document c); b ← encode_utf8 text; Ok (sha256_hex b).

End receipts.

(** * repositories/decisions.py *)

Record SnapshotFactRow := {
  sr_snapshot_fact : snapshot_fact; sr_version : fact_version; sr_property : pystr;
  sr_entity_type : pystr; sr_external_id : pystr; sr_source_name : pystr }.

Module DecisionRepository.
Section repository.
Context `{JB : !Jsonb}.

Definition database_now : DB Instant := gets db_wall.

Definition add_snapshot (snapshot : context_snapshot) (facts : list snapshot_fact) : DB unit :=
  _ ← exec_insert ContextSnapshots snapshot;
  _ ← mapM_ (exec_insert SnapshotFacts) facts;
  mret ().

Definition get_snapshot (org snapshot_id : UUID) : DB (option context_snapshot) :=
  rows ← select ContextSnapshots (λ s, (cs_organization_id s =? org) && (cs_id s =? snapshot_id));
  lift (one_or_none rows).

(** A version as the driver loads it: its value is read from JSONB. *)
Definition loaded (v : fact_version) : fact_version := {|
  fv_id := fv_id v; fv_organization_id := fv_organization_id v; fv_fact_id := fv_fact_id v;
  fv_version := fv_version v; fv_value := jsonb_read (fv_value v); fv_source_id := fv_source_id v;
  fv_valid_from := fv_valid_from v; fv_valid_until := fv_valid_until v;
  fv_observed_at := fv_observed_at v; fv_recorded_at := fv_recorded_at v;
  fv_valid_until_recorded_at := fv_valid_until_recorded_at v;
  fv_supersedes_id := fv_supersedes_id v; fv_authority := fv_authority v;
  fv_confidence := fv_confidence v; fv_privacy_scope := fv_privacy_scope v |}.

(** The joined rows of one snapshot fact. *)
Definition snapshot_join (d : db) (sf : snapshot_fact) : list SnapshotFactRow :=
  v ← where_ (λ v, (fv_organization_id v =? sf_organization_id sf)
                   && (fv_id v =? sf_fact_version_id sf)) (tab d FactVersions);
  f ← where_ (fact_of v) (tab d Facts);
  e ← where_ (entity_of f) (tab d Entities);
  s ← where_ (source_of v) (tab d FactSources);
  [{| sr_snapshot_fact := sf; sr_version := loaded v; sr_property := f_property f;
      sr_entity_type := e_entity_type e; sr_external_id := e_external_id e;
      sr_source_name := s_name s |}].

Definition of_snapshot (org snapshot_id : UUID) (sf : snapshot_fact) : bool :=
  (sf_organization_id sf =? org) && (sf_snapshot_id sf =? snapshot_id).

(** ORDER BY position *)
Definition snapshot_rows (org snapshot_id : UUID) : DB (list SnapshotFactRow) :=
  gets (λ d, sort_on (λ r, sf_position (sr_snapshot_fact r))
    (where_ (of_snapshot org snapshot_id) (tab d SnapshotFacts) ≫= snapshot_join d)).

Definition add_decision (decision : decision) (facts : list decision_fact) : DB unit :=
  _ ← exec_insert Decisions decision;
  _ ← mapM_ (exec_insert DecisionFacts) facts;
  mret ().

Definition get_decision (org decision_id : UUID) : DB (option decision) :=
  rows ← select Decisions (λ x, (d_organization_id x =? org) && (d_id x =? decision_id));
  lift (one_or_none rows).

Definition cites (org decision_id : UUID) (x : decision_fact) : bool :=
  (df_organization_id x =? org) && (df_decision_id x =? decision_id).

Definition relied_on (org decision_id : UUID) : DB (list UUID) :=
  rows ← select DecisionFacts (cites org decision_id);
  mret (map df_fact_version_id rows).

(** ORDER BY decided_at, id *)
Definition by_decided (a b : decision) : bool :=
  (d_decided_at a <? d_decided_at b) || ((d_decided_at a =? d_decided_at b) && (d_id a <=? d_id b)).

Definition decisions_relying_on (org version_id : UUID) : DB (list decision) :=
  gets (λ d, sort_by by_decided (
    x ← where_ (λ x, d_organization_id x =? org) (tab d Decisions);
    _ ← where_ (λ y, (df_organization_id y =? d_organization_id x) && (df_decision_id y =? d_id x)
                     && (df_fact_version_id y =? version_id)) (tab d DecisionFacts);
    [x])).

End repository.
End DecisionRepository.

(** * services/decisions.py *)

Record CapturedContext `{ScoreOps} := {
  cc_snapshot_id : UUID; cc_valid_at : Instant; cc_known_at : Instant;
  cc_retrieval : RetrievalResult }.

Record RecordDecision := {
  rd_snapshot_id : UUID; rd_action : pystr; rd_outcome : json; rd_relied_on : list UUID;
  rd_rationale : option pystr; rd_agent : option pystr }.

Record ReceiptEvidence := {
  re_evidence_id : UUID; re_relation : EvidenceRelation; re_content_sha256 : pystr;
  re_uri : option pystr; re_source_name : pystr; re_linked_at : Instant }.

Record ReceiptFact := {
  rf_fact_version_id : UUID; rf_position : Z; rf_relied_on : bool; rf_redacted : bool;
  rf_privacy_scope : PrivacyScope; rf_receipt_entity_type : option pystr;
  rf_receipt_external_id : option pystr; rf_receipt_property : option pystr;
  rf_source_name : option pystr; rf_receipt_version : option VersionSnapshot;
  rf_ranking : json; rf_evidence : list ReceiptEvidence; rf_revoked_at : option Instant }.

Record DecisionReceipt := {
  dr_decision : decision; dr_context : context_snapshot; dr_facts : list ReceiptFact;
  dr_integrity_verified : bool }.

Section decision_service.
Context `{UD : !UnicodeData} `{FR : !FloatRepr} `{SH : !Sha256} `{JB : !Jsonb}.

(** Writing a key of a dict: the last value, at the key's first place. *)
Fixpoint dict_put {A} (k : UUID) (v : A) (l : list (UUID * A)) : list (UUID * A) :=
  match l with
  | [] => [(k, v)]
  | (k', v') :: l' => if k' =? k then (k', v) :: l' else (k', v') :: dict_put k v l'
  end.
Definition dict_of {A} (items : list (UUID * A)) : list (UUID * A) :=
  fold_left (λ acc i, dict_put i.1 i.2 acc) items [].

Definition content (x : decision) (snapshot : context_snapshot) (rows : list SnapshotFactRow)
    (relied_on : list UUID) : result ReceiptContent :=
  items ← mapR (λ r, digest ← value_sha256 (fv_value (sr_version r));
                     Ok (fv_id (sr_version r), (sf_position (sr_snapshot_fact r), digest))) rows;
  Ok {| rcn_organization_id := d_organization_id x; rcn_decision_id := d_id x;
        rcn_snapshot_id := cs_id snapshot; rcn_decided_at := d_decided_at x;
        rcn_decided_by_user_id := d_decided_by_user_id x; rcn_agent := d_agent x;
        rcn_action := d_action x; rcn_outcome := d_outcome x; rcn_rationale := d_rationale x;
        rcn_query := cs_query snapshot; rcn_valid_at := cs_valid_at snapshot;
        rcn_known_at := cs_known_at snapshot; rcn_embedding_model := cs_embedding_model snapshot;
        rcn_vector_search := cs_vector_search snapshot;
        rcn_privacy_scopes := map scope_text (cs_privacy_scopes snapshot);
        rcn_facts := dict_of items; rcn_relied_on := relied_on |}.

Definition with_outcome (o : json) (x : decision) : decision := {|
  d_id := d_id x; d_organization_id := d_organization_id x; d_snapshot_id := d_snapshot_id x;
  d_decided_by_user_id := d_decided_by_user_id x; d_agent := d_agent x; d_action := d_action x;
  d_outcome := o; d_rationale := d_rationale x; d_decided_at := d_decided_at x;
  d_receipt_sha256 := d_receipt_sha256 x |}.

Definition sealed (h : pystr) (x : decision) : decision := {|
  d_id := d_id x; d_organization_id := d_organization_id x; d_snapshot_id := d_snapshot_id x;
  d_decided_by_user_id := d_decided_by_user_id x; d_agent := d_agent x; d_action := d_action x;
  d_outcome := d_outcome x; d_rationale := d_rationale x; d_decided_at := d_decided_at x;
  d_receipt_sha256 := h |}.

(** A decision as a session that did not write it loads it. *)
Definition reloaded (x : decision) : decision := with_outcome (jsonb_read (d_outcome x)) x.

(** dict(result): the last revocation instant of each version. *)
Definition revocations (version_ids : list UUID) (org : UUID) : DB (list (UUID * Instant)) :=
  match version_ids with
  | [] => mret []
  | _ => rows ← select FactRevocations
           (λ r, (r_organization_id r =? org) && bool_decide (r_fact_version_id r ∈ version_ids));
         mret (dict_of (map (λ r, (r_fact_version_id r, r_revoked_at r)) rows))
  end.

Definition revoked_get (i : UUID) (l : list (UUID * Instant)) : option Instant :=
  option_map snd (List.find (λ x, x.1 =? i) l).

Definition redacted (row : SnapshotFactRow) (scope : PrivacyScope) (relied_on : list UUID) :
    ReceiptFact := {|
  rf_fact_version_id := fv_id (sr_version row); rf_position := sf_position (sr_snapshot_fact row);
  rf_relied_on := bool_decide (fv_id (sr_version row) ∈ relied_on); rf_redacted := true;
  rf_privacy_scope := scope; rf_receipt_entity_type := None; rf_receipt_external_id := None;
  rf_receipt_property := None; rf_source_name := None; rf_receipt_version := None;
  rf_ranking := JObj []; rf_evidence := []; rf_revoked_at := None |}.

(** Only evidence the actor could have seen when deciding. *)
Definition receipt_evidence (visible : list PrivacyScope) (known_at : Instant)
    (links : list (evidence_link * evidence * fact_source)) : list ReceiptEvidence :=
  map (λ '(l, e, s), {|
         re_evidence_id := ev_id e; re_relation := l_relation l;
         re_content_sha256 := ev_content_sha256 e; re_uri := ev_uri e; re_source_name := s_name s;
         re_linked_at := l_linked_at l |})
    (where_ (λ '(l, e, s), (l_linked_at l <=? known_at)
                           && bool_decide (ev_privacy_scope e ∈ visible)) links).

Definition receipt_fact (org : UUID) (visible : list PrivacyScope) (known_at : Instant)
    (relied_on : list UUID) (revoked : list (UUID * Instant)) (row : SnapshotFactRow) :
    DB ReceiptFact :=
  let v := sr_version row in
  let scope := fv_privacy_scope v in
  if negb (bool_decide (scope ∈ visible)) then mret (redacted row scope relied_on)
  else
    links ← evidence_for_version org (fv_id v);
    mret {| rf_fact_version_id := fv_id v; rf_position := sf_position (sr_snapshot_fact row);
            rf_relied_on := bool_decide (fv_id v ∈ relied_on); rf_redacted := false;
            rf_privacy_scope := scope; rf_receipt_entity_type := Some (sr_entity_type row);
            rf_receipt_external_id := Some (sr_external_id row);
            rf_receipt_property := Some (sr_property row);
            rf_source_name := Some (sr_source_name row);
            rf_receipt_version := Some (as_known (to_snapshot v) (Some known_at));
            rf_ranking := sf_ranking (sr_snapshot_fact row);
            rf_evidence := receipt_evidence visible known_at links;
            rf_revoked_at := revoked_get (fv_id v) revoked |}.

(** [load] is how the session holds the decision: as it wrote it, or reloaded. *)
Definition receipt (load : decision → decision) (ctx : TenantContext) (decision_id : UUID) :
    DB DecisionReceipt :=
  transaction (
    role ← require_permission ctx READ_DECISIONS;
    let visible := visible_privacy_scopes role [ctx_max_privacy_scope ctx] in
    found ← DecisionRepository.get_decision (ctx_organization_id ctx) decision_id;
    match found with
    | None => raise (NotFoundError "decision not found")
    | Some x =>
      let x := load x in
      snapshot ← DecisionRepository.get_snapshot (ctx_organization_id ctx) (d_snapshot_id x);
      match snapshot with
      | None => raise (NotFoundError "context snapshot not found")
      | Some snapshot =>
        rows ← DecisionRepository.snapshot_rows (ctx_organization_id ctx) (cs_id snapshot);
        relied_on ← DecisionRepository.relied_on (ctx_organization_id ctx) (d_id x);
        revoked ← revocations (map (λ r, fv_id (sr_version r)) rows) (ctx_organization_id ctx);
        facts ← mapM_ (receipt_fact (ctx_organization_id ctx) visible (cs_known_at snapshot)
                         relied_on revoked) rows;
        c ← lift (content x snapshot rows relied_on);
        recomputed ← lift (receipt_hash c);
        mret {| dr_decision := x; dr_context := snapshot; dr_facts := facts;
                dr_integrity_verified := bool_decide (recomputed = d_receipt_sha256 x) |}
      end
    end).

(** The transaction of [record_decision]. *)
Definition store_decision (ctx : TenantContext) (snapshot_id : UUID) (relied_on : list UUID)
    (agent : option pystr) (action : pystr) (outcome : json) (rationale : option pystr) :
    DB decision :=
  transaction (
    _ ← require_permission ctx RECORD_DECISIONS;
    snapshot ← DecisionRepository.get_snapshot (ctx_organization_id ctx) snapshot_id;
    match snapshot with
    | None => raise (NotFoundError "context snapshot not found")
    | Some snapshot =>
      rows ← DecisionRepository.snapshot_rows (ctx_organization_id ctx) (cs_id snapshot);
      ids ← lift (validate_relied_on relied_on (map (λ r, fv_id (sr_version r)) rows));
      i ← fresh_id;
      now ← DecisionRepository.database_now;
      let draft := {|
        d_id := i; d_organization_id := ctx_organization_id ctx; d_snapshot_id := cs_id snapshot;
        d_decided_by_user_id := ctx_user_id ctx; d_agent := agent; d_action := action;
        d_outcome := outcome; d_rationale := rationale; d_decided_at := now;
        d_receipt_sha256 := repeat 48 64 |} in
      c ← lift (content draft snapshot rows ids);
      h ← lift (receipt_hash c);
      let x := sealed h draft in
      _ ← DecisionRepository.add_decision x
            (map (λ v, {| df_organization_id := ctx_organization_id ctx; df_decision_id := i;
                          df_snapshot_id := cs_id snapshot; df_fact_version_id := v |}) ids);
      mret x
    end).

Definition record_decision (ctx : TenantContext) (command : RecordDecision) : DB DecisionReceipt :=
  action ← lift (normalize_action (rd_action command));
  outcome ← lift (validate_outcome (rd_outcome command));
  rationale ← lift (normalize_rationale (rd_rationale command));
  agent ← lift (normalize_agent (rd_agent command));
  x ← store_decision ctx (rd_snapshot_id command) (rd_relied_on command) agent action outcome rationale;
  receipt id ctx (d_id x).

Definition decisions_relying_on (ctx : TenantContext) (version_id : UUID) : DB (list UUID) :=
  transaction (
    _ ← require_permission ctx READ_DECISIONS;
    decisions ← DecisionRepository.decisions_relying_on (ctx_organization_id ctx) version_id;
    mret (map d_id decisions)).

(** ** Capturing a context *)

Context `{SO : !ScoreOps} `{SE : !SearchEngine} `{RT : !RequestText}.

Definition opt_int (x : option Z) : json := match x with None => JNull | Some n => JInt n end.

Definition parameters (request : RetrievalQuery) : json :=
  JObj [
    (py "limit", JInt (rq_limit request));
    (py "entity_type", text_or_null (rq_entity_type request));
    (py "external_ids", JList (map JStr (sort_by pystr_leb (rq_external_ids request))));
    (py "properties", JList (map JStr (sort_by pystr_leb (rq_properties request))));
    (py "source_ids", JList (map JStr (sort_by pystr_leb (map uuid_str (rq_source_ids request)))));
    (py "min_authority", opt_int (rq_min_authority request));
    (py "min_confidence", match rq_min_confidence request with
                          | Some (Some d) => JStr (decimal_str d)
                          | _ => JNull
                          end);
    (py "max_privacy_scope", text_or_null (option_map scope_text (rq_max_privacy_scope request)));
    (py "trust_weight", JFloat (score_float (rq_trust_weight request)))].

Definition opt_score (x : option score) : json :=
  match x with None => JNull | Some s => JFloat (score_float s) end.

Definition ranking_json (c : RankedCandidate) : json :=
  JObj [
    (py "score", JFloat (score_float (rc_score c)));
    (py "rrf_score", JFloat (score_float (rc_rrf_score c)));
    (py "trust", JFloat (score_float (rc_trust c)));
    (py "vector_rank", opt_int (rc_vector_rank c));
    (py "vector_distance", opt_score (rc_vector_distance c));
    (py "text_rank", opt_int (rc_text_rank c));
    (py "text_score", opt_score (rc_text_score c))].

(** [replace(request, valid_at=..., known_at=...)] *)
Definition pinned (request : RetrievalQuery) (valid_at known_at : Instant) : RetrievalQuery := {|
  rq_query := rq_query request; rq_limit := rq_limit request;
  rq_valid_at := Some (Aware valid_at); rq_known_at := Some (Aware known_at);
  rq_entity_type := rq_entity_type request; rq_external_ids := rq_external_ids request;
  rq_properties := rq_properties request; rq_source_ids := rq_source_ids request;
  rq_min_authority := rq_min_authority request; rq_min_confidence := rq_min_confidence request;
  rq_max_privacy_scope := rq_max_privacy_scope request;
  rq_trust_weight := rq_trust_weight request |}.

(** A search without a cache, on the store alone. *)
Definition search_uncached (clock : Instant) (others : db → db) (index : search_index)
    (ctx : TenantContext) (request : RetrievalQuery) : DB RetrievalResult :=
  λ d, let '(r, (d', _)) := search (C := unit) None clock others index ctx request (d, ()) in (r, d').

Definition vector_search_text (s : VectorSearchStatus) : pystr :=
  match s with VS_used => py "used" | VS_unavailable => py "unavailable" end.

Definition snapshot_fact_of (ctx : TenantContext) (snapshot_id : UUID) (x : Z * RetrievedFact) :
    snapshot_fact := {|
  sf_organization_id := ctx_organization_id ctx; sf_snapshot_id := snapshot_id;
  sf_fact_version_id := vs_id (rt_version x.2); sf_position := x.1;
  sf_ranking := ranking_json (rt_ranking x.2) |}.

Definition capture_context (clock : Instant) (others : db → db) (index : search_index)
    (ctx : TenantContext) (request : RetrievalQuery) : DB CapturedContext :=
  database_now ← transaction (
    _ ← require_permission ctx RECORD_DECISIONS;
    DecisionRepository.database_now);
  known_at ← lift match rq_known_at request with
                  | Some k => require_aware k
                  | None => Ok database_now
                  end;
  valid_at ← lift match rq_valid_at request with
                  | Some v => require_aware v
                  | None => Ok known_at
                  end;
  let pinned_request := pinned request valid_at known_at in
  retrieval ← search_uncached clock others index ctx pinned_request;
  snapshot ← transaction (
    _ ← require_permission ctx RECORD_DECISIONS;
    i ← fresh_id;
    now ← gets db_now;
    let snapshot := {|
      cs_id := i; cs_organization_id := ctx_organization_id ctx;
      cs_captured_by_user_id := ctx_user_id ctx; cs_query := rr_query retrieval;
      cs_valid_at := valid_at; cs_known_at := known_at;
      cs_embedding_model := rr_embedding_model retrieval;
      cs_vector_search := vector_search_text (rr_vector_search retrieval);
      cs_privacy_scopes := rr_privacy_scopes retrieval; cs_parameters := parameters pinned_request;
      cs_created_at := now |} in
    _ ← DecisionRepository.add_snapshot snapshot
          (map (snapshot_fact_of ctx i) (enumerate_from 1 (rr_results retrieval)));
    mret snapshot);
  mret {| cc_snapshot_id := cs_id snapshot; cc_valid_at := valid_at; cc_known_at := known_at;
          cc_retrieval := retrieval |}.

End decision_service.
