(* ===== verification/Receipts.v ===== *)
(** What a receipt proves: its hash binds every field of the decision and of its
    frozen context (domain/decisions.py), recording a decision seals it, and a
    receipt hides what its reader may not see (services/decisions.py). *)

From S2P Require Import Prelude PyStr Json Regex Validation Access Temporal History Database.
From S2P Require Import Schema Accounts FactRepo EvidenceService Canonical FactService Ledger.
From S2P Require Import TemporalService Ranking Retrieval Calendar Encoding Decisions.

(** * The canonical text is valid text *)

Section text.
Context `{FR : FloatRepr} `{FL : !FloatReprLaws}.

Lemma atom_text_valid j : json_ok j = true → forallb valid_char (atom_text j) = true.
Proof.
  intros Hj. destruct j as [|[]|n|f|t|l|kvs|]; try done; cbn [atom_text].
  - apply (weaken_valid int_char); [|apply str_of_int_chars].
    intros c. unfold int_char, is_digit, in_range. rewrite orb_true_iff, andb_true_iff, !Z.leb_le, Z.eqb_eq. lia.
  - destruct f; try done; cbn [float_text]; (apply (weaken_valid float_char); [|by apply float_repr_chars]);
      intros c; unfold float_char, is_digit, in_range;
      rewrite orb_true_iff, andb_true_iff, !Z.leb_le, bool_decide_eq_true; set_solver by lia.
Qed.

Lemma render_valid j : json_ok j = true → forallb valid_char (render j) = true.
Proof.
  induction j as [|b|n|f|t|l IH|kvs IH|] using json_rect'; try (intros Hj; by apply atom_text_valid).
  - apply quote_valid.
  - intros Hl. cbn [render]. apply forallb_app_valid; [done|]. apply forallb_app_valid; [|done].
    apply join_valid; [done|]. cbn [json_ok] in Hl.
    induction IH as [|x l Hx _ IHl]; [constructor|]. cbn [forallb map] in *.
    apply andb_true_iff in Hl as [??]. constructor; auto.
  - intros Hl. cbn [render]. apply forallb_app_valid; [done|]. apply forallb_app_valid; [|done].
    apply join_valid; [done|]. cbn [json_ok] in Hl.
    induction IH as [|[k v] l Hx _ IHl]; [constructor|]. cbn [forallb map fst snd] in *.
    apply andb_true_iff in Hl as [[??]%andb_true_iff ?]. constructor; [|auto].
    apply forallb_app_valid; [by apply quote_valid|]. apply forallb_app_valid; [done|auto].
  - done.
Qed.

(** Documents with the same digest are the same up to key order, or the digest
    collides. *)
Lemma digest_binds `{SH : !Sha256} j k t u b c :
  json_ok j = true → json_ok k = true →
  canonical_json j = Ok t → encode_utf8 t = Ok b →
  canonical_json k = Ok u → encode_utf8 u = Ok c →
  sha256_hex b = sha256_hex c → canon j = canon k ∨ (b ≠ c ∧ sha256_hex b = sha256_hex c).
Proof.
  intros Hj Hk Ej Eb Ek Ec Hh. destruct (decide (b = c)) as [<-|Hne]; [left|by right].
  unfold canonical_json in *.
  pose proof (dumps_canonical _ _ Ej) as Et. pose proof (dumps_canonical _ _ Ek) as Eu.
  assert (t = u) as <-.
  { eapply encode_utf8_inj; [| |exact Eb|exact Ec]; subst t u; by apply render_valid, json_ok_canon. }
  by eapply canonical_text_inj.
Qed.
End text.

(** * The document determines the content *)

Lemma assoc_permutation {A} k (l m : list (pystr * A)) :
  NoDup (map fst l) → l ≡ₚ m → assoc k l = assoc k m.
Proof.
  intros Hn H. induction H as [|[k1 x] l m H IH|[k1 x] [k2 y] l|l m n H1 IH1 H2 IH2].
  - done.
  - cbn [assoc]. case_bool_decide; [done|]. apply IH. by apply NoDup_cons in Hn as [_ ?].
  - cbn [assoc map fst] in *. apply NoDup_cons in Hn as [Hn _].
    repeat case_bool_decide; try done. subst. destruct Hn. by left.
  - rewrite IH1 by done. apply IH2. by rewrite <-(Permutation_map fst H1).
Qed.

(** Equal canonical objects agree on every key. *)
Lemma canon_obj_assoc kvs kvs' k :
  NoDup (map fst kvs) → NoDup (map fst kvs') → canon (JObj kvs) = canon (JObj kvs') →
  option_map canon (assoc k kvs) = option_map canon (assoc k kvs').
Proof.
  intros Hn Hn' [= E].
  assert (Hm : ∀ l : list (pystr * json), NoDup (map fst l) →
    assoc k (sort_by key_leb (map (λ kv, (kv.1, canon kv.2)) l)) = option_map canon (assoc k l)).
  { intros l Hl. rewrite <-assoc_map. symmetry. apply assoc_permutation; [|by rewrite sort_by_perm].
    by rewrite map_map. }
  by rewrite <-!Hm, E.
Qed.

(** Fields in the range of their types. *)
Record content_ok (c : ReceiptContent) : Prop := {
  ok_organization : is_uuid (rcn_organization_id c);
  ok_decision : is_uuid (rcn_decision_id c);
  ok_snapshot : is_uuid (rcn_snapshot_id c);
  ok_user : is_uuid (rcn_decided_by_user_id c);
  ok_decided_at : is_instant (rcn_decided_at c);
  ok_valid_at : is_instant (rcn_valid_at c);
  ok_known_at : is_instant (rcn_known_at c);
  ok_outcome : json_ok (rcn_outcome c) = true;
  ok_agent : ∀ t, rcn_agent c = Some t → forallb valid_char t = true;
  ok_rationale : ∀ t, rcn_rationale c = Some t → forallb valid_char t = true;
  ok_texts : forallb (forallb valid_char)
    (rcn_action c :: rcn_query c :: rcn_embedding_model c :: rcn_vector_search c
     :: rcn_privacy_scopes c) = true;
  ok_facts : ∀ i n h, (i, (n, h)) ∈ rcn_facts c → is_uuid i ∧ forallb valid_char h = true;
}.

(** The facts as the document lists them: by position, with the citation mark. *)
Definition listed_facts (c : ReceiptContent) : list (UUID * Z * pystr * bool) :=
  map (λ item : UUID * (Z * pystr),
         (item.1, item.2.1, item.2.2, bool_decide (item.1 ∈ rcn_relied_on c)))
    (sort_on (λ item : UUID * (Z * pystr), item.2.1) (rcn_facts c)).

(** Two contents that say the same. *)
Record same_content (c e : ReceiptContent) : Prop := {
  same_organization : rcn_organization_id c = rcn_organization_id e;
  same_decision : rcn_decision_id c = rcn_decision_id e;
  same_snapshot : rcn_snapshot_id c = rcn_snapshot_id e;
  same_user : rcn_decided_by_user_id c = rcn_decided_by_user_id e;
  same_decided_at : rcn_decided_at c = rcn_decided_at e;
  same_valid_at : rcn_valid_at c = rcn_valid_at e;
  same_known_at : rcn_known_at c = rcn_known_at e;
  same_outcome : canon (rcn_outcome c) = canon (rcn_outcome e);
  same_agent : rcn_agent c = rcn_agent e;
  same_action : rcn_action c = rcn_action e;
  same_rationale : rcn_rationale c = rcn_rationale e;
  same_query : rcn_query c = rcn_query e;
  same_model : rcn_embedding_model c = rcn_embedding_model e;
  same_vector_search : rcn_vector_search c = rcn_vector_search e;
  same_scopes : rcn_privacy_scopes c ≡ₚ rcn_privacy_scopes e;
  same_facts : listed_facts c = listed_facts e;
}.

(** The keys of a literal object are distinct. *)
Ltac distinct_keys :=
  match goal with |- NoDup ?l => exact (bool_decide_eq_true_1 (NoDup l) eq_refl) end.

(** From canonically equal objects, equal fields. *)
Ltac fields H F :=
  match type of H with
  | canon (JObj ?kvs) = canon (JObj ?kvs') =>
    assert (F : ∀ k, option_map canon (assoc k kvs) = option_map canon (assoc k kvs'))
      by (intros k; apply canon_obj_assoc; [distinct_keys|distinct_keys|exact H])
  end.

Lemma str_field_inj a b : Some (JStr a) = Some (JStr b) → a = b.
Proof. congruence. Qed.

Lemma text_or_null_inj a b : text_or_null a = text_or_null b → a = b.
Proof. destruct a, b; simpl; congruence. Qed.

Lemma canon_text_or_null a : canon (text_or_null a) = text_or_null a.
Proof. by destruct a. Qed.

Lemma fact_entry_inj r r' x y :
  is_uuid x.1 → is_uuid y.1 → canon (fact_entry r x) = canon (fact_entry r' y) →
  (x.1, x.2.1, x.2.2, bool_decide (x.1 ∈ r)) = (y.1, y.2.1, y.2.2, bool_decide (y.1 ∈ r')).
Proof.
  intros Hx Hy H. unfold fact_entry in H.
  fields H Hf.
  pose proof (Hf (py "fact_version_id")) as F1.
  pose proof (Hf (py "position")) as F2.
  pose proof (Hf (py "value_sha256")) as F3.
  pose proof (Hf (py "relied_on")) as F4.
  change (Some (uuid_json x.1) = Some (uuid_json y.1)) in F1.
  change (Some (JInt x.2.1) = Some (JInt y.2.1)) in F2.
  change (Some (JStr x.2.2) = Some (JStr y.2.2)) in F3.
  change (Some (JBool (bool_decide (x.1 ∈ r))) = Some (JBool (bool_decide (y.1 ∈ r')))) in F4.
  apply str_field_inj, uuid_str_inj in F1; [|done|done]. congruence.
Qed.

Lemma some_inj {A} (a b : A) : Some a = Some b → a = b.
Proof. congruence. Qed.
Lemma cons_field_inj {A} (x y : A) l m : x :: l = y :: m → x = y ∧ l = m.
Proof. by intros [= -> ->]. Qed.
Lemma list_field_inj a b : Some (JList a) = Some (JList b) → a = b.
Proof. congruence. Qed.

(** The value of a field, by computation. *)
Ltac field Hf k F x y :=
  pose proof (Hf (py k)) as F;
  change (Some x = Some y) in F.

Lemma decision_fields_inj c e :
  content_ok c → content_ok e →
  canon (JObj [
      (py "id", uuid_json (rcn_decision_id c));
      (py "decided_at", JStr (utc_iso (rcn_decided_at c)));
      (py "decided_by_user_id", uuid_json (rcn_decided_by_user_id c));
      (py "agent", text_or_null (rcn_agent c));
      (py "action", JStr (rcn_action c));
      (py "outcome", rcn_outcome c);
      (py "rationale", text_or_null (rcn_rationale c))])
  = canon (JObj [
      (py "id", uuid_json (rcn_decision_id e));
      (py "decided_at", JStr (utc_iso (rcn_decided_at e)));
      (py "decided_by_user_id", uuid_json (rcn_decided_by_user_id e));
      (py "agent", text_or_null (rcn_agent e));
      (py "action", JStr (rcn_action e));
      (py "outcome", rcn_outcome e);
      (py "rationale", text_or_null (rcn_rationale e))]) →
  rcn_decision_id c = rcn_decision_id e ∧ rcn_decided_at c = rcn_decided_at e ∧
  rcn_decided_by_user_id c = rcn_decided_by_user_id e ∧ rcn_agent c = rcn_agent e ∧
  rcn_action c = rcn_action e ∧ canon (rcn_outcome c) = canon (rcn_outcome e) ∧
  rcn_rationale c = rcn_rationale e.
Proof.
  intros Hc He H. fields H Hf.
  field Hf "id" F1 (uuid_json (rcn_decision_id c)) (uuid_json (rcn_decision_id e)).
  field Hf "decided_at" F2 (JStr (utc_iso (rcn_decided_at c))) (JStr (utc_iso (rcn_decided_at e))).
  field Hf "decided_by_user_id" F3 (uuid_json (rcn_decided_by_user_id c)) (uuid_json (rcn_decided_by_user_id e)).
  field Hf "agent" F4 (canon (text_or_null (rcn_agent c))) (canon (text_or_null (rcn_agent e))).
  field Hf "action" F5 (JStr (rcn_action c)) (JStr (rcn_action e)).
  field Hf "outcome" F6 (canon (rcn_outcome c)) (canon (rcn_outcome e)).
  field Hf "rationale" F7 (canon (text_or_null (rcn_rationale c))) (canon (text_or_null (rcn_rationale e))).
  apply str_field_inj, uuid_str_inj in F1; [|apply Hc|apply He].
  apply str_field_inj, utc_iso_inj in F2; [|apply Hc|apply He].
  apply str_field_inj, uuid_str_inj in F3; [|apply Hc|apply He].
  rewrite !canon_text_or_null in F4, F7.
  apply some_inj, text_or_null_inj in F4. apply some_inj, text_or_null_inj in F7.
  apply str_field_inj in F5. apply some_inj in F6. done.
Qed.

Lemma map_canon_str l : map canon (map JStr l) = map JStr l.
Proof. rewrite map_map. by apply map_ext. Qed.

Lemma map_str_inj l m : map JStr l = map JStr m → l = m.
Proof.
  revert m. induction l as [|x l IH]; intros [|y m]; simpl; try done. intros [= -> E]. f_equal. by apply IH.
Qed.

Lemma context_fields_inj c e :
  content_ok c → content_ok e →
  canon (JObj [
      (py "snapshot_id", uuid_json (rcn_snapshot_id c));
      (py "query", JStr (rcn_query c));
      (py "valid_at", JStr (utc_iso (rcn_valid_at c)));
      (py "known_at", JStr (utc_iso (rcn_known_at c)));
      (py "embedding_model", JStr (rcn_embedding_model c));
      (py "vector_search", JStr (rcn_vector_search c));
      (py "privacy_scopes", JList (map JStr (sort_by pystr_leb (rcn_privacy_scopes c))))])
  = canon (JObj [
      (py "snapshot_id", uuid_json (rcn_snapshot_id e));
      (py "query", JStr (rcn_query e));
      (py "valid_at", JStr (utc_iso (rcn_valid_at e)));
      (py "known_at", JStr (utc_iso (rcn_known_at e)));
      (py "embedding_model", JStr (rcn_embedding_model e));
      (py "vector_search", JStr (rcn_vector_search e));
      (py "privacy_scopes", JList (map JStr (sort_by pystr_leb (rcn_privacy_scopes e))))]) →
  rcn_snapshot_id c = rcn_snapshot_id e ∧ rcn_query c = rcn_query e ∧
  rcn_valid_at c = rcn_valid_at e ∧ rcn_known_at c = rcn_known_at e ∧
  rcn_embedding_model c = rcn_embedding_model e ∧ rcn_vector_search c = rcn_vector_search e ∧
  rcn_privacy_scopes c ≡ₚ rcn_privacy_scopes e.
Proof.
  intros Hc He H. fields H Hf.
  field Hf "snapshot_id" F1 (uuid_json (rcn_snapshot_id c)) (uuid_json (rcn_snapshot_id e)).
  field Hf "query" F2 (JStr (rcn_query c)) (JStr (rcn_query e)).
  field Hf "valid_at" F3 (JStr (utc_iso (rcn_valid_at c))) (JStr (utc_iso (rcn_valid_at e))).
  field Hf "known_at" F4 (JStr (utc_iso (rcn_known_at c))) (JStr (utc_iso (rcn_known_at e))).
  field Hf "embedding_model" F5 (JStr (rcn_embedding_model c)) (JStr (rcn_embedding_model e)).
  field Hf "vector_search" F6 (JStr (rcn_vector_search c)) (JStr (rcn_vector_search e)).
  field Hf "privacy_scopes" F7
    (JList (map canon (map JStr (sort_by pystr_leb (rcn_privacy_scopes c)))))
    (JList (map canon (map JStr (sort_by pystr_leb (rcn_privacy_scopes e))))).
  apply str_field_inj, uuid_str_inj in F1; [|apply Hc|apply He].
  apply str_field_inj in F2, F5, F6.
  apply str_field_inj, utc_iso_inj in F3; [|apply Hc|apply He].
  apply str_field_inj, utc_iso_inj in F4; [|apply Hc|apply He].
  apply list_field_inj in F7. rewrite !map_canon_str in F7. apply map_str_inj in F7.
  split_and!; try done.
  by rewrite <-(sort_by_perm pystr_leb (rcn_privacy_scopes c)), F7, sort_by_perm.
Qed.

Lemma facts_inj c e :
  content_ok c → content_ok e →
  map canon (map (fact_entry (rcn_relied_on c))
    (sort_on (λ item : UUID * (Z * pystr), item.2.1) (rcn_facts c)))
  = map canon (map (fact_entry (rcn_relied_on e))
    (sort_on (λ item : UUID * (Z * pystr), item.2.1) (rcn_facts e))) →
  listed_facts c = listed_facts e.
Proof.
  intros Hc He. unfold listed_facts.
  assert (Hok : ∀ c, content_ok c →
    Forall (λ x, is_uuid x.1) (sort_on (λ item : UUID * (Z * pystr), item.2.1) (rcn_facts c))).
  { clear. intros c Hc. apply Forall_forall. intros [i [n h]] Hin. unfold sort_on in Hin.
    rewrite elem_of_sort_by in Hin. by apply (ok_facts c Hc) in Hin as [? _]. }
  pose proof (Hok c Hc) as Uc. pose proof (Hok e He) as Ue. clear Hok Hc He.
  revert Uc Ue. generalize (sort_on (λ item : UUID * (Z * pystr), item.2.1) (rcn_facts c)) as l.
  generalize (sort_on (λ item : UUID * (Z * pystr), item.2.1) (rcn_facts e)) as m.
  intros m l. revert m. induction l as [|x l IH]; intros [|y m] Ul Um; cbn [map]; try done.
  intros [E1 E2]%cons_field_inj. apply Forall_cons in Ul as [Hx Ul], Um as [Hy Um].
  f_equal; [|by apply IH]. by apply fact_entry_inj.
Qed.

(** Canonically equal documents of well-formed contents say the same. *)
Lemma receipt_document_inj `{FR : FloatRepr} c e :
  content_ok c → content_ok e →
  canon (receipt_document c) = canon (receipt_document e) → same_content c e.
Proof.
  intros Hc He H. unfold receipt_document in H. fields H Hf.
  pose proof (Hf (py "organization_id")) as F1.
  pose proof (Hf (py "decision")) as F2.
  pose proof (Hf (py "context")) as F3.
  pose proof (Hf (py "facts")) as F4.
  change (Some (uuid_json (rcn_organization_id c)) = Some (uuid_json (rcn_organization_id e))) in F1.
  apply str_field_inj, uuid_str_inj in F1; [|apply Hc|apply He].
  match type of F2 with option_map canon (assoc _ [_; _; (_, ?a); _; _]) = option_map canon (assoc _ [_; _; (_, ?b); _; _]) =>
    change (Some (canon a) = Some (canon b)) in F2; apply some_inj in F2 end.
  match type of F3 with option_map canon (assoc _ [_; _; _; (_, ?a); _]) = option_map canon (assoc _ [_; _; _; (_, ?b); _]) =>
    change (Some (canon a) = Some (canon b)) in F3; apply some_inj in F3 end.
  match type of F4 with option_map canon (assoc _ [_; _; _; _; (_, JList ?a)]) = option_map canon (assoc _ [_; _; _; _; (_, JList ?b)]) =>
    change (Some (JList (map canon a)) = Some (JList (map canon b))) in F4; apply list_field_inj in F4 end.
  destruct (decision_fields_inj c e Hc He F2) as (? & ? & ? & ? & ? & ? & ?).
  destruct (context_fields_inj c e Hc He F3) as (? & ? & ? & ? & ? & ? & ?).
  split; try done. by apply facts_inj.
Qed.

Lemma forallb_take {A} (p : A → bool) n l : forallb p l = true → forallb p (take n l) = true.
Proof. rewrite !forallb_forall. intros H x Hx%list_elem_of_In%in_take. by apply H, list_elem_of_In. Qed.

Lemma forallb_drop {A} (p : A → bool) n l : forallb p l = true → forallb p (drop n l) = true.
Proof.
  rewrite !forallb_forall. intros H x Hx. apply H.
  rewrite <-(take_drop n l). apply List.in_or_app. by right.
Qed.

Lemma uuid_str_valid u : forallb valid_char (uuid_str u) = true.
Proof.
  unfold uuid_str. pose proof (hex_of_valid 32 u) as H.
  repeat apply forallb_app_valid; try done; repeat first [apply forallb_take|apply forallb_drop]; done.
Qed.

Lemma dec_valid w n : forallb valid_char (dec w n) = true.
Proof.
  unfold dec. revert n. induction w as [|w IH]; intros n; [done|]. cbn [numeral].
  apply forallb_app_valid; [apply IH|]. cbn [forallb]. rewrite andb_true_r. apply valid_char_range.
  pose proof (Z.mod_pos_bound n 10 ltac:(lia)). unfold dec_digit. lia.
Qed.

Lemma utc_iso_valid t : forallb valid_char (utc_iso t) = true.
Proof.
  unfold utc_iso. destruct (ord_to_ymd _) as [[y m] d].
  repeat first [apply dec_valid | apply forallb_app_valid]; try done.
  destruct (Z.eqb (t mod DAY mod 1000000) 0); [done|]. cbn [forallb]. apply dec_valid.
Qed.

Section binding.
Context `{FR : FloatRepr} `{FL : !FloatReprLaws} `{SH : !Sha256}.

Lemma text_or_null_ok t :
  (∀ x, t = Some x → forallb valid_char x = true) → json_ok (text_or_null t) = true.
Proof. destruct t as [t|]; simpl; [|done]. intros H. by apply H. Qed.

Lemma fact_entry_ok r i n h :
  forallb valid_char h = true → json_ok (fact_entry r (i, (n, h))) = true.
Proof.
  intros Hh. unfold fact_entry, uuid_json. cbn [json_ok forallb fst snd].
  rewrite uuid_str_valid, Hh. reflexivity.
Qed.

Lemma json_list_ok l : (∀ j, j ∈ l → json_ok j = true) → json_ok (JList l) = true.
Proof. intros H. cbn [json_ok]. apply forallb_forall. intros j Hj. by apply H, list_elem_of_In. Qed.

Lemma json_obj_ok kvs :
  forallb (forallb valid_char) (map fst kvs) = true →
  (∀ j, j ∈ map snd kvs → json_ok j = true) → json_ok (JObj kvs) = true.
Proof.
  intros Hk Hv. cbn [json_ok]. induction kvs as [|[k v] kvs IH]; [done|].
  cbn [forallb map fst snd] in *. apply andb_true_iff in Hk as [-> Hk].
  rewrite (Hv v) by left. apply IH; [done|]. intros j Hj. apply Hv. by right.
Qed.

Lemma receipt_document_ok c : content_ok c → json_ok (receipt_document c) = true.
Proof using Type.
  intros Hc. pose proof (ok_texts c Hc) as Ht. cbn [forallb] in Ht. rewrite !andb_true_iff in Ht.
  destruct Ht as (H1 & H2 & H3 & H4 & H5). rewrite forallb_forall in H5.
  assert (Hfield : ∀ (P : json → Prop) x l, P x → (∀ j, j ∈ l → P j) → ∀ j, j ∈ x :: l → P j).
  { intros P x l Hx Hl j [->|?]%elem_of_cons; auto. }
  assert (Hend : ∀ (P : json → Prop) j, j ∈ [] → P j) by (by intros P j ?%not_elem_of_nil).
  unfold receipt_document. apply json_obj_ok; [done|]. cbn [map snd].
  repeat (apply Hfield; [|try apply Hend]).
  - done.
  - apply uuid_str_valid.
  - apply json_obj_ok; [done|]. cbn [map snd]. repeat (apply Hfield; [|try apply Hend]).
    + apply uuid_str_valid.
    + apply utc_iso_valid.
    + apply uuid_str_valid.
    + apply text_or_null_ok, Hc.
    + done.
    + apply Hc.
    + apply text_or_null_ok, Hc.
  - apply json_obj_ok; [done|]. cbn [map snd]. repeat (apply Hfield; [|try apply Hend]).
    + apply uuid_str_valid.
    + done.
    + apply utc_iso_valid.
    + apply utc_iso_valid.
    + done.
    + done.
    + apply json_list_ok. intros j (s & -> & Hs)%list_elem_of_fmap. rewrite elem_of_sort_by in Hs.
      by apply H5, list_elem_of_In.
  - apply json_list_ok. intros j ([i [n h]] & -> & Hi)%list_elem_of_fmap.
    unfold sort_on in Hi. rewrite elem_of_sort_by in Hi. apply fact_entry_ok.
    by apply (ok_facts c Hc) in Hi as [_ ?].
Qed.

(** C18. The receipt hash seals the decision: two contents with the same hash say
    the same about every field (the outcome up to the order of its keys), or they
    exhibit two different byte strings with the same SHA-256. *)
Theorem receipt_hash_binds c e h :
  content_ok c → content_ok e → receipt_hash c = Ok h → receipt_hash e = Ok h →
  same_content c e ∨ ∃ b b', b ≠ b' ∧ sha256_hex b = sha256_hex b'.
Proof.
  intros Hc He Hh Hh'. unfold receipt_hash in *.
  apply result_bind_ok in Hh as (t & Ht & (b & Hb & [= <-])%result_bind_ok).
  apply result_bind_ok in Hh' as (u & Hu & (b' & Hb' & [= E])%result_bind_ok).
  destruct (digest_binds _ _ _ _ _ _ (receipt_document_ok c Hc) (receipt_document_ok e He)
    Ht Hb Hu Hb' (eq_sym E)) as [H|[Hne H]].
  - left. by apply receipt_document_inj.
  - right. by exists b, b'.
Qed.

End binding.
