(* ===== verification/Sealing.v ===== *)
(** Recording decisions over the store (services/decisions.py): a decision cites
    only versions of its frozen context, is sealed by a hash its receipt verifies,
    and its receipt hides what the reader may not see. *)

From S2P Require Import Prelude PyStr Json Regex Validation Access Temporal History Database.
From S2P Require Import Schema Accounts FactRepo EvidenceService Canonical FactService Ledger.
From S2P Require Import TemporalService Ranking Retrieval Calendar Encoding Decisions Receipts.

(** * Inserting several rows *)

Lemma insert_all_ok t l us d d' :
  outbox t = false → mapM_ (exec_insert t) l d = (Ok us, d') →
  frame [t] d d' ∧ tab d' t = tab d t ++ l ∧
  ∀ x, x ∈ l → ∃ d1, frame [t] d d1 ∧ checks (row_checks t x d1) = Ok ().
Proof.
  intros Ht. revert us d. induction l as [|x l IH]; intros us d H.
  - apply st_ret_ok in H as [_ ->]. rewrite app_nil_r. split_and!; [apply frame_refl|done|].
    by intros x ?%not_elem_of_nil.
  - cbn [mapM_] in H. apply st_bind_ok in H as (u & d1 & Hx & H).
    apply st_bind_ok in H as (us' & d2 & Hl & [_ ->]%st_ret_ok).
    apply exec_insert_ok in Hx as (Hc & F1 & T1); [|done].
    destruct (IH _ _ Hl) as (F2 & T2 & Hall). split_and!.
    + by eapply frame_trans.
    + by rewrite T2, T1, <-app_assoc.
    + intros y [->|Hy]%elem_of_cons.
      * exists d. split; [apply frame_refl|]. by apply insert_checks_ok in Hc as [? _].
      * destruct (Hall y Hy) as (d3 & F3 & ?). exists d3. split; [by eapply frame_trans|done].
Qed.

(** Rows inserted one after the other are pairwise compatible. *)
Lemma insert_all_compatible t l us d d' :
  outbox t = false → mapM_ (exec_insert t) l d = (Ok us, d') → StronglySorted (λ x y, compatible t x y = Ok ()) l.
Proof.
  intros Ht. revert us d d'. induction l as [|x l IH]; intros us d d' H; [constructor|].
  cbn [mapM_] in H. apply st_bind_ok in H as (u & d1 & Hx & H).
  apply st_bind_ok in H as (us' & d2 & Hl & _). constructor; [by eapply IH|].
  apply exec_insert_ok in Hx as (_ & _ & T1); [|done]. clear IH.
  assert (Hin : x ∈ tab d1 t) by (rewrite T1, elem_of_app; right; by left).
  clear T1. revert us' d1 d2 Hl Hin. induction l as [|y l IH]; intros us' d1 d2 Hl Hin; constructor;
    cbn [mapM_] in Hl; apply st_bind_ok in Hl as (u' & d3 & Hy & Hl);
    apply exec_insert_ok in Hy as (Hc & _ & T); try done.
  - apply insert_checks_ok in Hc as [_ Hc]. by apply Hc.
  - apply st_bind_ok in Hl as (us2 & d4 & Hl & _). eapply IH; [exact Hl|]. rewrite T, elem_of_app. by left.
Qed.

(** * Citations stay inside the context *)

(** Every cited version belongs to the snapshot of the citing decision, and every
    frozen fact to a snapshot of its tenant. *)
Record decisions_ok (d : db) : Prop := {
  do_consistent : consistent d;
  do_cited : ∀ y, y ∈ tab d DecisionFacts →
    fk_decision (df_organization_id y) (df_decision_id y) (df_snapshot_id y) d = true ∧
    fk_snapshot_fact (df_snapshot_id y) (df_fact_version_id y) d = true;
  do_framed : ∀ y, y ∈ tab d SnapshotFacts →
    fk_snapshot (sf_organization_id y) (sf_snapshot_id y) d = true;
}.

Lemma empty_decisions_ok : decisions_ok empty_db.
Proof.
  split; [by intros t Ht; destruct t|by intros y ?%not_elem_of_nil|by intros y ?%not_elem_of_nil].
Qed.

Lemma exists_row_grows t p d d' : grows t d d' → exists_row t p d = true → exists_row t p d' = true.
Proof. intros [l E]. unfold exists_row. rewrite E, existsb_app. by intros ->. Qed.

Lemma decisions_ok_frame ts d d' :
  frame ts d d' → keeps_consistent d d' → Decisions ∉ ts → DecisionFacts ∉ ts →
  ContextSnapshots ∉ ts → SnapshotFacts ∉ ts → decisions_ok d → decisions_ok d'.
Proof.
  intros F Hk H1 H2 H3 H4 [Hc Hd Hf].
  pose proof (frame_tab_other ts d d' Decisions F eq_refl H1) as E1.
  pose proof (frame_tab_other ts d d' DecisionFacts F eq_refl H2) as E2.
  pose proof (frame_tab_other ts d d' ContextSnapshots F eq_refl H3) as E3.
  pose proof (frame_tab_other ts d d' SnapshotFacts F eq_refl H4) as E4.
  unfold fk_decision, fk_snapshot_fact, fk_snapshot, exists_row in *.
  split; unfold fk_decision, fk_snapshot_fact, fk_snapshot, exists_row; rewrite ?E1, ?E2, ?E3, ?E4; auto.
Qed.

(** Storing a decision with its citations. *)
Lemma add_decision_ok x facts u d d' :
  DecisionRepository.add_decision x facts d = (Ok u, d') →
  frame [Decisions; DecisionFacts] d d' ∧ tab d' Decisions = tab d Decisions ++ [x] ∧
  tab d' DecisionFacts = tab d DecisionFacts ++ facts ∧
  (consistent d → consistent d') ∧
  ∀ y, y ∈ facts → fk_decision (df_organization_id y) (df_decision_id y) (df_snapshot_id y) d' = true ∧
                   fk_snapshot_fact (df_snapshot_id y) (df_fact_version_id y) d' = true.
Proof.
  intros H. unfold DecisionRepository.add_decision in H.
  apply st_bind_ok in H as (u1 & d1 & H1 & H). apply st_bind_ok in H as (us & d2 & H2 & [_ ->]%st_ret_ok).
  assert (K1 : keeps_consistent d d1) by exact (exec_insert_consistent Decisions x eq_refl _ _ _ H1).
  assert (K2 : keeps_consistent d1 d2).
  { revert H2. apply (respects_mapM keeps_consistent). intros y _. by apply exec_insert_consistent. }
  apply exec_insert_ok in H1 as (_ & F1 & T1); [|done].
  apply insert_all_ok in H2 as (F2 & T2 & Hall); [|done].
  assert (F2' : ∀ t, t ≠ DecisionFacts → outbox t = false → tab d2 t = tab d1 t).
  { intros t Hne Ho. apply (frame_tab_other _ _ _ _ F2); [done|set_solver]. }
  split_and!.
  - eapply frame_trans; [eapply frame_weaken; [|exact F1]|eapply frame_weaken; [|exact F2]]; set_solver.
  - by rewrite F2', T1.
  - rewrite T2. f_equal. apply (frame_tab_other _ _ _ _ F1); [done|set_solver].
  - intros Hc. apply K2, K1, Hc.
  - intros y Hy. destruct (Hall y Hy) as (d3 & F3 & Hy3).
    assert (E : ∀ t, t ≠ DecisionFacts → outbox t = false → tab d2 t = tab d3 t).
    { intros t Hne Ho. rewrite F2' by done. symmetry. apply (frame_tab_other _ _ _ _ F3); [done|set_solver]. }
    unfold fk_decision, fk_snapshot_fact, exists_row. rewrite !E by done. split.
    + eapply checks_in; [exact Hy3|]. cbn [row_checks]. right; left.
    + eapply checks_in; [exact Hy3|]. cbn [row_checks]. do 2 right; left.
Qed.

Lemma snapshot_rows_ext `{JB : !Jsonb} org i d d' :
  (∀ t, t ∈ [SnapshotFacts; FactVersions; Facts; Entities; FactSources] → tab d' t = tab d t) →
  (DecisionRepository.snapshot_rows org i d').1 = (DecisionRepository.snapshot_rows org i d).1.
Proof.
  intros H. unfold DecisionRepository.snapshot_rows, gets, DecisionRepository.snapshot_join. cbn [fst].
  rewrite !H by set_solver. done.
Qed.

Section sealing.
Context `{UD : !UnicodeData} `{FR : !FloatRepr} `{SH : !Sha256} `{JB : !Jsonb}.

(** The citation row of [x] for a version. *)
Definition citation (x : decision) (v : UUID) : decision_fact :=
  {| df_organization_id := d_organization_id x; df_decision_id := d_id x;
     df_snapshot_id := d_snapshot_id x; df_fact_version_id := v |}.

Lemma store_decision_ok ctx snapshot_id relied agent action outcome rationale d x d' :
  store_decision ctx snapshot_id relied agent action outcome rationale d = (Ok x, d') →
  ∃ snapshot rows ids c,
    DecisionRepository.get_snapshot (ctx_organization_id ctx) snapshot_id d = (Ok (Some snapshot), d) ∧
    DecisionRepository.snapshot_rows (ctx_organization_id ctx) (cs_id snapshot) d = (Ok rows, d) ∧
    validate_relied_on relied (map (λ r, fv_id (sr_version r)) rows) = Ok ids ∧
    content x snapshot rows ids = Ok c ∧ receipt_hash c = Ok (d_receipt_sha256 x) ∧
    d_organization_id x = ctx_organization_id ctx ∧ d_snapshot_id x = cs_id snapshot ∧
    d_decided_by_user_id x = ctx_user_id ctx ∧ d_decided_at x = db_wall d ∧
    d_agent x = agent ∧ d_action x = action ∧ d_outcome x = outcome ∧ d_rationale x = rationale ∧
    DecisionRepository.add_decision x (map (citation x) ids) (bump d) = (Ok (), d').
Proof.
  intros H. unfold store_decision in H. apply (proj1 (transaction_ok _ _ _ _)) in H.
  apply st_bind_ok in H as (role & s1 & Hp & H). apply require_permission_ok in Hp as [-> _].
  apply st_bind_ok in H as ([snapshot|] & s2 & Hs & H); [|by apply raise_ok in H].
  assert (s2 = d) as ->.
  { unfold DecisionRepository.get_snapshot in Hs. apply st_bind_ok in Hs as (? & ? & [_ ->]%(select_ok ContextSnapshots) & Hs).
    by apply lift_ok in Hs as [_ ->]. }
  apply st_bind_ok in H as (rows & s3 & Hr & H).
  assert (s3 = d) as -> by (unfold DecisionRepository.snapshot_rows in Hr; by apply gets_ok in Hr as [_ ->]).
  apply st_bind_ok in H as (ids & s4 & [Hv ->]%lift_ok & H).
  apply st_bind_ok in H as (i & s5 & [-> ->]%fresh_id_ok & H).
  apply st_bind_ok in H as (now & s6 & [-> ->]%gets_ok & H).
  apply st_bind_ok in H as (c & s7 & [Hc ->]%lift_ok & H).
  apply st_bind_ok in H as (h & s8 & [Hh ->]%lift_ok & H).
  apply st_bind_ok in H as ([] & s9 & Ha & [-> ->]%st_ret_ok).
  exists snapshot, rows, ids, c. split_and!; done.
Qed.

Lemma decision_ids_unique d x y :
  consistent d → x ∈ tab d Decisions → y ∈ tab d Decisions → d_id x = d_id y → x = y.
Proof.
  intros Hc. apply (sorted_distinct_inj d_id).
  apply (consistent_sorted Decisions _ d); [|done|done].
  intros a b H E. unfold compatible in H. cbn [pair_checks decision_pair context_snapshot_pair checks uq] in H. rewrite E, Z.eqb_refl in H. done.
Qed.

Lemma where_unique {A} (p : A → bool) l x :
  NoDup l → x ∈ l → p x = true → (∀ y, y ∈ l → p y = true → y = x) → where_ p l = [x].
Proof.
  intros Hn Hx Hp Hu. apply Permutation_singleton_r. symmetry. apply NoDup_Permutation.
  - apply NoDup_singleton.
  - eapply sublist_NoDup; [exact Hn|apply where_sublist].
  - intros y. rewrite list_elem_of_singleton, elem_of_where_. naive_solver.
Qed.

Lemma sorted_distinct_NoDup {A} (key : A → Z) l : StronglySorted (λ a b, key a ≠ key b) l → NoDup l.
Proof.
  induction 1 as [|a l Hl IH Ha]; [constructor|]. constructor; [|done].
  rewrite Forall_forall in Ha. intros Hin. by apply (Ha a Hin).
Qed.

Lemma decisions_NoDup d : consistent d → NoDup (tab d Decisions).
Proof.
  intros Hc. apply (sorted_distinct_NoDup d_id). apply (consistent_sorted Decisions _ d); [|done|done].
  intros a b H E. unfold compatible in H. cbn [pair_checks decision_pair context_snapshot_pair checks uq] in H. rewrite E, Z.eqb_refl in H. done.
Qed.

Lemma get_snapshot_ok org i d s d' :
  DecisionRepository.get_snapshot org i d = (Ok (Some s), d') →
  where_ (λ s, (cs_organization_id s =? org) && (cs_id s =? i)) (tab d ContextSnapshots) = [s] ∧
  cs_id s = i ∧ cs_organization_id s = org.
Proof.
  unfold DecisionRepository.get_snapshot. intros H.
  apply st_bind_ok in H as (rs & ? & [-> ->]%(select_ok ContextSnapshots) & [H _]%lift_ok).
  cbn [row] in H. apply one_or_none_ok in H. split; [done|].
  assert (Hin : s ∈ where_ (λ s, (cs_organization_id s =? org) && (cs_id s =? i)) (tab d ContextSnapshots))
    by (rewrite H; by left).
  apply elem_of_where_ in Hin as [Hp _]. rewrite andb_true_iff, !Z.eqb_eq in Hp. tauto.
Qed.

(** After a decision is stored, its citations are exactly those stored with it. *)
Lemma stored_citations d d' x ids :
  decisions_ok d → consistent d' → tab d' Decisions = tab d Decisions ++ [x] →
  tab d' DecisionFacts = tab d DecisionFacts ++ map (citation x) ids →
  DecisionRepository.relied_on (d_organization_id x) (d_id x) d' = (Ok ids, d').
Proof.
  intros Hd Hc Tx Tf. unfold DecisionRepository.relied_on. apply st_bind_ok.
  eexists _, _. split; [by apply (select_ok DecisionFacts)|]. apply st_ret_ok. split; [|done].
  cbn [row]. rewrite Tf, where_app, map_app.
  assert (where_ (DecisionRepository.cites (d_organization_id x) (d_id x)) (tab d DecisionFacts) = []) as ->.
  { apply where_nil_iff. intros y Hy. destruct (DecisionRepository.cites _ _ y) eqn:E; [|done]. exfalso.
    unfold DecisionRepository.cites in E. rewrite andb_true_iff, !Z.eqb_eq in E. destruct E as [_ E].
    destruct (do_cited d Hd y Hy) as [Hfk _].
    apply exists_row_spec in Hfk as (z & Hz & Hzp).
    rewrite !andb_true_iff, !Z.eqb_eq in Hzp. destruct Hzp as [[_ Hzi] _].
    assert (Hnd := decisions_NoDup d' Hc). rewrite Tx in Hnd.
    apply NoDup_app in Hnd as (_ & Hdis & _). apply (Hdis z Hz).
    assert (z = x) as ->; [|by left].
    apply (decision_ids_unique d'); [done|rewrite Tx; set_solver|rewrite Tx; set_solver|congruence]. }
  rewrite where_true.
  - rewrite map_map. cbn. by rewrite map_id.
  - intros y (v & -> & _)%list_elem_of_fmap. unfold DecisionRepository.cites. cbn.
    by rewrite !Z.eqb_refl.
Qed.

(** The receipt of a stored decision, in the session that stored it. *)
Lemma receipt_ok load ctx i d r d' :
  receipt load ctx i d = (Ok r, d') →
  d' = d ∧ ∃ role x0 snapshot rows relied c h,
    current_role d (ctx_organization_id ctx) (ctx_user_id ctx) role ∧
    scopes_allow (ctx_scopes ctx) READ_DECISIONS = true ∧
    DecisionRepository.get_decision (ctx_organization_id ctx) i d = (Ok (Some x0), d) ∧
    dr_decision r = load x0 ∧ dr_context r = snapshot ∧
    DecisionRepository.get_snapshot (ctx_organization_id ctx) (d_snapshot_id (load x0)) d
      = (Ok (Some snapshot), d) ∧
    DecisionRepository.snapshot_rows (ctx_organization_id ctx) (cs_id snapshot) d = (Ok rows, d) ∧
    DecisionRepository.relied_on (ctx_organization_id ctx) (d_id (load x0)) d = (Ok relied, d) ∧
    content (load x0) snapshot rows relied = Ok c ∧ receipt_hash c = Ok h ∧
    dr_integrity_verified r = bool_decide (h = d_receipt_sha256 (load x0)) ∧
    ∃ revoked, mapM_ (receipt_fact (ctx_organization_id ctx)
        (visible_privacy_scopes role [ctx_max_privacy_scope ctx]) (cs_known_at snapshot) relied revoked)
      rows d = (Ok (dr_facts r), d).
Proof.
  intros H. unfold receipt in H. apply (proj1 (transaction_ok _ _ _ _)) in H.
  apply st_bind_ok in H as (role & s1 & Hp & H). apply require_permission_ok in Hp as (-> & Hr & _ & Hs).
  apply st_bind_ok in H as ([x0|] & s2 & Hd & H); [|by apply raise_ok in H].
  assert (s2 = d) as ->.
  { unfold DecisionRepository.get_decision in Hd. apply st_bind_ok in Hd as (? & ? & [_ ->]%(select_ok Decisions) & Hd').
    by apply lift_ok in Hd' as [_ ->]. }
  apply st_bind_ok in H as ([snapshot|] & s3 & Hsn & H); [|by apply raise_ok in H].
  assert (s3 = d) as ->.
  { unfold DecisionRepository.get_snapshot in Hsn. apply st_bind_ok in Hsn as (? & ? & [_ ->]%(select_ok ContextSnapshots) & Hs').
    by apply lift_ok in Hs' as [_ ->]. }
  apply st_bind_ok in H as (rows & s4 & Hrows & H).
  assert (s4 = d) as -> by (unfold DecisionRepository.snapshot_rows in Hrows; by apply gets_ok in Hrows as [_ ->]).
  apply st_bind_ok in H as (relied & s5 & Hrel & H).
  assert (s5 = d) as ->.
  { unfold DecisionRepository.relied_on in Hrel. apply st_bind_ok in Hrel as (? & ? & [_ ->]%(select_ok DecisionFacts) & Hr').
    by apply st_ret_ok in Hr' as [_ ->]. }
  apply st_bind_ok in H as (revoked & s6 & Hrev & H).
  assert (s6 = d) as ->.
  { unfold revocations in Hrev. destruct (map _ rows); [by apply st_ret_ok in Hrev as [_ ->]|].
    apply st_bind_ok in Hrev as (? & ? & [_ ->]%(select_ok FactRevocations) & Hr').
    by apply st_ret_ok in Hr' as [_ ->]. }
  apply st_bind_ok in H as (facts & s7 & Hfacts & H).
  assert (s7 = d) as ->.
  { symmetry. revert Hfacts. apply (respects_mapM eq). intros row _. unfold receipt_fact, evidence_for_version.
    respects ltac:(apply select_respects; apply _). }
  apply st_bind_ok in H as (c & s8 & [Hc ->]%lift_ok & H).
  apply st_bind_ok in H as (h & s9 & [Hh ->]%lift_ok & [-> ->]%st_ret_ok).
  split; [done|]. exists role, x0, snapshot, rows, relied, c, h. split_and!; try done. by exists revoked.
Qed.


(** A read-only computation over each element. *)
Lemma mapM_read {S A B} (f : A → ST S B) l ys (s s' : S) :
  (∀ x, respects eq (f x)) → mapM_ f l s = (Ok ys, s') →
  Forall2 (λ x y, f x s = (Ok y, s)) l ys.
Proof.
  intros Hf. revert ys. induction l as [|x l IH]; intros ys H.
  - apply st_ret_ok in H as [-> _]. constructor.
  - cbn [mapM_] in H. apply st_bind_ok in H as (y & s1 & Hx & H).
    pose proof (Hf x _ _ _ Hx) as <-.
    apply st_bind_ok in H as (zs & s2 & Hl & [-> ->]%st_ret_ok). constructor; [done|]. by apply (IH zs).
Qed.

Lemma receipt_fact_read org vis k relied rev row : respects eq (receipt_fact org vis k relied rev row).
Proof. unfold receipt_fact, evidence_for_version. respects ltac:(apply select_respects; apply _). Qed.

(** What a reader of [visible] scopes is shown of one fact of the context. *)
Definition shown_within (visible : list PrivacyScope) (known_at : Instant) (f : ReceiptFact) : Prop :=
  (rf_privacy_scope f ∉ visible →
     rf_redacted f = true ∧ rf_receipt_version f = None ∧ rf_receipt_entity_type f = None ∧
     rf_receipt_external_id f = None ∧ rf_receipt_property f = None ∧ rf_source_name f = None ∧
     rf_ranking f = JObj [] ∧ rf_evidence f = []) ∧
  (∀ v, rf_receipt_version f = Some v → vs_privacy_scope v = rf_privacy_scope f ∧ rf_redacted f = false) ∧
  (∀ e, e ∈ rf_evidence f → re_linked_at e ≤ known_at).

(** C20. Redaction: a receipt shows the content of a fact (value, names, ranking,
    evidence) only when the fact's scope is visible to the reader's current role
    and ceiling, shows only evidence linked by the decision's [known_at], and
    reading it changes nothing. *)
Theorem receipt_hides_invisible_facts load ctx i d r d' :
  receipt load ctx i d = (Ok r, d') →
  d' = d ∧ ∃ role, current_role d (ctx_organization_id ctx) (ctx_user_id ctx) role ∧
    has_permission role READ_DECISIONS = true ∧
    ∀ f, f ∈ dr_facts r →
      shown_within (visible_privacy_scopes role [ctx_max_privacy_scope ctx]) (cs_known_at (dr_context r)) f.
Proof.
  intros H. assert (Hperm : ∃ role, current_role d (ctx_organization_id ctx) (ctx_user_id ctx) role ∧
    has_permission role READ_DECISIONS = true).
  { unfold receipt in H. apply (proj1 (transaction_ok _ _ _ _)) in H.
    apply st_bind_ok in H as (role & s1 & Hp & _).
    apply require_permission_ok in Hp as (_ & Hr & Hp & _). by exists role. }
  apply receipt_ok in H as (-> & role & x0 & sn & rows & relied & c & h & Hr & _ & _ & _ & -> & _ & _ & _
    & _ & _ & _ & revoked & Hf).
  split; [done|]. exists role. split_and!; [done| |].
  { destruct Hperm as (role' & (_ & m' & Hm' & <-) & Hp). destruct Hr as (_ & m & Hm & <-).
    rewrite Hm in Hm'. by injection Hm' as ->. }
  apply mapM_read in Hf; [|intros; apply receipt_fact_read].
  intros f Hin. apply list_elem_of_lookup in Hin as [n Hn].
  destruct (Forall2_lookup_r _ _ _ _ _ Hf Hn) as (row & _ & Hrow). unfold receipt_fact in Hrow.
  case_bool_decide as Hvis; cbn [negb] in Hrow.
  - apply st_bind_ok in Hrow as (links & s1 & Hl & [-> ->]%st_ret_ok). unfold shown_within. cbn.
    split_and!; [done| |].
    + intros v [= <-]. split; [|done]. unfold as_known, to_snapshot. cbn.
      destruct (fv_valid_until_recorded_at _); [|done]. by case_match.
    + intros e He. unfold receipt_evidence in He.
      apply list_elem_of_fmap in He as ([[l ev] s] & -> & [Hp _]%elem_of_where_). cbn in *.
      apply andb_true_iff in Hp as [Hp _]. by apply Z.leb_le.
  - apply st_ret_ok in Hrow as [-> _]. unfold shown_within. cbn. split_and!; [done|done|].
    by intros e ?%not_elem_of_nil.
Qed.

(** [record_decision] commits before it builds the receipt: a caller whose
    token lacks [decisions:read] gets a permission error although the decision has
    been recorded. *)
Theorem record_decision_stores_then_fails ctx command action rationale agent d x d1 :
  normalize_action (rd_action command) = Ok action →
  validate_outcome (rd_outcome command) = Ok (rd_outcome command) →
  normalize_rationale (rd_rationale command) = Ok rationale →
  normalize_agent (rd_agent command) = Ok agent →
  store_decision ctx (rd_snapshot_id command) (rd_relied_on command) agent action
    (rd_outcome command) rationale d = (Ok x, d1) →
  scopes_allow (ctx_scopes ctx) READ_DECISIONS = false →
  (∃ msg, record_decision ctx command d = (Err (PermissionDeniedError msg), d1)) ∧ x ∈ tab d1 Decisions.
Proof.
  intros Ha Ho Hra Hag Hst Hs. split.
  - unfold record_decision. unfold mbind, st_bind, lift. rewrite Ha, Ho, Hra, Hag, Hst.
    assert (Hp : ∃ msg, require_permission ctx READ_DECISIONS d1 = (Err (PermissionDeniedError msg), d1)).
    { assert (Hrole : ∃ role, current_role d1 (ctx_organization_id ctx) (ctx_user_id ctx) role).
      { unfold store_decision in Hst. pose proof Hst as Hst'.
        apply (proj1 (transaction_ok _ _ _ _)) in Hst'.
        apply st_bind_ok in Hst' as (role & s1 & Hp & _).
        apply require_permission_ok in Hp as (_ & Hr & _). exists role.
        apply store_decision_ok in Hst as (sn & rows & ids & c & _ & _ & _ & _ & _ & _ & _ & _ & _ & _ & _ & _ & _ & Hadd).
        apply add_decision_ok in Hadd as (F & _). unfold current_role in *.
        rewrite (frame_tab_other _ _ _ Users F), (frame_tab_other _ _ _ Memberships F) by (done || set_solver).
        exact Hr. }
      destruct Hrole as [role Hrole]. by eapply require_permission_out_of_scope. }
    destruct Hp as [msg Hp]. exists msg. unfold receipt, transaction, mbind, st_bind. by rewrite Hp.
  - apply store_decision_ok in Hst as (sn & rows & ids & c & _ & _ & _ & _ & _ & _ & _ & _ & _ & _ & _ & _ & _ & Hadd).
    apply add_decision_ok in Hadd as (_ & T & _). rewrite T. set_solver.
Qed.

End sealing.
