(* ===== verification/Capture.v ===== *)
(** Capturing a context: the search a decision will rest on, frozen. *)

From S2P Require Import Prelude PyStr Json Regex Validation Access Temporal History Database.
From S2P Require Import Schema Accounts FactRepo EvidenceService Canonical FactService Ledger.
From S2P Require Import TemporalService Ranking Retrieval Calendar Encoding Decisions Receipts.
From S2P Require Import Sealing.

Section capture.
Context `{UD : !UnicodeData} `{FR : !FloatRepr} `{SH : !Sha256} `{JB : !Jsonb}.
Context `{SO : !ScoreOps} `{SE : !SearchEngine} `{RT : !RequestText}.

(** Writing a snapshot keeps citations inside contexts. *)
Lemma add_snapshot_ok s facts u d d' :
  (∀ y, y ∈ facts → sf_organization_id y = cs_organization_id s ∧ sf_snapshot_id y = cs_id s) →
  DecisionRepository.add_snapshot s facts d = (Ok u, d') →
  frame [ContextSnapshots; SnapshotFacts] d d' ∧ keeps_consistent d d' ∧
  tab d' ContextSnapshots = tab d ContextSnapshots ++ [s] ∧
  tab d' SnapshotFacts = tab d SnapshotFacts ++ facts ∧
  (decisions_ok d → decisions_ok d').
Proof.
  intros Hfacts H. unfold DecisionRepository.add_snapshot in H.
  apply st_bind_ok in H as (u1 & d1 & H1 & H).
  pose proof (exec_insert_consistent ContextSnapshots s eq_refl _ _ _ H1) as K1.
  apply exec_insert_ok in H1 as (_ & F1 & T1); [|done].
  apply st_bind_ok in H as (us & d2 & H2 & [_ ->]%st_ret_ok).
  assert (K2 : keeps_consistent d1 d2).
  { revert H2. apply (respects_mapM keeps_consistent). intros y _. by apply exec_insert_consistent. }
  apply insert_all_ok in H2 as (F2 & T2 & _); [|done].
  assert (F : frame [ContextSnapshots; SnapshotFacts] d d2).
  { eapply frame_trans; (eapply frame_weaken; [|eassumption]); intros t ->%list_elem_of_singleton;
      [by left|by right; left]. }
  assert (T1' : tab d2 ContextSnapshots = tab d ContextSnapshots ++ [s]).
  { by rewrite (frame_reads _ [ContextSnapshots] _ _ _ F2) by (done || by left). }
  assert (T2' : tab d2 SnapshotFacts = tab d SnapshotFacts ++ facts).
  { rewrite T2. f_equal. by apply (frame_reads _ [SnapshotFacts] _ _ _ F1); [left|]. }
  assert (K : keeps_consistent d d2) by (intros Hc; by apply K2, K1).
  split_and!; try done. intros [Hc Hcited Hframed].
  assert (Hread : ∀ t, t ∈ [Decisions; DecisionFacts] → tab d2 t = tab d t).
  { intros t Ht. by apply (frame_reads _ _ _ _ _ F Ht). }
  split; [by apply K| |].
  - intros y Hy. rewrite (Hread DecisionFacts) in Hy by set_solver. destruct (Hcited y Hy) as [H1 H2].
    split.
    + unfold fk_decision, exists_row. by rewrite (Hread Decisions) by set_solver.
    + eapply exists_row_grows; [|exact H2]. by exists facts.
  - intros y Hy. rewrite T2' in Hy. apply elem_of_app in Hy as [Hy|Hy].
    + eapply exists_row_grows; [|by apply Hframed]. by exists [s].
    + destruct (Hfacts y Hy) as [-> ->]. unfold fk_snapshot, exists_row.
      rewrite T1', existsb_app. apply orb_true_iff. right. cbn. by rewrite !Z.eqb_refl.
Qed.

Lemma search_uncached_ok clock others index ctx request d r d' :
  search_uncached clock others index ctx request d = (Ok r, d') →
  search (C := unit) None clock others index ctx request (d, ()) = (Ok r, (d', ())).
Proof.
  unfold search_uncached. destruct (search _ _ _ _ _ _ _) as [x [d1 []]]. by intros [= -> ->].
Qed.

(** Capturing a context pins the instants (what is not given is the database's
    clock), runs the search at them, and freezes exactly its result: one snapshot
    and one row per fact found, at positions 1 to n in rank order.  Contexts and
    citations stay well formed and no other table changes. *)
Theorem capture_context_freezes {SEL : SearchEngineLaws} clock others index ctx request d cap d' :
  capture_context clock others index ctx request d = (Ok cap, d') → decisions_ok (others d) →
  ∃ snapshot filters role,
    let found := rr_results (cc_retrieval cap) in
    (rq_known_at request = Some (Aware (cc_known_at cap)) ∨
     rq_known_at request = None ∧ cc_known_at cap = db_wall d) ∧
    (rq_valid_at request = Some (Aware (cc_valid_at cap)) ∨
     rq_valid_at request = None ∧ cc_valid_at cap = cc_known_at cap) ∧
    has_permission role READ_FACTS = true ∧ has_permission role RECORD_DECISIONS = true ∧
    current_role d' (ctx_organization_id ctx) (ctx_user_id ctx) role ∧
    search_outcome (scope_for ctx request filters (cc_valid_at cap) (Some (cc_known_at cap)) role)
      (rq_limit request) (others d) (cc_retrieval cap) ∧
    tab d' ContextSnapshots = tab (others d) ContextSnapshots ++ [snapshot] ∧
    cs_id snapshot = cc_snapshot_id cap ∧ cs_organization_id snapshot = ctx_organization_id ctx ∧
    cs_captured_by_user_id snapshot = ctx_user_id ctx ∧
    cs_valid_at snapshot = cc_valid_at cap ∧ cs_known_at snapshot = cc_known_at cap ∧
    tab d' SnapshotFacts = tab (others d) SnapshotFacts
      ++ map (snapshot_fact_of ctx (cs_id snapshot)) (enumerate_from 1 found) ∧
    frame [ContextSnapshots; SnapshotFacts] (others d) d' ∧ decisions_ok d'.
Proof.
  intros H Hok. unfold capture_context in H.
  apply st_bind_ok in H as (now & s1 & Hnow & H). apply (proj1 (transaction_ok _ _ _ _)) in Hnow.
  apply st_bind_ok in Hnow as (role0 & s2 & Hp & [-> ->]%gets_ok).
  apply require_permission_ok in Hp as (-> & _).
  apply st_bind_ok in H as (k & s3 & [Hk ->]%lift_ok & H).
  apply st_bind_ok in H as (t & s4 & [Ht ->]%lift_ok & H).
  apply st_bind_ok in H as (r & s5 & Hr & H). apply search_uncached_ok, search_cases in Hr
    as (q & filters & t' & k' & role1 & _ & Hf & [Ht' Hk'] & Hlim & _ & _ & _ & Hr).
  destruct Hr as [(key & r0 & Hl & _)|(key & qv & r0 & s6 & Hl & Hs & -> & Hput)];
    [by apply st_ret_ok in Hl as [? _]|].
  apply st_ret_ok in Hl as [[= ->] ->]. cbn [fst snd pinned rq_valid_at rq_known_at] in *.
  destruct Ht' as [[= <-]|[? _]]; [|done]. destruct k' as [k'|]; [|done]. injection Hk' as <-.
  apply search_store_ok in Hs as (-> & role & Hrole & Hread & _ & Hout); [|apply Hok|cbn in Hlim |- *; lia].
  apply st_bind_ok in H as (snapshot & s7 & Hsn & [-> ->]%st_ret_ok).
  apply (proj1 (transaction_ok _ _ _ _)) in Hsn.
  apply st_bind_ok in Hsn as (role2 & s8 & Hp2 & Hsn). apply require_permission_ok in Hp2 as (-> & Hrole2 & Hrec & _).
  assert (role2 = role) as ->.
  { destruct Hrole as (_ & m & Hm & <-), Hrole2 as (_ & m' & Hm' & <-). rewrite Hm in Hm'. by injection Hm' as ->. }
  apply st_bind_ok in Hsn as (i & s9 & [-> ->]%fresh_id_ok & Hsn).
  apply st_bind_ok in Hsn as (now' & s10 & [-> ->]%gets_ok & Hsn).
  apply st_bind_ok in Hsn as (u & s11 & Hadd & [-> ->]%st_ret_ok).
  apply add_snapshot_ok in Hadd as (F & _ & T1 & T2 & Hd); last first.
  { intros y (x & -> & _)%list_elem_of_fmap. done. }
  assert (F' : frame [ContextSnapshots; SnapshotFacts] (others d) s11).
  { eapply frame_trans; [apply frame_bump|exact F]. }
  change (tab (bump (others d))) with (tab (others d)) in *.
  eexists _, filters, role. cbn [cc_retrieval cc_known_at cc_valid_at cc_snapshot_id]. cbv zeta.
  assert (Hkk : rq_known_at request = Some (Aware k) ∨ rq_known_at request = None ∧ k = db_wall d).
  { destruct (rq_known_at request) as [[us|us]|]; cbn in Hk; [|done|]; injection Hk as <-; auto. }
  assert (Htt : rq_valid_at request = Some (Aware t) ∨ rq_valid_at request = None ∧ t = k).
  { destruct (rq_valid_at request) as [[us|us]|]; cbn in Ht; [|done|]; injection Ht as <-; auto. }
  split; [exact Hkk|]. split; [exact Htt|].
  split_and!; [done..| | |exact T1|done|done|done|done|done|exact T2|exact F'| ].
  - destruct Hrole as [Hu Hm]. unfold current_role.
    by rewrite (frame_reads _ [Users] _ _ Users F'), (frame_reads _ [Memberships] _ _ Memberships F')
      by (done || by left).
  - by apply search_outcome_with_cache.
  - apply Hd. destruct Hok as [Hc Hci Hfr]. by split.
Qed.
End capture.
