(* ===== verification/Investigator.v ===== *)
(** The Historical Decision Investigator: app/ai/agent/tools.py (read-only tools for
    one tenant), app/ai/agent/investigator.py (the bounded loop and the check of the
    citations) and app/services/investigations.py (authorization and the stored trace).
    The model is the provider of Generation.v; what other transactions do between the
    calls of a run is an argument. *)

From S2P Require Import Grounding.
From S2P Require Import Prelude PyStr Json Canonical Regex Validation Access Temporal History.
From S2P Require Import Database Schema Calendar Accounts FactRepo EvidenceService FactService.
From S2P Require Import TemporalService Ranking Generation Retrieval Decisions.

(** * Tools *)

Definition NOT_ACCESSIBLE : pystr := py "not found or not accessible".
Definition MAX_VALUE_CHARS : Z := 300.

(** The service calls the tools may make. *)
Class InvestigatorBackend `{ScoreOps} (St : Type) := {
  be_receipt : TenantContext → UUID → ST St DecisionReceipt;
  be_lineage : TenantContext → UUID → ST St Lineage;
  be_decisions_relying_on : TenantContext → UUID → ST St (list UUID);
  be_search : TenantContext → RetrievalQuery → ST St RetrievalResult;
}.

Record ToolLedger := { tl_observed : list pystr; tl_records : list ToolRecord }.
Definition empty_ledger : ToolLedger := {| tl_observed := []; tl_records := [] |}.

(** ** Arguments *)

(** What pydantic reads from a value for a field of the type, how [str] writes a
    datetime, and whether langchain passes a default to the tool as well. *)
Class Pydantic := {
  pyd_uuid : json → option UUID;
  pyd_str : json → option pystr;
  pyd_datetime : json → option datetime;
  pyd_int : json → option Z;
  datetime_str : datetime → pystr;
  passes_defaults : bool;
  json_schema : pystr → json;    (* the parameters of a tool, for the model *)
}.

Inductive ToolArgs :=
  | DecisionArgs (decision_id : UUID)
  | FactVersionArgs (fact_version_id : UUID)
  | SearchArgs (query : pystr) (valid_at : option datetime) (limit : Z).

Inductive args_schema := DecisionSchema | FactVersionSchema | SearchSchema.

Definition fields_of (schema : args_schema) : list pystr :=
  match schema with
  | DecisionSchema => [py "decision_id"]
  | FactVersionSchema => [py "fact_version_id"]
  | SearchSchema => [py "query"; py "valid_at"; py "limit"]
  end.

Section arguments.
Context `{PD : !Pydantic}.

Definition in_bounds {A} (p : A → bool) (x : option A) : option A :=
  match x with Some a => if p a then Some a else None | None => None end.

(** A required field, and one with a default. *)
Definition required {A} (read : json → option A) (name : pystr) (args : list (pystr * json)) : option A :=
  match assoc name args with Some j => read j | None => None end.
Definition optional_or {A} (read : json → option A) (otherwise : A) (name : pystr)
    (args : list (pystr * json)) : option A :=
  match assoc name args with Some j => read j | None => Some otherwise end.

Definition read_query (j : json) : option pystr :=
  in_bounds (λ s, (1 <=? zlen s) && (zlen s <=? 300)) (pyd_str j).
Definition read_valid_at (j : json) : option (option datetime) :=
  match j with JNull => Some None | _ => option_map Some (pyd_datetime j) end.
Definition read_limit (j : json) : option Z := in_bounds (λ n, (1 <=? n) && (n <=? 10)) (pyd_int j).

Definition failed {A} (name : pystr) (x : option A) : list pystr :=
  match x with Some _ => [] | None => [name] end.

(** [extra="forbid"] *)
Definition extra (schema : args_schema) (args : list (pystr * json)) : list pystr :=
  where_ (λ k, negb (bool_decide (k ∈ fields_of schema))) (map fst args).

Definition distinct (l : list pystr) : list pystr :=
  fold_right (λ x acc, if bool_decide (x ∈ acc) then acc else x :: acc) [] l.

(** The arguments of a tool, or the sorted names of the fields that are wrong. *)
Definition validate_args (schema : args_schema) (args : list (pystr * json)) : ToolArgs + list pystr :=
  let errors l := inr (sort_by pystr_leb (distinct (l ++ extra schema args))) in
  match schema with
  | DecisionSchema =>
    match required pyd_uuid (py "decision_id") args, extra schema args with
    | Some u, [] => inl (DecisionArgs u)
    | u, _ => errors (failed (py "decision_id") u)
    end
  | FactVersionSchema =>
    match required pyd_uuid (py "fact_version_id") args, extra schema args with
    | Some u, [] => inl (FactVersionArgs u)
    | u, _ => errors (failed (py "fact_version_id") u)
    end
  | SearchSchema =>
    match required read_query (py "query") args, optional_or read_valid_at None (py "valid_at") args,
          optional_or read_limit 5 (py "limit") args, extra schema args with
    | Some q, Some v, Some n, [] => inl (SearchArgs q v n)
    | q, v, n, _ => errors (failed (py "query") q ++ failed (py "valid_at") v ++ failed (py "limit") n)
    end
  end.

(** [{k: str(v) for k, v in arguments.items()}] *)
Definition optional_text (t : option datetime) : pystr :=
  match t with Some t => datetime_str t | None => py "None" end.

Definition arguments_text (args : ToolArgs) (given : list pystr) : list (pystr * pystr) :=
  where_ (λ kv, passes_defaults || bool_decide (kv.1 ∈ given)) (
    match args with
    | DecisionArgs i => [(py "decision_id", uuid_str i)]
    | FactVersionArgs i => [(py "fact_version_id", uuid_str i)]
    | SearchArgs q v n => [(py "query", q); (py "valid_at", optional_text v); (py "limit", str_of_int n)]
    end).

End arguments.

(** ** What the tools return *)

Section payloads.
Context `{FR : !FloatRepr}.

Definition short_value (value : json) : result json :=
  text ← dumps default_options value;
  Ok (if zlen text <=? MAX_VALUE_CHARS then value
      else JStr (take (Z.to_nat MAX_VALUE_CHARS) text ++ py "...")).

Definition time_json (t : Instant) : json := JStr (utc_iso t).
Definition opt_time_json (t : option Instant) : json :=
  match t with Some t => time_json t | None => JNull end.
Definition opt_str_json (s : option pystr) : json :=
  match s with Some s => JStr s | None => JNull end.
Definition id_json (i : UUID) : json := JStr (uuid_str i).

Definition version_fields (v : VersionSnapshot) : result (list (pystr * json)) :=
  value ← short_value (vs_value v);
  Ok [(py "fact_version_id", id_json (vs_id v)); (py "version", JInt (vs_version v));
      (py "value", value); (py "valid_from", time_json (vs_valid_from v));
      (py "valid_until", opt_time_json (vs_valid_until v));
      (py "recorded_at", time_json (vs_recorded_at v))].

(** [f"{x}"] of an optional string. *)
Definition shown (s : option pystr) : pystr := default (py "None") s.

Definition receipt_fact_json (f : ReceiptFact) : result json :=
  match rf_redacted f, rf_receipt_version f with
  | true, _ | _, None =>
    Ok (JObj [(py "fact_version_id", id_json (rf_fact_version_id f)); (py "redacted", JBool true)])
  | false, Some v =>
    fields ← version_fields v;
    Ok (JObj (fields ++ [
      (py "relied_on", JBool (rf_relied_on f)); (py "revoked_at", opt_time_json (rf_revoked_at f));
      (py "entity", JStr (shown (rf_receipt_entity_type f) ++ [58] ++ shown (rf_receipt_external_id f)));
      (py "property", opt_str_json (rf_receipt_property f));
      (py "source", opt_str_json (rf_source_name f))]))
  end.

Definition receipt_json (r : DecisionReceipt) (facts : list json) : result json :=
  let d := dr_decision r in
  outcome ← short_value (d_outcome d);
  Ok (JObj [(py "decision_id", id_json (d_id d)); (py "action", JStr (d_action d)); (py "outcome", outcome);
    (py "rationale", opt_str_json (d_rationale d)); (py "agent", opt_str_json (d_agent d));
    (py "decided_at", time_json (d_decided_at d));
    (py "context_known_at", time_json (cs_known_at (dr_context r)));
    (py "context_valid_at", time_json (cs_valid_at (dr_context r)));
    (py "integrity_verified", JBool (dr_integrity_verified r)); (py "facts", JList facts)]).

Definition version_json (v : VersionSnapshot) : result json := fields ← version_fields v; Ok (JObj fields).

Definition lineage_json (l : Lineage) : result json :=
  version ← version_json (ln_version l);
  later ← mapR version_json (ln_descendants l);
  earlier ← mapR version_json (ln_ancestors l);
  Ok (JObj [(py "version", version);
    (py "superseded", JBool match superseded_by l with Some _ => true | None => false end);
    (py "later_versions", JList later); (py "earlier_versions", JList earlier)]).

Definition row_json `{ScoreOps} (r : RetrievedFact) : result json :=
  fields ← version_fields (rt_version r);
  Ok (JObj (fields ++ [
    (py "entity", JStr (rt_entity_type r ++ [58] ++ rt_external_id r));
    (py "property", JStr (rt_property r)); (py "source", JStr (rt_source_name r))])).

End payloads.

Section tools.
Context `{UD : !UnicodeData} `{FR : !FloatRepr} `{ET : !ExceptionText} `{SO : !ScoreOps} `{SE : !SearchEngine}.
Context `{PD : !Pydantic} {St : Type} `{BE : !InvestigatorBackend St}.

(** A tool works on the services' state and on the ledger of the run. *)
Definition backend {A} (m : ST St A) : ST (St * ToolLedger) A :=
  λ s, let '(r, b) := m s.1 in (r, (b, s.2)).

Definition observe (ids : list pystr) : ST (St * ToolLedger) unit :=
  modify (λ s, (s.1, {| tl_observed := tl_observed s.2 ++ ids; tl_records := tl_records s.2 |})).

Definition add_record (r : ToolRecord) : ST (St * ToolLedger) unit :=
  modify (λ s, (s.1, {| tl_observed := tl_observed s.2; tl_records := tl_records s.2 ++ [r] |})).

Definition get_decision_receipt (ctx : TenantContext) (decision_id : UUID) : ST (St * ToolLedger) json :=
  receipt ← backend (be_receipt ctx decision_id);
  _ ← observe [uuid_str (d_id (dr_decision receipt))];
  facts ← mapM_ (λ f, _ ← observe [uuid_str (rf_fact_version_id f)]; lift (receipt_fact_json f)) (dr_facts receipt);
  lift (receipt_json receipt facts).

Definition chain_of (l : Lineage) : list VersionSnapshot := ln_version l :: ln_ancestors l ++ ln_descendants l.

Definition get_fact_lineage (ctx : TenantContext) (fact_version_id : UUID) : ST (St * ToolLedger) json :=
  lineage ← backend (be_lineage ctx fact_version_id);
  _ ← observe (map (λ v, uuid_str (vs_id v)) (chain_of lineage));
  lift (lineage_json lineage).

Definition find_decisions_relying_on (ctx : TenantContext) (fact_version_id : UUID) : ST (St * ToolLedger) json :=
  decisions ← backend (be_decisions_relying_on ctx fact_version_id);
  let ids := map uuid_str decisions in
  _ ← observe ids;
  mret (JObj [(py "fact_version_id", id_json fact_version_id); (py "decision_ids", JList (map JStr ids))]).

Definition tool_query (query : pystr) (valid_at : option datetime) (limit : Z) : RetrievalQuery := {|
  rq_query := query; rq_limit := limit; rq_valid_at := valid_at; rq_known_at := None;
  rq_entity_type := None; rq_external_ids := []; rq_properties := []; rq_source_ids := [];
  rq_min_authority := None; rq_min_confidence := None; rq_max_privacy_scope := None;
  rq_trust_weight := DEFAULT_TRUST_WEIGHT |}.

Definition search_facts (ctx : TenantContext) (query : pystr) (valid_at : option datetime) (limit : Z) :
    ST (St * ToolLedger) json :=
  result ← backend (be_search ctx (tool_query query valid_at limit));
  rows ← mapM_ (λ r, _ ← observe [uuid_str (vs_id (rt_version r))]; lift (row_json r)) (rr_results result);
  mret (JObj [(py "valid_at", time_json (rr_valid_at result)); (py "facts", JList rows)]).

(** [build_tools]: names, descriptions and schemas, in order. *)
Definition TOOLS : list (pystr * pystr * args_schema) := [
  (py "get_decision_receipt",
   py "The facts a decision saw when it was made, which it relied on, and its outcome.", DecisionSchema);
  (py "get_fact_lineage",
   py "Earlier and later versions of a fact version; shows whether it was superseded.", FactVersionSchema);
  (py "find_decisions_relying_on", py "Ids of decisions that relied on a fact version.", FactVersionSchema);
  (py "search_facts", py "Search facts valid at a time (default now).", SearchSchema)].

Definition tool_spec (t : pystr * pystr * args_schema) : ToolSpec :=
  {| ts_name := t.1.1; ts_description := t.1.2; ts_parameters := json_schema t.1.1 |}.

Definition run_of (ctx : TenantContext) (name : pystr) (args : ToolArgs) : ST (St * ToolLedger) json :=
  match args with
  | DecisionArgs i => get_decision_receipt ctx i
  | FactVersionArgs i =>
    if bool_decide (name = py "get_fact_lineage") then get_fact_lineage ctx i
    else find_decisions_relying_on ctx i
  | SearchArgs q v n => search_facts ctx q v n
  end.

Definition error_json (error : pystr) : result pystr := dumps default_options (JObj [(py "error", JStr error)]).

(** [guarded]: what a service refuses becomes a message; other exceptions pass. *)
Definition guarded (ctx : TenantContext) (name : pystr) (args : ToolArgs) (given : list pystr) :
    ST (St * ToolLedger) pystr := λ s,
  let note error := add_record
    {| tr_tool := name; tr_arguments := arguments_text args given;
       tr_ok := match error with None => true | Some _ => false end; tr_error := error |} in
  match run_of ctx name args s with
  | (Ok payload, s') => (_ ← note None; lift (dumps default_options payload)) s'
  | (Err (NotFoundError _ | PermissionDeniedError _), s') =>
      (_ ← note (Some NOT_ACCESSIBLE); lift (error_json NOT_ACCESSIBLE)) s'
  | (Err e, s') => if is_domain_error e then (_ ← note (Some (exn_str e)); lift (error_json (exn_str e))) s'
                   else (Err e, s')
  end.

(** [_run_tool] *)
Definition run_tool (ctx : TenantContext) (name : pystr) (args : list (pystr * json)) : ST (St * ToolLedger) pystr :=
  match List.find (λ t, bool_decide (t.1.1 = name)) TOOLS with
  | None => lift (error_json (py "unknown tool " ++ repr_str name))
  | Some (_, schema) =>
    match validate_args schema args with
    | inr fields => lift (error_json (py "invalid arguments: " ++ join [44; 32] fields))
    | inl a => guarded ctx name a (map fst args)
    end
  end.

(** * The loop *)

Definition MAX_QUESTION_CHARS : Z := 1000.

Record Investigation := {
  iv_run_id : UUID; iv_question : pystr; iv_status : InvestigationStatus; iv_answer : option pystr;
  iv_cited_ids : list pystr; iv_rejected_ids : list pystr; iv_prompt_version : pystr; iv_model : pystr;
  iv_steps : Z; iv_tool_calls : list ToolRecord; iv_input_tokens : Z; iv_output_tokens : Z;
  iv_error : option pystr }.

(** The messages of a run, as langchain has them. *)
Inductive message :=
  | SystemMessage (content : pystr)
  | HumanMessage (content : pystr)
  | AIMessage (content : pystr) (tool_calls : list ToolCall)
  | ToolMessage (content tool_call_id : pystr).

(** [to_chat_messages] *)
Definition to_chat_message (m : message) : ChatMessage :=
  match m with
  | SystemMessage s => chat_message Role_system s
  | HumanMessage s => chat_message Role_user s
  | AIMessage s calls =>
    {| cm_role := Role_assistant; cm_content := s; cm_tool_calls := calls; cm_tool_call_id := None |}
  | ToolMessage s i =>
    {| cm_role := Role_tool; cm_content := s; cm_tool_calls := []; cm_tool_call_id := Some i |}
  end.

(** A run ends with its result, or with an [InvestigationError] that carries what ran. *)
Inductive run_end := Finished (i : Investigation) | Failed (cause : string) (partial : Investigation).

(** Truth, and iteration, of decoded JSON. *)
Definition truthy (j : json) : bool :=
  match j with
  | JNull | JBool false | JStr [] | JList [] | JObj [] => false
  | JInt n => negb (n =? 0)
  | JFloat (Fin m _) => negb (m =? 0)
  | JFloat NegZero => false
  | _ => true
  end.

Definition items_of (j : json) : option (list json) :=
  match j with
  | JList l => Some l
  | JStr s => Some (map (λ c, JStr [c]) s)
  | JObj kvs => Some (map (λ kv, JStr kv.1) kvs)
  | _ => None
  end.

(** ** Updating the result *)

Definition with_status (status : InvestigationStatus) (answer : option pystr) (cited rejected : list pystr)
    (error : option pystr) (i : Investigation) : Investigation := {|
  iv_run_id := iv_run_id i; iv_question := iv_question i; iv_status := status; iv_answer := answer;
  iv_cited_ids := cited; iv_rejected_ids := rejected; iv_prompt_version := iv_prompt_version i;
  iv_model := iv_model i; iv_steps := iv_steps i; iv_tool_calls := iv_tool_calls i;
  iv_input_tokens := iv_input_tokens i; iv_output_tokens := iv_output_tokens i; iv_error := error |}.

Definition add_step (usage : GenerationUsage) (i : Investigation) : Investigation := {|
  iv_run_id := iv_run_id i; iv_question := iv_question i; iv_status := iv_status i; iv_answer := iv_answer i;
  iv_cited_ids := iv_cited_ids i; iv_rejected_ids := iv_rejected_ids i;
  iv_prompt_version := iv_prompt_version i; iv_model := iv_model i; iv_steps := iv_steps i + 1;
  iv_tool_calls := iv_tool_calls i; iv_input_tokens := iv_input_tokens i + gu_input_tokens usage;
  iv_output_tokens := iv_output_tokens i + gu_output_tokens usage; iv_error := iv_error i |}.

(** [tool_calls] is the list of the ledger, shared. *)
Definition with_records (l : ToolLedger) (i : Investigation) : Investigation := {|
  iv_run_id := iv_run_id i; iv_question := iv_question i; iv_status := iv_status i; iv_answer := iv_answer i;
  iv_cited_ids := iv_cited_ids i; iv_rejected_ids := iv_rejected_ids i;
  iv_prompt_version := iv_prompt_version i; iv_model := iv_model i; iv_steps := iv_steps i;
  iv_tool_calls := tl_records l; iv_input_tokens := iv_input_tokens i;
  iv_output_tokens := iv_output_tokens i; iv_error := iv_error i |}.

(** [_fail] *)
Definition fail (cause : string) (i : Investigation) : Investigation :=
  with_status FAILED_RUN None (iv_cited_ids i) (iv_rejected_ids i) (Some (py cause)) i.

Definition malformed_run {A} : result A := Err (InvestigationError "MalformedGenerationError").

(** [_finish]: the final answer against what the tools returned. *)
Definition finish_run `{JsonLoads} (i : Investigation) (text : pystr) (l : ToolLedger) : result Investigation :=
  match json_loads_text text with
  | Ok (JObj data) =>
    match assoc (py "answer") data, assoc (py "insufficient_evidence") data, assoc (py "cited_ids") data with
    | Some answer, Some insufficient, Some cited =>
      match items_of cited with
      | None => malformed_run
      | Some cited =>
        let cited := map py_str cited in
        let seen := λ x, bool_decide (x ∈ tl_observed l) in
        let rejected_ids := where_ (λ x, negb (seen x)) cited in
        let cited_ids := where_ seen cited in
        let answer := py_str answer in
        Ok (if negb (is_empty rejected_ids) || (negb (truthy insufficient) && is_empty cited_ids)
            then with_status UNGROUNDED None cited_ids rejected_ids (iv_error i) i
            else if truthy insufficient
            then with_status INSUFFICIENT_EVIDENCE (Some answer) cited_ids rejected_ids (iv_error i) i
            else with_status ANSWERED (Some answer) cited_ids rejected_ids (iv_error i) i)
      end
    | _, _, _ => malformed_run
    end
  | Ok _ | Err (JSONDecodeError | ValueError) => malformed_run
  | Err e => Err e
  end.

End tools.

Section investigator.
Context `{UD : !UnicodeData} `{FR : !FloatRepr} `{ET : !ExceptionText} `{SO : !ScoreOps} `{SE : !SearchEngine}.
Context `{PD : !Pydantic} `{JL : !JsonLoads} `{GP : !GenerationProvider}.
Context {St : Type} `{BE : !InvestigatorBackend St}.
Context (prompt : PromptTemplate) (max_steps max_tool_calls max_output_tokens : Z).

(** What other transactions do before the [n]th tool call of a run. *)
Context (between : Z → St → St).

Definition request_of (schema : json) (messages : list message) : GenerationRequest := {|
  gr_messages := map to_chat_message messages; gr_max_output_tokens := max_output_tokens;
  gr_temperature := Some (Fin 0 0);
  gr_output_schema := Some {| os_name := py "investigation"; os_schema := schema |};
  gr_tools := map tool_spec TOOLS |}.

(** The calls of one reply, each answered by a message. *)
Fixpoint run_calls (ctx : TenantContext) (calls : list ToolCall) (calls_made : Z) (messages : list message) :
    ST (St * ToolLedger) (Z * list message) :=
  match calls with
  | [] => mret (calls_made, messages)
  | call :: rest =>
    let calls_made := calls_made + 1 in
    content ← (if max_tool_calls <? calls_made then lift (error_json (py "tool call budget exhausted"))
               else _ ← modify (λ s, (between calls_made s.1, s.2));
                    run_tool ctx (tc_call_name call) (tc_call_arguments call));
    run_calls ctx rest calls_made (messages ++ [ToolMessage content (tc_call_id call)])
  end.

(** The [while] loop, [fuel] steps from its end. *)
Fixpoint loop (fuel : nat) (ctx : TenantContext) (schema : json) (calls_made : Z) (messages : list message)
    (i : Investigation) : ST (St * ToolLedger) run_end :=
  match fuel with
  | O => mret (Finished i)
  | S fuel =>
    match generate (request_of schema messages) with
    | Err (GenerationError name) =>
      mret (Failed name (fail name (add_step {| gu_input_tokens := 0; gu_output_tokens := 0 |} i)))
    | Err e => raise e
    | Ok reply =>
      let i := add_step (gn_usage reply) i in
      match gn_tool_calls reply with
      | [] =>
        ledger ← gets snd;
        match finish_run i (gn_text reply) ledger with
        | Ok i => mret (Finished i)
        | Err (InvestigationError cause) => mret (Failed cause (fail cause i))
        | Err e => raise e
        end
      | calls =>
        r ← run_calls ctx calls calls_made (messages ++ [AIMessage (gn_text reply) calls]);
        loop fuel ctx schema r.1 r.2 i
      end
    end
  end.

(** [PromptTemplate.render_user] *)
Definition render_user (t : PromptTemplate) (values : list (string * pystr)) : result pystr :=
  _ ← ensure (forallb (λ p, bool_decide (p ∈ map fst values)) (pt_placeholders t)) ValueError;
  format_template (pt_user t) values.

Definition close (e : run_end) (l : ToolLedger) : run_end :=
  match e with
  | Finished i => Finished (with_records l i)
  | Failed cause i => Failed cause (with_records l i)
  end.

(** [DecisionInvestigator.investigate]; [run_id] is the UUID drawn for the run. *)
Definition investigate_with (ctx : TenantContext) (question : pystr) (run_id : UUID) :
    ST (St * ToolLedger) run_end :=
  let question := strip question in
  if is_empty question || (MAX_QUESTION_CHARS <? zlen question)
  then raise (ValidationFailedError "question must be 1-{MAX_QUESTION_CHARS} characters")
  else
    match pt_output_schema prompt with
    | None => raise (LibraryError "AssertionError")
    | Some schema =>
      user ← lift (render_user prompt [("question"%string, question)]);
      e ← loop (Z.to_nat max_steps) ctx schema 0 [SystemMessage (pt_system prompt); HumanMessage user] {|
        iv_run_id := run_id; iv_question := question; iv_status := STEP_LIMIT; iv_answer := None;
        iv_cited_ids := []; iv_rejected_ids := []; iv_prompt_version := pt_version prompt;
        iv_model := model_id; iv_steps := 0; iv_tool_calls := []; iv_input_tokens := 0;
        iv_output_tokens := 0; iv_error := None |};
      ledger ← gets snd;
      mret (close e ledger)
    end.

(** A run with a ledger of its own. *)
Definition with_ledger {A} (m : ST (St * ToolLedger) A) : ST St A :=
  λ s, let '(r, s') := m (s, empty_ledger) in (r, s'.1).

End investigator.

(** * services/investigations.py *)

Section service.
Context `{UD : !UnicodeData} `{FR : !FloatRepr} `{ET : !ExceptionText} `{SO : !ScoreOps} `{SE : !SearchEngine}.
Context `{PD : !Pydantic} `{JL : !JsonLoads} `{GP : !GenerationProvider}.
Context {C : Type} `{BE : !InvestigatorBackend (db * C)}.
Context (prompt : PromptTemplate) (max_steps max_tool_calls max_output_tokens : Z).
Context (between : Z → db * C → db * C).

Definition AGENT_NAME : pystr := py "decision-investigator".

Definition run_row (ctx : TenantContext) (i : Investigation) : agent_run := {|
  ar_id := iv_run_id i; ar_organization_id := ctx_organization_id ctx;
  ar_requested_by_user_id := ctx_user_id ctx; ar_agent_client_id := ctx_agent_client_id ctx;
  ar_agent := AGENT_NAME; ar_question := iv_question i; ar_status := iv_status i;
  ar_answer := iv_answer i; ar_cited_ids := iv_cited_ids i; ar_rejected_ids := iv_rejected_ids i;
  ar_tool_calls := iv_tool_calls i; ar_prompt_version := iv_prompt_version i; ar_model := iv_model i;
  ar_steps := iv_steps i; ar_input_tokens := iv_input_tokens i; ar_output_tokens := iv_output_tokens i;
  ar_error := iv_error i |}.

Definition from_row (r : agent_run) : Investigation := {|
  iv_run_id := ar_id r; iv_question := ar_question r; iv_status := ar_status r; iv_answer := ar_answer r;
  iv_cited_ids := ar_cited_ids r; iv_rejected_ids := ar_rejected_ids r;
  iv_prompt_version := ar_prompt_version r; iv_model := ar_model r; iv_steps := ar_steps r;
  iv_tool_calls := ar_tool_calls r; iv_input_tokens := ar_input_tokens r;
  iv_output_tokens := ar_output_tokens r; iv_error := ar_error r |}.

Definition save (ctx : TenantContext) (i : Investigation) : ST (db * C) unit :=
  on_db (transaction (exec_insert AgentRuns (run_row ctx i))).

Definition investigate (ctx : TenantContext) (question : pystr) (run_id : UUID) : ST (db * C) Investigation :=
  _ ← on_db (transaction (_ ← require_permission ctx READ_FACTS; require_permission ctx READ_DECISIONS));
  e ← with_ledger (investigate_with prompt max_steps max_tool_calls max_output_tokens between ctx question run_id);
  match e with
  | Failed cause partial => _ ← save ctx partial; raise (InvestigationError cause)
  | Finished i => _ ← save ctx i; mret i
  end.

Definition get_investigation (ctx : TenantContext) (run_id : UUID) : DB Investigation :=
  transaction (
    _ ← require_permission ctx READ_DECISIONS;
    rows ← select AgentRuns (λ r, (ar_organization_id r =? ctx_organization_id ctx) && (ar_id r =? run_id)
                                  && (ar_requested_by_user_id r =? ctx_user_id ctx));
    match rows with
    | [] => raise (NotFoundError "investigation not found")
    | r :: _ => mret (from_row r)
    end).

End service.

(** * ServiceBackend *)

Section service_backend.
Context `{UD : !UnicodeData} `{FR : !FloatRepr} `{SH : !Sha256} `{JB : !Jsonb} `{SO : !ScoreOps} `{SE : !SearchEngine}.
Context {C : Type} (cache : option (ResultCache C)) (clock : Instant) (others : db → db) (index : search_index).

(** The existing services, with [others] between the two transactions of a search. *)
Definition ServiceBackend : InvestigatorBackend (db * C) := {|
  be_receipt := λ ctx i, on_db (receipt reloaded ctx i);
  be_lineage := λ ctx i, on_db (lineage ctx i);
  be_decisions_relying_on := λ ctx i, on_db (decisions_relying_on ctx i);
  be_search := λ ctx q, search cache clock others index ctx q |}.

End service_backend.
