(* ===== verification/Investigations.v ===== *)
(** What an investigation guarantees: it ends within its limits, an answer is given
    only on citations that the tools returned, what the tools returned belongs to the
    caller's organization, and the run is stored for the user who asked. *)

From S2P Require Import Prelude PyStr Json Canonical Regex Validation Access Temporal History.
From S2P Require Import Database Schema Calendar Accounts FactRepo EvidenceService FactService.
From S2P Require Import TemporalService Ranking Generation Retrieval Decisions Sealing Investigator.


(** * The ledger of a run *)

Section ledger.
Context `{UD : !UnicodeData} `{FR : !FloatRepr} `{ET : !ExceptionText} `{SO : !ScoreOps} `{SE : !SearchEngine}.
Context `{PD : !Pydantic} {St : Type} `{BE : !InvestigatorBackend St}.

(** A command that leaves the services alone and observes at most [ids]. *)
Definition notes {A} (ids : list pystr) (m : ST (St * ToolLedger) A) : Prop :=
  ∀ s r s', m s = (r, s') → s'.1 = s.1 ∧ tl_records s'.2 = tl_records s.2 ∧
    ∀ x, x ∈ tl_observed s'.2 → x ∈ tl_observed s.2 ∨ x ∈ ids.

Lemma notes_lift {A} ids (x : result A) : notes ids (lift x).
Proof. intros s r s' [= <- <-]. split_and!; auto. Qed.

Lemma notes_ret {A} ids (x : A) : notes ids (mret x).
Proof. intros s r s' [= <- <-]. split_and!; auto. Qed.

Lemma notes_observe ids seen : (∀ x, x ∈ ids → x ∈ seen) → notes seen (observe ids).
Proof.
  intros H s r s' [= <- <-]. split_and!; try done. intros x. cbn [snd tl_observed]. rewrite elem_of_app. naive_solver.
Qed.

Lemma notes_bind {A B} ids (m : ST (St * ToolLedger) A) (f : A → ST (St * ToolLedger) B) :
  notes ids m → (∀ a, notes ids (f a)) → notes ids (m ≫= f).
Proof.
  intros Hm Hf s r s' H. unfold mbind, st_bind in H. destruct (m s) as [[a|e] s1] eqn:E.
  - apply Hm in E as (H1 & H2 & H3). apply Hf in H as (G1 & G2 & G3). split_and!; [congruence|congruence|].
    intros x [Hx|Hx]%G3; [by apply H3|by right].
  - injection H as <- <-. by apply Hm in E.
Qed.

Lemma notes_mapM {A B} ids (f : A → ST (St * ToolLedger) B) l :
  (∀ x, x ∈ l → notes ids (f x)) → notes ids (mapM_ f l).
Proof.
  induction l as [|x l IH]; intros Hf; [apply notes_ret|]. cbn [mapM_].
  apply notes_bind; [apply Hf; by left|]. intros y. apply notes_bind; [apply IH; intros z Hz; apply Hf; by right|].
  intros ys. apply notes_ret.
Qed.

(** A tool call adds at most one record. *)
Definition records_one {A} (m : ST (St * ToolLedger) A) : Prop :=
  ∀ s r s', m s = (r, s') → (length (tl_records s'.2) ≤ length (tl_records s.2) + 1)%nat.

Lemma backend_ledger {A} (m : ST St A) s r s' : backend m s = (r, s') → s'.2 = s.2 ∧ m s.1 = (r, s'.1).
Proof. unfold backend. destruct (m s.1) as [x b] eqn:E. intros [= <- <-]. done. Qed.

(** What each tool reports of a service's answer. *)
Lemma receipt_notes ctx i : ∃ k, get_decision_receipt ctx i = (backend (be_receipt ctx i) ≫= k) ∧
  ∀ r, notes (uuid_str (d_id (dr_decision r)) :: map (λ f, uuid_str (rf_fact_version_id f)) (dr_facts r)) (k r).
Proof.
  eexists. split; [reflexivity|]. intros r. cbv beta. apply notes_bind; [apply notes_observe; intros x ->%list_elem_of_singleton; by left|].
  intros _.
  apply notes_bind; [|intros; apply notes_lift]. apply notes_mapM. intros f Hf.
  apply notes_bind; [|intros; apply notes_lift]. apply notes_observe. intros x ->%list_elem_of_singleton. right.
  apply list_elem_of_fmap. by exists f.
Qed.

Lemma lineage_notes ctx i : ∃ k, get_fact_lineage ctx i = (backend (be_lineage ctx i) ≫= k) ∧
  ∀ l, notes (map (λ v, uuid_str (vs_id v)) (chain_of l)) (k l).
Proof.
  eexists. split; [reflexivity|]. intros l. cbv beta. apply notes_bind; [by apply notes_observe|].
  intros _. apply notes_lift.
Qed.

Lemma relying_notes ctx i : ∃ k,
  find_decisions_relying_on ctx i = (backend (be_decisions_relying_on ctx i) ≫= k) ∧
  ∀ l, notes (map uuid_str l) (k l).
Proof.
  eexists. split; [reflexivity|]. intros l. cbv beta. apply notes_bind; [by apply notes_observe|].
  intros _. apply notes_ret.
Qed.

Lemma search_notes ctx q t n : ∃ k, search_facts ctx q t n = (backend (be_search ctx (tool_query q t n)) ≫= k) ∧
  ∀ r, notes (map (λ x, uuid_str (vs_id (rt_version x))) (rr_results r)) (k r).
Proof.
  eexists. split; [reflexivity|]. intros r. cbv beta. apply notes_bind; [|intros; apply notes_ret].
  apply notes_mapM. intros f Hf. apply notes_bind; [|intros; apply notes_lift]. apply notes_observe.
  intros x ->%list_elem_of_singleton. apply list_elem_of_fmap. by exists f.
Qed.

Lemma tool_records {A B} (m : ST St A) (k : A → ST (St * ToolLedger) B) (ids : A → list pystr) s r s' :
  (∀ a, notes (ids a) (k a)) → (backend m ≫= k) s = (r, s') → tl_records s'.2 = tl_records s.2.
Proof.
  intros Hk H. unfold mbind, st_bind in H. destruct (backend m s) as [[a|e] s1] eqn:E;
    apply backend_ledger in E as [Hl _].
  - apply Hk in H as (_ & -> & _). by rewrite Hl.
  - injection H as <- <-. by rewrite Hl.
Qed.

Lemma run_of_records ctx name args s r s' : run_of ctx name args s = (r, s') → tl_records s'.2 = tl_records s.2.
Proof.
  intros H. unfold run_of in H. destruct args as [i|i|q t n].
  - destruct (receipt_notes ctx i) as (k & E & Hk). rewrite E in H. exact (tool_records _ _ _ _ _ _ Hk H).
  - case_bool_decide.
    + destruct (lineage_notes ctx i) as (k & E & Hk). rewrite E in H. exact (tool_records _ _ _ _ _ _ Hk H).
    + destruct (relying_notes ctx i) as (k & E & Hk). rewrite E in H. exact (tool_records _ _ _ _ _ _ Hk H).
  - destruct (search_notes ctx q t n) as (k & E & Hk). rewrite E in H. exact (tool_records _ _ _ _ _ _ Hk H).
Qed.

Lemma guarded_after ctx name args given s r s' : guarded ctx name args given s = (r, s') →
  ∃ r0 s0, run_of ctx name args s = (r0, s0) ∧ s'.1 = s0.1 ∧ tl_observed s'.2 = tl_observed s0.2 ∧
    (length (tl_records s'.2) ≤ length (tl_records s0.2) + 1)%nat.
Proof.
  unfold guarded. destruct (run_of ctx name args s) as [r0 s0]. intros H. exists r0, s0. split; [done|].
  assert (Hn : ∀ rec (t : result pystr), (_ ← add_record rec; lift t) s0 = (r, s') →
    s'.1 = s0.1 ∧ tl_observed s'.2 = tl_observed s0.2 ∧
    (length (tl_records s'.2) ≤ length (tl_records s0.2) + 1)%nat).
  { intros rec t [= <- <-]. cbn [fst snd tl_observed tl_records]. rewrite length_app. cbn [length]. split_and!; done || lia. }
  assert (He : ∀ e : exn, (Err e, s0) = (r, s') → s'.1 = s0.1 ∧ tl_observed s'.2 = tl_observed s0.2 ∧
    (length (tl_records s'.2) ≤ length (tl_records s0.2) + 1)%nat).
  { intros e [= <- <-]. split_and!; done || lia. }
  destruct r0 as [payload|[]]; cbn [is_domain_error] in H;
    first [exact (Hn _ _ H)|exact (He _ H)].
Qed.

End ledger.

(** * The loop *)

(** How a run that ends without an exception of its own ends. *)
Definition run_of_end (e : run_end) : Investigation :=
  match e with Finished i => i | Failed _ i => i end.

Definition verdict_ok (limit : Z) (e : run_end) (l : ToolLedger) : Prop :=
  let i := run_of_end e in
  (∀ x, x ∈ iv_cited_ids i → x ∈ tl_observed l) ∧ (∀ x, x ∈ iv_rejected_ids i → x ∉ tl_observed l) ∧
  match e, iv_status i with
  | Finished _, ANSWERED => (∃ t, iv_answer i = Some t) ∧ iv_cited_ids i ≠ [] ∧ iv_rejected_ids i = []
  | Finished _, INSUFFICIENT_EVIDENCE => (∃ t, iv_answer i = Some t) ∧ iv_rejected_ids i = []
  | Finished _, UNGROUNDED => iv_answer i = None ∧ (iv_rejected_ids i ≠ [] ∨ iv_cited_ids i = [])
  | Finished _, STEP_LIMIT => iv_answer i = None ∧ iv_cited_ids i = [] ∧ iv_rejected_ids i = [] ∧ iv_steps i = limit
  | Failed cause _, FAILED_RUN => iv_answer i = None ∧ iv_error i = Some (py cause)
  | _, _ => False
  end.

(** A run that has not ended. *)
Definition running (i : Investigation) : Prop :=
  iv_status i = STEP_LIMIT ∧ iv_answer i = None ∧ iv_cited_ids i = [] ∧ iv_rejected_ids i = [].

Lemma running_step usage i : running i → running (add_step usage i).
Proof. done. Qed.

Section loop.
Context `{UD : !UnicodeData} `{FR : !FloatRepr} `{ET : !ExceptionText} `{SO : !ScoreOps} `{SE : !SearchEngine}.
Context `{PD : !Pydantic} `{JL : !JsonLoads} `{GP : !GenerationProvider}.
Context {St : Type} `{BE : !InvestigatorBackend St}.
Context (prompt : PromptTemplate) (max_steps max_tool_calls max_output_tokens : Z) (between : Z → St → St).

Abbreviation loop' := (loop max_tool_calls max_output_tokens between) (only parsing).
Abbreviation run_calls' := (run_calls max_tool_calls between) (only parsing).

Lemma failed_ok limit cause i l : running i → verdict_ok limit (Failed cause (fail cause i)) l.
Proof.
  intros (_ & _ & Hc & Hr). unfold verdict_ok. cbn [run_of_end fail with_status iv_cited_ids iv_rejected_ids
    iv_status iv_answer iv_error]. rewrite Hc, Hr. split_and!; try done; intros x Hx; by apply not_elem_of_nil in Hx.
Qed.

Lemma finish_ok limit i text l i' : finish_run i text l = Ok i' →
  verdict_ok limit (Finished i') l ∧ iv_steps i' = iv_steps i ∧ iv_run_id i' = iv_run_id i.
Proof.
  unfold finish_run. intros H.
  destruct (json_loads_text text) as [[| | | | | |data|]|[]]; try done.
  destruct (assoc (py "answer") data) as [answer|]; [|done].
  destruct (assoc (py "insufficient_evidence") data) as [insufficient|]; [|done].
  destruct (assoc (py "cited_ids") data) as [cited|]; [|done].
  destruct (items_of cited) as [items|]; [|done]. injection H as <-.
  set (cit := where_ (λ x, bool_decide (x ∈ tl_observed l)) (map py_str items)).
  set (rej := where_ (λ x, negb (bool_decide (x ∈ tl_observed l))) (map py_str items)).
  assert (Hc : ∀ x, x ∈ cit → x ∈ tl_observed l).
  { intros x [H _]%elem_of_where_. by apply bool_decide_eq_true in H. }
  assert (Hr : ∀ x, x ∈ rej → x ∉ tl_observed l).
  { intros x [H _]%elem_of_where_. by apply negb_true_iff, bool_decide_eq_false in H. }
  clearbody cit rej. unfold verdict_ok. destruct rej as [|y rej]; cbn [Grounding.is_empty negb orb].
  - destruct (truthy insufficient); cbn [negb andb].
    + split; [|done]. split; [done|]. split; [done|]. split; [by eexists|done].
    + destruct cit as [|c cit]; cbn [Grounding.is_empty]; (split; [|done]; split; [done|]; split; [done|]).
      * split; [done|by right].
      * split; [by eexists|done].
  - split; [|done]. split; [done|]. split; [done|]. split; [done|by left].
Qed.

(** The records of the ledger never outnumber the calls that were allowed. *)
Definition in_budget (calls_made : Z) (l : ToolLedger) : Prop :=
  zlen (tl_records l) ≤ Z.min calls_made (Z.max 0 max_tool_calls).

Lemma run_tool_records ctx name args s r s' : run_tool ctx name args s = (r, s') →
  (length (tl_records s'.2) ≤ length (tl_records s.2) + 1)%nat.
Proof.
  unfold run_tool. destruct (List.find _ TOOLS) as [[[? ?] schema]|].
  - destruct (validate_args schema args) as [a|fields].
    + intros (r0 & s0 & H & _ & _ & Hl)%guarded_after. by rewrite (run_of_records _ _ _ _ _ _ H) in Hl.
    + intros [= <- <-]. lia.
  - intros [= <- <-]. lia.
Qed.

Lemma run_calls_budget ctx calls : ∀ n msgs s r s', 0 ≤ n → run_calls' ctx calls n msgs s = (r, s') →
  in_budget n s.2 → match r with
                    | Ok nm => n ≤ nm.1 ∧ in_budget nm.1 s'.2
                    | Err _ => ∃ m, in_budget m s'.2
                    end.
Proof.
  induction calls as [|c calls IH]; intros n msgs s r s' Hn H Hb.
  - injection H as <- <-. by split.
  - cbn [run_calls] in H. unfold mbind at 1, st_bind at 1 in H. destruct (Z.ltb_spec max_tool_calls (n + 1)).
    + assert (Hb' : in_budget (n + 1) s.2) by (unfold in_budget in *; lia).
      unfold lift in H at 1. destruct (error_json _) as [t|e].
      * apply IH in H; [|lia|done]. destruct r; [|done]. destruct H. split; [lia|done].
      * injection H as <- <-. by exists (n + 1).
    + unfold mbind at 1, st_bind at 1, modify at 1 in H.
      destruct (run_tool ctx _ _ _) as [[t|e] s1] eqn:E;
        pose proof (run_tool_records _ _ _ _ _ _ E) as Hl; cbn [snd] in Hl;
        (assert (Hb' : in_budget (n + 1) s1.2) by (unfold in_budget, zlen in *; lia)).
      * apply IH in H; [|lia|done]. destruct r; [|done]. destruct H. split; [lia|done].
      * injection H as <- <-. by exists (n + 1).
Qed.

Lemma loop_ends fuel : ∀ ctx schema n msgs i s e s', 0 ≤ n → running i → in_budget n s.2 →
  loop' fuel ctx schema n msgs i s = (Ok e, s') →
  verdict_ok (iv_steps i + Z.of_nat fuel) e s'.2 ∧ iv_run_id (run_of_end e) = iv_run_id i ∧
  iv_steps i ≤ iv_steps (run_of_end e) ≤ iv_steps i + Z.of_nat fuel ∧ ∃ m, in_budget m s'.2.
Proof.
  induction fuel as [|fuel IH]; intros ctx schema n msgs i s e s' Hn Hi Hb H.
  - injection H as <- <-. destruct Hi as (Hs & Ha & Hc & Hr). split; [|split; [done|split; [cbn [run_of_end]; lia|by exists n]]].
    unfold verdict_ok. cbn [run_of_end]. rewrite Hs, Ha, Hc, Hr.
    split_and!; try done; try (intros x Hx; by apply not_elem_of_nil in Hx). lia.
  - cbn [loop] in H. destruct (generate _) as [reply|err].
    + set (i1 := add_step (gn_usage reply) i) in H. assert (Hst : iv_steps i1 = iv_steps i + 1) by done.
      assert (Hid : iv_run_id i1 = iv_run_id i) by done.
      assert (Hi1 : running i1) by exact Hi. clearbody i1. destruct (gn_tool_calls reply) as [|c calls].
      * unfold mbind, st_bind, gets in H. destruct (finish_run i1 (gn_text reply) s.2) as [i2|err] eqn:E.
        -- injection H as <- <-. destruct (finish_ok (iv_steps i + Z.of_nat (S fuel)) _ _ _ _ E) as (H1 & H2 & H3).
           split; [done|]. cbn [run_of_end]. split; [congruence|]. split; [lia|by exists n].
        -- destruct err; try done. injection H as <- <-. split; [by apply failed_ok|].
           cbn [run_of_end fail with_status iv_run_id iv_steps]. split; [done|]. split; [lia|by exists n].
      * unfold mbind at 1, st_bind at 1 in H. destruct (run_calls' ctx _ n _ s) as [[nm|err] s1] eqn:E; [|done].
        apply run_calls_budget in E as [Hn1 Hb1]; [|done|done].
        apply IH in H as (H1 & H2 & H3 & H4); [|lia|done|done].
        replace (iv_steps i + Z.of_nat (S fuel)) with (iv_steps i1 + Z.of_nat fuel) by lia.
        split; [done|]. split; [congruence|]. split; [lia|done].
    + destruct err; try done. injection H as <- <-. split; [by apply failed_ok|].
      cbn [run_of_end fail with_status iv_run_id iv_steps add_step]. split; [done|]. split; [lia|by exists n].
Qed.

(** C24. An investigation ends within its limits and answers only from what its tools
    returned.  It takes at most [max_steps] model calls and runs at most
    [max_tool_calls] tools, whatever the model asks for; every citation it reports is
    an id that a tool returned; a text is released only when no cited id was invented,
    and, unless the model says that the evidence is insufficient, only with at least
    one citation; a run out of steps or with a failed model has no answer. *)
Theorem investigation_answers_from_its_tools ctx question run_id s e s' :
  investigate_with prompt max_steps max_tool_calls max_output_tokens between ctx question run_id
    (s, empty_ledger) = (Ok e, s') →
  let i := run_of_end e in
  iv_run_id i = run_id ∧ 0 ≤ iv_steps i ≤ Z.max 0 max_steps ∧
  iv_tool_calls i = tl_records s'.2 ∧ zlen (iv_tool_calls i) ≤ Z.max 0 max_tool_calls ∧
  verdict_ok (Z.max 0 max_steps) e s'.2.
Proof.
  intros H. unfold investigate_with in H. destruct (_ || _); [done|].
  destruct (pt_output_schema prompt) as [schema|]; [|done].
  apply st_bind_ok in H as (user & ? & [_ ->]%lift_ok & H).
  apply st_bind_ok in H as (e0 & s1 & Hl & H). apply st_bind_ok in H as (l & ? & [-> ->]%gets_ok & [-> ->]%st_ret_ok).
  apply loop_ends in Hl as (Hv & Hid & Hs & m & Hb); [|done|by split_and!|].
  2:{ change (0 ≤ Z.min 0 (Z.max 0 max_tool_calls)). lia. }
  cbn [iv_steps iv_run_id] in *. replace (0 + Z.of_nat (Z.to_nat max_steps)) with (Z.max 0 max_steps) in * by lia.
  unfold in_budget in Hb. destruct e0 as [i|cause i]; cbn [close run_of_end with_records iv_run_id iv_steps iv_tool_calls] in *;
    (split_and!; [done|lia|lia|done|lia|exact Hv]).
Qed.

End loop.

(** * What the tools return belongs to the tenant *)

(** What a backend promises: it moves the state along [R], and the ids it returns belong
    to the caller's organization in the state it leaves. *)
Class BackendLaws `{ScoreOps} {St} (BE : InvestigatorBackend St) (ok : St → Prop) (R : St → St → Prop)
    (owned : UUID → St → pystr → Prop) := {
  law_order : PreOrder R;
  law_ok : ∀ s s', R s s' → ok s → ok s';
  law_owned : ∀ org s s' x, R s s' → ok s → owned org s x → owned org s' x;
  law_receipt : ∀ ctx i s r s', ok s → be_receipt ctx i s = (r, s') → R s s' ∧ ∀ a, r = Ok a →
    ∀ x, x ∈ uuid_str (d_id (dr_decision a)) :: map (λ f, uuid_str (rf_fact_version_id f)) (dr_facts a) →
    owned (ctx_organization_id ctx) s' x;
  law_lineage : ∀ ctx i s r s', ok s → be_lineage ctx i s = (r, s') → R s s' ∧ ∀ a, r = Ok a →
    ∀ x, x ∈ map (λ v, uuid_str (vs_id v)) (chain_of a) → owned (ctx_organization_id ctx) s' x;
  law_relying : ∀ ctx i s r s', ok s → be_decisions_relying_on ctx i s = (r, s') → R s s' ∧ ∀ a, r = Ok a →
    ∀ x, x ∈ map uuid_str a → owned (ctx_organization_id ctx) s' x;
  law_search : ∀ ctx q s r s', is_uuid (ctx_organization_id ctx) → ok s →
    be_search ctx q s = (r, s') → R s s' ∧ ∀ a, r = Ok a →
    ∀ x, x ∈ map (λ t, uuid_str (vs_id (rt_version t))) (rr_results a) → owned (ctx_organization_id ctx) s' x;
}.

Section tenant.
Context `{UD : !UnicodeData} `{FR : !FloatRepr} `{ET : !ExceptionText} `{SO : !ScoreOps} `{SE : !SearchEngine}.
Context `{PD : !Pydantic} `{JL : !JsonLoads} `{GP : !GenerationProvider}.
Context {St : Type} `{BE : !InvestigatorBackend St} (ok : St → Prop) (R : St → St → Prop).
Context (owned : UUID → St → pystr → Prop) {BL : BackendLaws BE ok R owned}.
Context (prompt : PromptTemplate) (max_steps max_tool_calls max_output_tokens : Z) (between : Z → St → St).
Context (Hbetween : ∀ n s, ok s → R s (between n s)).

(** Every observed id is owned. *)
Definition seen_owned (org : UUID) (s : St * ToolLedger) : Prop :=
  ok s.1 ∧ ∀ x, x ∈ tl_observed s.2 → owned org s.1 x.

Definition stays (org : UUID) (s s' : St * ToolLedger) : Prop :=
  seen_owned org s → R s.1 s'.1 ∧ seen_owned org s'.

Instance stays_preorder org : PreOrder (stays org).
Proof.
  pose proof law_order as HR. split.
  - intros s H. split; [reflexivity|done].
  - intros s1 s2 s3 H1 H2 H. destruct (H1 H) as [R1 G1]. destruct (H2 G1) as [R2 G2].
    split; [by etransitivity|done].
Qed.

(** A step of the services with owned ids, and notes on them. *)
Lemma tool_stays {A B} org (m : ST St A) (k : A → ST (St * ToolLedger) B) (ids : A → list pystr) :
  (∀ s r s', ok s → m s = (r, s') → R s s' ∧ ∀ a, r = Ok a → ∀ x, x ∈ ids a → owned org s' x) →
  (∀ a, notes (ids a) (k a)) → respects (stays org) (backend m ≫= k).
Proof.
  intros Hm Hk s r s' H [Hok Hseen]. unfold mbind, st_bind in H.
  destruct (backend m s) as [[a|e] s1] eqn:E; apply backend_ledger in E as [El Em];
    destruct (Hm _ _ _ Hok Em) as [HR Ha].
  - apply Hk in H as (H1 & _ & H3). unfold seen_owned. rewrite H1. split; [done|]. split; [by eapply law_ok|].
    intros x [Hx|Hx]%H3; [|by apply (Ha a)]. rewrite El in Hx. by eapply law_owned; [| |apply Hseen].
  - injection H as <- <-. unfold seen_owned. rewrite El. split; [done|]. split; [by eapply law_ok|].
    intros x Hx. by eapply law_owned; [| |apply Hseen].
Qed.

Lemma run_of_stays ctx name args : is_uuid (ctx_organization_id ctx) → respects (stays (ctx_organization_id ctx)) (run_of ctx name args).
Proof.
  intros Ho. unfold run_of. destruct args as [i|i|q t n].
  - destruct (receipt_notes ctx i) as (k & -> & Hk). apply (tool_stays _ _ _ _ (law_receipt ctx i) Hk).
  - case_bool_decide.
    + destruct (lineage_notes ctx i) as (k & -> & Hk). apply (tool_stays _ _ _ _ (law_lineage ctx i) Hk).
    + destruct (relying_notes ctx i) as (k & -> & Hk). apply (tool_stays _ _ _ _ (law_relying ctx i) Hk).
  - destruct (search_notes ctx q t n) as (k & -> & Hk). apply (tool_stays _ _ _ _ (λ s r s', law_search ctx _ s r s' Ho) Hk).
Qed.

Lemma run_tool_stays ctx name args : is_uuid (ctx_organization_id ctx) → respects (stays (ctx_organization_id ctx)) (run_tool ctx name args).
Proof.
  intros Hu. unfold run_tool. destruct (List.find _ TOOLS) as [[[? ?] schema]|]; [|apply respects_lift; apply _].
  destruct (validate_args schema args) as [a|fields]; [|apply respects_lift; apply _].
  intros s r s' (r0 & s0 & H & H1 & H2 & _)%guarded_after Hs. destruct (run_of_stays _ _ _ Hu _ _ _ H Hs) as [HR [Ho Hx]].
  unfold seen_owned. by rewrite H1, H2.
Qed.

Lemma between_stays org n : respects (stays org) (modify (λ s : St * ToolLedger, (between n s.1, s.2))).
Proof.
  intros s r s' [= <- <-] [Hok Hx]. pose proof (Hbetween n s.1 Hok) as HR. split; [done|]. split; [by eapply law_ok|].
  intros x Hs. by eapply law_owned; [| |apply Hx].
Qed.

Lemma run_calls_stays ctx calls : is_uuid (ctx_organization_id ctx) → ∀ n msgs,
  respects (stays (ctx_organization_id ctx)) (run_calls max_tool_calls between ctx calls n msgs).
Proof.
  intros Hu. induction calls as [|c calls IH]; intros n msgs; cbn [run_calls]; [apply respects_ret; apply _|].
  apply respects_bind; [apply _| |intros; apply IH]. destruct (_ <? _); [apply respects_lift; apply _|].
  apply respects_bind; [apply _|apply between_stays|intros; by apply run_tool_stays].
Qed.

Lemma loop_stays fuel : ∀ ctx schema n msgs i, is_uuid (ctx_organization_id ctx) → respects (stays (ctx_organization_id ctx))
  (loop max_tool_calls max_output_tokens between fuel ctx schema n msgs i).
Proof.
  induction fuel as [|fuel IH]; intros ctx schema n msgs i Hu; cbn [loop]; [apply respects_ret; apply _|].
  destruct (generate _) as [reply|[]]; try (apply respects_raise; apply _); [|apply respects_ret; apply _].
  destruct (gn_tool_calls reply).
  - apply respects_bind; [apply _|apply respects_gets; apply _|]. intros l.
    destruct (finish_run _ _ l) as [|[]]; try (apply respects_raise; apply _); apply respects_ret; apply _.
  - apply respects_bind; [apply _|by apply run_calls_stays|intros; by apply IH].
Qed.

Lemma investigation_stays ctx question run_id : is_uuid (ctx_organization_id ctx) → respects (stays (ctx_organization_id ctx))
  (investigate_with prompt max_steps max_tool_calls max_output_tokens between ctx question run_id).
Proof.
  intros Hu. unfold investigate_with. destruct (_ || _); [apply respects_raise; apply _|].
  destruct (pt_output_schema prompt); [|apply respects_raise; apply _].
  apply respects_bind; [apply _|apply respects_lift; apply _|]. intros user.
  apply respects_bind; [apply _|by apply loop_stays|]. intros e.
  apply respects_bind; [apply _|apply respects_gets; apply _|]. intros. apply respects_ret; apply _.
Qed.

End tenant.

(** ** The services keep the promise *)

(** An id of a fact version, or of a decision, of an organization. *)
Definition owned_id (org : UUID) (d : db) (x : pystr) : Prop :=
  (∃ v, v ∈ tab d FactVersions ∧ fv_organization_id v = org ∧ x = uuid_str (fv_id v)) ∨
  (∃ e, e ∈ tab d Decisions ∧ d_organization_id e = org ∧ x = uuid_str (d_id e)).

(** What other transactions may do: keep the store consistent and the ids in place. *)
Definition keeps_ids (d d' : db) : Prop :=
  consistent d → consistent d' ∧ ∀ org x, owned_id org d x → owned_id org d' x.

Section services.
Context `{UD : !UnicodeData} `{FR : !FloatRepr} `{SH : !Sha256} `{JB : !Jsonb} `{SO : !ScoreOps} `{SE : !SearchEngine}.
Context {SEL : SearchEngineLaws} {C : Type}.
Context (clock : Instant) (others : db → db) (index : search_index).
Context (G : db → db → Prop) {HG : PreOrder G} (HGk : ∀ d d', G d d' → keeps_ids d d').
Context (Hothers : ∀ d, consistent d → G d (others d)).

Lemma receipt_reads load ctx i : respects eq (receipt load ctx i).
Proof.
  unfold receipt, DecisionRepository.get_decision, DecisionRepository.get_snapshot, DecisionRepository.snapshot_rows,
    DecisionRepository.relied_on, revocations.
  respects ltac:(first [apply require_permission_state; apply _ | apply select_respects; apply _ | apply receipt_fact_read]).
Qed.

Lemma lineage_reads ctx i : respects eq (lineage ctx i).
Proof.
  unfold lineage, FactRepository.get_version, FactRepository.list_versions.
  respects ltac:(first [apply require_permission_state; apply _ | apply select_respects; apply _]).
Qed.

Lemma relying_reads ctx i : respects eq (decisions_relying_on ctx i).
Proof.
  unfold decisions_relying_on, DecisionRepository.decisions_relying_on.
  respects ltac:(first [apply require_permission_state; apply _ | apply select_respects; apply _]).
Qed.

Lemma search_store_reads ctx request query limit w filters t k qv :
  respects eq (search_store ctx request index query limit w filters t k qv).
Proof.
  unfold search_store, candidates, hydrate.
  respects ltac:(first [apply require_permission_state; apply _ | apply select_respects; apply _]).
Qed.

Lemma on_db_reads {A} (m : DB A) (s s' : db * C) r : respects eq m → on_db m s = (r, s') →
  s'.1 = s.1 ∧ m s.1 = (r, s.1).
Proof.
  unfold on_db. intros Hm. destruct (m s.1) as [x d] eqn:E. pose proof (Hm _ _ _ E) as <-. by intros [= <- <-].
Qed.

Lemma receipt_rows_owned load ctx i d r d' : receipt load ctx i d = (Ok r, d') →
  (∀ x, d_id (load x) = d_id x) →
  ∀ x, x ∈ uuid_str (d_id (dr_decision r)) :: map (λ f, uuid_str (rf_fact_version_id f)) (dr_facts r) →
  owned_id (ctx_organization_id ctx) d x.
Proof.
  intros (-> & role & x0 & snapshot & rows & relied & c & h & _ & _ & Hd & Er & _ & _ & Hrows & _ & _ & _ & _ &
    revoked & Hf)%receipt_ok Hload x [->|Hx]%elem_of_cons.
  - right. apply (select_one_or_none Decisions) in Hd as (_ & Hp & Hin). exists x0.
    rewrite Er, Hload. split; [done|]. split; [lia|done].
  - left. apply list_elem_of_fmap in Hx as (f & -> & Hin).
    apply mapM_read in Hf; [|intros; apply receipt_fact_read].
    apply list_elem_of_lookup in Hin as [n Hn]. eapply Forall2_lookup_r in Hf as (row & Hrow & Hf); [|exact Hn].
    unfold DecisionRepository.snapshot_rows in Hrows. apply gets_ok in Hrows as [Hrows _].
    assert (Hir : row ∈ rows) by (apply list_elem_of_lookup; by exists n).
    rewrite Hrows in Hir. unfold sort_on in Hir. rewrite elem_of_sort_by in Hir.
    apply list_elem_of_bind in Hir as (sf & Hir & [Hof Hsf]%elem_of_where_).
    unfold DecisionRepository.snapshot_join in Hir. apply list_elem_of_bind in Hir as (v & Hir & [Hv Hvt]%elem_of_where_).
    apply list_elem_of_bind in Hir as (ft & Hir & _). apply list_elem_of_bind in Hir as (e & Hir & _).
    apply list_elem_of_bind in Hir as (so & Hir & _). apply list_elem_of_singleton in Hir as ->.
    exists v. split; [done|]. unfold DecisionRepository.of_snapshot in Hof. split; [lia|].
    f_equal. unfold receipt_fact in Hf. destruct (negb _) in Hf.
    + apply st_ret_ok in Hf as [-> _]. done.
    + apply st_bind_ok in Hf as (links & ? & _ & [-> _]%st_ret_ok). done.
Qed.

(** *** The search, with a cache *)

Context (cache : ResultCache C) {CL : CacheLaws cache} {TK : TenantKeys cache}.

Definition result_owned (org : UUID) (d : db) (r : RetrievalResult) : Prop :=
  ∀ t, t ∈ rr_results r → owned_id org d (uuid_str (vs_id (rt_version t))).

(** Every entry of the cache shows versions of the organization of its key. *)
Definition cache_owned (d : db) (c : C) : Prop := ∀ k r, stored c k r →
  ∃ m, is_uuid (ck_organization_id m) ∧ cache_key _ cache m = Ok k ∧ result_owned (ck_organization_id m) d r.

Definition sound (s : db * C) : Prop := consistent s.1 ∧ cache_owned s.1 s.2.

Definition moves (s s' : db * C) : Prop := sound s → G s.1 s'.1 ∧ cache_owned s'.1 s'.2.

Lemma moves_sound s s' : moves s s' → sound s → sound s'.
Proof. intros H Hs. destruct (H Hs) as [Hg Hc]. split; [|done]. by apply (HGk _ _ Hg), Hs. Qed.

Instance moves_preorder : PreOrder moves.
Proof.
  split; [intros s [_ Hc]; by split|]. intros s1 s2 s3 H1 H2 Hs. destruct (H1 Hs) as [G1 _].
  destruct (H2 (moves_sound _ _ H1 Hs)) as [G2 C2]. split; [by etransitivity|done].
Qed.

Lemma result_owned_grows org d d' r : G d d' → consistent d → result_owned org d r → result_owned org d' r.
Proof. intros Hg Hd Hr t Ht. by apply (HGk _ _ Hg Hd), Hr. Qed.

Lemma cache_owned_less d d' c c' : G d d' → consistent d → cache_owned d c →
  (∀ k r, stored c' k r → stored c k r) → cache_owned d' c'.
Proof.
  intros Hg Hd Hc Hless k r (m & Hu & Hk & Hr)%Hless%Hc. exists m. split; [done|]. split; [done|].
  by apply (result_owned_grows _ d).
Qed.

Lemma read_moves {A} (m : DB A) : respects eq m → respects moves (on_db m).
Proof.
  intros Hm s r s' H. unfold on_db in H. destruct (m s.1) as [x d] eqn:E. pose proof (Hm _ _ _ E) as <-.
  injection H as _ <-. rewrite <-surjective_pairing. reflexivity.
Qed.

Lemma others_move : respects moves (on_db (C := C) (modify others)).
Proof.
  intros s r s' [= _ <-] [Hd Hc]. pose proof (Hothers s.1 Hd) as Hg. cbn [fst snd]. split; [done|].
  by apply (cache_owned_less s.1 _ s.2).
Qed.

(** From a sound state, a command moves the store along [G], leaves a sound state, and
    what it returns satisfies [P]. *)
Definition ends {A} (P : A → db * C → Prop) (m : ST (db * C) A) (s : db * C) : Prop :=
  sound s → ∀ r s', m s = (r, s') → G s.1 s'.1 ∧ sound s' ∧ ∀ a, r = Ok a → P a s'.

Lemma ends_bind {A B} (Q : A → db * C → Prop) (P : B → db * C → Prop) m (f : A → ST (db * C) B) s :
  ends Q m s → (∀ a s1, sound s1 → Q a s1 → ends P (f a) s1) → ends P (m ≫= f) s.
Proof.
  intros Hm Hf Hs r s' H. unfold mbind, st_bind in H. destruct (m s) as [[a|e] s1] eqn:E;
    destruct (Hm Hs _ _ E) as (G1 & S1 & Q1).
  - destruct (Hf a s1 S1 (Q1 a eq_refl) S1 r s' H) as (G2 & S2 & P2). split; [by etransitivity|done].
  - injection H as <- <-. split; [done|]. split; [done|]. intros a Ha. discriminate Ha.
Qed.

Lemma ends_respects {A} (m : ST (db * C) A) s : respects moves m → ends (λ _ _, True) m s.
Proof.
  intros Hm Hs r s' H. pose proof (Hm _ _ _ H) as M. split; [by apply M|]. split; [|done]. by apply (moves_sound s).
Qed.

Lemma ends_read {A} (P : A → db * C → Prop) (m : DB A) s : respects eq m →
  (∀ a, m s.1 = (Ok a, s.1) → P a s) → ends P (on_db m) s.
Proof.
  intros Hm HP Hs r s' H. destruct (on_db_reads m s s' r Hm H) as [E Em].
  destruct (ends_respects _ _ (read_moves m Hm) Hs _ _ H) as (Hg & Hs' & _). split; [done|]. split; [done|].
  intros a ->. assert (s' = s) as ->; [|by apply HP].
  unfold on_db in H. rewrite Em in H. injection H as <-. by destruct s.
Qed.

Lemma ends_lift {A} (P : A → db * C → Prop) x s : (∀ a, x = Ok a → P a s) → ends P (lift x) s.
Proof. intros HP Hs r s' [= <- <-]. split; [reflexivity|]. by split. Qed.

Lemma ends_ret {A} (P : A → db * C → Prop) a s : P a s → ends P (mret a) s.
Proof. intros HP Hs r s' [= <- <-]. split; [reflexivity|]. split; [done|]. by intros b [= <-]. Qed.

(** A command of the cache, by what it stores. *)
Lemma ends_ext {A} (P : A → db * C → Prop) (m : ST C A) s :
  (∀ x c, m s.2 = (x, c) → (∀ k r, stored c k r → stored s.2 k r ∨ ∃ m, is_uuid (ck_organization_id m) ∧
     cache_key _ cache m = Ok k ∧ result_owned (ck_organization_id m) s.1 r) ∧ ∀ a, x = Ok a → P a (s.1, c)) →
  ends P (on_ext m) s.
Proof.
  intros Hm [Hd Hc] r s' H. unfold on_ext in H. destruct (m s.2) as [x c] eqn:E. injection H as <- <-.
  destruct (Hm _ _ eq_refl) as [Hk HP]. split; [reflexivity|]. split; [|done]. split; [done|].
  intros k r [Hr|Hr]%Hk; [by apply Hc|done].
Qed.

(** The lookup: a key is the caller's, and so is an entry found under it. *)
Lemma lookup_ends material org s : is_uuid org → (∀ g, ck_organization_id (material g) = org) →
  ends (λ x s1, (∀ k, x.1 = Some k → ∃ g, cache_key _ cache (material g) = Ok k) ∧
                (∀ r, x.2 = Some r → result_owned org s1.1 r))
    (cache_lookup (Some cache) material org) s.
Proof.
  intros Hu Horg. unfold cache_lookup. apply (ends_bind (λ _ _, True)).
  { apply ends_ext. intros x c E. split; [|done]. intros k r Hk. left. by apply (generation_stored _ _ _ _ E). }
  intros [g|] s1 _ _; [|by apply ends_ret].
  apply (ends_bind (λ k _, cache_key _ cache (material g) = Ok k)); [by apply ends_lift|]. intros k s2 [_ Hc2] Hk.
  apply (ends_bind (λ x s, ∀ r, x = Some r → result_owned org s.1 r)).
  { apply ends_ext. intros x c E. destruct (get_stored _ _ _ _ E) as [Hle Hst]. split; [intros k0 r Hr; left; by apply Hle|].
    intros a -> r ->. destruct (Hc2 k r (Hst r eq_refl)) as (m & Hm & Hkm & Hr). cbn [fst].
    rewrite <-(Horg g), <-(tenant_of_key m (material g) k); [done|done|by rewrite Horg|done|done]. }
  intros x s3 _ Hx. apply ends_ret. cbn [fst snd]. split; [|done]. intros k0 [= <-]. by exists g.
Qed.

(** What the store finds belongs to the organization. *)
Lemma search_store_owned ctx request query limit w filters t k qv d r d' : consistent d → 1 ≤ limit →
  search_store ctx request index query limit w filters t k qv d = (Ok r, d') → result_owned (ctx_organization_id ctx) d r.
Proof.
  intros Hd Hlim H x Hx. apply search_store_ok in H as (_ & role' & _ & _ & _ & Hout); [|done|lia].
  destruct (so_in_scope _ _ _ _ Hout x Hx) as (v & Hv & -> & _). left. exists v.
  split; [by destruct Hv|]. split; [by apply in_scope_org in Hv|]. by rewrite as_known_id.
Qed.

(** The whole search: from a sound state it moves the store as the others do, leaves the
    cache sound, and returns versions of the caller's organization. *)
Lemma search_ends ctx request s : is_uuid (ctx_organization_id ctx) →
  ends (λ r s1, result_owned (ctx_organization_id ctx) s1.1 r) (search (Some cache) clock others index ctx request) s.
Proof.
  intros Hu. unfold search.
  apply (ends_bind (λ _ _, True)); [by apply ends_lift|]. intros query s1 _ _.
  apply (ends_bind (λ l _, 1 ≤ l)); [apply ends_lift; intros l [-> Hl]%validate_limit_ok; exact (proj1 Hl)|]. intros limit s2 _ Hlim.
  do 4 (apply (ends_bind (λ _ _, True)); [by apply ends_lift|]; intros ? ? _ _).
  apply (ends_bind (λ _ _, True)).
  { apply ends_read; [|done]. apply respects_transaction; [apply _|]. apply require_permission_state; apply _. }
  intros role s7 _ _.
  match goal with |- ends _ (cache_lookup _ ?mat _ ≫= _) _ => set (material := mat) end.
  eapply ends_bind; [apply (lookup_ends material); [exact Hu|intros g; reflexivity]|]. intros [key [cached|]] s8 _ [Hkey Hcached]; cbn [fst snd] in Hkey, Hcached.
  { apply ends_ret. exact (Hcached cached eq_refl). }
  apply (ends_bind (λ _ _, True)); [by apply ends_lift|]. intros qv s9 _ _.
  apply (ends_bind (λ _ _, True)); [apply ends_respects, others_move|]. intros _ s10 [Hd _] _.
  apply (ends_bind (λ r s, result_owned (ctx_organization_id ctx) s.1 r)).
  { apply ends_read; [apply search_store_reads|]. intros r. by apply search_store_owned. }
  intros r s11 _ Hr. apply (ends_bind (λ _ s, result_owned (ctx_organization_id ctx) s.1 r)).
  - destruct key as [key|], qv as [qv|]; try by apply ends_ret. destruct (Hkey key eq_refl) as [g Hg].
    apply ends_ext. intros x c E. split; [|done]. intros k r0 [Hk|[-> ->]]%(put_stored _ _ _ _ _ E); [by left|].
    right. by exists (material g).
  - intros _ s12 _ Hr'. by apply ends_ret.
Qed.

#[export] Instance service_laws : BackendLaws (ServiceBackend (Some cache) clock others index)
  sound moves (λ org s, owned_id org s.1).
Proof.
  split.
  - apply _.
  - intros s s'. apply moves_sound.
  - intros org s s' x H Hs. destruct (H Hs) as [Hg _]. by apply (HGk _ _ Hg), Hs.
  - intros ctx i s r s' _ H. pose proof (read_moves _ ltac:(apply receipt_reads) _ _ _ H) as M. split; [exact M|].
    apply on_db_reads in H as [E H]; [|apply receipt_reads]. rewrite E.
    intros a ->. by eapply receipt_rows_owned.
  - intros ctx i s r s' _ H. pose proof (read_moves _ ltac:(apply lineage_reads) _ _ _ H) as M. split; [exact M|].
    apply on_db_reads in H as [E H]; [|apply lineage_reads]. rewrite E.
    intros a -> x (v & -> & Hv)%list_elem_of_fmap. left. unfold lineage in H.
    apply st_bind_ok in H as (chain & s1 & Ht & H). apply (proj1 (transaction_ok _ _ _ _)) in Ht.
    apply st_bind_ok in Ht as (role & s2 & Hp & Ht). apply require_permission_ok in Hp as (-> & _).
    apply st_bind_ok in Ht as ([tg|] & s3 & Hg & Ht); [|by apply raise_ok in Ht].
    apply get_version_ok in Hg as (-> & _). apply st_bind_ok in Ht as (rows & s4 & Hr & [-> ->]%st_ret_ok).
    unfold FactRepository.list_versions in Hr.
    apply st_bind_ok in Hr as (vs & s5 & [-> ->]%(select_ok FactVersions) & [-> ->]%st_ret_ok).
    set (chain := map to_snapshot _) in H.
    assert (Hall : ∀ v, v ∈ chain → ∃ w, w ∈ tab s.1 FactVersions ∧ fv_organization_id w = ctx_organization_id ctx ∧
      vs_id v = fv_id w).
    { intros w (y & -> & Hy)%list_elem_of_fmap. unfold sort_on in Hy. rewrite elem_of_sort_by in Hy.
      apply elem_of_where_ in Hy as [Hy Hin]. exists y. split; [done|]. split; [|done].
      unfold FactRepository.of_fact in Hy. lia. }
    clearbody chain. destruct (List.find _ chain) as [current|] eqn:Ef; [|by apply raise_ok in H].
    apply st_ret_ok in H as [-> _]. apply find_some in Ef as [Hcur _]. apply list_elem_of_In in Hcur.
    unfold chain_of in Hv. cbn [ln_version ln_ancestors ln_descendants] in Hv.
    destruct (Hall v) as (w & Hw & Ho & ->); [|by exists w].
    rewrite elem_of_cons, elem_of_app, !elem_of_where_ in Hv. destruct Hv as [->|[[_ Hv]|[_ Hv]]]; done.
  - intros ctx i s r s' _ H. pose proof (read_moves _ ltac:(apply relying_reads) _ _ _ H) as M. split; [exact M|].
    apply on_db_reads in H as [E H]; [|apply relying_reads]. rewrite E.
    intros a -> x (y & -> & Hy)%list_elem_of_fmap. right. unfold decisions_relying_on in H.
    apply (proj1 (transaction_ok _ _ _ _)) in H. apply st_bind_ok in H as (role & s2 & Hp & H).
    apply require_permission_ok in Hp as (-> & _). apply st_bind_ok in H as (ds & s3 & Hd & [-> _]%st_ret_ok).
    unfold DecisionRepository.decisions_relying_on in Hd. apply gets_ok in Hd as [-> _].
    apply list_elem_of_fmap in Hy as (e & -> & He). rewrite elem_of_sort_by in He.
    apply list_elem_of_bind in He as (e' & He & [Hof Hin]%elem_of_where_).
    apply list_elem_of_bind in He as (l & He & _). apply list_elem_of_singleton in He as ->. exists e'. split; [done|].
    split; [lia|done].
  - intros ctx q s r s' Hu Hs H. destruct (search_ends ctx q s Hu Hs r s' H) as (Hg & [_ Hc] & Ha). split; [by split|].
    intros a -> x (t & -> & Ht)%list_elem_of_fmap. by apply (Ha a eq_refl).
Qed.

(** C25. What an investigation sees is its tenant's.  Over the services with the shared
    cache of results, as the endpoint and the MCP tool build them, every id that a tool
    returns to the model, and so every id that an answer may cite, is a fact version
    or a decision of the caller's organization, however the model picks its tools and
    arguments and whatever statements other transactions run meanwhile within the
    constraints and triggers of the database, as long as the entries of the cache are
    of the organization of their key when the run starts and others keep them so;
    the run leaves them so itself.  It moves the database only as those others do: when
    they do nothing, it changes nothing. *)
Theorem investigation_sees_one_tenant `{ET : !ExceptionText} `{PD : !Pydantic} `{JL : !JsonLoads}
    `{GP : !GenerationProvider} prompt max_steps max_tool_calls max_output_tokens between ctx question run_id
    (s : db * C) r s' :
  is_uuid (ctx_organization_id ctx) →
  (∀ n (s : db * C), consistent s.1 → cache_owned s.1 s.2 →
     G s.1 (between n s).1 ∧ cache_owned (between n s).1 (between n s).2) →
  consistent s.1 → cache_owned s.1 s.2 →
  investigate_with (BE := ServiceBackend (Some cache) clock others index) prompt max_steps max_tool_calls
    max_output_tokens between ctx question run_id (s, empty_ledger) = (r, s') →
  G s.1 s'.1.1 ∧ cache_owned s'.1.1 s'.1.2 ∧
  ∀ x, x ∈ tl_observed s'.2 → owned_id (ctx_organization_id ctx) s'.1.1 x.
Proof.
  intros Hu Hb Hd Hc H.
  apply (investigation_stays sound moves (λ org s, owned_id org s.1) prompt max_steps max_tool_calls max_output_tokens
    between) in H; [|intros n s0 [Hd0 Hc0] _; by apply Hb|done].
  destruct H as [Hg [_ Hx]]; [split; [by split|intros x Hx; by apply not_elem_of_nil in Hx]|].
  destruct (Hg (conj Hd Hc)) as [Hg1 Hg2]. by split.
Qed.

End services.

(** * The stored trace *)

(** The run [i] is kept for [ctx]: read back by the user who asked, and by nobody else. *)
Definition stored_for (ctx : TenantContext) (i : Investigation) (d : db) : Prop :=
  run_row ctx i ∈ tab d AgentRuns ∧
  (∀ role, require_permission ctx READ_DECISIONS d = (Ok role, d) →
     get_investigation ctx (iv_run_id i) d = (Ok i, d)) ∧
  (∀ other j d', ctx_user_id other ≠ ctx_user_id ctx ∨ ctx_organization_id other ≠ ctx_organization_id ctx →
     get_investigation other (iv_run_id i) d ≠ (Ok j, d')).

Lemma from_row_row ctx i : from_row (run_row ctx i) = i.
Proof. by destruct i. Qed.

Section trace.
Context `{UD : !UnicodeData} `{FR : !FloatRepr} `{ET : !ExceptionText} `{SO : !ScoreOps} `{SE : !SearchEngine}.
Context `{PD : !Pydantic} `{JL : !JsonLoads} `{GP : !GenerationProvider}.
Context {C : Type} `{BE : !InvestigatorBackend (db * C)}.
Context (prompt : PromptTemplate) (max_steps max_tool_calls max_output_tokens : Z).
Context (between : Z → db * C → db * C).

Abbreviation investigate' := (investigate prompt max_steps max_tool_calls max_output_tokens between) (only parsing).
Abbreviation run' := (λ ctx question run_id, with_ledger
  (investigate_with prompt max_steps max_tool_calls max_output_tokens between ctx question run_id)) (only parsing).

Lemma run_ids_unique ctx i d : insert_checks AgentRuns (run_row ctx i) d = Ok () →
  ∀ x, x ∈ tab d AgentRuns → ar_id x ≠ iv_run_id i.
Proof.
  unfold insert_checks. intros H x Hx. destruct (checks _); [|done].
  rewrite for_all_ok in H. apply H in Hx. unfold compatible, pair_checks, agent_run_pair, uq in Hx. cbn [checks] in Hx.
  destruct (ar_id x =? ar_id (run_row ctx i)) eqn:E; [done|]. by apply Z.eqb_neq in E.
Qed.

Lemma stored_read ctx i d d' : insert_checks AgentRuns (run_row ctx i) d = Ok () →
  tab d' AgentRuns = tab d AgentRuns ++ [run_row ctx i] → stored_for ctx i d'.
Proof.
  intros Hc T. pose proof (run_ids_unique _ _ _ Hc) as Hu.
  assert (Hw : ∀ org user, where_ (λ r, (ar_organization_id r =? org) && (ar_id r =? iv_run_id i)
      && (ar_requested_by_user_id r =? user)) (tab d' AgentRuns)
    = if (ctx_organization_id ctx =? org) && (ctx_user_id ctx =? user) then [run_row ctx i] else []).
  { intros org user. rewrite T, where_app. rewrite (proj2 (where_nil_iff _ (tab d AgentRuns))).
    - unfold where_. cbn [List.filter app run_row ar_organization_id ar_id ar_requested_by_user_id]. rewrite Z.eqb_refl, andb_true_r.
      by destruct ((_ =? org) && _).
    - intros x Hx. apply Hu, Z.eqb_neq in Hx. by rewrite Hx, andb_false_r. }
  split; [rewrite T; apply elem_of_app; right; by apply list_elem_of_singleton|]. split.
  - intros role Hp. unfold get_investigation, transaction. erewrite st_bind_eq; [|exact Hp].
    unfold mbind, st_bind, select, gets. rewrite Hw, !Z.eqb_refl. cbn [andb]. unfold mret, st_ret.
    by rewrite from_row_row.
  - intros other j d2 Hne. unfold get_investigation. intros H. apply (proj1 (transaction_ok _ _ _ _)) in H.
    apply st_bind_ok in H as (role & d1 & Hp & H). apply require_permission_ok in Hp as (-> & _).
    apply st_bind_ok in H as (rows & d3 & [-> ->]%(select_ok AgentRuns) & H). rewrite Hw in H.
    destruct (_ && _) eqn:E; [|by apply raise_ok in H]. apply andb_true_iff in E as [E1%Z.eqb_eq E2%Z.eqb_eq].
    destruct Hne; congruence.
Qed.

(** Saving a run, on both branches. *)
Lemma save_cases ctx i (s : db * C) :
  (∃ d, insert_checks AgentRuns (run_row ctx i) s.1 = Ok () ∧ save ctx i s = (Ok (), (d, s.2)) ∧
     frame [AgentRuns] s.1 d ∧ stored_for ctx i d) ∨
  (∃ e, insert_checks AgentRuns (run_row ctx i) s.1 = Err e ∧ save ctx i s = (Err e, s)).
Proof.
  destruct s as [d0 c]. unfold save, on_db. cbn [fst snd].
  destruct (exec_insert_cases AgentRuns (run_row ctx i) d0 eq_refl) as [(e & Hc & E)|(Hc & d & E & F & T)].
  - right. exists e. split; [done|]. unfold transaction. by rewrite E.
  - left. exists d. split; [done|]. unfold transaction. rewrite E. split; [done|]. split; [done|].
    by eapply stored_read.
Qed.

(** C26. Every investigation that ran to an outcome - answered or not, out of steps, or failed
    by its model - is stored, and is read back unchanged by the user who asked for it and by
    nobody else; or its row is one that the database refuses, and then the caller gets the
    database's error instead of the result and nothing is stored.  A run that another
    exception cuts short (a reply the agent cannot read, an error of the database in a
    tool) is not stored: the caller gets that exception, and the state is the one in which
    it struck. *)
Theorem every_run_is_stored_or_refused ctx question run_id (s : db * C) rf rd r s1 :
  require_permission ctx READ_FACTS s.1 = (Ok rf, s.1) →
  require_permission ctx READ_DECISIONS s.1 = (Ok rd, s.1) →
  run' ctx question run_id s = (r, s1) →
  match r with
  | Ok e =>
    let i := run_of_end e in
    (∃ d, investigate' ctx question run_id s
          = (match e with Finished i => Ok i | Failed cause _ => Err (InvestigationError cause) end, (d, s1.2)) ∧
       frame [AgentRuns] s1.1 d ∧ iv_run_id i = run_id ∧ stored_for ctx i d) ∨
    (∃ x, insert_checks AgentRuns (run_row ctx i) s1.1 = Err x ∧
       investigate' ctx question run_id s = (Err x, s1))
  | Err x => investigate' ctx question run_id s = (Err x, s1)
  end.
Proof.
  intros Hf Hd Hrun. destruct r as [e|x].
  2:{ unfold investigate. erewrite st_bind_eq.
      2:{ unfold on_db, transaction. erewrite st_bind_eq by exact Hf. rewrite Hd. by destruct s. }
      unfold mbind, st_bind. by rewrite Hrun. }
  set (i := run_of_end e). cbv zeta.
  assert (Hid : iv_run_id i = run_id).
  { unfold with_ledger in Hrun. destruct (investigate_with _ _ _ _ _ _ _ _ _) as [r s2] eqn:E.
    injection Hrun as -> <-. unfold investigate_with in E. destruct (_ || _); [done|].
    destruct (pt_output_schema prompt); [|done]. apply st_bind_ok in E as (? & ? & [_ ->]%lift_ok & E).
    apply st_bind_ok in E as (e0 & s3 & Hl & E). apply st_bind_ok in E as (l & ? & [-> ->]%gets_ok & [-> ->]%st_ret_ok).
    apply loop_ends in Hl as (_ & Hid & _); [|done|by split_and!|].
    2:{ change (0 ≤ Z.min 0 (Z.max 0 max_tool_calls)). lia. }
    unfold i. destruct e0; exact Hid. }
  assert (E : investigate' ctx question run_id s
    = (_ ← save ctx i; match e with Finished i => mret i | Failed cause _ => raise (InvestigationError cause) end) s1).
  { unfold investigate. erewrite st_bind_eq.
    2:{ unfold on_db, transaction. erewrite st_bind_eq by exact Hf. rewrite Hd. by destruct s. }
    erewrite st_bind_eq by exact Hrun. unfold i. by destruct e. }
  destruct (save_cases ctx i s1) as [(d & _ & Hs & F & St)|(x & Hc & Hs)].
  - left. exists d. split; [|done]. rewrite E. erewrite st_bind_eq by exact Hs. by destruct e.
  - right. exists x. split; [done|]. rewrite E. unfold mbind, st_bind. by rewrite Hs.
Qed.

(** A citation that the model invented may cost the run its trace.  When an id that
    no tool returned holds a NUL or a lone surrogate, which JSON from a model may, the
    run is not stored as ungrounded: the database refuses the row, the caller gets its
    error, and nothing is left of the run. *)
Theorem an_invented_id_may_lose_the_trace ctx question run_id (s : db * C) rf rd i s1 x :
  require_permission ctx READ_FACTS s.1 = (Ok rf, s.1) →
  require_permission ctx READ_DECISIONS s.1 = (Ok rd, s.1) →
  run' ctx question run_id s = (Ok (Finished i), s1) → x ∈ iv_rejected_ids i → text_ok x = false →
  ∃ msg, investigate' ctx question run_id s = (Err (DataError msg), s1).
Proof.
  intros Hf Hd Hrun Hx Ht.
  assert (Hc : ∃ msg, insert_checks AgentRuns (run_row ctx i) s1.1 = Err (DataError msg)).
  { assert (Hr : forallb text_ok (iv_rejected_ids i) = false).
    { destruct (forallb text_ok _) eqn:E; [|done]. pose proof (forallb_elem _ _ _ E Hx). congruence. }
    unfold insert_checks, row_checks, agent_run_checks.
    cbn [checks run_row ar_agent ar_question ar_answer ar_prompt_version ar_model ar_error ar_cited_ids ar_rejected_ids].
    rewrite Hr, andb_false_r. destruct (_ && text_opt_ok (iv_error i)); by eexists. }
  destruct Hc as [msg Hc]. exists msg. unfold investigate. erewrite st_bind_eq.
  2:{ unfold on_db, transaction. erewrite st_bind_eq by exact Hf. rewrite Hd. by destruct s. }
  erewrite st_bind_eq by exact Hrun. destruct (save_cases ctx i s1) as [(d & Hok & _)|(y & Hy & Hs)]; [congruence|].
  unfold mbind, st_bind. rewrite Hs. congruence.
Qed.

End trace.
