(* ===== verification/Revocations.v ===== *)
(** Revoking a fact version and reporting which decisions it reaches:
    services/revocations.py. *)

From S2P Require Import Prelude PyStr Json Regex Validation Access Temporal History Database.
From S2P Require Import Schema Accounts FactRepo EvidenceService Canonical FactService Ledger AppendOnly.
From S2P Require Import TemporalService Ranking Retrieval Calendar Encoding Decisions Receipts.
From S2P Require Import Sealing.

Definition MAX_REASON_CHARS : Z := 2000.
Definition MAX_LIST : Z := 100.

Record ImpactedDecision := {
  im_decision_id : UUID; im_snapshot_id : UUID; im_action : pystr; im_agent : option pystr;
  im_decided_at : Instant; im_relied_on : bool; im_recorded_at_revocation : bool;
  im_decided_after_revocation : bool }.

Record RevocationReport := {
  rp_revocation_id : UUID; rp_fact_id : UUID; rp_entity_type : pystr; rp_external_id : pystr;
  rp_property : pystr; rp_version : VersionSnapshot; rp_reason : pystr;
  rp_revoked_by_user_id : UUID; rp_revoked_at : Instant; rp_decisions : list ImpactedDecision;
  rp_decisions_relied_on : Z; rp_decisions_with_version_in_context : Z }.

(** [EXISTS (SELECT ... FROM decision_facts ...)] *)
Definition cites_version (d : db) (version_id : UUID) (x : decision) : bool :=
  exists_row DecisionFacts
    (λ y, (df_organization_id y =? d_organization_id x) && (df_decision_id y =? d_id x)
          && (df_fact_version_id y =? version_id)) d.

(** [_decisions_with]: decisions whose frozen context contained the version,
    ORDER BY decided_at, id. *)
Definition decisions_with_rows (d : db) (org version_id : UUID) : list (decision * bool) :=
  sort_by (λ a b, DecisionRepository.by_decided a.1 b.1) (
    x ← where_ (λ x, d_organization_id x =? org) (tab d Decisions);
    _ ← where_ (λ sf, (sf_organization_id sf =? d_organization_id x)
                      && (sf_snapshot_id sf =? d_snapshot_id x)
                      && (sf_fact_version_id sf =? version_id)) (tab d SnapshotFacts);
    [(x, cites_version d version_id x)]).

Definition decisions_with (org version_id : UUID) : DB (list (decision * bool)) :=
  gets (λ d, decisions_with_rows d org version_id).

(** The version, fact and entity a revocation is about. *)
Definition described (org version_id : UUID) : DB (fact_version * fact * entity) :=
  rows ← gets (λ d,
    v ← where_ (λ v, (fv_organization_id v =? org) && (fv_id v =? version_id)) (tab d FactVersions);
    f ← where_ (fact_of v) (tab d Facts);
    e ← where_ (entity_of f) (tab d Entities);
    [(v, f, e)]);
  lift (one rows).

Definition impacted (stored : list UUID) (x : decision * bool) : ImpactedDecision := {|
  im_decision_id := d_id x.1; im_snapshot_id := d_snapshot_id x.1; im_action := d_action x.1;
  im_agent := d_agent x.1; im_decided_at := d_decided_at x.1; im_relied_on := x.2;
  im_recorded_at_revocation := bool_decide (d_id x.1 ∈ stored);
  im_decided_after_revocation := negb (bool_decide (d_id x.1 ∈ stored)) |}.

Definition report (org : UUID) (revocation : fact_revocation) : DB RevocationReport :=
  r ← described org (r_fact_version_id revocation);
  let '(version, fact, entity) := r in
  impacts ← select RevocationImpacts
    (λ i, (ri_organization_id i =? org) && (ri_revocation_id i =? r_id revocation));
  with_version ← decisions_with org (fv_id version);
  let decisions := map (impacted (map ri_decision_id impacts)) with_version in
  mret {| rp_revocation_id := r_id revocation; rp_fact_id := f_id fact;
          rp_entity_type := e_entity_type entity; rp_external_id := e_external_id entity;
          rp_property := f_property fact; rp_version := to_snapshot version;
          rp_reason := r_reason revocation;
          rp_revoked_by_user_id := r_revoked_by_user_id revocation;
          rp_revoked_at := r_revoked_at revocation; rp_decisions := decisions;
          rp_decisions_relied_on := zlen (where_ im_relied_on decisions);
          rp_decisions_with_version_in_context := zlen decisions |}.

(** [session.scalar(select(FactRevocation.id)...)] is not None *)
Definition already_revoked (org version_id : UUID) : DB bool :=
  gets (exists_row FactRevocations
    (λ r, (r_organization_id r =? org) && (r_fact_version_id r =? version_id))).

Definition impact_of (revocation : fact_revocation) (version_id : UUID) (x : decision * bool) :
    revocation_impact := {|
  ri_organization_id := r_organization_id revocation; ri_revocation_id := r_id revocation;
  ri_decision_id := d_id x.1; ri_snapshot_id := d_snapshot_id x.1;
  ri_fact_version_id := version_id; ri_relied_on := x.2 |}.

(** From the new row to the report. *)
Definition write_revocation (ctx : TenantContext) (version : fact_version) (reason : pystr) :
    DB RevocationReport :=
  i ← fresh_id;
  now ← gets db_now;
  let revocation := {|
    r_id := i; r_organization_id := ctx_organization_id ctx; r_fact_version_id := fv_id version;
    r_reason := reason; r_revoked_by_user_id := ctx_user_id ctx;
    r_agent_client_id := ctx_agent_client_id ctx; r_revoked_at := now |} in
  _ ← exec_insert FactRevocations revocation;
  with_version ← decisions_with (ctx_organization_id ctx) (fv_id version);
  _ ← mapM_ (exec_insert RevocationImpacts) (map (impact_of revocation (fv_id version)) with_version);
  report (ctx_organization_id ctx) revocation.

Definition revoke (ctx : TenantContext) (fact_id : UUID) (reason : pystr) (version_id : option UUID) :
    DB RevocationReport :=
  let reason := strip reason in
  if bool_decide (reason = []) || (MAX_REASON_CHARS <? zlen reason)
  then raise (ValidationFailedError "reason must be 1-{MAX_REASON_CHARS} characters")
  else transaction (
    role ← require_permission ctx WRITE_FACTS;
    _ ← require_permission ctx READ_DECISIONS;
    f ← FactRepository.get_fact (ctx_organization_id ctx) fact_id;
    match f with
    | None => raise (NotFoundError "fact not found")
    | Some _ =>
      _ ← FactRepository.lock_fact (ctx_organization_id ctx) fact_id;
      version ← match version_id with
                | None => FactRepository.latest_version (ctx_organization_id ctx) fact_id
                | Some i => FactRepository.get_version (ctx_organization_id ctx) i
                end;
      let visible := visible_privacy_scopes role [ctx_max_privacy_scope ctx] in
      match version with
      | None => raise (NotFoundError "fact version not found")
      | Some v =>
        if negb (fv_fact_id v =? fact_id) || negb (bool_decide (fv_privacy_scope v ∈ visible))
        then raise (NotFoundError "fact version not found")
        else
          existing ← already_revoked (ctx_organization_id ctx) (fv_id v);
          if existing : bool then raise (ConflictError "this fact version is already revoked")
          else write_revocation ctx v reason
      end
    end).

(** [_readable] *)
Definition readable (ctx : TenantContext) : DB (list PrivacyScope) :=
  role ← require_permission ctx READ_FACTS;
  _ ← require_permission ctx READ_DECISIONS;
  mret (visible_privacy_scopes role [ctx_max_privacy_scope ctx]).

(** Revocations of the tenant joined with their version, filtered. *)
Definition revocations_where (org : UUID) (visible : list PrivacyScope)
    (p : fact_revocation → fact_version → bool) : DB (list fact_revocation) :=
  gets (λ d,
    r ← where_ (λ r, r_organization_id r =? org) (tab d FactRevocations);
    v ← where_ (λ v, (fv_organization_id v =? r_organization_id r)
                     && (fv_id v =? r_fact_version_id r)) (tab d FactVersions);
    if p r v && bool_decide (fv_privacy_scope v ∈ visible) then [r] else []).

Definition impact_of_fact (ctx : TenantContext) (fact_id : UUID) : DB (list RevocationReport) :=
  transaction (
    visible ← readable ctx;
    f ← FactRepository.get_fact (ctx_organization_id ctx) fact_id;
    match f with
    | None => raise (NotFoundError "fact not found")
    | Some _ =>
      rows ← revocations_where (ctx_organization_id ctx) visible (λ _ v, fv_fact_id v =? fact_id);
      mapM_ (report (ctx_organization_id ctx)) (sort_on r_revoked_at rows)
    end).

Definition impact_of_version (ctx : TenantContext) (version_id : UUID) : DB RevocationReport :=
  transaction (
    visible ← readable ctx;
    rows ← revocations_where (ctx_organization_id ctx) visible
             (λ r _, r_fact_version_id r =? version_id);
    match head rows with
    | None => raise (NotFoundError "revocation not found")
    | Some r => report (ctx_organization_id ctx) r
    end).

(** ORDER BY revoked_at DESC, id *)
Definition newest_first (a b : fact_revocation) : bool :=
  (r_revoked_at b <? r_revoked_at a)
  || ((r_revoked_at a =? r_revoked_at b) && (r_id a <=? r_id b)).

Definition list_revocations (ctx : TenantContext) (limit : Z) : DB (list RevocationReport) :=
  if negb ((1 <=? limit) && (limit <=? MAX_LIST))
  then raise (ValidationFailedError "limit must be between 1 and {MAX_LIST}")
  else transaction (
    visible ← readable ctx;
    rows ← revocations_where (ctx_organization_id ctx) visible (λ _ _, true);
    mapM_ (report (ctx_organization_id ctx)) (take (Z.to_nat limit) (sort_by newest_first rows))).

(** * What a revocation does *)

Lemma described_state org i x d d' : described org i d = (Ok x, d') → d' = d.
Proof.
  unfold described. intros H. apply st_bind_ok in H as (rows & s1 & [_ ->]%gets_ok & [_ ->]%lift_ok). done.
Qed.

Lemma report_ok org r rep d d' :
  report org r d = (Ok rep, d') →
  d' = d ∧ rp_revocation_id rep = r_id r ∧ vs_id (rp_version rep) = r_fact_version_id r ∧
  rp_decisions rep = map (impacted (map ri_decision_id (where_ (λ i, (ri_organization_id i =? org)
      && (ri_revocation_id i =? r_id r)) (tab d RevocationImpacts))))
    (decisions_with_rows d org (r_fact_version_id r)) ∧
  rp_decisions_relied_on rep = zlen (where_ im_relied_on (rp_decisions rep)) ∧
  rp_decisions_with_version_in_context rep = zlen (rp_decisions rep).
Proof.
  intros H. unfold report in H. apply st_bind_ok in H as ([[v f] e] & s1 & Hd & H).
  pose proof (described_state _ _ _ _ _ Hd) as ->.
  apply st_bind_ok in H as (imp & s2 & [-> ->]%(select_ok RevocationImpacts) & H).
  apply st_bind_ok in H as (ws & s3 & [-> ->]%gets_ok & [-> ->]%st_ret_ok). cbn [row].
  assert (fv_id v = r_fact_version_id r) as Hv.
  { unfold described in Hd. apply st_bind_ok in Hd as (rows & ? & [-> ->]%gets_ok & [Hone _]%lift_ok).
    assert (Hin : (v, f, e) ∈ (v ← where_ (λ v, (fv_organization_id v =? org) && (fv_id v =? r_fact_version_id r)) (tab d FactVersions);
      f ← where_ (fact_of v) (tab d Facts); e ← where_ (entity_of f) (tab d Entities); [(v, f, e)])).
    { destruct (_ ≫= _) as [|x [|y l]]; try discriminate Hone. injection Hone as ->. by left. }
    apply list_elem_of_bind in Hin as (v' & Hin & [Hp _]%elem_of_where_).
    apply list_elem_of_bind in Hin as (f' & Hin & _). apply list_elem_of_bind in Hin as (e' & Hin & _).
    apply list_elem_of_singleton in Hin as [= -> -> ->]. rewrite andb_true_iff, !Z.eqb_eq in Hp. tauto. }
  rewrite Hv. split_and!; done.
Qed.

Lemma decisions_with_ext d d' org i :
  (∀ t, t ∈ [Decisions; SnapshotFacts; DecisionFacts] → tab d' t = tab d t) →
  decisions_with_rows d' org i = decisions_with_rows d org i.
Proof.
  intros H. unfold decisions_with_rows, cites_version, exists_row. by rewrite !H by set_solver.
Qed.

(** The decisions reached: those of the tenant whose snapshot holds the version. *)
Lemma elem_of_decisions_with d org i x b :
  (x, b) ∈ decisions_with_rows d org i ↔
  x ∈ tab d Decisions ∧ d_organization_id x = org ∧ b = cites_version d i x ∧
  ∃ sf, sf ∈ tab d SnapshotFacts ∧ sf_organization_id sf = org ∧
        sf_snapshot_id sf = d_snapshot_id x ∧ sf_fact_version_id sf = i.
Proof.
  unfold decisions_with_rows. rewrite elem_of_sort_by, list_elem_of_bind. split.
  - intros (y & Hy & [Ho Hin]%elem_of_where_). apply Z.eqb_eq in Ho.
    apply list_elem_of_bind in Hy as (sf & [= -> ->]%list_elem_of_singleton & [Hp Hsf]%elem_of_where_).
    rewrite !andb_true_iff, !Z.eqb_eq in Hp. split_and!; try done. exists sf. intuition congruence.
  - intros (Hin & Ho & -> & sf & Hsf & Hso & Hss & Hsv). exists x. split; [|apply elem_of_where_; by rewrite Z.eqb_eq].
    apply list_elem_of_bind. exists sf. split; [by left|]. apply elem_of_where_. split; [|done].
    rewrite !andb_true_iff, !Z.eqb_eq. intuition congruence.
Qed.

Lemma get_fact_state org i f d d' : FactRepository.get_fact org i d = (Ok f, d') → d' = d.
Proof.
  unfold FactRepository.get_fact. intros H.
  by apply st_bind_ok in H as (rows & s1 & [_ ->]%(select_ok Facts) & [_ ->]%lift_ok).
Qed.

Lemma latest_version_in org i v d d' :
  FactRepository.latest_version org i d = (Ok (Some v), d') →
  d' = d ∧ v ∈ tab d FactVersions ∧ fv_organization_id v = org.
Proof.
  unfold FactRepository.latest_version. intros H.
  apply st_bind_ok in H as (rows & s1 & [-> ->]%(select_ok FactVersions) & [E ->]%st_ret_ok).
  cbn [row] in E. split; [done|].
  assert (Hin : v ∈ sort_by (λ a b, fv_version b <=? fv_version a)
                      (where_ (FactRepository.of_fact org i) (tab d FactVersions))).
  { destruct (sort_by _ _); [done|]. injection E as ->. by left. }
  rewrite elem_of_sort_by in Hin. apply elem_of_where_ in Hin as [Hp Hin].
  unfold FactRepository.of_fact in Hp. rewrite andb_true_iff, !Z.eqb_eq in Hp. tauto.
Qed.

Lemma get_version_in org i v d d' :
  FactRepository.get_version org i d = (Ok (Some v), d') →
  d' = d ∧ v ∈ tab d FactVersions ∧ fv_organization_id v = org.
Proof.
  unfold FactRepository.get_version. intros H.
  apply st_bind_ok in H as (rows & s1 & [-> ->]%(select_ok FactVersions) & [E ->]%lift_ok).
  cbn [row] in E. split; [done|]. apply one_or_none_ok in E.
  assert (Hin : v ∈ where_ (λ v, (fv_organization_id v =? org) && (fv_id v =? i)) (tab d FactVersions))
    by (rewrite E; by left).
  apply elem_of_where_ in Hin as [Hp Hin]. rewrite andb_true_iff, !Z.eqb_eq in Hp. tauto.
Qed.

Lemma version_lookup_state (o : option UUID) org i v d d' :
  match o with None => FactRepository.latest_version org i | Some j => FactRepository.get_version org j end d
    = (Ok v, d') → d' = d.
Proof.
  destruct o; unfold FactRepository.latest_version, FactRepository.get_version; intros H;
    apply st_bind_ok in H as (rows & s1 & [_ ->]%(select_ok FactVersions) & H).
  - by apply lift_ok in H as [_ ->].
  - by apply st_ret_ok in H as [_ ->].
Qed.

(** A successful revocation, step by step. *)
Lemma revoke_ok ctx fact_id reason vid d rep d' :
  revoke ctx fact_id reason vid d = (Ok rep, d') →
  ∃ role v, current_role d (ctx_organization_id ctx) (ctx_user_id ctx) role ∧
    has_permission role WRITE_FACTS = true ∧ has_permission role READ_DECISIONS = true ∧
    v ∈ tab d FactVersions ∧ fv_organization_id v = ctx_organization_id ctx ∧ fv_fact_id v = fact_id ∧
    fv_privacy_scope v ∈ visible_privacy_scopes role [ctx_max_privacy_scope ctx] ∧
    exists_row FactRevocations (λ r, (r_organization_id r =? ctx_organization_id ctx)
      && (r_fact_version_id r =? fv_id v)) d = false ∧
    1 ≤ zlen (strip reason) ≤ MAX_REASON_CHARS ∧
    write_revocation ctx v (strip reason) d = (Ok rep, d').
Proof.
  unfold revoke. destruct (bool_decide (strip reason = []) || _) eqn:Hlen; [by intros []%raise_ok|].
  rewrite orb_false_iff, bool_decide_eq_false, Z.ltb_ge in Hlen. destruct Hlen as [Hne Hle].
  intros H. apply (proj1 (transaction_ok _ _ _ _)) in H.
  apply st_bind_ok in H as (role & s1 & Hp & H). apply require_permission_ok in Hp as (-> & Hr & Hw & _).
  apply st_bind_ok in H as (role' & s2 & Hp & H). apply require_permission_ok in Hp as (-> & Hr' & Hd & _).
  assert (role' = role) as ->.
  { destruct Hr as (_ & m & Hm & <-), Hr' as (_ & m' & Hm' & <-). rewrite Hm in Hm'. by injection Hm' as ->. }
  apply st_bind_ok in H as ([f|] & s3 & Hf & H); [|by apply raise_ok in H].
  pose proof (get_fact_state _ _ _ _ _ Hf) as ->.
  apply st_bind_ok in H as (u & s4 & Hl & H).
  assert (s4 = d) as ->.
  { unfold FactRepository.lock_fact in Hl.
    by apply st_bind_ok in Hl as (rows & s5 & [_ ->]%(select_ok Facts) & [_ ->]%st_ret_ok). }
  apply st_bind_ok in H as ([v|] & s5 & Hv & H); [|by apply raise_ok in H].
  assert (Hvin : v ∈ tab d FactVersions ∧ fv_organization_id v = ctx_organization_id ctx).
  { destruct vid; [by apply get_version_in in Hv as (_ & ?)|by apply latest_version_in in Hv as (_ & ?)]. }
  pose proof (version_lookup_state _ _ _ _ _ _ Hv) as ->.
  destruct (negb (fv_fact_id v =? fact_id) || _) eqn:Hc; [by apply raise_ok in H|].
  rewrite orb_false_iff, !negb_false_iff, Z.eqb_eq, bool_decide_eq_true in Hc. destruct Hc as [Hfid Hvis].
  apply st_bind_ok in H as (existing & s6 & [-> ->]%gets_ok & H).
  destruct (exists_row FactRevocations _ d) eqn:He; [by apply raise_ok in H|].
  exists role, v. split_and!; try done; try tauto.
  unfold zlen. destruct (strip reason); [done|]. simpl. lia.
Qed.

(** One revocation has one impact for each decision. *)
Lemma impacts_distinct r i l :
  StronglySorted (λ x y, compatible RevocationImpacts x y = Ok ()) (map (impact_of r i) l) →
  NoDup (map (λ x, d_id x.1) l).
Proof.
  induction l as [|x l IH]; cbn [map]; [constructor|]. intros [Hs Hx]%StronglySorted_inv. constructor; [|by apply IH].
  intros (y & Hd & Hy)%list_elem_of_fmap. rewrite Forall_forall in Hx.
  specialize (Hx (impact_of r i y) ltac:(by apply list_elem_of_fmap_2)). cbn in Hx. by rewrite Hd, !Z.eqb_refl in Hx.
Qed.

(** What [write_revocation] writes. *)
Lemma write_revocation_ok ctx v reason d rep d' :
  write_revocation ctx v reason d = (Ok rep, d') →
  ∃ r, r_organization_id r = ctx_organization_id ctx ∧ r_fact_version_id r = fv_id v ∧
    r_reason r = reason ∧ r_revoked_by_user_id r = ctx_user_id ctx ∧ r_revoked_at r = db_now d ∧
    frame [FactRevocations; RevocationImpacts] d d' ∧
    tab d' FactRevocations = tab d FactRevocations ++ [r] ∧
    tab d' RevocationImpacts = tab d RevocationImpacts
      ++ map (impact_of r (fv_id v)) (decisions_with_rows d (ctx_organization_id ctx) (fv_id v)) ∧
    report (ctx_organization_id ctx) r d' = (Ok rep, d') ∧
    NoDup (map (λ x, d_id x.1) (decisions_with_rows d (ctx_organization_id ctx) (fv_id v))).
Proof.
  intros H. unfold write_revocation in H.
  apply st_bind_ok in H as (i & s1 & [-> ->]%fresh_id_ok & H).
  apply st_bind_ok in H as (now & s2 & [-> ->]%gets_ok & H).
  set (r := {| r_id := db_next d |}) in H. fold r in H.
  apply st_bind_ok in H as (u & s3 & Hi & H). apply exec_insert_ok in Hi as (_ & F1 & T1); [|done].
  apply st_bind_ok in H as (ws & s4 & [-> ->]%gets_ok & H).
  apply st_bind_ok in H as (us & s5 & Hm & H). pose proof (insert_all_compatible RevocationImpacts _ _ _ _ eq_refl Hm) as Hd.
  apply insert_all_ok in Hm as (F2 & T2 & _); [|done].
  assert (E : decisions_with_rows s3 (ctx_organization_id ctx) (fv_id v)
              = decisions_with_rows d (ctx_organization_id ctx) (fv_id v)).
  { apply decisions_with_ext. intros t Ht. change (tab d t) with (tab (bump d) t).
    by apply (frame_reads _ _ _ _ _ F1 Ht). }
  rewrite E in T2, Hd. pose proof (report_ok _ _ _ _ _ H) as (-> & _).
  exists r. split_and!; try done.
  - eapply frame_trans; [apply frame_bump|]. eapply frame_trans.
    + eapply frame_weaken; [|exact F1]. intros t ->%list_elem_of_singleton. by left.
    + eapply frame_weaken; [|exact F2]. intros t ->%list_elem_of_singleton. by right; left.
  - by rewrite (frame_reads _ [FactRevocations] _ _ FactRevocations F2) by (done || by left).
  - rewrite T2. f_equal. by rewrite (frame_reads _ [RevocationImpacts] _ _ RevocationImpacts F1) by (done || by left).
  - by apply impacts_distinct in Hd.
Qed.

(** The revocation's flag, read off the table. *)
Lemma cites_version_true d i x : cites_version d i x = true ↔
  ∃ y, y ∈ tab d DecisionFacts ∧ df_organization_id y = d_organization_id x ∧ df_decision_id y = d_id x ∧
       df_fact_version_id y = i.
Proof.
  unfold cites_version. split.
  - intros (y & Hy & Hp)%exists_row_spec. rewrite !andb_true_iff, !Z.eqb_eq in Hp. exists y. tauto.
  - intros (y & Hy & Ho & Hd & Hv). apply exists_row_spec. exists y. split; [done|].
    by rewrite Ho, Hd, Hv, !Z.eqb_refl.
Qed.

Lemma none_revoked d org v : exists_row FactRevocations
    (λ r, (r_organization_id r =? org) && (r_fact_version_id r =? v)) d = false →
  ∀ r, r ∈ tab d FactRevocations → r_organization_id r = org → r_fact_version_id r ≠ v.
Proof.
  intros Hno r Hr Ho Hv. apply not_true_iff_false in Hno. apply Hno, exists_row_spec. exists r.
  split; [done|]. by rewrite Ho, Hv, !Z.eqb_refl.
Qed.

(** Decisions whose impact is stored were recorded at the revocation. *)
Lemma impacted_stored stored l m : (∀ x, x ∈ l → d_id x.1 ∈ stored) → m ∈ map (impacted stored) l →
  im_recorded_at_revocation m = true ∧ im_decided_after_revocation m = false.
Proof. intros Hl (x & -> & Hx)%list_elem_of_fmap. cbn. by rewrite bool_decide_eq_true_2 by by apply Hl. Qed.


Lemma known_by_none x : known_by x None = true.
Proof. done. Qed.

(** C22. Revocation is bitemporal: as known before it, every answer stays the same;
    as known from then on, the revoked version is never valid, and answers about
    other versions stay the same. *)
Theorem revocation_is_bitemporal ctx fact_id reason vid d rep d' :
  consistent d → revoke ctx fact_id reason vid d = (Ok rep, d') →
  (∀ t k w, k < db_now d → valid_at_condition t (Some k) d' w = valid_at_condition t (Some k) d w) ∧
  ∃ v, v ∈ tab d FactVersions ∧ vs_id (rp_version rep) = fv_id v ∧
    (∀ t k, (∀ k', k = Some k' → db_now d ≤ k') → valid_at_condition t k d' v = false) ∧
    (∀ t k w, fv_id w ≠ fv_id v → valid_at_condition t k d' w = valid_at_condition t k d w).
Proof.
  intros Hc H. apply revoke_ok in H as (role & v & _ & _ & _ & Hv & Ho & _ & _ & _ & _ & H).
  apply write_revocation_ok in H as (r & Hro & Hrv & _ & _ & Hra & F & T & _ & Hrep & _).
  apply report_ok in Hrep as (_ & _ & Hver & _).
  assert (Hrev : ∀ k w, revoked_as_known w k d' = revoked_as_known w k d ||
    ((r_organization_id r =? fv_organization_id w) && (r_fact_version_id r =? fv_id w)
     && known_by (db_now d) k)).
  { intros k w. unfold revoked_as_known, exists_row. rewrite T, existsb_app. simpl.
    by rewrite orb_false_r, Hra. }
  assert (Hcond : ∀ t k w, revoked_as_known w k d' = revoked_as_known w k d →
    valid_at_condition t k d' w = valid_at_condition t k d w).
  { intros t k w E. unfold valid_at_condition, not_revoked_condition. by destruct k; rewrite E. }
  split.
  - intros t k w Hk. apply Hcond. rewrite Hrev. unfold known_by.
    destruct (Z.leb_spec (db_now d) k); [lia|]. by rewrite andb_false_r, orb_false_r.
  - exists v. split_and!; [done|congruence| |].
    + intros t k Hk. assert (E : revoked_as_known v k d' = true).
      { rewrite Hrev, Hro, Ho, Hrv, !Z.eqb_refl. destruct k as [k|]; simpl; [|by rewrite orb_true_r].
        specialize (Hk k eq_refl). destruct (Z.leb_spec (db_now d) k); [|lia]. by rewrite orb_true_r. }
      unfold valid_at_condition, not_revoked_condition. destruct k; rewrite E; simpl; [done|].
      by rewrite andb_false_r.
    + intros t k w Hne. apply Hcond. rewrite Hrev, Hrv. destruct (Z.eqb_spec (fv_id v) (fv_id w)); [congruence|].
      by rewrite andb_false_r, orb_false_r.
Qed.
