(* ===== verification/ProvenanceGraph.v ===== *)
(** The provenance graph: property graphs, the Cypher statements of
    app/provenance/projection.py, and the writer of app/provenance/graph.py.  What
    a statement does to a graph is what Cypher says of MERGE, SET and FOREACH. *)

From stdpp Require Import gmap.
From S2P Require Import Prelude PyStr Json Validation Access Temporal Database Schema.
From S2P Require Import Canonical Regex Accounts FactRepo EvidenceService FactService Ledger.
From S2P Require Import TemporalService Ranking Retrieval Calendar Decisions.

(** * Property graphs *)

(** Values of properties; [str(uuid)] stands for the UUID, and a confidence is a
    float of so many thousandths. *)
Inductive gvalue :=
  | GUuid (u : UUID) | GStr (s : pystr) | GInt (n : Z) | GTime (t : Instant) | GFloat (thousandths : Z).
#[export] Instance gvalue_eq_dec : EqDecision gvalue.
Proof. solve_decision. Defined.

Abbreviation props := (gmap string gvalue) (only parsing).

(** A node is found by its label and its [id] (unique per label, [ensure_schema]);
    a relationship by its type and its ends: MERGE never makes a second one. *)
Abbreviation node_key := (string * UUID)%type (only parsing).
Abbreviation rel_key := (string * (string * UUID) * (string * UUID))%type (only parsing).

Record graph := { nodes : gmap node_key props; rels : gmap rel_key props }.

Definition empty_graph : graph := {| nodes := ∅; rels := ∅ |}.

(** [SET x.p = v]: a null removes the property. *)
Definition set_prop (m : props) (a : string * option gvalue) : props :=
  match a.2 with Some v => <[a.1 := v]> m | None => delete a.1 m end.
Definition set_props (vals : list (string * option gvalue)) (m : props) : props :=
  fold_left set_prop vals m.
Arguments set_props : simpl never.

(** What one clause does once the row's values are known. *)
Inductive effect :=
  | Put (k : node_key) (vals : list (string * option gvalue))   (* MERGE (x:L {id}) SET ... *)
  | Ref (k : node_key) (org : option gvalue)                    (* MERGE (x:L {id}) ON CREATE SET x.org *)
  | Link (k : rel_key) (vals : list (string * option gvalue)).  (* MERGE (a)-[r:T]->(b) SET ... *)

Definition apply_effect (g : graph) (e : effect) : graph :=
  match e with
  | Put k vals =>
      {| nodes := <[k := set_props vals (default ∅ (nodes g !! k))]> (nodes g); rels := rels g |}
  | Ref k org =>
      {| nodes := match nodes g !! k with
                  | Some _ => nodes g
                  | None => <[k := set_props [("org"%string, org)] ∅]> (nodes g)
                  end; rels := rels g |}
  | Link k vals =>
      {| nodes := nodes g; rels := <[k := set_props vals (default ∅ (rels g !! k))]> (rels g) |}
  end.

(** * Cypher *)

(** A row of [$rows]; a key it lacks is null. *)
Abbreviation graph_row := (list (string * option gvalue)) (only parsing).

Definition col (r : graph_row) (c : string) : option gvalue :=
  match List.find (λ kv, String.eqb kv.1 c) r with Some kv => kv.2 | None => None end.

(** A variable stands for the node it was merged on: its label and the column that
    holds its id. *)
Abbreviation node_var := (string * string)%type (only parsing).

Inductive clause :=
  | MERGE_SET (x : node_var) (sets : list (string * string))     (* property, column *)
  | MERGE_ON_CREATE (x : node_var)                               (* ON CREATE SET x.org = r.org *)
  | MERGE_REL (x : node_var) (type : string) (y : node_var) (sets : list (string * string))
  | FOREACH_NOT_NULL (column : string) (x : node_var) (type : string) (y : node_var).
      (* MERGE (y) ON CREATE SET y.org = r.org  MERGE (x)-[type]->(y) *)

(** MERGE on a null property is an error. *)
Definition node_of (r : graph_row) (x : node_var) : result node_key :=
  match col r x.2 with
  | Some (GUuid u) => Ok (x.1, u)
  | _ => Err (LibraryError "CypherSyntaxError")
  end.

Definition columns (r : graph_row) (sets : list (string * string)) : list (string * option gvalue) :=
  map (λ s, (s.1, col r s.2)) sets.

Definition clause_effects (r : graph_row) (c : clause) : result (list effect) :=
  match c with
  | MERGE_SET x sets => k ← node_of r x; Ok [Put k (columns r sets)]
  | MERGE_ON_CREATE x => k ← node_of r x; Ok [Ref k (col r "org")]
  | MERGE_REL x type y sets =>
      a ← node_of r x; b ← node_of r y; Ok [Link (type, a, b) (columns r sets)]
  | FOREACH_NOT_NULL column x type y =>
      match col r column with
      | None => Ok []
      | Some _ => a ← node_of r x; b ← node_of r y;
                  Ok [Ref b (col r "org"); Link (type, a, b) []]
      end
  end.

Definition row_effects (clauses : list clause) (r : graph_row) : result (list effect) :=
  es ← mapR (clause_effects r) clauses; Ok (concat es).

(** * CYPHER *)

Definition same_name (names : list string) : list (string * string) := map (λ n, (n, n)) names.

Definition CYPHER (t : table) : list clause :=
  (match t with
  | Entities =>
      [MERGE_SET ("Entity", "id") (same_name ["org"; "entity_type"; "external_id"])]
  | Facts =>
      [MERGE_SET ("Fact", "id") (same_name ["org"; "property"]);
       MERGE_ON_CREATE ("Entity", "entity_id");
       MERGE_REL ("Fact", "id") "OF_ENTITY" ("Entity", "entity_id") []]
  | FactSources =>
      [MERGE_SET ("Source", "id") (same_name ["org"; "name"; "source_type"; "default_authority"])]
  | FactVersions =>
      [MERGE_SET ("FactVersion", "id") (same_name
         ["org"; "version"; "value_sha256"; "valid_from"; "valid_until"; "recorded_at";
          "valid_until_recorded_at"; "authority"; "confidence"; "privacy_scope"]);
       MERGE_ON_CREATE ("Fact", "fact_id");
       MERGE_REL ("FactVersion", "id") "VERSION_OF" ("Fact", "fact_id") [];
       MERGE_ON_CREATE ("Source", "source_id");
       MERGE_REL ("FactVersion", "id") "ASSERTED_BY" ("Source", "source_id") [];
       FOREACH_NOT_NULL "supersedes_id" ("FactVersion", "id") "SUPERSEDES"
         ("FactVersion", "supersedes_id")]
  | Evidence =>
      [MERGE_SET ("Evidence", "id") (same_name
         ["org"; "evidence_type"; "content_sha256"; "uri"; "privacy_scope"; "captured_at"]);
       MERGE_ON_CREATE ("Source", "source_id");
       MERGE_REL ("Evidence", "id") "FROM_SOURCE" ("Source", "source_id") []]
  | EvidenceLinks =>
      [MERGE_ON_CREATE ("Evidence", "evidence_id");
       MERGE_ON_CREATE ("FactVersion", "fact_version_id");
       MERGE_REL ("Evidence", "evidence_id") "EVIDENCE_FOR" ("FactVersion", "fact_version_id")
         (same_name ["relation"; "linked_at"])]
  | ContextSnapshots =>
      [MERGE_SET ("Snapshot", "id") (same_name ["org"; "valid_at"; "known_at"; "captured_by_user_id"])]
  | SnapshotFacts =>
      [MERGE_ON_CREATE ("Snapshot", "snapshot_id");
       MERGE_ON_CREATE ("FactVersion", "fact_version_id");
       MERGE_REL ("Snapshot", "snapshot_id") "INCLUDED" ("FactVersion", "fact_version_id")
         (same_name ["position"])]
  | Decisions =>
      [MERGE_SET ("Decision", "id") (same_name
         ["org"; "action"; "agent"; "decided_at"; "decided_by_user_id"; "receipt_sha256"]);
       MERGE_ON_CREATE ("Snapshot", "snapshot_id");
       MERGE_REL ("Decision", "id") "BASED_ON" ("Snapshot", "snapshot_id") []]
  | DecisionFacts =>
      [MERGE_ON_CREATE ("Decision", "decision_id");
       MERGE_ON_CREATE ("FactVersion", "fact_version_id");
       MERGE_REL ("Decision", "decision_id") "RELIED_ON" ("FactVersion", "fact_version_id") []]
  | _ => []
  end)%string.

Definition TABLE_ORDER : list table :=
  [Entities; FactSources; Facts; Evidence; FactVersions; EvidenceLinks; ContextSnapshots;
   SnapshotFacts; Decisions; DecisionFacts].

(** ** Rows *)

Definition source_type_text (s : SourceType) : pystr :=
  match s with
  | SYSTEM_OF_RECORD => py "SYSTEM_OF_RECORD" | API => py "API" | DOCUMENT => py "DOCUMENT"
  | HUMAN => py "HUMAN" | AGENT => py "AGENT"
  end.

Section projection.
Context `{FR : !FloatRepr} `{SH : !Sha256}.

Definition to_graph_row (t : table) : row t → result graph_row :=
  (match t with
  | Entities => λ row, Ok [("id", Some (GUuid (e_id row))); ("org", Some (GUuid (e_organization_id row)));
      ("entity_type", Some (GStr (e_entity_type row))); ("external_id", Some (GStr (e_external_id row)))]
  | Facts => λ row, Ok [("id", Some (GUuid (f_id row))); ("org", Some (GUuid (f_organization_id row)));
      ("entity_id", Some (GUuid (f_entity_id row))); ("property", Some (GStr (f_property row)))]
  | FactSources => λ row, Ok [("id", Some (GUuid (s_id row)));
      ("org", Some (GUuid (s_organization_id row))); ("name", Some (GStr (s_name row)));
      ("source_type", Some (GStr (source_type_text (s_source_type row))));
      ("default_authority", Some (GInt (s_default_authority row)))]
  | FactVersions => λ row, digest ← value_sha256 (fv_value row);
      Ok [("id", Some (GUuid (fv_id row))); ("org", Some (GUuid (fv_organization_id row)));
      ("fact_id", Some (GUuid (fv_fact_id row))); ("source_id", Some (GUuid (fv_source_id row)));
      ("supersedes_id", GUuid <$> fv_supersedes_id row); ("version", Some (GInt (fv_version row)));
      ("value_sha256", Some (GStr digest)); ("valid_from", Some (GTime (fv_valid_from row)));
      ("valid_until", GTime <$> fv_valid_until row); ("recorded_at", Some (GTime (fv_recorded_at row)));
      ("valid_until_recorded_at", GTime <$> fv_valid_until_recorded_at row);
      ("authority", Some (GInt (fv_authority row))); ("confidence", Some (GFloat (fv_confidence row)));
      ("privacy_scope", Some (GStr (scope_text (fv_privacy_scope row))))]
  | Evidence => λ row, Ok [("id", Some (GUuid (ev_id row)));
      ("org", Some (GUuid (ev_organization_id row))); ("source_id", Some (GUuid (ev_source_id row)));
      ("evidence_type", Some (GStr (evidence_type_text (ev_evidence_type row))));
      ("content_sha256", Some (GStr (ev_content_sha256 row))); ("uri", GStr <$> ev_uri row);
      ("privacy_scope", Some (GStr (scope_text (ev_privacy_scope row))));
      ("captured_at", Some (GTime (ev_captured_at row)))]
  | EvidenceLinks => λ row, Ok [("org", Some (GUuid (l_organization_id row)));
      ("fact_version_id", Some (GUuid (l_fact_version_id row)));
      ("evidence_id", Some (GUuid (l_evidence_id row)));
      ("relation", Some (GStr (relation_text (l_relation row))));
      ("linked_at", Some (GTime (l_linked_at row)))]
  | ContextSnapshots => λ row, Ok [("id", Some (GUuid (cs_id row)));
      ("org", Some (GUuid (cs_organization_id row))); ("valid_at", Some (GTime (cs_valid_at row)));
      ("known_at", Some (GTime (cs_known_at row)));
      ("captured_by_user_id", Some (GUuid (cs_captured_by_user_id row)))]
  | SnapshotFacts => λ row, Ok [("org", Some (GUuid (sf_organization_id row)));
      ("snapshot_id", Some (GUuid (sf_snapshot_id row)));
      ("fact_version_id", Some (GUuid (sf_fact_version_id row)));
      ("position", Some (GInt (sf_position row)))]
  | Decisions => λ row, Ok [("id", Some (GUuid (d_id row)));
      ("org", Some (GUuid (d_organization_id row))); ("snapshot_id", Some (GUuid (d_snapshot_id row)));
      ("action", Some (GStr (d_action row))); ("agent", GStr <$> d_agent row);
      ("decided_at", Some (GTime (d_decided_at row)));
      ("decided_by_user_id", Some (GUuid (d_decided_by_user_id row)));
      ("receipt_sha256", Some (GStr (d_receipt_sha256 row)))]
  | DecisionFacts => λ row, Ok [("org", Some (GUuid (df_organization_id row)));
      ("decision_id", Some (GUuid (df_decision_id row)));
      ("fact_version_id", Some (GUuid (df_fact_version_id row)))]
  | _ => λ _, Err TypeError
  end)%string.

(** What a row writes. *)
Definition effects_of (t : table) (x : row t) : result (list effect) :=
  r ← to_graph_row t x; row_effects (CYPHER t) r.

End projection.

(** * GraphWriter.apply *)

Abbreviation graph_rows := (list (table * list graph_row)) (only parsing).

Definition rows_of (m : graph_rows) (t : table) : list graph_row :=
  match List.find (λ kv, bool_decide (kv.1 = t)) m with Some kv => kv.2 | None => [] end.

(** The statements in [TABLE_ORDER], each over its rows in order. *)
Definition statement_effects (m : graph_rows) (t : table) : result (list effect) :=
  es ← mapR (row_effects (CYPHER t)) (rows_of m t); Ok (concat es).

(** One Neo4j transaction; [outcome] is how its commit ends. *)
Definition apply_rows (outcome : commit_outcome) (rows_by_table : graph_rows) : ST graph Z :=
  λ g,
  match mapR (statement_effects rows_by_table) TABLE_ORDER with
  | Err e => (Err e, g)
  | Ok es =>
    let g' := fold_left apply_effect (concat es) g in
    match outcome with
    | Committed => (Ok (zlen (concat (map (rows_of rows_by_table) TABLE_ORDER))), g')
    | RolledBack e => (Err e, g)
    | CommittedUnseen e => (Err e, g')
    end
  end.

(** * What a row is in the graph *)

(** The node of a row. *)
Definition owns (t : table) : row t → option node_key :=
  match t return row t → option node_key with
  | Entities => λ x, Some ("Entity"%string, e_id x) | Facts => λ x, Some ("Fact"%string, f_id x)
  | FactSources => λ x, Some ("Source"%string, s_id x) | FactVersions => λ x, Some ("FactVersion"%string, fv_id x)
  | Evidence => λ x, Some ("Evidence"%string, ev_id x)
  | ContextSnapshots => λ x, Some ("Snapshot"%string, cs_id x)
  | Decisions => λ x, Some ("Decision"%string, d_id x)
  | _ => λ _, None
  end.

(** The nodes of other rows it refers to. *)
Definition mentions (t : table) : row t → list node_key :=
  match t return row t → list node_key with
  | Facts => λ x, [("Entity"%string, f_entity_id x)]
  | FactVersions => λ x, [("Fact"%string, fv_fact_id x); ("Source"%string, fv_source_id x)] ++
      match fv_supersedes_id x with Some p => [("FactVersion"%string, p)] | None => [] end
  | Evidence => λ x, [("Source"%string, ev_source_id x)]
  | EvidenceLinks => λ x, [("Evidence"%string, l_evidence_id x); ("FactVersion"%string, l_fact_version_id x)]
  | SnapshotFacts => λ x, [("Snapshot"%string, sf_snapshot_id x); ("FactVersion"%string, sf_fact_version_id x)]
  | Decisions => λ x, [("Snapshot"%string, d_snapshot_id x)]
  | DecisionFacts => λ x, [("Decision"%string, df_decision_id x); ("FactVersion"%string, df_fact_version_id x)]
  | _ => λ _, []
  end.

(** The relationships it stands for. *)
Definition links (t : table) : row t → list rel_key :=
  match t return row t → list rel_key with
  | Facts => λ x, [("OF_ENTITY"%string, ("Fact"%string, f_id x), ("Entity"%string, f_entity_id x))]
  | FactVersions => λ x,
      [("VERSION_OF"%string, ("FactVersion"%string, fv_id x), ("Fact"%string, fv_fact_id x));
       ("ASSERTED_BY"%string, ("FactVersion"%string, fv_id x), ("Source"%string, fv_source_id x))] ++
      match fv_supersedes_id x with
      | Some p => [("SUPERSEDES"%string, ("FactVersion"%string, fv_id x), ("FactVersion"%string, p))]
      | None => []
      end
  | Evidence => λ x, [("FROM_SOURCE"%string, ("Evidence"%string, ev_id x), ("Source"%string, ev_source_id x))]
  | EvidenceLinks => λ x,
      [("EVIDENCE_FOR"%string, ("Evidence"%string, l_evidence_id x), ("FactVersion"%string, l_fact_version_id x))]
  | SnapshotFacts => λ x,
      [("INCLUDED"%string, ("Snapshot"%string, sf_snapshot_id x), ("FactVersion"%string, sf_fact_version_id x))]
  | Decisions => λ x, [("BASED_ON"%string, ("Decision"%string, d_id x), ("Snapshot"%string, d_snapshot_id x))]
  | DecisionFacts => λ x,
      [("RELIED_ON"%string, ("Decision"%string, df_decision_id x), ("FactVersion"%string, df_fact_version_id x))]
  | _ => λ _, []
  end.

(** The properties of its relationships. *)
Definition link_vals (t : table) : row t → list (string * option gvalue) :=
  match t return row t → list (string * option gvalue) with
  | EvidenceLinks => λ x, [("relation"%string, Some (GStr (relation_text (l_relation x))));
                           ("linked_at"%string, Some (GTime (l_linked_at x)))]
  | SnapshotFacts => λ x, [("position"%string, Some (GInt (sf_position x)))]
  | _ => λ _, []
  end.

(** The properties a node of a label, and a relationship of a type, can have. *)
Definition node_names (label : string) : list string :=
  (if String.eqb label "Entity" then ["org"; "entity_type"; "external_id"]
   else if String.eqb label "Fact" then ["org"; "property"]
   else if String.eqb label "Source" then ["org"; "name"; "source_type"; "default_authority"]
   else if String.eqb label "FactVersion" then
     ["org"; "version"; "value_sha256"; "valid_from"; "valid_until"; "recorded_at";
      "valid_until_recorded_at"; "authority"; "confidence"; "privacy_scope"]
   else if String.eqb label "Evidence" then
     ["org"; "evidence_type"; "content_sha256"; "uri"; "privacy_scope"; "captured_at"]
   else if String.eqb label "Snapshot" then ["org"; "valid_at"; "known_at"; "captured_by_user_id"]
   else ["org"; "action"; "agent"; "decided_at"; "decided_by_user_id"; "receipt_sha256"])%string.
Definition rel_names (type : string) : list string :=
  (if String.eqb type "EVIDENCE_FOR" then ["relation"; "linked_at"]
   else if String.eqb type "INCLUDED" then ["position"] else [])%string.

Section rows.
Context `{FR : !FloatRepr} `{SH : !Sha256}.

(** The node of a row with its properties. *)
Definition describes (t : table) (x : row t) (e : effect) : Prop :=
  match e with
  | Put k vals => owns t x = Some k ∧ map fst vals = node_names k.1
  | Ref k org => k ∈ mentions t x
  | Link k vals => k ∈ links t x ∧ vals = link_vals t x ∧ map fst vals = rel_names k.1.1
  end.

Lemma effects_describe t x es : effects_of t x = Ok es → Forall (describes t x) es.
Proof.
  unfold effects_of. destruct t; cbn [to_graph_row]; try done;
    try (destruct (value_sha256 (fv_value x)) as [digest|]; [|done]);
    unfold mbind, result_bind; cbv [row_effects mapR CYPHER clause_effects node_of columns same_name
      col List.find String.eqb Ascii.eqb Bool.eqb fst snd map mbind result_bind concat app];
    try (unfold fmap, option_fmap, option_map; destruct (fv_supersedes_id x) as [p|] eqn:Ep; cbn);
    intros [= <-]; repeat constructor; cbn; try (rewrite Ep); set_solver.
Qed.

(** And every node, mention and relationship of the row is written. *)
Lemma effects_cover t x es : effects_of t x = Ok es →
  (∀ k, owns t x = Some k → ∃ vals, Put k vals ∈ es) ∧
  (∀ k, k ∈ mentions t x → ∃ org, Ref k org ∈ es) ∧
  (∀ k, k ∈ links t x → Link k (link_vals t x) ∈ es).
Proof.
  unfold effects_of. destruct t; cbn [to_graph_row]; try done;
    try (destruct (value_sha256 (fv_value x)) as [digest|]; [|done]);
    unfold mbind, result_bind; cbv [row_effects mapR CYPHER clause_effects node_of columns same_name
      col List.find String.eqb Ascii.eqb Bool.eqb fst snd map mbind result_bind concat app];
    try (unfold fmap, option_fmap, option_map; destruct (fv_supersedes_id x) as [p|] eqn:Ep; cbn);
    intros [= <-]; split_and!; cbn; try (rewrite Ep); intros k;
    rewrite ?elem_of_cons, ?elem_of_nil; try (intros [= <-]; eexists; set_solver);
    try naive_solver; set_solver.
Qed.

(** A node is written once by a row. *)
Lemma effects_put_once t x es k v v' : effects_of t x = Ok es → Put k v ∈ es → Put k v' ∈ es → v = v'.
Proof.
  unfold effects_of. destruct t; cbn [to_graph_row]; try done;
    try (destruct (value_sha256 (fv_value x)) as [digest|]; [|done]);
    unfold mbind, result_bind; cbv [row_effects mapR CYPHER clause_effects node_of columns same_name
      col List.find String.eqb Ascii.eqb Bool.eqb fst snd map mbind result_bind concat app];
    try (unfold fmap, option_fmap, option_map; destruct (fv_supersedes_id x) as [p|] eqn:Ep; cbn);
    intros [= <-]; rewrite ?elem_of_cons, ?elem_of_nil; naive_solver.
Qed.

End rows.

(** * Effects on a graph *)

(** Setting the same properties again, or over fewer, leaves what they say. *)
Lemma lookup_set_prop m a p :
  set_prop m a !! p = if bool_decide (a.1 = p) then a.2 else m !! p.
Proof.
  unfold set_prop. destruct a as [q [v|]]; cbn [fst snd]; case_bool_decide as E; subst;
    by rewrite ?lookup_insert_eq, ?lookup_delete_eq, ?lookup_insert_ne, ?lookup_delete_ne.
Qed.

Lemma lookup_set_props vals m m' p :
  p ∈ map fst vals ∨ m !! p = m' !! p → set_props vals m !! p = set_props vals m' !! p.
Proof.
  unfold set_props. revert m m'. induction vals as [|a vals IH]; intros m m'; cbn [map fold_left].
  - by intros [H%not_elem_of_nil|H].
  - intros H. apply IH. rewrite elem_of_cons in H. rewrite !lookup_set_prop.
    case_bool_decide as E; [by right|]. destruct H as [[H|H]|H]; [congruence|by left|by right].
Qed.

Lemma set_props_names vals m p :
  is_Some (set_props vals m !! p) → p ∈ map fst vals ∨ is_Some (m !! p).
Proof.
  unfold set_props. revert m. induction vals as [|a vals IH]; intros m; cbn [map fold_left]; [by right|].
  intros [H|H]%IH; [left; by right|]. rewrite lookup_set_prop in H. case_bool_decide as E; [|by right].
  left. rewrite E. by left.
Qed.

Lemma set_props_over vals m :
  (∀ p, is_Some (m !! p) → p ∈ map fst vals) → set_props vals m = set_props vals ∅.
Proof.
  intros Hm. apply map_eq. intros p. apply lookup_set_props.
  destruct (m !! p) eqn:E; [left; apply Hm; by eexists|right; by rewrite lookup_empty].
Qed.

Lemma default_lookup (o : option props) p :
  is_Some (default ∅ o !! p) → ∃ m, o = Some m ∧ is_Some (m !! p).
Proof. destruct o as [m|]; [by exists m|]. intros [v H]. change ((∅ : props) !! p = Some v) in H.
  by apply lookup_empty_Some in H.
Qed.

(** A graph whose nodes and relationships have only the properties of their kind. *)
Definition well_named (g : graph) : Prop :=
  (∀ k m p, nodes g !! k = Some m → is_Some (m !! p) → p ∈ node_names k.1) ∧
  (∀ k m p, rels g !! k = Some m → is_Some (m !! p) → p ∈ rel_names k.1.1).

Definition named (e : effect) : Prop :=
  match e with
  | Put k vals => map fst vals = node_names k.1
  | Ref k _ => True
  | Link k vals => map fst vals = rel_names k.1.1
  end.

Lemma org_is_a_name label : "org"%string ∈ node_names label.
Proof. unfold node_names. repeat destruct (String.eqb _ _); left. Qed.

Lemma empty_well_named : well_named empty_graph.
Proof. split; cbn [nodes rels empty_graph]; intros k m p H; by apply lookup_empty_Some in H. Qed.

Lemma apply_well_named g e : named e → well_named g → well_named (apply_effect g e).
Proof.
  intros Hn [Hv Hr]. destruct e as [k vals|k org|k vals]; cbn in Hn |- *; split; cbn; try done.
  - intros k' m p. rewrite lookup_insert. case_decide as E; [|by apply Hv]. subst k'. intros [= <-] H.
    apply set_props_names in H as [H|H]; [by rewrite <-Hn|].
    apply default_lookup in H as (m & E & H). by apply (Hv k m).
  - intros k' m p. destruct (nodes g !! k) eqn:E; [by apply Hv|]. rewrite lookup_insert.
    case_decide as E'; [|by apply Hv]. subst k'. intros [= <-] H.
    apply set_props_names in H as [H|[v H]]; [|by apply lookup_empty_Some in H].
    apply list_elem_of_singleton in H as ->. apply org_is_a_name.
  - intros k' m p. rewrite lookup_insert. case_decide as E; [|by apply Hr]. subst k'. intros [= <-] H.
    apply set_props_names in H as [H|H]; [by rewrite <-Hn|].
    apply default_lookup in H as (m & E & H). by apply (Hr k m).
Qed.

(** The graph shows what the effect says. *)
Definition holds (g : graph) (e : effect) : Prop :=
  match e with
  | Put k vals => nodes g !! k = Some (set_props vals ∅)
  | Ref k _ => is_Some (nodes g !! k)
  | Link k vals => rels g !! k = Some (set_props vals ∅)
  end.

Definition agree (e e' : effect) : Prop :=
  match e, e' with
  | Put k vals, Put k' vals' => k = k' → vals = vals'
  | Link k vals, Link k' vals' => k = k' → vals = vals'
  | _, _ => True
  end.

Lemma apply_holds g e : named e → well_named g → holds (apply_effect g e) e.
Proof.
  intros Hn [Hv Hr]. destruct e as [k vals|k org|k vals]; cbn in Hn |- *.
  - rewrite lookup_insert_eq. f_equal. apply set_props_over. intros p H. rewrite Hn.
    apply default_lookup in H as (m & E & H). by apply (Hv k m).
  - destruct (nodes g !! k) as [m|] eqn:E; [by rewrite E; exists m|]. rewrite lookup_insert_eq.
    by eexists.
  - rewrite lookup_insert_eq. f_equal. apply set_props_over. intros p H. rewrite Hn.
    apply default_lookup in H as (m & E & H). by apply (Hr k m).
Qed.

Lemma apply_keeps g e e' : named e → well_named g → agree e e' → holds g e' → holds (apply_effect g e) e'.
Proof.
  intros Hn Hw Ha H. pose proof (apply_holds g e Hn Hw) as He.
  destruct e as [k vals|k org|k vals], e' as [k' vals'|k' org'|k' vals']; cbn in *; try done.
  - destruct (decide (k = k')) as [<-|Hne]; [rewrite He; by rewrite (Ha eq_refl)|].
    by rewrite lookup_insert_ne.
  - destruct (decide (k = k')) as [<-|Hne]; [by eexists|]. by rewrite lookup_insert_ne.
  - destruct (nodes g !! k) eqn:E; [done|]. rewrite lookup_insert_ne; [done|]. congruence.
  - destruct (nodes g !! k) eqn:E; [done|]. rewrite lookup_insert. case_decide; [by eexists|done].
  - destruct (decide (k = k')) as [<-|Hne]; [rewrite He; by rewrite (Ha eq_refl)|].
    by rewrite lookup_insert_ne.
Qed.

Lemma apply_all_named g es : Forall named es → well_named g → well_named (fold_left apply_effect es g).
Proof.
  revert g. induction es as [|e es IH]; intros g Hn Hw; cbn; [done|].
  apply Forall_cons in Hn as [He Hn]. by apply IH, apply_well_named.
Qed.

Lemma apply_all_keep g es e' :
  Forall named es → well_named g → (∀ e, e ∈ es → agree e e') → holds g e' →
  holds (fold_left apply_effect es g) e'.
Proof.
  revert g. induction es as [|e es IH]; intros g Hn Hw Ha H; cbn; [done|].
  apply Forall_cons in Hn as [He Hn]. apply IH; [done|by apply apply_well_named|..].
  - intros e1 H1. apply Ha. by right.
  - apply apply_keeps; [done..| |done]. apply Ha. left.
Qed.

(** Effects that agree with each other all show in the end. *)
Lemma apply_all_hold g es :
  Forall named es → well_named g → (∀ e e', e ∈ es → e' ∈ es → agree e e') →
  ∀ e, e ∈ es → holds (fold_left apply_effect es g) e.
Proof.
  revert g. induction es as [|e0 es IH]; intros g Hn Hw Ha e He; [by apply not_elem_of_nil in He|].
  cbn. apply Forall_cons in Hn as [H0 Hn]. apply elem_of_cons in He as [->|He].
  - apply apply_all_keep; [done|by apply apply_well_named| |by apply apply_holds].
    intros e1 H1. apply Ha; [by right|by left].
  - apply IH; [done|by apply apply_well_named| |done]. intros e1 e2 H1 H2. apply Ha; by right.
Qed.

(** Only effects make nodes and relationships. *)
Definition touches_node (k : node_key) (e : effect) : Prop :=
  match e with Put k' _ | Ref k' _ => k = k' | Link _ _ => False end.
Definition touches_rel (k : rel_key) (e : effect) : Prop :=
  match e with Link k' _ => k = k' | _ => False end.

Lemma apply_node g e k : is_Some (nodes (apply_effect g e) !! k) → is_Some (nodes g !! k) ∨ touches_node k e.
Proof.
  destruct e as [k' vals|k' org|k' vals]; cbn; [| |by left].
  - rewrite lookup_insert. case_decide; [by right|by left].
  - destruct (nodes g !! k'); [by left|]. rewrite lookup_insert. case_decide; [by right|by left].
Qed.

Lemma apply_rel g e k : is_Some (rels (apply_effect g e) !! k) → is_Some (rels g !! k) ∨ touches_rel k e.
Proof.
  destruct e as [k' vals|k' org|k' vals]; cbn; [by left|by left|].
  rewrite lookup_insert. case_decide; [by right|by left].
Qed.

Lemma apply_all_node g es k : is_Some (nodes (fold_left apply_effect es g) !! k) →
  is_Some (nodes g !! k) ∨ ∃ e, e ∈ es ∧ touches_node k e.
Proof.
  revert g. induction es as [|e es IH]; intros g; cbn; [by left|].
  intros [H|(e' & H & Ht)]%IH; [|right; exists e'; split; [by right|done]].
  apply apply_node in H as [H|H]; [by left|]. right. exists e. split; [left|done].
Qed.

Lemma apply_all_rel g es k : is_Some (rels (fold_left apply_effect es g) !! k) →
  is_Some (rels g !! k) ∨ ∃ e, e ∈ es ∧ touches_rel k e.
Proof.
  revert g. induction es as [|e es IH]; intros g; cbn; [by left|].
  intros [H|(e' & H & Ht)]%IH; [|right; exists e'; split; [by right|done]].
  apply apply_rel in H as [H|H]; [by left|]. right. exists e. split; [left|done].
Qed.
