(* ===== verification/GraphWorker.v ===== *)
(** Projecting the database into the provenance graph: the graph outbox
    (app/repositories/graph_outbox.py) and its worker (app/workers/graph.py).  Once
    the outbox is drained the graph is the one rebuilt from scratch. *)

From stdpp Require Import gmap.
From S2P Require Import Prelude PyStr Json Validation Access Temporal Database Schema.
From S2P Require Import Canonical Regex Accounts FactRepo EvidenceService FactService Ledger.
From S2P Require Import TemporalService Ranking Retrieval Calendar Decisions EventRelay ProvenanceGraph.

(** * The graph outbox *)

#[export] Instance graph_item_eq_dec : EqDecision graph_item.
Proof. solve_decision. Defined.

(** [PROJECTED]: the table an event names, and the key of its rows. *)
Definition PROJECTED (table_name : string) : option table :=
  (if String.eqb table_name "entities" then Some Entities
   else if String.eqb table_name "facts" then Some Facts
   else if String.eqb table_name "fact_sources" then Some FactSources
   else if String.eqb table_name "fact_versions" then Some FactVersions
   else if String.eqb table_name "evidence" then Some Evidence
   else if String.eqb table_name "fact_version_evidence" then Some EvidenceLinks
   else if String.eqb table_name "context_snapshots" then Some ContextSnapshots
   else if String.eqb table_name "context_snapshot_facts" then Some SnapshotFacts
   else if String.eqb table_name "decisions" then Some Decisions
   else if String.eqb table_name "decision_facts" then Some DecisionFacts else None)%string.

Definition key_columns (t : table) : row t → list UUID :=
  match t return row t → list UUID with
  | Entities => λ x, [e_id x] | Facts => λ x, [f_id x] | FactSources => λ x, [s_id x]
  | FactVersions => λ x, [fv_id x] | Evidence => λ x, [ev_id x]
  | EvidenceLinks => λ x, [l_fact_version_id x; l_evidence_id x]
  | ContextSnapshots => λ x, [cs_id x]
  | SnapshotFacts => λ x, [sf_snapshot_id x; sf_fact_version_id x]
  | Decisions => λ x, [d_id x]
  | DecisionFacts => λ x, [df_decision_id x; df_fact_version_id x]
  | _ => λ _, []
  end.

Module GraphOutboxRepository.

Definition of_org (organization_id : option UUID) (e : graph_item) : bool :=
  match organization_id with Some org => go_organization_id e =? org | None => true end.

(** [locked]: the rows other projectors hold (FOR UPDATE SKIP LOCKED). *)
Definition claim (batch_size : Z) (organization_id : option UUID) (locked : graph_item → bool)
    (d : db) : list graph_item :=
  take (Z.to_nat batch_size) (sort_on go_id
    (where_ (λ e, of_org organization_id e && negb (locked e)) (tab d GraphOutbox))).

(** The keys of the events of one table. *)
Definition keys (events : list graph_item) (t : table) : list (list UUID) :=
  map go_row_key (where_ (λ e, bool_decide (PROJECTED (go_table_name e) = Some t)) events).

Definition known (e : graph_item) : bool := negb (bool_decide (PROJECTED (go_table_name e) = None)).

(** Current rows for the events, by table. *)
Definition load (events : list graph_item) (d : db) : result (∀ t, list (row t)) :=
  if forallb known events
  then Ok (λ t, where_ (λ x, bool_decide (key_columns t x ∈ keys events t)) (tab d t))
  else Err ValueError.

Definition delete (events : list graph_item) : DB unit :=
  exec_delete GraphOutbox (λ e, bool_decide (go_id e ∈ map go_id events)).

Definition pending (organization_id : UUID) : DB Z :=
  gets (λ d, zlen (where_ (λ e, go_organization_id e =? organization_id) (tab d GraphOutbox))).

End GraphOutboxRepository.

(** * The projector *)

Record ProjectionStats := { ps_events : Z; ps_rows : Z }.
Definition no_projection : ProjectionStats := {| ps_events := 0; ps_rows := 0 |}.

Section projector.
Context `{FR : !FloatRepr} `{SH : !Sha256}.
Context (batch_size : Z) (organization_id : option UUID).

(** What surrounds an iteration: the events other projectors hold, what happens in
    both stores between its reads and its writes, and how the two commits end. *)
Record projector_env := {
  ge_locked : graph_item → bool;
  ge_others : db * graph → db * graph;
  ge_write : commit_outcome;
  ge_commit : commit_outcome }.

(** [{table: [to_graph_row(r) for r in items] ...}]; a table without events has no rows. *)
Definition graph_rows_of (loaded : ∀ t, list (row t)) : result graph_rows :=
  mapR (λ t, rows ← mapR (to_graph_row t) (loaded t); Ok (t, rows)) TABLE_ORDER.

(** Claim and load. *)
Definition read_events (env : projector_env) (d : db) : result (list graph_item * graph_rows) :=
  let events := GraphOutboxRepository.claim batch_size organization_id (ge_locked env) d in
  match events with
  | [] => Ok ([], [])
  | _ => loaded ← GraphOutboxRepository.load events d;
         rows ← graph_rows_of loaded;
         Ok (events, rows)
  end.

Definition run_projector (env : projector_env) : ST (db * graph) ProjectionStats :=
  r ← gets (λ s, read_events env s.1);
  p ← lift r;
  match p.1 with
  | [] => db_transaction (ge_commit env) (mret no_projection)
  | events =>
    _ ← modify (ge_others env);
    db_transaction (ge_commit env) (
      written ← on_ext (apply_rows (ge_write env) p.2);
      _ ← on_db (GraphOutboxRepository.delete events);
      mret {| ps_events := zlen events; ps_rows := written |})
  end.

(** [while (stats := await self.run_once()).events]; the result None is a loop
    that has not ended after [fuel] iterations.  [envs] is what surrounds each of them,
    counted from the end. *)
Fixpoint drain_projector (fuel : nat) (envs : nat → projector_env) (total : ProjectionStats) :
    ST (db * graph) (option ProjectionStats) :=
  match fuel with
  | O => mret None
  | S fuel =>
    stats ← run_projector (envs fuel);
    if ps_events stats =? 0 then mret (Some total)
    else drain_projector fuel envs {| ps_events := ps_events total + ps_events stats;
                                     ps_rows := ps_rows total + ps_rows stats |}
  end.

End projector.

(** * What the statements of the program do to the projected tables *)

(** The parts of a row that its node, its relationships and its events are made of. *)
Definition shape (t : table) (x : row t) :
    option (UUID * string * list UUID) * option (string * UUID) * list (string * UUID)
    * list (string * (string * UUID) * (string * UUID)) :=
  (projected t x, owns t x, mentions t x, links t x).

(** The statements the program runs: the outboxes are written by triggers only;
    no column that identifies a row or refers to another one is updated; rows of
    the graph are never deleted. *)
Inductive statement (d d' : db) : Prop :=
  | stmt_insert t x : outbox t = false → exec_insert t x d = (Ok (), d') → statement d d'
  | stmt_update t p f : outbox t = false → (∀ x, p x = true → shape t (f x) = shape t x) →
      exec_update t p f d = (Ok (), d') → statement d d'
  | stmt_delete t p : outbox t = false → (∀ x, projected t x = None) →
      exec_delete t p d = (Ok (), d') → statement d d'
  | stmt_clock now wall : d' = set_clock now wall d → statement d d'
  | stmt_id : d' = bump d → statement d d'.

(** An event about a row. *)
Definition about (t : table) (x : row t) (i : graph_item) : Prop :=
  ∃ org, projected t x = Some (org, go_table_name i, go_row_key i).

(** Every reference of the projected tables has its row. *)
Definition refs_ok (d : db) : Prop :=
  ∀ t x k, x ∈ tab d t → k ∈ mentions t x → ∃ u y, y ∈ tab d u ∧ owns u y = Some k.

Record outbox_ok (d : db) : Prop := {
  oo_consistent : consistent d;
  oo_refs : refs_ok d;
  oo_ids : NoDup (map go_id (tab d GraphOutbox));
  oo_next : ∀ i, i ∈ tab d GraphOutbox → go_id i < db_next d;
  oo_known : ∀ i, i ∈ tab d GraphOutbox → GraphOutboxRepository.known i = true;
}.

(** From [d] to [d']: events are appended with new identifiers, a row that is new or
    changed has one of them, and no row loses its shape. *)
Definition evolves (d d' : db) : Prop :=
  ∃ l, tab d' GraphOutbox = tab d GraphOutbox ++ l ∧
    (∀ t x, x ∈ tab d' t → is_Some (projected t x) → x ∈ tab d t ∨ ∃ i, i ∈ l ∧ about t x i) ∧
    (∀ t x, x ∈ tab d t → is_Some (projected t x) → ∃ y, y ∈ tab d' t ∧ shape t y = shape t x).

Lemma evolves_refl d : evolves d d.
Proof.
  exists []. rewrite app_nil_r. split_and!; [done|by left|]. intros t x Hx _. by exists x.
Qed.

Lemma evolves_trans d1 d2 d3 : evolves d1 d2 → evolves d2 d3 → evolves d1 d3.
Proof.
  intros (l & T1 & N1 & K1) (k & T2 & N2 & K2). exists (l ++ k). split_and!.
  - by rewrite T2, T1, app_assoc.
  - intros t x Hx Hp. destruct (N2 t x Hx Hp) as [H2|(i & Hi & Ha)].
    + destruct (N1 t x H2 Hp) as [H1|(i & Hi & Ha)]; [by left|]. right. exists i.
      split; [apply elem_of_app; by left|done].
    + right. exists i. split; [apply elem_of_app; by right|done].
  - intros t x Hx Hp. destruct (K1 t x Hx Hp) as (y & Hy & Hs).
    destruct (K2 t y Hy) as (z & Hz & Hs').
    + assert (E : projected t y = projected t x) by (by injection Hs). by rewrite E.
    + exists z. split; [done|congruence].
Qed.

(** The event a trigger adds. *)
Lemma add_graph_item_some org name key d :
  add_graph_item (Some (org, name, key)) d
  = (Ok (), set_tab GraphOutbox (tab d GraphOutbox ++
       [{| go_id := db_next d; go_organization_id := org; go_table_name := name; go_row_key := key |}])
       (bump d)).
Proof. reflexivity. Qed.

(** The events of some rows: new, distinct, one for each. *)
Definition adds {A} (g : A → option (UUID * string * list UUID)) (rows : list A) (d d' : db) : Prop :=
  ∃ l, tab d' GraphOutbox = tab d GraphOutbox ++ l ∧ db_next d ≤ db_next d' ∧
    NoDup (map go_id l) ∧
    (∀ i, i ∈ l → db_next d ≤ go_id i < db_next d' ∧
       ∃ x org, x ∈ rows ∧ g x = Some (org, go_table_name i, go_row_key i)) ∧
    (∀ x, x ∈ rows → is_Some (g x) → ∃ i org, i ∈ l ∧ g x = Some (org, go_table_name i, go_row_key i)).

Lemma add_graph_item_adds {A} (g : A → option (UUID * string * list UUID)) x d :
  adds g [x] d (add_graph_item (g x) d).2.
Proof.
  destruct (g x) as [[[org name] key]|] eqn:E.
  - rewrite add_graph_item_some. cbn [snd]. eexists. split_and!.
    + by rewrite tab_set_eq.
    + cbn. lia.
    + apply NoDup_singleton.
    + intros i ->%list_elem_of_singleton. split; [cbn; lia|]. exists x, org. split; [by left|done].
    + intros y ->%list_elem_of_singleton _. eexists _, org. split; [by left|done].
  - exists []. split_and!; [by rewrite app_nil_r|cbn; lia|apply NoDup_nil_2|..].
    + by intros i ?%not_elem_of_nil.
    + intros y ->%list_elem_of_singleton [q Hq]. congruence.
Qed.

Lemma adds_app {A} (g : A → option (UUID * string * list UUID)) l k d1 d2 d3 :
  adds g l d1 d2 → adds g k d2 d3 → adds g (l ++ k) d1 d3.
Proof.
  intros (a & T1 & N1 & U1 & I1 & C1) (b & T2 & N2 & U2 & I2 & C2). exists (a ++ b). split_and!.
  - by rewrite T2, T1, app_assoc.
  - lia.
  - rewrite map_app. apply NoDup_app. split_and!; [done| |done].
    intros j (i & -> & Hi)%list_elem_of_fmap (i' & Hj & Hi')%list_elem_of_fmap.
    apply I1 in Hi as [Hi _]. apply I2 in Hi' as [Hi' _]. lia.
  - intros i [Hi|Hi]%elem_of_app.
    + destruct (I1 i Hi) as [? (x & org & Hx & E)]. split; [lia|]. exists x, org.
      split; [apply elem_of_app; by left|done].
    + destruct (I2 i Hi) as [? (x & org & Hx & E)]. split; [lia|]. exists x, org.
      split; [apply elem_of_app; by right|done].
  - intros x [Hx|Hx]%elem_of_app Hp.
    + destruct (C1 x Hx Hp) as (i & org & Hi & E). exists i, org. split; [apply elem_of_app; by left|done].
    + destruct (C2 x Hx Hp) as (i & org & Hi & E). exists i, org. split; [apply elem_of_app; by right|done].
Qed.

Lemma project_all_adds {A} (g : A → option (UUID * string * list UUID)) l d :
  adds g l d (mapM_ (λ x, add_graph_item (g x)) l d).2.
Proof.
  revert d. induction l as [|x l IH]; intros d.
  - exists []. split_and!; [by rewrite app_nil_r|cbn; lia|apply NoDup_nil_2|..];
      by intros ? ?%not_elem_of_nil.
  - destruct (add_graph_item_total (g x) d) as (d1 & E1 & _ & _).
    destruct (project_all_total g l d1) as (us & d2 & E2 & _ & _).
    change (x :: l) with ([x] ++ l). apply (adds_app g _ _ d d1).
    + pose proof (add_graph_item_adds g x d) as H. by rewrite E1 in H.
    + cbn [app mapM_]. rewrite (st_bind_eq _ _ _ _ _ E1), (st_bind_eq _ _ _ _ _ E2). cbn [snd].
      pose proof (IH d1) as H. by rewrite E2 in H.
Qed.

(** A statement's events, whatever else it does. *)
Lemma insert_adds t x d d' : outbox t = false → exec_insert t x d = (Ok (), d') →
  adds (projected t) [x] d d'.
Proof.
  intros Ht H. unfold exec_insert in H.
  apply st_bind_ok in H as ([] & d0 & [= _ <-] & H).
  apply st_bind_ok in H as ([] & d1 & ->%insert_row_ok & H).
  apply st_bind_ok in H as ([] & d2 & He & Hg).
  destruct (add_event_total (emitted t x) (payload t x) (set_tab t (tab d t ++ [x]) d)) as (d2' & E2 & F2 & T2).
  rewrite E2 in He. injection He as ->.
  pose proof (add_graph_item_adds (projected t) x d2) as H. rewrite Hg in H. cbn [snd] in H.
  destruct H as (l & T & N & U & I & C). exists l.
  assert (Hn : db_next d ≤ db_next d2) by (exact (frame_next _ _ _ F2)).
  split_and!; [|lia|done| |done].
  - rewrite T, T2 by done. f_equal. apply tab_set_ne. by intros ->.
  - intros i Hi. destruct (I i Hi) as [? ?]. split; [lia|done].
Qed.

Lemma update_adds t p f d d' : outbox t = false → exec_update t p f d = (Ok (), d') →
  adds (λ x, projected t (f x)) (where_ p (tab d t)) d d'.
Proof.
  intros Ht H. unfold exec_update in H.
  apply st_bind_ok in H as (hit & d0 & [-> ->]%select_ok & H).
  apply st_bind_ok in H as ([] & d1 & [= _ <-] & H).
  apply st_bind_ok in H as ([] & d2 & Hu & H). unfold update_rows in Hu. apply modify_ok in Hu as ->.
  apply st_bind_ok in H as (es & d3 & He & H).
  apply st_bind_ok in H as (us & d4 & Hm & [_ <-]%st_ret_ok).
  set (d2 := set_tab t (map (λ x, if p x then f x else x) (tab d t)) d) in *.
  destruct (emit_all_total (λ x, emitted_update t (f x)) (λ x, payload t (f x)) (where_ p (tab d t)) d2)
    as (es' & d3' & He' & F3 & T3). cbv beta in He'. rewrite He' in He. injection He as _ ->.
  pose proof (project_all_adds (λ x, projected t (f x)) (where_ p (tab d t)) d3) as Ha.
  cbv beta in Ha. rewrite Hm in Ha. cbn [snd] in Ha.
  assert (Hn : db_next d ≤ db_next d3) by (exact (frame_next _ _ _ F3)).
  destruct Ha as (l & T & N & U & I & C). exists l. split_and!; [|lia|done| |done].
  - rewrite T, T3 by done. f_equal. apply tab_set_ne. by intros ->.
  - intros i Hi. destruct (I i Hi) as [? ?]. split; [lia|done].
Qed.

(** * Every statement lets the outbox speak for it *)

Lemma projected_known t x i : about t x i → GraphOutboxRepository.known i = true.
Proof.
  intros (org & H). unfold GraphOutboxRepository.known, PROJECTED.
  destruct t; try done; injection H as _ Hn _; by rewrite <-Hn.
Qed.

Lemma about_spec t x i : about t x i ↔
  PROJECTED (go_table_name i) = Some t ∧ key_columns t x = go_row_key i ∧ is_Some (projected t x).
Proof.
  unfold about. split.
  - intros (org & H). split_and!; [|destruct t; try done; by injection H as _ _ Hk|by eexists].
    unfold PROJECTED. destruct t; try done; injection H as _ Hn _; by rewrite <-Hn.
  - intros (Hn & Hk & Hp). unfold PROJECTED in Hn.
    repeat match type of Hn with (if ?b then _ else _) = _ =>
      destruct b eqn:E; [apply String.eqb_eq in E; injection Hn as <-; rewrite E; eexists;
        cbn in Hk |- *; rewrite Hk; reflexivity|clear E] end. done.
Qed.

Lemma outbox_projected t x : outbox t = true → projected t x = None.
Proof. by destruct t. Qed.

(** New rows and events on top of [d]. *)
Lemma adds_ids {A} (g : A → option (UUID * string * list UUID)) rows d d' :
  outbox_ok d → adds g rows d d' →
  NoDup (map go_id (tab d' GraphOutbox)) ∧ (∀ i, i ∈ tab d' GraphOutbox → go_id i < db_next d').
Proof.
  intros [_ _ Hi Hn _] (l & T & N & U & I & _). rewrite T. split.
  - rewrite map_app. apply NoDup_app. split_and!; [done| |done].
    intros j (i & -> & Hin)%list_elem_of_fmap (i' & E & Hin')%list_elem_of_fmap.
    apply Hn in Hin. apply I in Hin' as [? _]. lia.
  - intros i [Hin|Hin]%elem_of_app; [apply Hn in Hin; lia|]. by apply I in Hin as [[? ?] _].
Qed.

(** The rows that the foreign keys of a new row name. *)
Lemma row_named {t p d} : exists_row t p d = true → ∀ k (o : row t → bool),
  (∀ y, p y = true → o y = true) → (∀ y, o y = true → owns t y = Some k) →
  ∃ u y, y ∈ tab d u ∧ owns u y = Some k.
Proof.
  intros (y & Hy & Hp)%exists_row_spec k o Hpo Ho. exists t, y. split; [done|]. by apply Ho, Hpo.
Qed.

Lemma owns_by_id {A} (n : string) (f : A → Z) i (y : A) :
  (f y =? i) = true → Some (n, f y) = Some (n, i).
Proof. by intros ->%Z.eqb_eq. Qed.

Ltac named_by H o := apply (row_named H _ o); [intros ? E; by apply andb_true_iff in E as [_ ?]
                                              |intros ?; apply owns_by_id].

Lemma checked_refs t x d k : checks (row_checks t x d) = Ok () → refs_ok d → k ∈ mentions t x →
  ∃ u y, y ∈ tab d u ∧ owns u y = Some k.
Proof.
  intros Hc Hr Hk. assert (Hin : ∀ b e, (b, e) ∈ row_checks t x d → b = true) by (intros b e; by apply checks_in).
  clear Hc. destruct t; cbn [mentions row_checks] in *; try (by apply not_elem_of_nil in Hk).
  - apply list_elem_of_singleton in Hk as ->.
    named_by (Hin _ _ ltac:(do 2 right; left)) (λ y, e_id y =? f_entity_id x).
  - apply elem_of_app in Hk as [Hk|Hk]; [apply elem_of_cons in Hk as [->|Hk];
      [|apply list_elem_of_singleton in Hk as ->]|].
    + named_by (Hin _ _ ltac:(do 10 right; left)) (λ y, f_id y =? fv_fact_id x).
    + named_by (Hin _ _ ltac:(do 11 right; left)) (λ y, s_id y =? fv_source_id x).
    + pose proof (Hin _ _ ltac:(do 12 right; left)) as H.
      destruct (fv_supersedes_id x) as [p|]; [|by apply not_elem_of_nil in Hk].
      apply list_elem_of_singleton in Hk as ->. named_by H (λ y, fv_id y =? p).
  - apply list_elem_of_singleton in Hk as ->.
    named_by (Hin _ _ ltac:(do 3 right; left)) (λ y, s_id y =? ev_source_id x).
  - apply elem_of_cons in Hk as [->|Hk]; [|apply list_elem_of_singleton in Hk as ->].
    + named_by (Hin _ _ ltac:(do 2 right; left)) (λ y, ev_id y =? l_evidence_id x).
    + named_by (Hin _ _ ltac:(do 1 right; left)) (λ y, fv_id y =? l_fact_version_id x).
  - apply elem_of_cons in Hk as [->|Hk]; [|apply list_elem_of_singleton in Hk as ->].
    + named_by (Hin _ _ ltac:(do 2 right; left)) (λ y, cs_id y =? sf_snapshot_id x).
    + named_by (Hin _ _ ltac:(do 3 right; left)) (λ y, fv_id y =? sf_fact_version_id x).
  - apply list_elem_of_singleton in Hk as ->.
    named_by (Hin _ _ ltac:(do 6 right; left)) (λ y, cs_id y =? d_snapshot_id x).
  - apply elem_of_cons in Hk as [->|Hk]; [|apply list_elem_of_singleton in Hk as ->].
    + apply (row_named (Hin _ _ ltac:(do 1 right; left)) _ (λ y, d_id y =? df_decision_id x));
        [|intros ?; apply owns_by_id].
      intros y E. by apply andb_true_iff in E as [[_ ?]%andb_true_iff _].
    + pose proof (Hin _ _ ltac:(do 2 right; left)) as (y & Hy & [_ E]%andb_true_iff)%exists_row_spec.
      apply (Hr SnapshotFacts y _ Hy). cbn. apply Z.eqb_eq in E as ->. right; left.
Qed.

(** ** Statements *)

Lemma shape_projected t x y : shape t x = shape t y → projected t x = projected t y.
Proof. intros E. by injection E. Qed.

Lemma insert_evolves t x d d' : outbox t = false → exec_insert t x d = (Ok (), d') →
  outbox_ok d → outbox_ok d' ∧ evolves d d'.
Proof.
  intros Ht H Hok. pose proof (insert_adds _ _ _ _ Ht H) as Ha.
  destruct (adds_ids _ _ _ _ Hok Ha) as [Hids Hnext].
  destruct (exec_insert_ok _ _ _ _ _ Ht H) as (Hi & F & T). destruct Hok as [Hc Hr _ _ Hk].
  destruct Ha as (l & TG & _ & _ & I & C).
  assert (Hother : ∀ u, u ≠ t → outbox u = false → tab d' u = tab d u)
    by (intros u Hu Ho; apply (frame_tab_other _ _ _ u F); set_solver).
  assert (Hmono : ∀ u y, outbox u = false → y ∈ tab d u → y ∈ tab d' u).
  { intros u y Ho Hy. destruct (table_eq_dec u t) as [->|Hne]; [|by rewrite Hother].
    rewrite T. apply elem_of_app. by left. }
  split; [split|].
  - by apply (exec_insert_consistent t x Ht d (Ok ()) d' H).
  - assert (Hlift : ∀ k, (∃ u y, y ∈ tab d u ∧ owns u y = Some k) → ∃ u y, y ∈ tab d' u ∧ owns u y = Some k).
    { intros k (u & y & Hy & Ho). exists u, y. split; [|done]. apply Hmono; [by destruct u|done]. }
    intros u y k Hy Hm. apply Hlift. destruct (table_eq_dec u t) as [->|Hne].
    + rewrite T in Hy. apply elem_of_app in Hy as [Hy| ->%list_elem_of_singleton]; [by apply (Hr t y)|].
      apply insert_checks_ok in Hi as [Hi _]. by apply (checked_refs t x).
    + apply (Hr u y); [|done]. rewrite <-Hother; [done|done|]. by destruct u; try apply not_elem_of_nil in Hm.
  - done.
  - done.
  - intros i. rewrite TG. intros [Hin|Hin]%elem_of_app; [by apply Hk|].
    destruct (I i Hin) as [_ (y & org & _ & E)]. apply (projected_known t y). by exists org.
  - exists l. split_and!; [done|..].
    + intros u y Hy Hp. assert (Ho : outbox u = false)
        by (destruct (outbox u) eqn:E; [|done]; destruct Hp as [? Hp]; by rewrite (outbox_projected u y E) in Hp).
      destruct (table_eq_dec u t) as [->|Hne]; [|left; by rewrite <-Hother].
      rewrite T in Hy. apply elem_of_app in Hy as [Hy| ->%list_elem_of_singleton]; [by left|]. right.
      destruct (C x ltac:(by left) Hp) as (i & org & Hin & E). exists i. split; [done|]. by exists org.
    + intros u y Hy Hp. exists y. split; [|done]. apply Hmono; [|done].
      destruct (outbox u) eqn:E; [|done]. destruct Hp as [? Hp]. by rewrite (outbox_projected u y E) in Hp.
Qed.

Lemma update_evolves t p f d d' : outbox t = false → (∀ x, p x = true → shape t (f x) = shape t x) →
  exec_update t p f d = (Ok (), d') → outbox_ok d → outbox_ok d' ∧ evolves d d'.
Proof.
  intros Ht Hs H Hok. pose proof (update_adds _ _ _ _ _ Ht H) as Ha.
  destruct (adds_ids _ _ _ _ Hok Ha) as [Hids Hnext].
  destruct (exec_update_ok _ _ _ _ _ _ Ht H) as (_ & F & T). destruct Hok as [Hc Hr _ _ Hk].
  destruct Ha as (l & TG & _ & _ & I & C).
  assert (Hother : ∀ u, u ≠ t → outbox u = false → tab d' u = tab d u)
    by (intros u Hu Ho; apply (frame_tab_other _ _ _ u F); set_solver).
  assert (Hfwd : ∀ u y, outbox u = false → y ∈ tab d u → ∃ z, z ∈ tab d' u ∧ shape u z = shape u y).
  { intros u y Ho Hy. destruct (table_eq_dec u t) as [->|Hne]; [|exists y; by rewrite Hother].
    exists (if p y then f y else y). rewrite T. split; [apply list_elem_of_fmap; by exists y|].
    destruct (p y) eqn:E; [by apply Hs|done]. }
  assert (Hbwd : ∀ u z, outbox u = false → z ∈ tab d' u → ∃ y, y ∈ tab d u ∧ shape u z = shape u y ∧
    (z = y ∨ ∃ e : t = u,
       match e in _ = u return row u → row u → Prop with eq_refl => λ y z, p y = true ∧ z = f y end y z)).
  { intros u z Ho Hz. destruct (table_eq_dec u t) as [->|Hne].
    - rewrite T in Hz. apply list_elem_of_fmap in Hz as (y & -> & Hy). exists y. split; [done|].
      destruct (p y) eqn:E; [|by split; [|left]]. split; [by apply Hs|]. right. by exists eq_refl.
    - exists z. rewrite <-Hother by done. split_and!; [done..|by left]. }
  split; [split|].
  - by apply (exec_update_consistent t p f Ht d (Ok ()) d' H).
  - intros u z k Hz Hm. assert (Ho : outbox u = false) by (by destruct u; try apply not_elem_of_nil in Hm).
    destruct (Hbwd u z Ho Hz) as (y & Hy & Hsh & _). assert (E : mentions u z = mentions u y) by (by injection Hsh).
    rewrite E in Hm. destruct (Hr u y k Hy Hm) as (v & w & Hw & Hown).
    destruct (Hfwd v w ltac:(by destruct v) Hw) as (w' & Hw' & Hsh'). exists v, w'. split; [done|].
    assert (E' : owns v w' = owns v w) by (by injection Hsh'). by rewrite E'.
  - done.
  - done.
  - intros i. rewrite TG. intros [Hin|Hin]%elem_of_app; [by apply Hk|].
    destruct (I i Hin) as [_ (y & org & _ & E)]. apply (projected_known t (f y)). by exists org.
  - exists l. split_and!; [done|..].
    + intros u z Hz Hp. assert (Ho : outbox u = false)
        by (destruct (outbox u) eqn:E; [|done]; destruct Hp as [? Hp]; by rewrite (outbox_projected u z E) in Hp).
      destruct (Hbwd u z Ho Hz) as (y & Hy & _ & [ -> | [e He] ]); [by left|]. right. destruct e.
      destruct He as [Hpy ->].
      destruct (C y ltac:(by apply elem_of_where_) Hp) as (i & org & Hin & E). exists i. split; [done|].
      by exists org.
    + intros u y Hy Hp. apply Hfwd; [|done].
      destruct (outbox u) eqn:E; [|done]. destruct Hp as [? Hp]. by rewrite (outbox_projected u y E) in Hp.
Qed.

(** Nothing that the graph is made of, or that tells of it. *)
Lemma same_projection d d' : outbox_ok d → consistent d' → tab d' GraphOutbox = tab d GraphOutbox →
  db_next d ≤ db_next d' → (∀ u x, is_Some (projected u x) → tab d' u = tab d u) →
  outbox_ok d' ∧ evolves d d'.
Proof.
  intros [Hc Hr Hi Hn Hk] Hc' TG Hnext Ht.
  assert (Hm : ∀ u (x : row u) k, k ∈ mentions u x → is_Some (projected u x))
    by (intros u x k H; destruct u; try (by apply not_elem_of_nil in H); by eexists).
  split; [split|].
  - done.
  - intros u x k Hx Hk'. rewrite (Ht u x) in Hx by (by apply (Hm u x k)).
    destruct (Hr u x k Hx Hk') as (v & y & Hy & Ho). exists v, y. split; [|done].
    rewrite (Ht v y); [done|]. destruct v; try done; by eexists.
  - by rewrite TG.
  - intros i Hin. rewrite TG in Hin. apply Hn in Hin. lia.
  - intros i Hin. rewrite TG in Hin. by apply Hk.
  - exists []. rewrite app_nil_r. split_and!; [done|..].
    + intros u x Hx Hp. left. by rewrite <-(Ht u x).
    + intros u x Hx Hp. exists x. split; [by rewrite (Ht u x)|done].
Qed.

Lemma statement_evolves d d' : statement d d' → outbox_ok d → outbox_ok d' ∧ evolves d d'.
Proof.
  intros [t x Ht H|t p f Ht Hs H|t p Ht Hp H|now wall -> | -> ] Hok.
  - by apply (insert_evolves t x).
  - by apply (update_evolves t p f).
  - pose proof (exec_delete_consistent t p Ht d (Ok ()) d' H (oo_consistent _ Hok)) as Hc.
    unfold exec_delete in H. apply st_bind_ok in H as ([] & d1 & [= _ <-] & H).
    unfold delete_rows in H. apply modify_ok in H as ->.
    apply same_projection; [done|done|by apply tab_set_ne; intros ->|cbn; lia|].
    intros u x [q Hq]. apply tab_set_ne. intros ->. by rewrite Hp in Hq.
  - apply same_projection; [done|by apply Hok|done|cbn; lia|done].
  - apply same_projection; [done|by apply Hok|done|cbn; lia|done].
Qed.

Lemma statements_evolve d d' : rtc statement d d' → outbox_ok d → outbox_ok d' ∧ evolves d d'.
Proof.
  induction 1 as [d|d d1 d2 Hs _ IH]; intros Hok; [split; [done|apply evolves_refl]|].
  destruct (statement_evolves _ _ Hs Hok) as [Hok1 H1]. destruct (IH Hok1) as [Hok2 H2].
  split; [done|by apply (evolves_trans d d1)].
Qed.

Lemma empty_outbox_ok : outbox_ok empty_db.
Proof.
  split; [by intros t Ht|by intros t x k ?%not_elem_of_nil|apply NoDup_nil_2|..];
    by intros i ?%not_elem_of_nil.
Qed.

(** * Rows agree on what they write *)

Lemma sorted_pair {A} (R : A → A → Prop) l x y :
  StronglySorted R l → x ∈ l → y ∈ l → x = y ∨ R x y ∨ R y x.
Proof.
  induction 1 as [|z l Hs IH Hz]; intros Hx Hy; [by apply not_elem_of_nil in Hx|].
  rewrite Forall_forall in Hz.
  apply elem_of_cons in Hx as [ -> |Hx], Hy as [ -> |Hy]; [by left|right; left; auto|right; right; auto|auto].
Qed.

Lemma incompatible_keys t x y : is_Some (projected t x) → key_columns t x = key_columns t y →
  compatible t x y ≠ Ok ().
Proof.
  intros Hp Hk Hc. assert (Hin : ∀ b e, (b, e) ∈ pair_checks t x y → b = true)
    by (intros b e; by apply checks_in).
  clear Hc. destruct t; try (by destruct Hp); cbn in Hk; injection Hk; intros;
    pose proof (Hin _ _ (list_elem_of_here _ _)) as Hneq;
    rewrite ?negb_true_iff, ?andb_false_iff, ?Z.eqb_neq in Hneq; naive_solver.
Qed.

(** Two rows with one primary key are one row. *)
Lemma key_unique d t x y : consistent d → x ∈ tab d t → y ∈ tab d t → is_Some (projected t x) →
  key_columns t x = key_columns t y → x = y.
Proof.
  intros Hc Hx Hy Hp Hk. assert (Ho : outbox t = false)
    by (destruct (outbox t) eqn:E; [|done]; destruct Hp as [? Hp]; by rewrite (outbox_projected t x E) in Hp).
  pose proof (proj1 (for_pairs_ok _ _) (Hc t Ho)) as Hs.
  destruct (sorted_pair _ _ _ _ Hs Hx Hy) as [?|[H|H]]; [done|exfalso|exfalso].
  - by apply (incompatible_keys t x y).
  - apply (incompatible_keys t y x); [|done..]. destruct t; try (by destruct Hp); by eexists.
Qed.

Section agreement.
Context `{FR : !FloatRepr} `{SH : !Sha256}.

Lemma owner_effects d t x u y k : consistent d → x ∈ tab d t → y ∈ tab d u →
  owns t x = Some k → owns u y = Some k → effects_of t x = effects_of u y.
Proof.
  intros Hc Hx Hy Ho Ho'. destruct t; try done; injection Ho as <-; destruct u; try done;
    injection Ho' as Hk; f_equal; apply (key_unique d); try done; try (by eexists); cbn; by rewrite Hk.
Qed.

Lemma link_agree d t x u y k : consistent d → x ∈ tab d t → y ∈ tab d u →
  k ∈ links t x → k ∈ links u y → link_vals t x = link_vals u y.
Proof.
  intros Hc Hx Hy Hk Hk'.
  assert (Hv : ∀ w (z : row w), k ∈ links w z →
    link_vals w z = [] ∧ k.1.1 ≠ "EVIDENCE_FOR"%string ∧ k.1.1 ≠ "INCLUDED"%string ∨
    w = EvidenceLinks ∧ k.1.1 = "EVIDENCE_FOR"%string ∨ w = SnapshotFacts ∧ k.1.1 = "INCLUDED"%string).
  { intros w z H. destruct w; cbn in H; try (by apply not_elem_of_nil in H);
      try destruct (fv_supersedes_id z);
      rewrite ?elem_of_cons, ?elem_of_nil in H; destruct_or? H; try done; subst k;
      first [by left|by right; left|by right; right]. }
  destruct (Hv t x Hk) as [(E & N1 & N2)|[[-> E]|[-> E]]],
    (Hv u y Hk') as [(E' & N1' & N2')|[[-> E']|[-> E']]]; try congruence.
  - cbn in Hk, Hk'. apply list_elem_of_singleton in Hk as ->. apply list_elem_of_singleton in Hk' as Hk'.
    injection Hk' as E1 E2. f_equal. apply (key_unique d); [done..|by eexists|]. cbn. by rewrite E1, E2.
  - cbn in Hk, Hk'. apply list_elem_of_singleton in Hk as ->. apply list_elem_of_singleton in Hk' as Hk'.
    injection Hk' as E1 E2. f_equal. apply (key_unique d); [done..|by eexists|]. cbn. by rewrite E1, E2.
Qed.

Lemma rows_agree d t x es u y fs : consistent d → x ∈ tab d t → y ∈ tab d u →
  effects_of t x = Ok es → effects_of u y = Ok fs → ∀ e f, e ∈ es → f ∈ fs → agree e f.
Proof.
  intros Hc Hx Hy He Hf e f Hin Hin'.
  pose proof (proj1 (Forall_forall _ _) (effects_describe t x es He) e Hin) as De.
  pose proof (proj1 (Forall_forall _ _) (effects_describe u y fs Hf) f Hin') as Df.
  destruct e as [k v| |k v], f as [k' v'| |k' v']; try done; cbn in De, Df |- *; intros <-.
  - destruct De as [Ho _], Df as [Ho' _]. pose proof (owner_effects d t x u y k Hc Hx Hy Ho Ho') as E.
    rewrite E in He. rewrite Hf in He. injection He as <-. by apply (effects_put_once u y fs k).
  - destruct De as (Hk & -> & _), Df as (Hk' & -> & _). by apply (link_agree d t x u y k).
Qed.

Lemma describes_named t x e : describes t x e → named e.
Proof. destruct e; cbn; naive_solver. Qed.

End agreement.

(** * The graph tells what the outbox does not *)

Section convergence.
Context `{FR : !FloatRepr} `{SH : !Sha256}.

(** The graph shows a row: its node, the nodes it mentions, its relationships. *)
Definition shown (g : graph) (t : table) (x : row t) : Prop :=
  ∃ es, effects_of t x = Ok es ∧ ∀ e, e ∈ es → holds g e.

Record graph_ok (d : db) (g : graph) : Prop := {
  gk_shown : ∀ t x, x ∈ tab d t → is_Some (projected t x) →
    (∃ i, i ∈ tab d GraphOutbox ∧ about t x i) ∨ shown g t x;
  gk_nodes : ∀ k, is_Some (nodes g !! k) → ∃ t x, x ∈ tab d t ∧ (owns t x = Some k ∨ k ∈ mentions t x);
  gk_rels : ∀ k, is_Some (rels g !! k) → ∃ t x, x ∈ tab d t ∧ k ∈ links t x;
  gk_named : well_named g;
}.

Lemma empty_graph_ok : graph_ok empty_db empty_graph.
Proof.
  split; [by intros t x ?%not_elem_of_nil|..|exact empty_well_named];
    cbn [nodes rels empty_graph]; intros k [v Hv]; by apply lookup_empty_Some in Hv.
Qed.

Lemma owner_projected t x k : owns t x = Some k ∨ k ∈ mentions t x → is_Some (projected t x).
Proof. intros H. destruct t; try (by destruct H as [?|?%not_elem_of_nil]); by eexists. Qed.
Lemma link_projected t x k : k ∈ links t x → is_Some (projected t x).
Proof. intros H. destruct t; try (by apply not_elem_of_nil in H); by eexists. Qed.

(** What is in the graph stays right while the database moves on. *)
Lemma evolves_nodes d d' g k : evolves d d' → graph_ok d g → is_Some (nodes g !! k) →
  ∃ t x, x ∈ tab d' t ∧ (owns t x = Some k ∨ k ∈ mentions t x).
Proof.
  intros (l & _ & _ & Hk) Hg Hs. destruct (gk_nodes _ _ Hg k Hs) as (t & x & Hx & Ho).
  destruct (Hk t x Hx (owner_projected _ _ _ Ho)) as (y & Hy & Hsh). exists t, y. split; [done|].
  assert (E1 : owns t y = owns t x) by (by injection Hsh).
  assert (E2 : mentions t y = mentions t x) by (by injection Hsh). by rewrite E1, E2.
Qed.

Lemma evolves_rels d d' g k : evolves d d' → graph_ok d g → is_Some (rels g !! k) →
  ∃ t x, x ∈ tab d' t ∧ k ∈ links t x.
Proof.
  intros (l & _ & _ & Hk) Hg Hs. destruct (gk_rels _ _ Hg k Hs) as (t & x & Hx & Ho).
  destruct (Hk t x Hx (link_projected _ _ _ Ho)) as (y & Hy & Hsh). exists t, y. split; [done|].
  assert (E1 : links t y = links t x) by (by injection Hsh). by rewrite E1.
Qed.

Lemma evolves_graph_ok d d' g : evolves d d' → graph_ok d g → graph_ok d' g.
Proof.
  intros He Hg. split; [|by intros k; apply (evolves_nodes d)|by intros k; apply (evolves_rels d)|by apply Hg].
  intros t x Hx Hp. destruct He as (l & T & Hnew & _). rewrite T.
  destruct (Hnew t x Hx Hp) as [Hold|(i & Hi & Ha)].
  - destruct (gk_shown _ _ Hg t x Hold Hp) as [(i & Hi & Ha)|H]; [|by right]. left. exists i.
    split; [apply elem_of_app; by left|done].
  - left. exists i. split; [apply elem_of_app; by right|done].
Qed.

(** ** What an iteration writes *)

(** Every row of the list, by table, with its effects. *)
Definition effects_from (loaded : ∀ t, list (row t)) (es : list effect) : Prop :=
  (∀ e, e ∈ es → ∃ t x fs, x ∈ loaded t ∧ effects_of t x = Ok fs ∧ e ∈ fs) ∧
  (∀ t x, t ∈ TABLE_ORDER → x ∈ loaded t → ∃ fs, effects_of t x = Ok fs ∧ ∀ e, e ∈ fs → e ∈ es).

Lemma rows_of_mapR (f : table → result (list graph_row)) ts m t :
  mapR (λ t, rows ← f t; Ok (t, rows)) ts = Ok m → t ∈ ts → f t = Ok (rows_of m t).
Proof.
  revert m. induction ts as [|u ts IH]; intros m; [by intros _ ?%not_elem_of_nil|].
  cbn [mapR]. intros (kv & (rows & Hf & [= <-])%result_bind_ok & H)%result_bind_ok Ht.
  apply result_bind_ok in H as (m' & Hm & [= <-]). unfold rows_of. cbn [List.find fst].
  destruct (decide (u = t)) as [<-|Hne]; [by rewrite bool_decide_eq_true_2|].
  rewrite bool_decide_eq_false_2 by done. apply IH; [done|]. by apply elem_of_cons in Ht as [->|Ht].
Qed.

Lemma mapR_concat {A B} (f : A → result (list B)) l ess :
  mapR f l = Ok ess →
  (∀ e, e ∈ concat ess → ∃ x fs, x ∈ l ∧ f x = Ok fs ∧ e ∈ fs) ∧
  (∀ x, x ∈ l → ∃ fs, f x = Ok fs ∧ ∀ e, e ∈ fs → e ∈ concat ess).
Proof.
  intros H%mapR_ok. induction H as [|x fs l ess Hx _ [IH1 IH2]]; cbn.
  - split; by intros ? ?%not_elem_of_nil.
  - split.
    + intros e [He|He]%elem_of_app; [exists x, fs; split_and!; [left|done..]|].
      destruct (IH1 e He) as (y & gs & Hy & ? & ?). exists y, gs. split_and!; [by right|done..].
    + intros y [->|Hy]%elem_of_cons; [exists fs; split; [done|]; intros e He; apply elem_of_app; by left|].
      destruct (IH2 y Hy) as (gs & ? & Hgs). exists gs. split; [done|]. intros e He. apply elem_of_app.
      right. by apply Hgs.
Qed.

Lemma statement_rows_effects loaded rows t fs :
  mapR (to_graph_row t) (loaded t) = Ok (rows_of rows t) → statement_effects rows t = Ok fs →
  (∀ e, e ∈ fs → ∃ x gs, x ∈ loaded t ∧ effects_of t x = Ok gs ∧ e ∈ gs) ∧
  (∀ x, x ∈ loaded t → ∃ gs, effects_of t x = Ok gs ∧ ∀ e, e ∈ gs → e ∈ fs).
Proof.
  intros Hr (ess & He & [= <-])%result_bind_ok. apply mapR_concat in He as [H1 H2].
  pose proof (mapR_ok _ _ _ Hr) as HF. split.
  - intros e He. destruct (H1 e He) as (r & gs & Hin & Hg & Heg).
    apply list_elem_of_lookup in Hin as [i Hi]. destruct (Forall2_lookup_r _ _ _ _ _ HF Hi) as (x & Hx & E).
    exists x, gs. split_and!; [by eapply list_elem_of_lookup_2| |done]. unfold effects_of. by rewrite E.
  - intros x Hx. apply list_elem_of_lookup in Hx as [i Hi].
    destruct (Forall2_lookup_l _ _ _ _ _ HF Hi) as (r & Hin & E).
    destruct (H2 r ltac:(by eapply list_elem_of_lookup_2)) as (gs & Hg & Hgs). exists gs.
    split; [unfold effects_of; by rewrite E|done].
Qed.

Lemma loaded_effects loaded rows ess : graph_rows_of loaded = Ok rows →
  mapR (statement_effects rows) TABLE_ORDER = Ok ess → effects_from loaded (concat ess).
Proof.
  intros Hr [H1 H2]%mapR_concat.
  assert (Hrow : ∀ t, t ∈ TABLE_ORDER → mapR (to_graph_row t) (loaded t) = Ok (rows_of rows t))
    by (intros t; by apply (rows_of_mapR (λ t, mapR (to_graph_row t) (loaded t)) TABLE_ORDER)).
  split.
  - intros e He. destruct (H1 e He) as (t & fs & Ht & Hf & Hin).
    destruct (proj1 (statement_rows_effects loaded rows t fs (Hrow t Ht) Hf) e Hin) as (x & gs & ? & ? & ?).
    by exists t, x, gs.
  - intros t x Ht Hx. destruct (H2 t Ht) as (fs & Hf & Hin).
    destruct (proj2 (statement_rows_effects loaded rows t fs (Hrow t Ht) Hf) x Hx) as (gs & Hg & Hgs).
    exists gs. split; [done|]. auto.
Qed.

Lemma projected_ordered t x : is_Some (projected t x) → t ∈ TABLE_ORDER.
Proof. intros [q H]. destruct t; try done; unfold TABLE_ORDER; set_solver. Qed.

(** ** One iteration keeps the graph right *)

(** Rows that show among the effects of all rows of a consistent database. *)
Lemma written_shown d loaded es g t x : consistent d → (∀ u y, y ∈ loaded u → y ∈ tab d u) →
  effects_from loaded es → well_named g → t ∈ TABLE_ORDER → x ∈ loaded t ∨ x ∈ tab d t ∧ shown g t x →
  shown (fold_left apply_effect es g) t x.
Proof.
  intros Hc Hl [H1 H2] Hw Ht Hx.
  assert (Hn : Forall named es).
  { apply Forall_forall. intros e He. destruct (H1 e He) as (u & y & fs & _ & Hf & Hin).
    apply effects_describe in Hf. rewrite Forall_forall in Hf. by apply (describes_named u y), Hf. }
  assert (Hag : ∀ u y fs, y ∈ tab d u → effects_of u y = Ok fs → ∀ e f, e ∈ es → f ∈ fs → agree e f).
  { intros u y fs Hy Hf e f He Hin. destruct (H1 e He) as (v & z & gs & Hz & Hg & Hin').
    by apply (rows_agree d v z gs u y fs Hc (Hl _ _ Hz) Hy Hg Hf). }
  destruct Hx as [Hx|[Hx (fs & Hf & Hs)]].
  - destruct (H2 t x Ht Hx) as (fs & Hf & Hin). exists fs. split; [done|]. intros f Hfin.
    apply apply_all_hold; [done..| |by apply Hin]. intros e e' He He'.
    destruct (H1 e' He') as (u & y & gs & Hy & Hg & Hin'). by apply (Hag u y gs (Hl _ _ Hy) Hg).
  - exists fs. split; [done|]. intros f Hfin. apply apply_all_keep; [done..| |by apply Hs].
    intros e He. by apply (Hag t x fs Hx Hf).
Qed.

Lemma written_parts d loaded es g : (∀ u y, y ∈ loaded u → y ∈ tab d u) → effects_from loaded es →
  graph_ok d g →
  (∀ k, is_Some (nodes (fold_left apply_effect es g) !! k) →
     ∃ t x, x ∈ tab d t ∧ (owns t x = Some k ∨ k ∈ mentions t x)) ∧
  (∀ k, is_Some (rels (fold_left apply_effect es g) !! k) → ∃ t x, x ∈ tab d t ∧ k ∈ links t x) ∧
  well_named (fold_left apply_effect es g).
Proof.
  intros Hl [H1 _] Hg.
  assert (Hd : ∀ e, e ∈ es → ∃ t x, x ∈ tab d t ∧ describes t x e).
  { intros e He. destruct (H1 e He) as (t & x & fs & Hx & Hf & Hin). exists t, x. split; [by apply Hl|].
    apply effects_describe in Hf. rewrite Forall_forall in Hf. by apply Hf. }
  split_and!.
  - intros k [H|(e & He & Htn)]%apply_all_node; [by apply (gk_nodes _ _ Hg)|].
    destruct (Hd e He) as (t & x & Hx & Hde). exists t, x. split; [done|].
    destruct e; cbn in Htn, Hde; [left|right|done]; naive_solver.
  - intros k [H|(e & He & Htr)]%apply_all_rel; [by apply (gk_rels _ _ Hg)|].
    destruct (Hd e He) as (t & x & Hx & Hde). exists t, x. split; [done|].
    destruct e; cbn in Htr, Hde; [done..|]. naive_solver.
  - apply apply_all_named; [|by apply Hg]. apply Forall_forall. intros e He.
    destruct (Hd e He) as (t & x & _ & Hde). by apply (describes_named t x).
Qed.

(** The outbox without some events. *)
Definition items_without (events : list graph_item) (d : db) : db :=
  set_tab GraphOutbox (where_ (λ e, negb (bool_decide (go_id e ∈ map go_id events))) (tab d GraphOutbox)) d.

Lemma delete_items events d : GraphOutboxRepository.delete events d = (Ok (), items_without events d).
Proof.
  unfold GraphOutboxRepository.delete, exec_delete, mbind, st_bind.
  assert (E : ∀ l, for_all (λ x : row GraphOutbox, before_write GraphOutbox x None) l = Ok ())
    by (intros l; by apply for_all_ok).
  by rewrite E.
Qed.

Lemma items_without_ok events d : outbox_ok d → outbox_ok (items_without events d).
Proof.
  intros [Hc Hr Hi Hn Hk].
  assert (E : ∀ u, u ≠ GraphOutbox → tab (items_without events d) u = tab d u)
    by (intros u Hu; apply tab_set_ne; congruence).
  assert (EG : tab (items_without events d) GraphOutbox
               = where_ (λ e, negb (bool_decide (go_id e ∈ map go_id events))) (tab d GraphOutbox))
    by apply tab_set_eq.
  split.
  - intros t Ht. rewrite E by (by intros ->). by apply Hc.
  - intros t x k Hx Hm. rewrite E in Hx by (intros ->; by apply not_elem_of_nil in Hm).
    destruct (Hr t x k Hx Hm) as (u & y & Hy & Ho). exists u, y. split; [|done]. rewrite E; [done|]. by intros ->.
  - rewrite EG. by apply map_where_NoDup.
  - intros i. rewrite EG. intros [_ H]%elem_of_where_. by apply Hn.
  - intros i. rewrite EG. intros [_ H]%elem_of_where_. by apply Hk.
Qed.

(** Writing the rows that the claimed events of [d] name, while the database moved
    on to [d1]: right whether or not the events are then deleted. *)
Lemma write_graph_ok d d1 g events loaded es d' :
  outbox_ok d → outbox_ok d1 → evolves d d1 → graph_ok d g →
  (∀ i, i ∈ events → i ∈ tab d GraphOutbox) → GraphOutboxRepository.load events d = Ok loaded →
  effects_from loaded es → d' = d1 ∨ d' = items_without events d1 →
  graph_ok d' (fold_left apply_effect es g).
Proof.
  intros Hok Hok1 He Hg Hev Hload Hes Hdel.
  assert (Hld : loaded = λ t, where_ (λ x, bool_decide (key_columns t x ∈ GraphOutboxRepository.keys events t))
                                (tab d t)).
  { unfold GraphOutboxRepository.load in Hload. destruct (forallb _ _); [by injection Hload|done]. }
  assert (Hl : ∀ u y, y ∈ loaded u → y ∈ tab d u) by (intros u y; rewrite Hld; by intros [_ ?]%elem_of_where_).
  destruct (written_parts d loaded es g Hl Hes Hg) as (Hn & Hr & Hw).
  assert (Ho : ∀ u, u ≠ GraphOutbox → tab d' u = tab d1 u)
    by (intros u Hu; destruct Hdel as [->| ->]; [done|apply tab_set_ne; congruence]).
  assert (Hmid : graph_ok d (fold_left apply_effect es g)).
  { split; [|done..]. intros t x Hx Hp. destruct (gk_shown _ _ Hg t x Hx Hp) as [?|Hs]; [by left|]. right.
    apply (written_shown d loaded); [apply Hok|done..|apply Hg|by apply (projected_ordered t x)|by right]. }
  split; [|intros k Hs; destruct (evolves_nodes d d1 _ k He Hmid Hs) as (t & x & Hx & H)
          |intros k Hs; destruct (evolves_rels d d1 _ k He Hmid Hs) as (t & x & Hx & H)|done].
  2:{ exists t, x. rewrite Ho; [done|]. intros ->. by apply owner_projected in H as [? ?]. }
  2:{ exists t, x. rewrite Ho; [done|]. intros ->. by apply link_projected in H as [? ?]. }
  intros t x Hx Hp. rewrite Ho in Hx by (intros ->; by destruct Hp).
  destruct He as (l & T & Hnew & _).
  assert (Hkeep : ∀ i, i ∈ tab d1 GraphOutbox → i ∉ events → i ∈ tab d' GraphOutbox).
  { intros i Hi Hni. destruct Hdel as [->| ->]; [done|]. unfold items_without. rewrite tab_set_eq. apply elem_of_where_. split; [|done].
    apply negb_true_iff, bool_decide_eq_false. intros (j & Hid & Hj)%list_elem_of_fmap. apply Hni.
    assert (i = j) as ->; [|done]. apply (same_key_same go_id (tab d1 GraphOutbox)); [apply Hok1|done| |done].
    rewrite T. apply elem_of_app. left. by apply Hev. }
  destruct (Hnew t x Hx Hp) as [Hold|(i & Hi & Ha)].
  - destruct (gk_shown _ _ Hg t x Hold Hp) as [(i & Hi & Ha)|Hs].
    + destruct (decide (i ∈ events)) as [Hie|Hie]; [|left; exists i; split; [|done]; apply Hkeep; [|done]].
      * right. apply (written_shown d loaded); [apply Hok|done..|apply Hg|by apply (projected_ordered t x)|].
        left. apply about_spec in Ha as (Hn' & Hkey & _). rewrite Hld. apply elem_of_where_.
        split; [|done]. apply bool_decide_eq_true. unfold GraphOutboxRepository.keys.
        apply list_elem_of_fmap. exists i. split; [done|]. apply elem_of_where_. split; [|done].
        by apply bool_decide_eq_true.
      * rewrite T. apply elem_of_app. by left.
    + right. apply (written_shown d loaded); [apply Hok|done..|apply Hg|by apply (projected_ordered t x)|].
      by right.
  - left. exists i. split; [|done]. apply Hkeep; [rewrite T; apply elem_of_app; by right|].
    intros Hie. apply Hev in Hie. pose proof (oo_ids _ Hok1) as Hn'. rewrite T, map_app in Hn'.
    apply NoDup_app in Hn' as (_ & Hdis & _).
    apply (Hdis (go_id i)); apply list_elem_of_fmap; by exists i.
Qed.

(** What an iteration does: nothing but let others act, or write the rows of its
    events and perhaps delete these. *)
Lemma run_projector_cases batch_size organization_id env s r s' :
  run_projector batch_size organization_id env s = (r, s') →
  s' = s ∨ s' = ge_others env s ∨
  ∃ events loaded es d',
    (∀ i, i ∈ events → i ∈ tab s.1 GraphOutbox) ∧ GraphOutboxRepository.load events s.1 = Ok loaded ∧
    effects_from loaded es ∧ (d' = (ge_others env s).1 ∨ d' = items_without events (ge_others env s).1) ∧
    s' = (d', fold_left apply_effect es (ge_others env s).2).
Proof.
  unfold run_projector, mbind at 1, st_bind at 1, gets at 1, mbind at 1, st_bind at 1, lift at 1.
  destruct (read_events _ _ _ _) as [[events rows]|e] eqn:Er; [|intros [= <- <-]; by left]. cbn [fst snd].
  destruct events as [|i0 events0]; [intros H; left; apply db_transaction_cases in H as
    [(a & [= <- <-] & _)|(r1 & e & s1 & [= <- <-] & _ & -> & _)]; [done|by destruct s]|].
  set (events := i0 :: events0) in *. unfold mbind at 1, st_bind at 1, modify at 1.
  set (s1 := ge_others env s). unfold read_events in Er.
  destruct (GraphOutboxRepository.claim _ _ _ _) as [|i1 l1] eqn:Ec; [done|].
  apply result_bind_ok in Er as (loaded & Hload & Er). apply result_bind_ok in Er as (rows' & Hrows & [= <- <- <-]).
  assert (Hin : ∀ i, i ∈ events → i ∈ tab s.1 GraphOutbox).
  { intros i Hi. unfold events in Hi. rewrite <-Ec in Hi. unfold GraphOutboxRepository.claim, sort_on in Hi.
    apply in_take_elem in Hi. rewrite elem_of_sort_by in Hi. by apply elem_of_where_ in Hi as [_ ?]. }
  assert (Hw : ∀ w g', apply_rows (ge_write env) rows' s1.2 = (w, g') →
    g' = s1.2 ∧ is_ok w = false ∨ ∃ es, effects_from loaded es ∧ g' = fold_left apply_effect es s1.2).
  { unfold apply_rows. intros w g'. destruct (mapR _ TABLE_ORDER) as [ess|e] eqn:Em; [|intros [= <- <-]; by left].
    pose proof (loaded_effects _ _ _ Hrows Em).
    destruct (ge_write env); intros [= <- <-]; [right|by left|right]; by eexists. }
  intros H. set (body := on_ext _ ≫= _) in H.
  assert (Hbody : ∀ r1 s2, body s1 = (r1, s2) → s2.1 = s1.1 ∧ is_ok r1 = false ∧
      (s2.2 = s1.2 ∨ ∃ es, effects_from loaded es ∧ s2.2 = fold_left apply_effect es s1.2) ∨
    s2.1 = items_without events s1.1 ∧ ∃ es, effects_from loaded es ∧ s2.2 = fold_left apply_effect es s1.2).
  { intros r1 s2. unfold body, mbind at 1, st_bind at 1, on_ext.
    destruct (apply_rows (ge_write env) rows' s1.2) as [w g'] eqn:Ea. pose proof (Hw _ _ eq_refl) as Hg'.
    destruct w as [n|e]; [|intros [= <- <-]; left; naive_solver].
    unfold mbind at 1, st_bind at 1, on_db. cbn [fst snd]. rewrite delete_items. intros [= <- <-].
    right. destruct Hg' as [[_ ?]|?]; done. }
  apply db_transaction_cases in H as [(a & H & _)|(r1 & e & s2 & H & _ & -> & _)];
    destruct (Hbody _ _ H) as [(E1 & E2 & E3)|(E1 & es & E2 & E3)]; try done.
  - right; right. exists events, loaded, es, s'.1. split_and!; try done; [by right|]. by rewrite <-E3, <-surjective_pairing.
  - destruct E3 as [E3|(es & E3 & E4)]; [right; left; rewrite E3; by rewrite <-surjective_pairing|].
    right; right. exists events, loaded, es, s1.1. split_and!; try done; [by left|]. by rewrite E4.
  - right; right. exists events, loaded, es, s1.1. split_and!; try done; [by left|]. by rewrite E3.
Qed.

(** * Convergence *)

(** The program writes; the one projector works on its batch while others write. *)
Inductive projection_step (s : db * graph) : db * graph → Prop :=
  | step_statement d : statement s.1 d → projection_step s (d, s.2)
  | step_projector batch_size organization_id env r s' :
      (∃ d, rtc statement s.1 d ∧ ge_others env s = (d, s.2)) →
      run_projector batch_size organization_id env s = (r, s') → projection_step s s'.

Lemma projection_step_ok s s' : projection_step s s' →
  outbox_ok s.1 → graph_ok s.1 s.2 → outbox_ok s'.1 ∧ graph_ok s'.1 s'.2.
Proof.
  intros [d H|batch org env r s'' (d & Hd & Ho) H] Hok Hg.
  - destruct (statement_evolves _ _ H Hok) as [Hok' He]. split; [done|by apply (evolves_graph_ok s.1)].
  - destruct (statements_evolve _ _ Hd Hok) as [Hok' He].
    apply run_projector_cases in H as [->|[->|(events & loaded & es & d' & Hin & Hl & Hes & Hd' & ->)]]; [done|..].
    + rewrite Ho. split; [done|by apply (evolves_graph_ok s.1)].
    + rewrite Ho in Hd' |- *. cbn [fst snd] in *. split.
      * destruct Hd' as [->| ->]; [done|by apply items_without_ok].
      * by apply (write_graph_ok s.1 d s.2 events loaded es d').
Qed.

Lemma projection_reachable_ok s : rtc projection_step (empty_db, empty_graph) s →
  outbox_ok s.1 ∧ graph_ok s.1 s.2.
Proof.
  assert (G : ∀ a b, rtc projection_step a b → outbox_ok a.1 ∧ graph_ok a.1 a.2 → outbox_ok b.1 ∧ graph_ok b.1 b.2).
  { induction 1 as [a|a b c Hs _ IH]; [done|]. intros [Ha Hg]. by apply IH, (projection_step_ok a). }
  intros H. apply (G _ _ H). split; [exact empty_outbox_ok|exact empty_graph_ok].
Qed.

(** ** The graph rebuilt from scratch *)

Definition rebuild (d : db) : result graph :=
  rows ← graph_rows_of (tab d);
  ess ← mapR (statement_effects rows) TABLE_ORDER;
  Ok (fold_left apply_effect (concat ess) empty_graph).

(** A graph that shows every row and nothing else. *)
Record mirrors (d : db) (g : graph) : Prop := {
  mi_shown : ∀ t x, x ∈ tab d t → is_Some (projected t x) → shown g t x;
  mi_nodes : ∀ k, is_Some (nodes g !! k) → ∃ t x, x ∈ tab d t ∧ owns t x = Some k;
  mi_rels : ∀ k, is_Some (rels g !! k) → ∃ t x, x ∈ tab d t ∧ k ∈ links t x;
}.

Lemma drained_mirrors d g : outbox_ok d → graph_ok d g → tab d GraphOutbox = [] → mirrors d g.
Proof.
  intros Hok Hg Hnil. split; [| |apply Hg].
  - intros t x Hx Hp. destruct (gk_shown _ _ Hg t x Hx Hp) as [(i & Hi & _)|?]; [|done].
    rewrite Hnil in Hi. by apply not_elem_of_nil in Hi.
  - intros k Hk. destruct (gk_nodes _ _ Hg k Hk) as (t & x & Hx & [Ho|Hm]); [by exists t, x|].
    apply (oo_refs _ Hok t x k Hx Hm).
Qed.

(** Such a graph is determined. *)
Lemma mirrors_nodes d g g' k : mirrors d g → mirrors d g' → is_Some (nodes g !! k) → nodes g' !! k = nodes g !! k.
Proof.
  intros [Hs Hn _] [Hs' _ _] Hk. destruct (Hn k Hk) as (t & x & Hx & Ho).
  pose proof (owner_projected t x k (or_introl Ho)) as Hp.
  destruct (Hs t x Hx Hp) as (es & E & H), (Hs' t x Hx Hp) as (es' & E' & H').
  rewrite E in E'. injection E' as <-. destruct (effects_cover t x es E) as (Hc & _ & _).
  destruct (Hc k Ho) as (vals & Hin). pose proof (H _ Hin). pose proof (H' _ Hin). cbn in *. congruence.
Qed.

Lemma mirrors_rels d g g' k : mirrors d g → mirrors d g' → is_Some (rels g !! k) → rels g' !! k = rels g !! k.
Proof.
  intros [Hs _ Hr] [Hs' _ _] Hk. destruct (Hr k Hk) as (t & x & Hx & Ho).
  pose proof (link_projected t x k Ho) as Hp.
  destruct (Hs t x Hx Hp) as (es & E & H), (Hs' t x Hx Hp) as (es' & E' & H').
  rewrite E in E'. injection E' as <-. destruct (effects_cover t x es E) as (_ & _ & Hc).
  pose proof (H _ (Hc k Ho)). pose proof (H' _ (Hc k Ho)). cbn in *. congruence.
Qed.

Lemma mirrors_unique d g g' : mirrors d g → mirrors d g' → g = g'.
Proof.
  intros H H'. assert (En : nodes g = nodes g').
  { apply map_eq. intros k. destruct (nodes g !! k) as [m|] eqn:E.
    - symmetry. rewrite <-E. apply (mirrors_nodes d); [done..|by eexists].
    - destruct (nodes g' !! k) as [m|] eqn:E'; [|done]. rewrite <-E, <-E'.
      apply (mirrors_nodes d); [done..|by eexists]. }
  assert (Er : rels g = rels g').
  { apply map_eq. intros k. destruct (rels g !! k) as [m|] eqn:E.
    - symmetry. rewrite <-E. apply (mirrors_rels d); [done..|by eexists].
    - destruct (rels g' !! k) as [m|] eqn:E'; [|done]. rewrite <-E, <-E'.
      apply (mirrors_rels d); [done..|by eexists]. }
  destruct g, g'. cbn in *. by subst.
Qed.

Lemma rebuilt_mirrors d es : consistent d → refs_ok d → effects_from (tab d) es →
  mirrors d (fold_left apply_effect es empty_graph).
Proof.
  intros Hc Hr Hes. pose proof Hes as [H1 _].
  assert (Hd : ∀ e, e ∈ es → ∃ t x, x ∈ tab d t ∧ describes t x e).
  { intros e He. destruct (H1 e He) as (t & x & fs & Hx & Hf & Hin). exists t, x. split; [done|].
    apply effects_describe in Hf. rewrite Forall_forall in Hf. by apply Hf. }
  split.
  - intros t x Hx Hp. apply (written_shown d (tab d)); [done..|exact empty_well_named| |by left].
    by apply (projected_ordered t x).
  - intros k [[v H]|(e & He & Htn)]%apply_all_node.
    { cbn [nodes empty_graph] in H. by apply lookup_empty_Some in H. }
    destruct (Hd e He) as (t & x & Hx & Hde). destruct e; cbn in Htn, Hde; [|apply (Hr t x)|done]; naive_solver.
  - intros k [[v H]|(e & He & Htr)]%apply_all_rel.
    { cbn [rels empty_graph] in H. by apply lookup_empty_Some in H. }
    destruct (Hd e He) as (t & x & Hx & Hde). exists t, x. split; [done|].
    destruct e; cbn in Htr, Hde; [done..|]. naive_solver.
Qed.

Lemma graph_rows_total (loaded : ∀ t, list (row t)) :
  (∀ t x, t ∈ TABLE_ORDER → x ∈ loaded t → ∃ es, effects_of t x = Ok es) →
  ∃ rows ess, graph_rows_of loaded = Ok rows ∧ mapR (statement_effects rows) TABLE_ORDER = Ok ess.
Proof.
  intros H. assert (Hx : ∀ t x, t ∈ TABLE_ORDER → x ∈ loaded t → ∃ r es,
    to_graph_row t x = Ok r ∧ row_effects (CYPHER t) r = Ok es).
  { intros t x Ht Hx. destruct (H t x Ht Hx) as [es (r & Hr & He)%result_bind_ok]. by exists r, es. }
  destruct (mapR_total (λ t, rows ← mapR (to_graph_row t) (loaded t); Ok (t, rows)) TABLE_ORDER) as [rows Hrows].
  { intros t Ht. destruct (mapR_total (to_graph_row t) (loaded t)) as [rs Hrs].
    - intros x Hin. destruct (Hx t x Ht Hin) as (r & es & ? & _). by exists r.
    - exists (t, rs). apply result_bind_ok. by exists rs. }
  destruct (mapR_total (statement_effects rows) TABLE_ORDER) as [ess Hess].
  { intros t Ht. pose proof (rows_of_mapR _ _ _ _ Hrows Ht) as Hr.
    destruct (mapR_total (row_effects (CYPHER t)) (rows_of rows t)) as [es Hes].
    - intros r Hin. apply mapR_ok in Hr. apply list_elem_of_lookup in Hin as [i Hi].
      destruct (Forall2_lookup_r _ _ _ _ _ Hr Hi) as (x & Hix & E).
      destruct (Hx t x Ht ltac:(by eapply list_elem_of_lookup_2)) as (r' & es & E' & He).
      rewrite E in E'. injection E' as <-. by exists es.
    - exists (concat es). apply result_bind_ok. by exists es. }
  by exists rows, ess.
Qed.

Lemma rebuild_spec d g : outbox_ok d → mirrors d g → rebuild d = Ok g.
Proof.
  intros Hok Hm. destruct (graph_rows_total (tab d)) as (rows & ess & Hr & He).
  { intros t x Ht Hx. destruct (mi_shown _ _ Hm t x Hx) as (es & E & _); [|by exists es].
    unfold TABLE_ORDER in Ht. repeat (apply elem_of_cons in Ht as [->|Ht]; [by eexists|]).
    by apply not_elem_of_nil in Ht. }
  unfold rebuild. rewrite Hr. cbn [mbind result_bind]. rewrite He. cbn [mbind result_bind]. f_equal.
  apply (mirrors_unique d); [|done]. apply rebuilt_mirrors; [apply Hok|apply Hok|]. by apply (loaded_effects _ rows).
Qed.

(** C37. The projection of one projector converges: as long as no two projectors work on
    the graph at the same time, whatever the order of the program's writes (also during an
    iteration), the iterations, their batches and scopes, and the failures of either
    commit, once the outbox is empty the graph is the graph rebuilt from the rows of
    the database.  (Two projectors at once may leave it stale for good:
    [two_projectors_leave_the_graph_stale].) *)
Theorem projection_converges s :
  rtc projection_step (empty_db, empty_graph) s → tab s.1 GraphOutbox = [] → rebuild s.1 = Ok s.2.
Proof.
  intros H Hnil. destruct (projection_reachable_ok s H) as [Hok Hg].
  by apply rebuild_spec, drained_mirrors.
Qed.

End convergence.
