(* ===== verification/EventPayloads.v ===== *)
(** What the triggers write and what the consumers read agree: every event that a
    statement puts into the outbox has a payload that the model of its type in
    app/events/schemas.py accepts, so it can be published and decoded; with it, the
    pipeline from statements to counters. *)

From stdpp Require Import gmap.
From S2P Require Import Prelude PyStr Json Regex Validation Access Temporal History Database.
From S2P Require Import Schema EventRelay Accounts FactRepo EvidenceService Canonical FactService.
From S2P Require Import Ledger TemporalService Ranking Retrieval Store RetrievalCache Consumers EventFlow.
From S2P Require Import Decisions Revocations ProvenanceGraph GraphWorker.

(** * Columns and fields *)

(** The field of a payload model reads the column of a trigger. *)
Definition fits (f : FieldType) (c : cell) : bool :=
  match f, c with
  | FUuid, Cuuid _ | FOptUuid, Cuuid _ | FOptUuid, Cnull | FInt, Cint _ | FStr, Ctext _ | FOptStr, Ctext _
  | FOptStr, Cnull | FAwareDatetime, Ctime _ | FOptAwareDatetime, Ctime _ | FOptAwareDatetime, Cnull
  | FBool, Cbool _ => true
  | FPrivacyScope, Ctext s => existsb (λ p, bool_decide (s = scope_text p)) [PUBLIC; INTERNAL; CONFIDENTIAL; RESTRICTED]
  | _, _ => false
  end.

Definition columns_fit (model : list (string * FieldType)) (columns : list (string * cell)) : bool :=
  forallb (λ f, match assoc (py f.1) (map (λ c, (py c.1, c.2)) columns) with
                | Some c => fits f.2 c
                | None => false
                end) model.

Lemma trigger_columns_fit t x org ty agg : emitted t x = Some (org, ty, agg) →
  ∃ topic model, assoc (py ty) EVENT_TYPES = Some (topic, model) ∧ columns_fit model (payload t x) = true.
Proof.
  destruct t; try done; intros [= _ <- _]; eexists _, _; (split; [reflexivity|]); destruct x;
    repeat match goal with o : option _ |- _ => destruct o | p : PrivacyScope |- _ => destruct p end;
    vm_compute; reflexivity.
Qed.

Section typed.
Context `{PF : !PayloadFields} {PL : PayloadFieldsLaws}.

Lemma fits_valid f c : fits f c = true → field_valid f (cell_json c) = true.
Proof using PL.
  destruct f, c; cbn [fits cell_json]; try done; intros H;
    first [apply reads_uuid | apply reads_opt_uuid | apply reads_int | apply reads_str | apply reads_opt_str
          | apply reads_instant | apply reads_opt_instant | apply reads_bool | by apply reads_null; set_solver | idtac].
  apply existsb_exists in H as (p & _ & ->%bool_decide_eq_true). apply reads_scope.
Qed.

Lemma columns_fit_validate model columns : columns_fit model columns = true →
  model_validate model (payload_json columns) = true.
Proof using PL.
  unfold columns_fit, model_validate, payload_json. rewrite !forallb_forall. intros H f Hf. specialize (H f Hf).
  assert (E : map (λ c : string * cell, (py c.1, cell_json c.2)) columns
    = map (λ kv, (kv.1, cell_json kv.2)) (map (λ c : string * cell, (py c.1, c.2)) columns)) by (by rewrite List.map_map).
  rewrite E, assoc_map. destruct (assoc _ _) as [c|]; [|done]. by apply fits_valid.
Qed.

(** An event a trigger wrote has a known type and a payload of it. *)
Lemma event_well_typed t x p d d' e : emitted t x = Some p → is_event_of p (payload t x) d d' e →
  well_typed e ∧ known_event e.
Proof using PL.
  intros Hp He. destruct p as [[org ty] agg].
  destruct (trigger_columns_fit t x _ _ _ Hp) as (topic & model & Ha & Hc). split.
  - unfold well_typed, event_payload. cbn [envelope_for en_type en_data].
    rewrite (ie_type _ _ _ _ _ He), (ie_payload _ _ _ _ _ He). cbn [fst snd]. rewrite Ha. cbn [snd].
    by rewrite columns_fit_validate.
  - exists topic. rewrite (ie_type _ _ _ _ _ He). unfold topic_for. cbn [fst snd]. rewrite Ha. split; [done|].
    clear -Hp. destruct t; try done; injection Hp as _ <- _; repeat constructor.
Qed.

Lemma emitted_update_cases t x : emitted_update t x = None ∨ emitted_update t x = emitted t x.
Proof. destruct t; auto. Qed.

(** * Statements *)

(** Events with identifiers of their own, all below the next one. *)
Record history_ok (l : list outbox_event) (next : Z) : Prop := {
  ho_typed : ∀ e, e ∈ l → well_typed e ∧ known_event e;
  ho_ids : NoDup (map eo_id l);
  ho_event_ids : NoDup (map eo_event_id l);
  ho_next : ∀ e, e ∈ l → eo_id e < next ∧ eo_event_id e < next;
}.

Lemma history_ok_mono l n m : n ≤ m → history_ok l n → history_ok l m.
Proof. intros Hn [H1 H2 H3 H4]. split; [done..|]. intros e He. specialize (H4 e He). lia. Qed.

Lemma fresh_key_NoDup {A} (key : A → Z) l x : NoDup (map key l) → (∀ y, y ∈ l → key y < key x) → NoDup (map key (l ++ [x])).
Proof.
  intros Hn Hlt. rewrite map_app. apply NoDup_app. split_and!; [done| |apply NoDup_singleton].
  intros k (y & -> & Hy)%list_elem_of_fmap E%list_elem_of_singleton. specialize (Hlt y Hy). lia.
Qed.

(** [d'] extends the outbox, and keeps histories in order. *)
Definition extends_history (d d' : db) : Prop :=
  db_next d ≤ db_next d' ∧ ∃ l, tab d' EventOutbox = tab d EventOutbox ++ l ∧
    ∀ h, history_ok h (db_next d) → history_ok (h ++ l) (db_next d').

Lemma extends_same d d' : db_next d ≤ db_next d' → tab d' EventOutbox = tab d EventOutbox → extends_history d d'.
Proof.
  intros Hn E. split; [done|]. exists []. rewrite !app_nil_r. split; [done|]. intros h Hh.
  rewrite app_nil_r. by apply (history_ok_mono _ (db_next d)).
Qed.

#[local] Instance extends_history_preorder : PreOrder extends_history.
Proof.
  split; [by intros d; apply extends_same|]. intros d1 d2 d3 (N1 & l1 & E1 & H1) (N2 & l2 & E2 & H2).
  split; [lia|]. exists (l1 ++ l2). rewrite E2, E1, <-app_assoc. split; [done|]. intros h Hh.
  rewrite app_assoc. by apply H2, H1.
Qed.

Lemma emits_extends t x p d d' : p = None ∨ p = emitted t x → db_next d ≤ db_next d' →
  emits p (payload t x) d d' → extends_history d d'.
Proof using PL.
  intros Hp Hn. destruct p as [p|]; cbn [emits]; [|by apply extends_same]. destruct Hp as [Hp|Hp]; [done|].
  intros (e & E & He). destruct (event_well_typed _ _ _ _ _ _ (eq_sym Hp) He) as [Hw Hk].
  destruct (ie_ids _ _ _ _ _ He) as [I1 I2]. split; [done|]. exists [e]. split; [done|].
  intros h [H1 H2 H3 H4]. split.
  - intros y [Hy| ->%list_elem_of_singleton]%elem_of_app; [by apply H1|done].
  - apply fresh_key_NoDup; [done|]. intros y Hy. destruct (H4 y Hy). lia.
  - apply fresh_key_NoDup; [done|]. intros y Hy. destruct (H4 y Hy). lia.
  - intros y [Hy| ->%list_elem_of_singleton]%elem_of_app; [destruct (H4 y Hy)|]; lia.
Qed.

Lemma updates_extend t (f : row t → row t) l : ∀ d us d',
  mapM_ (λ x, add_event (emitted_update t (f x)) (payload t (f x))) l d = (Ok us, d') → extends_history d d'.
Proof using PL.
  induction l as [|x l IH]; intros d us d' H; [by injection H as _ <-|]. cbn [mapM_] in H.
  apply st_bind_ok in H as (u & d1 & Hx & H). apply st_bind_ok in H as (us' & d2 & Hl & [_ <-]%st_ret_ok).
  transitivity d1; [|by apply IH in Hl].
  destruct (add_event_total (emitted_update t (f x)) (payload t (f x)) d) as (d1' & E & F & _).
  assert (d1' = d1) as -> by congruence.
  apply (emits_extends t (f x) (emitted_update t (f x))); [apply emitted_update_cases|exact (frame_next _ _ _ F)|].
  by apply add_event_emits in Hx.
Qed.

Lemma update_extends t p f d d' : outbox t = false → exec_update t p f d = (Ok (), d') → extends_history d d'.
Proof using PL.
  intros Ho H. unfold exec_update in H. apply st_bind_ok in H as (hit & d0 & [-> ->]%select_ok & H).
  apply st_bind_ok in H as ([] & d1 & [= _ <-] & H). apply st_bind_ok in H as ([] & d2 & Hu & H).
  unfold update_rows in Hu. apply modify_ok in Hu as ->. apply st_bind_ok in H as (es & d3 & He & H).
  apply st_bind_ok in H as (us & d4 & Hm & [_ <-]%st_ret_ok). apply updates_extend in He.
  transitivity (set_tab t (map (λ x, if p x then f x else x) (tab d t)) d).
  { apply extends_same; [done|]. apply tab_set_ne. by intros ->. }
  transitivity d3; [exact He|]. destruct (project_all_total (λ x, projected t (f x)) (where_ p (tab d t)) d3)
    as (us' & d5 & Hm' & F & T). cbv beta in Hm'. assert (d5 = d') as -> by congruence.
  apply extends_same; [exact (frame_next _ _ _ F)|by apply T].
Qed.

Lemma statement_events d d' : statement d d' → extends_history d d'.
Proof using PL.
  intros [t x Ho H|t p f Ho _ H|t p Ho _ H|now wall ->| ->].
  - destruct (exec_insert_ok t x () d d' Ho H) as (_ & F & _).
    apply (emits_extends t x (emitted t x)); [by right|exact (frame_next _ _ _ F)|by eapply exec_insert_emits].
  - by apply (update_extends t p f).
  - destruct (exec_delete_ok t p () d d' H) as (_ & F & _). apply extends_same; [exact (frame_next _ _ _ F)|].
    unfold exec_delete, mbind, st_bind in H. destruct (for_all _ _) as [[]|e]; [|done]. injection H as <-.
    apply tab_set_ne. by intros ->.
  - by apply extends_same.
  - apply extends_same; [cbn; lia|done].
Qed.

End typed.

(** * The pipeline *)

Section pipeline.
Context {X : Type} `{PX : !Publisher X} `{EC : EventCodec} `{PF : !PayloadFields} {PL : PayloadFieldsLaws}.
Context `{EL : !EventCodecLaws} `{ET : ExceptionText} {B : Type} `{PB : !Publisher B} {PBL : PublisherLaws B}.
Context (batch_size : Z) (organization_id : option UUID) (retry : RetryPolicy).

Let name : pystr := eh_name (ActivityProjector : EventHandler X).

(** C34. What triggers emit, consumers accept.  Whatever statements the program runs on
    a store whose pending events are in order - any inserts and updates that pass the
    constraints, of any table but the outboxes, and deletes of rows the graph does not
    show - every event then in the outbox has a topic and can be published, its message
    decodes at a consumer to the event, and the payload model of its type accepts the
    columns that the trigger copied: SQL triggers and Python models agree on every type,
    required field and nullable column. *)
Theorem emitted_events_decode d d' :
  history_ok (tab d EventOutbox) (db_next d) → rtc statement d d' →
  history_ok (tab d' EventOutbox) (db_next d') ∧
  ∀ e, e ∈ tab d' EventOutbox → ∃ m, message_for e = Ok m ∧ decode (om_value m) = Ok (envelope_for e) ∧
    event_payload (envelope_for e) = Ok ().
Proof using PL EL.
  intros H0 Hs. assert (H : history_ok (tab d' EventOutbox) (db_next d')).
  { induction Hs as [|d d1 d2 Hd _ IH]; [done|]. apply IH. destruct (statement_events _ _ Hd) as (_ & l & E & Hl).
    rewrite E. by apply Hl. }
  split; [done|]. intros e He. destruct (ho_typed _ _ H e He) as [Hw Hk].
  destruct (known_event_message e Hk) as [m Hm]. exists m. split; [done|]. split; [by apply sent_decodes|done].
Qed.

(** Statements commit, and the relay runs or fails, at any time. *)
Inductive pipeline_step (w : relay_world) : relay_world → Prop :=
  | pipe_statement d l :
      statement (rw_db w) d → tab d EventOutbox = tab (rw_db w) EventOutbox ++ l →
      pipeline_step w {| rw_db := d; rw_broker := rw_broker w; rw_emitted := rw_emitted w ++ l |}
  | pipe_relay env r d b :
      run_once batch_size organization_id env (rw_db w, rw_broker w) = (r, (d, b)) →
      pipeline_step w {| rw_db := d; rw_broker := b; rw_emitted := rw_emitted w |}.

Lemma pipeline_step_relayed w w' : pipeline_step w w' → history_ok (rw_emitted w) (db_next (rw_db w)) →
  relay_step batch_size organization_id w w' ∧ history_ok (rw_emitted w') (db_next (rw_db w')).
Proof using PL PBL.
  intros [d l Hs E|env r d b H] Hh.
  - destruct (statement_events _ _ Hs) as (_ & l' & E' & Hl). assert (l' = l) as -> by (rewrite E' in E; by apply app_inv_head in E).
    pose proof (Hl _ Hh) as Hh'. split; [|done]. apply step_write; [done|]. exact (ho_ids _ _ Hh').
  - split; [by apply (step_relay _ _ w env r)|]. cbn [rw_emitted rw_db].
    destruct (run_once_cases _ _ _ _ _ _ _ _ H) as [_ [-> | ->]]; done.
Qed.

Lemma pipeline_relayed w w' : rtc pipeline_step w w' → history_ok (rw_emitted w) (db_next (rw_db w)) →
  rtc (relay_step batch_size organization_id) w w' ∧ history_ok (rw_emitted w') (db_next (rw_db w')).
Proof using PL PBL.
  induction 1 as [w|w w1 w2 Hs _ IH]; intros Hh; [done|]. destruct (pipeline_step_relayed _ _ Hs Hh) as [Hr Hh1].
  destruct (IH Hh1) as [Hrs Hh2]. split; [by eapply rtc_l|done].
Qed.

(** C35. Exactly once, end to end: from any statements that commit, with relay iterations,
    broker failures and lost commits in between, once the outbox is drained and every
    published message was applied at least once, in any order, with any number of
    redeliveries, failures, rollbacks and lost answers on the way, each counter of
    the activity read model equals the number of changes the triggers emitted. *)
Theorem pipeline_counts_each_change_once d b w tr (s s' : db * X) org day counter :
  history_ok (tab d EventOutbox) (db_next d) → published b = [] →
  rtc pipeline_step {| rw_db := d; rw_broker := b; rw_emitted := tab d EventOutbox |} w →
  tab (rw_db w) EventOutbox = [] →
  projection name [] s.1 → runs retry tr s s' →
  (∀ t, t ∈ tr → ∃ m, m ∈ published (rw_broker w) ∧ im_value t.1 = om_value m) →
  (∀ m, m ∈ published (rw_broker w) → ∃ t, t ∈ tr ∧ im_value t.1 = om_value m ∧ applied t) →
  counter ∈ ACTIVITY_COUNTERS →
  counter_of s'.1 org day counter
  = zlen (where_ (λ e, counts_in org day counter (envelope_for e)) (rw_emitted w)).
Proof using PL EL PBL.
  intros Hh Hb Hw Hempty Hp Hr Hfrom Hall Hc. destruct (pipeline_relayed _ _ Hw Hh) as [Hrs Hh'].
  apply (relayed_counts (X := X) batch_size organization_id retry d b w tr s s'); try done.
  - exact (ho_ids _ _ Hh).
  - exact (ho_event_ids _ _ Hh').
  - intros e He. by apply (ho_typed _ _ Hh').
Qed.

End pipeline.
