(* ===== verification/Provenance.v ===== *)
(** Asking the provenance graph: the reader of app/provenance/graph.py and the
    service of app/services/provenance.py. *)

From stdpp Require Import gmap.
From S2P Require Import Prelude PyStr Json Validation Access Temporal Database Schema.
From S2P Require Import Canonical Regex Accounts FactRepo EvidenceService FactService Ledger.
From S2P Require Import TemporalService Ranking Retrieval Calendar Decisions EventRelay ProvenanceGraph.
From S2P Require Import GraphWorker.

(** * Queries *)

(** [(n:Label {org: $org})] *)
Definition in_org (g : graph) (label : string) (org : UUID) (k : string * UUID) : bool :=
  String.eqb k.1 label &&
  match nodes g !! k with
  | Some m => bool_decide (m !! "org"%string = Some (GUuid org))
  | None => false
  end.

Definition prop (g : graph) (k : string * UUID) (name : string) : option gvalue :=
  nodes g !! k ≫= (λ m, m !! name).

(** The nodes with a relationship of a type to [k], and from [k]. *)
Definition into (g : graph) (type : string) (k : string * UUID) : list (string * UUID) :=
  map (λ r, r.1.1.2) (where_ (λ r, String.eqb r.1.1.1 type && bool_decide (r.1.2 = k))
                             (map_to_list (rels g))).
Definition out_of (g : graph) (type : string) (k : string * UUID) : list (string * UUID) :=
  map (λ r, r.1.2) (where_ (λ r, String.eqb r.1.1.1 type && bool_decide (r.1.1.2 = k))
                           (map_to_list (rels g))).

Definition has_rel (g : graph) (type : string) (a b : string * UUID) : bool :=
  bool_decide (is_Some (rels g !! (type, a, b))).

(** [MATCH (n {id: $id, org: $org})]: one row, or none. *)
Definition matching (g : graph) (label : string) (org id : UUID) : list (string * UUID) :=
  where_ (in_org g label org) [(label, id)].

(** [result.fetch(100_000)] *)
Definition fetch {A} (rows : list A) : list A := take (Z.to_nat 100000) rows.

Record DecisionRef := {
  dr_decision_id : UUID; dr_action : option gvalue; dr_decided_at : option Instant }.
Record ImpactRow := { ir_fact_version_id : UUID; ir_via : pystr; ir_decision : option DecisionRef }.

(** [_as_datetime] *)
Definition as_datetime (value : option gvalue) : result (option Instant) :=
  match value with
  | None => Ok None
  | Some (GTime t) => Ok (Some t)
  | Some _ => Err TypeError
  end.

(** A record [version_id, via, decision_id, action, decided_at]. *)
Definition impact_record (g : graph) (r : UUID * pystr * option (string * UUID)) : result ImpactRow :=
  match r.2 with
  | None => Ok {| ir_fact_version_id := r.1.1; ir_via := r.1.2; ir_decision := None |}
  | Some d =>
      at_ ← as_datetime (prop g d "decided_at");
      Ok {| ir_fact_version_id := r.1.1; ir_via := r.1.2;
            ir_decision := Some {| dr_decision_id := d.2; dr_action := prop g d "action";
                                   dr_decided_at := at_ |} |}
  end.

(** A pattern variable that OPTIONAL MATCH leaves null. *)
Definition optional {A} (l : list A) : list (option A) :=
  match l with [] => [None] | _ => map Some l end.

Definition IMPACT_OF_VERSION (g : graph) (org id : UUID) : list (UUID * pystr * option (string * UUID)) :=
  v ← matching g "FactVersion" org id;
  let relied := where_ (in_org g "Decision" org) (into g "RELIED_ON" v) in
  let in_context := where_ (λ d, in_org g "Decision" org d && negb (has_rel g "RELIED_ON" d v))
    (s ← where_ (in_org g "Snapshot" org) (into g "INCLUDED" v); into g "BASED_ON" s) in
  map (λ row, (v.2, row.1, Some row.2))
    (dict_fromkeys (map (pair (py "relied_on")) relied ++ map (pair (py "in_context")) in_context)).

(** [(later)-[:SUPERSEDES*1..]->(v)]: one row per path; a path uses no relationship
    twice, so it is no longer than the graph has relationships. *)
Fixpoint paths_to (g : graph) (fuel : nat) (used : list ((string * UUID) * (string * UUID)))
    (v : string * UUID) : list (string * UUID) :=
  match fuel with
  | O => []
  | S fuel =>
    p ← into g "SUPERSEDES" v;
    if bool_decide ((p, v) ∈ used) then [] else p :: paths_to g fuel ((p, v) :: used) p
  end.

Definition SUPERSEDED_BY (g : graph) (org id : UUID) : list (list UUID) :=
  v ← matching g "FactVersion" org id;
  [map snd (where_ (in_org g "FactVersion" org) (paths_to g (size (rels g)) [] v))].

Definition rel_prop (g : graph) (type : string) (a b : string * UUID) (name : string) : option gvalue :=
  rels g !! (type, a, b) ≫= (λ m, m !! name).

Definition IMPACT_OF_SOURCE (g : graph) (org id : UUID) : list (UUID * pystr * option (string * UUID)) :=
  s ← matching g "Source" org id;
  let asserted := where_ (in_org g "FactVersion" org) (into g "ASSERTED_BY" s) in
  let supported :=
    (x ← where_ (in_org g "Evidence" org) (into g "FROM_SOURCE" s);
     where_ (λ v, in_org g "FactVersion" org v
                  && bool_decide (rel_prop g "EVIDENCE_FOR" x v "relation" = Some (GStr (py "SUPPORTS"))))
            (out_of g "EVIDENCE_FOR" x)) in
  row ← dict_fromkeys (map (pair (py "asserted_by_source")) asserted
                       ++ map (pair (py "supported_by_source_evidence")) supported);
  d ← optional (where_ (in_org g "Decision" org) (into g "RELIED_ON" row.2));
  [(row.2.2, row.1, d)].

(** [toLower(l.relation)] of the two relations. *)
Definition to_lower (relation : option gvalue) : pystr :=
  match relation with
  | Some (GStr s) => map (λ c, if in_range 65 90 c then c + 32 else c) s
  | _ => []
  end.

Definition IMPACT_OF_EVIDENCE (g : graph) (org id : UUID) : list (UUID * pystr * option (string * UUID)) :=
  x ← matching g "Evidence" org id;
  v ← where_ (in_org g "FactVersion" org) (out_of g "EVIDENCE_FOR" x);
  d ← optional (where_ (in_org g "Decision" org) (into g "RELIED_ON" v));
  [(v.2, to_lower (rel_prop g "EVIDENCE_FOR" x v "relation"), d)].

(** A record of [DECISION_LINEAGE]. *)
Record lineage_record := {
  lr_version_id : UUID; lr_privacy_scope : option gvalue; lr_property : option gvalue;
  lr_entity_type : option gvalue; lr_external_id : option gvalue; lr_source_id : UUID;
  lr_source_name : option gvalue;
  lr_evidence : list (UUID * option gvalue * option UUID) }.   (* id, relation, source_id *)

Definition DECISION_LINEAGE (g : graph) (org id : UUID) : list lineage_record :=
  sort_on lr_version_id (
    d ← matching g "Decision" org id;
    v ← where_ (in_org g "FactVersion" org) (out_of g "RELIED_ON" d);
    s ← where_ (in_org g "Source" org) (out_of g "ASSERTED_BY" v);
    f ← where_ (in_org g "Fact" org) (out_of g "VERSION_OF" v);
    e ← where_ (in_org g "Entity" org) (out_of g "OF_ENTITY" f);
    [{| lr_version_id := v.2; lr_privacy_scope := prop g v "privacy_scope";
        lr_property := prop g f "property"; lr_entity_type := prop g e "entity_type";
        lr_external_id := prop g e "external_id"; lr_source_id := s.2;
        lr_source_name := prop g s "name";
        lr_evidence := map (λ x, (x.2, rel_prop g "EVIDENCE_FOR" x v "relation",
                                  snd <$> head (out_of g "FROM_SOURCE" x)))
                           (where_ (in_org g "Evidence" org) (into g "EVIDENCE_FOR" v)) |}]).

(** * GraphReader *)

Module GraphReader.

Definition exists_ (label : string) (org node_id : UUID) (g : graph) : bool :=
  negb (Nat.eqb (length (matching g label org node_id)) 0).

Definition impact (query : graph → UUID → UUID → list (UUID * pystr * option (string * UUID)))
    (org node_id : UUID) (g : graph) : result (list ImpactRow) :=
  mapR (impact_record g) (fetch (query g org node_id)).

Definition impact_of_version := impact IMPACT_OF_VERSION.
Definition impact_of_source := impact IMPACT_OF_SOURCE.
Definition impact_of_evidence := impact IMPACT_OF_EVIDENCE.

Definition superseded_by (org version_id : UUID) (g : graph) : list UUID :=
  match fetch (SUPERSEDED_BY g org version_id) with
  | later_ids :: _ => sort_on id later_ids
  | [] => []
  end.

Definition decision_lineage (org decision_id : UUID) (g : graph) : list lineage_record :=
  fetch (DECISION_LINEAGE g org decision_id).

End GraphReader.

(** * services/provenance.py *)

Record AffectedDecision := {
  ad_decision_id : UUID; ad_action : option gvalue; ad_decided_at : option Instant;
  ad_because_of : list (UUID * pystr) }.
Record ImpactReport := {
  im_subject_id : UUID; im_affected_versions : list UUID; im_decisions : list AffectedDecision;
  im_superseded_by : list UUID; im_pending_events : Z }.

(** Python's order of [(UUID, str)] pairs, and of [(at is None, at, id)]. *)
Definition reason_le (a b : UUID * pystr) : bool :=
  (a.1 <? b.1) || ((a.1 =? b.1) && pystr_leb a.2 b.2).
Definition decided_le (a b : AffectedDecision) : bool :=
  match ad_decided_at a, ad_decided_at b with
  | Some s, Some t => (s <? t) || ((s =? t) && (ad_decision_id a <=? ad_decision_id b))
  | Some _, None => true
  | None, Some _ => false
  | None, None => ad_decision_id a <=? ad_decision_id b
  end.

(** The rows about one decision; the last of them is the one kept in [refs]. *)
Definition reasons (rows : list ImpactRow) (decision_id : UUID) : list (UUID * pystr * DecisionRef) :=
  r ← rows;
  match ir_decision r with
  | Some d => if dr_decision_id d =? decision_id then [(ir_fact_version_id r, ir_via r, d)] else []
  | None => []
  end.

Definition decision_ids (rows : list ImpactRow) : list UUID :=
  dict_fromkeys (r ← rows; match ir_decision r with Some d => [dr_decision_id d] | None => [] end).

Definition affected (rows : list ImpactRow) (decision_id : UUID) : list AffectedDecision :=
  match last (reasons rows decision_id) with
  | Some (_, ref) => [{|
      ad_decision_id := dr_decision_id ref; ad_action := dr_action ref;
      ad_decided_at := dr_decided_at ref;
      ad_because_of := sort_by reason_le (dict_fromkeys (map fst (reasons rows decision_id))) |}]
  | None => []
  end.

Definition group_impact (rows : list ImpactRow) : list UUID * list AffectedDecision :=
  (sort_on id (dict_fromkeys (map ir_fact_version_id rows)),
   sort_by decided_le (i ← decision_ids rows; affected rows i)).

Record LineageEvidence := {
  le_evidence_id : UUID; le_relation : option gvalue; le_source_id : option UUID }.
Record LineageStep := {
  ls_fact_version_id : UUID; ls_privacy_scope : option gvalue; ls_redacted : bool;
  ls_entity_type : option gvalue; ls_external_id : option gvalue; ls_property : option gvalue;
  ls_source_id : option UUID; ls_source_name : option gvalue; ls_evidence : list LineageEvidence }.
Record DecisionLineage := {
  dl_decision_id : UUID; dl_relied_on : list LineageStep; dl_pending_events : Z }.

(** [str(record["privacy_scope"])] is the text of a visible scope. *)
Definition scope_visible (visible : list PrivacyScope) (scope : option gvalue) : bool :=
  existsb (λ s, bool_decide (scope = Some (GStr (scope_text s)))) visible.

Definition lineage_step (visible : list PrivacyScope) (record : lineage_record) : LineageStep :=
  if negb (scope_visible visible (lr_privacy_scope record))
  then {| ls_fact_version_id := lr_version_id record; ls_privacy_scope := lr_privacy_scope record;
          ls_redacted := true; ls_entity_type := None; ls_external_id := None; ls_property := None;
          ls_source_id := None; ls_source_name := None; ls_evidence := [] |}
  else {| ls_fact_version_id := lr_version_id record; ls_privacy_scope := lr_privacy_scope record;
          ls_redacted := false; ls_entity_type := lr_entity_type record;
          ls_external_id := lr_external_id record; ls_property := lr_property record;
          ls_source_id := Some (lr_source_id record); ls_source_name := lr_source_name record;
          ls_evidence := sort_on le_evidence_id
            (map (λ e, {| le_evidence_id := e.1.1; le_relation := e.1.2; le_source_id := e.2 |})
                 (lr_evidence record)) |}.

Section service.

(** What happens in both stores between the transaction and the query. *)
Context (others : db * graph → db * graph).

Definition authorize (ctx : TenantContext) : ST (db * graph) (MembershipRole * Z) :=
  r ← on_db (transaction (
    role ← require_permission ctx READ_DECISIONS;
    pending ← GraphOutboxRepository.pending (ctx_organization_id ctx);
    mret (role, pending)));
  _ ← modify others;
  mret r.

Definition require_node (ctx : TenantContext) (label : string) (node_id : UUID) : ST (db * graph) unit :=
  found ← gets (λ s, GraphReader.exists_ label (ctx_organization_id ctx) node_id s.2);
  guard_ found (NotFoundError "{label} not found in the provenance graph").

Definition read_graph {A} (f : graph → result A) : ST (db * graph) A :=
  r ← gets (λ s, f s.2); lift r.

Definition impact_of_fact_version (ctx : TenantContext) (version_id : UUID) : ST (db * graph) ImpactReport :=
  auth ← authorize ctx;
  _ ← require_node ctx "FactVersion" version_id;
  rows ← read_graph (GraphReader.impact_of_version (ctx_organization_id ctx) version_id);
  later ← gets (λ s, GraphReader.superseded_by (ctx_organization_id ctx) version_id s.2);
  mret {| im_subject_id := version_id; im_affected_versions := [version_id];
          im_decisions := (group_impact rows).2; im_superseded_by := later;
          im_pending_events := auth.2 |}.

Definition impact_of_source (ctx : TenantContext) (source_id : UUID) : ST (db * graph) ImpactReport :=
  auth ← authorize ctx;
  _ ← require_node ctx "Source" source_id;
  rows ← read_graph (GraphReader.impact_of_source (ctx_organization_id ctx) source_id);
  mret {| im_subject_id := source_id; im_affected_versions := (group_impact rows).1;
          im_decisions := (group_impact rows).2; im_superseded_by := [];
          im_pending_events := auth.2 |}.

Definition impact_of_evidence (ctx : TenantContext) (evidence_id : UUID) : ST (db * graph) ImpactReport :=
  auth ← authorize ctx;
  _ ← require_node ctx "Evidence" evidence_id;
  rows ← read_graph (GraphReader.impact_of_evidence (ctx_organization_id ctx) evidence_id);
  mret {| im_subject_id := evidence_id; im_affected_versions := (group_impact rows).1;
          im_decisions := (group_impact rows).2; im_superseded_by := [];
          im_pending_events := auth.2 |}.

Definition decision_lineage (ctx : TenantContext) (decision_id : UUID) : ST (db * graph) DecisionLineage :=
  auth ← authorize ctx;
  let visible := visible_privacy_scopes auth.1 [ctx_max_privacy_scope ctx] in
  _ ← require_node ctx "Decision" decision_id;
  records ← gets (λ s, GraphReader.decision_lineage (ctx_organization_id ctx) decision_id s.2);
  mret {| dl_decision_id := decision_id; dl_relied_on := map (lineage_step visible) records;
          dl_pending_events := auth.2 |}.

End service.
