(* ===== verification/Impact.v ===== *)
(** What the provenance graph answers once it is drained: the impact of a version is
    the answer of the SQL that revocations use, and a lineage shows no more than
    its reader may see. *)

From stdpp Require Import gmap.
From S2P Require Import Prelude PyStr Json Validation Access Temporal Database Schema.
From S2P Require Import Canonical Regex Accounts FactRepo EvidenceService FactService Ledger.
From S2P Require Import TemporalService Ranking Retrieval Calendar Decisions Sealing Revocations.
From S2P Require Import EventRelay ProvenanceGraph GraphWorker Provenance.

(** * Sorting rows with distinct keys *)

Lemma sort_by_unique_on {A} (le : A → A → bool) l k :
  (∀ x y, le x y = false → le y x = true) → (∀ x y z, le x y = true → le y z = true → le x z = true) →
  (∀ x y, x ∈ l → y ∈ l → le x y = true → le y x = true → x = y) → l ≡ₚ k → sort_by le l = sort_by le k.
Proof.
  intros Htot Htrans Hanti Hp.
  assert (Ha : AntiSymm (=) (λ x y, Is_true (le x y) ∧ x ∈ l ∧ y ∈ l)).
  { intros x y (H1 & Hx & Hy) (H2 & _ & _). apply Is_true_true in H1, H2. by apply Hanti. }
  assert (Hs : ∀ m, (∀ x, x ∈ m → x ∈ l) → StronglySorted (λ x y, Is_true (le x y) ∧ x ∈ l ∧ y ∈ l) (sort_by le m)).
  { intros m Hm. pose proof (sort_by_sorted le Htot Htrans m) as H.
    assert (Hin : ∀ x, x ∈ sort_by le m → x ∈ l) by (intros x Hx; apply Hm; by rewrite elem_of_sort_by in Hx).
    revert Hin. induction H as [|x s Hs IH Hx]; intros Hin; constructor.
    - apply IH. intros y Hy. apply Hin. by right.
    - rewrite Forall_forall in Hx |- *. intros y Hy. split_and!; [by apply Hx|apply Hin; by left|apply Hin; by right]. }
  apply (StronglySorted_unique _); [by apply Hs|apply Hs; intros x Hx; by rewrite Hp|].
  by rewrite !sort_by_perm.
Qed.

Lemma map_sort_by {A B} (f : A → B) (le : A → A → bool) (le' : B → B → bool) l :
  (∀ x y, le' (f x) (f y) = le x y) → map f (sort_by le l) = sort_by le' (map f l).
Proof.
  intros H. assert (Hi : ∀ x m, map f (insert_by le x m) = insert_by le' (f x) (map f m)).
  { intros x m. induction m as [|y m IH]; cbn; [done|]. rewrite H. destruct (le x y); cbn; [done|]. by rewrite IH. }
  induction l as [|x l IH]; cbn; [done|]. by rewrite Hi, IH.
Qed.

Lemma NoDup_bind_key {A B} (k : A → Z) (k' : B → Z) (f : A → list B) l :
  NoDup (map k l) → (∀ x, x ∈ l → (length (f x) ≤ 1)%nat) → (∀ x y, y ∈ f x → k' y = k x) →
  NoDup (map k' (l ≫= f)).
Proof.
  intros Hn Hl Hk. induction l as [|x l IH]; cbn; [constructor|].
  cbn in Hn. apply NoDup_cons in Hn as [Hx Hn]. rewrite map_app. apply NoDup_app. split_and!.
  - pose proof (Hl x (list_elem_of_here _ _)) as H. destruct (f x) as [|y [|z ys]]; cbn in *; [constructor| |lia].
    apply NoDup_singleton.
  - intros j (y & -> & Hy)%list_elem_of_fmap (z & E & Hz)%list_elem_of_fmap.
    apply list_elem_of_bind in Hz as (w & Hz & Hw). apply Hk in Hy, Hz. apply Hx, list_elem_of_fmap.
    exists w. split; [congruence|done].
  - apply IH; [done|]. intros y Hy. apply Hl. by right.
Qed.

Lemma dict_fromkeys_id `{EqDecision A} (l : list A) : NoDup l → dict_fromkeys l = l.
Proof.
  unfold dict_fromkeys. assert (G : ∀ seen : list A, (∀ x, x ∈ seen → x ∉ l) → NoDup l → dedup_acc seen l = l);
    [|apply G; by intros x ?%not_elem_of_nil].
  induction l as [|x l IH]; intros seen Hs Hn; cbn; [done|]. apply NoDup_cons in Hn as [Hx Hn].
  rewrite bool_decide_eq_false_2 by (intros H; apply (Hs x H); left). f_equal. apply IH; [|done].
  intros y [->|Hy]%elem_of_cons; [done|]. intros H. apply (Hs y Hy). by right.
Qed.

Lemma length_bind_one {A B} (l : list A) (f : A → list B) y : f = (λ _, [y]) → length (l ≫= f) = length l.
Proof. intros ->. induction l as [|x l IH]; cbn; [done|]. by rewrite <-IH. Qed.

Lemma length_le_1 {A} (l : list A) : NoDup l → (∀ x y, x ∈ l → y ∈ l → x = y) → (length l ≤ 1)%nat.
Proof.
  intros Hn Hu. destruct l as [|x [|y l]]; cbn; [lia..|]. exfalso. apply NoDup_cons in Hn as [Hx _].
  apply Hx. rewrite (Hu x y); [by left|by left|by right; left].
Qed.

(** * Citations on record *)

(** Every cited version is in the frozen context of the decision, and every decision
    and frozen fact belongs to a snapshot of its tenant. *)
Record citations_ok (d : db) : Prop := {
  co_decisions : decisions_ok d;
  co_based : ∀ x, x ∈ tab d Decisions → fk_snapshot (d_organization_id x) (d_snapshot_id x) d = true;
}.

Lemma empty_citations_ok : citations_ok empty_db.
Proof. split; [exact empty_decisions_ok|by intros x ?%not_elem_of_nil]. Qed.

Definition frozen (t : table) : bool :=
  match t with ContextSnapshots | SnapshotFacts | Decisions | DecisionFacts => true | _ => false end.

(** Frozen tables only grow, by checked rows. *)
Lemma statement_frozen d d' t : statement d d' → frozen t = true →
  tab d' t = tab d t ∨ ∃ x, tab d' t = tab d t ++ [x] ∧ checks (row_checks t x d) = Ok ().
Proof.
  intros [u x Hu H|u p f Hu Hs H|u p Hu Hp H|now wall ->| ->] Ht; try (by left).
  - destruct (exec_insert_ok _ _ _ _ _ Hu H) as (Hi & F & T). destruct (table_eq_dec u t) as [<-|Hne].
    + right. exists x. split; [done|]. by apply insert_checks_ok in Hi as [? _].
    + left. apply (frame_tab_other _ _ _ t F); [by destruct t|set_solver].
  - destruct (exec_update_ok _ _ _ _ _ _ Hu H) as (Hc & F & T). left. destruct (table_eq_dec u t) as [<-|Hne].
    + unfold update_checks in Hc. destruct (for_all (λ x, before_write u x (Some (f x))) _) as [[]|] eqn:E; [|done].
      rewrite T. apply map_id_in. intros x Hx. destruct (p x) eqn:Ep; [|done]. exfalso.
      pose proof (proj1 (for_all_ok _ _) E x ltac:(by apply elem_of_where_)) as Hw. by destruct u.
    + apply (frame_tab_other _ _ _ t F); [by destruct t|set_solver].
  - apply exec_delete_ok in H as (_ & F & T). left. destruct (table_eq_dec u t) as [<-|Hne].
    + rewrite T. apply where_true. intros x Hx. specialize (Hp x). by destruct u.
    + apply (frame_tab_other _ _ _ t F); [by destruct t|set_solver].
Qed.

Lemma statement_grows d d' t : statement d d' → frozen t = true → grows t d d'.
Proof.
  intros Hs Ht. destruct (statement_frozen d d' t Hs Ht) as [E|(x & E & _)]; [exists []; by rewrite app_nil_r|by exists [x]].
Qed.

Lemma statement_citations d d' : statement d d' → outbox_ok d → citations_ok d → citations_ok d'.
Proof.
  intros Hs Hok [[Hc Hd Hf] Hb].
  assert (Hgrow : ∀ t p, frozen t = true → exists_row t p d = true → exists_row t p d' = true)
    by (intros t p Ht; by apply exists_row_grows, (statement_grows d d' t Hs)).
  split; [split|].
  - by apply (statement_evolves _ _ Hs Hok).
  - intros y Hy. destruct (statement_frozen d d' DecisionFacts Hs eq_refl) as [E|(x & E & Hx)]; rewrite E in Hy.
    + destruct (Hd y Hy). split; by apply Hgrow.
    + apply elem_of_app in Hy as [Hy| ->%list_elem_of_singleton].
      * destruct (Hd y Hy). split; by apply Hgrow.
      * split; apply Hgrow; try done; (eapply checks_in; [exact Hx|]; cbn [row_checks]);
          [right; left|do 2 right; left].
  - intros y Hy. destruct (statement_frozen d d' SnapshotFacts Hs eq_refl) as [E|(x & E & Hx)]; rewrite E in Hy.
    + by apply Hgrow, Hf.
    + apply elem_of_app in Hy as [Hy| ->%list_elem_of_singleton]; [by apply Hgrow, Hf|].
      apply Hgrow; [done|]. eapply checks_in; [exact Hx|]. cbn [row_checks]. do 2 right; left.
  - intros y Hy. destruct (statement_frozen d d' Decisions Hs eq_refl) as [E|(x & E & Hx)]; rewrite E in Hy.
    + by apply Hgrow, Hb.
    + apply elem_of_app in Hy as [Hy| ->%list_elem_of_singleton]; [by apply Hgrow, Hb|].
      apply Hgrow; [done|]. eapply checks_in; [exact Hx|]. cbn [row_checks]. do 6 right; left.
Qed.

Section answers.
Context `{FR : !FloatRepr} `{SH : !Sha256}.

Lemma citations_frame d d' : frame [] d d' → consistent d' → citations_ok d → citations_ok d'.
Proof.
  intros F Hc [Hd Hb]. split; [apply (decisions_ok_frame [] d d' F); [by intros _|by apply not_elem_of_nil..|done]|].
  unfold fk_snapshot, exists_row in *.
  by rewrite (frame_tab_other [] d d' Decisions F eq_refl), (frame_tab_other [] d d' ContextSnapshots F eq_refl)
    by apply not_elem_of_nil.
Qed.

Lemma items_frame events d : frame [] d (items_without events d).
Proof. split; [|done|done|done]. intros u _ _ Hg. apply tab_set_ne. congruence. Qed.

Lemma projection_step_citations s s' : projection_step s s' →
  outbox_ok s.1 → graph_ok s.1 s.2 → citations_ok s.1 → citations_ok s'.1.
Proof.
  intros Hst Hok Hg Hc. pose proof (projection_step_ok _ _ Hst Hok Hg) as [Hok' _].
  destruct Hst as [d H|batch org env r s'' (d & Hd & Ho) H]; [by apply (statement_citations s.1)|].
  assert (Hcd : citations_ok d).
  { clear -Hd Hok Hc. induction Hd as [x|x y z Hxy _ IH]; [done|].
    apply IH; [by apply (statement_evolves x y)|by apply (statement_citations x)]. }
  apply run_projector_cases in H as [->|[->|(events & loaded & es & d' & _ & _ & _ & Hd' & ->)]]; [done|by rewrite Ho|].
  rewrite Ho in Hd'. cbn [fst snd] in *. destruct Hd' as [->| ->]; [done|].
  apply (citations_frame d); [apply items_frame|apply Hok'|done].
Qed.

Lemma projection_citations s : rtc projection_step (empty_db, empty_graph) s →
  outbox_ok s.1 ∧ graph_ok s.1 s.2 ∧ citations_ok s.1.
Proof.
  assert (G : ∀ a b, rtc projection_step a b → outbox_ok a.1 ∧ graph_ok a.1 a.2 ∧ citations_ok a.1 →
    outbox_ok b.1 ∧ graph_ok b.1 b.2 ∧ citations_ok b.1).
  { induction 1 as [a|a b c Hs _ IH]; [done|]. intros (Ha & Hg & Hc). apply IH.
    destruct (projection_step_ok _ _ Hs Ha Hg). split_and!; [done..|]. by apply (projection_step_citations a). }
  intros H. apply (G _ _ H). split_and!; [exact empty_outbox_ok|exact empty_graph_ok|exact empty_citations_ok].
Qed.

(** * What the nodes of a drained graph say *)

Lemma lookup_set_props_out vals m p : p ∉ map fst vals → set_props vals m !! p = m !! p.
Proof.
  unfold set_props. revert m. induction vals as [|a vals IH]; intros m Hp; cbn [fold_left]; [done|].
  cbn [map] in Hp. apply not_elem_of_cons in Hp as [Hne Hp]. rewrite (IH _ Hp), lookup_set_prop.
  by rewrite bool_decide_eq_false_2 by congruence.
Qed.

Lemma lookup_set_props_at pre p o post m :
  p ∉ map fst post → set_props (pre ++ (p, o) :: post) m !! p = o.
Proof.
  intros Hp. unfold set_props. rewrite fold_left_app. cbn [fold_left]. fold (set_props pre m).
  rewrite (lookup_set_props_out post _ p Hp), lookup_set_prop. by rewrite bool_decide_eq_true_2.
Qed.

(** The properties of the node of a row. *)
Lemma mirrored_node d g t x k : mirrors d g → x ∈ tab d t → owns t x = Some k →
  ∃ es vals, effects_of t x = Ok es ∧ Put k vals ∈ es ∧ nodes g !! k = Some (set_props vals ∅).
Proof.
  intros Hm Hx Ho. destruct (mi_shown _ _ Hm t x Hx (owner_projected _ _ _ (or_introl Ho))) as (es & E & H).
  destruct (effects_cover t x es E) as (Hc & _ & _). destruct (Hc k Ho) as (vals & Hin).
  exists es, vals. split_and!; [done..|]. exact (H _ Hin).
Qed.

Lemma mirrored_link d g t x k : mirrors d g → x ∈ tab d t → k ∈ links t x →
  rels g !! k = Some (set_props (link_vals t x) ∅).
Proof.
  intros Hm Hx Hk. destruct (mi_shown _ _ Hm t x Hx (link_projected _ _ _ Hk)) as (es & E & H).
  destruct (effects_cover t x es E) as (_ & _ & Hc). exact (H _ (Hc k Hk)).
Qed.

Definition org_of (t : table) (x : row t) : option UUID := (λ q, q.1.1) <$> projected t x.

(** Every node carries the organization of its row. *)
Lemma put_org t x es k vals : effects_of t x = Ok es → Put k vals ∈ es →
  set_props vals ∅ !! "org"%string = GUuid <$> org_of t x.
Proof.
  intros He Hin.
  assert (H : ∃ org post, org_of t x = Some org ∧ vals = ("org"%string, Some (GUuid org)) :: post ∧
    "org"%string ∉ map fst post).
  { revert He Hin. unfold effects_of. destruct t; cbn [to_graph_row]; try done;
      try (destruct (value_sha256 (fv_value x)) as [digest|]; [|done]);
      unfold mbind, result_bind; cbv [row_effects mapR CYPHER clause_effects node_of columns same_name
        col List.find String.eqb Ascii.eqb Bool.eqb fst snd map mbind result_bind concat app];
      try (unfold fmap, option_fmap, option_map; destruct (fv_supersedes_id x) as [p|] eqn:Ep; cbn);
      intros [= <-]; rewrite ?elem_of_cons, ?elem_of_nil; intros Hp; destruct_or? Hp; try done;
      injection Hp as -> ->; eexists _, _; (split_and!; [reflexivity|reflexivity|]); cbn; set_solver. }
  destruct H as (org & post & Ho & -> & Hp). rewrite Ho.
  by rewrite (lookup_set_props_at [] "org" (Some (GUuid org)) post).
Qed.

Lemma in_org_iff d g label org i : mirrors d g →
  in_org g label org (label, i) = true ↔ ∃ t x, x ∈ tab d t ∧ owns t x = Some (label, i) ∧ org_of t x = Some org.
Proof.
  intros Hm. unfold in_org. cbn [fst]. rewrite String.eqb_refl. cbn [andb].
  assert (Hrow : ∀ t x, x ∈ tab d t → owns t x = Some (label, i) →
    ∃ m, nodes g !! (label, i) = Some m ∧ m !! "org"%string = GUuid <$> org_of t x).
  { intros t x Hx Ho. destruct (mirrored_node d g t x _ Hm Hx Ho) as (es & vals & He & Hin & E).
    exists (set_props vals ∅). split; [done|]. by apply (put_org t x es (label, i)). }
  split.
  - destruct (nodes g !! (label, i)) as [m|] eqn:E; [|done]. intros Hb%bool_decide_eq_true.
    destruct (mi_nodes _ _ Hm (label, i) ltac:(by eexists)) as (t & x & Hx & Ho). exists t, x.
    split_and!; [done..|]. destruct (Hrow t x Hx Ho) as (m' & E' & Ho'). assert (m' = m) as -> by congruence.
    rewrite Hb in Ho'. destruct (org_of t x); [by injection Ho' as ->|done].
  - intros (t & x & Hx & Ho & Hor). destruct (Hrow t x Hx Ho) as (m & -> & Hm'). rewrite Hm', Hor.
    by apply bool_decide_eq_true.
Qed.

Lemma in_org_label g label org k : in_org g label org k = true → ∃ i, k = (label, i).
Proof. unfold in_org. destruct k as [l i]. intros [Hl%String.eqb_eq _]%andb_true_iff.
  cbn in Hl. subst l. by exists i.
Qed.

(** ** Relationships *)

Lemma elem_of_into g type a v : a ∈ into g type v ↔ is_Some (rels g !! (type, a, v)).
Proof.
  unfold into. rewrite list_elem_of_fmap. split.
  - intros ([[[ty a'] v'] m] & -> & [Hp H]%elem_of_where_). cbn in Hp |- *.
    apply andb_true_iff in Hp as [Ht%String.eqb_eq Hv%bool_decide_eq_true]. subst ty v'. exists m.
    by apply elem_of_map_to_list in H.
  - intros [m Hm]. exists (type, a, v, m). split; [done|]. apply elem_of_where_. cbn.
    rewrite String.eqb_refl. split; [by apply bool_decide_eq_true|]. by apply elem_of_map_to_list.
Qed.

Lemma has_rel_spec g type a b : has_rel g type a b = true ↔ is_Some (rels g !! (type, a, b)).
Proof. unfold has_rel. apply bool_decide_eq_true. Qed.

(** The relationships of one type are the rows that it stands for. *)
Lemma rel_rows d g type a b : mirrors d g →
  is_Some (rels g !! (type, a, b)) ↔ ∃ t x, x ∈ tab d t ∧ (type, a, b) ∈ links t x.
Proof.
  intros Hm. split; [apply (mi_rels _ _ Hm)|]. intros (t & x & Hx & Hk).
  rewrite (mirrored_link d g t x _ Hm Hx Hk). by eexists.
Qed.

Ltac find_links :=
  repeat match goal with
  | H : _ ∈ links ?t ?x |- _ => destruct t; cbn in H
  | H : _ ∈ [] |- _ => by apply not_elem_of_nil in H
  | H : _ ∈ _ :: _ |- _ => apply elem_of_cons in H as [H|H]
  | H : _ ∈ match ?o with Some _ => _ | None => _ end |- _ => destruct o
  end.

Lemma rel_relied d g i v : mirrors d g →
  is_Some (rels g !! ("RELIED_ON"%string, ("Decision"%string, i), ("FactVersion"%string, v))) ↔
  ∃ y, y ∈ tab d DecisionFacts ∧ df_decision_id y = i ∧ df_fact_version_id y = v.
Proof.
  intros Hm. rewrite (rel_rows d g _ _ _ Hm). split.
  - intros (t & x & Hx & Hk). find_links; try done. injection Hk as -> ->. by exists x.
  - intros (y & Hy & <- & <-). exists DecisionFacts, y. split; [done|]. by left.
Qed.

Lemma rel_included d g i v : mirrors d g →
  is_Some (rels g !! ("INCLUDED"%string, ("Snapshot"%string, i), ("FactVersion"%string, v))) ↔
  ∃ y, y ∈ tab d SnapshotFacts ∧ sf_snapshot_id y = i ∧ sf_fact_version_id y = v.
Proof.
  intros Hm. rewrite (rel_rows d g _ _ _ Hm). split.
  - intros (t & x & Hx & Hk). find_links; try done. injection Hk as -> ->. by exists x.
  - intros (y & Hy & <- & <-). exists SnapshotFacts, y. split; [done|]. by left.
Qed.

Lemma rel_based d g i j : mirrors d g →
  is_Some (rels g !! ("BASED_ON"%string, ("Decision"%string, i), ("Snapshot"%string, j))) ↔
  ∃ y, y ∈ tab d Decisions ∧ d_id y = i ∧ d_snapshot_id y = j.
Proof.
  intros Hm. rewrite (rel_rows d g _ _ _ Hm). split.
  - intros (t & x & Hx & Hk). find_links; try done. injection Hk as -> ->. by exists x.
  - intros (y & Hy & <- & <-). exists Decisions, y. split; [done|]. by left.
Qed.

Lemma in_org_decision d g org i : mirrors d g →
  in_org g "Decision" org ("Decision"%string, i) = true ↔
  ∃ x, x ∈ tab d Decisions ∧ d_id x = i ∧ d_organization_id x = org.
Proof.
  intros Hm. rewrite (in_org_iff d g _ _ _ Hm). split.
  - intros (t & x & Hx & Ho & Hor). destruct t; try done. injection Ho as <-. injection Hor as <-. by exists x.
  - intros (x & Hx & <- & <-). by exists Decisions, x.
Qed.

Lemma in_org_snapshot d g org i : mirrors d g →
  in_org g "Snapshot" org ("Snapshot"%string, i) = true ↔
  ∃ x, x ∈ tab d ContextSnapshots ∧ cs_id x = i ∧ cs_organization_id x = org.
Proof.
  intros Hm. rewrite (in_org_iff d g _ _ _ Hm). split.
  - intros (t & x & Hx & Ho & Hor). destruct t; try done. injection Ho as <-. injection Hor as <-. by exists x.
  - intros (x & Hx & <- & <-). by exists ContextSnapshots, x.
Qed.

(** ** The citations of a decision *)

Lemma cited_by d v x : citations_ok d → x ∈ tab d Decisions →
  (∃ y, y ∈ tab d DecisionFacts ∧ df_decision_id y = d_id x ∧ df_fact_version_id y = v) ↔
  cites_version d v x = true.
Proof.
  intros [[Hc Hd _] _] Hx. unfold cites_version. rewrite exists_row_spec. split.
  - intros (y & Hy & Hi & Hv). exists y. split; [done|]. destruct (Hd y Hy) as [Hfk _].
    apply exists_row_spec in Hfk as (x' & Hx' & E). rewrite !andb_true_iff, !Z.eqb_eq in E.
    destruct E as [[Ho Hid] _]. assert (x' = x) as -> by (apply (decision_ids_unique d); [done..|congruence]).
    by rewrite Ho, Hi, Hv, !Z.eqb_refl.
  - intros (y & Hy & E). rewrite !andb_true_iff, !Z.eqb_eq in E. destruct E as [[_ ?] ?]. by exists y.
Qed.

Lemma snapshot_ids_unique d x y : consistent d → x ∈ tab d ContextSnapshots → y ∈ tab d ContextSnapshots →
  cs_id x = cs_id y → x = y.
Proof.
  intros Hc Hx Hy E. apply (key_unique d ContextSnapshots); [done..|by eexists|]. cbn. by rewrite E.
Qed.

(** What is relied on is in the frozen context, in the same organization. *)
Lemma cited_in_context d v x : citations_ok d → x ∈ tab d Decisions → cites_version d v x = true →
  ∃ sf, sf ∈ tab d SnapshotFacts ∧ sf_snapshot_id sf = d_snapshot_id x ∧ sf_fact_version_id sf = v.
Proof.
  intros [[Hc Hd _] _] Hx H. apply exists_row_spec in H as (y & Hy & E).
  rewrite !andb_true_iff, !Z.eqb_eq in E. destruct E as [[Ho Hid] <-]. destruct (Hd y Hy) as [H1 H2].
  apply exists_row_spec in H1 as (x' & Hx' & E). rewrite !andb_true_iff, !Z.eqb_eq in E.
  destruct E as [[_ Hid'] Hs]. assert (x' = x) as -> by (apply (decision_ids_unique d); [done..|congruence]).
  apply exists_row_spec in H2 as (sf & Hsf & E). rewrite !andb_true_iff, !Z.eqb_eq in E. exists sf.
  destruct E as [-> ->]. by rewrite Hs.
Qed.

Lemma context_org d x sf : citations_ok d → x ∈ tab d Decisions → sf ∈ tab d SnapshotFacts →
  sf_snapshot_id sf = d_snapshot_id x → sf_organization_id sf = d_organization_id x ∧
  ∃ cs, cs ∈ tab d ContextSnapshots ∧ cs_id cs = d_snapshot_id x ∧ cs_organization_id cs = d_organization_id x.
Proof.
  intros [[Hc _ Hf] Hb] Hx Hsf E. pose proof (Hf sf Hsf) as H1. pose proof (Hb x Hx) as H2.
  apply exists_row_spec in H1 as (c1 & Hc1 & [O1%Z.eqb_eq I1%Z.eqb_eq]%andb_true_iff).
  apply exists_row_spec in H2 as (c2 & Hc2 & [O2%Z.eqb_eq I2%Z.eqb_eq]%andb_true_iff).
  assert (c1 = c2) as -> by (apply (snapshot_ids_unique d); [done..|congruence]).
  split; [congruence|]. exists c2. by split_and!.
Qed.

(** The decisions whose frozen context holds a version, by the SQL of revocations. *)
Lemma with_version d org v x b : citations_ok d →
  (x, b) ∈ decisions_with_rows d org v ↔
  x ∈ tab d Decisions ∧ d_organization_id x = org ∧ b = cites_version d v x ∧
  ∃ sf, sf ∈ tab d SnapshotFacts ∧ sf_snapshot_id sf = d_snapshot_id x ∧ sf_fact_version_id sf = v.
Proof.
  intros Hco. rewrite elem_of_decisions_with. split.
  - intros (Hx & Ho & Hb & sf & Hsf & _ & Hs & Hv). split_and!; [done..|]. by exists sf.
  - intros (Hx & Ho & Hb & sf & Hsf & Hs & Hv). split_and!; [done..|]. exists sf. split_and!; [done| |done..].
    destruct (context_org d x sf Hco Hx Hsf Hs) as [E _]. congruence.
Qed.

Definition via_text (relied_on : bool) : pystr := if relied_on then py "relied_on" else py "in_context".

(** The rows of the query are the rows of the SQL. *)
Lemma impact_rows d g org v r : mirrors d g → citations_ok d → in_org g "FactVersion" org ("FactVersion"%string, v) = true →
  r ∈ IMPACT_OF_VERSION g org v ↔
  ∃ x b, (x, b) ∈ decisions_with_rows d org v ∧ r = (v, via_text b, Some ("Decision"%string, d_id x)).
Proof.
  intros Hm Hco Hv. unfold IMPACT_OF_VERSION, matching. cbn [where_ List.filter]. rewrite Hv.
  cbn [mbind list_bind]. rewrite app_nil_r, list_elem_of_fmap.
  assert (Hrow : ∀ via k, (via, k) ∈ dict_fromkeys
      (map (pair (py "relied_on")) (where_ (in_org g "Decision" org) (into g "RELIED_ON" ("FactVersion"%string, v)))
       ++ map (pair (py "in_context")) (where_ (λ d, in_org g "Decision" org d
            && negb (has_rel g "RELIED_ON" d ("FactVersion"%string, v)))
            (s ← where_ (in_org g "Snapshot" org) (into g "INCLUDED" ("FactVersion"%string, v)); into g "BASED_ON" s)))
    ↔ ∃ x b, (x, b) ∈ decisions_with_rows d org v ∧ via = via_text b ∧ k = ("Decision"%string, d_id x)).
  { intros via k. rewrite elem_of_dict_fromkeys, elem_of_app, !list_elem_of_fmap. split.
    - intros [(k' & [= -> <-] & [Hin Hk]%elem_of_where_)|(k' & [= -> <-] & [Hin Hk]%elem_of_where_)].
      + destruct (in_org_label _ _ _ _ Hin) as [i ->]. apply elem_of_into, (rel_relied d g _ _ Hm) in Hk.
        apply (in_org_decision d g _ _ Hm) in Hin as (x & Hx & <- & Ho).
        apply (cited_by d v x Hco Hx) in Hk. exists x, true. split_and!; [|done..].
        apply with_version; [done|]. split_and!; [done..|by apply cited_in_context].
      + apply andb_true_iff in Hin as [Hin Hno%negb_true_iff].
        destruct (in_org_label _ _ _ _ Hin) as [i ->].
        apply list_elem_of_bind in Hk as (s & Hk & [Hs Hsv]%elem_of_where_).
        destruct (in_org_label _ _ _ _ Hs) as [j ->].
        apply elem_of_into, (rel_included d g _ _ Hm) in Hsv as (sf & Hsf & Hsj & Hsv).
        apply elem_of_into, (rel_based d g _ _ Hm) in Hk as (x & Hx & <- & Hxj).
        apply (in_org_decision d g _ _ Hm) in Hin as (x' & Hx' & Hid & Ho).
        assert (x' = x) as -> by (apply (decision_ids_unique d); [apply Hco|done..]).
        exists x, false. split_and!; [|done..]. apply with_version; [done|]. split_and!; [done..| |exists sf; split_and!; congruence || done].
        symmetry. apply not_true_iff_false. intros Hci. apply (cited_by d v x Hco Hx) in Hci.
        apply (rel_relied d g _ _ Hm), has_rel_spec in Hci. congruence.
    - intros (x & b & Hw & -> & ->). apply with_version in Hw as (Hx & Ho & -> & sf & Hsf & Hsx & Hsv); [|done].
      assert (Hin : in_org g "Decision" org ("Decision"%string, d_id x) = true)
        by (apply (in_org_decision d g _ _ Hm); by exists x).
      destruct (cites_version d v x) eqn:E; [left|right]; exists ("Decision"%string, d_id x); (split; [done|]);
        apply elem_of_where_.
      + split; [done|]. by apply elem_of_into, (rel_relied d g _ _ Hm), (cited_by d v x Hco Hx).
      + split.
        * rewrite Hin. apply negb_true_iff, not_true_iff_false. rewrite has_rel_spec, (rel_relied d g _ _ Hm).
          rewrite (cited_by d v x Hco Hx). congruence.
        * destruct (context_org d x sf Hco Hx Hsf Hsx) as (_ & cs & Hcs & Hci & Hcor).
          apply list_elem_of_bind. exists ("Snapshot"%string, d_snapshot_id x). split.
          -- apply elem_of_into, (rel_based d g _ _ Hm). by exists x.
          -- apply elem_of_where_. split.
             ++ apply (in_org_snapshot d g _ _ Hm). exists cs. by rewrite Hcor, Ho.
             ++ apply elem_of_into, (rel_included d g _ _ Hm). by exists sf. }
  split.
  - intros ([via k] & -> & H). apply Hrow in H as (x & b & Hw & -> & ->). by exists x, b.
  - intros (x & b & Hw & ->). exists (via_text b, ("Decision"%string, d_id x)). split; [done|]. apply Hrow.
    by exists x, b.
Qed.

(** ** From rows to a report *)

Lemma frozen_NoDup d t : consistent d → (∀ x, is_Some (projected t x)) → NoDup (tab d t).
Proof.
  intros Hc Hp.
  assert (G : ∀ l, StronglySorted (λ a b, compatible t a b = Ok ()) l → NoDup l).
  { induction 1 as [|x l Hs IH Hx]; constructor; [|done]. rewrite Forall_forall in Hx. intros Hin.
    by apply (incompatible_keys t x x (Hp x) eq_refl), Hx. }
  destruct (outbox t) eqn:Eo; [|by apply G, for_pairs_ok, Hc].
  destruct (tab d t) as [|x0 l0]; [constructor|]. destruct (Hp x0) as [? H].
  by rewrite (outbox_projected t x0 Eo) in H.
Qed.

Lemma with_version_NoDup d org v : consistent d → NoDup (map (λ xb, d_id xb.1) (decisions_with_rows d org v)).
Proof.
  intros Hc. unfold decisions_with_rows.
  eapply (NoDup_Permutation_proper _ _ (Permutation_map _ (sort_by_perm _ _))).
  apply (NoDup_bind_key d_id).
  - apply map_where_NoDup. apply NoDup_fmap_2_strong; [|by apply decisions_NoDup].
    intros x y Hx Hy. by apply (decision_ids_unique d).
  - intros x _. rewrite (length_bind_one _ _ (x, cites_version d v x) eq_refl). apply length_le_1.
    + eapply sublist_NoDup; [by apply (frozen_NoDup d SnapshotFacts)|apply where_sublist].
    + intros a b [Ha Hia]%elem_of_where_ [Hb Hib]%elem_of_where_.
      rewrite !andb_true_iff, !Z.eqb_eq in Ha, Hb. destruct Ha as [[_ Ha] Hav], Hb as [[_ Hb] Hbv].
      apply (key_unique d SnapshotFacts); [done..|by eexists|]. cbn. congruence.
  - intros x [y b] Hy. apply list_elem_of_bind in Hy as (sf & Hy & _). by apply list_elem_of_singleton in Hy as [= -> _].
Qed.

(** What the report says of a decision. *)
Definition affected_by (v : UUID) (xb : decision * bool) : AffectedDecision := {|
  ad_decision_id := d_id xb.1; ad_action := Some (GStr (d_action xb.1));
  ad_decided_at := Some (d_decided_at xb.1); ad_because_of := [(v, via_text xb.2)] |}.

Definition query_row (v : UUID) (xb : decision * bool) : UUID * pystr * option (string * UUID) :=
  (v, via_text xb.2, Some ("Decision"%string, d_id xb.1)).

Definition impact_row (v : UUID) (xb : decision * bool) : ImpactRow := {|
  ir_fact_version_id := v; ir_via := via_text xb.2;
  ir_decision := Some {| dr_decision_id := d_id xb.1; dr_action := Some (GStr (d_action xb.1));
                         dr_decided_at := Some (d_decided_at xb.1) |} |}.

Lemma query_rows d g org v : mirrors d g → citations_ok d → in_org g "FactVersion" org ("FactVersion"%string, v) = true →
  ∃ l, IMPACT_OF_VERSION g org v = map (query_row v) l ∧ l ≡ₚ decisions_with_rows d org v.
Proof.
  intros Hm Hco Hv.
  assert (Hn : NoDup (decisions_with_rows d org v)).
  { apply (NoDup_fmap_1 (λ xb, d_id xb.1)). apply with_version_NoDup, Hco. }
  destruct (Permutation_map_inv (query_row v) (decisions_with_rows d org v) (l1 := IMPACT_OF_VERSION g org v))
    as (l & E & Hp); [|exists l; split; [done|by symmetry]].
  apply NoDup_Permutation.
  - unfold IMPACT_OF_VERSION, matching. cbn [where_ List.filter]. rewrite Hv. cbn [mbind list_bind].
    rewrite app_nil_r. apply NoDup_fmap_2_strong; [|apply NoDup_dict_fromkeys].
    intros [a b] [a' b'] _ _ [= -> ->]. done.
  - apply NoDup_fmap_2_strong; [|done]. intros [x b] [y c] Hx Hy [= Hb Hi].
    apply with_version in Hx as (Hx & _ & -> & _), Hy as (Hy & _ & -> & _); [|done..].
    assert (x = y) as -> by (by apply (decision_ids_unique d); [apply Hco|..]). done.
  - intros r. rewrite (impact_rows d g org v r Hm Hco Hv), list_elem_of_fmap. split.
    + intros (x & b & Hw & ->). by exists (x, b).
    + intros ([x b] & -> & Hw). by exists x, b.
Qed.

(** The node of a decision. *)
Lemma decision_props d g x : mirrors d g → x ∈ tab d Decisions →
  prop g ("Decision"%string, d_id x) "action" = Some (GStr (d_action x)) ∧
  prop g ("Decision"%string, d_id x) "decided_at" = Some (GTime (d_decided_at x)).
Proof.
  intros Hm Hx. destruct (mirrored_node d g Decisions x _ Hm Hx eq_refl) as (es & vals & He & Hin & E).
  assert (Hv : vals = [("org"%string, Some (GUuid (d_organization_id x)));
    ("action"%string, Some (GStr (d_action x))); ("agent"%string, GStr <$> d_agent x);
    ("decided_at"%string, Some (GTime (d_decided_at x)));
    ("decided_by_user_id"%string, Some (GUuid (d_decided_by_user_id x)));
    ("receipt_sha256"%string, Some (GStr (d_receipt_sha256 x)))]).
  { apply (effects_put_once Decisions x es ("Decision"%string, d_id x)); [done..|].
    revert He. intros [= <-]. by left. }
  unfold prop. rewrite E. cbn [mbind option_bind]. rewrite Hv. split.
  - apply (lookup_set_props_at [_] "action" (Some (GStr (d_action x))) [_; _; _; _] ∅). cbn. set_solver.
  - apply (lookup_set_props_at [_; _; _] "decided_at" (Some (GTime (d_decided_at x))) [_; _] ∅). cbn. set_solver.
Qed.

Lemma impact_records d g v l : mirrors d g → (∀ xb, xb ∈ l → xb.1 ∈ tab d Decisions) →
  mapR (impact_record g) (map (query_row v) l) = Ok (map (impact_row v) l).
Proof.
  intros Hm Hl. induction l as [|[x b] l IH]; [done|]. cbn [map mapR].
  assert (E : impact_record g (query_row v (x, b)) = Ok (impact_row v (x, b))).
  { destruct (decision_props d g x Hm (Hl (x, b) (list_elem_of_here _ _))) as [Ea Ed].
    unfold impact_record, query_row. cbn [fst snd]. by rewrite Ed, Ea. }
  rewrite E, IH; [done|]. intros xb Hxb. apply Hl. by right.
Qed.

(** Grouping rows about different decisions. *)
Lemma group_distinct v l : NoDup (map (λ xb : decision * bool, d_id xb.1) l) →
  (i ← decision_ids (map (impact_row v) l); affected (map (impact_row v) l) i) = map (affected_by v) l.
Proof.
  intros Hn.
  assert (Hids : decision_ids (map (impact_row v) l) = map (λ xb : decision * bool, d_id xb.1) l).
  { unfold decision_ids. rewrite <-(dict_fromkeys_id _ Hn). f_equal. clear Hn. induction l as [|x l IH]; [done|].
    cbn. f_equal. exact IH. }
  rewrite Hids.
  assert (Haff : ∀ xb, xb ∈ l → affected (map (impact_row v) l) (d_id xb.1) = [affected_by v xb]).
  { intros xb Hxb. unfold affected.
    assert (E : reasons (map (impact_row v) l) (d_id xb.1) = [(v, via_text xb.2,
      {| dr_decision_id := d_id xb.1; dr_action := Some (GStr (d_action xb.1));
         dr_decided_at := Some (d_decided_at xb.1) |})]); [|by rewrite E].
    clear Hids. induction l as [|y l IH]; [by apply not_elem_of_nil in Hxb|].
    cbn in Hn. apply NoDup_cons in Hn as [Hy Hn]. unfold reasons in *. cbn [map mbind list_bind ir_decision impact_row dr_decision_id].
    apply elem_of_cons in Hxb as [<-|Hxb].
    - rewrite Z.eqb_refl. cbn. f_equal. clear IH Hn. induction l as [|z l IH]; [done|]. cbn in Hy.
      apply not_elem_of_cons in Hy as [Hne Hy]. cbn [map mbind list_bind ir_decision impact_row dr_decision_id].
      rewrite (proj2 (Z.eqb_neq _ _)) by congruence. cbn. by apply IH.
    - rewrite (proj2 (Z.eqb_neq _ _)); [by apply IH|]. intros E. apply Hy, list_elem_of_fmap. by exists xb. }
  clear Hids Hn. revert Haff. generalize (map (impact_row v) l) as rows. intros rows Haff.
  induction l as [|x l IH]; [done|]. cbn. rewrite Haff by (by left). cbn. f_equal. apply IH.
  intros xb Hxb. apply Haff. by right.
Qed.

Lemma decided_le_total x y : decided_le x y = false → decided_le y x = true.
Proof.
  unfold decided_le. destruct (ad_decided_at x), (ad_decided_at y); try done;
    rewrite ?orb_false_iff, ?orb_true_iff, ?andb_false_iff, ?andb_true_iff, ?Z.ltb_ge, ?Z.ltb_lt, ?Z.eqb_eq,
      ?Z.eqb_neq, ?Z.leb_gt, ?Z.leb_le; lia.
Qed.

Lemma decided_le_trans x y z : decided_le x y = true → decided_le y z = true → decided_le x z = true.
Proof.
  unfold decided_le. destruct (ad_decided_at x), (ad_decided_at y), (ad_decided_at z); try done;
    rewrite ?orb_true_iff, ?andb_true_iff, ?Z.ltb_lt, ?Z.eqb_eq, ?Z.leb_le; lia.
Qed.

Lemma decided_le_id x y : decided_le x y = true → decided_le y x = true → ad_decision_id x = ad_decision_id y.
Proof.
  unfold decided_le. destruct (ad_decided_at x), (ad_decided_at y); try done;
    rewrite ?orb_true_iff, ?andb_true_iff, ?Z.ltb_lt, ?Z.eqb_eq, ?Z.leb_le; lia.
Qed.

(** The report lists the decisions as the SQL does. *)
Lemma report_decisions d g org v : mirrors d g → citations_ok d →
  in_org g "FactVersion" org ("FactVersion"%string, v) = true → zlen (decisions_with_rows d org v) ≤ 100000 →
  ∃ rows, GraphReader.impact_of_version org v g = Ok rows ∧
          (group_impact rows).2 = map (affected_by v) (decisions_with_rows d org v).
Proof.
  intros Hm Hco Hv Hlen. destruct (query_rows d g org v Hm Hco Hv) as (l & E & Hp).
  exists (map (impact_row v) l). split.
  - unfold GraphReader.impact_of_version, GraphReader.impact, fetch. rewrite E, take_ge.
    + apply (impact_records d); [done|]. intros [x b] Hx. rewrite Hp in Hx. by apply with_version in Hx as (? & _).
    + rewrite length_map, Hp. unfold zlen in Hlen. lia.
  - assert (Hn : NoDup (map (λ xb : decision * bool, d_id xb.1) l)).
    { eapply (NoDup_Permutation_proper _ _ (Permutation_map _ Hp)). by apply with_version_NoDup, Hco. }
    unfold group_impact. cbn [snd]. rewrite (group_distinct v l Hn).
    unfold decisions_with_rows in *. set (raw := _ ≫= _) in *.
    rewrite (map_sort_by (affected_by v) _ decided_le) by (by intros [x b] [y c]).
    apply sort_by_unique_on; [exact decided_le_total|exact decided_le_trans| |].
    + intros x y (xb & -> & Hx)%list_elem_of_fmap (yb & -> & Hy)%list_elem_of_fmap H1 H2. f_equal.
      pose proof (decided_le_id _ _ H1 H2) as Hid. cbn in Hid.
      apply list_elem_of_lookup in Hx as [i Hi], Hy as [j Hj]. assert (i = j) as ->; [|congruence].
      apply (proj1 (NoDup_alt _) Hn i j (d_id xb.1)); rewrite list_lookup_fmap; [by rewrite Hi|by rewrite Hj, Hid].
    + apply Permutation_map. rewrite Hp. apply sort_by_perm.
Qed.

(** Authorization is the transaction's; the queries see what is there afterwards. *)
Lemma graph_authorized others ctx s a s' : authorize others ctx s = (Ok a, s') →
  s' = others s ∧ current_role s.1 (ctx_organization_id ctx) (ctx_user_id ctx) a.1 ∧
  has_permission a.1 READ_DECISIONS = true ∧ scopes_allow (ctx_scopes ctx) READ_DECISIONS = true ∧
  a.2 = zlen (where_ (λ e, go_organization_id e =? ctx_organization_id ctx) (tab s.1 GraphOutbox)).
Proof.
  intros H. unfold authorize in H. apply st_bind_ok in H as (a1 & s1 & H1 & H).
  apply st_bind_ok in H as (u & s2 & ->%modify_ok & [-> ->]%st_ret_ok).
  apply on_db_ok in H1 as [H1 E]. apply (proj1 (transaction_ok _ _ _ _)) in H1. apply st_bind_ok in H1 as (role & d1 & Hp & H1).
  apply require_permission_ok in Hp as (-> & Hrole & Hhas & Hsc).
  apply st_bind_ok in H1 as (n & d2 & [-> ->]%gets_ok & [-> E1]%st_ret_ok). cbn [fst snd].
  split_and!; try done. f_equal. destruct s as [d g], s1 as [d1 g1]. cbn in *. by subst.
Qed.

Lemma require_node_ok ctx label i s u s' : require_node ctx label i s = (Ok u, s') →
  s' = s ∧ in_org s.2 label (ctx_organization_id ctx) (label, i) = true.
Proof.
  intros H. unfold require_node in H. apply st_bind_ok in H as (f & s1 & [-> ->]%gets_ok & [Hf ->]%guard_ok).
  split; [done|]. unfold GraphReader.exists_, matching in Hf. cbn [where_ List.filter] in Hf.
  by destruct (in_org _ _ _ _).
Qed.

(** C38. Impact of a fact version, in a graph that one projector at a time has written
    (as for [projection_converges]): once the outbox is empty, and if the rows of the
    query are no more than the 100000 that the reader fetches, the report of the graph
    lists exactly the decisions of the organization whose frozen context held the version,
    in the order and with the distinction (relied on, or only in context) of the SQL
    query that revocations run. *)
Theorem impact_is_the_sql others ctx v s rep s' :
  rtc projection_step (empty_db, empty_graph) (others s) → tab (others s).1 GraphOutbox = [] →
  zlen (decisions_with_rows (others s).1 (ctx_organization_id ctx) v) ≤ 100000 →
  impact_of_fact_version others ctx v s = (Ok rep, s') →
  s' = others s ∧ (∃ role, current_role s.1 (ctx_organization_id ctx) (ctx_user_id ctx) role ∧
                           has_permission role READ_DECISIONS = true) ∧
  im_decisions rep = map (affected_by v) (decisions_with_rows (others s).1 (ctx_organization_id ctx) v).
Proof.
  intros Hr Hnil Hlen H. destruct (projection_citations _ Hr) as (Hok & Hg & Hco).
  pose proof (drained_mirrors _ _ Hok Hg Hnil) as Hm.
  unfold impact_of_fact_version in H. apply st_bind_ok in H as (a & s1 & Ha & H).
  apply graph_authorized in Ha as (-> & Hrole & Hhas & _ & _).
  apply st_bind_ok in H as (u & s2 & [-> Hin]%require_node_ok & H).
  apply st_bind_ok in H as (rows & s3 & Hrows & H). unfold read_graph in Hrows.
  apply st_bind_ok in Hrows as (r & s4 & [-> ->]%gets_ok & [Hrows ->]%lift_ok).
  apply st_bind_ok in H as (later & s5 & [_ ->]%gets_ok & [-> ->]%st_ret_ok).
  destruct (report_decisions _ _ _ v Hm Hco Hin Hlen) as (rows' & E & Hd).
  rewrite E in Hrows. injection Hrows as ->. split_and!; [done|by exists a.1|done].
Qed.

End answers.
