(* ===== verification/World.v ===== *)
(** The world a process works in, the lifts of a service's transactions into it, and what
    the reading services show: versions of the tenant's facts, as stored.  Shared by the
    MCP tools and the REST endpoints. *)

From stdpp Require Import gmap.
From S2P Require Import Grounding.
From S2P Require Import Prelude PyStr Json Canonical Regex Validation Access Temporal History.
From S2P Require Import Database Schema Calendar Accounts FactRepo EvidenceService FactService JsonParse.
From S2P Require Import TemporalService Ranking Generation Retrieval ContradictionService Store McpState.
From S2P Require Import RetrievalCache Decisions Revocations ProvenanceGraph Provenance Investigator.
From S2P Require Import AgentAccess Sealing.

(** * The world *)

(** The database, the shared store and the provenance graph. *)
Record world := { w_db : db; w_kv : kv; w_graph : graph }.

Definition in_db {A} (m : DB A) : ST world A := λ w,
  let '(r, d) := m (w_db w) in (r, {| w_db := d; w_kv := w_kv w; w_graph := w_graph w |}).
Definition in_kv {A} (m : KV A) : ST world A := λ w,
  let '(r, s) := m (w_kv w) in (r, {| w_db := w_db w; w_kv := s; w_graph := w_graph w |}).
Definition in_db_kv {A} (m : ST (db * kv) A) : ST world A := λ w,
  let '(r, (d, s)) := m (w_db w, w_kv w) in (r, {| w_db := d; w_kv := s; w_graph := w_graph w |}).
Definition in_db_graph {A} (m : ST (db * graph) A) : ST world A := λ w,
  let '(r, (d, g)) := m (w_db w, w_graph w) in (r, {| w_db := d; w_kv := w_kv w; w_graph := g |}).

(** * What the services show *)

Lemma in_db_ok {A} (m : DB A) w a w' : in_db m w = (Ok a, w') → m (w_db w) = (Ok a, w_db w').
Proof. unfold in_db. destruct (m (w_db w)) as [r d]. by intros [= -> <-]. Qed.

Lemma in_kv_ok {A} (m : KV A) w a w' : in_kv m w = (Ok a, w') → w_db w' = w_db w.
Proof. unfold in_kv. destruct (m (w_kv w)) as [r s]. by intros [= -> <-]. Qed.

Lemma in_db_kv_ok {A} (m : ST (db * kv) A) w a w' : in_db_kv m w = (Ok a, w') →
  ∃ s, m (w_db w, w_kv w) = (Ok a, (w_db w', s)).
Proof. unfold in_db_kv. destruct (m (w_db w, w_kv w)) as [r [d s]]. intros [= -> <-]. by exists s. Qed.

Lemma as_known_row v k : let s := as_known (to_snapshot v) k in
  vs_id s = fv_id v ∧ vs_value s = fv_value v ∧ vs_privacy_scope s = fv_privacy_scope v.
Proof. unfold as_known. destruct k; [|done]. destruct (vs_valid_until_recorded_at _); [|done]. by destruct (_ <=? _). Qed.

Lemma joined_versions d org i p x : x ∈ TemporalRepository.versions_with_property d org i p →
  x.1 ∈ tab d FactVersions ∧ fv_organization_id x.1 = org.
Proof.
  unfold TemporalRepository.versions_with_property. intros (v & Hv & H)%list_elem_of_omap.
  apply elem_of_where_ in Hv as [[Ho%Z.eqb_eq _]%andb_true_iff Hin].
  destruct (TemporalRepository.joined_property d i v); [|done]. injection H as <-. done.
Qed.

Lemma elem_of_distinct_on_fact x l : x ∈ TemporalRepository.distinct_on_fact l → x ∈ l.
Proof.
  induction l as [|y l IH]; [done|]. cbn [TemporalRepository.distinct_on_fact].
  destruct (TemporalRepository.distinct_on_fact l) as [|z r].
  - intros ->%list_elem_of_singleton. by left.
  - destruct (_ =? _); rewrite !elem_of_cons in *; naive_solver.
Qed.

(** [s] shows a version of the store, its value as [read] from it. *)
Definition shows (read : json → json) (org : UUID) (d : db) (s : VersionSnapshot) : Prop :=
  ∃ v, v ∈ tab d FactVersions ∧ fv_organization_id v = org ∧
    vs_id s = fv_id v ∧ vs_value s = read (fv_value v) ∧ vs_privacy_scope s = fv_privacy_scope v.

Lemma known_shows org d v k : v ∈ tab d FactVersions → fv_organization_id v = org →
  shows id org d (as_known (to_snapshot v) k).
Proof. intros Hv Ho. exists v. split; [done|]. split; [done|]. apply as_known_row. Qed.

Lemma require_entity_state `{UnicodeData} org et ext : respects eq (require_entity org et ext).
Proof.
  unfold require_entity, TemporalRepository.get_entity. respects ltac:(apply select_respects; apply _).
Qed.

Section service_rows.
Context `{UD : !UnicodeData}.

Lemma facts_at_rows clock ctx et ext t k d r d' : facts_at clock ctx et ext t k d = (Ok r, d') →
  d' = d ∧ ∀ f, f ∈ r → shows id (ctx_organization_id ctx) d (rf_version f).
Proof.
  intros H. pose proof (facts_at_state clock ctx et ext t k _ _ _ H) as <-. split; [done|].
  unfold facts_at in H. minv.
  repeat match goal with H : require_permission _ _ _ = _ |- _ => apply require_permission_ok in H as (-> & _) end.
  match goal with H : require_entity _ _ _ _ = _ |- _ => rename H into He end.
  pose proof (require_entity_state _ _ _ _ _ _ He) as Es.
  match goal with H : TemporalRepository.facts_valid_at _ _ _ _ _ = _ |- _ => apply gets_ok in H as [-> Ed] end.
  subst. intros f Hf. rewrite elem_of_sort_by in Hf. apply list_elem_of_fmap in Hf as (p & -> & Hx).
  apply elem_of_distinct_on_fact in Hx. rewrite elem_of_sort_by in Hx. apply joined_versions in Hx as [Hin Ho].
  by apply known_shows.
Qed.

Lemma entity_timeline_rows ctx et ext k d r d' : entity_timeline ctx et ext k d = (Ok r, d') →
  d' = d ∧ ∀ e, e ∈ r → shows id (ctx_organization_id ctx) d (te_version e).
Proof.
  intros H. unfold entity_timeline in H. minv.
  repeat match goal with H : require_permission _ _ _ = _ |- _ => apply require_permission_ok in H as (-> & _) end.
  match goal with H : require_entity _ _ _ _ = _ |- _ => rename H into He end.
  pose proof (require_entity_state _ _ _ _ _ _ He) as Es.
  match goal with H : TemporalRepository.entity_versions _ _ _ _ = _ |- _ => apply gets_ok in H as [-> Ed] end.
  subst. split; [done|]. intros f Hf. rewrite elem_of_sort_by in Hf. apply list_elem_of_fmap in Hf as (p & -> & Hx).
  rewrite elem_of_sort_by in Hx. apply joined_versions in Hx as [Hin Ho]. by apply known_shows.
Qed.

End service_rows.

Lemma side_shows org i d x d' : side org i d = (Ok x, d') →
  d' = d ∧ vs_id (cd_version x.1) = i ∧ shows id org d (cd_version x.1).
Proof.
  unfold side. intros H. apply st_bind_ok in H as (rows & ? & [-> ->]%gets_ok & [Hone ->]%lift_ok). split; [done|].
  apply one_ok in Hone. match type of Hone with ?l = _ => assert (Hin : x ∈ l) by (rewrite Hone; by left) end. clear Hone.
  apply list_elem_of_bind in Hin as (v & Hin & [Hp Hv]%elem_of_where_).
  apply list_elem_of_bind in Hin as (f & Hin & _). apply list_elem_of_bind in Hin as (e & Hin & _).
  apply list_elem_of_bind in Hin as (s & Hin & _). apply list_elem_of_singleton in Hin as ->.
  apply andb_true_iff in Hp as [Ho%Z.eqb_eq Hi%Z.eqb_eq]. split; [exact Hi|]. exists v. split; [exact Hv|]. by split.
Qed.

(** A contradiction of the organization as it is shown: its scope and its two versions. *)
Definition listed (org : UUID) (d : db) (c : ContradictionView) (x : contradiction) : Prop :=
  x ∈ tab d Contradictions ∧ c_organization_id x = org ∧ c_id x = cv_id c ∧ c_privacy_scope x = cv_privacy_scope c ∧
  vs_id (cd_version (cv_left c)) = c_left_version_id x ∧ vs_id (cd_version (cv_right c)) = c_right_version_id x ∧
  shows id org d (cd_version (cv_left c)) ∧ shows id org d (cd_version (cv_right c)).

Lemma list_contradictions_rows ctx status et ext limit d r d' :
  list_contradictions ctx status et ext limit d = (Ok r, d') →
  d' = d ∧ ∃ role, ∀ c, c ∈ r → ∃ x, listed (ctx_organization_id ctx) d c x ∧
    c_privacy_scope x ∈ visible_privacy_scopes role [ctx_max_privacy_scope ctx].
Proof.
  unfold list_contradictions. destruct (negb _); [by intros ?%raise_ok|]. intros H. minv.
  match goal with H : visible_for _ _ _ = _ |- _ => apply visible_for_ok in H as (-> & role & _ & _ & ->) end.
  match goal with H : mapM_ view _ _ = _ |- _ => rename H into Hm end.
  pose proof (respects_mapM eq _ _ (λ x _, view_state x) _ _ _ Hm) as <-. split; [done|]. exists role. intros c Hc.
  apply mapM_read in Hm; [|apply view_state].
  apply list_elem_of_lookup in Hc as [n Hn]. eapply Forall2_lookup_r in Hm as (row & Hrow & Hv); [|exact Hn].
  apply list_elem_of_lookup_2, in_take in Hrow. rewrite elem_of_sort_by in Hrow.
  apply list_elem_of_bind in Hrow as (c' & Hrow & [Hw Hin]%elem_of_where_).
  apply list_elem_of_bind in Hrow as (e & Hrow & _). destruct (_ && _) in Hrow; [|by apply not_elem_of_nil in Hrow].
  apply list_elem_of_singleton in Hrow as ->. rewrite !andb_true_iff, bool_decide_eq_true, Z.eqb_eq in Hw.
  destruct Hw as [[Ho Hs] _]. unfold view in Hv. apply st_bind_ok in Hv as ([l1 e1] & s1 & Hl & Hv).
  apply side_shows in Hl as (-> & El & Hl).
  apply st_bind_ok in Hv as (r1 & s2 & Hr & [-> _]%st_ret_ok). apply side_shows in Hr as (_ & Er & Hr).
  rewrite Ho in *. exists c'. by split_and!.
Qed.

Lemma snapshot_row_version `{Jsonb} org snapshot_id d rows d' row :
  DecisionRepository.snapshot_rows org snapshot_id d = (Ok rows, d') → row ∈ rows →
  ∃ v, v ∈ tab d FactVersions ∧ fv_organization_id v = org ∧ sr_version row = DecisionRepository.loaded v.
Proof.
  unfold DecisionRepository.snapshot_rows. intros [-> _]%gets_ok Hir. unfold sort_on in Hir. rewrite elem_of_sort_by in Hir.
  apply list_elem_of_bind in Hir as (sf & Hir & [Hof Hsf]%elem_of_where_).
  unfold DecisionRepository.snapshot_join in Hir. apply list_elem_of_bind in Hir as (v & Hir & [Hv Hvt]%elem_of_where_).
  apply list_elem_of_bind in Hir as (ft & Hir & _). apply list_elem_of_bind in Hir as (e & Hir & _).
  apply list_elem_of_bind in Hir as (so & Hir & _). apply list_elem_of_singleton in Hir as ->.
  unfold DecisionRepository.of_snapshot in Hof. exists v. split; [done|]. split; [lia|done].
Qed.

(** The versions a receipt shows, each with its scope; a redacted fact shows none. *)
Lemma receipt_version_rows `{FloatRepr} `{Sha256} `{Jsonb} load ctx i d r d' : receipt load ctx i d = (Ok r, d') →
  d' = d ∧ ∀ f s, f ∈ dr_facts r → rf_receipt_version f = Some s →
    shows jsonb_read (ctx_organization_id ctx) d s ∧ rf_privacy_scope f = vs_privacy_scope s ∧ rf_redacted f = false.
Proof.
  intros (-> & role & x0 & snapshot & rows & relied & c & h & _ & _ & _ & _ & _ & _ & Hrows & _ & _ & _ & _ &
    revoked & Hf)%receipt_ok. split; [done|]. intros f s Hin Hs.
  apply mapM_read in Hf; [|intros; apply receipt_fact_read].
  apply list_elem_of_lookup in Hin as [n Hn]. eapply Forall2_lookup_r in Hf as (row & Hrow & Hf); [|exact Hn].
  apply list_elem_of_lookup_2 in Hrow. destruct (snapshot_row_version _ _ _ _ _ _ Hrows Hrow) as (v & Hv & Ho & Ev).
  unfold receipt_fact in Hf. destruct (negb _) in Hf; [by apply st_ret_ok in Hf as [-> _]|].
  apply st_bind_ok in Hf as (links & ? & _ & [-> _]%st_ret_ok). cbn in Hs. injection Hs as <-.
  rewrite Ev. destruct (as_known_row (DecisionRepository.loaded v) (Some (cs_known_at snapshot))) as (Ei & Ej & Es).
  cbv zeta in *. split; [|done]. by exists v.
Qed.
