(* ===== verification/McpTools.v ===== *)
(** The MCP server's tools, app/mcp/tools.py: thin adapters over the services for one
    configured principal with a privacy ceiling of its own.  The handlers return the
    values they build; [to_jsonable] writes their fields and is not modelled. *)

From stdpp Require Import gmap.
From S2P Require Import Grounding.
From S2P Require Import Prelude PyStr Json Canonical Regex Validation Access Temporal History.
From S2P Require Import Database Schema Calendar Accounts FactRepo EvidenceService FactService JsonParse.
From S2P Require Import TemporalService Ranking Generation Retrieval ContradictionService Store McpState.
From S2P Require Import RetrievalCache Decisions Revocations ProvenanceGraph Provenance Investigator.
From S2P Require Import AgentAccess Sealing World.

Record McpIdentity := {
  mi_organization_id : UUID; mi_user_id : UUID; mi_agent_name : pystr; mi_max_privacy_scope : PrivacyScope }.

(** [McpRuntime]; a session is its id and time to live. *)
Record McpRuntime `{ScoreOps} := {
  mr_identity : McpIdentity; mr_graph : bool; mr_cache : option (ResultCache kv);
  mr_session : option (pystr * Z); mr_generator : option GenerationProvider;
  mr_answer_prompt_version : pystr; mr_max_output_tokens : Z; mr_agent_max_steps : Z;
  mr_agent_max_tool_calls : Z }.

(** * What the tools return *)

Record SearchedFact `{ScoreOps} := {
  sx_fact_version_id : UUID; sx_entity_type : pystr; sx_external_id : pystr; sx_property : pystr;
  sx_value : json; sx_valid_from : Instant; sx_valid_until : option Instant; sx_source : pystr;
  sx_authority : Z; sx_confidence : Z; sx_score : score }.
Record SearchReply `{ScoreOps} := {
  sy_valid_at : Instant; sy_known_at : option Instant; sy_vector_search : VectorSearchStatus;
  sy_cache : CacheStatus; sy_results : list SearchedFact }.

Record EntityFact := {
  ex_property : pystr; ex_fact_id : UUID; ex_fact_version_id : UUID; ex_value : json;
  ex_valid_from : Instant; ex_valid_until : option Instant; ex_recorded_at : Instant }.
Record EntityFacts := {
  ey_entity_type : pystr; ey_external_id : pystr; ey_facts : list EntityFact; ey_withheld : Z }.

Record HistoryEntry := {
  hx_property : pystr; hx_fact_version_id : UUID; hx_version : Z; hx_value : json;
  hx_valid_from : Instant; hx_valid_until : option Instant; hx_recorded_at : Instant }.

Record CapturedFact := {
  cx_fact_version_id : UUID; cx_entity_type : pystr; cx_external_id : pystr; cx_property : pystr;
  cx_value : json; cx_source : pystr }.
Record CaptureReply := {
  cy_snapshot_id : UUID; cy_valid_at : Instant; cy_known_at : Instant; cy_facts : list CapturedFact }.

Record DecisionReply := {
  dy_decision_id : UUID; dy_receipt_sha256 : pystr; dy_decided_at : Instant; dy_integrity_verified : bool }.

Inductive impact_kind := ImpactFactVersion | ImpactSource | ImpactEvidence.

(** * The handlers *)

(** [tool_errors] *)
Definition tool_error `{ExceptionText} (e : exn) : exn :=
  match e with
  | ToolError _ => e
  | AnswerGenerationError _ cause | InvestigationError cause =>
    ToolError (py "the language model could not answer (" ++ py cause ++ py ")")
  | _ => if is_domain_error e then ToolError (py (exn_name e) ++ py ": " ++ exn_str e)
         else ToolError (py "internal error; see the ContextLedger server logs")
  end.

Definition tool_errors `{ExceptionText} {A} (m : ST world A) : ST world A := λ w,
  match m w with (Ok a, w') => (Ok a, w') | (Err e, w') => (Err (tool_error e), w') end.

Definition refuse {A} (text : string) : ST world A := raise (ToolError (py text)).

Section handlers.
Context `{UD : !UnicodeData} `{FR : !FloatRepr} `{FD : !FloatRead} `{ET : !ExceptionText} `{SH : !Sha256} `{JB : !Jsonb}.
Context `{SO : !ScoreOps} `{SE : !SearchEngine} `{RT : !RequestText} `{JL : !JsonLoads} `{PD : !Pydantic}.
Context `{KS : KeyValueStore}.

(** The server's runtime and clock, the index of the store, what other transactions do
    between the transactions of a service, and what else happens between a tool's calls. *)
Context (rt : McpRuntime) (clock : Instant) (index : search_index).
Context (others : db → db) (elsewhere : world → world).

Abbreviation identity := (mr_identity rt) (only parsing).

Definition _tenant : ST world TenantContext :=
  ctx ← in_db (resolve_tenant (mi_organization_id identity) (mi_user_id identity));
  _ ← modify elsewhere;
  mret ctx.

Definition _visible (ctx : TenantContext) : list PrivacyScope :=
  visible_privacy_scopes (ctx_role ctx) [Some (mi_max_privacy_scope identity); ctx_max_privacy_scope ctx].

(** [replace(ctx, max_privacy_scope=max(visible, key=PRIVACY_ORDER.index))]; the visible
    scopes are never none. *)
Definition with_ceiling (ctx : TenantContext) (ceiling : PrivacyScope) : TenantContext := {|
  ctx_organization_id := ctx_organization_id ctx; ctx_user_id := ctx_user_id ctx; ctx_role := ctx_role ctx;
  ctx_scopes := ctx_scopes ctx; ctx_max_privacy_scope := Some ceiling;
  ctx_agent_client_id := ctx_agent_client_id ctx |}.

Definition _agent_tenant : ST world TenantContext :=
  ctx ← _tenant;
  mret (with_ceiling ctx (fold_left max_scope (_visible ctx) PUBLIC)).

Definition _generator : ST world GenerationProvider :=
  match mr_generator rt with
  | None => refuse "LLM generation is disabled for this server"
  | Some g => mret g
  end.

Definition _graph : ST world unit :=
  if mr_graph rt then mret () else refuse "the provenance graph (Neo4j) is not configured for this server".

(** The calls of [McpSessionState] for the session [x]. *)
Definition in_session {A} (x : pystr * Z) (call : UUID → UUID → pystr → pystr → Z → KV A) : ST world A :=
  in_kv (call (mi_organization_id identity) (mi_user_id identity) (mi_agent_name identity) x.1 x.2).

Definition if_session (call : UUID → UUID → pystr → pystr → Z → KV unit) : ST world unit :=
  match mr_session rt with None => mret () | Some x => in_session x call end.

Definition current_session (x : pystr * Z) : ST world SessionContext :=
  in_session x (λ o u a i _, current o u a i).

(** ** Retrieval *)

Definition searched_fact (r : RetrievedFact) : SearchedFact := {|
  sx_fact_version_id := vs_id (rt_version r); sx_entity_type := rt_entity_type r;
  sx_external_id := rt_external_id r; sx_property := rt_property r; sx_value := vs_value (rt_version r);
  sx_valid_from := vs_valid_from (rt_version r); sx_valid_until := vs_valid_until (rt_version r);
  sx_source := rt_source_name r; sx_authority := vs_authority (rt_version r);
  sx_confidence := vs_confidence (rt_version r); sx_score := rc_score (rt_ranking r) |}.

(** A request of a tool: the agent's ceiling, no source or trust filters. *)
Definition tool_query (query : pystr) (limit : Z) (valid_at known_at : option datetime)
    (entity_type : option pystr) (external_ids properties : list pystr) : RetrievalQuery := {|
  rq_query := query; rq_limit := limit; rq_valid_at := valid_at; rq_known_at := known_at;
  rq_entity_type := entity_type; rq_external_ids := external_ids; rq_properties := properties;
  rq_source_ids := []; rq_min_authority := None; rq_min_confidence := None;
  rq_max_privacy_scope := Some (mi_max_privacy_scope identity); rq_trust_weight := DEFAULT_TRUST_WEIGHT |}.

Definition search_facts (query : pystr) (valid_at known_at : option datetime) (limit : Z)
    (entity_type : option pystr) (external_ids properties : list pystr) : ST world SearchReply :=
  tool_errors (
    ctx ← _tenant;
    result ← in_db_kv (search (mr_cache rt) clock others index ctx
               (tool_query query limit valid_at known_at entity_type external_ids properties));
    _ ← if_session (λ o u a i ttl, remember_query o u a i ttl clock (rr_query result));
    mret {| sy_valid_at := rr_valid_at result; sy_known_at := rr_known_at result;
            sy_vector_search := rr_vector_search result; sy_cache := rr_cache result;
            sy_results := map searched_fact (rr_results result) |}).

Definition get_entity_facts (entity_type external_id : pystr) (valid_at known_at : option datetime) :
    ST world EntityFacts :=
  tool_errors (
    ctx ← _tenant;
    facts ← in_db (facts_at clock ctx entity_type external_id valid_at known_at);
    let shown := where_ (λ f, bool_decide (vs_privacy_scope (rf_version f) ∈ _visible ctx)) facts in
    mret {| ey_entity_type := entity_type; ey_external_id := external_id;
            ey_facts := map (λ f, {|
              ex_property := rf_property f; ex_fact_id := rf_fact_id f;
              ex_fact_version_id := vs_id (rf_version f); ex_value := vs_value (rf_version f);
              ex_valid_from := vs_valid_from (rf_version f); ex_valid_until := vs_valid_until (rf_version f);
              ex_recorded_at := vs_recorded_at (rf_version f) |}) shown;
            ey_withheld := zlen facts - zlen shown |}).

Definition get_fact_history (entity_type external_id : pystr) (known_at : option datetime) :
    ST world (list HistoryEntry) :=
  tool_errors (
    ctx ← _tenant;
    timeline ← in_db (entity_timeline ctx entity_type external_id known_at);
    mret (map (λ e, {|
      hx_property := te_property e; hx_fact_version_id := vs_id (te_version e);
      hx_version := vs_version (te_version e); hx_value := vs_value (te_version e);
      hx_valid_from := vs_valid_from (te_version e); hx_valid_until := vs_valid_until (te_version e);
      hx_recorded_at := vs_recorded_at (te_version e) |})
      (where_ (λ e, bool_decide (vs_privacy_scope (te_version e) ∈ _visible ctx)) timeline))).

(** ** Decisions *)

Definition captured_fact (r : RetrievedFact) : CapturedFact := {|
  cx_fact_version_id := vs_id (rt_version r); cx_entity_type := rt_entity_type r;
  cx_external_id := rt_external_id r; cx_property := rt_property r; cx_value := vs_value (rt_version r);
  cx_source := rt_source_name r |}.

Definition capture_decision_context (query : pystr) (limit : Z) (valid_at known_at : option datetime) :
    ST world CaptureReply :=
  tool_errors (
    ctx ← _tenant;
    captured ← in_db (capture_context clock others index ctx
                 (tool_query query limit valid_at known_at None [] []));
    _ ← if_session (λ o u a i ttl, remember_snapshot o u a i ttl clock (cc_snapshot_id captured)
                      (map (λ r, vs_id (rt_version r)) (rr_results (cc_retrieval captured))));
    mret {| cy_snapshot_id := cc_snapshot_id captured; cy_valid_at := cc_valid_at captured;
            cy_known_at := cc_known_at captured;
            cy_facts := map captured_fact (rr_results (cc_retrieval captured)) |}).

Definition NO_SNAPSHOT : string :=
  "no snapshot_id given and none captured in this session; call capture_decision_context first or pass snapshot_id".

Definition _last_snapshot : ST world UUID :=
  context ← match mr_session rt with
            | None => mret None
            | Some x => λ w, match current_session x w with
                             | (Ok c, w') => (Ok (Some c), w')
                             | (Err StoreUnavailableError, w') => (Ok None, w')
                             | (Err e, w') => (Err e, w')
                             end
            end;
  match context with
  | Some {| sc_last_snapshot_id := Some i |} => mret i
  | _ => refuse NO_SNAPSHOT
  end.

Definition record_decision (action : pystr) (outcome : json) (relied_on : list UUID)
    (rationale : option pystr) (snapshot_id : option UUID) : ST world DecisionReply :=
  tool_errors (
    i ← match snapshot_id with Some i => mret i | None => _last_snapshot end;
    ctx ← _tenant;
    r ← in_db (Decisions.record_decision ctx {|
          rd_snapshot_id := i; rd_action := action; rd_outcome := outcome; rd_relied_on := relied_on;
          rd_rationale := rationale; rd_agent := Some (mi_agent_name identity) |});
    mret {| dy_decision_id := d_id (dr_decision r); dy_receipt_sha256 := d_receipt_sha256 (dr_decision r);
            dy_decided_at := d_decided_at (dr_decision r); dy_integrity_verified := dr_integrity_verified r |}).

(** The receipt redacts by role; also apply this agent's own ceiling. *)
Definition narrowed (visible : list PrivacyScope) (f : ReceiptFact) : ReceiptFact :=
  if negb (rf_redacted f) && negb (bool_decide (rf_privacy_scope f ∈ visible))
  then {| rf_fact_version_id := rf_fact_version_id f; rf_position := rf_position f;
          rf_relied_on := rf_relied_on f; rf_redacted := true; rf_privacy_scope := rf_privacy_scope f;
          rf_receipt_entity_type := None; rf_receipt_external_id := None; rf_receipt_property := None;
          rf_source_name := None; rf_receipt_version := None; rf_ranking := JObj []; rf_evidence := [];
          rf_revoked_at := rf_revoked_at f |}
  else f.

Definition get_decision_receipt (decision_id : UUID) : ST world DecisionReceipt :=
  tool_errors (
    ctx ← _tenant;
    r ← in_db (receipt reloaded ctx decision_id);
    mret {| dr_decision := dr_decision r; dr_context := dr_context r;
            dr_facts := map (narrowed (_visible ctx)) (dr_facts r);
            dr_integrity_verified := dr_integrity_verified r |}).

Definition get_session_context : ST world SessionContext :=
  tool_errors (
    match mr_session rt with
    | None => refuse "session state is not configured for this server"
    | Some x => λ w, match current_session x w with
                     | (Err StoreUnavailableError, w') =>
                       (Err (ToolError (py "session state is temporarily unavailable")), w')
                     | r => r
                     end
    end).

(** ** Contradictions and revocations *)

Definition get_contradictions (status : option ContradictionStatus) (entity_type external_id : option pystr)
    (limit : Z) : ST world (list ContradictionView) :=
  tool_errors (
    ctx ← _agent_tenant;
    in_db (list_contradictions ctx status entity_type external_id limit)).

Definition get_revocation_impact (fact_version_id : UUID) : ST world RevocationReport :=
  tool_errors (
    ctx ← _agent_tenant;
    in_db (impact_of_version ctx fact_version_id)).

(** ** Answers and investigations *)

Definition answer_question (question : pystr) (valid_at known_at : option datetime) (limit : Z) :
    ST world GroundedAnswer :=
  tool_errors (
    generator ← _generator;
    ctx ← _agent_tenant;
    prompt ← lift (get_prompt (mr_answer_prompt_version rt));
    in_db_kv (answer (GP := generator) (search (mr_cache rt) clock others index) prompt
      (mr_max_output_tokens rt) (Some (Fin 0 0)) ctx {|
        aq_question := question; aq_valid_at := valid_at; aq_known_at := known_at; aq_limit := limit;
        aq_entity_type := None; aq_external_ids := []; aq_properties := []; aq_max_privacy_scope := None |})).

(** [between] is what happens between the calls of a run, [run_id] the UUID it draws. *)
Definition investigate_decision (between : Z → db * kv → db * kv) (run_id : UUID) (question : pystr) :
    ST world Investigation :=
  tool_errors (
    generator ← _generator;
    ctx ← _agent_tenant;
    in_db_kv (investigate (GP := generator) (BE := ServiceBackend (mr_cache rt) clock others index)
      INVESTIGATOR_V1 (mr_agent_max_steps rt) (mr_agent_max_tool_calls rt) (mr_max_output_tokens rt)
      between ctx question run_id)).

(** ** The provenance graph *)

Context (graph_others : db * graph → db * graph).

Definition analyze_impact (kind : impact_kind) (i : UUID) : ST world ImpactReport :=
  tool_errors (
    _ ← _graph;
    ctx ← _tenant;
    in_db_graph match kind with
                | ImpactFactVersion => impact_of_fact_version graph_others ctx i
                | ImpactSource => impact_of_source graph_others ctx i
                | ImpactEvidence => impact_of_evidence graph_others ctx i
                end).

Definition get_decision_lineage (decision_id : UUID) : ST world DecisionLineage :=
  tool_errors (
    _ ← _graph;
    ctx ← _tenant;
    in_db_graph (decision_lineage graph_others ctx decision_id)).

End handlers.

(** * What the reading tools show *)

Lemma tool_errors_ok `{ExceptionText} {A} (m : ST world A) w a w' :
  tool_errors m w = (Ok a, w') → m w = (Ok a, w').
Proof. unfold tool_errors. destruct (m w) as [[b|e] w1]; [|done]. by intros [= <- <-]. Qed.

(** ** The ceiling *)

(** A version of the server's organization, within the agent's ceiling, with its value. *)
Definition within (read : json → json) (i : McpIdentity) (d : db) (version_id : UUID) (value : json) : Prop :=
  ∃ v, v ∈ tab d FactVersions ∧ fv_id v = version_id ∧ read (fv_value v) = value ∧
    fv_organization_id v = mi_organization_id i ∧
    (privacy_index (fv_privacy_scope v) ≤ privacy_index (mi_max_privacy_scope i))%nat.

Lemma shows_within read i d s role c : shows read (mi_organization_id i) d s →
  vs_privacy_scope s ∈ visible_privacy_scopes role [Some (mi_max_privacy_scope i); c] →
  within read i d (vs_id s) (vs_value s).
Proof.
  intros (v & Hv & Ho & Ei & Ej & Es) Hs. rewrite Es in Hs. apply visible_spec in Hs as [_ Hs]. exists v.
  split_and!; try done. apply Hs. by left.
Qed.

Lemma fold_max_scope l a n : (privacy_index a ≤ n)%nat → (∀ s, s ∈ l → (privacy_index s ≤ n)%nat) →
  (privacy_index (fold_left max_scope l a) ≤ n)%nat.
Proof.
  revert a. induction l as [|s l IH]; intros a Ha Hl; cbn [fold_left]; [done|]. apply IH.
  - rewrite max_scope_spec. pose proof (Hl s ltac:(by left)). lia.
  - intros x Hx. apply Hl. by right.
Qed.

Section ceiling.
Context `{UD : !UnicodeData} `{FR : !FloatRepr} `{FD : !FloatRead} `{ET : !ExceptionText} `{SH : !Sha256} `{JB : !Jsonb}.
Context `{SO : !ScoreOps} `{SE : !SearchEngine} {SEL : SearchEngineLaws} `{RT : !RequestText}.
Context `{JL : !JsonLoads} `{PD : !Pydantic} `{KS : KeyValueStore}.
Context (rt : McpRuntime) (clock : Instant) (index : search_index).
Context (others : db → db) (elsewhere : world → world).

Lemma _tenant_ok w ctx w' : _tenant rt elsewhere w = (Ok ctx, w') →
  w' = elsewhere w ∧ ctx_organization_id ctx = mi_organization_id (mr_identity rt).
Proof.
  intros H. unfold _tenant in H. apply st_bind_ok in H as (c & w1 & Hr & H).
  assert (w1 = w) as ->.
  { unfold in_db in Hr. destruct (resolve_tenant _ _ _) as [r d] eqn:E. injection Hr as -> <-.
    apply resolve_tenant_ok in E as (-> & _). by destruct w. }
  apply in_db_ok, resolve_tenant_ok in Hr as (_ & _ & Ho & _). minv. done.
Qed.

Lemma _agent_tenant_ok w ctx w' : _agent_tenant rt elsewhere w = (Ok ctx, w') →
  w' = elsewhere w ∧ ctx_organization_id ctx = mi_organization_id (mr_identity rt) ∧
  ∃ s, ctx_max_privacy_scope ctx = Some s ∧
    (privacy_index s ≤ privacy_index (mi_max_privacy_scope (mr_identity rt)))%nat.
Proof.
  unfold _agent_tenant. intros H. apply st_bind_ok in H as (c & w1 & Ht & [-> ->]%st_ret_ok).
  apply _tenant_ok in Ht as [-> Ho]. split; [done|]. split; [done|]. eexists. split; [reflexivity|]. apply fold_max_scope; [apply Nat.le_0_l|].
  intros s [_ Hs]%visible_spec. apply Hs. by left.
Qed.

Lemma search_facts_within q t k n et ext ps w r w' : mr_cache rt = None →
  (∀ w, consistent (w_db w) → consistent (w_db (elsewhere w))) → (∀ d, consistent d → consistent (others d)) →
  consistent (w_db w) → search_facts rt clock index others elsewhere q t k n et ext ps w = (Ok r, w') →
  ∀ x, x ∈ sy_results r → within id (mr_identity rt) (w_db w') (sx_fact_version_id x) (sx_value x).
Proof.
  intros Hcache He Ho Hc H%tool_errors_ok x Hx. apply st_bind_ok in H as (ctx & w1 & Ht & H). apply _tenant_ok in Ht as [-> Horg].
  apply st_bind_ok in H as (res & w2 & Hs & H). rewrite Hcache in Hs. apply in_db_kv_ok in Hs as (s & Hs).
  apply st_bind_ok in H as ([] & w3 & Hk & [-> ->]%st_ret_ok).
  assert (w_db w3 = w_db w2) as ->.
  { unfold if_session, in_session in Hk. destruct (mr_session rt); [by apply in_kv_ok in Hk|by apply st_ret_ok in Hk as [_ ->]]. }
  apply list_elem_of_fmap in Hx as (t' & -> & Ht). cbn [searched_fact sx_fact_version_id sx_value].
  apply search_cases in Hs as (qu & filters & t0 & k0 & role & _ & _ & _ & Hlim & _ & _ & _ & Hs).
  destruct Hs as [(key & r0 & Hl & _)|(key & qv & r0 & s1 & Hl & Hs & -> & _)]; cbn [cache_lookup] in Hl;
    [by apply st_ret_ok in Hl as [? _]|]. apply st_ret_ok in Hl as [_ ->].
  apply search_store_ok in Hs as (Es & role' & _ & _ & _ & Hout); [|by apply Ho, He|lia]. cbn [fst] in Es.
  destruct (so_in_scope _ _ _ _ Hout t' Ht) as (v & Hv & Ev & _). rewrite Es, Ev.
  destruct Hv as (Hin & f & e & _ & _ & _ & _ & Hw). unfold scoped_where in Hw.
  rewrite !andb_true_iff, bool_decide_eq_true in Hw. destruct Hw as [[[[[[[[Hv _] Hsc] _] _] _] _] _] _].
  apply Z.eqb_eq in Hv. cbn [scope_for sc_org] in Hv. rewrite Horg in Hv.
  refine (shows_within id _ _ _ role' _ (known_shows _ _ _ _ Hin Hv) _).
  destruct (as_known_row v (sc_known_at (scope_for ctx (tool_query rt q n t k et ext ps) filters t0 k0 role')))
    as (_ & _ & E). cbv zeta in E. rewrite E. exact Hsc.
Qed.

Lemma get_entity_facts_within et ext t k w r w' :
  get_entity_facts rt clock elsewhere et ext t k w = (Ok r, w') →
  ∀ x, x ∈ ey_facts r → within id (mr_identity rt) (w_db w') (ex_fact_version_id x) (ex_value x).
Proof.
  intros H%tool_errors_ok x Hx. apply st_bind_ok in H as (ctx & w1 & Ht & H). apply _tenant_ok in Ht as [-> Horg].
  apply st_bind_ok in H as (fs & w2 & Hf%in_db_ok & [-> ->]%st_ret_ok). apply facts_at_rows in Hf as (E & Hf).
  rewrite E. apply list_elem_of_fmap in Hx as (f & -> & [Hv%bool_decide_eq_true Hin]%elem_of_where_).
  apply Hf in Hin. rewrite Horg in Hin. exact (shows_within _ _ _ _ _ _ Hin Hv).
Qed.

Lemma get_fact_history_within et ext k w r w' : get_fact_history rt elsewhere et ext k w = (Ok r, w') →
  ∀ x, x ∈ r → within id (mr_identity rt) (w_db w') (hx_fact_version_id x) (hx_value x).
Proof.
  intros H%tool_errors_ok x Hx. apply st_bind_ok in H as (ctx & w1 & Ht & H). apply _tenant_ok in Ht as [-> Horg].
  apply st_bind_ok in H as (fs & w2 & Hf%in_db_ok & [-> ->]%st_ret_ok). apply entity_timeline_rows in Hf as (E & Hf).
  rewrite E. apply list_elem_of_fmap in Hx as (f & -> & [Hv%bool_decide_eq_true Hin]%elem_of_where_).
  apply Hf in Hin. rewrite Horg in Hin. exact (shows_within _ _ _ _ _ _ Hin Hv).
Qed.

Lemma get_decision_receipt_within i w r w' : get_decision_receipt rt elsewhere i w = (Ok r, w') →
  ∀ f s, f ∈ dr_facts r → rf_receipt_version f = Some s → within jsonb_read (mr_identity rt) (w_db w') (vs_id s) (vs_value s).
Proof.
  intros H%tool_errors_ok f s Hf Hs. apply st_bind_ok in H as (ctx & w1 & Ht & H). apply _tenant_ok in Ht as [-> Horg].
  apply st_bind_ok in H as (rc & w2 & Hr%in_db_ok & [-> ->]%st_ret_ok).
  apply list_elem_of_fmap in Hf as (f0 & -> & Hin). unfold narrowed in Hs.
  apply receipt_version_rows in Hr as [E Hr]. rewrite E.
  destruct (rf_redacted f0) eqn:Er; cbn [negb andb] in Hs; [by destruct (Hr f0 s Hin Hs) as (_ & _ & ?); congruence|].
  destruct (bool_decide _) eqn:Ev; cbn [negb] in Hs; [|done]. apply bool_decide_eq_true in Ev.
  destruct (Hr f0 s Hin Hs) as (Hk & Ep & _). rewrite Ep in Ev. rewrite Horg in Hk. exact (shows_within _ _ _ _ _ _ Hk Ev).
Qed.

Lemma get_contradictions_within status et ext n w r w' :
  get_contradictions rt elsewhere status et ext n w = (Ok r, w') →
  ∀ c, c ∈ r → ∃ x, listed (mi_organization_id (mr_identity rt)) (w_db w') c x ∧
    (privacy_index (c_privacy_scope x) ≤ privacy_index (mi_max_privacy_scope (mr_identity rt)))%nat.
Proof.
  intros H%tool_errors_ok c Hc. apply st_bind_ok in H as (ctx & w1 & Ht & H%in_db_ok).
  apply _agent_tenant_ok in Ht as (_ & Horg & s & Es & Hs).
  apply list_contradictions_rows in H as (E & role & H). destruct (H c Hc) as (x & Hx & Hv).
  rewrite Horg in Hx. exists x. rewrite E. split; [exact Hx|].
  apply visible_spec in Hv as [_ Hv]. rewrite Es in Hv. pose proof (Hv s ltac:(by left)). lia.
Qed.

(** C28. What the agent reads is its organization's, within its ceiling.  Whatever else
    happens between the calls within the constraints of the database, every version that a search without a cache, the facts or
    the history of an entity, or a receipt shows is a version of the organization the
    server is configured for, with that version's value, at most as sensitive as the
    ceiling of the agent, whatever the role of its user; and every contradiction listed is
    one of that organization, of a scope at most as sensitive as that ceiling, between the
    two versions of the organization that it shows. *)
Theorem mcp_reads_within_the_ceiling w :
  mr_cache rt = None → consistent (w_db w) →
  (∀ w, consistent (w_db w) → consistent (w_db (elsewhere w))) → (∀ d, consistent d → consistent (others d)) →
  let i := mr_identity rt in
  (∀ q t k n et ext ps r w', search_facts rt clock index others elsewhere q t k n et ext ps w = (Ok r, w') →
    ∀ x, x ∈ sy_results r → within id i (w_db w') (sx_fact_version_id x) (sx_value x)) ∧
  (∀ et ext t k r w', get_entity_facts rt clock elsewhere et ext t k w = (Ok r, w') →
    ∀ x, x ∈ ey_facts r → within id i (w_db w') (ex_fact_version_id x) (ex_value x)) ∧
  (∀ et ext k r w', get_fact_history rt elsewhere et ext k w = (Ok r, w') →
    ∀ x, x ∈ r → within id i (w_db w') (hx_fact_version_id x) (hx_value x)) ∧
  (∀ j r w', get_decision_receipt rt elsewhere j w = (Ok r, w') →
    ∀ f s, f ∈ dr_facts r → rf_receipt_version f = Some s → within jsonb_read i (w_db w') (vs_id s) (vs_value s)) ∧
  (∀ status et ext n r w', get_contradictions rt elsewhere status et ext n w = (Ok r, w') →
    ∀ c, c ∈ r → ∃ x, listed (mi_organization_id i) (w_db w') c x ∧
      (privacy_index (c_privacy_scope x) ≤ privacy_index (mi_max_privacy_scope i))%nat).
Proof.
  intros Hcache Hc He Ho i. split; [intros; by eapply search_facts_within|].
  split; [intros; by eapply get_entity_facts_within|]. split; [intros; by eapply get_fact_history_within|].
  split; [intros; by eapply get_decision_receipt_within|]. intros. by eapply get_contradictions_within.
Qed.

End ceiling.

(** ** The default snapshot *)

Definition with_kv (w : world) (s : kv) : world := {| w_db := w_db w; w_kv := s; w_graph := w_graph w |}.

Section default_snapshot.
Context `{UD : !UnicodeData} `{FR : !FloatRepr} `{FD : !FloatRead} `{ET : !ExceptionText} `{SH : !Sha256} `{JB : !Jsonb}.
Context `{SO : !ScoreOps} `{KS : KeyValueStore} {KL : KeyValueStoreLaws}.
Context (rt : McpRuntime) (elsewhere : world → world) (session_id : pystr) (ttl_seconds : Z).
Context (Hrt : mr_session rt = Some (session_id, ttl_seconds)) (Httl : 1 ≤ ttl_seconds).
Context (Horg : is_uuid (mi_organization_id (mr_identity rt))) (Huser : is_uuid (mi_user_id (mr_identity rt))).

Abbreviation session' := (session (mi_organization_id (mr_identity rt)) (mi_user_id (mr_identity rt))
  (mi_agent_name (mr_identity rt)) session_id ttl_seconds) (only parsing).
Abbreviation elsewhere' := (McpState.elsewhere (mi_organization_id (mr_identity rt)) (mi_user_id (mr_identity rt))
  (mi_agent_name (mr_identity rt)) session_id) (only parsing).

Lemma last_snapshot_recalled ops s w : session' ops s → rtc elsewhere' s (w_kv w) →
  kv_clock (w_kv w) < kv_clock s + ttl_seconds * 1000 → kv_up (w_kv w) = true →
  ∃ s1, _last_snapshot rt w = match mm_snapshot (recalled ops) with
                              | Some (i, _) => mret i
                              | None => refuse NO_SNAPSHOT
                              end (with_kv w s1).
Proof.
  intros Hs He Hc Hu. apply session_holds in Hs as (b & kvs & Hl & Hb & Hr); [|done..].
  destruct (elsewhere_keeps _ _ _ _ Horg Huser _ _ He) as [_ Hk].
  destruct (current_holds (mi_organization_id (mr_identity rt)) (mi_user_id (mr_identity rt))
    (mi_agent_name (mr_identity rt)) session_id (recalled ops) (w_kv w)) as (s1 & E); [|exact Hu|].
  { right. eexists _, b, kvs. split; [by apply Hk|done]. }
  exists s1. unfold _last_snapshot. rewrite Hrt. unfold current_session, in_session, in_kv. cbn [fst snd].
  unfold mbind at 1, st_bind. cbv beta. rewrite E. unfold context_of.
  destruct (mm_snapshot (recalled ops)) as [[i vs]|]; reflexivity.
Qed.

(** A decision recorded without a snapshot rests on the session's last capture.
    However the session's calls were interleaved with time, outages and other agents,
    while its state lives, [record_decision] without [snapshot_id] does what it does with
    the id of the snapshot this session captured last, after a read of the store that
    changes neither the database nor the graph; when the session has captured none it
    answers with a tool error, and the database stays as it was. *)
Theorem decisions_default_to_the_last_capture ops s w action outcome relied_on rationale :
  session' ops s → rtc elsewhere' s (w_kv w) →
  kv_clock (w_kv w) < kv_clock s + ttl_seconds * 1000 → kv_up (w_kv w) = true →
  ∃ s1, record_decision rt elsewhere action outcome relied_on rationale None w =
    match mm_snapshot (recalled ops) with
    | Some (i, _) => record_decision rt elsewhere action outcome relied_on rationale (Some i) (with_kv w s1)
    | None => (Err (ToolError (py NO_SNAPSHOT)), with_kv w s1)
    end.
Proof.
  intros Hs He Hc Hu. destruct (last_snapshot_recalled ops s w Hs He Hc Hu) as (s1 & E). exists s1.
  unfold record_decision. destruct (mm_snapshot (recalled ops)) as [[i vs]|].
  - unfold tool_errors. erewrite st_bind_eq by exact E. by erewrite (st_bind_eq (mret i)) by done.
  - unfold tool_errors. unfold mbind at 1, st_bind at 1. by rewrite E.
Qed.

End default_snapshot.
