(* ===== verification/Providers.v ===== *)
(** The OpenAI providers, app/ai/providers.py and app/providers/embeddings.py: what is
    sent, the bounded retries with [Retry-After] and the deadline of a call, and how a
    response is read.  The HTTP client, the clock and the drawn numbers are parameters. *)

From S2P Require Import Grounding.
From S2P Require Import Prelude PyStr Json Canonical Regex Validation Access Temporal Calendar Parsing.
From S2P Require Import EvidenceService JsonParse Ranking Generation Retrieval Investigator EmbeddingQueue Retries.

(** * Numbers *)

(** [a < b] on floats. *)
Definition float_ltb (a b : pyfloat) : bool :=
  match a, b with
  | NaN, _ | _, NaN => false
  | NInf, NInf => false
  | NInf, _ => true
  | _, NInf => false
  | PInf, _ => false
  | _, PInf => true
  | NegZero, NegZero => false
  | NegZero, Fin m _ => 0 <? m
  | Fin m _, NegZero => m <? 0
  | Fin m e, Fin m' e' => m * 2 ^ (e - Z.min e e') <? m' * 2 ^ (e' - Z.min e e')
  end.

(** [min(a, b)] and [max(a, b)] *)
Definition py_min (a b : pyfloat) : pyfloat := if float_ltb b a then b else a.
Definition py_max (a b : pyfloat) : pyfloat := if float_ltb a b then b else a.

(** The floats that decimal texts and integers denote: [float(text)], None when it
    raises [ValueError], and [float(n)], None when it overflows. *)
Class FloatValue := { float_of_str : pystr → option pyfloat; float_of_int : Z → option pyfloat }.

(** * Reading JSON as Python values *)

(** [j[k]], [j[0]] and [j.get(k, default)] *)
Definition item_at (k : string) (j : json) : result json :=
  match j with
  | JObj kvs => match assoc (py k) kvs with Some v => Ok v | None => Err KeyError end
  | _ => Err TypeError
  end.
Definition first_item (j : json) : result json :=
  match j with
  | JList (x :: _) => Ok x
  | JStr (c :: _) => Ok (JStr [c])
  | JList [] | JStr [] => Err IndexError
  | JObj _ => Err KeyError
  | _ => Err TypeError
  end.
Definition get_or (default : json) (k : string) (j : json) : result json :=
  match j with
  | JObj kvs => Ok match assoc (py k) kvs with Some v => v | None => default end
  | _ => Err (LibraryError "AttributeError")
  end.

(** [a or b] *)
Definition py_or (a b : json) : json := if truthy a then a else b.

(** [int(j)] *)
Definition py_int (j : json) : result Z :=
  match j with
  | JInt n => Ok n
  | JBool b => Ok (if b then 1 else 0)
  | JStr s => int_of_text 10 s
  | JFloat (Fin m e) => Ok (if 0 <=? e then m * 2 ^ e else Z.quot m (2 ^ (- e)))
  | JFloat NegZero => Ok 0
  | JFloat NaN => Err ValueError
  | JFloat _ => Err (LibraryError "OverflowError")
  | _ => Err TypeError
  end.

(** [float(j)] *)
Definition py_float `{FloatValue} (j : json) : result pyfloat :=
  let of_int n := match float_of_int n with Some f => Ok f | None => Err (LibraryError "OverflowError") end in
  match j with
  | JFloat f => Ok f
  | JInt n => of_int n
  | JBool b => of_int (if b then 1 else 0)
  | JStr s => match float_of_str s with Some f => Ok f | None => Err ValueError end
  | _ => Err TypeError
  end.

(** [for x in j] *)
Definition py_iter (j : json) : result (list json) :=
  match items_of j with Some l => Ok l | None => Err TypeError end.

(** * HTTP *)

Record HttpResponse := {
  hr_status : Z; hr_body : list Z; hr_retry_after : option pystr }.

(** A response, [httpx.TimeoutException] or another [httpx.TransportError]. *)
Inductive http_outcome := Responded (r : HttpResponse) | TimedOut | Disconnected.

(** The client and the world around it; [late] tells whether the deadline of the call
    has passed, which ends the call at the [await] that is then running. *)
Class HttpClient (X : Type) := {
  http_post : string → json → ST X http_outcome;
  http_sleep : pyfloat → ST X unit;
  late : X → bool;
}.

(** An [await] under [asyncio.timeout]. *)
Definition awaiting `{HttpClient X} {A} (m : ST X A) : ST X A :=
  a ← m;
  expired ← gets late;
  if (expired : bool) then raise (LibraryError "TimeoutError") else mret a.

Definition RETRYABLE_STATUS : list Z := [408; 409; 429; 500; 502; 503; 504].

Section delays.
Context `{FV : !FloatValue}.

(** [_retry_after_seconds] *)
Definition retry_after_seconds (r : HttpResponse) : option pyfloat :=
  match hr_retry_after r with
  | None => None
  | Some value => match float_of_str value with Some f => Some (py_max (Fin 0 0) f) | None => None end
  end.

(** [_delay]; [backoff n] is [base_delay * 2**n] times the number drawn. *)
Definition delay (max_delay : pyfloat) (backoff : Z → pyfloat) (attempt : Z) (retry_after : option pyfloat) : pyfloat :=
  match retry_after with
  | Some s => py_min s max_delay
  | None => py_min max_delay (backoff attempt)
  end.

End delays.

(** * The attempts of a call *)

(** What one outcome means: the call is over, or it failed this way and may be tried again. *)
Inductive attempt_verdict (A : Type) :=
  | Over (r : result A)
  | Failing (e : exn) (retry_after : option pyfloat).
Arguments Over {A} r.
Arguments Failing {A} e retry_after.

Section attempts.
Context `{HC : !HttpClient X} {A : Type}.
Context (path : string) (payload : json) (max_retries : Z) (max_delay : pyfloat) (backoff : Z → pyfloat).
Context (wait : ∀ B, ST X B → ST X B) (verdict : Z → http_outcome → attempt_verdict A).

(** [for attempt in range(max_retries + 1)], with [n] attempts left. *)
Fixpoint attempts (n : nat) (attempt : Z) (last : exn) : ST X A :=
  match n with
  | O => raise last
  | S n =>
    out ← wait _ (http_post path payload);
    match verdict attempt out with
    | Over r => lift r
    | Failing e retry_after =>
      _ ← (if attempt <? max_retries
           then wait _ (http_sleep (delay max_delay backoff attempt retry_after)) else mret ());
      attempts n (attempt + 1) e
    end
  end.

End attempts.

(** * Chat completions *)

Section chat.
Context `{FP : !FloatRepr} `{UD : !UnicodeData} `{FR : !FloatRead} `{FV : !FloatValue}.

Definition role_text (r : Role) : pystr :=
  match r with
  | Role_system => py "system" | Role_user => py "user"
  | Role_assistant => py "assistant" | Role_tool => py "tool"
  end.

(** [_message_payload] *)
Definition tool_call_payload (call : ToolCall) : result json :=
  arguments ← dumps default_options (JObj (tc_call_arguments call));
  Ok (JObj [(py "id", JStr (tc_call_id call)); (py "type", JStr (py "function"));
            (py "function", JObj [(py "name", JStr (tc_call_name call)); (py "arguments", JStr arguments)])]).

Definition message_payload (m : ChatMessage) : result json :=
  calls ← mapR tool_call_payload (cm_tool_calls m);
  let content := JStr (cm_content m) in
  Ok (JObj ([(py "role", JStr (role_text (cm_role m)))]
    ++ (if is_empty calls then [(py "content", content)]
        else [(py "content", py_or content JNull); (py "tool_calls", JList calls)])
    ++ match cm_tool_call_id m with None => [] | Some i => [(py "tool_call_id", JStr i)] end)).

(** [_payload] *)
Definition request_payload (model : pystr) (request : GenerationRequest) : result json :=
  messages ← mapR message_payload (gr_messages request);
  Ok (JObj ([(py "model", JStr model); (py "messages", JList messages);
             (py "max_completion_tokens", JInt (gr_max_output_tokens request))]
    ++ (if is_empty (gr_tools request) then []
        else [(py "tools", JList (map (λ t, JObj [(py "type", JStr (py "function"));
               (py "function", JObj [(py "name", JStr (ts_name t)); (py "description", JStr (ts_description t));
                                     (py "parameters", ts_parameters t)])]) (gr_tools request)))])
    ++ match gr_temperature request with None => [] | Some f => [(py "temperature", JFloat f)] end
    ++ match gr_output_schema request with
       | None => []
       | Some o => [(py "response_format", JObj [(py "type", JStr (py "json_schema"));
                      (py "json_schema", JObj [(py "name", JStr (os_name o)); (py "schema", os_schema o);
                                               (py "strict", JBool true)])])]
       end)).

(** [_arguments] *)
Definition arguments_of (raw : json) : result (list (pystr * json)) :=
  parsed ← match raw with JStr s => loads_text s | _ => Ok raw end;
  match parsed with JObj kvs => Ok kvs | _ => Err ValueError end.

Definition read_tool_call (call : json) : result ToolCall :=
  i ← item_at "id" call;
  function ← item_at "function" call;
  name ← item_at "name" function;
  raw ← get_or JNull "arguments" function;
  arguments ← arguments_of raw;
  Ok {| tc_call_id := py_str i; tc_call_name := py_str name; tc_call_arguments := arguments |}.

(** The exceptions that [_parse] turns into [MalformedGenerationError]. *)
Definition is_malformed (e : exn) : bool :=
  match e with
  | ValueError | JSONDecodeError | KeyError | IndexError | TypeError => true
  | LibraryError name => String.eqb name "UnicodeDecodeError"
  | _ => false
  end.
Definition malformed_unless {A} (error : exn) (m : result A) : result A :=
  match m with Err e => Err (if is_malformed e then error else e) | r => r end.

Record chat_parts := {
  cp_refusal : json; cp_content : json; cp_finish_reason : pystr; cp_usage : GenerationUsage;
  cp_model : pystr; cp_tool_calls : list ToolCall }.

Definition read_parts (model : pystr) (r : HttpResponse) : result chat_parts :=
  body ← loads_bytes (hr_body r);
  choices ← item_at "choices" body;
  choice ← first_item choices;
  message ← item_at "message" choice;
  refusal ← get_or JNull "refusal" message;
  content ← get_or JNull "content" message;
  finish ← get_or JNull "finish_reason" choice;
  used ← get_or JNull "usage" body;
  let usage := py_or used (JObj []) in
  prompt_tokens ← get_or (JInt 0) "prompt_tokens" usage;
  input_tokens ← py_int prompt_tokens;
  completion_tokens ← get_or (JInt 0) "completion_tokens" usage;
  output_tokens ← py_int completion_tokens;
  named ← get_or JNull "model" body;
  calls ← get_or JNull "tool_calls" message;
  called ← py_iter (py_or calls (JList []));
  tool_calls ← mapR read_tool_call called;
  Ok {| cp_refusal := refusal; cp_content := content;
        cp_finish_reason := py_str (py_or finish (JStr (py "unknown")));
        cp_usage := {| gu_input_tokens := input_tokens; gu_output_tokens := output_tokens |};
        cp_model := py_str (py_or named (JStr model)); cp_tool_calls := tool_calls |}.

Definition malformed_generation : exn := GenerationError "MalformedGenerationError".

(** [_parse] *)
Definition parse_response (model : pystr) (request : GenerationRequest) (attempts : Z) (r : HttpResponse) :
    result GenerationResult :=
  p ← malformed_unless malformed_generation (read_parts model r);
  _ ← ensure (negb (truthy (cp_refusal p))) (GenerationError "GenerationRefusedError");
  text ← (if is_empty (cp_tool_calls p)
          then match cp_content p with
               | JStr s => if is_empty (strip s) then Err malformed_generation else Ok s
               | _ => Err malformed_generation
               end
          else Ok match cp_content p with JStr s => s | _ => [] end);
  _ ← ensure (negb (py_eqb (JStr (cp_finish_reason p)) (JStr (py "length"))
                    && match gr_output_schema request with Some _ => true | None => false end)) malformed_generation;
  Ok {| gn_text := text; gn_provider := py "openai"; gn_model := cp_model p;
        gn_finish_reason := cp_finish_reason p; gn_usage := cp_usage p; gn_attempts := attempts;
        gn_tool_calls := cp_tool_calls p |}.

(** [_error_for] *)
Definition error_for (status : Z) : string :=
  if bool_decide (status ∈ [401; 403]) then "GenerationAuthenticationError"
  else if status =? 429 then "GenerationRateLimitedError"
  else if bool_decide (status ∈ RETRYABLE_STATUS) then "GenerationUnavailableError"
  else "GenerationRequestError".

(** [GenerationError.retryable] *)
Definition retryable (name : string) : bool :=
  bool_decide (name ∈ ["GenerationTimeoutError"; "GenerationRateLimitedError"; "GenerationUnavailableError"]%string).

Definition chat_verdict (model : pystr) (request : GenerationRequest) (attempt : Z) (out : http_outcome) :
    attempt_verdict GenerationResult :=
  match out with
  | TimedOut => Failing (GenerationError "GenerationTimeoutError") None
  | Disconnected => Failing (GenerationError "GenerationUnavailableError") None
  | Responded r =>
    if hr_status r =? 200 then Over (parse_response model request (attempt + 1) r)
    else if negb (retryable (error_for (hr_status r))) then Over (Err (GenerationError (error_for (hr_status r))))
    else Failing (GenerationError (error_for (hr_status r))) (retry_after_seconds r)
  end.

Section calls.
Context `{HC : !HttpClient X} (max_retries : Z) (max_delay : pyfloat) (backoff : Z → pyfloat).

Definition generate_attempts (model : pystr) (request : GenerationRequest) : ST X GenerationResult :=
  payload ← lift (request_payload model request);
  attempts "chat/completions" payload max_retries max_delay backoff (λ _, awaiting)
    (chat_verdict model request) (Z.to_nat (max_retries + 1)) 0 (GenerationError "GenerationUnavailableError").

(** [OpenAIChatProvider.generate] *)
Definition openai_generate (model : pystr) (request : GenerationRequest) : ST X GenerationResult :=
  if is_empty (gr_messages request) then raise (GenerationError "GenerationRequestError")
  else λ x, match generate_attempts model request x with
            | (Err (LibraryError "TimeoutError"), x') => (Err (GenerationError "GenerationTimeoutError"), x')
            | r => r
            end.

End calls.

(** The provider as the services see it, from a state of the world. *)
Definition OpenAIChatProvider `{HC : !HttpClient X} (max_retries : Z) (max_delay : pyfloat) (backoff : Z → pyfloat)
    (model : pystr) (x : X) : GenerationProvider := {|
  model_id := py "openai:" ++ model;
  Generation.generate := λ request, (openai_generate max_retries max_delay backoff model request x).1 |}.

(** * Embeddings *)

Definition embedding_error : exn := EmbeddingProviderError "OpenAI embeddings request failed".

Definition EMBED_MAX_BATCH : Z := 256.

(** [OpenAIEmbeddingProvider._parse] *)
Definition read_vector (item : json) : result (list pyfloat) :=
  embedding ← item_at "embedding" item;
  numbers ← py_iter embedding;
  mapR py_float numbers.

(** [sorted(items, key=lambda item: int(item["index"]))] *)
Definition by_index (items : list json) : result (list json) :=
  keyed ← mapR (λ item, index ← item_at "index" item; i ← py_int index; Ok (i, item)) items;
  Ok (map snd (sort_by (λ a b : Z * json, a.1 <=? b.1) keyed)).

Definition read_embeddings (r : HttpResponse) : result EmbeddingBatch :=
  body ← loads_bytes (hr_body r);
  data ← item_at "data" body;
  listed ← py_iter data;
  items ← by_index listed;
  vectors ← mapR read_vector items;
  usage ← get_or (JObj []) "usage" body;
  total ← get_or (JInt 0) "total_tokens" usage;
  tokens ← py_int total;
  Ok {| eb_vectors := vectors; eb_total_tokens := tokens |}.

(** [IndexError] is not among the exceptions caught here, and cannot occur. *)
Definition parse_embeddings (dimensions expected : Z) (r : HttpResponse) : result EmbeddingBatch :=
  b ← malformed_unless (EmbeddingProviderError "OpenAI returned a malformed embeddings response") (read_embeddings r);
  _ ← ensure (zlen (eb_vectors b) =? expected) (EmbeddingProviderError "expected {expected} embeddings, got {n}");
  _ ← ensure (forallb (λ v, zlen v =? dimensions) (eb_vectors b))
        (EmbeddingProviderError "expected {dimensions}-dimensional embeddings");
  Ok b.

Definition embed_verdict (dimensions expected : Z) (attempt : Z) (out : http_outcome) :
    attempt_verdict EmbeddingBatch :=
  match out with
  | TimedOut | Disconnected => Failing embedding_error None
  | Responded r =>
    if hr_status r =? 200 then Over (parse_embeddings dimensions expected r)
    else if negb (bool_decide (hr_status r ∈ RETRYABLE_STATUS)) then Over (Err embedding_error)
    else Failing embedding_error (retry_after_seconds r)
  end.

(** [OpenAIEmbeddingProvider.embed]; there is no deadline over the call. *)
Definition openai_embed `{HC : !HttpClient X} (max_retries : Z) (max_delay : pyfloat) (backoff : Z → pyfloat)
    (model : pystr) (dimensions : Z) (texts : list pystr) : ST X EmbeddingBatch :=
  if is_empty texts then mret {| eb_vectors := []; eb_total_tokens := 0 |}
  else if EMBED_MAX_BATCH <? zlen texts then raise (EmbeddingProviderError "batch of {n} exceeds {max}")
  else attempts "embeddings"
    (JObj [(py "model", JStr model); (py "input", JList (map JStr texts)); (py "dimensions", JInt dimensions);
           (py "encoding_format", JStr (py "float"))])
    max_retries max_delay backoff (λ _ m, m) (embed_verdict dimensions (zlen texts))
    (Z.to_nat (max_retries + 1)) 0 embedding_error.

End chat.

(** * The offline embedder *)

(** [[v / norm for v in vector]] with [norm] the square root of the sum of squares, on a
    vector of small integers that is not zero. *)
Class Normalise := {
  over_norm : list Z → list pyfloat;
  length_over_norm : ∀ v, length (over_norm v) = length v;
}.

Section offline.
Context `{UD : !UnicodeData} `{SH : !Sha256} `{NM : !Normalise}.

Definition token_char (c : Z) : bool := in_range 97 122 c || is_digit c.

(** [re.findall("[a-z0-9]+", s)], with the token read so far. *)
Fixpoint find_tokens (cur : pystr) (s : pystr) : list pystr :=
  match s with
  | [] => if is_empty cur then [] else [cur]
  | c :: s' => if token_char c then find_tokens (cur ++ [c]) s'
               else (if is_empty cur then [] else [cur]) ++ find_tokens [] s'
  end.

Definition features (text : pystr) : list pystr :=
  let tokens := find_tokens [] (lower text) in
  tokens ++ map (λ p : pystr * pystr, p.1 ++ [32] ++ p.2) (zip tokens (tail tokens)).

(** The bytes [i], ..., [i + n - 1] of a digest, as one number. *)
Definition digest_number (digest : pystr) (i n : nat) : Z :=
  default 0 (read_digits 16 0 true (take (2 * n) (drop (2 * i) digest))).

Definition add_feature (dimensions : Z) (vector : list Z) (feature : pystr) : result (list Z) :=
  b ← encode_utf8 feature;
  let digest := sha256_hex b in
  let index := Z.to_nat (digest_number digest 0 4 mod dimensions) in
  Ok (alter (λ v, if Z.odd (digest_number digest 4 1) then v + 1 else v - 1) index vector).

Fixpoint add_features (dimensions : Z) (vector : list Z) (fs : list pystr) : result (list Z) :=
  match fs with
  | [] => Ok vector
  | f :: fs => vector ← add_feature dimensions vector f; add_features dimensions vector fs
  end.

(** [DeterministicHashEmbeddingProvider._embed_one]; the sums of ones are exact. *)
Definition embed_one (dimensions : Z) (text : pystr) : result (list pyfloat) :=
  vector ← add_features dimensions (repeat 0 (Z.to_nat dimensions)) (features text);
  Ok (if forallb (λ v, v =? 0) vector
      then Fin 1 0 :: repeat (Fin 0 0) (Z.to_nat dimensions - 1)
      else over_norm vector).

Definition offline_embed (dimensions : Z) (texts : list pystr) : result EmbeddingBatch :=
  vectors ← mapR (embed_one dimensions) texts;
  Ok {| eb_vectors := vectors; eb_total_tokens := 0 |}.

Lemma find_tokens_ascii s : ∀ cur, forallb token_char cur = true →
  Forall (λ t, forallb token_char t = true) (find_tokens cur s).
Proof.
  induction s as [|c s IH]; intros cur Hc; cbn [find_tokens].
  - destruct (is_empty cur); by repeat constructor.
  - destruct (token_char c) eqn:E; [apply IH; rewrite forallb_app, Hc; cbn; by rewrite E|].
    apply Forall_app. split; [destruct (is_empty cur); by repeat constructor|by apply IH].
Qed.

Lemma token_char_ascii c : token_char c = true → is_ascii c = true.
Proof.
  unfold token_char, is_digit, in_range, is_ascii. rewrite orb_true_iff, !andb_true_iff, !Z.leb_le. lia.
Qed.

Lemma token_ascii t : forallb token_char t = true → forallb is_ascii t = true.
Proof. rewrite !forallb_forall. intros H c Hc. by apply token_char_ascii, H. Qed.

Lemma features_ascii text : Forall (λ f, forallb is_ascii f = true) (features text).
Proof.
  unfold features. pose proof (find_tokens_ascii (lower text) [] eq_refl) as H. set (ts := find_tokens _ _) in *.
  clearbody ts. apply Forall_app. split; [eapply Forall_impl; [exact H|apply token_ascii]|].
  apply Forall_forall. intros f (p & -> & Hp)%list_elem_of_fmap. destruct p as [a b].
  rewrite Forall_forall in H. cbn [fst snd].
  pose proof (elem_of_zip_l _ _ _ _ Hp) as Ha. pose proof (elem_of_zip_r _ _ _ _ Hp) as Hb.
  assert (Hb' : b ∈ ts) by (destruct ts; [done|by right]).
  rewrite forallb_app, token_ascii by by apply H. cbn [forallb app]. by rewrite token_ascii by by apply H.
Qed.

Lemma add_features_ok dimensions fs : ∀ v, Forall (λ f, forallb is_ascii f = true) fs →
  ∃ v', add_features dimensions v fs = Ok v' ∧ length v' = length v.
Proof.
  induction fs as [|f fs IH]; intros v H; [by exists v|]. apply Forall_cons in H as [Hf H].
  cbn [add_features]. unfold add_feature. rewrite ascii_encode by done. cbn [mbind result_bind].
  destruct (IH (alter (λ v, if Z.odd (digest_number (sha256_hex f) 4 1) then v + 1 else v - 1)
    (Z.to_nat (digest_number (sha256_hex f) 0 4 mod dimensions)) v) H) as (v' & -> & Hl).
  exists v'. split; [done|]. by rewrite Hl, length_alter.
Qed.

(** The offline embedder embeds every batch: one vector per text, all of one length. *)
Theorem offline_embedding_is_total dimensions texts : 1 ≤ dimensions →
  ∃ b, offline_embed dimensions texts = Ok b ∧ length (eb_vectors b) = length texts ∧
    ∀ v, v ∈ eb_vectors b → zlen v = dimensions.
Proof.
  intros Hd.
  assert (Hone : ∀ t, ∃ v, embed_one dimensions t = Ok v ∧ zlen v = dimensions).
  { intros t. unfold embed_one.
    destruct (add_features_ok dimensions (features t) (repeat 0 (Z.to_nat dimensions)) (features_ascii t)) as (v & -> & Hl).
    rewrite repeat_length in Hl. eexists. split; [reflexivity|]. unfold zlen. destruct (forallb _ v).
    - cbn [length]. rewrite repeat_length. lia.
    - rewrite length_over_norm. lia. }
  assert (Hall : ∃ vs, mapR (embed_one dimensions) texts = Ok vs ∧ length vs = length texts ∧
    ∀ v, v ∈ vs → zlen v = dimensions).
  { induction texts as [|t texts (vs & E & Hl & Hvs)].
    { exists []. split; [done|]. split; [done|]. by intros v ?%not_elem_of_nil. }
    destruct (Hone t) as (v & Ev & Hv).
    exists (v :: vs). cbn [mapR]. rewrite Ev, E.
    split; [done|]. split; [cbn [length]; lia|].
    intros w [->|Hw]%elem_of_cons; [done|by apply Hvs]. }
  destruct Hall as (vs & E & Hl & Hvs). unfold offline_embed. rewrite E. by eexists.
Qed.

End offline.

(** * What a call does *)

Inductive http_event :=
  | Posted (path : string) (payload : json) (out : result http_outcome)
  | Slept (d : pyfloat) (out : result unit).

(** The client with a log of what it did. *)
Definition recording `{HC : !HttpClient X} : HttpClient (X * list http_event) := {|
  http_post := λ path payload s, let '(r, x) := http_post path payload s.1 in (r, (x, s.2 ++ [Posted path payload r]));
  http_sleep := λ d s, let '(r, x) := http_sleep d s.1 in (r, (x, s.2 ++ [Slept d r]));
  late := λ s, late s.1 |}.

Definition answered (ev : http_event) : option http_outcome :=
  match ev with Posted _ _ (Ok out) => Some out | _ => None end.
Definition answers (l : list http_event) : list http_outcome := omap answered l.
Definition is_post (ev : http_event) : bool := match ev with Posted _ _ _ => true | Slept _ _ => false end.

Lemma float_ltb_asym a b : float_ltb a b = true → float_ltb b a = false.
Proof.
  destruct a as [m e| | | |], b as [m' e'| | | |]; cbn [float_ltb]; try done; rewrite ?Z.ltb_lt, ?Z.ltb_ge; try lia.
  rewrite (Z.min_comm e' e). lia.
Qed.

Lemma float_ltb_irrefl a : float_ltb a a = false.
Proof. destruct (float_ltb a a) eqn:E; [|done]. by rewrite (float_ltb_asym _ _ E) in E. Qed.

(** No delay is above the maximum. *)
Lemma delay_capped m b n ra : float_ltb m (delay m b n ra) = false.
Proof.
  unfold delay, py_min. destruct ra as [s|].
  - destruct (float_ltb m s) eqn:E; [apply float_ltb_irrefl|done].
  - destruct (float_ltb (b n) m) eqn:E; [by apply float_ltb_asym|apply float_ltb_irrefl].
Qed.

Section attempts_log.
Context `{HC : !HttpClient X} {A : Type}.
Context (path : string) (payload : json) (max_retries : Z) (max_delay : pyfloat) (backoff : Z → pyfloat).
Context (wait : ∀ B, ST (X * list http_event) B → ST (X * list http_event) B).
Context (verdict : Z → http_outcome → attempt_verdict A).
Context (ends : X → exn → Prop).

(** Waiting for a call does what the call does; its deadline may end it. *)
Context (Hwait : ∀ B (m : ST (X * list http_event) B) s r s', wait B m s = (r, s') →
  ∃ r0, m s = (r0, s') ∧ (r = r0 ∨ ∃ e, r = Err e ∧ ends s'.1 e)).

(** The last thing done raised an exception of the client itself. *)
Definition event_error (ev : http_event) : option exn :=
  match ev with Posted _ _ (Err e) => Some e | Slept _ (Err e) => Some e | _ => None end.
Definition raised (log : list http_event) (e : exn) : Prop :=
  ∃ pre ev, log = pre ++ [ev] ∧ event_error ev = Some e.

Definition event_ok (ev : http_event) : Prop :=
  match ev with Posted p j _ => p = path ∧ j = payload | Slept d _ => float_ltb max_delay d = false end.

(** How the attempts from [a] on end, given what they did and the world they leave. *)
Inductive ended (n : nat) (a : Z) (last : exn) (fin : X) (log : list http_event) : result A → Prop :=
  | ended_none : n = O → answers log = [] → ended n a last fin log (Err last)
  | ended_over pre out r : answers log = pre ++ [out] → verdict (a + zlen pre) out = Over r → ended n a last fin log r
  | ended_failing pre out e ra : answers log = pre ++ [out] → length (answers log) = n →
      verdict (a + zlen pre) out = Failing e ra → ended n a last fin log (Err e)
  | ended_early e : ends fin e ∨ raised log e → ended n a last fin log (Err e).

Definition earlier_failed (a : Z) (outs : list http_outcome) : Prop :=
  ∀ pre out post, outs = pre ++ out :: post → post ≠ [] → ∃ e ra, verdict (a + zlen pre) out = Failing e ra.

Lemma shift_attempt a (pre : list http_outcome) out : a + 1 + zlen pre = a + zlen (out :: pre).
Proof. unfold zlen. cbn [length]. lia. Qed.

Lemma ended_later n a last fin out pre log e0 ra r : verdict a out = Failing e0 ra → answers pre = [out] →
  ended n (a + 1) e0 fin log r → ended (S n) a last fin (pre ++ log) r.
Proof.
  intros Hout Hpre H. assert (Ea : answers (pre ++ log) = out :: answers log).
  { unfold answers in *. by rewrite omap_app, Hpre. }
  destruct H as [Hn Ho|pre' o r' Ho Hv|pre' o e ra' Ho Hn Hv|e He]; subst.
  - apply (ended_failing _ _ _ _ _ [] out e0 ra); [by rewrite Ea, Ho|by rewrite Ea, Ho|]. by rewrite Z.add_0_r.
  - rewrite (shift_attempt a pre' out) in Hv. apply (ended_over _ _ _ _ _ (out :: pre') o); [by rewrite Ea, Ho|done].
  - rewrite (shift_attempt a pre' out) in Hv.
    apply (ended_failing _ _ _ _ _ (out :: pre') o e ra'); [by rewrite Ea, Ho|by rewrite Ea|done].
  - apply ended_early. destruct He as [He|(l & ev & -> & He)]; [by left|]. right. exists (pre ++ l), ev. by rewrite app_assoc.
Qed.

Lemma earlier_later a out outs e ra : verdict a out = Failing e ra →
  earlier_failed (a + 1) outs → earlier_failed a (out :: outs).
Proof.
  intros Hout H [|o pre] x post E Hpost; injection E as <- E.
  - rewrite Z.add_0_r. by exists e, ra.
  - rewrite <-(shift_attempt a pre out). by apply (H pre x post).
Qed.

Lemma earlier_one a out : earlier_failed a [out].
Proof. intros [|? [|]] x [|] [= ]; done. Qed.

Lemma where_app_posts l k : length (where_ is_post (l ++ k)) = (length (where_ is_post l) + length (where_ is_post k))%nat.
Proof. unfold where_. by rewrite List.filter_app, length_app. Qed.

(** A call from the log [l] to the log [l'] that ends with [r] in the world [fin]. *)
Definition logged (n : nat) (a : Z) (last : exn) (l : list http_event) (fin : X) (l' : list http_event)
    (r : result A) : Prop :=
  ∃ log, l' = l ++ log ∧ (length (where_ is_post log) ≤ n)%nat ∧ Forall event_ok log ∧
    earlier_failed a (answers log) ∧ ended n a last fin log r.

Lemma logged_stop n a last l fin out log e :
  ends fin e ∨ raised (Posted path payload out :: log) e → where_ is_post log = [] → answers log = [] →
  Forall event_ok log → logged (S n) a last l fin (l ++ Posted path payload out :: log) (Err e).
Proof.
  intros He Hp Ha Hok. exists (Posted path payload out :: log). split; [done|].
  split; [change (Posted path payload out :: log) with ([Posted path payload out] ++ log);
    rewrite where_app_posts, Hp; cbn; lia|].
  split; [by repeat constructor|]. split; [|by apply ended_early].
  change (Posted path payload out :: log) with ([Posted path payload out] ++ log).
  unfold answers in *. rewrite omap_app, Ha, app_nil_r. destruct out; [apply earlier_one|by intros [|]].
Qed.

Lemma logged_over n a last l fin out r : verdict a out = Over r →
  logged (S n) a last l fin (l ++ [Posted path payload (Ok out)]) r.
Proof.
  intros Hv. eexists. split; [reflexivity|]. split; [cbn; lia|]. split; [by repeat constructor|].
  split; [apply earlier_one|]. apply (ended_over _ _ _ _ _ [] out); [done|]. by rewrite Z.add_0_r.
Qed.

Lemma logged_later n a last l fin out log e ra l' r : verdict a out = Failing e ra → where_ is_post log = [] →
  answers log = [] → Forall event_ok log →
  logged n (a + 1) e (l ++ Posted path payload (Ok out) :: log) fin l' r → logged (S n) a last l fin l' r.
Proof.
  intros Hv Hp Ha Hok (log' & -> & Hn & Hok' & Hef & Hend).
  set (ev := Posted path payload (Ok out)). exists ((ev :: log) ++ log').
  assert (E1 : answers (ev :: log) = [out]) by (unfold answers in *; cbn; by rewrite Ha).
  split; [by rewrite <- app_assoc|]. split; [|split; [|split]].
  - rewrite where_app_posts. change (ev :: log) with ([ev] ++ log). rewrite where_app_posts, Hp. cbn. lia.
  - apply Forall_app. split; [by repeat constructor|done].
  - unfold answers in *. rewrite omap_app, E1. by apply (earlier_later _ _ _ e ra).
  - by apply (ended_later _ _ _ _ out _ _ e ra).
Qed.

Lemma attempts_log n : ∀ a last x l r x' l',
  attempts (HC := recording) path payload max_retries max_delay backoff wait verdict n a last (x, l) = (r, (x', l')) →
  logged n a last l x' l' r.
Proof using Hwait.
  induction n as [|n IH]; intros a last x l r x' l' H.
  - injection H as <- <- <-. exists []. rewrite app_nil_r. split_and!; try done; [by intros [|]|by apply ended_none].
  - cbn [attempts] in H. unfold mbind at 1, st_bind at 1 in H.
    destruct (wait _ (http_post path payload) (x, l)) as [r1 [x1 l1]] eqn:E1. apply Hwait in E1 as (r0 & E1 & Hr1).
    cbn [http_post recording fst snd] in E1. destruct (http_post path payload x) as [out x2] eqn:Ep.
    injection E1 as <- <- <-.
    destruct Hr1 as [->|(e & -> & He)]; [|injection H as <- <- <-; apply logged_stop; [by left|done..]].
    destruct out as [out|e].
    2:{ injection H as <- <- <-. apply logged_stop; [|done..]. right. by eexists [], _. }
    destruct (verdict a out) as [ro|e ra] eqn:Ev.
    { unfold lift in H. injection H as <- <- <-. by apply logged_over. }
    unfold mbind, st_bind in H. destruct (a <? max_retries).
    + destruct (wait _ (http_sleep _) (x2, _)) as [r2 [x3 l3]] eqn:E2. apply Hwait in E2 as (r0 & E2 & Hr2).
      cbn [http_sleep recording fst snd] in E2. destruct (http_sleep _ x2) as [u x4] eqn:Es.
      injection E2 as <- <- <-. rewrite <- app_assoc in H. cbn [app] in H.
      set (ev2 := Slept _ _) in *. assert (Hok2 : Forall event_ok [ev2]) by (repeat constructor; apply delay_capped).
      destruct Hr2 as [->|(e0 & -> & He)]; [|injection H as <- <- <-; apply (logged_stop _ _ _ _ _ _ [ev2]); [by left|done..]].
      destruct u as [[]|e0].
      * apply IH in H. by apply (logged_later _ _ _ _ _ _ [ev2] _ _ _ _ Ev).
      * injection H as <- <- <-. apply (logged_stop _ _ _ _ _ _ [ev2]); [|done..]. right.
        by eexists [_], ev2.
    + apply IH in H. apply (logged_later _ _ _ _ _ _ [] _ _ _ _ Ev); [done..|constructor|done].
Qed.

End attempts_log.

(** * The promises of the providers *)

Lemma awaiting_ends `{HC : !HttpClient X} B (m : ST X B) s r s' : awaiting m s = (r, s') →
  ∃ r0, m s = (r0, s') ∧ (r = r0 ∨ ∃ e, r = Err e ∧ late s' = true ∧ e = LibraryError "TimeoutError").
Proof.
  unfold awaiting, mbind, st_bind, gets, raise, mret, st_ret. destruct (m s) as [[b|e] s1].
  - destruct (late s1) eqn:El; intros [= <- <-]; exists (Ok b); split; eauto.
  - intros [= <- <-]. exists (Err e). eauto.
Qed.

Lemma error_for_retryable status : retryable (error_for status) = bool_decide (status ∈ RETRYABLE_STATUS).
Proof.
  unfold error_for. destruct (bool_decide (status ∈ [401; 403])) eqn:E1.
  { apply bool_decide_eq_true in E1. rewrite !elem_of_cons, elem_of_nil in E1. by destruct E1 as [->|[->|[]]]. }
  destruct (status =? 429) eqn:E2; [by apply Z.eqb_eq in E2 as ->|].
  by destruct (bool_decide (status ∈ RETRYABLE_STATUS)).
Qed.

(** An outcome after which the program tries again. *)
Definition retried (out : http_outcome) : Prop :=
  match out with Responded r => hr_status r ∈ RETRYABLE_STATUS | _ => True end.

Section promises.
Context `{FP : !FloatRepr} `{UD : !UnicodeData} `{FR : !FloatRead} `{FV : !FloatValue} `{HC : !HttpClient X}.
Context (max_retries : Z) (max_delay : pyfloat) (backoff : Z → pyfloat) (Hretries : 0 ≤ max_retries).

Lemma chat_failing model request n out e ra : chat_verdict model request n out = Failing e ra →
  retried out ∧ match out with
                | Responded r => hr_status r ≠ 200 ∧ e = GenerationError (error_for (hr_status r))
                | TimedOut => e = GenerationError "GenerationTimeoutError"
                | Disconnected => e = GenerationError "GenerationUnavailableError"
                end.
Proof.
  destruct out as [r| |]; cbn [chat_verdict]; [|by intros [= <- _]..].
  destruct (Z.eqb_spec (hr_status r) 200) as [|Hs]; [done|]. rewrite error_for_retryable.
  destruct (bool_decide _) eqn:E; [|done]. intros [= <- _]. apply bool_decide_eq_true in E. done.
Qed.

Lemma chat_over model request n out r : chat_verdict model request n out = Over r →
  ∃ resp, out = Responded resp ∧
    ((hr_status resp = 200 ∧ parse_response model request (n + 1) resp = r) ∨
     (hr_status resp ≠ 200 ∧ hr_status resp ∉ RETRYABLE_STATUS ∧ r = Err (GenerationError (error_for (hr_status resp))))).
Proof.
  destruct out as [resp| |]; cbn [chat_verdict]; [|done..]. intros H. exists resp. split; [done|].
  destruct (Z.eqb_spec (hr_status resp) 200) as [|Hs]; [left; split; [done|congruence]|]. right.
  rewrite error_for_retryable in H. destruct (bool_decide _) eqn:E; [done|]. apply bool_decide_eq_false in E.
  injection H as <-. done.
Qed.

(** What [generate] makes of the end of its attempts. *)
Definition timed {B} (r : result B) : result B :=
  match r with Err (LibraryError "TimeoutError") => Err (GenerationError "GenerationTimeoutError") | _ => r end.

Lemma timed_err {B} e : timed (Err e : result B)
  = Err (if decide (e = LibraryError "TimeoutError") then GenerationError "GenerationTimeoutError" else e).
Proof.
  destruct (decide (e = LibraryError "TimeoutError")) as [->|Hn]; [done|]. unfold timed.
  destruct e; try done. repeat case_match; subst; done.
Qed.

(** How a generation may fail, given what it did and the world it leaves. *)
Definition generation_failed (model : pystr) (request : GenerationRequest) (fin : X) (log : list http_event) (e : exn) : Prop :=
  let outs := answers log in
  (* the deadline of the call has passed *)
  (late fin = true ∧ e = GenerationError "GenerationTimeoutError") ∨
  (* the last response says so, and if it may be retried the attempts are used up *)
  (∃ pre resp, outs = pre ++ [Responded resp] ∧
     (hr_status resp = 200 ∧ timed (parse_response model request (zlen outs) resp) = Err e ∨
      hr_status resp ≠ 200 ∧ e = GenerationError (error_for (hr_status resp)) ∧
        (hr_status resp ∈ RETRYABLE_STATUS → zlen outs = max_retries + 1))) ∨
  (* the last of all the attempts got no response *)
  (∃ pre, outs = pre ++ [TimedOut] ∧ zlen outs = max_retries + 1 ∧ e = GenerationError "GenerationTimeoutError") ∨
  (∃ pre, outs = pre ++ [Disconnected] ∧ zlen outs = max_retries + 1 ∧ e = GenerationError "GenerationUnavailableError") ∨
  (* the client itself failed at the last thing it did *)
  (∃ e0, raised log e0 ∧
     timed (Err e0 : result GenerationResult) = Err e) ∨
  (* the request cannot be written *)
  timed (request_payload model request) = Err e ∨
  gr_messages request = [] ∧ e = GenerationError "GenerationRequestError".

Lemma zlen_snoc {B} (l : list B) x : zlen (l ++ [x]) = zlen l + 1.
Proof. unfold zlen. rewrite length_app. cbn. lia. Qed.

Lemma chat_ended model request fin log r :
  ended (chat_verdict model request) (λ x e, late x = true ∧ e = LibraryError "TimeoutError")
    (Z.to_nat (max_retries + 1)) 0 (GenerationError "GenerationUnavailableError") fin log r →
  match timed r with
  | Ok g => ∃ pre resp, answers log = pre ++ [Responded resp] ∧ hr_status resp = 200 ∧
      parse_response model request (zlen (answers log)) resp = Ok g
  | Err e => generation_failed model request fin log e
  end.
Proof using Hretries.
  intros [Hn _|pre out r' Eo Hv|pre out e ra Eo Hn Hv|e [[Hl ->]|He]]; [lia| | |by left|].
  - apply chat_over in Hv as (resp & -> & [[Hs Hp]|(Hs & Hr & ->)]).
    + replace (0 + zlen pre + 1) with (zlen (answers log)) in Hp by (rewrite Eo, zlen_snoc; lia).
      destruct r' as [g|e]; [by exists pre, resp|]. rewrite timed_err. right. left. exists pre, resp.
      split; [done|]. left. split; [done|]. by rewrite Hp, timed_err.
    + cbn [timed]. right. left. exists pre, resp. split; [done|]. right. split; [done|]. by split.
  - assert (Hl : zlen (answers log) = max_retries + 1) by (unfold zlen; lia).
    apply chat_failing in Hv as [_ Hv]. destruct out as [resp| |].
    + destruct Hv as [Hs ->]. cbn [timed]. right. left. exists pre, resp. split; [done|]. by right.
    + rewrite Hv. cbn [timed]. right. right. left. by exists pre.
    + rewrite Hv. cbn [timed]. right. right. right. left. by exists pre.
  - rewrite timed_err. right. right. right. right. left. exists e. by rewrite timed_err.
Qed.

(** C27. A generation is bounded, and its result is that of one response.  However the
    network behaves, a call posts the same request at most [max_retries + 1] times, waits
    between posts no longer than the maximum, and posts again only after a timeout, a
    transport error or a status it may retry.  It answers only with what the last
    response, a 200, says, counting the attempts.  It fails with the error of the last
    outcome, and that outcome is one that may be retried (a retryable status, a timeout,
    a disconnection) only when the attempts are used up; or because the deadline of the
    call has passed; or because the client itself failed at the last thing it did, or the
    request cannot be written. *)
Theorem generation_is_bounded model request x r x' log :
  openai_generate (HC := recording) max_retries max_delay backoff model request (x, []) = (r, (x', log)) →
  zlen (where_ is_post log) ≤ max_retries + 1 ∧
  (log = [] ∨ ∃ payload, request_payload model request = Ok payload ∧
     Forall (event_ok "chat/completions" payload max_delay) log) ∧
  (∀ pre out post, answers log = pre ++ out :: post → post ≠ [] → retried out) ∧
  match r with
  | Ok g => ∃ pre resp, answers log = pre ++ [Responded resp] ∧ hr_status resp = 200 ∧
      parse_response model request (zlen (answers log)) resp = Ok g
  | Err e => generation_failed model request x' log e
  end.
Proof using Hretries.
  unfold openai_generate. destruct (is_empty (gr_messages request)) eqn:Em.
  { intros [= <- <- <-]. split; [change (0 <= max_retries + 1); lia|]. split; [by left|]. split; [by intros [|]|].
    do 6 right. by destruct (gr_messages request). }
  destruct (generate_attempts _ _ _ _ _ _) as [r0 [x0 log0]] eqn:E. intros H.
  assert (Hr : (x', log) = (x0, log0) ∧ r = timed r0).
  { unfold timed. destruct r0 as [g|e]; [by injection H as <- <- <-|].
    destruct e; try by injection H as <- <- <-. revert H. repeat case_match; by intros [= <- <- <-]. }
  clear H. destruct Hr as [[= -> ->] ->]. unfold generate_attempts in E.
  destruct (request_payload model request) as [payload|e] eqn:Ep.
  2:{ injection E as <- <- <-. split; [change (0 <= max_retries + 1); lia|]. split; [by left|]. split; [by intros [|]|].
      rewrite timed_err. do 5 right. left. by rewrite Ep, timed_err. }
  unfold mbind, st_bind, lift in E.
  apply (attempts_log _ _ _ _ _ _ _ (λ x e, late x = true ∧ e = LibraryError "TimeoutError") (λ B, awaiting_ends (HC := recording) B)) in E
    as (log1 & -> & Hn & Hok & Hef & Hend).
  cbn [app]. split; [unfold zlen; lia|]. split; [right; by exists payload|]. split.
  { intros pre out post Eo Hpost. destruct (Hef pre out post Eo Hpost) as (e & ra & Hv).
    by apply chat_failing in Hv as [Hv _]. }
  by apply chat_ended.
Qed.

(** ** Embeddings *)

Lemma parse_embeddings_ok dimensions expected r b : parse_embeddings dimensions expected r = Ok b →
  zlen (eb_vectors b) = expected ∧ ∀ v, v ∈ eb_vectors b → zlen v = dimensions.
Proof.
  unfold parse_embeddings. intros H. apply result_bind_ok in H as (b0 & _ & H).
  apply result_bind_ok in H as ([] & Hn%ensure_ok & H). apply result_bind_ok in H as ([] & Hd%ensure_ok & [= <-]).
  apply Z.eqb_eq in Hn. split; [done|]. intros v Hv. by apply Z.eqb_eq, (forallb_elem _ _ _ Hd).
Qed.

(** Every batch of texts gets one vector per text, of the dimensions asked for, from one
    200 response within [max_retries + 1] posts; no text, no post; and what is refused
    before the network is reached is refused without a post. *)
Theorem embeddings_match_the_texts model dimensions texts x b x' log :
  openai_embed (HC := recording) max_retries max_delay backoff model dimensions texts (x, []) = (Ok b, (x', log)) →
  zlen (eb_vectors b) = zlen texts ∧ (∀ v, v ∈ eb_vectors b → zlen v = dimensions) ∧
  zlen (where_ is_post log) ≤ max_retries + 1 ∧ (texts = [] → log = []) ∧ zlen texts ≤ EMBED_MAX_BATCH.
Proof using Hretries.
  unfold openai_embed. destruct texts as [|t texts]; cbn [is_empty].
  { intros [= <- <- <-]. split; [done|]. split; [by intros v ?%not_elem_of_nil|]. split; [change (0 <= max_retries + 1); lia|].
    by split. }
  destruct (Z.ltb_spec EMBED_MAX_BATCH (zlen (t :: texts))) as [|Hmax]; [done|]. intros H.
  apply (attempts_log _ _ _ _ _ _ _ (λ _ _, False)) in H as (log1 & -> & Hn & _ & _ & Hend).
  2:{ intros B m s r s' Hm. exists r. by split; [|left]. }
  assert (Hv : ∃ n out, embed_verdict dimensions (zlen (t :: texts)) n out = Over (Ok b)).
  { inversion Hend as [|pre out r ? Hv|pre out e ra|e He]; subst; [by eexists _, _]. }
  destruct Hv as (n & out & Hv). destruct out as [resp| |]; cbn [embed_verdict] in Hv; [|done..].
  destruct (hr_status resp =? 200); [|by destruct (negb _) in Hv]. injection Hv as Hv.
  apply parse_embeddings_ok in Hv as [Hv Hd]. split; [done|]. split; [done|]. split; [|by split].
  cbn [app]. unfold zlen in *. lia.
Qed.

End promises.

(** ** Tool calls *)

(** A tool call that the model made reads back, from what the next request says of it, as
    the same call. *)
Theorem tool_calls_read_back `{FP : !FloatRepr} `{UD : !UnicodeData} `{FR : !FloatRead} call j :
  plain (JObj (tc_call_arguments call)) → tool_call_payload call = Ok j → read_tool_call j = Ok call.
Proof.
  intros Hp H. unfold tool_call_payload in H. apply result_bind_ok in H as (t & Ht & [= <-]).
  pose proof (loads_dumps default_options [32] [32] default_readable _ _ Hp Ht) as Hl.
  change (read_tool_call _) with (arguments ← (parsed ← loads_text t; match parsed with JObj kvs => Ok kvs | _ => Err ValueError end);
    Ok {| tc_call_id := tc_call_id call; tc_call_name := tc_call_name call; tc_call_arguments := arguments |}).
  rewrite Hl. by destruct call.
Qed.

(** ** What is not a [GenerationError] *)

(** A 200 response whose message is null ends with an [AttributeError], which no caller of
    the provider expects: it is not among the exceptions that [_parse] translates. *)
Theorem null_message_is_not_a_generation_error `{FP : !FloatRepr} `{UD : !UnicodeData} `{FR : !FloatRead} model request n r :
  loads_bytes (hr_body r) = Ok (JObj [(py "choices", JList [JObj [(py "message", JNull)]])]) →
  parse_response model request n r = Err (LibraryError "AttributeError").
Proof. intros H. unfold parse_response, read_parts. by rewrite H. Qed.
