(* ===== verification/Config.v ===== *)
(** Settings and what is built from them: app/core/config.py, the builders of
    app/main.py, app/mcp/server.py, app/db/session.py and app/auth/tokens.py.
    Reading the environment and the texts of the values is pydantic's work: the
    settings here are parsed values that have not been checked yet. *)

From stdpp Require Import gmap.
From S2P Require Import Grounding.
From S2P Require Import Prelude PyStr Json Canonical Regex Validation Access Temporal Database Schema.
From S2P Require Import Calendar Parsing JsonParse Accounts Tokens Store Authentication Generation.
From S2P Require Import EmbeddingQueue Investigator Providers.

Definition API_V1_PREFIX : pystr := py "/api/v1".

(** * The settings, by the sections of the class *)

Inductive Environment := LOCAL | TEST | STAGING | PRODUCTION.
#[export] Instance Environment_eq_dec : EqDecision Environment.
Proof. solve_decision. Defined.

(** The texts of [Literal] fields stay texts; a secret is its value. *)
Record ApplicationSettings := {
  app_name : pystr; environment : Environment; process_role : pystr; log_level : pystr; log_json : bool }.
Record ObservabilitySettings := {
  metrics_enabled : bool; metrics_token : pystr; otel_exporter_otlp_endpoint : pystr;
  otel_service_name : pystr; otel_sample_ratio : pyfloat; docs_enabled : bool;
  correlation_id_header : pystr }.
Record PostgresSettings := {
  db_host : pystr; db_port : Z; db_user : pystr; db_password : pystr; db_name : pystr;
  db_application_name : pystr; db_pool_size : Z; db_max_overflow : Z; db_pool_timeout_seconds : pyfloat;
  db_pool_recycle_seconds : Z; db_connect_timeout_seconds : pyfloat; db_statement_timeout_ms : Z;
  db_ssl_mode : pystr; db_ssl_root_cert : option pystr; db_echo : bool }.
Record EmbeddingSettings := {
  embedding_provider : pystr; embedding_model : pystr; embedding_batch_size : Z;
  embedding_max_attempts : Z; embedding_retry_base_seconds : pyfloat; embedding_retry_cap_seconds : pyfloat;
  embedding_lease_seconds : Z; embedding_poll_interval_seconds : pyfloat; openai_api_key : pystr;
  openai_base_url : pystr; openai_timeout_seconds : pyfloat; openai_max_retries : Z }.
Record GenerationSettings := {
  llm_provider : pystr; openai_chat_model : pystr; llm_timeout_seconds : pyfloat; llm_max_retries : Z;
  llm_max_output_tokens : Z; llm_temperature : option pyfloat; llm_answer_prompt_version : pystr;
  llm_agent_max_steps : Z; llm_agent_max_tool_calls : Z }.
Record GraphSettings := {
  neo4j_uri : pystr; neo4j_user : pystr; neo4j_password : pystr; neo4j_database : pystr;
  graph_batch_size : Z; graph_poll_interval_seconds : pyfloat }.
Record RedisSettings := {
  redis_url : pystr; redis_timeout_seconds : pyfloat; retrieval_cache_ttl_seconds : Z;
  rate_limit_requests_per_minute : Z; max_request_body_bytes : Z; rate_limit_token_requests_per_minute : Z;
  idempotency_ttl_seconds : Z; idempotency_lock_seconds : Z; oauth_state_ttl_seconds : Z;
  mcp_session_ttl_seconds : Z }.
Record KafkaSettings := {
  kafka_bootstrap_servers : pystr; kafka_client_id : pystr; kafka_topic_partitions : Z;
  kafka_replication_factor : Z; kafka_request_timeout_seconds : pyfloat; event_relay_batch_size : Z;
  event_relay_poll_interval_seconds : pyfloat; event_consumer_max_attempts : Z;
  event_consumer_retry_base_seconds : pyfloat }.
Record AuthSettings := {
  auth_mode : pystr; jwt_signing_key : pystr; jwt_key_id : pystr; jwt_previous_public_keys : pystr;
  jwt_issuer : pystr; jwt_audience : pystr; jwt_access_token_ttl_seconds : Z }.
Record McpSettings := {
  mcp_user_id : option UUID; mcp_organization_id : option UUID; mcp_agent_name : pystr;
  mcp_max_privacy_scope : pystr; readiness_timeout_seconds : pyfloat; alembic_ini_path : pystr }.

Record Settings := {
  application : ApplicationSettings; observability : ObservabilitySettings; postgres : PostgresSettings;
  embeddings : EmbeddingSettings; generation : GenerationSettings; neo4j : GraphSettings;
  redis : RedisSettings; kafka : KafkaSettings; authentication : AuthSettings; mcp : McpSettings }.

(** The values the class gives its fields. *)
Definition half : pyfloat := Fin 1 (-1).
Definition defaults : Settings := {|
  application := {| app_name := py "ContextLedger"; environment := LOCAL; process_role := py "api";
    log_level := py "INFO"; log_json := true |};
  observability := {| metrics_enabled := true; metrics_token := []; otel_exporter_otlp_endpoint := [];
    otel_service_name := py "contextledger-api"; otel_sample_ratio := Fin 1 0; docs_enabled := true;
    correlation_id_header := py "X-Correlation-ID" |};
  postgres := {| db_host := py "localhost"; db_port := 5432; db_user := py "contextledger"; db_password := [];
    db_name := py "contextledger"; db_application_name := py "contextledger-api"; db_pool_size := 5;
    db_max_overflow := 10; db_pool_timeout_seconds := Fin 10 0; db_pool_recycle_seconds := 1800;
    db_connect_timeout_seconds := Fin 5 0; db_statement_timeout_ms := 30000; db_ssl_mode := py "disable";
    db_ssl_root_cert := None; db_echo := false |};
  embeddings := {| embedding_provider := py "deterministic"; embedding_model := py "text-embedding-3-small";
    embedding_batch_size := 64; embedding_max_attempts := 5; embedding_retry_base_seconds := Fin 10 0;
    embedding_retry_cap_seconds := Fin 900 0; embedding_lease_seconds := 300;
    embedding_poll_interval_seconds := Fin 5 0; openai_api_key := [];
    openai_base_url := py "https://api.openai.com/v1"; openai_timeout_seconds := Fin 30 0;
    openai_max_retries := 3 |};
  generation := {| llm_provider := py "disabled"; openai_chat_model := py "gpt-4o-mini";
    llm_timeout_seconds := Fin 30 0; llm_max_retries := 2; llm_max_output_tokens := 800;
    llm_temperature := Some (Fin 0 0); llm_answer_prompt_version := py "grounded-answer-v2";
    llm_agent_max_steps := 6; llm_agent_max_tool_calls := 12 |};
  neo4j := {| neo4j_uri := py "bolt://localhost:7687"; neo4j_user := py "neo4j"; neo4j_password := [];
    neo4j_database := py "neo4j"; graph_batch_size := 200; graph_poll_interval_seconds := Fin 2 0 |};
  redis := {| redis_url := []; redis_timeout_seconds := half; retrieval_cache_ttl_seconds := 60;
    rate_limit_requests_per_minute := 600; max_request_body_bytes := 1048576;
    rate_limit_token_requests_per_minute := 30; idempotency_ttl_seconds := 86400;
    idempotency_lock_seconds := 60; oauth_state_ttl_seconds := 600; mcp_session_ttl_seconds := 3600 |};
  kafka := {| kafka_bootstrap_servers := py "localhost:9092"; kafka_client_id := py "contextledger";
    kafka_topic_partitions := 6; kafka_replication_factor := 1; kafka_request_timeout_seconds := Fin 30 0;
    event_relay_batch_size := 200; event_relay_poll_interval_seconds := Fin 1 0;
    event_consumer_max_attempts := 3; event_consumer_retry_base_seconds := half |};
  authentication := {| auth_mode := py "development-headers"; jwt_signing_key := []; jwt_key_id := py "k1";
    jwt_previous_public_keys := py "{}"; jwt_issuer := py "contextledger";
    jwt_audience := py "contextledger-api"; jwt_access_token_ttl_seconds := 900 |};
  mcp := {| mcp_user_id := None; mcp_organization_id := None; mcp_agent_name := py "mcp-agent";
    mcp_max_privacy_scope := py "INTERNAL"; readiness_timeout_seconds := Fin 3 0;
    alembic_ini_path := py "alembic.ini" |};
|}.

(** * The constraints of the fields *)

Definition alpha (c : Z) : bool := is_upper_az c || is_lower_az c.
Definition alnum (c : Z) : bool := alpha c || is_digit c.
Definition one_of (texts : list string) (s : pystr) : bool := existsb (λ t, bool_decide (py t = s)) texts.

(** [pattern=...] *)
Definition HEADER_NAME : regex := Cat (Cls alpha) (UpTo 63 (Cls (λ c, alnum c || (c =? 45)))).
Definition TOKEN_NAME : regex := Between 1 64 (Cls (λ c, alnum c || bool_decide (c ∈ [46; 95; 45]))).
Definition BOLT_SCHEMES : list pystr :=
  [py "bolt://"; py "bolt+s://"; py "bolt+ssc://"; py "neo4j://"; py "neo4j+s://"; py "neo4j+ssc://"].

(** A field with the outcome of its constraints. *)
Definition field (name : string) (ok : bool) : string * bool := (name, ok).
Arguments field name%_string ok.
Arguments one_of texts%_string s.

Section checks.
(** Whether pydantic lets a NaN through the bounds of a float. *)
Context (nan_passes : bool).

Definition within (lo hi n : Z) : bool := (lo <=? n) && (n <=? hi).
Definition text_within (lo hi : Z) (s : pystr) : bool := within lo hi (zlen s).
Definition float_ge (lo f : pyfloat) : bool := match f with NaN => nan_passes | _ => negb (float_ltb f lo) end.
Definition float_le (hi f : pyfloat) : bool := match f with NaN => nan_passes | _ => negb (float_ltb hi f) end.
Definition float_gt (lo f : pyfloat) : bool := match f with NaN => nan_passes | _ => float_ltb lo f end.
Definition positive (f : pyfloat) : bool := float_gt (Fin 0 0) f.

Definition application_checks (s : ApplicationSettings) : list (string * bool) := [
  field "app_name" (text_within 1 100 (app_name s));
  field "process_role" (one_of ["api"; "batch"] (process_role s));
  field "log_level" (one_of ["DEBUG"; "INFO"; "WARNING"; "ERROR"; "CRITICAL"] (log_level s))].

Definition observability_checks (s : ObservabilitySettings) : list (string * bool) := [
  field "otel_service_name" (1 <=? zlen (otel_service_name s));
  field "otel_sample_ratio" (float_ge (Fin 0 0) (otel_sample_ratio s) && float_le (Fin 1 0) (otel_sample_ratio s));
  field "correlation_id_header" (fullmatch HEADER_NAME (correlation_id_header s))].

Definition postgres_checks (s : PostgresSettings) : list (string * bool) := [
  field "db_host" (1 <=? zlen (db_host s)); field "db_port" (within 1 65535 (db_port s));
  field "db_user" (1 <=? zlen (db_user s)); field "db_name" (text_within 1 63 (db_name s));
  field "db_application_name" (text_within 1 63 (db_application_name s));
  field "db_pool_size" (within 1 100 (db_pool_size s)); field "db_max_overflow" (within 0 100 (db_max_overflow s));
  field "db_pool_timeout_seconds" (positive (db_pool_timeout_seconds s));
  field "db_pool_recycle_seconds" (0 <? db_pool_recycle_seconds s);
  field "db_connect_timeout_seconds" (positive (db_connect_timeout_seconds s));
  field "db_statement_timeout_ms" (0 <=? db_statement_timeout_ms s);
  field "db_ssl_mode" (one_of ["disable"; "require"; "verify-full"] (db_ssl_mode s))].

Definition embedding_checks (s : EmbeddingSettings) : list (string * bool) := [
  field "embedding_provider" (one_of ["deterministic"; "openai"] (embedding_provider s));
  field "embedding_model" (text_within 1 100 (embedding_model s));
  field "embedding_batch_size" (within 1 512 (embedding_batch_size s));
  field "embedding_max_attempts" (within 1 20 (embedding_max_attempts s));
  field "embedding_retry_base_seconds" (float_ge (Fin 0 0) (embedding_retry_base_seconds s));
  field "embedding_retry_cap_seconds" (positive (embedding_retry_cap_seconds s));
  field "embedding_lease_seconds" (10 <=? embedding_lease_seconds s);
  field "embedding_poll_interval_seconds" (positive (embedding_poll_interval_seconds s));
  field "openai_timeout_seconds" (positive (openai_timeout_seconds s));
  field "openai_max_retries" (within 0 10 (openai_max_retries s))].

Definition generation_checks (s : GenerationSettings) : list (string * bool) := [
  field "llm_provider" (one_of ["disabled"; "openai"] (llm_provider s));
  field "openai_chat_model" (text_within 1 100 (openai_chat_model s));
  field "llm_timeout_seconds" (positive (llm_timeout_seconds s) && float_le (Fin 300 0) (llm_timeout_seconds s));
  field "llm_max_retries" (within 0 5 (llm_max_retries s));
  field "llm_max_output_tokens" (within 16 8000 (llm_max_output_tokens s));
  field "llm_temperature" (match llm_temperature s with
                      | None => true
                      | Some t => float_ge (Fin 0 0) t && float_le (Fin 2 0) t
                      end);
  field "llm_answer_prompt_version" (1 <=? zlen (llm_answer_prompt_version s));
  field "llm_agent_max_steps" (within 1 12 (llm_agent_max_steps s));
  field "llm_agent_max_tool_calls" (within 1 30 (llm_agent_max_tool_calls s))].

Definition graph_checks (s : GraphSettings) : list (string * bool) := [
  field "neo4j_uri" (startswith_any BOLT_SCHEMES (neo4j_uri s)); field "neo4j_user" (1 <=? zlen (neo4j_user s));
  field "neo4j_database" (text_within 1 63 (neo4j_database s));
  field "graph_batch_size" (within 1 5000 (graph_batch_size s));
  field "graph_poll_interval_seconds" (positive (graph_poll_interval_seconds s))].

Definition redis_checks (s : RedisSettings) : list (string * bool) := [
  field "redis_timeout_seconds" (positive (redis_timeout_seconds s) && float_le (Fin 10 0) (redis_timeout_seconds s));
  field "retrieval_cache_ttl_seconds" (within 1 3600 (retrieval_cache_ttl_seconds s));
  field "rate_limit_requests_per_minute" (0 <=? rate_limit_requests_per_minute s);
  field "max_request_body_bytes" (0 <=? max_request_body_bytes s);
  field "rate_limit_token_requests_per_minute" (0 <=? rate_limit_token_requests_per_minute s);
  field "idempotency_ttl_seconds" (within 60 (7 * 86400) (idempotency_ttl_seconds s));
  field "idempotency_lock_seconds" (within 1 3600 (idempotency_lock_seconds s));
  field "oauth_state_ttl_seconds" (within 60 3600 (oauth_state_ttl_seconds s));
  field "mcp_session_ttl_seconds" (within 60 86400 (mcp_session_ttl_seconds s))].

Definition kafka_checks (s : KafkaSettings) : list (string * bool) := [
  field "kafka_bootstrap_servers" (1 <=? zlen (kafka_bootstrap_servers s));
  field "kafka_client_id" (fullmatch TOKEN_NAME (kafka_client_id s));
  field "kafka_topic_partitions" (within 1 1000 (kafka_topic_partitions s));
  field "kafka_replication_factor" (within 1 5 (kafka_replication_factor s));
  field "kafka_request_timeout_seconds" (positive (kafka_request_timeout_seconds s));
  field "event_relay_batch_size" (within 1 5000 (event_relay_batch_size s));
  field "event_relay_poll_interval_seconds" (positive (event_relay_poll_interval_seconds s));
  field "event_consumer_max_attempts" (within 1 20 (event_consumer_max_attempts s));
  field "event_consumer_retry_base_seconds" (float_ge (Fin 0 0) (event_consumer_retry_base_seconds s))].

Definition auth_checks (s : AuthSettings) : list (string * bool) := [
  field "auth_mode" (one_of ["development-headers"; "jwt"] (auth_mode s));
  field "jwt_key_id" (fullmatch TOKEN_NAME (jwt_key_id s)); field "jwt_issuer" (1 <=? zlen (jwt_issuer s));
  field "jwt_audience" (1 <=? zlen (jwt_audience s));
  field "jwt_access_token_ttl_seconds" (within 60 86400 (jwt_access_token_ttl_seconds s))].

Definition mcp_checks (s : McpSettings) : list (string * bool) := [
  field "mcp_agent_name" (text_within 1 200 (mcp_agent_name s));
  field "mcp_max_privacy_scope" (one_of ["PUBLIC"; "INTERNAL"; "CONFIDENTIAL"; "RESTRICTED"] (mcp_max_privacy_scope s));
  field "readiness_timeout_seconds" (positive (readiness_timeout_seconds s))].

(** The fields that are refused, in the order of the class. *)
Definition field_errors (s : Settings) : list string :=
  map fst (where_ (λ c, negb c.2) (
    application_checks (application s) ++ observability_checks (observability s) ++
    postgres_checks (postgres s) ++ embedding_checks (embeddings s) ++ generation_checks (generation s) ++
    graph_checks (neo4j s) ++ redis_checks (redis s) ++ kafka_checks (kafka s) ++
    auth_checks (authentication s) ++ mcp_checks (mcp s))).

End checks.

(** * The validators of the model *)

(** [value in {STAGING, PRODUCTION}], and where the process also serves traffic. *)
Definition deployed (s : Settings) : bool :=
  bool_decide (environment (application s) ∈ [STAGING; PRODUCTION]).
Definition serving (s : Settings) : bool :=
  deployed s && bool_decide (process_role (application s) = py "api").
Definition unset (secret : pystr) : bool := bool_decide (secret = []).

(** A validator answers with the text of the [ValueError] it raises. *)
Definition refuse_if (c : bool) (text : string) : option string := if c then Some text else None.
Arguments refuse_if c text%_string.

Definition _require_db_password_outside_local (s : Settings) : option string :=
  refuse_if (deployed s && unset (db_password (postgres s)))
    "CONTEXTLEDGER_DB_PASSWORD must be set in staging and production".

Definition _require_real_embeddings_when_configured (s : Settings) : option string :=
  let openai := bool_decide (embedding_provider (embeddings s) = py "openai") in
  if openai && unset (openai_api_key (embeddings s))
  then Some "CONTEXTLEDGER_OPENAI_API_KEY is required when the provider is openai"%string
  else refuse_if (deployed s && negb openai) "staging and production must use the openai embedding provider".

Definition _require_key_for_generation (s : Settings) : option string :=
  refuse_if (bool_decide (llm_provider (generation s) = py "openai") && unset (openai_api_key (embeddings s)))
    "CONTEXTLEDGER_OPENAI_API_KEY is required when llm_provider is openai".

(** [prompt_versions(prefix)] of the registry. *)
Definition prompt_versions (prefix : pystr) : list pystr :=
  sort_by pystr_leb (where_ (startswith prefix) (map pt_version REGISTRY)).

Definition _prompt_version_must_exist (s : Settings) : option string :=
  refuse_if (negb (bool_decide (llm_answer_prompt_version (generation s) ∈ prompt_versions (py "grounded-answer"))))
    "unknown answer prompt".

Definition _require_neo4j_password_outside_local (s : Settings) : option string :=
  refuse_if (serving s && unset (neo4j_password (neo4j s)))
    "CONTEXTLEDGER_NEO4J_PASSWORD must be set in staging and production".

Definition _forbid_header_auth_outside_local (s : Settings) : option string :=
  if deployed s && bool_decide (auth_mode (authentication s) = py "development-headers")
  then Some "development-headers auth is not allowed in staging/production"%string
  else refuse_if (serving s && unset (jwt_signing_key (authentication s)))
         "CONTEXTLEDGER_JWT_SIGNING_KEY must be set in staging and production".

Definition _require_redis_outside_local (s : Settings) : option string :=
  let url := redis_url (redis s) in
  if serving s && unset url then Some "CONTEXTLEDGER_REDIS_URL must be set in staging and production"%string
  else refuse_if (negb (unset url) && negb (startswith_any [py "redis://"; py "rediss://"] url))
         "CONTEXTLEDGER_REDIS_URL must start with redis:// or rediss://".

Definition _require_metrics_token_outside_local (s : Settings) : option string :=
  refuse_if (serving s && metrics_enabled (observability s) && unset (metrics_token (observability s)))
    "set CONTEXTLEDGER_METRICS_TOKEN (or disable metrics) in staging and production".

Definition _require_database_tls_outside_local (s : Settings) : option string :=
  if deployed s && bool_decide (db_ssl_mode (postgres s) = py "disable")
  then Some "CONTEXTLEDGER_DB_SSL_MODE must be require or verify-full outside local"%string
  else refuse_if (bool_decide (db_ssl_mode (postgres s) = py "verify-full")
                  && bool_decide (db_ssl_root_cert (postgres s) = None))
         "CONTEXTLEDGER_DB_SSL_ROOT_CERT is required with verify-full".

(** In the order of their definition; the first that raises ends the validation. *)
Definition validators : list (Settings → option string) := [
  _require_db_password_outside_local; _require_real_embeddings_when_configured; _require_key_for_generation;
  _prompt_version_must_exist; _require_neo4j_password_outside_local; _forbid_header_auth_outside_local;
  _require_redis_outside_local; _require_metrics_token_outside_local; _require_database_tls_outside_local].

Fixpoint first_refusal (vs : list (Settings → option string)) (s : Settings) : option string :=
  match vs with
  | [] => None
  | v :: vs' => match v s with Some text => Some text | None => first_refusal vs' s end
  end.

(** [Settings(...)]: the settings, or what the [ValidationError] names. *)
Section load.
Context `{UD : !UnicodeData} (nan_passes : bool).

(** [_normalise_log_level], before the level is checked. *)
Definition _normalise_log_level (s : Settings) : Settings := {|
  application := {| app_name := app_name (application s); environment := environment (application s);
    process_role := process_role (application s); log_level := upper (log_level (application s));
    log_json := log_json (application s) |};
  observability := observability s; postgres := postgres s; embeddings := embeddings s;
  generation := generation s; neo4j := neo4j s; redis := redis s; kafka := kafka s;
  authentication := authentication s; mcp := mcp s |}.

Definition load (raw : Settings) : Settings + list string :=
  let s := _normalise_log_level raw in
  match field_errors nan_passes s with
  | [] => match first_refusal validators s with None => inl s | Some text => inr [text] end
  | errors => inr errors
  end.

End load.

Definition is_production (s : Settings) : bool := bool_decide (environment (application s) = PRODUCTION).

(** * What is built from settings *)

(** [URL.create], with no password for an empty one. *)
Record DatabaseUrl := {
  du_username : pystr; du_password : option pystr; du_host : pystr; du_port : Z; du_database : pystr }.
Definition database_url (s : Settings) : DatabaseUrl := {|
  du_username := db_user (postgres s);
  du_password := match db_password (postgres s) with [] => None | p => Some p end;
  du_host := db_host (postgres s); du_port := db_port (postgres s); du_database := db_name (postgres s) |}.

(** The [ssl] argument of the driver: none, encrypted only, or with the certificate and
    the host name verified against a root certificate. *)
Inductive TlsContext := NoTls | EncryptedOnly | Verified (cafile : option pystr).
Definition ssl_context (s : Settings) : TlsContext :=
  if bool_decide (db_ssl_mode (postgres s) = py "disable") then NoTls
  else if bool_decide (db_ssl_mode (postgres s) = py "require") then EncryptedOnly
  else Verified (db_ssl_root_cert (postgres s)).

(** The provider of embeddings and its parameters; the client is the caller's. *)
Inductive EmbeddingChoice :=
  | DeterministicHash
  | OpenAIEmbedding (api_key model : pystr) (max_retries : Z).
Definition build_embedding_provider (s : Settings) (http_client : bool) : result EmbeddingChoice :=
  if bool_decide (embedding_provider (embeddings s) = py "deterministic") then Ok DeterministicHash
  else if negb http_client then Err ValueError
  else Ok (OpenAIEmbedding (openai_api_key (embeddings s)) (embedding_model (embeddings s))
             (openai_max_retries (embeddings s))).

Record OpenAIChat := {
  oc_api_key : pystr; oc_model : pystr; oc_timeout_seconds : pyfloat; oc_max_retries : Z }.
Definition build_generation_provider (s : Settings) (http_client : bool) : result (option OpenAIChat) :=
  if bool_decide (llm_provider (generation s) = py "disabled") then Ok None
  else if negb http_client then Err ValueError
  else Ok (Some {| oc_api_key := openai_api_key (embeddings s); oc_model := openai_chat_model (generation s);
                   oc_timeout_seconds := llm_timeout_seconds (generation s);
                   oc_max_retries := llm_max_retries (generation s) |}).

Definition uses_openai (s : Settings) : bool :=
  bool_decide (embedding_provider (embeddings s) = py "openai") || bool_decide (llm_provider (generation s) = py "openai").

(** What a request's authentication reads of the settings. *)
Definition auth_settings (s : Settings) : Authentication.Settings := {|
  st_development_headers := bool_decide (auth_mode (authentication s) = py "development-headers");
  st_requests_per_minute := rate_limit_requests_per_minute (redis s) |}.

(** [TokenService.from_settings]; [private] is the key [generate_private_key_pem] draws. *)
Section from_settings.
Context `{JW : !Jwt} `{JL : !JsonLoads}.

(** The retired keys, [x or {}]: an object, whatever its values, or nothing. *)
Definition previous_keys (j : json) : result (gmap pystr json) :=
  match j with
  | JObj kvs => Ok (list_to_map (reverse kvs))
  | _ => if truthy j then Err TypeError else Ok ∅
  end.

Definition from_settings (ephemeral : pystr) (s : Settings) : result TokenService :=
  private ← match jwt_signing_key (authentication s) with
            | [] => if bool_decide (environment (application s) ∈ [LOCAL; TEST]) then Ok ephemeral
                    else Err (LibraryError "RuntimeError")
            | key => Ok key
            end;
  keys ← json_loads_text (jwt_previous_public_keys (authentication s));
  extra ← previous_keys keys;
  Ok (new_token_service private (jwt_key_id (authentication s)) (jwt_issuer (authentication s))
        (jwt_audience (authentication s)) (jwt_access_token_ttl_seconds (authentication s) * 10 ^ 6) extra).

End from_settings.

(** * Well-formed settings *)

(** What the rest of the program relies on. *)
Record well_formed (s : Settings) : Prop := {
  wf_log_level : log_level (application s) ∈ [py "DEBUG"; py "INFO"; py "WARNING"; py "ERROR"; py "CRITICAL"];
  wf_header : lang HEADER_NAME (correlation_id_header (observability s));
  wf_key_id : lang TOKEN_NAME (jwt_key_id (authentication s));
  wf_port : 1 ≤ db_port (postgres s) ≤ 65535;
  wf_pool : 1 ≤ db_pool_size (postgres s) + db_max_overflow (postgres s) ≤ 200;
  wf_batches : 1 ≤ embedding_batch_size (embeddings s) ≤ 512 ∧ 1 ≤ graph_batch_size (neo4j s) ≤ 5000 ∧
               1 ≤ event_relay_batch_size (kafka s) ≤ 5000;
  wf_attempts : 1 ≤ embedding_max_attempts (embeddings s) ≤ 20 ∧ 1 ≤ event_consumer_max_attempts (kafka s) ≤ 20;
  wf_lease : 10 ≤ embedding_lease_seconds (embeddings s);
  wf_retries : 0 ≤ openai_max_retries (embeddings s) ≤ 10 ∧ 0 ≤ llm_max_retries (generation s) ≤ 5;
  wf_tokens : 16 ≤ llm_max_output_tokens (generation s) ≤ 8000;
  wf_steps : 1 ≤ llm_agent_max_steps (generation s) ≤ 12;
  wf_tool_calls : 1 ≤ llm_agent_max_tool_calls (generation s) ≤ 30;
  wf_cache : 1 ≤ retrieval_cache_ttl_seconds (redis s) ≤ 3600;
  wf_idempotency : 60 ≤ idempotency_ttl_seconds (redis s) ≤ 604800 ∧ 1 ≤ idempotency_lock_seconds (redis s) ≤ 3600;
  wf_sessions : 60 ≤ mcp_session_ttl_seconds (redis s) ≤ 86400 ∧ 60 ≤ oauth_state_ttl_seconds (redis s) ≤ 3600;
  wf_access_tokens : 60 ≤ jwt_access_token_ttl_seconds (authentication s) ≤ 86400;
  wf_prompt : ∃ t, get_prompt (llm_answer_prompt_version (generation s)) = Ok t ∧ pt_output_schema t ≠ None;
  wf_scope : ∃ p, privacy_of_json (JStr (mcp_max_privacy_scope (mcp s))) = Ok p;
  wf_openai : uses_openai s = true → openai_api_key (embeddings s) ≠ [];
}.

(** What staging and production add, and what serving traffic there adds. *)
Record fit_to_deploy (s : Settings) : Prop := {
  fd_password : db_password (postgres s) ≠ [];
  fd_tls : ssl_context s ≠ NoTls;
  fd_root : ∀ cafile, ssl_context s = Verified cafile → cafile ≠ None;
  fd_embeddings : embedding_provider (embeddings s) = py "openai";
  fd_auth : st_development_headers (auth_settings s) = false;
}.
Record fit_to_serve (s : Settings) : Prop := {
  fs_graph : neo4j_password (neo4j s) ≠ [];
  fs_key : jwt_signing_key (authentication s) ≠ [];
  fs_store : ∀ executed, build_store executed (redis_url (redis s)) = redis_store executed;
  fs_metrics : metrics_enabled (observability s) = true → metrics_token (observability s) ≠ [];
}.

Lemma one_of_spec texts s : one_of texts s = true ↔ s ∈ map py texts.
Proof.
  unfold one_of. rewrite existsb_exists. setoid_rewrite bool_decide_eq_true. rewrite list_elem_of_fmap.
  setoid_rewrite <-list_elem_of_In. split; intros (x & ? & ?); exists x; split; congruence.
Qed.

Lemma within_spec lo hi n : within lo hi n = true ↔ lo ≤ n ≤ hi.
Proof. unfold within. rewrite andb_true_iff, !Z.leb_le. tauto. Qed.

Lemma first_refusal_none vs s : first_refusal vs s = None → Forall (λ v, v s = None) vs.
Proof. induction vs as [|v vs IH]; [constructor|]. cbn. destruct (v s) eqn:E; [done|]. by constructor; [|apply IH]. Qed.

Lemma refuse_if_none c text : refuse_if c text = None → c = false.
Proof. by destruct c. Qed.

Lemma guarded_by c u text : refuse_if (c && unset u) text = None → c = true → u ≠ [].
Proof. intros H%refuse_if_none -> ->. done. Qed.

Lemma field_errors_none np s : field_errors np s = [] → Forall (λ c, c.2 = true) (
  application_checks (application s) ++ observability_checks np (observability s) ++
  postgres_checks np (postgres s) ++ embedding_checks np (embeddings s) ++ generation_checks np (generation s) ++
  graph_checks np (neo4j s) ++ redis_checks np (redis s) ++ kafka_checks np (kafka s) ++
  auth_checks (authentication s) ++ mcp_checks np (mcp s)).
Proof.
  unfold field_errors. intros H%map_eq_nil. apply Forall_forall. intros c Hc.
  assert (E := proj1 (where_nil_iff _ _) H c Hc). cbv beta in E. by apply negb_false_iff in E.
Qed.

(** The constraints of the fields, as propositions. *)
Ltac field_facts H :=
  unfold application_checks, observability_checks, postgres_checks, embedding_checks, generation_checks,
    graph_checks, redis_checks, kafka_checks, auth_checks, mcp_checks, field in H;
  cbn [app] in H;
  repeat match type of H with
         | Forall _ (_ :: _) =>
           let H1 := fresh "Hf" in apply Forall_cons in H as [H1 H]; cbn [snd] in H1;
           match type of H1 with
           | within _ _ _ = true => apply within_spec in H1
           | one_of _ _ = true => apply one_of_spec in H1
           | (_ <=? _) = true => apply Z.leb_le in H1
           | fullmatch _ _ = true => apply fullmatch_lang in H1
           | _ => idtac
           end
         end.

Lemma answer_prompts_read_back v : v ∈ prompt_versions (py "grounded-answer") →
  ∃ t, get_prompt v = Ok t ∧ pt_output_schema t ≠ None.
Proof.
  intros Hv. assert (Hd : v ∈ [py "grounded-answer-v1"; py "grounded-answer-v2"]) by (revert Hv; vm_compute; done).
  rewrite !elem_of_cons in Hd. destruct Hd as [-> |[-> |[]%not_elem_of_nil]].
  - exists GROUNDED_ANSWER_V1. split; [vm_compute; reflexivity|done].
  - exists GROUNDED_ANSWER_V2. split; [vm_compute; reflexivity|done].
Qed.

Lemma scope_reads_back v : v ∈ map py ["PUBLIC"; "INTERNAL"; "CONFIDENTIAL"; "RESTRICTED"]%string →
  ∃ p, privacy_of_json (JStr v) = Ok p.
Proof.
  cbn [map]. rewrite !elem_of_cons. intros [-> |[-> |[-> |[-> |[]%not_elem_of_nil]]]];
    [exists PUBLIC | exists INTERNAL | exists CONFIDENTIAL | exists RESTRICTED];
    match goal with |- ∃ _, _ => idtac | |- _ = Ok ?p => exact (privacy_of_scope_text p) end.
Qed.

Section loading.
Context `{UD : !UnicodeData} (nan_passes : bool).

Lemma load_ok raw s : load nan_passes raw = inl s →
  s = _normalise_log_level raw ∧ field_errors nan_passes s = [] ∧ Forall (λ v, v s = None) validators.
Proof.
  unfold load. destruct (field_errors _ _) eqn:E; [|done]. destruct (first_refusal _ _) eqn:Ev; [done|].
  intros [= <-]. split; [done|]. split; [done|]. by apply first_refusal_none.
Qed.

Lemma loaded_is_well_formed raw s : load nan_passes raw = inl s → well_formed s.
Proof.
  intros (_ & H & Hv)%load_ok. apply field_errors_none in H. field_facts H.
  unfold validators in Hv. rewrite !Forall_cons in Hv. destruct Hv as (_ & H2 & H3 & H4 & _).
  split; try done; try lia.
  - apply refuse_if_none, negb_false_iff, bool_decide_eq_true in H4. by apply answer_prompts_read_back.
  - by apply scope_reads_back.
  - unfold uses_openai. intros Hu Hk. apply refuse_if_none in H3. cbv zeta in H2.
    unfold _require_real_embeddings_when_configured in H2. rewrite Hk in H2, H3.
    change (unset []) with true in *. rewrite andb_true_r in *.
    destruct (bool_decide (embedding_provider _ = _)); [done|]. cbn [orb] in Hu. congruence.
Qed.

Lemma deployed_is_fit raw s : load nan_passes raw = inl s → deployed s = true → fit_to_deploy s.
Proof.
  intros (_ & H & Hv)%load_ok Hd. apply field_errors_none in H. field_facts H.
  unfold validators in Hv. rewrite !Forall_cons in Hv. destruct Hv as (H1 & H2 & _ & _ & _ & H6 & _ & _ & H9 & _).
  unfold _require_database_tls_outside_local in H9. rewrite Hd in H9. cbn [andb] in H9. split.
  - exact (guarded_by _ _ _ H1 Hd).
  - unfold ssl_context. destruct (bool_decide (_ = py "disable")); [done|]. by destruct (bool_decide (_ = py "require")).
  - intros cafile. unfold ssl_context. destruct (bool_decide (_ = py "disable")) eqn:Em; [done|].
    destruct (bool_decide (_ = py "require")) eqn:Er; [done|]. intros [= <-]. apply refuse_if_none in H9.
    apply bool_decide_eq_false in Em, Er.
    assert (Hm : db_ssl_mode (postgres s) = py "verify-full").
    { cbn [map] in *. match goal with H : db_ssl_mode _ ∈ _ |- _ => rewrite !elem_of_cons in H;
        destruct H as [?|[?|[?|[]%not_elem_of_nil]]] end; [done..|]. done. }
    rewrite Hm in H9. rewrite bool_decide_eq_true_2 in H9 by done. by apply bool_decide_eq_false in H9.
  - unfold _require_real_embeddings_when_configured in H2. rewrite Hd in H2.
    destruct (bool_decide (_ = py "openai")) eqn:Ee; [by apply bool_decide_eq_true in Ee|done].
  - unfold _forbid_header_auth_outside_local in H6. rewrite Hd in H6. unfold auth_settings. cbn [st_development_headers].
    destruct (bool_decide _); done.
Qed.

Lemma serving_is_fit raw s : load nan_passes raw = inl s → serving s = true → fit_to_serve s.
Proof.
  intros (_ & _ & Hv)%load_ok Hs. assert (Hd : deployed s = true) by (by apply andb_true_iff in Hs as [? _]).
  unfold validators in Hv. rewrite !Forall_cons in Hv. destruct Hv as (_ & _ & _ & _ & H5 & H6 & H7 & H8 & _).
  split.
  - exact (guarded_by _ _ _ H5 Hs).
  - unfold _forbid_header_auth_outside_local in H6. destruct (deployed s && _); [done|].
    exact (guarded_by _ _ _ H6 Hs).
  - unfold _require_redis_outside_local in H7. rewrite Hs in H7. by destruct (redis_url (redis s)).
  - intros Hm. apply (guarded_by _ _ _ H8). by rewrite Hs, Hm.
Qed.

End loading.

Section type.
Context `{UD : !UnicodeData} (nan_passes : bool).

Lemma normal_level (s : Settings) :
  log_level (application s) ∈ [py "DEBUG"; py "INFO"; py "WARNING"; py "ERROR"; py "CRITICAL"] →
  _normalise_log_level s = s.
Proof.
  destruct s as [[an en pr lv js] o p e g n r k a m]. unfold _normalise_log_level.
  cbn [application app_name environment process_role log_level log_json observability postgres embeddings generation
    neo4j redis kafka authentication mcp].
  intros H. assert (E : upper lv = lv); [|by rewrite E].
  rewrite !elem_of_cons in H. destruct H as [-> |[-> |[-> |[-> |[-> |[]%not_elem_of_nil]]]]]; reflexivity.
Qed.

(** C29. Settings that load are well formed: every field is within the range the rest of
    the program assumes (ports, pools, batches, lifetimes, retries, token and step budgets,
    header and key names), the answer prompt exists and asks for structured output, the
    agent's ceiling is a privacy scope, and a provider that needs a key has one, so the
    providers are built without an error.  In staging and production the database is
    reached over TLS with a password, embeddings are real and the caller's identity is
    never taken from a header; a process that serves traffic there has its graph password,
    its signing key, the shared store, and a token on the metrics.  Loading again changes
    nothing. *)
Theorem loaded_settings_are_well_formed raw s : load nan_passes raw = inl s →
  well_formed s ∧ (deployed s = true → fit_to_deploy s) ∧ (serving s = true → fit_to_serve s) ∧
  (∃ e g, build_embedding_provider s (uses_openai s) = Ok e ∧ build_generation_provider s (uses_openai s) = Ok g) ∧
  load nan_passes s = inl s.
Proof.
  intros H. pose proof (loaded_is_well_formed nan_passes raw s H) as Hw.
  split; [done|]. split; [by apply (deployed_is_fit nan_passes raw)|]. split; [by apply (serving_is_fit nan_passes raw)|].
  pose proof H as (_ & Hf & Hv)%load_ok. split.
  - pose proof Hf as Hc. apply field_errors_none in Hc. field_facts Hc. unfold build_embedding_provider, build_generation_provider, uses_openai.
    assert (Hp : embedding_provider (embeddings s) ∈ map py ["deterministic"; "openai"]%string) by done.
    assert (Hl : llm_provider (generation s) ∈ map py ["disabled"; "openai"]%string) by done.
    cbn [map] in Hp, Hl. rewrite !elem_of_cons in Hp, Hl.
    destruct Hp as [-> |[-> |[]%not_elem_of_nil]], Hl as [-> |[-> |[]%not_elem_of_nil]]; vm_compute; eauto.
  - unfold load. rewrite normal_level by apply Hw. rewrite Hf.
    assert (E : first_refusal validators s = None); [|by rewrite E].
    clear -Hv. induction Hv as [|v vs Hn _ IH]; [done|]. cbn. by rewrite Hn.
Qed.

End type.
