(* ===== verification/Logging.v ===== *)
(** Log records (app/core/logging.py): the filter that puts the correlation id of the
    request on every record, and the JSON line a record is written as. *)

From S2P Require Import Prelude PyStr Json JsonParse.

(** A record: [lr_attributes] are those set on it besides the ones every record has -
    from [extra=], and by filters; [lr_exception] is the text of its traceback. *)
Record LogRecord := {
  lr_level : pystr; lr_logger : pystr; lr_message : pystr;
  lr_attributes : list (pystr * json);
  lr_exception : option pystr;
}.

(** Every attribute of [logging.LogRecord("", 0, "", 0, "", None, None)], and four more. *)
Definition RESERVED_ATTRS : list pystr := map py [
  "name"; "msg"; "args"; "levelname"; "levelno"; "pathname"; "filename"; "module"; "exc_info"; "exc_text";
  "stack_info"; "lineno"; "funcName"; "created"; "msecs"; "relativeCreated"; "thread"; "threadName";
  "processName"; "process"; "message"; "asctime"; "correlation_id"; "taskName"]%string.

Definition text_json (t : option pystr) : json := match t with Some s => JStr s | None => JNull end.

(** [setattr] unless [hasattr] *)
Definition set_absent (name : pystr) (values : list (pystr * json)) (attributes : list (pystr * json)) :
    list (pystr * json) :=
  match assoc name attributes with
  | Some _ => attributes
  | None => fold_left (λ d kv, dict_set kv.1 kv.2 d) values attributes
  end.

(** [CorrelationIdFilter.filter]: [context] is the value of the context variable, [trace]
    the ids of the current span. *)
Definition filter_record (context : option pystr) (trace : option pystr * option pystr) (r : LogRecord) : LogRecord := {|
  lr_level := lr_level r; lr_logger := lr_logger r; lr_message := lr_message r;
  lr_attributes :=
    set_absent (py "trace_id") [(py "trace_id", text_json trace.1); (py "span_id", text_json trace.2)]
      (set_absent (py "correlation_id") [(py "correlation_id", text_json context)] (lr_attributes r));
  lr_exception := lr_exception r |}.

(** [JsonFormatter.format]: the fields of the line, [{**extras, **base}] and the exception;
    [timestamp] is the text of the time of the record. *)
Definition extras_of (r : LogRecord) : list (pystr * json) :=
  where_ (λ a, negb (bool_decide (a.1 ∈ RESERVED_ATTRS)) && negb (startswith (py "_") a.1)) (lr_attributes r).
Definition base_of (timestamp : pystr) (r : LogRecord) : list (pystr * json) := [
  (py "timestamp", JStr timestamp); (py "level", JStr (lr_level r)); (py "logger", JStr (lr_logger r));
  (py "message", JStr (lr_message r));
  (py "correlation_id", default JNull (assoc (py "correlation_id") (lr_attributes r)))].
Definition payload_of (timestamp : pystr) (r : LogRecord) : list (pystr * json) :=
  let payload := fold_left (λ d kv, dict_set kv.1 kv.2 d) (base_of timestamp r) (extras_of r) in
  match lr_exception r with
  | Some text => dict_set (py "exception") (JStr text) payload
  | None => payload
  end.

(** [json.dumps(payload, default=str, ensure_ascii=False)], of attributes that JSON knows. *)
Definition line_options : dump_options := {|
  dump_escape := escape_char; dump_allow_nan := true; dump_item_sep := [44; 32]; dump_key_sep := [58; 32];
  dump_sort_keys := false |}.
Definition format_record `{FloatRepr} (timestamp : pystr) (r : LogRecord) : result pystr :=
  dumps line_options (JObj (payload_of timestamp r)).

(** * Nobody spoofs the core fields *)

Lemma assoc_dict_set k k' v d : assoc k (dict_set k' v d) = if bool_decide (k = k') then Some v else assoc k d.
Proof.
  induction d as [|[k0 v0] d IH]; cbn [dict_set assoc].
  - done.
  - destruct (decide (k' = k0)) as [->|Hn].
    + rewrite (bool_decide_eq_true_2 (k0 = k0)) by done. cbn [assoc]. by destruct (bool_decide (k = k0)).
    + rewrite (bool_decide_eq_false_2 (k' = k0)) by done. cbn [assoc]. rewrite IH.
      destruct (decide (k = k0)) as [->|Hk]; [|by rewrite (bool_decide_eq_false_2 (k = k0))].
      rewrite (bool_decide_eq_true_2 (k0 = k0)) by done. by rewrite bool_decide_eq_false_2.
Qed.

(** Whatever attributes a caller puts on a record, the line has the record's own
    level, logger and message, the time it is given, and the correlation id that the
    filter set from the context - unless the caller set that very attribute. *)
Lemma core_fields_win timestamp context trace r : assoc (py "correlation_id") (lr_attributes r) = None →
  let p := payload_of timestamp (filter_record context trace r) in
  assoc (py "correlation_id") p = Some (text_json context) ∧ assoc (py "level") p = Some (JStr (lr_level r)) ∧
  assoc (py "logger") p = Some (JStr (lr_logger r)) ∧ assoc (py "message") p = Some (JStr (lr_message r)) ∧
  assoc (py "timestamp") p = Some (JStr timestamp).
Proof.
  intros Hn p. assert (Hc : assoc (py "correlation_id") (lr_attributes (filter_record context trace r)) = Some (text_json context)).
  { cbn [filter_record lr_attributes]. unfold set_absent at 2. rewrite Hn. cbn [fold_left fst snd].
    unfold set_absent. destruct (assoc (py "trace_id") _); cbn [fold_left fst snd]; rewrite !assoc_dict_set; reflexivity. }
  subst p. unfold payload_of, base_of. rewrite Hc. cbn [fold_left fst snd lr_exception filter_record lr_level lr_logger lr_message default].
  destruct (lr_exception r) as [t|]; rewrite !assoc_dict_set; split_and!; reflexivity.
Qed.
