(* ===== verification/Http.v ===== *)
(** The layers around the endpoints: correlation ids (app/core/correlation.py), security
    headers (app/core/security.py), request metrics (app/observability/metrics.py),
    health (app/services/readiness.py, app/api/v1/endpoints/health.py), and the stack
    that [create_app] builds of them with the body limit and the idempotency middleware. *)

From stdpp Require Import gmap.
From S2P Require Import Prelude PyStr Json Canonical Regex Validation Access Temporal Database Schema.
From S2P Require Import Calendar Encoding Parsing JsonParse Base64 EvidenceService Tokens Store.
From S2P Require Import Authentication Idempotency Logging.

(** * Response headers *)

Abbreviation headers := (list (bytes * bytes)) (only parsing).

(** The values of a header; ASGI header names are lower case. *)
Definition values_of (name : bytes) (hs : headers) : list bytes :=
  map snd (where_ (λ h, bool_decide (h.1 = name)) hs).

(** Starlette's [MutableHeaders]: [headers[name] = value] and [headers.setdefault]. *)
Class MutableHeaders := {
  set_header : headers → bytes → bytes → headers;
  setdefault : headers → bytes → bytes → headers;
}.
Class MutableHeadersLaws `{MutableHeaders} := {
  set_header_values : ∀ hs name value other,
    values_of other (set_header hs name value) = if bool_decide (other = name) then [value] else values_of other hs;
  setdefault_values : ∀ hs name value other,
    values_of other (setdefault hs name value) =
      if bool_decide (other = name) then match values_of name hs with [] => [value] | vs => vs end
      else values_of other hs;
}.

(** What is sent with every start of a response changed. *)
Definition on_start (f : headers → headers) (m : sent_message) : sent_message :=
  match m with ResponseStart status hs => ResponseStart status (f hs) | m => m end.
Definition is_start (m : sent_message) : bool := match m with ResponseStart _ _ => true | _ => false end.

(** The status of the last start, and before any. *)
Fixpoint status_of (default : Z) (messages : list sent_message) : Z :=
  match messages with
  | [] => default
  | ResponseStart status _ :: rest => status_of status rest
  | _ :: rest => status_of default rest
  end.

(** * Correlation ids *)

Definition correlation_char (c : Z) : bool :=
  is_upper_az c || is_lower_az c || is_digit c || bool_decide (c ∈ [46; 95; 45]).
Definition VALID_CORRELATION_ID : regex := Between 1 128 (Cls correlation_char).

(** [fresh] is the id [uuid4] draws. *)
Definition new_correlation_id (fresh : UUID) : pystr := uuid_str fresh.

Definition resolve_correlation_id (fresh : UUID) (candidate : option pystr) : pystr :=
  match candidate with
  | Some (_ :: _ as c) => if fullmatch VALID_CORRELATION_ID c then c else new_correlation_id fresh
  | _ => new_correlation_id fresh
  end.

(** What is measured of a request for its log record: the time it took, and its span. *)
Record observed := { ob_duration_ms : pyfloat; ob_trace : option pystr * option pystr }.

Definition problem_json : bytes := py "application/problem+json".

Section layers.
Context `{UD : !UnicodeData} `{FP : !FloatRepr} `{MH : !MutableHeaders}.

Definition internal_error_body (correlation_id : pystr) : json := JObj [
  (py "type", JStr (py "about:blank")); (py "title", JStr (py "Internal Server Error"));
  (py "status", JInt 500); (py "code", JStr (py "internal_error"));
  (py "detail", JStr (py "An unexpected error occurred. Quote the correlation ID."));
  (py "correlation_id", JStr correlation_id)].

(** [json.dumps(...).encode()]: ASCII text. *)
Definition body_of (j : json) : bytes := match dumps default_options j with Ok t => t | Err _ => [] end.

(** [str(len(body)).encode()] *)
Definition content_length (body : bytes) : bytes := str_of_int (zlen body).

Definition internal_error (header_name correlation_id : pystr) : list sent_message :=
  let body := body_of (internal_error_body correlation_id) in [
  ResponseStart 500 [(py "content-type", problem_json); (py "content-length", content_length body);
                     (lower header_name, correlation_id)];
  ResponseBody body].

(** The text of the traceback of an exception that is being raised. *)
Context (traceback : exn → pystr).

(** The record [request.completed]. *)
Definition request_completed (request : HttpRequest) (seen : observed) (failed : bool) (status : Z)
    (exception : option pystr) : LogRecord := {|
  lr_level := if failed then py "ERROR" else py "INFO"; lr_logger := py "contextledger.http";
  lr_message := py "request.completed";
  lr_attributes := [(py "http_method", JStr (hr_method request)); (py "http_path", JStr (hr_path request));
                    (py "http_status", JInt status); (py "duration_ms", JFloat (ob_duration_ms seen))];
  lr_exception := exception |}.

(** What [exc_info=True] finds once the exception has been handled. *)
Definition no_exception : pystr := py "NoneType: None".

(** [CorrelationIdMiddleware]: what it sends, what it raises, and the record it logs.  The
    state is the context variable [_correlation_id], set before the application runs,
    read by the filter of the log and reset at the end. *)
Definition correlate (header_name correlation_id : pystr) (request : HttpRequest) (seen : observed)
    (inner : outcome) : ST (option pystr) (outcome * LogRecord) :=
  token ← gets id;
  _ ← modify (λ _, Some correlation_id);
  let sent := map (on_start (λ hs, set_header hs (lower header_name) correlation_id)) (oc_messages inner) in
  let status := status_of 500 (oc_messages inner) in
  let '(o, record) :=
    match oc_raised inner with
    | None => ({| oc_messages := sent; oc_raised := None |}, request_completed request seen false status None)
    | Some e =>
      if existsb is_start (oc_messages inner)
      then ({| oc_messages := sent; oc_raised := Some e |}, request_completed request seen true status (Some (traceback e)))
      else ({| oc_messages := sent ++ internal_error header_name correlation_id; oc_raised := None |},
            request_completed request seen true 500 (Some no_exception))
    end in
  log ← gets (λ context, filter_record context (ob_trace seen) record);
  _ ← modify (λ _, token);
  mret (o, log).

(** * Security headers *)

Definition DOCS_PATHS : list pystr := [py "/docs"; py "/redoc"; py "/openapi.json"].
Definition BASE_HEADERS : list (bytes * bytes) := [
  (py "x-content-type-options", py "nosniff"); (py "x-frame-options", py "DENY");
  (py "referrer-policy", py "no-referrer"); (py "cross-origin-opener-policy", py "same-origin");
  (py "cross-origin-resource-policy", py "same-origin");
  (py "permissions-policy", py "camera=(), microphone=(), geolocation=()")].
Definition API_CSP : bytes := py "default-src 'none'; frame-ancestors 'none'; base-uri 'none'".
Definition HSTS : bytes := py "max-age=31536000; includeSubDomains".

(** The headers a response is given unless it has them, in order. *)
Definition security_headers (hsts : bool) (path : pystr) : list (bytes * bytes) :=
  BASE_HEADERS ++
  (if startswith_any DOCS_PATHS path then []
   else [(py "content-security-policy", API_CSP); (py "cache-control", py "no-store")]) ++
  (if hsts then [(py "strict-transport-security", HSTS)] else []).

Definition with_defaults (defaults hs : headers) : headers :=
  fold_left (λ hs h, setdefault hs h.1 h.2) defaults hs.

Definition secure (hsts : bool) (path : pystr) (inner : outcome) : outcome := {|
  oc_messages := map (on_start (with_defaults (security_headers hsts path))) (oc_messages inner);
  oc_raised := oc_raised inner |}.

(** * The body limit's answers *)

Definition limit_detail (max_bytes : Z) : pystr :=
  py "request body exceeds " ++ str_of_int max_bytes ++ py " bytes".

(** [_reject] *)
Definition reject (max_bytes status : Z) : list sent_message :=
  let large := status =? 413 in
  let body := body_of (JObj [
    (py "type", JStr (py "about:blank"));
    (py "title", JStr (if large then py "Content Too Large" else py "Bad Request"));
    (py "status", JInt status);
    (py "code", JStr (if large then py "payload_too_large" else py "bad_request"));
    (py "detail", JStr (if large then limit_detail max_bytes else py "invalid Content-Length header"))]) in
  [ResponseStart status [(py "content-type", problem_json); (py "content-length", content_length body)];
   ResponseBody body].

(** * Metrics *)

(** [route_template]: [template] is the path of the matched route. *)
Definition route_template (prefix : pystr) (template : option pystr) (path : pystr) : pystr :=
  match template with
  | Some (_ :: _ as t) =>
    if negb (startswith t path) && startswith (prefix ++ py "/") path && negb (startswith prefix t)
    then prefix ++ t else t
  | _ => py "unmatched"
  end.

(** The labels one request is counted and timed under; [/metrics] itself is not. *)
Definition request_labels (prefix method : pystr) (template : option pystr) (path : pystr) (inner : outcome) :
    option (pystr * pystr * Z) :=
  if bool_decide (path = py "/metrics") then None
  else Some (method, route_template prefix template path, status_of 500 (oc_messages inner)).

(** [GET /metrics]; [exposition] is what the registry prints. *)
Definition metrics_endpoint (token authorization : option pystr) (exposition : bytes) : outcome :=
  let ok := match token with
            | None => true
            | Some [] => true
            | Some t => bool_decide (match authorization with Some a => a | None => [] end = py "Bearer " ++ t)
            end in
  if ok then {| oc_messages := [ResponseStart 200 []; ResponseBody exposition]; oc_raised := None |}
  else {| oc_messages := [ResponseStart 401 [(py "www-authenticate", py "Bearer")]; ResponseBody []];
          oc_raised := None |}.

(** * The stack *)

(** What [create_app] sets up: the settings of each layer, outermost last. *)
Record Stack := {
  sk_tokens : TokenService; sk_allow_header_auth : bool; sk_idempotency_ttl : Z; sk_idempotency_lock : Z;
  sk_max_body : Z; sk_correlation_header : pystr; sk_hsts : bool; sk_metrics : bool }.

(** The text of a problem, and its messages. *)
Context (problem_text : problem → bytes).

Definition problem_headers (p : problem) (body : bytes) : headers :=
  map (λ h, (lower (py h.1), h.2)) (pb_headers p) ++
  [(py "content-length", content_length body); (py "content-type", problem_json)].
Definition problem_messages (p : problem) : list sent_message :=
  let body := problem_text p in [ResponseStart (pb_status p) (problem_headers p body); ResponseBody body].

(** The endpoint's exception as the installed handlers answer it, unless a response has
    started. *)
Definition handled (inner : outcome) : outcome :=
  match oc_raised inner with
  | Some e => match handle_error e with
              | Some p => if existsb is_start (oc_messages inner)
                          then {| oc_messages := oc_messages inner; oc_raised := Some (LibraryError "RuntimeError") |}
                          else {| oc_messages := oc_messages inner ++ problem_messages p; oc_raised := None |}
              | None => inner
              end
  | None => inner
  end.

(** What the idempotency middleware sends. *)
Definition admission_outcome (x : admission * outcome) : outcome :=
  match x with
  | (Refuse p, _) => {| oc_messages := problem_messages p; oc_raised := None |}
  | (Replay status hs body, _) =>
    {| oc_messages := [ResponseStart status hs; ResponseBody body]; oc_raised := None |}
  | (_, o) => o
  end.

Context `{JW : !Jwt} `{SH : !Sha256} `{FR : !FloatRead} `{KS : KeyValueStore}.

(** One HTTP request through the layers; [app] is the router with its handlers, the
    answer of the last layer is what the server sends, [context] the context variable as
    the server left it. *)
Definition serve (stack : Stack) (now : Instant) (fresh : UUID) (context candidate : option pystr) (seen : observed)
    (app : list received → nat * outcome) (request : HttpRequest) (messages : list received) :
    KV (outcome * option LogRecord) := λ s,
  let '(r, s') := body_limit (sk_max_body stack) request messages
    (call (sk_tokens stack) (sk_allow_header_auth stack) (sk_idempotency_ttl stack) (sk_idempotency_lock stack)
       now (λ ms, let '(n, o) := app ms in (n, handled o)) request) s in
  let inner := match r with
               | Ok (Through x) => admission_outcome x
               | Ok (Rejected status) => {| oc_messages := reject (sk_max_body stack) status; oc_raised := None |}
               | Err e => {| oc_messages := []; oc_raised := Some e |}
               end in
  if negb (hr_is_http request) then (Ok (inner, None), s') else
  match (correlate (sk_correlation_header stack) (resolve_correlation_id fresh candidate) request seen inner context).1 with
  | Ok (o, log) => (Ok (secure (sk_hsts stack) (hr_path request) o, Some log), s')
  | Err e => (Err e, s')
  end.

End layers.

(** * Health *)

(** What the connection of a probe gives: whether the migration table exists, and the
    revisions in it; an exception of any kind is caught. *)
Record DatabaseProbe := { pd_reachable : bool; pd_current_revision : option pystr; pd_error : option string }.

Definition _current_revision (table_exists : result bool) (revisions : result (list (option pystr))) :
    result (option pystr) :=
  e ← table_exists;
  if negb e then Ok None else
  r ← revisions;
  Ok match r with [] => None | x :: _ => x end.

(** [connect] is the outcome of opening the connection within the time allowed. *)
Definition probe_database (connect : result unit) (table_exists : result bool)
    (revisions : result (list (option pystr))) : DatabaseProbe :=
  match (_ ← connect; _current_revision table_exists revisions) with
  | Ok r => {| pd_reachable := true; pd_current_revision := r; pd_error := None |}
  | Err e => {| pd_reachable := false; pd_current_revision := None; pd_error := Some (exn_name e) |}
  end.

Record ReadinessReport := { rd_database : DatabaseProbe; rd_expected_revision : option pystr }.
Definition ready (r : ReadinessReport) : bool :=
  pd_reachable (rd_database r) && bool_decide (pd_current_revision (rd_database r) ≠ None).
Definition schema_up_to_date (r : ReadinessReport) : bool :=
  match pd_current_revision (rd_database r) with
  | Some c => bool_decide (Some c = rd_expected_revision r)
  | None => false
  end.

Record ReadinessResponse := {
  rz_status : Z; rz_ready : bool; rz_database_up : bool; rz_error : option string;
  rz_current_revision : option pystr; rz_expected_revision : option pystr; rz_up_to_date : bool }.

(** [GET /health/ready], without the latency and the time of the answer. *)
Definition get_readiness (expected_revision : option pystr) (database : DatabaseProbe) : ReadinessResponse :=
  let r := {| rd_database := database; rd_expected_revision := expected_revision |} in {|
  rz_status := if ready r then 200 else 503; rz_ready := ready r; rz_database_up := pd_reachable database;
  rz_error := pd_error database; rz_current_revision := pd_current_revision database;
  rz_expected_revision := expected_revision; rz_up_to_date := schema_up_to_date r |}.

(** Traffic is taken exactly when the database was read and has a revision, however old. *)
Lemma ready_iff_migrated expected connect table_exists revisions :
  rz_status (get_readiness expected (probe_database connect table_exists revisions)) = 200 ↔
  connect = Ok tt ∧ table_exists = Ok true ∧ ∃ c rest, revisions = Ok (Some c :: rest).
Proof.
  unfold get_readiness, probe_database, _current_revision, ready. cbn [rz_status rd_database].
  destruct connect as [[]|e]; [|split; [done|intros [H _]; discriminate H]].
  destruct table_exists as [[]|e]; cbn; [|split; [done|intros (_ & H & _); discriminate H]..].
  destruct revisions as [[|[c|] rest]|e]; cbn; split; try done; try (intros (_ & _ & ? & ? & H); discriminate H).
  intros _. eauto.
Qed.

(** * Every answer carries its correlation id and the headers *)

Lemma resolved_is_safe fresh candidate : lang VALID_CORRELATION_ID (resolve_correlation_id fresh candidate).
Proof.
  assert (Hn : lang VALID_CORRELATION_ID (new_correlation_id fresh)).
  { apply lang_between_cls; [lia|]. unfold new_correlation_id. rewrite length_uuid_str. split; [lia|].
    pose proof (uuid_str_chars fresh) as H. rewrite forallb_forall in H |- *. intros c Hc. specialize (H c Hc).
    unfold uuid_char, correlation_char, is_upper_az, is_lower_az, is_digit, in_range in *.
    rewrite !orb_true_iff, !andb_true_iff, !Z.leb_le, bool_decide_eq_true in *. rewrite Z.eqb_eq in H.
    destruct H as [[H|H]|H]; [left; right; lia|left; left; right; lia|]. right. subst. set_solver. }
  unfold resolve_correlation_id. destruct candidate as [[|c s]|]; [done| |done].
  destruct (fullmatch _ _) eqn:E; [by apply fullmatch_lang|done].
Qed.

Section marked.
Context `{UD : !UnicodeData} `{FP : !FloatRepr} `{MH : !MutableHeaders} {ML : MutableHeadersLaws}.

Lemma with_defaults_keeps name defaults hs : values_of name hs ≠ [] →
  values_of name (with_defaults defaults hs) = values_of name hs.
Proof.
  revert hs. induction defaults as [|[n v] defaults IH]; intros hs Hn; [done|]. unfold with_defaults in *. cbn [fold_left fst snd].
  assert (E : values_of name (setdefault hs n v) = values_of name hs).
  { rewrite setdefault_values. case_bool_decide; [|done]. subst. by destruct (values_of n hs). }
  rewrite IH; [done|]. by rewrite E.
Qed.

Lemma with_defaults_pins name defaults hs v : values_of name hs = [v] →
  values_of name (with_defaults defaults hs) = [v].
Proof. intros H. rewrite with_defaults_keeps; [done|]. by rewrite H. Qed.

Lemma with_defaults_sets name defaults hs : name ∈ map fst defaults → values_of name (with_defaults defaults hs) ≠ [].
Proof.
  revert hs. induction defaults as [|[n v] defaults IH]; intros hs; cbn [map]; [by intros ?%not_elem_of_nil|].
  rewrite elem_of_cons. intros [-> |Hin]; [|by apply IH].
  assert (Hs : values_of n (setdefault hs n v) ≠ []).
  { rewrite setdefault_values, bool_decide_eq_true_2 by done. by destruct (values_of n hs). }
  pose proof (with_defaults_keeps n defaults _ Hs) as E. unfold with_defaults in *. cbn [fold_left fst snd]. by rewrite E.
Qed.

Lemma mapped_start f ms st hs : ResponseStart st hs ∈ map (on_start f) ms → ∃ h, ResponseStart st h ∈ ms ∧ hs = f h.
Proof.
  intros ([st' h|b|] & E & Hin)%list_elem_of_fmap; cbn [on_start] in E; [|done|done].
  injection E as <- ->. by exists h.
Qed.

Context (traceback : exn → pystr).

Lemma correlated_starts header correlation_id request seen inner c o log c' status hs :
  correlate traceback header correlation_id request seen inner c = (Ok (o, log), c') →
  ResponseStart status hs ∈ oc_messages o →
  lower header ∉ [py "content-type"; py "content-length"] →
  values_of (lower header) hs = [correlation_id].
Proof.
  intros Hc Hin Hh.
  assert (Hsent : ResponseStart status hs ∈ map (on_start (λ hs, set_header hs (lower header) correlation_id))
    (oc_messages inner) → values_of (lower header) hs = [correlation_id]).
  { intros (h & _ & ->)%mapped_start. rewrite set_header_values. by rewrite bool_decide_eq_true_2. }
  unfold correlate in Hc. destruct (oc_raised inner) as [e|]; [destruct (existsb _ _)|];
    injection Hc as <- <- <-; cbn [oc_messages] in Hin; [by apply Hsent| |by apply Hsent].
  apply elem_of_app in Hin as [Hin|Hin]; [by apply Hsent|].
  unfold internal_error in Hin. apply elem_of_cons in Hin as [Hin|Hin];
    [|by apply list_elem_of_singleton in Hin].
  injection Hin as _ ->. unfold values_of, where_. cbn [List.filter fst].
  rewrite !elem_of_cons in Hh. rewrite !bool_decide_eq_false_2 by (intros E; apply Hh; rewrite <-E; tauto).
  by rewrite bool_decide_eq_true_2.
Qed.

Lemma correlated_raises header correlation_id request seen inner c o log c' e :
  correlate traceback header correlation_id request seen inner c = (Ok (o, log), c') →
  oc_raised o = Some e → existsb is_start (oc_messages o) = true.
Proof.
  unfold correlate. destruct (oc_raised inner) as [e'|]; [destruct (existsb _ _) eqn:E|]; intros [= <- <- <-]; cbn; try done.
  intros _. rewrite existsb_exists in E |- *. destruct E as (m & Hm & Hs). exists (on_start (λ hs, set_header hs (lower header) correlation_id) m).
  split; [by apply in_map|by destruct m].
Qed.

Lemma status_of_map f d ms : status_of d (map (on_start f) ms) = status_of d ms.
Proof. revert d. induction ms as [|[st h|b|] ms IH]; intros d; cbn; auto. Qed.

Lemma status_of_app d ms ks : status_of d (ms ++ ks) = status_of (status_of d ms) ks.
Proof. revert d. induction ms as [|[st h|b|] ms IH]; intros d; cbn; auto. Qed.

(** The fields of the line of such a record. *)
Lemma completed_line timestamp context request seen failed status exception :
  let p := payload_of timestamp (filter_record context (ob_trace seen) (request_completed request seen failed status exception)) in
  assoc (py "correlation_id") p = Some (text_json context) ∧ assoc (py "http_status") p = Some (JInt status).
Proof.
  split; [by apply core_fields_win|]. destruct exception; unfold payload_of; cbn [lr_exception filter_record request_completed];
    rewrite ?assoc_dict_set; reflexivity.
Qed.

(** The record has the id of the request and the status sent; the context is as before. *)
Lemma correlated_log header correlation_id request seen inner c : ∃ o log,
  correlate traceback header correlation_id request seen inner c = (Ok (o, log), c) ∧
  ∀ timestamp, assoc (py "correlation_id") (payload_of timestamp log) = Some (JStr correlation_id) ∧
    assoc (py "http_status") (payload_of timestamp log) = Some (JInt (status_of 500 (oc_messages o))).
Proof.
  unfold correlate. destruct (oc_raised inner) as [e'|]; [destruct (existsb _ _) eqn:E|];
    (eexists _, _; split; [reflexivity|]; intros timestamp; cbn [oc_messages]; rewrite ?status_of_app, ?status_of_map;
     exact (completed_line timestamp (Some correlation_id) request seen _ _ _)).
Qed.

Context `{JW : !Jwt} `{SH : !Sha256} `{FR : !FloatRead} `{KS : KeyValueStore} (problem_text : problem → bytes).

(** C16. Whatever answers a request - the endpoint, an exception handler, a replayed or
    refused idempotency key, the body limit, or the last resort for an unexpected
    exception - the response that leaves the process carries exactly one correlation id,
    under a configured header other than content-type and content-length; it is the
    one in the log line of the request, read back from the context of the request, and it
    is safe to log (1 to 128 letters, digits, dots, dashes or underscores) whatever the
    client sent; the response has every security header (with HSTS where it is on); the
    status in the log line is the status sent; and an exception escapes only after a
    response had started. *)
Theorem every_response_is_marked stack now fresh context candidate seen app request messages s o log s' :
  serve traceback problem_text stack now fresh context candidate seen app request messages s = (Ok (o, log), s') →
  hr_is_http request = true →
  lower (sk_correlation_header stack) ∉ [py "content-type"; py "content-length"] →
  let id := resolve_correlation_id fresh candidate in
  lang VALID_CORRELATION_ID id ∧
  (∀ status hs, ResponseStart status hs ∈ oc_messages o →
     values_of (lower (sk_correlation_header stack)) hs = [id] ∧
     ∀ h, h ∈ security_headers (sk_hsts stack) (hr_path request) → values_of h.1 hs ≠ []) ∧
  (∀ e, oc_raised o = Some e → existsb is_start (oc_messages o) = true) ∧
  ∃ l, log = Some l ∧ ∀ timestamp,
    assoc (py "correlation_id") (payload_of timestamp l) = Some (JStr id) ∧
    assoc (py "http_status") (payload_of timestamp l) = Some (JInt (status_of 500 (oc_messages o))).
Proof.
  intros H Hhttp Hh id. split; [apply resolved_is_safe|]. unfold serve in H. destruct (body_limit _ _ _ _ _) as [r s1].
  rewrite Hhttp in H. cbn [negb] in H.
  match type of H with context [correlate _ _ _ _ _ ?i _] => set (inner := i) in H end.
  destruct (correlated_log (sk_correlation_header stack) id request seen inner context) as (o1 & l1 & Ec & Hl).
  fold id in H. rewrite Ec in H. cbn [fst] in H. injection H as <- <- <-.
  split; [|split; [|exists l1; split; [done|]]].
  - intros status hs Hin. unfold secure in Hin. cbn [oc_messages] in Hin.
    apply mapped_start in Hin as (h & Hin & ->).
    pose proof (correlated_starts _ _ _ _ _ _ _ _ _ _ _ Ec Hin Hh) as Hv. split.
    + exact (with_defaults_pins _ _ _ _ Hv).
    + intros h' Hh'. apply with_defaults_sets. apply list_elem_of_fmap. eauto.
  - intros e He. pose proof (correlated_raises _ _ _ _ _ _ _ _ _ _ Ec He) as E. unfold secure. cbn [oc_messages].
    rewrite existsb_exists in E |- *. destruct E as (m & Hm & Hs). eexists. split; [by apply in_map|by destruct m].
  - intros timestamp. unfold secure. cbn [oc_messages]. rewrite status_of_map. apply Hl.
Qed.

End marked.
