(* ===== verification/ApiSchemas.v ===== *)
(** Request and response bodies of the REST API: app/schemas/api.py and the bodies that
    the endpoint modules declare.  Parsing JSON into the types of the fields is pydantic's
    work; the bounds that the fields declare, the conversions to the commands of the
    services and the selection of columns for a response are here. *)

From S2P Require Import Grounding.
From S2P Require Import Prelude PyStr Json Canonical Regex Validation Access Temporal History.
From S2P Require Import Database Schema Calendar Accounts AgentClients FactRepo EvidenceService FactService.
From S2P Require Import TemporalService Ranking Retrieval ContradictionService Decisions Revocations.

(** * Bounds *)

Definition in_bounds (lo hi n : Z) : bool := (lo <=? n) && (n <=? hi).
Definition in_bounds_opt (lo hi : Z) (n : option Z) : bool :=
  match n with Some n => in_bounds lo hi n | None => true end.
Definition at_most {A} (n : Z) (l : list A) : bool := zlen l <=? n.

(** A finite decimal between 0 and 1: pydantic refuses an infinity and a NaN. *)
Definition unit_decimal (d : decimal) : bool :=
  match d with Dec _ _ => match decimal_in_unit d with Ok b => b | Err _ => false end | _ => false end.
Definition unit_decimal_opt (d : option decimal) : bool :=
  match d with Some d => unit_decimal d | None => true end.

(** * Requests *)

Record UserCreate := { uc_email : pystr; uc_display_name : pystr }.
Record OrganizationCreate := { oc_name : pystr; oc_slug : pystr }.
Record MemberAdd := { ma_user_id : UUID; ma_role : MembershipRole }.

Record SourceCreate := {
  so_name : pystr; so_source_type : SourceType; so_uri : option pystr; so_default_authority : Z }.
Definition source_create_ok (b : SourceCreate) : bool := in_bounds 0 100 (so_default_authority b).

(** Times of requests carry an offset ([AwareDatetime]). *)
Record FactVersionCreate := {
  fvc_entity_type : pystr; fvc_external_id : pystr; fvc_property : pystr; fvc_value : json;
  fvc_source_id : UUID; fvc_valid_from : Instant; fvc_valid_until : option Instant;
  fvc_observed_at : option Instant; fvc_authority : option Z; fvc_confidence : decimal;
  fvc_privacy_scope : PrivacyScope; fvc_evidence_ids : list UUID }.
Definition fact_version_create_ok (b : FactVersionCreate) : bool :=
  in_bounds_opt 0 100 (fvc_authority b) && unit_decimal (fvc_confidence b) && at_most 100 (fvc_evidence_ids b).
Definition to_command (b : FactVersionCreate) : RecordFactVersion := {|
  rc_entity_type := fvc_entity_type b; rc_external_id := fvc_external_id b; rc_property := fvc_property b;
  rc_value := fvc_value b; rc_source_id := fvc_source_id b; rc_valid_from := Aware (fvc_valid_from b);
  rc_valid_until := option_map Aware (fvc_valid_until b); rc_observed_at := option_map Aware (fvc_observed_at b);
  rc_authority := option_map PyInt (fvc_authority b); rc_confidence := Some (fvc_confidence b);
  rc_privacy_scope := fvc_privacy_scope b; rc_evidence_ids := fvc_evidence_ids b |}.

Record EvidenceCreate := {
  ec_source_id : UUID; ec_evidence_type : EvidenceType; ec_excerpt : pystr; ec_captured_at : Instant;
  ec_uri : option pystr; ec_metadata : json; ec_privacy_scope : PrivacyScope }.
Record EvidenceAttach := { ea_evidence_id : UUID; ea_relation : EvidenceRelation }.

Record SearchRequest `{ScoreOps} := {
  sq_query : pystr; sq_limit : Z; sq_valid_at : option Instant; sq_known_at : option Instant;
  sq_entity_type : option pystr; sq_external_ids : list pystr; sq_properties : list pystr;
  sq_source_ids : list UUID; sq_min_authority : option Z; sq_min_confidence : option decimal;
  sq_max_privacy_scope : option PrivacyScope; sq_trust_weight : score }.
Definition search_request_ok `{ScoreOps} (b : SearchRequest) : bool :=
  in_bounds 1 MAX_LIMIT (sq_limit b) && at_most 100 (sq_external_ids b) && at_most 100 (sq_properties b)
  && at_most 100 (sq_source_ids b) && in_bounds_opt 0 100 (sq_min_authority b)
  && unit_decimal_opt (sq_min_confidence b) && s_leb s_zero (sq_trust_weight b) && s_leb (sq_trust_weight b) s_one.
(** [SearchRequest.to_query] *)
Definition to_query `{ScoreOps} (b : SearchRequest) : RetrievalQuery := {|
  rq_query := sq_query b; rq_limit := sq_limit b; rq_valid_at := option_map Aware (sq_valid_at b);
  rq_known_at := option_map Aware (sq_known_at b); rq_entity_type := sq_entity_type b;
  rq_external_ids := sq_external_ids b; rq_properties := sq_properties b; rq_source_ids := sq_source_ids b;
  rq_min_authority := sq_min_authority b; rq_min_confidence := option_map Some (sq_min_confidence b);
  rq_max_privacy_scope := sq_max_privacy_scope b; rq_trust_weight := sq_trust_weight b |}.

Record DecisionCreate := {
  dc_snapshot_id : UUID; dc_action : pystr; dc_outcome : json; dc_relied_on : list UUID;
  dc_rationale : option pystr; dc_agent : option pystr }.
Definition decision_create_ok (b : DecisionCreate) : bool :=
  at_most 50 (dc_relied_on b) && match dc_rationale b with Some r => at_most 4000 r | None => true end.
Definition to_record (b : DecisionCreate) : RecordDecision := {|
  rd_snapshot_id := dc_snapshot_id b; rd_action := dc_action b; rd_outcome := dc_outcome b;
  rd_relied_on := dc_relied_on b; rd_rationale := dc_rationale b; rd_agent := dc_agent b |}.

Record AgentClientCreate := {
  agc_name : pystr; agc_role : MembershipRole; agc_scopes : list Permission; agc_privacy_ceiling : PrivacyScope }.
Definition agent_client_create_ok (b : AgentClientCreate) : bool := 1 <=? zlen (agc_scopes b).

Record RevokeRequest := { rv_reason : pystr; rv_version_id : option UUID }.
Definition revoke_request_ok (b : RevokeRequest) : bool := in_bounds 1 MAX_REASON_CHARS (zlen (rv_reason b)).

(** [Literal["resolved", "dismissed"]] *)
Inductive ClosingStatus := Closing_resolved | Closing_dismissed.
Record ContradictionUpdate := { cu_status : ClosingStatus; cu_note : option pystr }.
Definition contradiction_update_ok (b : ContradictionUpdate) : bool :=
  match cu_note b with Some n => at_most 2000 n | None => true end.

Record AnswerRequest := {
  aw_question : pystr; aw_valid_at : option Instant; aw_known_at : option Instant; aw_limit : Z;
  aw_entity_type : option pystr; aw_external_ids : list pystr; aw_properties : list pystr;
  aw_max_privacy_scope : option PrivacyScope }.
Definition answer_request_ok (b : AnswerRequest) : bool :=
  in_bounds 1 Grounding.MAX_QUESTION_CHARS (zlen (aw_question b)) && in_bounds 1 20 (aw_limit b)
  && at_most 100 (aw_external_ids b) && at_most 100 (aw_properties b).
(** [AnswerRequest.to_query] *)
Definition to_answer_query (b : AnswerRequest) : AnswerQuery := {|
  aq_question := aw_question b; aq_valid_at := option_map Aware (aw_valid_at b);
  aq_known_at := option_map Aware (aw_known_at b); aq_limit := aw_limit b; aq_entity_type := aw_entity_type b;
  aq_external_ids := aw_external_ids b; aq_properties := aw_properties b;
  aq_max_privacy_scope := aw_max_privacy_scope b |}.

Record InvestigationRequest := { iq_question : pystr }.

(** * Responses; creation times that the tables of the model do not keep are left out *)

Record UserOut := { uo_id : UUID; uo_email : pystr; uo_display_name : pystr; uo_is_active : bool }.
Definition user_out (u : user) : UserOut :=
  {| uo_id := u_id u; uo_email := u_email u; uo_display_name := u_display_name u; uo_is_active := u_is_active u |}.

Record OrganizationOut := { oo_id : UUID; oo_name : pystr; oo_slug : pystr }.
Definition organization_out (o : organization) : OrganizationOut :=
  {| oo_id := o_id o; oo_name := o_name o; oo_slug := o_slug o |}.

Record MemberOut := { mo_user_id : UUID; mo_role : MembershipRole; mo_created_at : Instant }.
Definition member_out (m : membership) : MemberOut :=
  {| mo_user_id := m_user_id m; mo_role := m_role m; mo_created_at := m_created_at m |}.

Record SourceOut := {
  sr_id : UUID; sr_name : pystr; sr_source_type : SourceType; sr_uri : option pystr; sr_default_authority : Z }.
Definition source_out (s : fact_source) : SourceOut :=
  {| sr_id := s_id s; sr_name := s_name s; sr_source_type := s_source_type s; sr_uri := s_uri s;
     sr_default_authority := s_default_authority s |}.

(** [FactVersionOut] has the fields of a version snapshot. *)
Definition fact_version_out (v : fact_version) : VersionSnapshot := to_snapshot v.

Record EvidenceOut := {
  eo_id : UUID; eo_source_id : UUID; eo_evidence_type : EvidenceType; eo_excerpt : pystr;
  eo_content_sha256 : pystr; eo_uri : option pystr; eo_privacy_scope : PrivacyScope; eo_captured_at : Instant;
  eo_recorded_at : Instant }.
Definition evidence_out (e : evidence) : EvidenceOut :=
  {| eo_id := ev_id e; eo_source_id := ev_source_id e; eo_evidence_type := ev_evidence_type e;
     eo_excerpt := ev_excerpt e; eo_content_sha256 := ev_content_sha256 e; eo_uri := ev_uri e;
     eo_privacy_scope := ev_privacy_scope e; eo_captured_at := ev_captured_at e; eo_recorded_at := ev_recorded_at e |}.

Record CapturedEvidenceOut := { ceo_evidence : EvidenceOut; ceo_created : bool }.
Record AttachResult := { at_linked : bool }.
Record LinkedEvidenceOut := {
  le_evidence : EvidenceOut; le_source : SourceOut; le_relation : EvidenceRelation; le_linked_at : Instant;
  le_linked_by_user_id : option UUID }.
Record ProvenanceOut := {
  po_version : VersionSnapshot; po_source : SourceOut; po_evidence : list LinkedEvidenceOut;
  po_withheld_evidence : Z }.

Record EntityFactsOut := { ef_facts : list ResolvedFact; ef_withheld : Z }.
Record EntityTimelineOut := { et_entries : list TimelineEntry; et_withheld : Z }.

Record DecisionRefs := { df_decision_ids : list UUID }.

Record AgentClientOut := {
  ao_id : UUID; ao_name : pystr; ao_client_id : pystr; ao_service_user_id : UUID;
  ao_allowed_scopes : list pystr; ao_privacy_ceiling : PrivacyScope; ao_created_at : Instant;
  ao_revoked_at : option Instant }.
Definition agent_client_out (c : agent_client) : AgentClientOut :=
  {| ao_id := ac_id c; ao_name := ac_name c; ao_client_id := ac_client_id c;
     ao_service_user_id := ac_service_user_id c; ao_allowed_scopes := ac_allowed_scopes c;
     ao_privacy_ceiling := ac_privacy_ceiling c; ao_created_at := ac_created_at c; ao_revoked_at := ac_revoked_at c |}.
Record AgentClientCreated := { cao_client : AgentClientOut; cao_client_secret : pystr }.

Record TokenResponse := {
  tk_access_token : pystr; tk_token_type : pystr; tk_expires_in : Z; tk_scope : option pystr }.
Definition token_response (access_token : pystr) (expires_in : Z) (scope : option pystr) : TokenResponse :=
  {| tk_access_token := access_token; tk_token_type := py "Bearer"; tk_expires_in := expires_in; tk_scope := scope |}.

(** * The bounds of the schemas and the checks of the services *)

Lemma in_bounds_spec lo hi n : in_bounds lo hi n = true ↔ lo ≤ n ≤ hi.
Proof. unfold in_bounds. rewrite andb_true_iff, !Z.leb_le. tauto. Qed.

Lemma too_many_ok {A} (l : list A) : at_most 100 l = true → too_many l = Ok tt.
Proof.
  unfold at_most, too_many, MAX_FILTER_VALUES, ensure. rewrite Z.leb_le. intros H.
  by rewrite (proj2 (Z.ltb_ge 100 (zlen l)) H).
Qed.

Lemma unit_decimal_cases d : unit_decimal d = true → ∃ m e, d = Dec m e ∧ decimal_in_unit d = Ok true.
Proof. destruct d as [m e| |]; try done. unfold unit_decimal. destruct (decimal_in_unit _) as [[]|] eqn:E; [|done..]. eauto. Qed.

(** Rounding keeps what lies between two integers. *)
Lemma round_half_even_bounds m k hi : 0 ≤ k → 0 ≤ m ≤ hi * 10 ^ k → 0 ≤ round_half_even m k ≤ hi.
Proof.
  intros Hk [H0 H1]. unfold round_half_even. set (d := 10 ^ k). assert (Hd : 0 < d) by (apply Z.pow_pos_nonneg; lia).
  pose proof (Z.div_mod m d ltac:(lia)) as Hm. pose proof (Z.mod_pos_bound m d Hd) as Hr.
  set (q := m / d) in *. set (r := m mod d) in *. fold d in H1.
  assert (Hq : 0 ≤ q) by (apply Z.div_pos; lia).
  assert (Hle : q ≤ hi) by nia. assert (Hlt : 0 < r → q + 1 ≤ hi) by (intros; nia).
  destruct (Z.ltb_spec (2 * r) d); [lia|]. destruct (Z.ltb_spec d (2 * r)); [lia|]. destruct (Z.even q); lia.
Qed.

Lemma unit_confidence_normalizes d : unit_decimal d = true → ∃ n, normalize_confidence (Some d) = Ok n ∧ 0 ≤ n ≤ 1000.
Proof.
  intros (m & e & -> & H)%unit_decimal_cases. cbn [decimal_in_unit] in H. injection H as H.
  apply andb_true_iff in H as [H0%Z.leb_le H1]. unfold normalize_confidence, quantize_thousandths.
  set (q := if -3 <=? e then m * 10 ^ (e + 3) else round_half_even m (- (e + 3))).
  assert (Hq : 0 ≤ q ≤ 1000).
  { unfold q. destruct (Z.leb_spec (-3) e) as [He|He].
    - destruct (Z.leb_spec 0 e) as [Hp|Hn]; apply Z.leb_le in H1.
      + rewrite Z.pow_add_r by lia. change (10 ^ 3) with 1000.
        pose proof (Z.pow_pos_nonneg 10 e ltac:(lia) Hp). nia.
      + assert (E : 10 ^ (- e) * 10 ^ (e + 3) = 10 ^ 3) by (rewrite <-Z.pow_add_r by lia; f_equal; lia).
        change (10 ^ 3) with 1000 in E.
        pose proof (Z.pow_pos_nonneg 10 (e + 3) ltac:(lia) ltac:(lia)). nia.
    - rewrite (proj2 (Z.leb_gt 0 e)) in H1 by lia. apply Z.leb_le in H1.
      apply round_half_even_bounds; [lia|]. split; [done|].
      assert (E : 1000 * 10 ^ (- (e + 3)) = 10 ^ (- e)); [|lia].
      change 1000 with (10 ^ 3). rewrite <-Z.pow_add_r by lia. f_equal. lia. }
  exists q. destruct (Z.leb_spec (10 ^ 28) (Z.abs q)) as [Hb|_].
  - exfalso. assert (1000 < 10 ^ 28) by (vm_compute; reflexivity). lia.
  - rewrite (proj2 (Z.leb_le 0 q)), (proj2 (Z.leb_le q 1000)) by lia. done.
Qed.

Section accepted.
Context `{SO : !ScoreOps} `{UD : !UnicodeData}.

(** C30. What the schemas accept, the services' numeric checks accept: a search that
    passes its schema passes the checks of the limit, of the trust weight, of the number
    of filter values and of both minima, so that only its texts can be refused; a fact
    version that passes its schema has an authority the service takes as it is and a
    confidence between 0 and 1000 thousandths, so the comparison with a NaN that the
    service does not guard is never reached; and a decision cites no more versions, with
    no longer a rationale, than the service allows. *)
Theorem accepted_numbers_are_valid :
  (∀ b, search_request_ok b = true →
     validate_limit (sq_limit b) = Ok (sq_limit b) ∧
     validate_trust_weight (sq_trust_weight b) = Ok (sq_trust_weight b) ∧
     normalize_min_confidence (rq_min_confidence (to_query b)) = Ok (sq_min_confidence b) ∧
     normalize_filters (to_query b) =
       (entity_type ← match sq_entity_type b with
                      | None => Ok None
                      | Some t => t' ← normalize_identifier t; Ok (Some t')
                      end;
        external_ids ← mapR normalize_external_id (sq_external_ids b);
        properties ← mapR normalize_identifier (sq_properties b);
        Ok {| fl_entity_type := entity_type; fl_external_ids := sorted_texts external_ids;
              fl_properties := sorted_texts properties;
              fl_source_ids := sort_on id (dict_fromkeys (sq_source_ids b));
              fl_min_authority := sq_min_authority b; fl_min_confidence := sq_min_confidence b |})) ∧
  (∀ b, fact_version_create_ok b = true →
     (∀ n, fvc_authority b = Some n → rc_authority (to_command b) = Some (PyInt n) ∧ validate_authority (PyInt n) = Ok n) ∧
     ∃ n, normalize_confidence (rc_confidence (to_command b)) = Ok n ∧ 0 ≤ n ≤ 1000) ∧
  (∀ b, decision_create_ok b = true →
     zlen (rd_relied_on (to_record b)) ≤ MAX_RELIED_ON ∧
     ∀ r, rd_rationale (to_record b) = Some r → zlen r ≤ MAX_RATIONALE_CHARS).
Proof.
  split; [|split].
  - intros b H. unfold search_request_ok in H. rewrite !andb_true_iff in H.
    destruct H as [[[[[[[Hl Hx] Hp] Hs] Ha] Hc] Hw0] Hw1].
    assert (Ec : normalize_min_confidence (rq_min_confidence (to_query b)) = Ok (sq_min_confidence b)).
    { cbn [to_query rq_min_confidence]. destruct (sq_min_confidence b) as [d|]; [|done].
      cbn [unit_decimal_opt option_map] in *. apply unit_decimal_cases in Hc as (m & e & -> & E).
      unfold normalize_min_confidence. by rewrite E. }
    split_and!; try done.
    + apply in_bounds_spec in Hl. apply validate_limit_ok. done.
    + unfold validate_trust_weight. by rewrite Hw0, Hw1.
    + unfold normalize_filters. cbn [to_query rq_external_ids rq_properties rq_source_ids rq_min_authority
        rq_entity_type rq_min_confidence] in *.
      rewrite !too_many_ok by done. rewrite Ec. unfold ensure.
      assert (E : match sq_min_authority b with Some a => (0 <=? a) && (a <=? 100) | None => true end = true).
      { destruct (sq_min_authority b); [exact Ha|done]. }
      by rewrite E.
  - intros b H. unfold fact_version_create_ok in H. rewrite !andb_true_iff in H. destruct H as [[Ha Hc] _].
    split; [|by apply unit_confidence_normalizes].
    intros n E. cbn [to_command rc_authority]. rewrite E in Ha |- *. cbn [in_bounds_opt] in Ha.
    split; [done|]. unfold validate_authority, in_bounds in *. by rewrite Ha.
  - intros b H. unfold decision_create_ok, at_most in H. rewrite andb_true_iff, Z.leb_le in H. destruct H as [Hr Ht].
    split; [exact Hr|]. intros r E. cbn [to_record rd_rationale] in E. rewrite E in Ht. by apply Z.leb_le in Ht.
Qed.

End accepted.
