(* ===== verification/Api.v ===== *)
(** The REST endpoints of app/api/v1/endpoints: each acts for a tenant context that
    app/api/dependencies.py derives from the request, calls a service, and selects what the
    caller may see.  A handler runs in the world of the process (the database, the shared
    store and the provenance graph). *)

From stdpp Require Import gmap.
From S2P Require Import Grounding.
From S2P Require Import Prelude PyStr Json Canonical Regex Validation Access Temporal History.
From S2P Require Import Database Schema Calendar Secrets Tokens Accounts AgentClients FactRepo.
From S2P Require Import EvidenceService FactService JsonParse TemporalService Ranking Generation Retrieval.
From S2P Require Import ContradictionService Store Authentication Idempotency McpState RetrievalCache.
From S2P Require Import Consumers Decisions Revocations ProvenanceGraph Provenance Investigator.
From S2P Require Import Providers Config World ApiSchemas.

(** What [create_app] puts into [app.state]. *)
Record ApiState `{ScoreOps} := {
  as_settings : Config.Settings; as_tokens : TokenService; as_cache : ResultCache kv;
  as_graph_reader : bool; as_generator : option GenerationProvider }.

Record reply (A : Type) := { rp_status : Z; rp_body : A }.
Arguments rp_status {A} r.
Arguments rp_body {A} r.
Definition ok {A} (a : A) : reply A := {| rp_status := 200; rp_body := a |}.
Definition created {A} (a : A) : reply A := {| rp_status := 201; rp_body := a |}.

(** FastAPI's answer to a body or parameter that its schema refuses. *)
Definition RequestValidationError : exn := LibraryError "RequestValidationError".

(** The status of an exception: the installed handlers, and 500 for the rest. *)
Definition error_status (e : exn) : Z :=
  if bool_decide (e = RequestValidationError) then 422
  else match handle_error e with Some p => pb_status p | None => 500 end.

Definition ok_if {A} (valid : bool) (m : ST world A) : ST world A :=
  if valid then m else raise RequestValidationError.

(** ** auth.py: the answers of the token endpoint *)

Inductive token_answer :=
  | OAuthError (status : Z) (error : string) (retry_after : option Z)
  | TokenIssued (body : TokenResponse).

Definition token_status (a : token_answer) : Z := match a with OAuthError s _ _ => s | TokenIssued _ => 200 end.

Section api.
Context `{UD : !UnicodeData} `{FR : !FloatRepr} `{FD : !FloatRead} `{ET : !ExceptionText} `{SH : !Sha256} `{JB : !Jsonb}.
Context `{SO : !ScoreOps} `{SE : !SearchEngine} `{RT : !RequestText} `{JL : !JsonLoads} `{PD : !Pydantic}.
Context `{SC : !Scrypt} `{JW : !Jwt} `{KS : KeyValueStore}.

(** The state of the application, its clock and the index of the store; what other
    transactions do between the transactions of one call, and what else happens between
    the steps of a request. *)
Context (app : ApiState) (clock : Instant) (index : search_index).
Context (others : db → db) (elsewhere : world → world).

Abbreviation settings := (as_settings app) (only parsing).

(** * dependencies.py *)

Definition WINDOW_SECONDS : Z := 60.

(** [PrincipalDep] *)
Definition principal_dep (request : Request) : ST world Principal :=
  in_kv (get_principal WINDOW_SECONDS (as_tokens app) (auth_settings settings) clock request).

(** [TenantDep], for the organization in the path. *)
Definition tenant_dep (organization_id : UUID) (request : Request) : ST world TenantContext :=
  principal ← principal_dep request;
  ctx ← in_db (get_tenant others organization_id principal);
  _ ← modify elsewhere;
  mret ctx.

(** [get_graph_reader] and [get_generation_provider] *)
Definition get_graph_reader : ST world unit :=
  if as_graph_reader app then mret ()
  else raise (ServiceUnavailableError "the provenance graph (Neo4j) is not configured").
Definition get_generation_provider : ST world GenerationProvider :=
  match as_generator app with
  | Some g => mret g
  | None => raise (ServiceUnavailableError "LLM generation is disabled (set CONTEXTLEDGER_LLM_PROVIDER=openai)")
  end.

(** * facts.py *)

Definition _visible (ctx : TenantContext) : list PrivacyScope :=
  visible_privacy_scopes (ctx_role ctx) [ctx_max_privacy_scope ctx].

Definition sees (ctx : TenantContext) (s : VersionSnapshot) : bool :=
  bool_decide (vs_privacy_scope s ∈ _visible ctx).
Definition _all_visible (versions : list (option VersionSnapshot)) (ctx : TenantContext) : bool :=
  forallb (λ v, match v with None => true | Some s => sees ctx s end) versions.

Definition register_source (body : SourceCreate) (ctx : TenantContext) : ST world (reply SourceOut) :=
  ok_if (source_create_ok body) (
    s ← in_db (FactService.register_source ctx (so_name body) (so_source_type body) (so_uri body)
                 (PyInt (so_default_authority body)));
    mret (created (source_out s))).

Definition list_sources (ctx : TenantContext) : ST world (reply (list SourceOut)) :=
  rows ← in_db (EvidenceService.list_sources ctx); mret (ok (map source_out rows)).

Definition get_source (source_id : UUID) (ctx : TenantContext) : ST world (reply SourceOut) :=
  s ← in_db (EvidenceService.get_source ctx source_id); mret (ok (source_out s)).

(** The write is committed before the organization's cached results are orphaned. *)
Definition record_fact_version (body : FactVersionCreate) (ctx : TenantContext) : ST world (reply VersionSnapshot) :=
  ok_if (fact_version_create_ok body) (
    version ← in_db (FactService.record_version ctx (to_command body));
    _ ← in_kv (invalidate (ctx_organization_id ctx));
    mret (created (fact_version_out version))).

Definition entity_facts (entity_type external_id : pystr) (valid_at known_at : option Instant)
    (ctx : TenantContext) : ST world (reply EntityFactsOut) :=
  facts ← in_db (facts_at clock ctx entity_type external_id (option_map Aware valid_at) (option_map Aware known_at));
  let shown := where_ (λ f, sees ctx (rf_version f)) facts in
  mret (ok {| ef_facts := shown; ef_withheld := zlen facts - zlen shown |}).

Definition entity_timeline (entity_type external_id : pystr) (known_at : option Instant) (ctx : TenantContext) :
    ST world (reply EntityTimelineOut) :=
  entries ← in_db (TemporalService.entity_timeline ctx entity_type external_id (option_map Aware known_at));
  let shown := where_ (λ e, sees ctx (te_version e)) entries in
  mret (ok {| et_entries := shown; et_withheld := zlen entries - zlen shown |}).

Definition entity_changes (entity_type external_id : pystr) (start end_ : Instant) (known_at : option Instant)
    (ctx : TenantContext) : ST world (reply (list FactChange)) :=
  changes ← in_db (changes_between ctx entity_type external_id (Aware start) (Aware end_) (option_map Aware known_at));
  mret (ok (where_ (λ c, _all_visible (fc_before c :: fc_after c :: map Some (fc_transitions c)) ctx) changes)).

Definition fact_history (fact_id : UUID) (known_at : option Instant) (ctx : TenantContext) :
    ST world (reply (list VersionSnapshot)) :=
  versions ← in_db (history ctx fact_id (option_map Aware known_at));
  mret (ok (where_ (sees ctx) versions)).

Definition version_lineage (version_id : UUID) (ctx : TenantContext) : ST world (reply Lineage) :=
  l ← in_db (lineage ctx version_id);
  if _all_visible (map Some (ln_version l :: ln_ancestors l ++ ln_descendants l)) ctx then mret (ok l)
  else raise (NotFoundError "fact version not found").

Definition capture_evidence (body : EvidenceCreate) (ctx : TenantContext) : ST world (reply CapturedEvidenceOut) :=
  captured ← in_db (EvidenceService.capture_evidence ctx (ec_source_id body) (ec_evidence_type body)
                      (ec_excerpt body) (Aware (ec_captured_at body)) (ec_uri body) (ec_metadata body)
                      (ec_privacy_scope body));
  mret {| rp_status := if captured.2 : bool then 201 else 200;
          rp_body := {| ceo_evidence := evidence_out captured.1; ceo_created := captured.2 |} |}.

Definition attach_evidence (version_id : UUID) (body : EvidenceAttach) (ctx : TenantContext) :
    ST world (reply AttachResult) :=
  linked ← in_db (attach ctx version_id (ea_evidence_id body) (ea_relation body));
  mret (ok {| at_linked := linked |}).

Definition linked_evidence_out (row : evidence_link * evidence * fact_source) : LinkedEvidenceOut :=
  let '(l, e, s) := row in
  {| le_evidence := evidence_out e; le_source := source_out s; le_relation := l_relation l;
     le_linked_at := l_linked_at l; le_linked_by_user_id := l_linked_by_user_id l |}.

Definition version_provenance (version_id : UUID) (ctx : TenantContext) : ST world (reply ProvenanceOut) :=
  p ← in_db (provenance ctx version_id);
  let '(version, source, rows) := p in
  if negb (sees ctx version) then raise (NotFoundError "fact version not found") else
  let shown := where_ (λ r, bool_decide (ev_privacy_scope r.1.2 ∈ _visible ctx)) rows in
  mret (ok {| po_version := version; po_source := source_out source;
              po_evidence := map linked_evidence_out shown; po_withheld_evidence := zlen rows - zlen shown |}).

(** * search.py and decisions.py *)

Definition search (body : SearchRequest) (ctx : TenantContext) : ST world (reply RetrievalResult) :=
  ok_if (search_request_ok body) (
    r ← in_db_kv (Retrieval.search (Some (as_cache app)) clock others index ctx (to_query body));
    mret (ok r)).

Definition capture_context (body : SearchRequest) (ctx : TenantContext) : ST world (reply CapturedContext) :=
  ok_if (search_request_ok body) (
    c ← in_db (Decisions.capture_context clock others index ctx (to_query body)); mret (created c)).

Definition record_decision (body : DecisionCreate) (ctx : TenantContext) : ST world (reply DecisionReceipt) :=
  ok_if (decision_create_ok body) (
    r ← in_db (Decisions.record_decision ctx (to_record body)); mret (created r)).

Definition get_receipt (decision_id : UUID) (ctx : TenantContext) : ST world (reply DecisionReceipt) :=
  r ← in_db (receipt reloaded ctx decision_id); mret (ok r).

Definition decisions_relying_on (version_id : UUID) (ctx : TenantContext) : ST world (reply DecisionRefs) :=
  ids ← in_db (Decisions.decisions_relying_on ctx version_id); mret (ok {| df_decision_ids := ids |}).

(** * contradictions.py *)

Definition list_contradictions (status : option ContradictionStatus) (entity_type external_id : option pystr)
    (limit : Z) (ctx : TenantContext) : ST world (reply (list ContradictionView)) :=
  ok_if (in_bounds 1 MAX_CONTRADICTIONS limit) (
    l ← in_db (ContradictionService.list_contradictions ctx status entity_type external_id limit); mret (ok l)).

Definition get_contradiction (contradiction_id : UUID) (ctx : TenantContext) : ST world (reply ContradictionView) :=
  v ← in_db (ContradictionService.get_contradiction ctx contradiction_id); mret (ok v).

(** [ContradictionStatus(body.status)] *)
Definition closing_status (s : ClosingStatus) : ContradictionStatus :=
  match s with Closing_resolved => RESOLVED | Closing_dismissed => DISMISSED end.

Definition update_contradiction (contradiction_id : UUID) (body : ContradictionUpdate) (ctx : TenantContext) :
    ST world (reply ContradictionView) :=
  ok_if (contradiction_update_ok body) (
    v ← in_db (resolve_contradiction clock ctx contradiction_id (closing_status (cu_status body)) (cu_note body));
    mret (ok v)).

Definition review_entity (entity_type external_id : pystr) (ctx : TenantContext) : ST world (reply ReviewResult) :=
  generator ← get_generation_provider;
  r ← in_db (ContradictionService.review_entity (GP := generator) clock ctx entity_type external_id
               (llm_max_output_tokens (generation settings)));
  mret (ok r).

(** * revocations.py *)

Definition revoke (fact_id : UUID) (body : RevokeRequest) (ctx : TenantContext) : ST world (reply RevocationReport) :=
  ok_if (revoke_request_ok body) (
    report ← in_db (Revocations.revoke ctx fact_id (rv_reason body) (rv_version_id body));
    _ ← in_kv (invalidate (ctx_organization_id ctx));
    mret (created report)).

Definition fact_impact (fact_id : UUID) (ctx : TenantContext) : ST world (reply (list RevocationReport)) :=
  l ← in_db (impact_of_fact ctx fact_id); mret (ok l).

Definition version_revocation (version_id : UUID) (ctx : TenantContext) : ST world (reply RevocationReport) :=
  r ← in_db (impact_of_version ctx version_id); mret (ok r).

Definition list_revocations (limit : Z) (ctx : TenantContext) : ST world (reply (list RevocationReport)) :=
  ok_if (in_bounds 1 MAX_LIST limit) (
    l ← in_db (Revocations.list_revocations ctx limit); mret (ok l)).

(** * provenance.py; [graph_others] is what happens between the reads of the graph *)

Section graph.
Context (graph_others : db * graph → db * graph).

Definition impact_of_fact_version (version_id : UUID) (ctx : TenantContext) : ST world (reply ImpactReport) :=
  _ ← get_graph_reader;
  r ← in_db_graph (Provenance.impact_of_fact_version graph_others ctx version_id); mret (ok r).
Definition impact_of_source (source_id : UUID) (ctx : TenantContext) : ST world (reply ImpactReport) :=
  _ ← get_graph_reader;
  r ← in_db_graph (Provenance.impact_of_source graph_others ctx source_id); mret (ok r).
Definition impact_of_evidence (evidence_id : UUID) (ctx : TenantContext) : ST world (reply ImpactReport) :=
  _ ← get_graph_reader;
  r ← in_db_graph (Provenance.impact_of_evidence graph_others ctx evidence_id); mret (ok r).
Definition decision_lineage (decision_id : UUID) (ctx : TenantContext) : ST world (reply DecisionLineage) :=
  _ ← get_graph_reader;
  r ← in_db_graph (Provenance.decision_lineage graph_others ctx decision_id); mret (ok r).

End graph.

(** * activity.py; [today] is the date of the process *)

Definition activity (days today : Z) (ctx : TenantContext) : ST world (reply ActivityReport) :=
  ok_if (in_bounds 1 MAX_DAYS days) (r ← in_db (activity_recent ctx days today); mret (ok r)).

(** * answers.py and investigations.py *)

Definition answer (body : AnswerRequest) (ctx : TenantContext) : ST world (reply GroundedAnswer) :=
  generator ← get_generation_provider;
  ok_if (answer_request_ok body) (
    prompt ← lift (get_prompt (llm_answer_prompt_version (generation settings)));
    a ← in_db_kv (Grounding.answer (GP := generator)
          (Retrieval.search (Some (as_cache app)) clock others index) prompt
          (llm_max_output_tokens (generation settings)) (llm_temperature (generation settings)) ctx
          (to_answer_query body));
    mret (ok a)).

Definition investigate (between : Z → db * kv → db * kv) (run_id : UUID) (body : InvestigationRequest)
    (ctx : TenantContext) : ST world (reply Investigation) :=
  generator ← get_generation_provider;
  ok_if (in_bounds 1 Investigator.MAX_QUESTION_CHARS (zlen (iq_question body))) (
    i ← in_db_kv (Investigator.investigate (GP := generator)
          (BE := ServiceBackend (Some (as_cache app)) clock others index) INVESTIGATOR_V1
          (llm_agent_max_steps (generation settings)) (llm_agent_max_tool_calls (generation settings))
          (llm_max_output_tokens (generation settings)) between ctx (iq_question body) run_id);
    mret (ok i)).

Definition get_investigation (run_id : UUID) (ctx : TenantContext) : ST world (reply Investigation) :=
  i ← in_db (Investigator.get_investigation ctx run_id); mret (ok i).

(** * organizations.py *)

Definition create_organization (body : OrganizationCreate) (principal : Principal) : ST world (reply OrganizationOut) :=
  _ ← guard_ (bool_decide (pr_agent_client_id principal = None))
        (PermissionDeniedError "agents cannot create organizations");
  o ← in_db (Accounts.create_organization (oc_name body) (oc_slug body) (pr_user_id principal));
  mret (created (organization_out o)).

Definition list_members (ctx : TenantContext) : ST world (reply (list MemberOut)) :=
  l ← in_db (MembershipService.list_members ctx); mret (ok (map member_out l)).
Definition add_member (body : MemberAdd) (ctx : TenantContext) : ST world (reply MemberOut) :=
  m ← in_db (MembershipService.add_member ctx (ma_user_id body) (ma_role body)); mret (created (member_out m)).
Definition change_role (user_id : UUID) (role : MembershipRole) (ctx : TenantContext) : ST world (reply MemberOut) :=
  m ← in_db (MembershipService.change_role ctx user_id role); mret (ok (member_out m)).
Definition remove_member (user_id : UUID) (ctx : TenantContext) : ST world (reply unit) :=
  _ ← in_db (MembershipService.remove_member ctx user_id); mret {| rp_status := 204; rp_body := () |}.

(** * users.py *)

(** Open to anyone: no dependency on the caller. *)
Definition register_user (body : UserCreate) : ST world (reply UserOut) :=
  u ← in_db (Accounts.register_user (uc_email body) (uc_display_name body)); mret (created (user_out u)).

Definition get_me (principal : Principal) : ST world (reply UserOut) :=
  u ← in_db (transaction (UserRepository.get (pr_user_id principal)));
  match u with
  | None => raise (NotFoundError "user not found")
  | Some u => mret (ok (user_out u))
  end.

(** * auth.py *)

(** [salt] is drawn for an unknown client, [token_id] for the token. *)
Definition token (salt : list Z) (token_id : UUID) (grant_type client_id client_secret : pystr)
    (scope : option pystr) : ST world token_answer :=
  let limit := rate_limit_token_requests_per_minute (redis settings) in
  refused ← (if 0 <? limit then
               decision ← in_kv (hit WINDOW_SECONDS (py "oauth-client:" ++ take 128 client_id) limit);
               mret (if rl_allowed decision then None else Some (rl_retry_after_seconds decision))
             else mret None);
  match refused with
  | Some retry_after => mret (OAuthError 429 "too_many_requests" (Some retry_after))
  | None =>
    if negb (bool_decide (grant_type = py "client_credentials"))
    then mret (OAuthError 400 "unsupported_grant_type" None)
    else λ w, match in_db (exchange (as_tokens app) client_id client_secret scope salt clock token_id) w with
              | (Ok issued, w') =>
                (Ok (TokenIssued (token_response (it_access_token issued) (it_expires_in issued)
                                    (Some (it_scope issued)))), w')
              | (Err (InvalidClientError _), w') => (Ok (OAuthError 401 "invalid_client" None), w')
              | (Err (InvalidScopeError _), w') => (Ok (OAuthError 400 "invalid_scope" None), w')
              | (Err e, w') => (Err e, w')
              end
  end.

(** [POST /auth/dev-token]: [user:<id>], without organization, scopes or ceiling. *)
Definition dev_token (user_id : UUID) (token_id : UUID) : ST world TokenResponse :=
  _ ← guard_ (bool_decide (environment (application settings) ∈ [LOCAL; TEST])) (NotFoundError "not found");
  user ← in_db (transaction (UserRepository.get user_id));
  match user with
  | Some u =>
    if u_is_active u then
      t ← lift (Tokens.issue (as_tokens app) (py "user:" ++ uuid_str (u_id u)) (u_id u) None None None clock token_id);
      mret (token_response t.1 (Z.quot (ts_ttl (as_tokens app)) (10 ^ 6)) None)
    else raise (NotFoundError "user not found")
  | None => raise (NotFoundError "user not found")
  end.

Definition create_agent_client (random : drawn) (body : AgentClientCreate) (ctx : TenantContext) :
    ST world (reply AgentClientCreated) :=
  ok_if (agent_client_create_ok body) (
    c ← in_db (AgentClients.create ctx (agc_name body) (agc_role body) (agc_scopes body) (agc_privacy_ceiling body) random);
    mret (created {| cao_client := agent_client_out (cac_client c); cao_client_secret := cac_client_secret c |})).

Definition list_agent_clients (ctx : TenantContext) : ST world (reply (list AgentClientOut)) :=
  l ← in_db (AgentClients.list_clients ctx); mret (ok (map agent_client_out l)).

Definition revoke_agent_client (agent_client_id : UUID) (ctx : TenantContext) : ST world (reply AgentClientOut) :=
  c ← in_db (AgentClients.revoke ctx agent_client_id clock); mret (ok (agent_client_out c)).

(** * A request for a tenant *)

(** The endpoint runs once its dependencies have given a context. *)
Definition for_tenant {A} (organization_id : UUID) (request : Request) (endpoint : TenantContext → ST world A) :
    ST world A :=
  ctx ← tenant_dep organization_id request; endpoint ctx.

Definition for_principal {A} (request : Request) (endpoint : Principal → ST world A) : ST world A :=
  principal ← principal_dep request; endpoint principal.

End api.
