(* ===== verification/ApiReads.v ===== *)
(** What the REST endpoints show and do: every version a fact endpoint shows is one the
    caller may see, requests that do not authenticate touch no table, and a recorded or
    revoked fact is never hidden by the retrieval cache. *)

From stdpp Require Import gmap.
From S2P Require Import Grounding.
From S2P Require Import Prelude PyStr Json Canonical Regex Validation Access Temporal History.
From S2P Require Import Database Schema Calendar Secrets Tokens Accounts AgentClients FactRepo.
From S2P Require Import EvidenceService FactService JsonParse TemporalService Ranking Generation Retrieval.
From S2P Require Import ContradictionService Store Authentication McpState AgentAccess RetrievalCache.
From S2P Require Import Decisions Revocations ProvenanceGraph Provenance Investigator.
From S2P Require Import Providers Config World ApiSchemas Api.

(** * What the temporal services show *)

Lemma shows_known read org d s k : shows read org d s → shows read org d (as_known s k).
Proof.
  intros (v & Hv & Ho & Ei & Ej & Es). exists v. split; [done|]. split; [done|].
  unfold as_known. destruct k; [|done]. destruct (vs_valid_until_recorded_at s); [|done]. by destruct (_ <=? _).
Qed.

Lemma known_history_shows org d l k : (∀ s, s ∈ l → shows id org d s) →
  ∀ s, s ∈ known_history l k → shows id org d s.
Proof.
  intros Hl s (s0 & -> & [_ Hs]%elem_of_where_)%list_elem_of_fmap. apply shows_known, Hl.
  unfold sort_on in Hs. by rewrite elem_of_sort_by in Hs.
Qed.

Lemma history_as_known_shows org d l k h : history_as_known l k = Ok h → (∀ s, s ∈ l → shows id org d s) →
  ∀ s, s ∈ h → shows id org d s.
Proof. intros (k' & _ & [= <-])%result_bind_ok. apply known_history_shows. Qed.

Lemma resolve_shows org d l t k x : resolve l t k = Ok (Some x) → (∀ s, s ∈ l → shows id org d s) → shows id org d x.
Proof.
  intros (t' & _ & (h & Hh & H)%result_bind_ok)%result_bind_ok Hl. cbv zeta in H. destruct (1 <? _); [done|].
  injection H as H. apply head_Some_elem_of in H. apply elem_of_where_ in H as [_ H].
  by apply (history_as_known_shows _ _ _ _ _ Hh Hl).
Qed.

Lemma change_shows org d l t1 t2 k before after transitions :
  change_between l t1 t2 k = Ok (Some (before, after, transitions)) → (∀ s, s ∈ l → shows id org d s) →
  ∀ s, Some s ∈ before :: after :: map Some transitions → shows id org d s.
Proof.
  intros H Hl. unfold change_between in H.
  apply result_bind_ok in H as (s1 & _ & H). apply result_bind_ok in H as (e1 & _ & H).
  destruct (e1 <=? s1); [done|]. apply result_bind_ok in H as (known & Hk & H).
  pose proof (history_as_known_shows _ _ _ _ _ Hk Hl) as Hkn.
  apply result_bind_ok in H as (b & Hb & H). apply result_bind_ok in H as (a & Ha & H).
  cbv zeta in H. destruct (_ && _); [done|]. injection H as <- <- <-. intros s.
  rewrite !elem_of_cons. intros [E|[E|Hs]].
  - rewrite <-E in Hb. exact (resolve_shows _ _ _ _ _ _ Hb Hkn).
  - rewrite <-E in Ha. exact (resolve_shows _ _ _ _ _ _ Ha Hkn).
  - apply list_elem_of_fmap in Hs as (y & [= <-] & [_ Hy]%elem_of_where_). by apply Hkn.
Qed.

Lemma list_versions_ok org fact_id d rows d' : FactRepository.list_versions org fact_id d = (Ok rows, d') →
  d' = d ∧ ∀ v, v ∈ rows → v ∈ tab d FactVersions ∧ fv_organization_id v = org.
Proof.
  unfold FactRepository.list_versions. intros H.
  apply st_bind_ok in H as (vs & s5 & [-> ->]%(select_ok FactVersions) & [-> ->]%st_ret_ok). split; [done|].
  intros v Hv. unfold sort_on in Hv. rewrite elem_of_sort_by in Hv. apply elem_of_where_ in Hv as [Hv Hin].
  unfold FactRepository.of_fact in Hv. split; [done|lia].
Qed.

Lemma snapshots_show org d rows : (∀ v, v ∈ rows → v ∈ tab d FactVersions ∧ fv_organization_id v = org) →
  ∀ s, s ∈ map to_snapshot rows → shows id org d s.
Proof.
  intros Hr s (v & -> & Hv)%list_elem_of_fmap. destruct (Hr v Hv) as [Hin Ho]. exists v. split; [done|]. by split.
Qed.

Lemma history_rows ctx i k d r d' : history ctx i k d = (Ok r, d') →
  d' = d ∧ ∀ s, s ∈ r → shows id (ctx_organization_id ctx) d s.
Proof.
  intros H. unfold history in H. apply st_bind_ok in H as (versions & d1 & Ht & [Hk ->]%lift_ok).
  apply (proj1 (transaction_ok _ _ _ _)) in Ht. apply st_bind_ok in Ht as (role & d2 & [-> _]%require_permission_ok & Ht).
  apply st_bind_ok in Ht as ([f|] & d3 & Hf & Ht); [|by apply raise_ok in Ht]. apply get_fact_ok in Hf as (-> & _).
  apply st_bind_ok in Ht as (rows & d4 & [-> Hr]%list_versions_ok & [-> ->]%st_ret_ok). split; [done|].
  exact (history_as_known_shows _ _ _ _ _ Hk (snapshots_show _ _ _ Hr)).
Qed.

Lemma lineage_rows ctx i d r d' : lineage ctx i d = (Ok r, d') →
  d' = d ∧ ∀ s, s ∈ ln_version r :: ln_ancestors r ++ ln_descendants r → shows id (ctx_organization_id ctx) d s.
Proof.
  intros H. unfold lineage in H. apply st_bind_ok in H as (c & d1 & Ht & H).
  apply (proj1 (transaction_ok _ _ _ _)) in Ht. apply st_bind_ok in Ht as (role & d2 & [-> _]%require_permission_ok & Ht).
  apply st_bind_ok in Ht as ([f|] & d3 & Hf & Ht); [|by apply raise_ok in Ht]. apply get_version_ok in Hf as (-> & _).
  apply st_bind_ok in Ht as (rows & d4 & [-> Hr]%list_versions_ok & [-> ->]%st_ret_ok).
  pose proof (snapshots_show _ _ _ Hr) as Hs. destruct (List.find _ _) as [cur|] eqn:Ef; [|by apply raise_ok in H].
  apply st_ret_ok in H as [-> ->]. split; [done|]. cbn [ln_version ln_ancestors ln_descendants].
  apply List.find_some in Ef as [Hin _]. apply list_elem_of_In in Hin.
  intros s. rewrite elem_of_cons, elem_of_app, !elem_of_where_. intros [-> |[[_ ?]|[_ ?]]]; by apply Hs.
Qed.

Lemma by_fact_rows rows i versions prop r : (i, versions, prop) ∈ by_fact rows → r ∈ versions →
  ∃ x, x ∈ rows ∧ r = to_snapshot x.1.
Proof.
  unfold by_fact. intros (j & [= -> -> _] & _)%list_elem_of_fmap (x & -> & [_ Hx]%elem_of_where_)%list_elem_of_fmap. eauto.
Qed.

Lemma changes_rows `{UD : !UnicodeData} ctx et ext t1 t2 k d r d' : changes_between ctx et ext t1 t2 k d = (Ok r, d') →
  d' = d ∧ ∀ c s, c ∈ r → Some s ∈ fc_before c :: fc_after c :: map Some (fc_transitions c) →
    shows id (ctx_organization_id ctx) d s.
Proof.
  intros H. unfold changes_between in H. apply st_bind_ok in H as (s1 & ? & [_ ->]%lift_ok & H).
  apply st_bind_ok in H as (e1 & ? & [_ ->]%lift_ok & H). apply st_bind_ok in H as ([] & ? & [_ ->]%guard_ok & H).
  apply st_bind_ok in H as (known & ? & [_ ->]%lift_ok & H). apply st_bind_ok in H as (rows & d1 & Ht & H).
  apply (proj1 (transaction_ok _ _ _ _)) in Ht. apply st_bind_ok in Ht as (role & d2 & [-> _]%require_permission_ok & Ht).
  apply st_bind_ok in Ht as (e & d3 & He & Hr). pose proof (require_entity_state _ _ _ _ _ _ He) as <-.
  unfold TemporalRepository.entity_versions in Hr. apply gets_ok in Hr as [-> ->].
  apply st_bind_ok in H as (changes & ? & [Hc ->]%lift_ok & [-> ->]%st_ret_ok). split; [done|].
  intros c s Hin Hs. rewrite elem_of_sort_by in Hin. apply list_elem_of_omap in Hin as (oc & Hin & E). cbn in E. subst oc.
  apply mapR_ok in Hc. apply list_elem_of_lookup in Hin as [n Hn].
  eapply Forall2_lookup_r in Hc as ([[i versions] prop] & Hrow & Hc); [|exact Hn].
  apply list_elem_of_lookup_2 in Hrow. apply result_bind_ok in Hc as (x & Hx & [= Hc]).
  destruct x as [[[b a] ts]|]; [|done]. cbn [option_map] in Hc. injection Hc as <-. cbn [fc_before fc_after fc_transitions] in Hs.
  refine (change_shows _ _ _ _ _ _ _ _ _ Hx _ s Hs).
  intros v Hv. destruct (by_fact_rows _ _ _ _ _ Hrow Hv) as (y & Hy & ->).
  rewrite elem_of_sort_by in Hy. apply joined_versions in Hy as [Hin Ho]. exists y.1. split; [done|]. by split.
Qed.

(** The linked evidence is the organization's own. *)
Lemma evidence_rows org i d rows d' : evidence_for_version org i d = (Ok rows, d') →
  d' = d ∧ ∀ r, r ∈ rows → r.1.2 ∈ tab d Evidence ∧ ev_organization_id r.1.2 = org.
Proof.
  unfold evidence_for_version. intros H. apply st_bind_ok in H as (links & d1 & [-> ->]%(select_ok EvidenceLinks) & H).
  apply st_bind_ok in H as (evs & d2 & [-> ->]%gets_ok & H).
  apply st_bind_ok in H as (sources & d3 & [-> ->]%gets_ok & [-> ->]%st_ret_ok). split; [done|].
  intros r Hr. rewrite elem_of_sort_by in Hr.
  apply list_elem_of_bind in Hr as (l & Hr & [Hl _]%elem_of_where_).
  apply list_elem_of_bind in Hr as (e & Hr & [He Hin]%elem_of_where_).
  apply list_elem_of_bind in Hr as (s & Hr & _). apply list_elem_of_singleton in Hr as ->. cbn [fst snd].
  split; [done|]. apply andb_true_iff in Hl as [Hl%Z.eqb_eq _]. apply andb_true_iff in He as [He%Z.eqb_eq _]. congruence.
Qed.

Lemma provenance_rows ctx i d r d' : provenance ctx i d = (Ok r, d') →
  d' = d ∧ shows id (ctx_organization_id ctx) d r.1.1 ∧
  ∀ x, x ∈ r.2 → x.1.2 ∈ tab d Evidence ∧ ev_organization_id x.1.2 = ctx_organization_id ctx.
Proof.
  intros H. unfold provenance in H. apply (proj1 (transaction_ok _ _ _ _)) in H.
  apply st_bind_ok in H as (role & d2 & [-> _]%require_permission_ok & H).
  apply st_bind_ok in H as ([v|] & d3 & Hv & H); [|by apply raise_ok in H]. apply get_version_ok in Hv as (-> & Hin & Ho & _).
  apply st_bind_ok in H as ([s|] & d4 & Hs & H); [|by apply raise_ok in H]. apply get_source_ok in Hs as (-> & _).
  apply st_bind_ok in H as (rows & d5 & [-> Hr]%evidence_rows & [-> ->]%st_ret_ok).
  split; [done|]. split; [|exact Hr]. exists v. split; [done|]. by split.
Qed.

(** * The caller *)

Section requests.
Context `{UD : !UnicodeData} `{FR : !FloatRepr} `{FD : !FloatRead} `{ET : !ExceptionText} `{SH : !Sha256} `{JB : !Jsonb}.
Context `{SO : !ScoreOps} `{SE : !SearchEngine} `{RT : !RequestText} `{JL : !JsonLoads} `{PD : !Pydantic}.
Context `{SC : !Scrypt} `{JW : !Jwt} `{KS : KeyValueStore}.
Context (app : ApiState) (clock : Instant) (index : search_index).
Context (others : db → db) (elsewhere : world → world).

Definition caller (request : Request) : result Principal :=
  authenticate (as_tokens app) (auth_settings (as_settings app)) clock request.

(** A caller who is an active member of [org] in [d], through a credential for it, and
    the privacy scopes it may see there. *)
Definition may_see (org : UUID) (request : Request) (d : db) (scope : PrivacyScope) : Prop :=
  ∃ principal role, caller request = Ok principal ∧ current_role d org (pr_user_id principal) role ∧
    (∀ o, pr_organization_id principal = Some o → o = org) ∧
    scope ∈ visible_privacy_scopes role [pr_max_privacy_scope principal].

Lemma principal_dep_ok request w p w' : principal_dep app clock request w = (Ok p, w') →
  caller request = Ok p ∧ w_db w' = w_db w ∧ w_graph w' = w_graph w.
Proof.
  unfold principal_dep, in_kv. destruct (get_principal _ _ _ _ _ _) as [r s] eqn:E. intros [= -> <-]. cbn.
  split; [|done]. unfold get_principal in E. apply st_bind_ok in E as (p' & s1 & [Hp ->]%lift_ok & E).
  apply st_bind_ok in E as ([] & s2 & _ & [-> _]%st_ret_ok). exact Hp.
Qed.

Lemma tenant_dep_ok org request w ctx w' :
  tenant_dep app clock others elsewhere org request w = (Ok ctx, w') →
  ctx_organization_id ctx = org ∧
  (∀ s, s ∈ Api._visible ctx → may_see org request (others (w_db w)) s) ∧
  ∃ w1, w_db w1 = others (w_db w) ∧ w' = elsewhere w1.
Proof.
  unfold tenant_dep. intros H. apply st_bind_ok in H as (p & w1 & Hp & H). apply principal_dep_ok in Hp as (Hp & Ed & _).
  apply st_bind_ok in H as (c & w2 & Ht%in_db_ok & H). apply get_tenant_ok in Ht as (E2 & Hr & Ho & _ & Hc & Hu & _ & Hm & _).
  apply st_bind_ok in H as ([] & w3 & Hmod & [-> ->]%st_ret_ok). apply modify_ok in Hmod as ->. rewrite Ed in E2.
  split; [done|]. split; [|by exists w2]. intros s Hs. exists p, (ctx_role c). split; [done|]. rewrite <-E2.
  split; [done|]. split; [done|]. unfold Api._visible in Hs. by rewrite Hm in Hs.
Qed.

(** A version, as it is shown. *)
Definition entitled (org : UUID) (request : Request) (before after : db) (s : VersionSnapshot) : Prop :=
  shows id org after s ∧ may_see org request before (vs_privacy_scope s).

Abbreviation asked endpoint := (for_tenant app clock others elsewhere endpoint) (only parsing).

Lemma shown_entitled org request w ctx w1 d s :
  tenant_dep app clock others elsewhere org request w = (Ok ctx, w1) →
  shows id (ctx_organization_id ctx) d s → sees ctx s = true →
  entitled org request (others (w_db w)) d s.
Proof.
  intros (Ho & Hv & _)%tenant_dep_ok Hs Hsee. rewrite Ho in Hs. split; [done|]. apply Hv.
  by apply bool_decide_eq_true in Hsee.
Qed.

Lemma all_visible_sees vs ctx s : _all_visible vs ctx = true → Some s ∈ vs → sees ctx s = true.
Proof. unfold _all_visible. rewrite forallb_forall. intros H Hs. apply list_elem_of_In in Hs. exact (H _ Hs). Qed.

(** C5. Every version a fact endpoint shows is the organization's own and within the
    caller's rights.  Whatever the request, the history and what other transactions do in
    between, when the facts, timeline, changes, history, lineage or provenance endpoint
    answers, each version in the answer is stored in the organization of the path with
    the value shown, and its scope is one that the caller - authenticated by this request,
    an active member there, with a credential that is not bound to another organization -
    may see with the role read for this request and the ceiling of its credential; linked
    evidence likewise. *)
Theorem rest_reads_within_the_ceiling org request w w' :
  let entitled := entitled org request (others (w_db w)) (w_db w') in
  (∀ et ext t k r, for_tenant app clock others elsewhere org request (entity_facts clock et ext t k) w = (Ok r, w') →
     ∀ f, f ∈ ef_facts (rp_body r) → entitled (rf_version f)) ∧
  (∀ et ext k r, for_tenant app clock others elsewhere org request (Api.entity_timeline et ext k) w = (Ok r, w') →
     ∀ e, e ∈ et_entries (rp_body r) → entitled (te_version e)) ∧
  (∀ et ext t1 t2 k r, for_tenant app clock others elsewhere org request (entity_changes et ext t1 t2 k) w = (Ok r, w') →
     ∀ c s, c ∈ rp_body r → Some s ∈ fc_before c :: fc_after c :: map Some (fc_transitions c) → entitled s) ∧
  (∀ i k r, for_tenant app clock others elsewhere org request (fact_history i k) w = (Ok r, w') →
     ∀ s, s ∈ rp_body r → entitled s) ∧
  (∀ i r, for_tenant app clock others elsewhere org request (version_lineage i) w = (Ok r, w') →
     ∀ s, s ∈ ln_version (rp_body r) :: ln_ancestors (rp_body r) ++ ln_descendants (rp_body r) → entitled s) ∧
  (∀ i r, for_tenant app clock others elsewhere org request (version_provenance i) w = (Ok r, w') →
     entitled (po_version (rp_body r)) ∧
     ∀ x, x ∈ po_evidence (rp_body r) → ∃ e, e ∈ tab (w_db w') Evidence ∧ ev_organization_id e = org ∧
       le_evidence x = evidence_out e ∧ may_see org request (others (w_db w)) (ev_privacy_scope e)).
Proof.
  cbv zeta. split_and!.
  - intros et ext t k r H f Hf. apply st_bind_ok in H as (ctx & w1 & Ht & H).
    apply st_bind_ok in H as (fs & w2 & [E Hr]%in_db_ok%facts_at_rows & [-> ->]%st_ret_ok). rewrite E.
    apply elem_of_where_ in Hf as [Hs Hin]. exact (shown_entitled _ _ _ _ _ _ _ Ht (Hr f Hin) Hs).
  - intros et ext k r H e He. apply st_bind_ok in H as (ctx & w1 & Ht & H).
    apply st_bind_ok in H as (es & w2 & [E Hr]%in_db_ok%entity_timeline_rows & [-> ->]%st_ret_ok). rewrite E.
    apply elem_of_where_ in He as [Hs Hin]. exact (shown_entitled _ _ _ _ _ _ _ Ht (Hr e Hin) Hs).
  - intros et ext t1 t2 k r H c s Hc Hs. apply st_bind_ok in H as (ctx & w1 & Ht & H).
    apply st_bind_ok in H as (cs & w2 & [E Hr]%in_db_ok%changes_rows & [-> ->]%st_ret_ok). rewrite E.
    apply elem_of_where_ in Hc as [Hv Hin].
    exact (shown_entitled _ _ _ _ _ _ _ Ht (Hr c s Hin Hs) (all_visible_sees _ _ _ Hv Hs)).
  - intros i k r H s Hs. apply st_bind_ok in H as (ctx & w1 & Ht & H).
    apply st_bind_ok in H as (vs & w2 & [E Hr]%in_db_ok%history_rows & [-> ->]%st_ret_ok). rewrite E.
    apply elem_of_where_ in Hs as [Hv Hin]. exact (shown_entitled _ _ _ _ _ _ _ Ht (Hr s Hin) Hv).
  - intros i r H s Hs. apply st_bind_ok in H as (ctx & w1 & Ht & H).
    apply st_bind_ok in H as (l & w2 & [E Hr]%in_db_ok%lineage_rows & H).
    destruct (_all_visible _ _) eqn:Hv; [|by apply raise_ok in H]. apply st_ret_ok in H as [-> ->]. rewrite E.
    refine (shown_entitled _ _ _ _ _ _ _ Ht (Hr s Hs) (all_visible_sees _ _ _ Hv _)). by apply list_elem_of_fmap_2.
  - intros i r H. apply st_bind_ok in H as (ctx & w1 & Ht & H).
    apply st_bind_ok in H as ([[v src] rows] & w2 & [E [Hr Hev]]%in_db_ok%provenance_rows & H). cbn [fst snd] in *.
    destruct (sees ctx v) eqn:Hv; cbn [negb] in H; [|by apply raise_ok in H]. apply st_ret_ok in H as [-> ->]. rewrite E.
    split; [exact (shown_entitled _ _ _ _ _ _ _ Ht Hr Hv)|]. cbn [rp_body ok po_evidence].
    intros x ([[l e] s0] & -> & [Hs%bool_decide_eq_true Hin]%elem_of_where_)%list_elem_of_fmap. cbn [fst snd] in *.
    destruct (Hev _ Hin) as [He Ho]. cbn [fst snd] in *. destruct (tenant_dep_ok _ _ _ _ _ Ht) as (Horg & Hsee & _).
    exists e. split; [done|]. split; [congruence|]. split; [done|]. by apply Hsee.
Qed.

End requests.

(** * Writes and the retrieval cache *)

Section fresh_search.
Context `{UD : !UnicodeData} `{FR : !FloatRepr} `{SH : !Sha256} `{SO : !ScoreOps} `{SE : !SearchEngine}.
Context `{RT : !RequestText} `{RC : !ResultCodec} `{KS : KeyValueStore} `{KL : !KeyValueStoreLaws}.
Context (ttl_seconds : Z).

(** The entries that can be found for an organization are of generations up to [n]. *)
Definition entries_up_to (s : kv) (org n : Z) : Prop :=
  ∀ g digest v e, live_entry s (entry_key org g digest) = Some (v, e) → g ≤ n.

Lemma entry_key_not_generation org g digest : entry_key org g digest ≠ generation_key org.
Proof.
  unfold entry_key, generation_key. intros E. change (py "cl:retrieval:gen:") with (py "cl:retrieval:" ++ py "gen:") in E.
  rewrite <-(app_assoc (py "cl:retrieval:")) in E. apply app_inv_head in E. discriminate E.
Qed.

(** Invalidation opens a generation no entry can be of. *)
Lemma invalidate_supersedes org s n : kv_up s = true → generation_is s org n → entries_up_to s org n →
  ∃ s', invalidate org s = (Ok (), s') ∧ kv_up s' = true ∧ generation_is s' org (n + 1) ∧ entries_up_to s' org n.
Proof using KL.
  intros Hu [Hok Hn] He.
  pose proof (increment_spec _ (GENERATION_TTL_SECONDS * 1000) s Hok ltac:(unfold GENERATION_TTL_SECONDS; lia)) as Hi.
  destruct (bump_counter _ _ _) as [m e] eqn:Eb.
  destruct Hi as (s' & Hi & Hok' & Hc' & _ & _ & _ & Hu' & Hrest). exists s'.
  split; [by eapply invalidate_spec|]. split; [congruence|]. split.
  - split; [done|]. rewrite Hc'. destruct (counter_at s (generation_key org)) as [[k e']|];
      cbn [bump_counter] in Eb; injection Eb as <- _; lia.
  - intros g digest v x H. rewrite Hrest in H by apply entry_key_not_generation. by apply (He g digest v x).
Qed.

Lemma store_get_live k s : kv_up s = true → ∃ s', store_get k s = (Ok (option_map fst (live_entry s k)), s') ∧
  (∀ x, live_entry s' x = live_entry s x) ∧ kv_up s' = true.
Proof using KL.
  intros Hu. destruct (get_spec k s) as (s' & E & Hl & _ & Hu'). exists s'.
  rewrite (as_memory_up _ _ s (get_law k) Hu). split; [exact E|]. split; [done|congruence].
Qed.

(** The generation is read without changing what can be found. *)
Lemma generation_live org s n : kv_up s = true → generation_is s org n →
  ∃ s', RetrievalCache.generation org s = (Ok (Some n), s') ∧ (∀ x, live_entry s' x = live_entry s x) ∧ kv_up s' = true.
Proof using KL.
  intros Hu Hg. pose proof (generation_spec org s n Hu Hg) as E1.
  destruct (store_get_live (generation_key org) s Hu) as (s1 & Es & Hl & Hu1).
  destruct (RetrievalCache.generation org s) as [r s'] eqn:E. cbn [fst] in E1. subst r. exists s'. split; [done|].
  assert (s' = s1) as ->; [|done]. unfold RetrievalCache.generation, unless_available, mbind, st_bind in E. rewrite Es in E.
  destruct (option_map fst (live_entry s (generation_key org))) as [v|]; [|by injection E as _ <-].
  unfold lift in E. destruct (int_of_bytes v) as [z|x]; [by injection E as _ <-|].
  destruct x; try discriminate E; by injection E as _ <-.
Qed.

(** A lookup finds nothing in a generation without entries. *)
Lemma lookup_misses org material (d : db) s n k r s' : kv_up s = true → generation_is s org (n + 1) → entries_up_to s org n →
  (∀ g, ck_organization_id (material g) = org ∧ ck_generation (material g) = g) →
  cache_lookup (Some (RetrievalCache ttl_seconds)) material org (d, s) = (Ok (k, r), s') → r = None.
Proof using KL.
  intros Hu Hg He Hm H. unfold cache_lookup in H. apply st_bind_ok in H as (g & x1 & Hgen & H).
  apply on_ext_ok in Hgen as [Hgen _]. cbn [snd] in Hgen.
  destruct (generation_live org s (n + 1) Hu Hg) as (s1 & E & Hl & Hu1).
  change (RetrievalCache.generation org s = (Ok g, x1.2)) in Hgen. rewrite E in Hgen. injection Hgen as <- Ex.
  apply st_bind_ok in H as (ky & x2 & [Hky ->]%lift_ok & H). apply st_bind_ok in H as (c & x3 & Hget & H).
  apply st_ret_ok in H as [[= _ ->] _]. apply on_ext_ok in Hget as [Hget _].
  change (RetrievalCache.get ky x1.2 = (Ok c, x3.2)) in Hget. rewrite <-Ex in Hget.
  change (RetrievalCache.key (material (n + 1)) = Ok ky) in Hky. unfold RetrievalCache.key in Hky.
  apply result_bind_ok in Hky as (t & _ & (b & _ & [= Hky])%result_bind_ok).
  destruct (Hm (n + 1)) as [Ho Hgn]. rewrite Ho, Hgn in Hky.
  destruct (store_get_live ky s1 Hu1) as (s2 & Es & _ & _).
  unfold RetrievalCache.get, unless_available, mbind, st_bind in Hget. rewrite Es in Hget.
  destruct (live_entry s1 ky) as [[v e]|] eqn:El; cbn [option_map fst] in Hget.
  - exfalso. rewrite Hl, <-Hky in El. pose proof (He _ _ _ _ El). lia.
  - by injection Hget as <- _.
Qed.

Context (app : ApiState) (clock : Instant) (index : search_index) (others : db → db).
Context (Hcache : as_cache app = RetrievalCache ttl_seconds).

Lemma search_not_cached body ctx w n r w' : kv_up (w_kv w) = true →
  generation_is (w_kv w) (ctx_organization_id ctx) (n + 1) → entries_up_to (w_kv w) (ctx_organization_id ctx) n →
  Api.search app clock index others body ctx w = (Ok r, w') →
  rr_cache (rp_body r) ≠ CS_hit ∧ ∃ query filters t k qv r0,
    search_store ctx (to_query body) index query (sq_limit body) (sq_trust_weight body) filters t k qv
      (others (w_db w)) = (Ok r0, w_db w') ∧ rr_results (rp_body r) = rr_results r0.
Proof using KL Hcache.
  intros Hu Hg He H. unfold Api.search, ok_if in H. destruct (search_request_ok body); [|by apply raise_ok in H].
  apply st_bind_ok in H as (x & w1 & Hs & [-> ->]%st_ret_ok). rewrite Hcache in Hs. apply in_db_kv_ok in Hs as (s & Hs).
  apply search_cases in Hs as (q & filters & t & k & role & _ & _ & _ & _ & _ & _ & _ & Hs).
  destruct Hs as [(key & r0 & Hl & _)|(key & qv & r0 & s1 & Hl & Hst & -> & _)].
  - apply (lookup_misses _ _ _ _ n) in Hl; [done|done|done|done|done].
  - cbn [rp_body ok]. split; [by destruct key|]. exists q, filters, t, k, qv, r0.
    assert (E : s1.1 = w_db w).
    { unfold cache_lookup in Hl. apply st_bind_ok in Hl as (g & x1 & [_ E1]%on_ext_ok & Hl). destruct g as [g|].
      - apply st_bind_ok in Hl as (ky & x2 & [_ ->]%lift_ok & Hl). apply st_bind_ok in Hl as (c & x3 & [_ E2]%on_ext_ok & Hl).
        apply st_ret_ok in Hl as [_ ->]. by rewrite E2, E1.
      - apply st_ret_ok in Hl as [_ ->]. exact E1. }
    rewrite <-E. split; [exact Hst|]. by destruct key.
Qed.

(** C12. A recorded or revoked fact is not hidden by the retrieval cache.  When the store
    is up and the entries that can be found for an organization are of its generation [n]
    or earlier, a POST of a fact version or of a revocation that succeeds leaves the store
    at generation [n + 1] without entries of it: a search of the
    organization by any member that follows, whatever has been committed to the database
    meanwhile, does not come from the cache - it is the answer of the database at its own
    time, which has the write.  (The invariant is kept: the entries are of generation
    [n + 1] or earlier.) *)
Theorem writes_are_searched_afresh org ctx w w1 n :
  kv_up (w_kv w) = true → generation_is (w_kv w) org n → entries_up_to (w_kv w) org n →
  ctx_organization_id ctx = org →
  (∃ body r, record_fact_version body ctx w = (Ok r, w1)) ∨ (∃ i body r, Api.revoke i body ctx w = (Ok r, w1)) →
  generation_is (w_kv w1) org (n + 1) ∧ entries_up_to (w_kv w1) org (n + 1) ∧
  ∀ reader body later r w3, ctx_organization_id reader = org →
    Api.search app clock index others body reader
      {| w_db := later; w_kv := w_kv w1; w_graph := w_graph w1 |} = (Ok r, w3) →
    rr_cache (rp_body r) ≠ CS_hit ∧ ∃ query filters t k qv r0,
      search_store reader (to_query body) index query (sq_limit body) (sq_trust_weight body) filters t k qv
        (others later) = (Ok r0, w_db w3) ∧ rr_results (rp_body r) = rr_results r0.
Proof using KL Hcache.
  intros Hu Hg He Ho Hw. destruct (invalidate_supersedes _ _ _ Hu Hg He) as (s' & Ei & Hu' & Hg' & He').
  assert (Ek : w_kv w1 = s').
  { assert (Hinv : ∀ wa wb, w_kv wa = w_kv w → in_kv (invalidate org) wa = (Ok (), wb) → w_kv wb = s').
    { intros wa wb E H. unfold in_kv in H. rewrite E, Ei in H. by injection H as <-. }
    assert (Hdb : ∀ A (m : DB A) a wa, in_db m w = (Ok a, wa) → w_kv wa = w_kv w).
    { intros A m a wa H. unfold in_db in H. destruct (m (w_db w)). by injection H as _ <-. }
    destruct Hw as [(body & r & H)|(i & body & r & H)].
    - unfold record_fact_version, ok_if in H. destruct (fact_version_create_ok body); [|by apply raise_ok in H].
      apply st_bind_ok in H as (v & wa & Hr & H). apply st_bind_ok in H as ([] & wb & Hi & [_ ->]%st_ret_ok).
      rewrite Ho in Hi. exact (Hinv _ _ (Hdb _ _ _ _ Hr) Hi).
    - unfold Api.revoke, ok_if in H. destruct (revoke_request_ok body); [|by apply raise_ok in H].
      apply st_bind_ok in H as (v & wa & Hr & H). apply st_bind_ok in H as ([] & wb & Hi & [_ ->]%st_ret_ok).
      rewrite Ho in Hi. exact (Hinv _ _ (Hdb _ _ _ _ Hr) Hi). }
  rewrite Ek. split; [done|]. split; [intros g dg v e H; pose proof (He' _ _ _ _ H); lia|].
  intros reader body later r w3 Hreader. rewrite <-Hreader in Hg', He'.
  exact (search_not_cached body reader {| w_db := later; w_kv := s'; w_graph := w_graph w1 |} n r w3 Hu' Hg' He').
Qed.

End fresh_search.
