(* ===== verification/Startup.v ===== *)
(** How the processes are put together from settings: [create_app] of app/main.py with the
    layers of Http.v and the state the endpoints of Api.v read, and the MCP server of
    app/mcp/server.py; what a deployed process refuses. *)

From stdpp Require Import gmap.
From S2P Require Import Grounding.
From S2P Require Import Prelude PyStr Json Canonical Regex Validation Access Temporal History.
From S2P Require Import Database Schema Calendar Secrets Tokens Accounts AgentClients FactRepo.
From S2P Require Import EvidenceService FactService JsonParse TemporalService Ranking Generation Retrieval.
From S2P Require Import ContradictionService Store Authentication Idempotency McpState RetrievalCache.
From S2P Require Import Decisions Revocations ProvenanceGraph Provenance Investigator AgentAccess.
From S2P Require Import Providers Config Http World McpTools ApiSchemas Api.

(** [build_driver]: the address and credentials of the graph, and its database. *)
Record GraphDriver := { gd_uri : pystr; gd_user : pystr; gd_password : pystr; gd_database : pystr }.

Definition build_driver (s : Config.Settings) : option GraphDriver :=
  match neo4j_password (neo4j s) with
  | [] => None
  | p => Some {| gd_uri := neo4j_uri (neo4j s); gd_user := neo4j_user (neo4j s); gd_password := p;
                 gd_database := neo4j_database (neo4j s) |}
  end.

(** What [create_app] builds; the metrics route, when there is one, has an optional token. *)
Record App := {
  ap_settings : Config.Settings;
  ap_docs : bool;
  ap_database : DatabaseUrl * TlsContext;
  ap_embeddings : EmbeddingChoice;
  ap_generation : option OpenAIChat;
  ap_graph : option GraphDriver;
  ap_tokens : TokenService;
  ap_store : KeyValueStore;
  ap_cache_ttl : Z;
  ap_stack : Stack;
  ap_metrics : option (option pystr) }.

Section startup.
Context `{UD : !UnicodeData} `{JW : !Jwt} `{JL : !JsonLoads}.

(** Whether Redis executed a command it gave no answer to. *)
Context (executed : kv → bool).

Definition token_or_none (token : pystr) : option pystr := match token with [] => None | t => Some t end.

Definition create_app (ephemeral : pystr) (s : Config.Settings) : result App :=
  let http_client := uses_openai s in
  embedding ← build_embedding_provider s http_client;
  generator ← build_generation_provider s http_client;
  tokens ← from_settings ephemeral s;
  Ok {|
    ap_settings := s; ap_docs := docs_enabled (observability s);
    ap_database := (database_url s, ssl_context s);
    ap_embeddings := embedding; ap_generation := generator; ap_graph := build_driver s; ap_tokens := tokens;
    ap_store := build_store executed (redis_url (redis s));
    ap_cache_ttl := retrieval_cache_ttl_seconds (redis s);
    ap_stack := {|
      sk_tokens := tokens; sk_allow_header_auth := bool_decide (auth_mode (authentication s) = py "development-headers");
      sk_idempotency_ttl := idempotency_ttl_seconds (redis s);
      sk_idempotency_lock := idempotency_lock_seconds (redis s);
      sk_max_body := max_request_body_bytes (redis s);
      sk_correlation_header := correlation_id_header (observability s);
      sk_hsts := bool_decide (environment (application s) ∈ [STAGING; PRODUCTION]);
      sk_metrics := metrics_enabled (observability s) |};
    ap_metrics := if metrics_enabled (observability s) then Some (token_or_none (metrics_token (observability s))) else None |}.

(** ** The MCP server *)

(** [identity_from]; [SystemExit] without an organization and a user. *)
Definition identity_from (s : Config.Settings) : result McpIdentity :=
  match mcp_organization_id (mcp s), mcp_user_id (mcp s) with
  | Some organization_id, Some user_id =>
    scope ← privacy_of_json (JStr (mcp_max_privacy_scope (mcp s)));
    Ok {| mi_organization_id := organization_id; mi_user_id := user_id; mi_agent_name := mcp_agent_name (mcp s);
          mi_max_privacy_scope := scope |}
  | _, _ => Err (LibraryError "SystemExit")
  end.

Context `{FR : !FloatRepr} `{SH : !Sha256} `{SO : !ScoreOps} `{SE : !SearchEngine} `{RT : !RequestText} `{RC : !ResultCodec}.

(** The runtime of [_main]; [connect] is the provider over its HTTP client, [session_id]
    the hex of the UUID it draws.  The cache and the session use the store of the settings. *)
Definition mcp_runtime (connect : OpenAIChat → GenerationProvider) (session_id : pystr) (s : Config.Settings) :
    result McpRuntime :=
  identity ← identity_from s;
  let http_client := uses_openai s in
  _ ← build_embedding_provider s http_client;
  generator ← build_generation_provider s http_client;
  Ok {| mr_identity := identity; mr_graph := match build_driver s with Some _ => true | None => false end;
        mr_cache := Some (RetrievalCache (KS := build_store executed (redis_url (redis s))) (retrieval_cache_ttl_seconds (redis s)));
        mr_session := Some (session_id, mcp_session_ttl_seconds (redis s));
        mr_generator := option_map connect generator;
        mr_answer_prompt_version := llm_answer_prompt_version (generation s);
        mr_max_output_tokens := llm_max_output_tokens (generation s);
        mr_agent_max_steps := llm_agent_max_steps (generation s);
        mr_agent_max_tool_calls := llm_agent_max_tool_calls (generation s) |}.

(** The state the endpoints read, [connect] as above. *)
Definition api_state (connect : OpenAIChat → GenerationProvider) (a : App) : ApiState := {|
  as_settings := ap_settings a; as_tokens := ap_tokens a;
  as_cache := RetrievalCache (KS := ap_store a) (ap_cache_ttl a);
  as_graph_reader := match ap_graph a with Some _ => true | None => false end;
  as_generator := option_map connect (ap_generation a) |}.

(** * What a deployed process refuses *)

Lemma create_app_ok ephemeral s a : create_app ephemeral s = Ok a →
  ap_settings a = s ∧ build_embedding_provider s (uses_openai s) = Ok (ap_embeddings a) ∧
  from_settings ephemeral s = Ok (ap_tokens a) ∧ ap_store a = build_store executed (redis_url (redis s)) ∧
  ap_metrics a = (if metrics_enabled (observability s) then Some (token_or_none (metrics_token (observability s))) else None) ∧
  ap_database a = (database_url s, ssl_context s) ∧
  sk_hsts (ap_stack a) = bool_decide (environment (application s) ∈ [STAGING; PRODUCTION]) ∧
  sk_allow_header_auth (ap_stack a) = bool_decide (auth_mode (authentication s) = py "development-headers") ∧
  ap_graph a = build_driver s.
Proof.
  intros (e & He & H)%result_bind_ok. apply result_bind_ok in H as (g & Hg & H).
  apply result_bind_ok in H as (t & Ht & [= <-]). split_and!; done.
Qed.

Lemma from_settings_key ephemeral s t : from_settings ephemeral s = Ok t →
  jwt_signing_key (authentication s) ≠ [] → ts_private_key t = jwt_signing_key (authentication s).
Proof.
  intros (k & Hk & H)%result_bind_ok Hn. apply result_bind_ok in H as (j & _ & H).
  apply result_bind_ok in H as (extra & _ & [= <-]). cbn. destruct (jwt_signing_key _); [done|]. by injection Hk.
Qed.

(** The bearer token of a request, as [authenticate] and the idempotency middleware read it. *)
Definition token_of (authorization : option pystr) : option pystr :=
  match sent authorization with Some a => bearer_token a | None => None end.

(** Without development headers only a bearer token authenticates. *)
Lemma headers_ignored tokens settings : st_development_headers settings = false →
  ∀ a, token_of a = None → ∃ text, ∀ now request, rq_authorization request = a →
    authenticate tokens settings now request = Err (AuthenticationRequiredError text).
Proof.
  intros Hs a Ha. exists (match sent a with
    | Some _ => "use 'Authorization: Bearer <access token>'" | None => "send 'Authorization: Bearer <access token>'" end)%string.
  intros now request Hr. unfold authenticate, token_of in *. rewrite Hr, Hs.
  destruct (sent a) as [x|]; [by rewrite Ha|done].
Qed.

Context `{FD : !FloatRead} `{ET : !ExceptionText} `{JB : !Jsonb} `{PD : !Pydantic} `{SC : !Scrypt}.

(** C4. A deployed process is closed.  From settings that load for staging or production,
    the application that [create_app] builds reaches its database over TLS and embeds with
    the real provider.  A request whose Authorization header carries no bearer token -
    absent, empty, of another scheme, or without a token - is refused by every endpoint
    that needs a caller, whatever user header it carries: one 401 that is the same
    whatever the tables, the store and the graph hold, and that leaves them as they are;
    and its idempotency key is nobody's.  The development token endpoint answers one 404,
    the same whatever they hold, and leaves them as they are; HSTS is on.  If the process
    serves traffic, tokens are signed with the configured key and not with one drawn at
    startup, every process shares one store, the graph is connected, and the metrics are
    shown only to the bearer of their token. *)
Theorem a_deployed_process_is_closed np raw s ephemeral a connect :
  load np raw = inl s → create_app ephemeral s = Ok a → deployed s = true →
  let KS := ap_store a in
  (ap_database a).2 ≠ NoTls ∧ (∃ k m n, ap_embeddings a = OpenAIEmbedding k m n) ∧ sk_hsts (ap_stack a) = true ∧
  (∀ authorization, token_of authorization = None → ∃ e, error_status e = 401 ∧
     ∀ clock request w A (endpoint : Principal → ST world A), rq_authorization request = authorization →
       for_principal (api_state connect a) clock request endpoint w = (Err e, w)) ∧
  (∀ clock request, token_of (hr_authorization request) = None →
     subject (ap_tokens a) (sk_allow_header_auth (ap_stack a)) clock request = Ok None) ∧
  (∃ e, error_status e = 404 ∧ ∀ clock i token_id w, dev_token (api_state connect a) clock i token_id w = (Err e, w)) ∧
  (serving s = true →
     ts_private_key (ap_tokens a) = jwt_signing_key (authentication s) ∧ ap_store a = redis_store executed ∧
     ap_graph a ≠ None ∧
     ∀ token authorization exposition, ap_metrics a = Some token →
       status_of 0 (oc_messages (metrics_endpoint token authorization exposition)) = 200 →
       authorization = Some (py "Bearer " ++ metrics_token (observability s))).
Proof.
  intros Hl Hc Hd. pose proof (deployed_is_fit np raw s Hl Hd) as Hf.
  apply create_app_ok in Hc as (Es & Ee & Et & Ek & Em & Edb & Eh & Ea & Eg). cbv zeta.
  assert (Ha : bool_decide (auth_mode (authentication s) = py "development-headers") = false) by apply Hf.
  split; [rewrite Edb; apply Hf|]. split.
  { unfold build_embedding_provider in Ee. rewrite (fd_embeddings _ Hf) in Ee.
    destruct (bool_decide _) eqn:Ed in Ee; [by apply bool_decide_eq_true in Ed|].
    destruct (negb _) in Ee; [done|]. injection Ee as Ee. rewrite <-Ee. eauto. }
  split; [by rewrite Eh|]. split; [|split; [|split]].
  - intros authorization Ht.
    destruct (headers_ignored (as_tokens (api_state connect a)) (auth_settings (as_settings (api_state connect a))))
      with (a := authorization) as [text Hno]; [cbn [api_state as_settings]; rewrite Es; exact Ha|exact Ht|].
    exists (AuthenticationRequiredError text). split; [done|]. intros clock request w A endpoint Hr.
    unfold for_principal, principal_dep.
    assert (E : in_kv (get_principal (KS := ap_store a) WINDOW_SECONDS (as_tokens (api_state connect a))
      (auth_settings (as_settings (api_state connect a))) clock request) w = (Err (AuthenticationRequiredError text), w)).
    { unfold in_kv, get_principal. unfold mbind, st_bind at 1, lift. rewrite (Hno clock request Hr). by destruct w. }
    unfold mbind, st_bind. rewrite E. done.
  - intros clock request Hr. unfold subject, token_of in *. destruct (sent (hr_authorization request)) as [x|].
    + by rewrite Hr.
    + by rewrite Ea, Ha.
  - exists (NotFoundError "not found"). split; [done|]. intros clock i token_id w. unfold dev_token.
    assert (El : bool_decide (environment (application (as_settings (api_state connect a))) ∈ [LOCAL; TEST]) = false).
    { cbn [api_state as_settings]. rewrite Es. unfold deployed in Hd. clear -Hd.
      destruct (environment (application s)); [by vm_compute in Hd|by vm_compute in Hd|reflexivity..]. }
    rewrite El. reflexivity.
  - intros Hs. pose proof (serving_is_fit np raw s Hl Hs) as Hv.
    split; [apply (from_settings_key _ _ _ Et), Hv|]. split; [rewrite Ek; apply Hv|]. split.
    + rewrite Eg. unfold build_driver. pose proof (fs_graph _ Hv). by destruct (neo4j_password _).
    + intros t authorization exposition Hm Hst. rewrite Em in Hm. destruct (metrics_enabled _) eqn:En; [|done].
      pose proof (fs_metrics _ Hv En) as Hn. injection Hm as <-. unfold metrics_endpoint, token_or_none in Hst.
      destruct (metrics_token (observability s)) as [|c t] eqn:Et'; [done|].
      destruct (bool_decide _) eqn:Eb in Hst; [|by cbn in Hst]. apply bool_decide_eq_true in Eb.
      destruct authorization as [x|]; [by rewrite Eb|by destruct (py "Bearer ")].
Qed.

End startup.
