(* ===== verification/Scenario.v ===== *)
(** A concrete run of the program: instances for the parts that are not code of
    the repository, a store built by calling the operations, and the theorems of
    the core files applied to it. *)

From S2P Require Import Prelude PyStr Json Canonical Regex Validation Access Temporal History.
From S2P Require Import Database Schema Accounts FactRepo EvidenceService FactService Ledger AppendOnly.

#[export] Instance demo_unicode : UnicodeData :=
  {| uni_lower := id; uni_upper := λ c, [c]; uni_printable := λ _, true |}.

(** [m]e[e] for [m * 2^e]. *)
Definition demo_float_text (f : pyfloat) : pystr :=
  match f with
  | Fin m e => str_of_int m ++ [101] ++ str_of_int e
  | NegZero => [45; 48; 46; 48]
  | _ => []
  end.
#[export] Instance demo_float : FloatRepr := {| float_repr := demo_float_text |}.

#[export] Instance demo_float_laws : FloatReprLaws.
Proof.
  assert (Hi : ∀ n, forallb float_char (str_of_int n) = true).
  { intros n. apply forallb_forall. intros c Hc.
    pose proof (proj1 (forallb_forall _ _) (str_of_int_chars n) c Hc) as H. unfold int_char in H.
    unfold float_char. destruct (is_digit c); [done|]. apply Z.eqb_eq in H as ->. done. }
  assert (He : ∀ n, 101 ∉ str_of_int n).
  { intros n H. by pose proof (forallb_elem _ _ _ (str_of_int_chars n) H). }
  split.
  - intros [m e| | | |] Hf; try done. cbn [float_repr demo_float demo_float_text].
    by rewrite !forallb_app, !Hi.
  - intros [m e| | | |] Hf; try done; cbn [float_repr demo_float demo_float_text]; [|left; set_solver].
    right. set_solver.
  - intros [m e| | | |] [m' e'| | | |] Hf Hg; try done; cbn [float_repr demo_float demo_float_text app].
    + intros H. by apply app_sep_unique in H as [->%str_of_int_inj ->%str_of_int_inj].
    + intros H. exfalso. assert (H' : 101 ∈ [45; 48; 46; 48]) by (rewrite <-H; set_solver). set_solver.
    + intros H. exfalso. assert (H' : 101 ∈ [45; 48; 46; 48]) by (rewrite H; set_solver). set_solver.
Qed.

#[export] Instance demo_sha : Sha256 :=
  {| sha256_hex := λ b, hex_of 64 (fold_left (λ a c, (a * 31 + c + 1) mod 65536) b 7) |}.

Definition admin : TenantContext := {|
  ctx_organization_id := 2; ctx_user_id := 1; ctx_role := ADMIN; ctx_scopes := None;
  ctx_max_privacy_scope := None; ctx_agent_client_id := None |}.

(** One user (1), an organization (2) with its ADMIN, and a source (4). *)
Definition demo_user : db :=
  (register_user (py " Ada@Example.com ") (py "Ada") (set_clock 1000 1000 empty_db)).2.
Definition demo_org : db := (create_organization (py "Acme  Ltd") (py "ACME") 1 demo_user).2.
Definition demo_start : db :=
  (register_source admin (py "billing") SYSTEM_OF_RECORD None (PyInt 90) demo_org).2.

Definition demo_command (value valid_from : Z) : RecordFactVersion := {|
  rc_entity_type := py "Customer"; rc_external_id := py "customer-991";
  rc_property := py "credit_limit"; rc_value := JInt value; rc_source_id := 4;
  rc_valid_from := Aware valid_from; rc_valid_until := None; rc_observed_at := None;
  rc_authority := None; rc_confidence := Some (Dec 95 (-2)); rc_privacy_scope := INTERNAL;
  rc_evidence_ids := [] |}.

Definition demo_first : db := (record_version admin (demo_command 3000 100) (set_clock 2000 2000 demo_start)).2.

Definition demo_run : result fact_version * db :=
  record_version admin (demo_command 5000 500) (set_clock 3000 3000 demo_first).

Example demo_source : map s_id (tab demo_start FactSources) = [4].
Proof. vm_compute. reflexivity. Qed.

Example demo_versions :
  map (λ v, (fv_version v, fv_valid_from v, fv_valid_until v, fv_recorded_at v))
    (tab demo_run.2 FactVersions) = [(1, 100, Some 500, 2000); (2, 500, None, 3000)].
Proof. vm_compute. reflexivity. Qed.

(** * The scenario's store is well formed *)

Lemma set_clock_ledger n w d : ledger_ok d → ledger_ok (set_clock n w d).
Proof. intros [Hc Hf Hh]. split; [exact Hc|exact Hf|exact Hh]. Qed.

Lemma after_ledger {A} (m : DB A) d :
  respects (λ d d', ledger_ok d → ledger_ok d') m → ledger_ok d → ledger_ok (m d).2.
Proof. intros Hm. apply (respects_snd _ m d Hm). Qed.

Lemma demo_user_ok : ledger_ok demo_user.
Proof.
  apply after_ledger; [|apply set_clock_ledger, empty_ledger_ok].
  eapply writes_only_ledger; [apply register_user_writes|set_solver|set_solver].
Qed.

Lemma demo_org_ok : ledger_ok demo_org.
Proof.
  apply after_ledger; [|apply demo_user_ok].
  eapply writes_only_ledger; [apply create_organization_writes|set_solver|set_solver].
Qed.

Lemma demo_start_ok : ledger_ok demo_start.
Proof.
  apply after_ledger; [|apply demo_org_ok].
  eapply writes_only_ledger; [apply register_source_writes|set_solver|set_solver].
Qed.

Lemma demo_first_ok : ledger_ok demo_first.
Proof.
  apply after_ledger; [apply record_version_keeps|]. apply set_clock_ledger, demo_start_ok.
Qed.

(** The second write of the scenario returns version 2. *)
Definition demo_v2 : fact_version := match demo_run.1 with Ok v => v | Err _ => {|
  fv_id := 0; fv_organization_id := 0; fv_fact_id := 0; fv_version := 0; fv_value := JNull;
  fv_source_id := 0; fv_valid_from := 0; fv_valid_until := None; fv_observed_at := 0;
  fv_recorded_at := 0; fv_valid_until_recorded_at := None; fv_supersedes_id := None;
  fv_authority := 0; fv_confidence := 0; fv_privacy_scope := PUBLIC |} end.

Lemma demo_run_eq : record_version admin (demo_command 5000 500) (set_clock 3000 3000 demo_first)
  = (Ok demo_v2, demo_run.2).
Proof.
  unfold demo_v2, demo_run. destruct (record_version _ _ _) as [[v|e] d] eqn:E; [done|].
  exfalso. assert (H : is_ok (record_version admin (demo_command 5000 500) (set_clock 3000 3000 demo_first)).1 = true)
    by (vm_compute; reflexivity).
  by rewrite E in H.
Qed.

(** * Witnesses *)

Lemma every_organization_keeps_an_admin_witness :
  ∃ o, o ∈ tab demo_org Organizations ∧ has_admin (o_id o) demo_org.
Proof.
  exists {| o_id := 2; o_slug := py "acme"; o_name := py "Acme Ltd" |}.
  assert (Hin : {| o_id := 2; o_slug := py "acme"; o_name := py "Acme Ltd" |} ∈ tab demo_org Organizations)
    by (vm_compute; left).
  split; [exact Hin|].
  apply (every_organization_keeps_an_admin demo_org _); [|exact Hin].
  eapply rtc_l; [apply (step_clock _ 1000 1000)|].
  eapply rtc_l; [apply (step_register _ (py " Ada@Example.com ") (py "Ada"))|].
  eapply rtc_l; [apply (step_create _ (py "Acme  Ltd") (py "ACME") 1)|]. apply rtc_refl.
Defined.

Lemma record_version_keeps_ledger_witness : ledger_ok demo_run.2.
Proof.
  apply (record_version_keeps_ledger admin (demo_command 5000 500) (set_clock 3000 3000 demo_first)
    (Ok demo_v2)); [apply set_clock_ledger, demo_first_ok | exact demo_run_eq].
Defined.

Lemma record_version_appends_witness :
  fv_organization_id demo_v2 = 2 ∧ length (versions_of (fv_fact_id demo_v2) demo_run.2) = 2%nat.
Proof.
  destruct (record_version_appends admin (demo_command 5000 500) (set_clock 3000 3000 demo_first)
    demo_v2 demo_run.2) as (H & _);
    [apply set_clock_ledger, demo_first_ok | exact demo_run_eq |].
  split; [exact H | vm_compute; reflexivity].
Defined.

Lemma record_version_preserves_past_knowledge_witness :
  known_history (history_of (fv_fact_id demo_v2) demo_run.2) (Some 2500)
  = known_history (history_of (fv_fact_id demo_v2) (set_clock 3000 3000 demo_first)) (Some 2500)
  ∧ length (known_history (history_of (fv_fact_id demo_v2) demo_run.2) (Some 2500)) = 1%nat.
Proof.
  split; [|vm_compute; reflexivity].
  apply (record_version_preserves_past_knowledge admin (demo_command 5000 500)
    (set_clock 3000 3000 demo_first) demo_v2 demo_run.2 2500);
    [apply set_clock_ledger, demo_first_ok | exact demo_run_eq | vm_compute; reflexivity].
Defined.

Lemma resolve_total_and_unique_witness :
  ∃ r, resolve (history_of (fv_fact_id demo_v2) demo_run.2) (Aware 700) (Some (Aware 2500)) = Ok r
       ∧ option_map vs_version r = Some 1.
Proof.
  destruct (resolve_total_and_unique (fv_fact_id demo_v2) demo_run.2 700 (Some (Aware 2500)) (Some 2500))
    as (r & Hr & _); [|reflexivity|].
  - apply (record_version_keeps admin (demo_command 5000 500) _ _ _ demo_run_eq).
    apply set_clock_ledger, demo_first_ok.
  - exists r. split; [exact Hr|].
    assert (E : match resolve (history_of (fv_fact_id demo_v2) demo_run.2) (Aware 700) (Some (Aware 2500)) with
                | Ok r => option_map vs_version r = Some 1 | Err _ => False end)
      by (vm_compute; reflexivity).
    rewrite Hr in E. exact E.
Defined.

Lemma known_versions_are_a_prefix_witness :
  ∃ n, known_history (history_of (fv_fact_id demo_v2) demo_run.2) (Some 2500)
       = map (λ v, as_known v (Some 2500)) (take n (history_of (fv_fact_id demo_v2) demo_run.2)).
Proof.
  apply (known_versions_are_a_prefix (fv_fact_id demo_v2) demo_run.2 (Some 2500)).
  apply (record_version_keeps admin (demo_command 5000 500) _ _ _ demo_run_eq).
  apply set_clock_ledger, demo_first_ok.
Defined.

(** Attempts on the store past the program: to rewrite every value, to close every
    version again, to delete them, to close the open one, to remove the members. *)
Definition tampering : list sql := [
  UPDATE FactVersions (λ _, true) (λ v, {| fv_id := fv_id v; fv_organization_id := fv_organization_id v;
    fv_fact_id := fv_fact_id v; fv_version := fv_version v; fv_value := JInt 1; fv_source_id := fv_source_id v;
    fv_valid_from := fv_valid_from v; fv_valid_until := fv_valid_until v; fv_observed_at := fv_observed_at v;
    fv_recorded_at := fv_recorded_at v; fv_valid_until_recorded_at := fv_valid_until_recorded_at v;
    fv_supersedes_id := fv_supersedes_id v; fv_authority := fv_authority v; fv_confidence := fv_confidence v;
    fv_privacy_scope := fv_privacy_scope v |});
  UPDATE FactVersions (λ _, true) (FactRepository.with_end 600 4000);
  DELETE FactVersions (λ _, true);
  UPDATE FactVersions (λ v, bool_decide (fv_valid_until v = None)) (FactRepository.with_end 900 4000);
  DELETE Memberships (λ _, true)].

Lemma no_statement_rewrites_history_witness :
  map (λ v, (fv_value v, fv_valid_until v)) (tab (session tampering demo_run.2) FactVersions)
  = [(JInt 3000, Some 500); (JInt 5000, Some 900)] ∧
  ∃ old new, tab (session tampering demo_run.2) FactVersions = old ++ new ∧
    Forall2 (λ v v', same_claim v v' = true ∧
                     (fv_valid_until v ≠ None → fv_valid_until v' = fv_valid_until v ∧
                        fv_valid_until_recorded_at v' = fv_valid_until_recorded_at v))
            (tab demo_run.2 FactVersions) old.
Proof.
  split; [vm_compute; reflexivity|].
  apply (no_statement_rewrites_history tampering demo_run.2). intros s Hs.
  unfold tampering in Hs. rewrite !elem_of_cons in Hs. by destruct Hs as [->|[->|[->|[->|[->|?%elem_of_nil]]]]].
Defined.
