(* ===== verification/ScenarioStore.v ===== *)
(** Concrete runs of the shared store's clients on the in-process store: the
    theorems of Store.v and RetrievalCache.v applied to them. *)

From stdpp Require Import gmap.
From S2P Require Import Prelude PyStr Json Canonical Regex Validation Access Temporal History.
From S2P Require Import Database Schema Accounts FactRepo EvidenceService FactService Ledger.
From S2P Require Import TemporalService Ranking Retrieval Store RetrievalCache Scenario.

(** The store of a deployment without Redis, at time 0. *)
#[export] Instance demo_kv : KeyValueStore := build_store (λ _, false) [].
#[export] Instance demo_kv_laws : KeyValueStoreLaws := build_store_laws (λ _, false) [].
Definition kv_start : kv := {| kv_data := ∅; kv_clock := 0; kv_up := true |}.

(** A computation that is seen to succeed returns something. *)
Lemma ok_run {S A} (m : result A * S) : is_ok m.1 = true → ∃ a, m = (Ok a, m.2).
Proof. destruct m as [[a|e] s]; [by exists a|done]. Qed.

(** A computation that is seen to succeed, its result kept abstract. *)
Lemma ok_run_state {S A} (m : result A * S) (P : A → S → Prop) :
  match m.1 with Ok a => P a m.2 | Err _ => False end → ∃ a s, m = (Ok a, s) ∧ P a s.
Proof. destruct m as [[a|e] s]; [by exists a, s|done]. Qed.

Lemma empty_counter_ok k : counter_ok kv_start k.
Proof. by intros v e H. Qed.

(** * Rate limiting: 60 seconds, 2 requests *)

(** The third request meets a Redis that executes its command and does not answer. *)
Definition demo_hits : result (list bool) * kv := hits_at (KS := redis_store (λ _, true)) 60 (py "user-1") 2
  [(1000, true); (2000, true); (2500, false); (3000, true); (59000, true)] kv_start.

Lemma rate_limit_bounds_any_interval_witness :
  demo_hits.1 = Ok [true; true; true; false; false] ∧
  allowed_answered [(1000, true); (2000, true); (2500, false); (3000, true); (59000, true)] [true; true; true; false; false] ≤ 2.
Proof.
  split; [vm_compute; reflexivity|].
  destruct (rate_limit_bounds_any_interval (KS := redis_store (λ _, true)) 60
    (KL := build_store_laws (λ _, true) (py "redis://store")) ltac:(lia) (py "user-1") 2 1000 true
    [(2000, true); (2500, false); (3000, true); (59000, true)] kv_start [true; true; true; false; false] demo_hits.2) as [_ H].
  - apply empty_counter_ok.
  - lia.
  - repeat constructor; cbn; lia.
  - intros u Hu. cbn [map fst] in Hu. rewrite !elem_of_cons in Hu. destruct Hu as [->|[->|[->|[->|Hu]]]]; [lia..|].
    by apply not_elem_of_nil in Hu.
  - vm_compute. reflexivity.
  - apply H. reflexivity.
Defined.

(** A request that no allowance is left for. *)
Definition demo_refused : result RateLimitDecision * kv := hit 60 (py "user-1") 0 kv_start.

Lemma rate_limit_retry_after_witness :
  ∃ r, demo_refused.1 = Ok r ∧ rl_allowed r = false ∧ rl_remaining r = 0 ∧ 1 ≤ rl_retry_after_seconds r.
Proof.
  destruct (ok_run demo_refused) as [r Hr]; [vm_compute; reflexivity|].
  assert (Ha : rl_allowed r = false).
  { assert (H : match demo_refused.1 with Ok r => rl_allowed r | Err _ => true end = false)
      by (vm_compute; reflexivity). by rewrite Hr in H. }
  exists r. split; [by rewrite Hr|]. split; [exact Ha|].
  destruct (rate_limit_retry_after 60 ltac:(lia) (py "user-1") 0 kv_start r demo_refused.2)
    as (H1 & H2 & _); [reflexivity|apply empty_counter_ok|exact Hr|exact Ha|]. by split.
Defined.

(** * OAuth states *)

#[export] Instance demo_json_loads : JsonLoads := {|
  json_loads := λ b, if bool_decide (b = []) then Err JSONDecodeError else Ok (JInt (zlen b));
  json_loads_text := λ s, if bool_decide (s = []) then Err JSONDecodeError
    else Ok (JObj [(py "answer", JStr (py "The limit is 5000.")); (py "insufficient_evidence", JBool false);
                   (py "cited_facts", JList [JStr (py "f1")]); (py "inferences", JList [])]) |}.

Definition demo_issued : result pystr * kv := issue 600 (py "abc") (JObj []) kv_start.
Definition demo_consumed : result (option json) * kv := consume (py "abc") demo_issued.2.

Lemma oauth_issue_consume_witness :
  demo_issued.1 = Ok (py "abc") ∧ (consume (py "abc") (at_time 1000 demo_issued.2)).1 = Ok (Some (JInt 2)).
Proof.
  destruct (ok_run demo_issued) as [st Hst]; [vm_compute; reflexivity|].
  destruct (oauth_issue_consume 600 (py "abc") (JObj []) kv_start st demo_issued.2 1000)
    as (text & encoded & Ht & He & -> & Hc);
    [lia|reflexivity|reflexivity|exact Hst|cbn; lia|].
  split; [by rewrite Hst|]. rewrite Hc.
  assert (E : text = py "{}") by (cbn in Ht; by injection Ht as <-). rewrite E in He.
  vm_compute in He. injection He as <-. vm_compute. reflexivity.
Defined.

Lemma oauth_state_single_use_witness :
  demo_consumed.1 = Ok (Some (JInt 2)) ∧ (consume (py "abc") (at_time 5000 demo_consumed.2)).1 = Ok None.
Proof.
  split; [vm_compute; reflexivity|].
  destruct (ok_run (consume (py "abc") (at_time 5000 demo_consumed.2))) as [q Hq]; [vm_compute; reflexivity|].
  assert (Hk : ∃ k, oauth_key (py "abc") = Ok k) by (by eexists). destruct Hk as [k Hk].
  rewrite Hq. cbn [fst]. f_equal.
  apply (oauth_state_single_use (py "abc") k demo_issued.2 (JInt 2) demo_consumed.2
           (at_time 5000 demo_consumed.2) q (consume (py "abc") (at_time 5000 demo_consumed.2)).2).
  - exact Hk.
  - vm_compute. reflexivity.
  - apply rtc_once, step_time. vm_compute. done.
  - exact Hq.
Defined.
