(* ===== verification/ScenarioSearch.v ===== *)
(** A concrete search: scores over integers, a small text index, and the theorems
    of TemporalService.v, Ranking.v, Retrieval.v, RetrievalCache.v and Grounding.v
    applied to the store of Scenario.v. *)

From stdpp Require Import gmap.
From S2P Require Import Prelude PyStr Json Canonical Regex Validation Access Temporal History.
From S2P Require Import AppendOnly Database Schema Calendar Accounts FactRepo EvidenceService FactService.
From S2P Require Import Ledger TemporalService Ranking Generation Retrieval Grounding Store.
From S2P Require Import RetrievalCache Scenario ScenarioStore.

(** Scores in billionths. *)
#[export] Instance demo_scores : ScoreOps := {|
  score := Z; s_zero := 0; s_one := 1000000000; s_add := Z.add; s_sub := Z.sub;
  s_mul := λ a b, a * b / 1000000000; s_recip := λ n, 1000000000 / n;
  s_of_thousandths := λ c, c * 1000000; s_of_percent := λ n, n * 10000000; s_leb := Z.leb |}.

#[export] Instance demo_score_laws : ScoreLaws.
Proof.
  split; cbn; [intros a b ?%Z.leb_gt|intros a b c ?%Z.leb_le ?%Z.leb_le|intros a b ?%Z.leb_le ?%Z.leb_le];
    try apply Z.leb_le; lia.
Defined.

(** Documents and queries are lists of words; every text embeds to one number. *)
#[export] Instance demo_engine : SearchEngine := {|
  tsvector := list pystr; tsquery := list pystr; vector := Z; or_tsquery := split_ws;
  ts_match := λ d q, existsb (λ w, bool_decide (w ∈ d)) q;
  ts_rank_cd := λ d q, zlen (where_ (λ w, bool_decide (w ∈ d)) q);
  cosine_distance := λ a b, Z.abs (a - b); hnsw_scan := λ n l, take (Z.to_nat n) l;
  confidence_at_least := λ d c, match d with Dec m e => m * 10 ^ (e + 3) <=? c | _ => false end;
  provider_model_id := py "demo-embeddings";
  provider_embed := λ texts, Some (map (λ t, zlen t) texts) |}.

#[export] Instance demo_engine_laws : SearchEngineLaws.
Proof.
  split.
  - intros n l. apply sublist_submseteq, sublist_take.
  - intros n l. unfold hnsw_scan, zlen. cbn. rewrite length_take. lia.
Defined.

#[export] Instance demo_request_text : RequestText := {|
  score_float := λ s, Fin s 0;
  decimal_str := λ d, match d with Dec m e => str_of_int m ++ [69] ++ str_of_int e | _ => py "NaN" end;
  datetime_iso := λ t, match t with Aware us => utc_iso us | Naive us => str_of_int us end |}.

(** * Ranking *)

Definition demo_vectors : list VectorHit :=
  [{| vh_id := 7; vh_distance := 5 |}; {| vh_id := 9; vh_distance := 2 |}; {| vh_id := 7; vh_distance := 1 |}].
Definition demo_texts : list TextHit :=
  [{| th_id := 9; th_score := 3 |}; {| th_id := 11; th_score := 8 |}].
Definition demo_trust : list (UUID * score) := [(7, 900000000); (9, 500000000); (11, 100000000)].

Lemma fuse_deterministic_witness :
  fuse demo_vectors demo_texts demo_trust 300000000 60
  = fuse (rev demo_vectors) (rev demo_texts) demo_trust 300000000 60.
Proof.
  apply (fuse_deterministic demo_vectors (rev demo_vectors) demo_texts (rev demo_texts) demo_trust
           300000000 60 (fused_ids demo_vectors demo_texts));
    [apply Permutation_rev|apply Permutation_rev|done].
Defined.

Lemma fuse_spec_witness :
  ∃ r, fuse demo_vectors demo_texts demo_trust 300000000 60 = Ok r ∧ NoDup (map rc_id r) ∧ length r = 3%nat.
Proof.
  assert (H : match fuse demo_vectors demo_texts demo_trust 300000000 60 with
              | Ok r => length r = 3%nat | Err _ => False end) by (vm_compute; reflexivity).
  destruct (fuse demo_vectors demo_texts demo_trust 300000000 60) as [r|e] eqn:E; [|done].
  exists r. split; [done|]. split; [|exact H].
  apply (fuse_spec demo_vectors demo_texts demo_trust 300000000 60 r E).
Defined.

(** * The SQL engine *)

Lemma demo_run_ok : ledger_ok demo_run.2.
Proof.
  apply (record_version_keeps admin (demo_command 5000 500) _ _ _ demo_run_eq).
  apply set_clock_ledger, demo_first_ok.
Qed.

Lemma demo_nothing_revoked v k : revoked_as_known v k demo_run.2 = false.
Proof.
  unfold revoked_as_known, exists_row.
  assert (E : tab demo_run.2 FactRevocations = []) by (vm_compute; reflexivity). by rewrite E.
Qed.

Lemma sql_matches_reference_witness :
  resolve (history_of (fv_fact_id demo_v2) demo_run.2) (Aware 700) None
  = Ok (head (sql_answer demo_run.2 (fv_fact_id demo_v2) 700 None)) ∧
  option_map vs_version (head (sql_answer demo_run.2 (fv_fact_id demo_v2) 700 None)) = Some 2.
Proof.
  split; [|vm_compute; reflexivity].
  apply (sql_matches_reference demo_run.2 (fv_fact_id demo_v2) 700 None None).
  - apply demo_run_ok.
  - reflexivity.
  - intros v _. apply demo_nothing_revoked.
Defined.

Lemma sql_answer_with_revocations_witness :
  as_known (to_snapshot demo_v2) None ∈ sql_answer demo_run.2 (fv_fact_id demo_v2) 700 None.
Proof.
  apply (sql_answer_with_revocations demo_run.2 (fv_fact_id demo_v2) 700 None demo_v2).
  - apply demo_run_ok.
  - apply (list_elem_of_lookup_2 _ 1). vm_compute. reflexivity.
  - split; [apply (list_elem_of_lookup_2 _ 1); vm_compute; reflexivity|]. split; [vm_compute; reflexivity|apply demo_nothing_revoked].
Defined.

(** * Search *)

Definition demo_index : search_index := {|
  si_documents := map (λ v, {| sd_organization_id := 2; sd_fact_version_id := fv_id v;
                               sd_vector := [py "credit"; py "limit"] |}) (tab demo_run.2 FactVersions);
  si_embeddings := map (λ v, {| fe_organization_id := 2; fe_fact_version_id := fv_id v;
                                fe_model := py "demo-embeddings"; fe_embedding := 12 |})
                     (tab demo_run.2 FactVersions) |}.

Definition demo_request : RetrievalQuery := {|
  rq_query := py "credit  limit"; rq_limit := 5; rq_valid_at := Some (Aware 700);
  rq_known_at := None; rq_entity_type := None; rq_external_ids := []; rq_properties := [];
  rq_source_ids := []; rq_min_authority := None; rq_min_confidence := None;
  rq_max_privacy_scope := None; rq_trust_weight := 300000000 |}.

Local Notation demo_searched :=
  (search None 900 id demo_index admin demo_request (demo_run.2, ())).

Lemma search_returns_only_visible_facts_witness :
  ∃ r s', demo_searched = (Ok r, s') ∧ rr_cache r = CS_off ∧ rr_valid_at r = 700 ∧
       map (λ t, vs_id (rt_version t)) (rr_results r) = [fv_id demo_v2].
Proof.
  destruct (ok_run_state demo_searched (λ r _, rr_valid_at r = 700 ∧
    map (λ t, vs_id (rt_version t)) (rr_results r) = [fv_id demo_v2])) as (r & [d c] & Hr & Ht & Hids);
    [vm_compute; split; reflexivity|].
  exists r, (d, c). split; [exact Hr|].
  pose proof (search_returns_only_visible_facts 900 id demo_index admin demo_request demo_run.2 ()
    r d c) as H. specialize (H Hr (lo_consistent demo_run.2 demo_run_ok)).
  destruct H as (_ & _ & Hc & _). split; [exact Hc|]. split; [exact Ht|exact Hids].
Defined.

(** ** A cache of results: one list, keyed by organization, query and scopes *)

Definition list_cache : ResultCache (list (pystr * RetrievalResult)) := {|
  cache_generation := λ _, mret (Some 0);
  cache_key := λ m, Ok (uuid_str (ck_organization_id m) ++ ck_query m ++ concat (map scope_text (ck_scopes m)));
  cache_get := λ k, gets (λ c, option_map snd (List.find (λ e, bool_decide (e.1 = k)) c));
  cache_put := λ k r, modify (cons (k, r)) |}.

#[export] Instance list_cache_laws : CacheLaws list_cache.
Proof.
  refine {| stored := λ (c : list (pystr * RetrievalResult)) k r, (k, r) ∈ c |}.
  - by intros org c g c' [= _ <-].
  - intros key c r c' [= <- <-]. split; [done|]. intros r' [= H].
    destruct (List.find _ c) as [[k r0]|] eqn:E; [|done]. injection H as ->.
    apply find_some in E as [E Hk]. apply bool_decide_eq_true in Hk as <-. by apply list_elem_of_In.
  - intros key r c x c' [= _ <-] k r' H. apply elem_of_cons in H as [[= -> ->]|H]; [by right|by left].
Defined.

#[export] Instance list_cache_tenants : TenantKeys list_cache.
Proof.
  intros m m' k Hm Hm' Hk Hk'. pose proof (eq_trans Hk (eq_sym Hk')) as E. cbn [cache_key list_cache] in E.
  apply (f_equal (λ x, match x with Ok k => k | Err _ => [] end)) in E. cbn beta iota in E.
  apply app_inj_length in E as [E _]; [by apply uuid_str_inj|by rewrite !length_uuid_str].
Qed.

Local Notation demo_cached c :=
  (search (Some list_cache) 900 id demo_index admin demo_request (demo_run.2, c)).

(** A second search is answered by the entry that the first one stored. *)
Example demo_cache_hit :
  match demo_cached [] with
  | (Ok r, (_, c)) => match (demo_cached c).1 with
                      | Ok r' => Some (rr_cache r, rr_cache r', map (λ t, rc_id (rt_ranking t)) (rr_results r'))
                      | Err _ => None
                      end
  | _ => None
  end = Some (CS_miss, CS_hit, [17]).
Proof. vm_compute. reflexivity. Qed.

Lemma empty_cache_sound : cache_sound list_cache demo_run.2 [].
Proof. intros k x Hx. by apply not_elem_of_nil in Hx. Qed.

Lemma current_role_unique d org user role role' :
  current_role d org user role → current_role d org user role' → role = role'.
Proof. intros (_ & m & Hm & <-) (_ & m' & Hm' & <-). rewrite Hm in Hm'. by injection Hm' as ->. Qed.

Lemma search_keeps_cache_sound_witness :
  ∃ r d c, demo_cached [] = (Ok r, (d, c)) ∧ length c = 1%nat ∧ cache_sound list_cache d c.
Proof.
  destruct (ok_run_state (demo_cached []) (λ _ s, length s.2 = 1%nat)) as (r & [d c] & E & H);
    [vm_compute; reflexivity|].
  exists r, d, c. split; [exact E|]. split; [exact H|].
  apply (search_keeps_cache_sound list_cache 900 id demo_index admin demo_request demo_run.2 [] r (d, c)).
  - apply empty_cache_sound.
  - apply (lo_consistent demo_run.2 demo_run_ok).
  - unfold id. exact (PreOrder_Reflexive (R := append_only) _).
  - intros role role' H1 H2. exact (current_role_unique _ _ _ _ _ H2 H1).
  - exact E.
Defined.

(** An entry that shows version 2 to readers of INTERNAL facts. *)
Definition demo_entry : RetrievalResult := {|
  rr_query := py "credit limit"; rr_valid_at := 700; rr_known_at := None;
  rr_vector_search := VS_used; rr_embedding_model := py "demo-embeddings";
  rr_privacy_scopes := [PUBLIC; INTERNAL; CONFIDENTIAL; RESTRICTED];
  rr_vector_candidates := 1; rr_text_candidates := 1;
  rr_results := [{| rt_version := as_known (to_snapshot demo_v2) None; rt_entity_type := py "customer";
                    rt_external_id := py "customer-991"; rt_property := py "credit_limit";
                    rt_source_name := py "billing"; rt_source_type := SYSTEM_OF_RECORD;
                    rt_ranking := {| rc_id := 17; rc_vector_rank := Some 1; rc_vector_distance := Some 0;
                                     rc_text_rank := None; rc_text_score := None; rc_rrf_score := 1;
                                     rc_trust := 1; rc_score := 1 |} |}];
  rr_cache := CS_miss |}.

Definition demo_material : cache_material := {|
  ck_organization_id := 2; ck_generation := 0;
  ck_scopes := visible_privacy_scopes ADMIN [None; None]; ck_model := py "demo-embeddings";
  ck_query := py "credit limit"; ck_limit := 5; ck_trust_weight := 300000000;
  ck_filters := {| fl_entity_type := None; fl_external_ids := []; fl_properties := [];
                   fl_source_ids := []; fl_min_authority := None; fl_min_confidence := None |};
  ck_valid_at := Some (Aware 700); ck_known_at := None |}.

Definition demo_entries : list (pystr * RetrievalResult) :=
  [(uuid_str 2 ++ py "credit limit" ++ concat (map scope_text [PUBLIC; INTERNAL; CONFIDENTIAL; RESTRICTED]), demo_entry)].

Lemma demo_v2_stored : demo_v2 ∈ tab demo_run.2 FactVersions.
Proof.
  destruct (record_version_appends admin (demo_command 5000 500) (set_clock 3000 3000 demo_first) demo_v2 demo_run.2)
    as (_ & _ & _ & _ & k & Hk & _); [apply set_clock_ledger, demo_first_ok|exact demo_run_eq|].
  assert (Hin : demo_v2 ∈ versions_of (fv_fact_id demo_v2) demo_run.2)
    by (rewrite Hk; apply elem_of_app; right; by left).
  by apply elem_of_where_ in Hin as [_ ?].
Qed.

Lemma demo_entries_sound : cache_sound list_cache demo_run.2 demo_entries.
Proof.
  intros k x Hx. apply list_elem_of_singleton in Hx. injection Hx as -> ->.
  exists demo_material. split; [reflexivity|]. intros t Ht. apply list_elem_of_singleton in Ht as ->.
  exists demo_v2, demo_v2. split; [exact demo_v2_stored|].
  split; [exact (PreOrder_Reflexive (R := becomes) _)|]. split; [reflexivity|].
  split; [vm_compute; reflexivity|apply (bool_decide_eq_true_1 _); vm_compute; reflexivity].
Qed.

Lemma cache_hit_stays_visible_witness :
  ∃ r s' role, demo_cached demo_entries = (Ok r, s') ∧ rr_cache r = CS_hit ∧
    current_role demo_run.2 2 1 role ∧ has_permission role READ_FACTS = true.
Proof.
  destruct (ok_run_state (demo_cached demo_entries) (λ r _, rr_cache r = CS_hit)) as (r & s' & E & H);
    [vm_compute; reflexivity|].
  destruct (cache_hit_stays_visible list_cache 900 id demo_index admin demo_request demo_run.2
    demo_entries r s' demo_entries_sound E H) as (role & _ & _ & _ & Hr & Hp & _).
  exists r, s', role. split; [exact E|]. split; [exact H|]. split; [exact Hr|exact Hp].
Defined.

(** ** The shared cache: invalidation *)

#[export] Instance demo_codec : ResultCodec := {|
  dump_result := λ r, 123 :: rr_query r; validate_result := λ _, None |}.

Definition demo_counted : kv := (invalidate 2 kv_start).2.

Lemma demo_counted_ok : counter_ok demo_counted (generation_key 2).
Proof.
  intros v e H. assert (E : live_entry demo_counted (generation_key 2) = Some (str_of_int 1, 604800000))
    by (vm_compute; reflexivity).
  rewrite E in H. injection H as <- <-. exists 1. split; [lia|reflexivity].
Qed.

Definition next_material : cache_material := {|
  ck_organization_id := 2; ck_generation := 2; ck_scopes := ck_scopes demo_material;
  ck_model := ck_model demo_material; ck_query := ck_query demo_material;
  ck_limit := ck_limit demo_material; ck_trust_weight := ck_trust_weight demo_material;
  ck_filters := ck_filters demo_material; ck_valid_at := ck_valid_at demo_material;
  ck_known_at := ck_known_at demo_material |}.
Definition first_material : cache_material := {|
  ck_organization_id := 2; ck_generation := 1; ck_scopes := ck_scopes demo_material;
  ck_model := ck_model demo_material; ck_query := ck_query demo_material;
  ck_limit := ck_limit demo_material; ck_trust_weight := ck_trust_weight demo_material;
  ck_filters := ck_filters demo_material; ck_valid_at := ck_valid_at demo_material;
  ck_known_at := ck_known_at demo_material |}.

Lemma invalidate_orphans_entries_witness :
  ∃ k k', key first_material = Ok k ∧ key next_material = Ok k' ∧ k' ≠ k ∧
    ∃ s', invalidate 2 demo_counted = (Ok (), s') ∧ (generation 2 s').1 = Ok (Some 2).
Proof.
  destruct (ok_run_state (key first_material, ()) (λ _ _, True)) as (k & ? & Hk%(f_equal fst) & _);
    [vm_compute; exact I|].
  destruct (ok_run_state (key next_material, ()) (λ _ _, True)) as (k' & ? & Hk'%(f_equal fst) & _);
    [vm_compute; exact I|].
  destruct (invalidate_orphans_entries 2 demo_counted 1 604800000 first_material next_material k k')
    as (s' & H1 & H2 & H3);
    [reflexivity|apply demo_counted_ok|vm_compute; reflexivity|reflexivity|reflexivity|exact Hk|reflexivity|exact Hk'|].
  exists k, k'. split; [exact Hk|]. split; [exact Hk'|]. split; [apply H3; reflexivity|].
  exists s'. split; [exact H1|exact H2].
Defined.

Lemma generation_can_repeat_witness :
  (generation 2 demo_counted).1 = Ok (Some 1) ∧
  (generation 2 (invalidate 2 (at_time 604800000 demo_counted)).2).1 = Ok (Some 1).
Proof.
  apply (generation_can_repeat 2 demo_counted 604800000 604800000);
    [reflexivity|apply demo_counted_ok|vm_compute; reflexivity|lia|vm_compute; discriminate].
Defined.

(** * An answer *)

(** A model that cites the first fact. *)
#[export] Instance demo_provider : GenerationProvider := {|
  model_id := py "demo-model";
  generate := λ _, Ok {| gn_text := py "{...}"; gn_provider := py "demo"; gn_model := py "demo-model";
    gn_finish_reason := py "stop"; gn_usage := {| gu_input_tokens := 10; gu_output_tokens := 5 |};
    gn_attempts := 1; gn_tool_calls := [] |} |}.

Definition demo_question : AnswerQuery := {|
  aq_question := py "credit  limit"; aq_valid_at := Some (Aware 700); aq_known_at := None;
  aq_limit := 5; aq_entity_type := None; aq_external_ids := []; aq_properties := [];
  aq_max_privacy_scope := None |}.

Local Notation demo_answered := (answer (search None 900 id demo_index) GROUNDED_ANSWER_V2 500 None admin
  demo_question (demo_run.2, ())).

Lemma answers_cite_only_visible_facts_witness :
  ∃ a s', demo_answered = (Ok a, s') ∧ ga_status a = ANSWERED ∧ ga_citations a ≠ [] ∧
    ∃ text, ga_answer a = Some text ∧ text ≠ [].
Proof.
  destruct (ok_run_state demo_answered (λ a _, ga_status a = ANSWERED)) as (a & s' & E & Ha);
    [vm_compute; reflexivity|].
  destruct (answers_cite_only_visible_facts 900 id demo_index GROUNDED_ANSWER_V2 500 None admin
    demo_question demo_run.2 () a s' E (lo_consistent demo_run.2 demo_run_ok))
    as (fl & role & r & _ & _ & _ & _ & _ & H & _).
  exists a, s'. split; [exact E|]. split; [exact Ha|]. apply H, Ha.
Defined.
