(* ===== verification/ScenarioDecisions.v ===== *)
(** A concrete decision: a context captured from the search of ScenarioSearch.v, a
    decision resting on it, its receipt, a revocation and a contradiction, and the
    theorems of the decision files applied to them. *)

From stdpp Require Import gmap.
From S2P Require Import Prelude PyStr Json Canonical Regex Validation Access Temporal History.
From S2P Require Import Database Schema Calendar Accounts FactRepo EvidenceService FactService.
From S2P Require Import Ledger TemporalService Ranking Generation Retrieval Grounding.
From S2P Require Import ContradictionService Store RetrievalCache Encoding Decisions Receipts.
From S2P Require Import Sealing Capture Revocations Scenario ScenarioStore ScenarioSearch.

(** * Checking a concrete store *)

Definition all_tables : list table :=
  [Users; Organizations; Memberships; Entities; FactSources; Facts; FactVersions; Evidence;
   EvidenceLinks; ContextSnapshots; SnapshotFacts; Decisions; DecisionFacts; Contradictions;
   FactRevocations; RevocationImpacts; FactEmbeddings; EmbeddingJobs; ProcessedEvents;
   ActivityDaily; AgentClients; AgentRuns; EventOutbox; GraphOutbox].

Definition consistentb (d : db) : bool :=
  forallb (λ t, outbox t || is_ok (for_pairs (compatible t) (tab d t))) all_tables.

Lemma consistentb_ok d : consistentb d = true → consistent d.
Proof.
  intros H t Ht. assert (Hin : t ∈ all_tables) by (destruct t; set_solver).
  apply (forallb_elem _ _ _ H) in Hin. cbv beta in Hin. rewrite Ht in Hin. cbn [orb] in Hin.
  by destruct (for_pairs _ _) as [[]|].
Qed.

Definition decisions_okb (d : db) : bool :=
  consistentb d &&
  forallb (λ y, fk_decision (df_organization_id y) (df_decision_id y) (df_snapshot_id y) d
                && fk_snapshot_fact (df_snapshot_id y) (df_fact_version_id y) d) (tab d DecisionFacts) &&
  forallb (λ y, fk_snapshot (sf_organization_id y) (sf_snapshot_id y) d) (tab d SnapshotFacts).

Lemma decisions_okb_ok d : decisions_okb d = true → decisions_ok d.
Proof.
  unfold decisions_okb. rewrite !andb_true_iff. intros [[Hc Hf] Hs].
  split; [by apply consistentb_ok| |].
  - intros y Hy. apply andb_true_iff, (forallb_elem _ _ _ Hf Hy).
  - intros y Hy. apply (forallb_elem _ _ _ Hs Hy).
Qed.

#[export] Instance demo_jsonb : Jsonb := {| jsonb_read := id |}.

(** * Capturing a context *)

Definition demo_before : db := set_clock 4000 4000 demo_run.2.
Local Notation demo_captured := (capture_context 900 id demo_index admin demo_request demo_before).
Definition demo_context : db := demo_captured.2.


(** The last conjunct of [H]. *)
Ltac last_of H := cbv zeta in H; repeat match type of H with _ ∧ _ => destruct H as [_ H] end.

Lemma demo_before_ok : decisions_ok demo_before.
Proof. apply decisions_okb_ok. vm_compute. reflexivity. Qed.

Lemma demo_context_ok : decisions_ok demo_context.
Proof. apply decisions_okb_ok. vm_compute. reflexivity. Qed.

Lemma capture_context_freezes_witness :
  ∃ cap d', demo_captured = (Ok cap, d') ∧ decisions_ok d' ∧
    map sf_fact_version_id (tab d' SnapshotFacts) = [fv_id demo_v2].
Proof.
  destruct (ok_run_state demo_captured (λ _ d', map sf_fact_version_id (tab d' SnapshotFacts) = [fv_id demo_v2]))
    as (cap & d' & E & Hf); [vm_compute; reflexivity|].
  exists cap, d'. split; [exact E|].
  pose proof (capture_context_freezes 900 id demo_index admin demo_request demo_before cap d') as H.
  specialize (H E demo_before_ok). split; [|exact Hf].
  destruct H as (sn & fl & role & H). last_of H. exact H.
Defined.

(** * Deciding *)

Definition demo_decision : RecordDecision := {|
  rd_snapshot_id := 21; rd_action := py "approve"; rd_outcome := JObj [(py "limit", JInt 5000)];
  rd_relied_on := [17]; rd_rationale := None; rd_agent := Some (py "underwriter") |}.

Local Notation demo_decided := (record_decision admin demo_decision demo_context).


Definition demo_after : db := set_clock 5000 5000 demo_decided.2.

(** The same reader with a ceiling below the scope of the fact. *)
Definition public_reader : TenantContext := {|
  ctx_organization_id := 2; ctx_user_id := 1; ctx_role := ADMIN; ctx_scopes := None;
  ctx_max_privacy_scope := Some PUBLIC; ctx_agent_client_id := None |}.
Definition demo_decision_id : UUID := default 0 (head (map d_id (tab demo_after Decisions))).
Local Notation demo_receipt := (receipt reloaded public_reader demo_decision_id demo_after).

Lemma receipt_hides_invisible_facts_witness :
  ∃ r d' f, demo_receipt = (Ok r, d') ∧ d' = demo_after ∧ dr_facts r = [f] ∧ rf_redacted f = true.
Proof.
  destruct (ok_run_state demo_receipt (λ r _, match dr_facts r with [f] => rf_privacy_scope f = INTERNAL | _ => False end))
    as (r & d' & E & Hf); [vm_compute; reflexivity|].
  destruct (dr_facts r) as [|f [|]] eqn:Ef; [destruct Hf| |destruct Hf].
  exists r, d', f. split; [exact E|].
  destruct (receipt_hides_invisible_facts reloaded public_reader demo_decision_id demo_after r d' E)
    as (-> & role & _ & _ & H). split; [reflexivity|]. split; [exact Ef|].
  destruct (H f) as [Hh _]; [rewrite Ef; left|]. apply Hh. rewrite Hf.
  destruct role; apply (bool_decide_eq_false_1 _); vm_compute; reflexivity.
Defined.

(** A token that may record decisions but not read them. *)
Definition recorder : TenantContext := {|
  ctx_organization_id := 2; ctx_user_id := 1; ctx_role := ADMIN;
  ctx_scopes := Some [RECORD_DECISIONS]; ctx_max_privacy_scope := None; ctx_agent_client_id := None |}.
Local Notation demo_stored := (store_decision recorder (rd_snapshot_id demo_decision)
  (rd_relied_on demo_decision) (Some (py "underwriter")) (py "approve") (rd_outcome demo_decision)
  None demo_context).

Lemma record_decision_stores_then_fails_witness :
  ∃ msg x d', record_decision recorder demo_decision demo_context = (Err (PermissionDeniedError msg), d')
    ∧ x ∈ tab d' Decisions.
Proof.
  destruct (ok_run_state demo_stored (λ _ _, True)) as (x & d' & E & _); [vm_compute; exact I|].
  destruct (record_decision_stores_then_fails recorder demo_decision (py "approve") None
    (Some (py "underwriter")) demo_context x d') as [[msg H] Hx];
    [vm_compute; reflexivity|vm_compute; reflexivity|reflexivity|vm_compute; reflexivity|exact E|reflexivity|].
  exists msg, x, d'. split; [exact H|exact Hx].
Defined.

(** * Revoking *)

Local Notation demo_revoked := (revoke admin 8 (py " entered in error ") (Some 17) demo_after).


Lemma demo_after_consistent : consistent demo_after.
Proof. apply consistentb_ok. vm_compute. reflexivity. Qed.

Lemma revocation_is_bitemporal_witness :
  ∃ rep d', demo_revoked = (Ok rep, d') ∧
    valid_at_condition 700 (Some 4500) d' demo_v2 = true ∧
    ∃ v, vs_id (rp_version rep) = fv_id v ∧ valid_at_condition 700 None d' v = false.
Proof.
  destruct (ok_run_state demo_revoked (λ _ _, True)) as (rep & d' & E & _); [vm_compute; exact I|].
  exists rep, d'. split; [exact E|].
  destruct (revocation_is_bitemporal admin 8 (py " entered in error ") (Some 17) demo_after rep d'
    demo_after_consistent E) as (Hpast & v & _ & Hv & Hnow & _).
  split.
  - rewrite Hpast; vm_compute; reflexivity.
  - exists v. split; [exact Hv|]. apply Hnow. intros k' H. discriminate H.
Defined.

(** * Two ways to write one receipt *)

Definition demo_content (scopes : list pystr) (outcome : json) : ReceiptContent := {|
  rcn_organization_id := 2; rcn_decision_id := 22; rcn_snapshot_id := 21; rcn_decided_at := 4000;
  rcn_decided_by_user_id := 1; rcn_agent := None; rcn_action := py "approve";
  rcn_outcome := outcome; rcn_rationale := Some (py "limit in force"); rcn_query := py "credit limit";
  rcn_valid_at := 700; rcn_known_at := 4000; rcn_embedding_model := py "demo";
  rcn_vector_search := py "used"; rcn_privacy_scopes := scopes;
  rcn_facts := [(17, (1, py "abc"))]; rcn_relied_on := [17] |}.
Definition demo_content_1 : ReceiptContent := demo_content [py "PUBLIC"; py "INTERNAL"]
  (JObj [(py "limit", JInt 5000); (py "term", JNull)]).
Definition demo_content_2 : ReceiptContent := demo_content [py "INTERNAL"; py "PUBLIC"]
  (JObj [(py "term", JNull); (py "limit", JInt 5000)]).

Lemma demo_content_ok scopes outcome :
  json_ok outcome = true → forallb (forallb valid_char) scopes = true →
  content_ok (demo_content scopes outcome).
Proof.
  intros Ho Hs. split; cbn; try done.
  - intros t [= <-]. reflexivity.
  - intros i n h [[= -> -> ->]|[]%not_elem_of_nil]%elem_of_cons. done.
Qed.

Lemma receipt_hash_binds_witness :
  same_content demo_content_1 demo_content_2 ∨ ∃ b b', b ≠ b' ∧ sha256_hex b = sha256_hex b'.
Proof.
  destruct (ok_run_state (receipt_hash demo_content_1, ())
    (λ h _, receipt_hash demo_content_2 = Ok h)) as (h & [] & H1 & H2); [vm_compute; reflexivity|].
  apply (receipt_hash_binds demo_content_1 demo_content_2 h).
  - apply demo_content_ok; vm_compute; reflexivity.
  - apply demo_content_ok; vm_compute; reflexivity.
  - apply (f_equal fst) in H1. exact H1.
  - exact H2.
Defined.

(** * Contradictions *)

(** A second source contradicts what the first observed: the rule records it. *)
Definition demo_other_source : db := (register_source admin (py "crm") HUMAN None (PyInt 40) demo_after).2.
Definition rating (source valid_from observed_at : Z) (value : string) : RecordFactVersion := {|
  rc_entity_type := py "Customer"; rc_external_id := py "customer-991";
  rc_property := py "rating"; rc_value := JStr (py value); rc_source_id := source;
  rc_valid_from := Aware valid_from; rc_valid_until := None; rc_observed_at := Some (Aware observed_at);
  rc_authority := None; rc_confidence := Some (Dec 9 (-1)); rc_privacy_scope := INTERNAL;
  rc_evidence_ids := [] |}.
Definition demo_crm : UUID := default 0 (last (map s_id (tab demo_other_source FactSources))).
Definition demo_rated : db :=
  (record_version admin (rating 4 500 900 "A") (set_clock 6000 6000 demo_other_source)).2.
Definition demo_contradicted : db :=
  (record_version admin (rating demo_crm 600 950 "C") (set_clock 7000 7000 demo_rated)).2.
Definition demo_contradiction : UUID := default 0 (head (map c_id (tab demo_contradicted Contradictions))).

Local Notation demo_resolved := (resolve_contradiction 7500 admin demo_contradiction RESOLVED
  (Some (py "asked the customer")) demo_contradicted).

Lemma resolve_closes_once_witness :
  ∃ v d', demo_resolved = (Ok v, d') ∧
    (∀ v' d'', resolve_contradiction 8000 admin demo_contradiction DISMISSED None d' ≠ (Ok v', d'')).
Proof.
  destruct (ok_run_state demo_resolved (λ _ _, True)) as (v & d' & E & _); [vm_compute; exact I|].
  exists v, d'. split; [exact E|].
  pose proof (resolve_closes_once 7500 admin demo_contradiction RESOLVED (Some (py "asked the customer"))
    demo_contradicted v d' E) as H. last_of H. intros v' d''. apply H.
Defined.

(** ** A review by a model that answers about F1, F2 and a fact it invented. *)

Definition review_reply : json := JObj [(py "findings", JList [
  JObj [(py "left", JStr (py "F1")); (py "right", JStr (py "F2")); (py "explanation", JStr (py "limit and rating"))];
  JObj [(py "left", JStr (py "F1")); (py "right", JStr (py "F9")); (py "explanation", JStr (py "invented"))]])].
Local Instance review_loads : JsonLoads :=
  {| json_loads := λ _, Err JSONDecodeError; json_loads_text := λ _, Ok review_reply |}.

Local Notation demo_review := (review_entity 7500 admin (py "customer") (py "customer-991") 500 demo_contradicted).

Lemma review_adds_only_visible_suggestions_witness :
  ∃ rv d', demo_review = (Ok rv, d') ∧ rv_rejected_findings rv = 1 ∧
    ∃ c, tab d' Contradictions = tab demo_contradicted Contradictions ++ [c] ∧
      c_kind c = SEMANTIC ∧ c_status c = OPEN.
Proof.
  destruct (ok_run_state demo_review (λ rv _, rv_rejected_findings rv = 1 ∧ length (rv_created rv) = 1%nat))
    as (rv & d' & E & Hr & Hl); [vm_compute; split; reflexivity|].
  exists rv, d'. split; [exact E|]. split; [exact Hr|].
  destruct (review_adds_only_visible_suggestions 7500 admin (py "customer") (py "customer-991") 500
    demo_contradicted rv d' E) as (role & facts & rows & _ & _ & _ & _ & _ & T & Hn & H).
  rewrite Hl in Hn. destruct rows as [|c [|]]; [discriminate Hn| |discriminate Hn].
  exists c. split; [exact T|]. destruct (H c) as (H1 & H2 & _); [left|]. split; [exact H1|exact H2].
Defined.
