(* ===== verification/ScenarioEvents.v ===== *)
(** A concrete flow of events: the outbox of the scenario's store relayed to a
    broker that is a list, delivered to the activity projector, and the theorems of
    EventRelay.v, Consumers.v and EventFlow.v applied to it. *)

From stdpp Require Import gmap.
From S2P Require Import Prelude PyStr Json Canonical Regex Validation Access Temporal History.
From S2P Require Import Database Schema EventRelay Accounts FactRepo EvidenceService FactService.
From S2P Require Import Ledger TemporalService Ranking Retrieval Store RetrievalCache Consumers.
From S2P Require Import EventFlow GraphWorker EventPayloads Calendar Scenario ScenarioStore ScenarioSearch.

(** A payload as its fields, each text after its length. *)
Definition put_text (s : pystr) : list Z := zlen s :: s.
Definition get_text (l : list Z) : option (pystr * list Z) :=
  match l with n :: r => Some (take (Z.to_nat n) r, drop (Z.to_nat n) r) | [] => None end.

Lemma get_put_text s r : get_text (put_text s ++ r) = Some (s, r).
Proof. unfold get_text, put_text, zlen. cbn. by rewrite Nat2Z.id, take_app_length, drop_app_length. Qed.

Definition put_scalar (v : json) : list Z :=
  match v with JBool b => [1; if b then 1 else 0] | JInt n => [2; n] | JStr s => 3 :: put_text s | _ => [0] end.
Definition get_scalar (l : list Z) : option (json * list Z) :=
  match l with
  | t :: r =>
    if t =? 0 then Some (JNull, r)
    else if t =? 1 then match r with b :: r => Some (JBool (b =? 1), r) | [] => None end
    else if t =? 2 then match r with n :: r => Some (JInt n, r) | [] => None end
    else option_map (λ p, (JStr p.1, p.2)) (get_text r)
  | [] => None
  end.

Lemma get_put_scalar c `{!PayloadFields} r : get_scalar (put_scalar (cell_json c) ++ r) = Some (cell_json c, r).
Proof.
  assert (Ht : ∀ s, get_scalar (put_scalar (JStr s) ++ r) = Some (JStr s, r)).
  { intros s. change (get_scalar _) with (option_map (λ p, (JStr p.1, p.2)) (get_text (put_text s ++ r))).
    by rewrite get_put_text. }
  destruct c as [u|n|t|t|[]|]; cbn [cell_json]; try done; apply Ht.
Qed.

Fixpoint put_fields (kvs : list (pystr * json)) : list Z :=
  match kvs with [] => [] | kv :: r => put_text kv.1 ++ put_scalar kv.2 ++ put_fields r end.
Fixpoint get_fields (fuel : nat) (l : list Z) : option (list (pystr * json)) :=
  match fuel, l with
  | O, _ :: _ => None
  | _, [] => Some []
  | S fuel, _ =>
    match get_text l with
    | Some (k, r) =>
      match get_scalar r with
      | Some (v, r) => option_map (cons (k, v)) (get_fields fuel r)
      | None => None
      end
    | None => None
    end
  end.

Lemma get_put_fields `{!PayloadFields} columns : ∀ fuel, (length columns ≤ fuel)%nat →
  get_fields fuel (put_fields (map (λ c, (py c.1, cell_json c.2)) columns))
  = Some (map (λ c, (py c.1, cell_json c.2)) columns).
Proof.
  induction columns as [|[k c] l IH]; intros fuel Hf; [by destruct fuel|].
  destruct fuel as [|fuel]; cbn [length] in Hf; [lia|]. cbn [map put_fields fst snd].
  set (rest := put_fields _). cbn [get_fields]. rewrite get_put_text.
  assert (E : get_fields fuel rest = Some (map (λ c, (py c.1, cell_json c.2)) l)) by (apply IH; lia).
  rewrite get_put_scalar, E. done.
Qed.

Lemma put_fields_length kvs : (length kvs ≤ length (put_fields kvs))%nat.
Proof. induction kvs as [|kv l IH]; cbn; rewrite ?length_app in *; lia. Qed.

(** Instants as the ISO text; an id has the length of one, an instant its offset. *)
#[export] Instance demo_payload_fields : PayloadFields := {|
  timestamptz_text := utc_iso;
  field_valid := λ f v,
    match f, v with
    | FUuid, JStr s | FOptUuid, JStr s => (length s =? 36)%nat
    | FInt, JInt _ | FStr, JStr _ | FOptStr, JStr _ | FBool, JBool _ => true
    | FAwareDatetime, JStr s | FOptAwareDatetime, JStr s => bool_decide (drop (length s - 6) s = py "+00:00")
    | FPrivacyScope, JStr s => bool_decide (s ∈ map scope_text [PUBLIC; INTERNAL; CONFIDENTIAL; RESTRICTED])
    | FOptUuid, JNull | FOptStr, JNull | FOptAwareDatetime, JNull => true
    | _, _ => false
    end |}.

Lemma utc_iso_offset t : drop (length (utc_iso t) - 6) (utc_iso t) = py "+00:00".
Proof.
  assert (H : ∀ s, drop (length (s ++ py "+00:00") - 6) (s ++ py "+00:00") = py "+00:00").
  { intros s. rewrite length_app. replace (length s + length (py "+00:00") - 6)%nat with (length s) by (cbn; lia).
    apply drop_app_length. }
  unfold utc_iso. destruct (ord_to_ymd _) as [[y m] d]. cbv zeta. rewrite !app_assoc. apply H.
Qed.

#[export] Instance demo_payload_fields_laws : PayloadFieldsLaws.
Proof.
  split; cbn [field_valid demo_payload_fields]; try done.
  - intros t. apply bool_decide_eq_true, utc_iso_offset.
  - intros t. apply bool_decide_eq_true, utc_iso_offset.
  - intros []; vm_compute; reflexivity.
  - intros f Hf. rewrite !elem_of_cons in Hf. by destruct Hf as [->|[->|[->|?%elem_of_nil]]].
Defined.

(** Envelopes as their numbers, their type and their payload. *)
#[export] Instance demo_codec_events : EventCodec := {|
  model_dump_json := λ e, [en_id e; en_schema_version e; en_organization_id e; en_subject e; en_time e]
    ++ put_text (en_type e) ++ match en_data e with JObj kvs => put_fields kvs | _ => [] end;
  model_validate_json := λ b,
    match b with
    | i :: v :: o :: s :: t :: rest =>
      match get_text rest with
      | Some (ty, r) =>
        option_map (λ kvs, {| en_id := i; en_type := ty; en_schema_version := v; en_organization_id := o;
          en_subject := s; en_time := t; en_data := JObj kvs |}) (get_fields (length r) r)
      | None => None
      end
    | _ => None
    end |}.

#[export] Instance demo_codec_events_laws : EventCodecLaws.
Proof.
  split. intros e. cbn [model_dump_json model_validate_json demo_codec_events app].
  rewrite get_put_text. cbn [envelope_for en_data]. unfold payload_json. rewrite get_put_fields; [done|].
  eapply Nat.le_trans; [|apply put_fields_length]. by rewrite length_map.
Defined.

#[export] Instance demo_exception_text : ExceptionText := λ e, py (exn_name e).

(** A broker that never fails. *)
#[export] Instance demo_broker : Publisher (list OutgoingMessage) := {|
  publish := λ ms b, (Ok (), b ++ ms); published := id |}.

#[export] Instance demo_broker_laws : PublisherLaws (list OutgoingMessage).
Proof. split. intros ms b r b' [= <- <-]. exists ms. split_and!; done. Defined.

(** ** The relay *)

Definition distinctb (l : list Z) : bool := bool_decide (NoDup l).
Definition known_eventb (e : outbox_event) : bool :=
  is_ok (topic_for (py (eo_event_type e))) && forallb (λ c, c <? 128) (py (eo_event_type e)).

Lemma known_eventb_ok l : forallb known_eventb l = true → ∀ e, e ∈ l → known_event e.
Proof.
  intros H e He. apply (forallb_elem _ _ _ H) in He. apply andb_true_iff in He as [Ht Ha].
  unfold known_event. destruct (topic_for _) as [topic|]; [|done]. exists topic. split; [done|].
  apply Forall_forall. intros c Hc. apply (forallb_elem _ _ _ Ha) in Hc. by apply Z.ltb_lt.
Qed.

Lemma demo_outbox_ids : NoDup (map eo_id (tab demo_run.2 EventOutbox)).
Proof. apply (bool_decide_eq_true_1 _). vm_compute. reflexivity. Qed.

Lemma demo_outbox_known : ∀ e, e ∈ tab demo_run.2 EventOutbox → known_event e.
Proof. apply known_eventb_ok. vm_compute. reflexivity. Qed.

(** The world after an iteration of the relay. *)
Definition after_run (n : Z) (env : relay_env) (w : relay_world (B := list OutgoingMessage)) :
    relay_world (B := list OutgoingMessage) :=
  {| rw_db := (run_once n None env (rw_db w, rw_broker w)).2.1;
     rw_broker := (run_once n None env (rw_db w, rw_broker w)).2.2; rw_emitted := rw_emitted w |}.

Lemma after_run_step n env w : relay_step n None w (after_run n env w).
Proof.
  apply (step_relay n None w env (run_once n None env (rw_db w, rw_broker w)).1).
  by destruct (run_once n None env (rw_db w, rw_broker w)) as [r [d b]].
Qed.

(** An iteration whose commit is lost, then one that succeeds. *)
Definition lost_commit : relay_env :=
  {| re_locked := λ _, false; re_commit := RolledBack (LibraryError "OperationalError") |}.
Definition flow_start : relay_world (B := list OutgoingMessage) :=
  {| rw_db := demo_run.2; rw_broker := []; rw_emitted := tab demo_run.2 EventOutbox |}.
Definition flow_lost : relay_world := after_run 100 lost_commit flow_start.
Definition flow_done : relay_world := after_run 100 alone flow_lost.

Lemma flow_reached : rtc (relay_step 100 None) flow_start flow_done.
Proof. eapply rtc_l; [apply after_run_step|]. apply rtc_once, after_run_step. Qed.

Lemma relay_loses_nothing_witness :
  (0 <? zlen (rw_emitted flow_done)) = true ∧
  ∀ e, e ∈ rw_emitted flow_done → e ∈ tab (rw_db flow_done) EventOutbox ∨ delivered flow_done e.
Proof.
  split; [vm_compute; reflexivity|].
  apply (relay_loses_nothing 100 None demo_run.2 (@nil OutgoingMessage) flow_done).
  - exact demo_outbox_ids.
  - reflexivity.
  - exact flow_reached.
Defined.

Lemma drain_empties_the_outbox_witness :
  ∃ s', drain 2 None 10 (λ _, alone) 0 (demo_run.2, @nil OutgoingMessage)
        = (Ok (Some (zlen (tab demo_run.2 EventOutbox))), s') ∧ tab s'.1 EventOutbox = [].
Proof.
  assert (Hall : ∀ d, my_events None d = tab d EventOutbox) by (intros d; apply where_true; done).
  assert (Hpub : ∀ ms (b : list OutgoingMessage), (publish ms b).1 = Ok ()) by done.
  destruct (drain_empties_the_outbox 2 None ltac:(lia) Hpub 10 demo_run.2 [])
    as (s' & E & He).
  - exact demo_outbox_ids.
  - exact demo_outbox_known.
  - apply Nat.ltb_lt. vm_compute. reflexivity.
  - exists s'. rewrite Hall in E. rewrite Hall in He. split; [exact E|exact He].
Defined.

(** ** The activity projector *)

Definition three_attempts : RetryPolicy := {| rp_max_attempts := 3 |}.
Definition quiet (c : commit_outcome) : Z → attempt_env := λ _, {| at_others := id; at_commit := c |}.

(** A first attempt whose commit is lost after it happened, the others normal. *)
Definition unlucky : Z → attempt_env := λ a,
  {| at_others := id;
     at_commit := if a =? 1 then CommittedUnseen (LibraryError "OperationalError") else Committed |}.

Local Notation world := (db * list OutgoingMessage)%type.

Definition deliver (env : Z → attempt_env) (m : IncomingMessage) (s : world) : result Outcome * world :=
  process ActivityProjector three_attempts env m s.

Fixpoint deliver_all (l : list (IncomingMessage * (Z → attempt_env))) (s : world) :
    list (IncomingMessage * result Outcome) * world :=
  match l with
  | [] => ([], s)
  | (m, env) :: l' =>
    let '(r, s1) := deliver env m s in
    let '(tr, s2) := deliver_all l' s1 in ((m, r) :: tr, s2)
  end.

Lemma keeps_id : keeps_projection (X := list OutgoingMessage) id.
Proof. done. Qed.

Lemma deliver_all_runs l : ∀ s,
  (∀ x, x ∈ l → ∀ a, at_others (x.2 a) = id) →
  runs three_attempts (deliver_all l s).1 s (deliver_all l s).2.
Proof.
  induction l as [|[m env] l IH]; intros s Hl; cbn [deliver_all]; [constructor|].
  destruct (deliver env m s) as [r s1] eqn:E. pose proof (IH s1 (λ x Hx, Hl x ltac:(by right))) as IH1.
  destruct (deliver_all l s1) as [tr s2]. cbn [fst snd] in *.
  apply (runs_one three_attempts m r tr env s s1 s2); [|exact E|exact IH1].
  intros a. pose proof (Hl (m, env) ltac:(by left) a) as Ha. cbn [snd] in Ha. rewrite Ha. apply keeps_id.
Qed.

(** What the broker delivers of a published message. *)
Definition incoming (m : OutgoingMessage) : IncomingMessage := {|
  im_topic := om_topic m; im_partition := 0; im_offset := 0; im_key := Some (om_key m);
  im_value := om_value m; im_headers := om_headers m |}.

(** Every message twice, the first time with a lost answer. *)
Definition twice (l : list OutgoingMessage) : list (IncomingMessage * (Z → attempt_env)) :=
  flat_map (λ m, [(incoming m, unlucky); (incoming m, quiet Committed)]) l.
Definition flow_deliveries : list (IncomingMessage * (Z → attempt_env)) := twice (rw_broker flow_done).
Definition flow_trace : list (IncomingMessage * result Outcome) * world :=
  deliver_all flow_deliveries (demo_run.2, []).

Lemma twice_quiet l : ∀ x, x ∈ twice l → ∀ a, at_others (x.2 a) = id.
Proof.
  intros x Hx a. apply list_elem_of_In, in_flat_map in Hx as (m & _ & Hx).
  by destruct Hx as [<-|[<-|[]]].
Qed.

Lemma flow_deliveries_quiet : ∀ x, x ∈ flow_deliveries → ∀ a, at_others (x.2 a) = id.
Proof. exact (twice_quiet (rw_broker flow_done)). Qed.

Lemma flow_start_projection : projection (eh_name (X := list OutgoingMessage) ActivityProjector) [] demo_run.2.
Proof.
  assert (Ep : tab demo_run.2 ProcessedEvents = []) by (vm_compute; reflexivity).
  assert (Ea : tab demo_run.2 ActivityDaily = []) by (vm_compute; reflexivity).
  split; [constructor| |].
  - unfold consumer_rows. by rewrite Ep.
  - intros org day counter _. unfold counter_of. by rewrite Ea.
Qed.

Lemma projector_refines_counting_witness :
  ∃ handled, NoDup (map en_id handled) ∧
    counter_of flow_trace.2.1 2 0 facts_recorded = count_of handled 2 0 facts_recorded ∧
    counter_of flow_trace.2.1 2 0 facts_recorded = 2.
Proof.
  destruct (projector_refines_counting three_attempts flow_trace.1 (demo_run.2, []) flow_trace.2)
    as (handled & _ & Hn & Hc).
  - exact flow_start_projection.
  - apply deliver_all_runs, flow_deliveries_quiet.
  - exists handled. split; [exact Hn|]. split; [apply Hc; left|vm_compute; reflexivity].
Defined.

(** ** End to end *)

Definition appliedb (r : result Outcome) : bool :=
  match r with Ok DEAD_LETTERED => false | Ok _ => true | Err _ => false end.

Definition carried_by (m : OutgoingMessage) (t : IncomingMessage * result Outcome) : bool :=
  bool_decide (im_value t.1 = om_value m).

Lemma all_carried tr (ms : list OutgoingMessage) :
  forallb (λ t, existsb (λ m, carried_by m t) ms) tr = true →
  ∀ t, t ∈ tr → ∃ m, m ∈ ms ∧ im_value t.1 = om_value m.
Proof.
  intros H t Ht. apply (forallb_elem _ _ _ H) in Ht. apply existsb_exists in Ht as (m & Hm & E).
  exists m. split; [by apply list_elem_of_In|by apply bool_decide_eq_true_1 in E].
Qed.

Lemma all_applied tr (ms : list OutgoingMessage) :
  forallb (λ m, existsb (λ t, carried_by m t && appliedb t.2) tr) ms = true →
  ∀ m, m ∈ ms → ∃ t, t ∈ tr ∧ im_value t.1 = om_value m ∧ applied t.
Proof.
  intros H m Hm. apply (forallb_elem _ _ _ H) in Hm. apply existsb_exists in Hm as (t & Ht & E).
  apply andb_true_iff in E as [E1 E2]. exists t. split; [by apply list_elem_of_In|].
  split; [by apply bool_decide_eq_true_1 in E1|]. unfold applied. destruct t.2 as [o|]; [|done].
  exists o. split; [done|]. by intros ->.
Qed.

Lemma flow_from : ∀ t, t ∈ flow_trace.1 →
  ∃ m, m ∈ published (rw_broker flow_done) ∧ im_value t.1 = om_value m.
Proof. refine (all_carried flow_trace.1 (rw_broker flow_done) _). vm_compute. reflexivity. Qed.

Lemma flow_all : ∀ m, m ∈ published (rw_broker flow_done) →
  ∃ t, t ∈ flow_trace.1 ∧ im_value t.1 = om_value m ∧ applied t.
Proof. refine (all_applied flow_trace.1 (rw_broker flow_done) _). vm_compute. reflexivity. Qed.

Lemma flow_drained : tab (rw_db flow_done) EventOutbox = [].
Proof. vm_compute. reflexivity. Qed.

Definition history_okb (l : list outbox_event) (next : Z) : bool :=
  forallb (λ e, is_ok (event_payload (envelope_for e)) && known_eventb e && (eo_id e <? next) && (eo_event_id e <? next)) l
  && distinctb (map eo_id l) && distinctb (map eo_event_id l).

Lemma history_okb_ok l next : history_okb l next = true → history_ok l next.
Proof.
  unfold history_okb. rewrite !andb_true_iff. intros [[Hl Hi%bool_decide_eq_true] He%bool_decide_eq_true].
  assert (Hx : ∀ e, e ∈ l → event_payload (envelope_for e) = Ok () ∧ known_eventb e = true ∧ eo_id e < next ∧ eo_event_id e < next).
  { intros e Hin. apply (forallb_elem _ _ _ Hl) in Hin. rewrite !andb_true_iff in Hin.
    destruct Hin as [[[Hp Hk] H1%Z.ltb_lt] H2%Z.ltb_lt]. destruct (event_payload _) as [[]|]; [done|done]. }
  split; [|done|done|].
  - intros e Hin. destruct (Hx e Hin) as (Hp & Hk & _). split; [done|].
    apply (known_eventb_ok [e]); [by cbn; rewrite Hk|by left].
  - intros e Hin. by destruct (Hx e Hin) as (_ & _ & ?).
Qed.

Lemma demo_history : history_ok (tab demo_run.2 EventOutbox) (db_next demo_run.2).
Proof. apply history_okb_ok. vm_compute. reflexivity. Qed.

Lemma after_run_pipe n env w : pipeline_step n None w (after_run n env w).
Proof.
  apply (pipe_relay n None w env (run_once n None env (rw_db w, rw_broker w)).1).
  by destruct (run_once n None env (rw_db w, rw_broker w)) as [r [d b]].
Qed.

Lemma flow_piped : rtc (pipeline_step 100 None) flow_start flow_done.
Proof. eapply rtc_l; [apply after_run_pipe|]. apply rtc_once, after_run_pipe. Qed.

Lemma pipeline_counts_each_change_once_witness :
  counter_of flow_trace.2.1 2 0 facts_recorded
  = zlen (where_ (λ e, counts_in 2 0 facts_recorded (envelope_for e)) (rw_emitted flow_done)).
Proof.
  apply (pipeline_counts_each_change_once (X := list OutgoingMessage) 100 None three_attempts demo_run.2 (@nil OutgoingMessage)
    flow_done flow_trace.1 (demo_run.2, []) flow_trace.2).
  - exact demo_history.
  - reflexivity.
  - exact flow_piped.
  - exact flow_drained.
  - exact flow_start_projection.
  - apply deliver_all_runs, flow_deliveries_quiet.
  - exact flow_from.
  - exact flow_all.
  - left.
Defined.

(** ** The poll loop *)

(** One partition with the published messages at offsets 0, 1, 2. *)
Fixpoint at_offsets (n : Z) (l : list OutgoingMessage) : list IncomingMessage :=
  match l with
  | [] => []
  | m :: l' => {| im_topic := FACTS_TOPIC; im_partition := 0; im_offset := n; im_key := Some (om_key m);
                  im_value := om_value m; im_headers := om_headers m |} :: at_offsets (n + 1) l'
  end.
Lemma at_offsets_sorted l : ∀ n,
  StronglySorted (λ a b, im_offset a < im_offset b) (at_offsets n l) ∧
  Forall (λ m, n ≤ im_offset m) (at_offsets n l).
Proof.
  induction l as [|m l IH]; intros n; cbn [at_offsets]; [by repeat constructor|].
  destruct (IH (n + 1)) as [Hs Hf]. split; constructor; try done; cbn; try lia;
    (eapply Forall_impl; [exact Hf|]; cbn; lia).
Qed.

Definition log_of (l : list OutgoingMessage) (k : pystr * Z) : list IncomingMessage :=
  where_ (λ m, bool_decide (partition_of m = k)) (at_offsets 0 l).

Lemma log_of_sorted l k : StronglySorted (λ a b, im_offset a < im_offset b) (log_of l k).
Proof. apply StronglySorted_where, at_offsets_sorted. Qed.

Lemma log_of_partition l k m : m ∈ log_of l k → partition_of m = k ∧ 0 ≤ im_offset m.
Proof.
  intros [H%bool_decide_eq_true Hm]%elem_of_where_. split; [done|].
  destruct (at_offsets_sorted l 0) as [_ Hf]. rewrite Forall_forall in Hf. by apply Hf.
Qed.

Lemma log_of_fetched l : fetched (log_of l) ∅ (at_offsets 0 l).
Proof.
  intros k. exists (length (log_of l k)).
  rewrite (where_true (λ m, committed ∅ k <=? im_offset m)); [by rewrite take_ge|].
  intros m [_ Hm]%log_of_partition.
  apply Z.leb_le. unfold committed. by rewrite lookup_empty.
Qed.

Definition flow_records : list IncomingMessage := at_offsets 0 (rw_broker flow_done).
Definition flow_log : pystr * Z → list IncomingMessage := log_of (rw_broker flow_done).

Lemma quiet_ok c : env_ok (X := list OutgoingMessage) ActivityProjector (quiet c).
Proof. intros a d p _ Hp. exact Hp. Qed.

(** The world after a poll of [records]. *)
Definition after_poll (records : list IncomingMessage) (w : world * gmap (pystr * Z) Z) :
    world * gmap (pystr * Z) Z :=
  (consume ActivityProjector three_attempts (λ _, quiet Committed) Committed records w).2.

Lemma after_poll_step log records w :
  fetched log w.2 records → consumer_step ActivityProjector three_attempts log w (after_poll records w).
Proof.
  intros Hf. unfold after_poll.
  destruct (consume ActivityProjector three_attempts (λ _, quiet Committed) Committed records w) as [r w'] eqn:E.
  apply (step_poll ActivityProjector three_attempts log w (λ _, quiet Committed) Committed records r);
    [intros m; apply quiet_ok|exact Hf|exact E].
Qed.

(** A poll of everything, and the commit of its offsets. *)
Definition flow_consumed : world * gmap (pystr * Z) Z := after_poll flow_records ((demo_run.2, []), ∅).

Lemma no_message_is_skipped_witness :
  committed flow_consumed.2 (FACTS_TOPIC, 0) = zlen flow_records ∧
  ∀ m, m ∈ flow_log (FACTS_TOPIC, 0) → im_offset m < committed flow_consumed.2 (FACTS_TOPIC, 0) →
    settled ActivityProjector flow_consumed.1 m.
Proof.
  split; [vm_compute; reflexivity|]. intros m. apply (no_message_is_skipped ActivityProjector three_attempts flow_log
    (log_of_sorted (rw_broker flow_done)) (log_of_partition (rw_broker flow_done)) (demo_run.2, [])).
  apply rtc_once, after_poll_step. exact (log_of_fetched (rw_broker flow_done)).
Defined.
