(* ===== verification/ScenarioQueue.v ===== *)
(** A concrete run of the embedding worker on the scenario's store, and the theorems
    of Leases.v and Drained.v applied to it. *)

From stdpp Require Import gmap.
From S2P Require Import Prelude PyStr Json Canonical Regex Validation Access Temporal History.
From S2P Require Import Database Schema EventRelay Accounts FactRepo EvidenceService FactService.
From S2P Require Import Ledger TemporalService Ranking Retrieval Store RetrievalCache Consumers.
From S2P Require Import EmbeddingQueue Leases Drained Scenario ScenarioStore ScenarioSearch ScenarioEvents.

Import EmbeddingJobStore.

Definition demo_worker : EmbeddingWorker := {|
  ew_model := py "demo-embeddings"; ew_max_batch_size := 1; ew_batch_size := 64; ew_max_attempts := 5;
  ew_lease := 300000000; ew_retry_base := 10000000; ew_retry_cap := 900000000;
  ew_organization_id := None; ew_retrieval_cache := true |}.

Definition unit_vectors (texts : list pystr) : result EmbeddingBatch :=
  Ok {| eb_vectors := map (λ _, repeat (Fin 1 0) 1536) texts; eb_total_tokens := zlen texts |}.

(** The worker alone; the provider answers, or fails. *)
Definition undisturbed (embed : list pystr → result EmbeddingBatch) : worker_env := {|
  we_others := λ _, id; we_commit := λ _, Committed; we_locked := λ _, false; we_embed := embed |}.

Lemma undisturbed_others embed p d : queue_rel d (we_others (undisturbed embed) p d).
Proof. reflexivity. Qed.

(** The state an iteration leaves. *)
Definition after_iteration (env : worker_env) (s : db * kv) : db * kv := (run_worker demo_worker env s).2.

Lemma after_iteration_eq env s :
  run_worker demo_worker env s
  = ((run_worker demo_worker env s).1, ((after_iteration env s).1, (after_iteration env s).2)).
Proof. unfold after_iteration. by destruct (run_worker demo_worker env s) as [r [d k]]. Qed.

Lemma no_jobs_ok d : consistent d → tab d EmbeddingJobs = [] → queue_ok d.
Proof. intros Hc E. split; [done|]. intros j Hj. rewrite E in Hj. by apply not_elem_of_nil in Hj. Qed.

Lemma demo_queue_ok : queue_ok demo_run.2.
Proof. apply no_jobs_ok; [exact (lo_consistent _ demo_run_ok)|]. vm_compute. reflexivity. Qed.

Definition queue_done : db * kv := after_iteration (undisturbed unit_vectors) (demo_run.2, kv_start).

Lemma worker_keeps_queue_witness :
  queue_ok queue_done.1 ∧ map ej_status (tab queue_done.1 EmbeddingJobs) = [SUCCEEDED; SUCCEEDED].
Proof.
  split; [|vm_compute; reflexivity].
  apply (worker_keeps_queue demo_worker (undisturbed unit_vectors) (undisturbed_others unit_vectors)
    demo_run.2 kv_start _ _ _ demo_queue_ok (after_iteration_eq _ _)).
Defined.

(** ** One batch, processed, and processed again after the leases were lost *)

Definition demo_claimed : result (list ClaimedJob) * db :=
  (_ ← enqueue_missing (ew_model demo_worker) 64 None;
   claim (ew_model demo_worker) 64 (ew_lease demo_worker) None (λ _, false)) demo_run.2.
Definition demo_claims : list ClaimedJob := match demo_claimed.1 with Ok l => l | Err _ => [] end.

Lemma demo_claims_distinct : NoDup (map cj_job_id demo_claims).
Proof. apply (bool_decide_eq_true_1 _). vm_compute. reflexivity. Qed.

Local Notation demo_processed :=
  (process_jobs demo_worker (undisturbed unit_vectors) demo_claims (demo_claimed.2, kv_start)).

Lemma process_outcome_witness :
  ∃ stats d' k', demo_processed = (Ok stats, (d', k')) ∧ ws_succeeded stats = 2 ∧
    let d1 := we_others (undisturbed unit_vectors) Write
                (we_others (undisturbed unit_vectors) Read demo_claimed.2) in
    succeeded_from demo_claims d1 d' stats ∨ failed_from demo_worker demo_claims d1 d' stats.
Proof.
  destruct (ok_run_state demo_processed (λ stats _, ws_succeeded stats = 2)) as (stats & [d' k'] & E & Hs);
    [vm_compute; reflexivity|].
  exists stats, d', k'. split; [exact E|]. split; [exact Hs|].
  exact (process_outcome demo_worker (undisturbed unit_vectors) demo_claims demo_claimed.2 kv_start
    stats d' k' E demo_claims_distinct).
Defined.

(** ** A drain of three batches: the second finds nothing *)

Local Notation demo_drained := (drain_jobs demo_worker (λ _, undisturbed unit_vectors) 3 no_stats (demo_run.2, kv_start)).

Lemma filed_checked d : forallb (λ j, fk_version (ej_organization_id j) (ej_fact_version_id j) d) (tab d EmbeddingJobs) = true →
  filed d.
Proof. intros H j Hj. exact (forallb_elem _ _ _ H Hj). Qed.

Lemma demo_run_filed : filed demo_run.2.
Proof. apply filed_checked. vm_compute. reflexivity. Qed.

