(* ===== verification/ScenarioGraph.v ===== *)
(** A concrete provenance graph: rows inserted one by one and projected, the
    theorems of GraphWorker.v and Impact.v applied to them, and two projectors
    that together leave the graph behind the database. *)

From stdpp Require Import gmap.
From S2P Require Import Prelude PyStr Json Canonical Regex Validation Access Temporal History.
From S2P Require Import Database Schema Accounts FactRepo EvidenceService FactService Ledger.
From S2P Require Import TemporalService Ranking Retrieval Calendar Decisions Sealing Revocations.
From S2P Require Import EventRelay ProvenanceGraph GraphWorker Provenance Impact Scenario.
From S2P Require Import Store RetrievalCache Consumers EventFlow EventPayloads ScenarioStore ScenarioEvents.

(** ** A small store *)

Definition inserted (d : db) (tx : {t : table & row t}) : db :=
  if outbox (projT1 tx) then d
  else match exec_insert (projT1 tx) (projT2 tx) d with (Ok _, d') => d' | (Err _, _) => d end.

Lemma inserted_statement d tx : rtc statement d (inserted d tx).
Proof.
  unfold inserted. destruct (outbox _) eqn:Ho; [done|].
  destruct (exec_insert _ _ d) as [[[]|e] d'] eqn:E; [|done].
  apply rtc_once. by apply (stmt_insert d d' (projT1 tx) (projT2 tx)).
Qed.

Lemma inserted_all l d : rtc statement d (fold_left inserted l d).
Proof.
  revert d. induction l as [|x l IH]; intros d; cbn; [done|].
  transitivity (inserted d x); [apply inserted_statement|apply IH].
Qed.

Lemma statements_project d d' g : rtc statement d d' → rtc projection_step (d, g) (d', g).
Proof.
  induction 1 as [d|d d1 d2 H _ IH]; [done|]. eapply rtc_l; [|exact IH]. by apply (step_statement (d, g)).
Qed.

Definition sixty_four : pystr := repeat 97 64.

(** Organization 1 with its admin 2; a fact version 8; a decision 11 resting on it and
    a decision 12 that only had it in context. *)
Definition small_rows : list {t : table & row t} := [
  existT Users {| u_id := 2; u_email := py "ada@example.com"; u_display_name := py "Ada"; u_is_active := true |};
  existT Organizations {| o_id := 1; o_slug := py "acme"; o_name := py "Acme" |};
  existT Memberships {| m_id := 3; m_organization_id := 1; m_user_id := 2; m_role := ADMIN; m_created_at := 0 |};
  existT Entities {| e_id := 4; e_organization_id := 1; e_entity_type := py "customer"; e_external_id := py "c-1" |};
  existT FactSources {| s_id := 5; s_organization_id := 1; s_name := py "billing";
    s_source_type := SYSTEM_OF_RECORD; s_uri := None; s_default_authority := 90 |};
  existT Facts {| f_id := 6; f_organization_id := 1; f_entity_id := 4; f_property := py "limit" |};
  existT FactVersions {| fv_id := 8; fv_organization_id := 1; fv_fact_id := 6; fv_version := 1;
    fv_value := JInt 3000; fv_source_id := 5; fv_valid_from := 100; fv_valid_until := None;
    fv_observed_at := 100; fv_recorded_at := 200; fv_valid_until_recorded_at := None;
    fv_supersedes_id := None; fv_authority := 90; fv_confidence := 950; fv_privacy_scope := INTERNAL |};
  existT ContextSnapshots {| cs_id := 9; cs_organization_id := 1; cs_captured_by_user_id := 2;
    cs_query := py "limit"; cs_valid_at := 300; cs_known_at := 300; cs_embedding_model := py "m";
    cs_vector_search := py "used"; cs_privacy_scopes := [PUBLIC; INTERNAL]; cs_parameters := JObj [];
    cs_created_at := 300 |};
  existT SnapshotFacts {| sf_organization_id := 1; sf_snapshot_id := 9; sf_fact_version_id := 8;
    sf_position := 1; sf_ranking := JObj [] |};
  existT Decisions {| d_id := 11; d_organization_id := 1; d_snapshot_id := 9; d_decided_by_user_id := 2;
    d_agent := None; d_action := py "approve"; d_outcome := JBool true; d_rationale := None;
    d_decided_at := 400; d_receipt_sha256 := sixty_four |};
  existT DecisionFacts {| df_organization_id := 1; df_decision_id := 11; df_snapshot_id := 9;
    df_fact_version_id := 8 |};
  existT Decisions {| d_id := 12; d_organization_id := 1; d_snapshot_id := 9; d_decided_by_user_id := 2;
    d_agent := None; d_action := py "reject"; d_outcome := JBool false; d_rationale := None;
    d_decided_at := 350; d_receipt_sha256 := sixty_four |} ].

Definition small_db : db := fold_left inserted small_rows empty_db.

Example small_db_sizes :
  map (λ t, length (tab small_db t)) [Users; FactVersions; Decisions; DecisionFacts; GraphOutbox]
  = [1; 1; 2; 1; 9]%nat.
Proof. vm_compute. reflexivity. Qed.

(** Its changes emitted four events, which can be published and read. *)
Lemma emitted_events_decode_witness :
  map eo_event_type (tab small_db EventOutbox)
  = ["fact.version_recorded"; "context.captured"; "decision.recorded"; "decision.recorded"]%string ∧
  ∀ e, e ∈ tab small_db EventOutbox → ∃ m, message_for e = Ok m ∧ decode (om_value m) = Ok (envelope_for e) ∧
    event_payload (envelope_for e) = Ok ().
Proof.
  split; [vm_compute; reflexivity|].
  apply (emitted_events_decode empty_db small_db); [|apply inserted_all].
  apply history_okb_ok. reflexivity.
Defined.

Definition alone_projecting : projector_env := {|
  ge_locked := λ _, false; ge_others := λ s, s; ge_write := Committed; ge_commit := Committed |}.

Definition small_projected : db * graph :=
  (run_projector 200 None alone_projecting (small_db, empty_graph)).2.

Lemma alone_step s : projection_step s (run_projector 200 None alone_projecting s).2.
Proof.
  destruct (run_projector 200 None alone_projecting s) as [r s'] eqn:E.
  apply (step_projector s 200 None alone_projecting r); [|exact E]. exists s.1. by destruct s.
Qed.

Lemma small_reached : rtc projection_step (empty_db, empty_graph) small_projected.
Proof.
  transitivity (small_db, empty_graph); [apply statements_project, inserted_all|].
  apply rtc_once, alone_step.
Qed.

Lemma projection_converges_witness :
  size (nodes small_projected.2) = 7%nat ∧ rebuild small_projected.1 = Ok small_projected.2.
Proof.
  split; [vm_compute; reflexivity|].
  apply (projection_converges small_projected).
  - exact small_reached.
  - vm_compute. reflexivity.
Defined.

Definition reader : TenantContext := {|
  ctx_organization_id := 1; ctx_user_id := 2; ctx_role := ADMIN; ctx_scopes := None;
  ctx_max_privacy_scope := None; ctx_agent_client_id := None |}.

Local Notation small_impact := (impact_of_fact_version (λ s, s) reader 8 small_projected).

Lemma impact_is_the_sql_witness :
  ∃ rep s', small_impact = (Ok rep, s') ∧ map ad_decision_id (im_decisions rep) = [12; 11] ∧
    im_decisions rep = map (affected_by 8) (decisions_with_rows small_projected.1 1 8).
Proof.
  destruct (ok_run_state small_impact (λ rep _, map ad_decision_id (im_decisions rep) = [12; 11]))
    as (rep & s' & E & Hr); [vm_compute; reflexivity|].
  exists rep, s'. split; [exact E|]. split; [exact Hr|].
  refine (proj2 (proj2 (impact_is_the_sql (λ s, s) reader 8 small_projected rep s' _ _ _ _))).
  - exact small_reached.
  - vm_compute. reflexivity.
  - apply Z.leb_le. vm_compute. reflexivity.
  - exact E.
Defined.

(** ** Two projectors *)

(** While the first projector holds its batch, the version is superseded and a second
    projector, skipping the locked events, projects what that changed. *)
Definition second_projector (first : list graph_item) : projector_env := {|
  ge_locked := λ i, bool_decide (i ∈ first); ge_others := λ s, s;
  ge_write := Committed; ge_commit := Committed |}.

Definition meanwhile (s : db * graph) : db * graph :=
  let d := (record_version admin (demo_command 5000 200) (set_clock 3000 3000 s.1)).2 in
  (run_projector 200 None (second_projector (tab s.1 GraphOutbox)) (d, s.2)).2.

Definition first_projector : projector_env := {|
  ge_locked := λ _, false; ge_others := meanwhile; ge_write := Committed; ge_commit := Committed |}.

Local Notation raced := ((run_projector 200 None first_projector (demo_first, empty_graph)).2).

Lemma where_first {A} (p : A → bool) l (P : A → Prop) :
  match where_ p l with v :: _ => P v | [] => False end → ∃ v, v ∈ l ∧ p v = true ∧ P v.
Proof.
  destruct (where_ p l) as [|v k] eqn:E; [done|]. intros H. exists v.
  assert (Hin : v ∈ where_ p l) by (rewrite E; left). by apply elem_of_where_ in Hin as [? ?].
Qed.

(** Two projectors do not converge: a projector that writes the rows it loaded
    before a version was superseded undoes what a second one wrote meanwhile. Both
    batches are then deleted, the outbox is empty, and the graph still shows the
    version as open although the database closed it; it is not the graph rebuilt
    from the rows. *)
Theorem two_projectors_leave_the_graph_stale :
  tab raced.1 GraphOutbox = [] ∧
  (∃ v, v ∈ tab raced.1 FactVersions ∧ fv_valid_until v = Some 200 ∧
        prop raced.2 ("FactVersion"%string, fv_id v) "version" = Some (GInt (fv_version v)) ∧
        prop raced.2 ("FactVersion"%string, fv_id v) "valid_until" = None) ∧
  rebuild raced.1 ≠ Ok raced.2.
Proof.
  split; [vm_compute; reflexivity|]. split.
  - destruct (where_first (λ v, bool_decide (fv_valid_until v = Some 200)) (tab raced.1 FactVersions)
      (λ v, prop raced.2 ("FactVersion"%string, fv_id v) "version" = Some (GInt (fv_version v)) ∧
            prop raced.2 ("FactVersion"%string, fv_id v) "valid_until" = None)) as (v & Hin & Hu & Hv);
      [vm_compute; split; reflexivity|].
    exists v. split; [exact Hin|]. split; [exact (proj1 (bool_decide_eq_true _) Hu)|exact Hv].
  - intros H. apply (f_equal (λ r, match r with Ok g => length (where_ (λ v : fact_version,
      bool_decide (is_Some (prop g ("FactVersion"%string, fv_id v) "valid_until"))) (tab raced.1 FactVersions))
      | Err _ => 0%nat end)) in H. vm_compute in H. discriminate H.
Qed.
