(* ===== verification/ScenarioAgents.v ===== *)
(** A concrete agent: instances of scrypt and PyJWT, a client registered in the demo
    organization, its token and its revocation, with the theorems of AgentAccess.v
    applied to them. *)

From stdpp Require Import gmap.
From S2P Require Import Prelude PyStr Json Canonical Regex Validation Access Temporal Database Schema.
From S2P Require Import Calendar Parsing Base64 Accounts Secrets Tokens AgentClients.
From S2P Require Import Authentication AgentAccess.
From S2P Require Import Ledger Scenario ScenarioStore.

(** * Instances *)

(** Thirty-two bytes that depend on every byte of the input. *)
Definition demo_digest (bytes : list Z) : list Z :=
  map (λ i, (fold_left (λ a c, (a * 31 + c + 1) mod 65536) bytes (Z.of_nat i)) mod 256) (seq 0 32).

#[export] Instance demo_scrypt : Scrypt := {| scrypt := λ password salt n r p, Ok (demo_digest (salt ++ password)) |}.

#[export] Instance demo_scrypt_laws : ScryptLaws.
Proof.
  split. intros password salt. eexists. split; [reflexivity|]. unfold demo_digest. split; [by rewrite length_map|].
  apply forallb_forall. intros b (i & <- & _)%in_map_iff. unfold is_byte, in_range.
  rewrite andb_true_iff, !Z.leb_le. pose proof (Z.mod_pos_bound
    (fold_left (λ a c, (a * 31 + c + 1) mod 65536) (salt ++ password) (Z.of_nat i)) 256). lia.
Qed.

#[export] Instance claim_eq_dec : EqDecision claim.
Proof. solve_decision. Defined.
#[export] Instance claim_countable : Countable claim.
Proof.
  refine (inj_countable' (λ c, match c with CText s => inl s | CTime t => inr t end)
    (λ x, match x with inl s => CText s | inr t => CTime t end) _). by intros [].
Defined.

(** A token is its content in binary: the claims, the key and the key's name. *)
Definition content : Type := list (pystr * claim) * pystr * pystr.

Fixpoint bits (p : positive) : pystr :=
  match p with xH => [49] | xO p' => 48 :: bits p' | xI p' => 49 :: bits p' end.
Fixpoint of_bits (s : pystr) : positive :=
  match s with
  | [] | [_] => xH
  | c :: s' => if c =? 48 then xO (of_bits s') else xI (of_bits s')
  end.

Lemma of_bits_bits p : of_bits (bits p) = p.
Proof. induction p as [p IH|p IH|]; cbn; [| |done]; destruct (bits p) eqn:E; try (by destruct p); by rewrite IH. Qed.

Lemma bits_text p : bits p ≠ [] ∧ forallb (λ c, negb (is_space c)) (bits p) = true.
Proof. by induction p as [p [_ IH]|p [_ IH]|]. Qed.

Definition write_token (c : content) : pystr := bits (encode c).
Definition read_token (s : pystr) : option content := decode (of_bits s).

Lemma read_write c : read_token (write_token c) = Some c.
Proof. unfold read_token, write_token. by rewrite of_bits_bits, decode_encode. Qed.

Definition is_text (c : option claim) (s : pystr) : bool := bool_decide (c = Some (CText s)).

Definition demo_decode (token key : pystr) (algorithms : list pystr) (audience issuer : pystr) (leeway : Z)
    (required : list pystr) (now : Instant) : pyjwt decoded :=
  match read_token token with
  | None => inl "DecodeError"%string
  | Some (claims, signed, _) =>
    if bool_decide (signed = key) && has_claims required claims
       && is_text (assoc (py "aud") claims) audience && is_text (assoc (py "iss") claims) issuer
       && started leeway now (assoc (py "iat") claims) && started leeway now (assoc (py "nbf") claims)
       && unexpired leeway now (assoc (py "exp") claims)
    then match assoc (py "sub") claims, assoc (py "jti") claims with
         | Some (CText sub), Some (CText jti) =>
             inr {| dc_sub := sub; dc_jti := jti; dc_claims := map (λ kc, (kc.1, claim_json kc.2)) claims |}
         | _, _ => inl "InvalidSubjectError"%string
         end
    else inl "InvalidTokenError"%string
  end.

#[export] Instance demo_jwt : Jwt := {|
  jwt_encode := λ claims key algorithm kid, Ok (write_token (claims, key, kid));
  jwt_header_kid := λ token, match read_token token with
                             | Some (_, _, kid) => inr (Some kid)
                             | None => inl "DecodeError"%string
                             end;
  jwt_decode := demo_decode; jwt_decode_without_key := λ _ _, TypeError;
  public_key_pem := λ key, key |}.

#[export] Instance demo_jwt_laws : JwtLaws.
Proof.
  split.
  - intros claims key kid token [= <-]. cbn [jwt_header_kid demo_jwt]. by rewrite read_write.
  - intros claims key algorithm kid token [= <-]. apply bits_text.
  - intros claims key kid token audience issuer leeway required now sub jti [= <-] Hr Ha Hi Hs Hj H1 H2 H3.
    cbn [jwt_decode demo_jwt public_key_pem]. unfold demo_decode. rewrite read_write.
    unfold is_text. rewrite (bool_decide_eq_true_2 (key = key)), Hr, Ha, Hi, H1, H2, H3, Hs, Hj by done.
    by rewrite !bool_decide_eq_true_2.
  - intros token key algorithms audience issuer leeway required now d exp.
    cbn [jwt_decode demo_jwt]. unfold demo_decode. destruct (read_token token) as [[[claims signed] kid]|]; [|done].
    destruct (_ && unexpired _ _ _) eqn:E; [|done]. apply andb_true_iff in E as [_ E].
    destruct (assoc (py "sub") claims) as [[sub|]|]; try done.
    destruct (assoc (py "jti") claims) as [[jti|]|]; try done. intros [= <-]. cbn [dc_claims].
    rewrite assoc_map. destruct (assoc (py "exp") claims) as [[t|t]|]; try done.
    intros [= <-]. by apply Z.ltb_lt in E.
Qed.

(** * A client *)

Definition demo_tokens : TokenService :=
  new_token_service (py "signing key") (py "k1") (py "contextledger") (py "contextledger-api")
    (900 * 10 ^ 6) ∅.

Lemma demo_trusts : trusts_own_key demo_tokens.
Proof. by apply new_service_trusts. Qed.

Lemma demo_can_sign : can_sign demo_tokens.
Proof. intros claims. by eexists. Qed.

Definition demo_drawn : drawn :=
  {| dr_id := repeat 7 12; dr_secret := repeat 200 32; dr_salt := repeat 9 16 |}.

Definition demo_now : Instant := 1700000000 * 10 ^ 6.
Definition demo_later : Instant := demo_now + 60 * 10 ^ 6.
Definition demo_settings : Settings := {| st_development_headers := false; st_requests_per_minute := 60 |}.

Local Notation client_created :=
  (create admin (py "Billing bot") ENGINEER [WRITE_FACTS; READ_FACTS] INTERNAL demo_drawn
    (set_clock demo_now demo_now demo_org)).

Definition uuid_b (u : UUID) : bool := (0 <=? u) && (u <? 2 ^ 128).
Definition client_uuids_b (c : agent_client) : bool :=
  uuid_b (ac_id c) && uuid_b (ac_service_user_id c) && uuid_b (ac_organization_id c).

Lemma client_uuids_bool c : client_uuids_b c = true → client_uuids c.
Proof.
  unfold client_uuids_b, client_uuids, uuid_b, is_uuid. rewrite !andb_true_iff, !Z.leb_le, !Z.ltb_lt. tauto.
Qed.

Lemma demo_times : expiry_ok (demo_now + ts_ttl demo_tokens) ∧ token_live demo_now (ts_ttl demo_tokens) demo_later.
Proof.
  split; [split; by vm_compute|]. split; unfold seconds, LEEWAY, demo_later, demo_now;
    [apply Z.leb_le|apply Z.ltb_lt]; by vm_compute.
Qed.

(** The client is registered, the ids are UUIDs, and the ADMIN may revoke it. *)
Definition demo_checks (c : CreatedAgentClient) (d : db) : bool :=
  client_uuids_b (cac_client c) && forallb client_uuids_b (tab d AgentClients)
  && is_ok (revoke admin (ac_id (cac_client c)) demo_later d).1.

Lemma demo_registration : ∃ created d1, client_created = (Ok created, d1) ∧ demo_checks created d1 = true.
Proof. apply (ok_run_state client_created (λ c d, demo_checks c d = true)). by vm_compute. Qed.

Lemma demo_checks_spec c d : demo_checks c d = true →
  client_uuids (cac_client c) ∧ (∀ x, x ∈ tab d AgentClients → client_uuids x) ∧
  ∃ r d2, revoke admin (ac_id (cac_client c)) demo_later d = (Ok r, d2).
Proof.
  unfold demo_checks. rewrite !andb_true_iff. intros [[Hc Hd] Hr]. split; [by apply client_uuids_bool|]. split.
  - intros x Hx. apply client_uuids_bool. by apply (forallb_elem _ _ _ Hd).
  - destruct (revoke _ _ _ d) as [[r|e] d2]; [by exists r, d2|done].
Qed.

Lemma demo_scope_absent : READ_DECISIONS ∉ [WRITE_FACTS; READ_FACTS].
Proof. set_solver. Qed.

Lemma registered_client_can_act_witness :
  ∃ created d1 issued principal ctx',
    client_created = (Ok created, d1) ∧
    exchange demo_tokens (ac_client_id (cac_client created)) (cac_client_secret created) None [] demo_now 5 d1
      = (Ok issued, d1) ∧
    authenticate demo_tokens demo_settings demo_later
      {| rq_authorization := Some (bearer (it_access_token issued)); rq_user_id := None |} = Ok principal ∧
    get_tenant id 2 principal d1 = (Ok ctx', d1) ∧ ctx_role ctx' = ENGINEER ∧
    require_permission ctx' WRITE_FACTS d1 = (Ok ENGINEER, d1) ∧
    require_permission ctx' READ_DECISIONS d1 ≠ (Ok ENGINEER, d1).
Proof.
  destruct demo_registration as (created & d1 & Hc & Hk). destruct demo_times as [Hx Hl].
  destruct (demo_checks_spec _ _ Hk) as (Hu & _ & _).
  destruct (registered_client_can_act admin (py "Billing bot") ENGINEER [WRITE_FACTS; READ_FACTS] INTERNAL
    demo_drawn (set_clock demo_now demo_now demo_org) created d1 demo_tokens demo_settings [] demo_now 5 demo_later
    Hc eq_refl eq_refl Hu demo_trusts demo_can_sign Hx Hl)
    as (issued & principal & ctx' & He & Ha & Ht & Hr & _ & _ & _ & Hp).
  exists created, d1, issued, principal, ctx'.
  exact (conj Hc (conj He (conj Ha (conj Ht (conj Hr (conj (proj2 (Hp WRITE_FACTS) ltac:(left))
    (λ H, demo_scope_absent (proj1 (Hp READ_DECISIONS) H)))))))).
Defined.

(** The exchange of the client succeeds, by the lemmas of AgentAccess. *)
Lemma demo_exchange created d1 : client_created = (Ok created, d1) → client_uuids (cac_client created) →
  expiry_ok (demo_now + ts_ttl demo_tokens) → token_live demo_now (ts_ttl demo_tokens) demo_later →
  ∃ issued principal ctx',
    exchange demo_tokens (ac_client_id (cac_client created)) (cac_client_secret created) None [] demo_now 5 d1
      = (Ok issued, d1) ∧
    authenticate demo_tokens demo_settings demo_later
      {| rq_authorization := Some (bearer (it_access_token issued)); rq_user_id := None |} = Ok principal ∧
    get_tenant id 2 principal d1 = (Ok ctx', d1).
Proof.
  intros Hc Hu Hx Hl. destruct (create_ok _ _ _ _ _ _ _ _ _ Hc) as (Hrole & clean & allowed & _ & Es & Hh & Hr).
  rewrite Es in Hh |- *. pose proof (verify_own (dr_salt demo_drawn) (dr_secret demo_drawn) _ eq_refl eq_refl Hh) as Hver.
  destruct (exchange_registered demo_tokens _ _ _ _ _ _ _ _ _ [] demo_now 5 Hr demo_can_sign Hver) as (issued & He & Hi).
  pose proof (current_role_registered _ _ _ _ _ _ _ _ Hr) as Hcur.
  pose proof (rg_organization _ _ _ _ _ _ _ _ Hr) as Ho.
  exists issued. eexists (agent_principal _ _), _. split; [exact He|]. split.
  - eapply authenticate_issued; [exact demo_trusts|exact Hu|exact Hi|exact Hx|exact Hl].
  - change 2 with (ctx_organization_id admin). rewrite <-Ho. apply get_tenant_eq; [exact Hcur|discriminate| |].
    + apply (rg_client_by_id _ _ _ _ _ _ _ _ Hr).
    + apply (rg_unrevoked _ _ _ _ _ _ _ _ Hr).
Qed.

Lemma agent_acts_within_its_client_witness :
  ∃ created d1 issued c principal ctx',
    client_created = (Ok created, d1) ∧
    exchange demo_tokens (ac_client_id (cac_client created)) (cac_client_secret created) None [] demo_now 5 d1
      = (Ok issued, d1) ∧
    c ∈ tab d1 AgentClients ∧
    get_tenant id 2 principal d1 = (Ok ctx', d1) ∧ ac_organization_id c = 2 ∧ ctx_role ctx' ≠ ADMIN ∧
    ∀ p role d4 d5, require_permission ctx' p d4 = (Ok role, d5) → permission_text p ∈ ac_allowed_scopes c.
Proof.
  destruct demo_registration as (created & d1 & Hc & Hk). destruct demo_times as [Hx Hl].
  destruct (demo_checks_spec _ _ Hk) as (Hu & Hall & _).
  destruct (demo_exchange created d1 Hc Hu Hx Hl) as (issued & pr & ctx' & He & Ha & Ht).
  destruct (agent_acts_within_its_client demo_tokens _ _ _ _ _ _ _ _ _ demo_settings demo_later None
    demo_trusts Hall He Hx Hl) as (c & pr' & Hin & _ & _ & _ & Ha' & Hin_tenant).
  assert (pr' = pr) as -> by congruence.
  destruct (Hin_tenant id 2 ctx' d1 d1 Ht) as (Ho & _ & _ & _ & _ & Hr & Hp & _).
  exists created, d1, issued, c, pr, ctx'.
  exact (conj Hc (conj He (conj Hin (conj Ht (conj (eq_sym Ho) (conj Hr
    (λ p role d4 d5 H, proj1 (Hp p role d4 d5 H)))))))).
Defined.

Lemma revocation_stops_the_agent_witness :
  ∃ created d1 c d2, client_created = (Ok created, d1) ∧
    revoke admin (ac_id (cac_client created)) demo_later d1 = (Ok c, d2) ∧
    get_tenant id 2 (agent_principal (cac_client created) [READ_FACTS]) d2 = (Err NOT_A_MEMBER, d2).
Proof.
  destruct demo_registration as (created & d1 & Hc & Hk).
  destruct (demo_checks_spec _ _ Hk) as (_ & _ & c & d2 & Hr).
  assert (Hcons : consistent d1) by
    (apply (create_consistent _ _ _ _ _ _ _ _ _ Hc); exact (lo_consistent _ (set_clock_ledger demo_now demo_now _ demo_org_ok))).
  destruct (revocation_stops_the_agent admin _ demo_later d1 c d2 Hcons Hr) as (Hrev & Ht & _).
  exists created, d1, c, d2.
  exact (conj Hc (conj Hr (Ht id 2 (agent_principal (cac_client created) [READ_FACTS]) d2 Hrev eq_refl))).
Defined.
