(* ===== verification/ScenarioRetries.v ===== *)
(** A request with an idempotency key, sent again while it runs and after it has
    finished, with the theorems of Retries.v applied to it. *)

From stdpp Require Import gmap.
From S2P Require Import Prelude PyStr Json Canonical Regex Validation Access Temporal Database Schema.
From S2P Require Import Calendar Encoding Parsing JsonParse Base64 EvidenceService Tokens Store.
From S2P Require Import Authentication Idempotency Retries Scenario ScenarioStore ScenarioAgents.

(** * Instances *)

#[export] Instance demo_sha_laws : Sha256Laws.
Proof.
  split. intros b. cbn [sha256_hex demo_sha]. unfold sha_hex_ok. apply andb_true_iff.
  assert (H : ∀ w n, length (hex_of w n) = w ∧ forallb (λ c, is_digit c || in_range 97 102 c) (hex_of w n) = true).
  { induction w as [|w IH]; intros n; [done|]. destruct (IH (n / 16)) as [Hl Hf]. cbn [hex_of]. rewrite length_app, forallb_app, Hl, Hf.
    cbn [length forallb andb]. split; [lia|]. rewrite andb_true_r. unfold hex_digit, is_digit, in_range.
    pose proof (Z.mod_pos_bound n 16 ltac:(lia)). destruct (Z.ltb_spec (n mod 16) 10);
      rewrite orb_true_iff, !andb_true_iff, !Z.leb_le; lia. }
  destruct (H 64%nat (fold_left (λ a c, (a * 31 + c + 1) mod 65536) b 7)) as [Hl Hf]. rewrite Hl, Hf. done.
Qed.

#[export] Instance demo_float_read : FloatRead := {| float_of_text := λ s, NaN |}.

(** * Requests *)

Definition demo_request (key : string) (path : string) : HttpRequest := {|
  hr_is_http := true; hr_method := py "POST"; hr_path := py path; hr_query_string := [];
  hr_idempotency_key := Some (py key); hr_content_length := []; hr_authorization := None;
  hr_user_id := Some (py "00000000-0000-0000-0000-000000000001") |}.

Definition ok_or {A} (r : result A) (d : A) : A := match r with Ok a => a | Err _ => d end.

Definition demo_caller (rq : HttpRequest) : pystr := default [] (ok_or (subject demo_tokens true demo_now rq) None).
Definition demo_key (rq : HttpRequest) : pystr :=
  ok_or (store_key_of (demo_caller rq) (default [] (hr_idempotency_key rq))) [].
Definition demo_print (rq : HttpRequest) (body : bytes) : pystr := ok_or (fingerprint_of rq body) [].

Definition keyed_b (rq : HttpRequest) (body : bytes) : bool :=
  hr_is_http rq && bool_decide (hr_method rq = py "POST")
  && negb (existsb (λ p, endswith p (hr_path rq)) EXCLUDED_PATHS)
  && match hr_idempotency_key rq, subject demo_tokens true demo_now rq with
     | Some raw, Ok (Some caller) => key_ok raw && is_ok (fingerprint_of rq body) && is_ok (store_key_of caller raw)
     | _, _ => false
     end.

Lemma keyed_bool rq body msgs : keyed_b rq body = true → read_body msgs = body →
  keyed demo_tokens true demo_now rq msgs (demo_key rq) (demo_print rq body).
Proof.
  unfold keyed_b. rewrite !andb_true_iff, bool_decide_eq_true, negb_true_iff. intros [[[H1 H2] H3] H] <-.
  destruct (hr_idempotency_key rq) as [raw|] eqn:Er; [|done].
  destruct (subject demo_tokens true demo_now rq) as [[caller|]|] eqn:Es; try done.
  rewrite !andb_true_iff in H. destruct H as [[Hk Hf] HK]. split; [done|]. split; [done|]. split; [done|].
  exists raw, caller. split; [done|]. split; [done|]. split; [done|]. unfold demo_print, demo_key, demo_caller.
  rewrite Es, Er. cbn [ok_or default]. destruct (fingerprint_of rq _); [|done].
  destruct (store_key_of caller raw) eqn:E; [|done]. split; [done|]. cbn [from_option id]. by rewrite E.
Qed.

Definition demo_post : HttpRequest := demo_request "order-1" "/facts".
Definition demo_body : bytes := py "credit=5000".
Definition demo_messages : list received := [BodyPart (py "credit=") true; BodyPart (py "5000") false].
Definition other_body : bytes := py "credit=9000".

Definition demo_headers : list (bytes * bytes) :=
  [(py "Content-Type", py "application/json"); (py "x-request-id", py "r-1"); (py "ETag", py "v1")].
Definition demo_parts : list bytes := [py "version "; py "1"].

Lemma demo_headers_ok : Forall header_ok demo_headers.
Proof. repeat constructor; try done; by eexists; vm_compute. Qed.

Local Notation admit_demo := (admission_of demo_tokens true 60 demo_now).
Local Notation finish_demo := (finish 86400).

Lemma demo_keyed : keyed demo_tokens true demo_now demo_post demo_messages (demo_key demo_post) (demo_print demo_post demo_body).
Proof. apply keyed_bool; by vm_compute. Qed.

Lemma other_keyed :
  keyed demo_tokens true demo_now demo_post [BodyPart other_body false] (demo_key demo_post) (demo_print demo_post other_body).
Proof. apply keyed_bool; by vm_compute. Qed.

(** * While it runs, and after it *)

Lemma a_running_key_is_not_executed_again_witness :
  ∃ s1, admit_demo demo_post demo_messages kv_start
        = (Ok (Reserved (demo_key demo_post) (demo_print demo_post demo_body) demo_body), s1) ∧
    let s2 := at_time 59000 s1 in
    (admit_demo demo_post demo_messages s2).1 = Ok (Refuse KEY_IN_USE) ∧
    (admit_demo demo_post [BodyPart other_body false] s2).1 = Ok (Refuse KEY_REUSED).
Proof.
  destruct (admit_free demo_tokens true 60 ltac:(lia) demo_now demo_post demo_messages _ _ kv_start demo_keyed)
    as [pb Ha]; [done..|].
  eexists. split; [exact Ha|]. intros s2.
  assert (Hs : rtc (other_step demo_tokens true 86400 60 (demo_key demo_post))
                 (admit_demo demo_post demo_messages kv_start).2 s2).
  { rewrite Ha. cbn [snd]. apply rtc_once, os_time. by vm_compute. }
  split.
  - destruct (a_running_key_is_not_executed_again demo_tokens true 86400 60 ltac:(lia) ltac:(lia) _ _ _ _ _ _ _ _ s2
      _ _ _ _ Ha ltac:(by rewrite Ha in Hs) ltac:(by vm_compute) demo_keyed) as [E|[E _]]; [|by vm_compute in E].
    rewrite E. by rewrite bool_decide_eq_true_2.
  - destruct (a_running_key_is_not_executed_again demo_tokens true 86400 60 ltac:(lia) ltac:(lia) _ _ _ _ _ _ _ _ s2
      _ _ _ _ Ha ltac:(by rewrite Ha in Hs) ltac:(by vm_compute) other_keyed) as [E|[E _]]; [|by vm_compute in E].
    rewrite E. rewrite bool_decide_eq_false_2; [done|]. by apply (bool_decide_unpack (_ ≠ _)); vm_compute.
Defined.

(** A request that has outlived its lock of a minute, and ends with an error while another
    one holds the key, releases the other's reservation: a third request is executed
    next to the second one. *)
Definition after_admission (msgs : list received) (s : kv) : kv := (admit_demo demo_post msgs s).2.
Definition second_holds : kv := after_admission demo_messages (at_time 61000 (after_admission demo_messages kv_start)).
Definition first_ends_late : kv :=
  (finish_demo (demo_key demo_post) (demo_print demo_post demo_body) (response 500 [] []) second_holds).2.

Example late_release_frees_the_key :
  match (admit_demo demo_post demo_messages (at_time 61000 (after_admission demo_messages kv_start))).1,
        (admit_demo demo_post demo_messages second_holds).1, (admit_demo demo_post demo_messages first_ends_late).1 with
  | Ok (Reserved k _ _), Ok (Refuse p), Ok (Reserved k' _ _) => k = demo_key demo_post ∧ p = KEY_IN_USE ∧ k' = k
  | _, _, _ => False
  end.
Proof. vm_compute. repeat split. Qed.

Local Notation finished :=
  (finish_demo (demo_key demo_post) (demo_print demo_post demo_body) (response 201 demo_headers demo_parts) kv_start).

Lemma a_finished_key_is_replayed_witness :
  let s4 := at_time 3600000 finished.2 in
  finished.1 = Ok () ∧
  (admit_demo demo_post demo_messages s4).1
  = Ok (Replay 201 [(py "content-type", py "application/json"); (py "etag", py "v1"); REPLAYED] (py "version 1")).
Proof.
  destruct (a_finished_key_is_replayed demo_tokens true 86400 60 ltac:(lia) ltac:(lia) demo_now demo_post
    demo_messages (demo_key demo_post) (demo_print demo_post demo_body) kv_start 201 demo_headers demo_parts (at_time 3600000 finished.2)
    demo_now demo_post demo_messages (demo_print demo_post demo_body) demo_keyed ltac:(lia) demo_headers_ok) as [Hok H].
  - by repeat constructor.
  - by vm_compute.
  - done.
  - apply rtc_once, os_time. by vm_compute.
  - by vm_compute.
  - exact demo_keyed.
  - split; [exact Hok|]. destruct H as [E|[E _]]; [|by vm_compute in E]. rewrite E. rewrite bool_decide_eq_true_2 by done.
    by vm_compute.
Defined.

(** An endpoint that reads the whole body and answers 201. *)
Definition demo_app (messages : list received) : nat * outcome :=
  (body_reads messages, response 201 demo_headers demo_parts).

Definition short_body : bytes := py "credit=".

Lemma short_keyed msgs : read_body msgs = short_body →
  keyed demo_tokens true demo_now demo_post msgs (demo_key demo_post) (demo_print demo_post short_body).
Proof. apply keyed_bool. by vm_compute. Qed.

Lemma truncated_body_is_executed_witness :
  ∃ s', body_limit 8 demo_post demo_messages (call demo_tokens true 86400 60 demo_now demo_app demo_post) kv_start
        = (Ok (Rejected 413), s') ∧
    ∃ headers, (admit_demo demo_post [BodyPart short_body false] s').1 = Ok (Replay 201 headers (py "version 1")).
Proof.
  destruct (truncated_body_is_executed demo_tokens true 86400 60 ltac:(lia) ltac:(lia) 8 demo_now demo_post
    short_body (py "5000") (demo_key demo_post) (demo_print demo_post short_body) kv_start demo_app 201 demo_headers demo_parts demo_now demo_post)
    as (s' & H1 & H2).
  - by split; vm_compute.
  - by vm_compute.
  - done.
  - by apply short_keyed.
  - done.
  - done.
  - done.
  - lia.
  - exact demo_headers_ok.
  - by repeat constructor.
  - by vm_compute.
  - by apply short_keyed.
  - exists s'. split; [exact H1|]. eexists. exact H2.
Defined.
