(* ===== verification/ScenarioInvestigations.v ===== *)
(** An investigation of the demo decision: a model that asks for the receipt, for a tool
    that does not exist, and then answers; and one that invents an id.  The theorems of
    Investigations.v applied to them. *)

From S2P Require Import Grounding.
From S2P Require Import Prelude PyStr Json Canonical Regex Validation Access Temporal History Parsing JsonParse.
From S2P Require Import Database Schema Calendar Accounts FactRepo EvidenceService FactService.
From S2P Require Import TemporalService Ranking Generation Retrieval Decisions Sealing Investigator Investigations.
From S2P Require Import Scenario ScenarioStore ScenarioSearch ScenarioDecisions ScenarioEvents ScenarioRetries.

(** * Instances *)

Local Instance agent_json : JsonLoads := python_json.

#[export] Instance demo_pydantic : Pydantic := {|
  pyd_uuid := λ j, match j with
                   | JStr s => match uuid_of_text s with Ok u => Some u | Err _ => None end
                   | _ => None
                   end;
  pyd_str := λ j, match j with JStr s => Some s | _ => None end;
  pyd_datetime := λ j, match j with JInt n => Some (Aware n) | _ => None end;
  pyd_int := λ j, match j with JInt n => Some n | _ => None end;
  datetime_str := λ t, match t with Aware n | Naive n => str_of_int n end;
  passes_defaults := false;
  json_schema := λ name, JObj [] |}.

Definition reply (text : pystr) (calls : list ToolCall) : result GenerationResult := Ok {|
  gn_text := text; gn_provider := py "demo"; gn_model := py "demo-model"; gn_finish_reason := py "stop";
  gn_usage := {| gu_input_tokens := 10; gu_output_tokens := 5 |}; gn_attempts := 1; gn_tool_calls := calls |}.

Definition final_text (cited : list pystr) : pystr :=
  ok_or (dumps default_options (JObj [(py "answer", JStr (py "It relied on the limit of 5000."));
    (py "insufficient_evidence", JBool false); (py "cited_ids", JList (map JStr cited))])) [].

Definition asked : list ToolCall := [
  {| tc_call_id := py "c1"; tc_call_name := py "get_decision_receipt";
     tc_call_arguments := [(py "decision_id", JStr (uuid_str demo_decision_id))] |};
  {| tc_call_id := py "c2"; tc_call_name := py "drop_table"; tc_call_arguments := [] |};
  {| tc_call_id := py "c3"; tc_call_name := py "search_facts"; tc_call_arguments := [(py "limit", JInt 50)] |}].

(** First the tools, then an answer that cites [cited]. *)
Definition agent_model (cited : list pystr) : GenerationProvider := {|
  model_id := py "demo:agent";
  generate := λ r, if Nat.eqb (length (gr_messages r)) 2 then reply [] asked else reply (final_text cited) [] |}.

Definition honest : GenerationProvider := agent_model [uuid_str 17; uuid_str demo_decision_id].
Definition inventive : GenerationProvider := agent_model [uuid_str 17; [0]].

Definition demo_backend : InvestigatorBackend (db * unit) := ServiceBackend None 900 id demo_index.
Definition demo_asks : pystr := py " Why was the limit approved? ".
Definition alone : Z → db * unit → db * unit := λ n s, s.

Local Notation demo_run_of model := (investigate_with (GP := model) (BE := demo_backend) INVESTIGATOR_V1 6 12 800
  alone admin demo_asks 99 (demo_after, (), empty_ledger)).

Lemma investigation_answers_from_its_tools_witness :
  ∃ e s', demo_run_of honest = (Ok e, s') ∧ iv_status (run_of_end e) = ANSWERED ∧
    verdict_ok 6 e s'.2 ∧ zlen (iv_tool_calls (run_of_end e)) ≤ 12 ∧
    map tr_tool (iv_tool_calls (run_of_end e)) = [py "get_decision_receipt"].
Proof.
  destruct (ok_run_state (demo_run_of honest) (λ e _, iv_status (run_of_end e) = ANSWERED ∧
    map tr_tool (iv_tool_calls (run_of_end e)) = [py "get_decision_receipt"])) as (e & s' & E & Hs & Ht);
    [vm_compute; by split|].
  exists e, s'. split; [exact E|]. split; [exact Hs|].
  destruct (investigation_answers_from_its_tools (GP := honest) (BE := demo_backend) INVESTIGATOR_V1 6 12 800 alone
    admin demo_asks 99 (demo_after, ()) e s' E) as (_ & _ & _ & Hn & Hv).
  split; [exact Hv|]. split; [exact Hn|exact Ht].
Defined.

Lemma investigated_consistent : consistent demo_after.
Proof. apply consistentb_ok. vm_compute. reflexivity. Qed.

Lemma equal_keeps (d d' : db) : d = d' → keeps_ids d d'.
Proof. by intros -> Hc. Qed.

(** A model that searches, twice, before it answers: the second search is answered by the
    cache. *)
Definition search_call : ToolCall := {|
  tc_call_id := py "c1"; tc_call_name := py "search_facts";
  tc_call_arguments := [(py "query", JStr (py "credit limit")); (py "valid_at", JInt 700)] |}.
Definition searching : GenerationProvider := {|
  model_id := py "demo:agent";
  generate := λ r, if Nat.eqb (length (gr_messages r)) 2 then reply [] [search_call; search_call]
                   else reply (final_text [uuid_str 17]) [] |}.

Local Notation searched_run := (investigate_with (GP := searching)
  (BE := ServiceBackend (Some list_cache) 900 id demo_index) INVESTIGATOR_V1 6 12 800
  (λ _ s, s) admin demo_asks 99 (demo_after, [], empty_ledger)).

Lemma investigation_sees_one_tenant_witness :
  ∃ e s', searched_run = (Ok e, s') ∧ iv_status (run_of_end e) = ANSWERED ∧ s'.1.1 = demo_after ∧
    length s'.1.2 = 1%nat ∧ tl_observed s'.2 = [uuid_str 17; uuid_str 17] ∧
    ∀ x, x ∈ tl_observed s'.2 → owned_id 2 demo_after x.
Proof.
  destruct (ok_run_state searched_run (λ e s', iv_status (run_of_end e) = ANSWERED ∧ length s'.1.2 = 1%nat ∧
    tl_observed s'.2 = [uuid_str 17; uuid_str 17])) as (e & s' & E & Ha & Hl & Ho); [vm_compute; by split_and!|].
  exists e, s'. split; [exact E|]. split; [exact Ha|].
  destruct (investigation_sees_one_tenant 900 id demo_index eq equal_keeps (λ _ _, eq_refl) list_cache (GP := searching)
    INVESTIGATOR_V1 6 12 800 (λ _ s, s) admin demo_asks 99 (demo_after, []) (Ok e) s' ltac:(by split)
    (λ _ _ _ Hc, conj eq_refl Hc) investigated_consistent) as (Hg & _ & Hx).
  - intros k x Hx. exfalso. exact (not_elem_of_nil _ Hx).
  - exact E.
  - split; [symmetry; exact Hg|]. split; [exact Hl|]. split; [exact Ho|]. cbn [fst] in Hg. rewrite Hg. exact Hx.
Defined.

Local Notation kept_run model := (with_ledger (investigate_with (GP := model) (BE := demo_backend) INVESTIGATOR_V1 6 12
  800 alone admin demo_asks 99) (demo_after, ())).
Local Notation served model := (investigate (GP := model) (BE := demo_backend) INVESTIGATOR_V1 6 12 800 alone admin
  demo_asks 99 (demo_after, ())).

Definition may_read (p : Permission) : Prop := ∃ role, require_permission admin p demo_after = (Ok role, demo_after).

Lemma demo_may_read : may_read READ_FACTS ∧ may_read READ_DECISIONS.
Proof.
  split.
  - destruct (ok_run_state (require_permission admin READ_FACTS demo_after) (λ _ _, True)) as (r & d & E & _);
      [vm_compute; exact I|]. exists r. pose proof E as E'. apply require_permission_ok in E' as [-> _]. exact E.
  - destruct (ok_run_state (require_permission admin READ_DECISIONS demo_after) (λ _ _, True)) as (r & d & E & _);
      [vm_compute; exact I|]. exists r. pose proof E as E'. apply require_permission_ok in E' as [-> _]. exact E.
Qed.

Lemma every_run_is_stored_or_refused_witness :
  ∃ i d, served honest = (Ok i, (d, ())) ∧ iv_status i = ANSWERED ∧ stored_for admin i d.
Proof.
  destruct demo_may_read as [[rf Hf] [rd Hd]].
  destruct (ok_run_state (kept_run honest) (λ e s1, match e with Finished i => iv_status i = ANSWERED | _ => False end
    ∧ is_ok (insert_checks AgentRuns (run_row admin (run_of_end e)) s1.1) = true)) as (e & s1 & E & Hs & Hok);
    [vm_compute; by split|].
  destruct e as [i|]; [|destruct Hs].
  destruct (every_run_is_stored_or_refused (GP := honest) (BE := demo_backend) INVESTIGATOR_V1 6 12 800 alone admin
    demo_asks 99 (demo_after, ()) rf rd (Ok (Finished i)) s1 Hf Hd E) as [(d & Hr & _ & _ & Hst)|(x & Hx & _)].
  - exists i, d. destruct s1 as [d1 []]. split; [exact Hr|]. split; [exact Hs|exact Hst].
  - cbn [run_of_end] in Hok, Hx. rewrite Hx in Hok. discriminate Hok.
Defined.

Lemma an_invented_id_may_lose_the_trace_witness :
  ∃ i s1 msg, kept_run inventive = (Ok (Finished i), s1) ∧ iv_status i = UNGROUNDED ∧
    served inventive = (Err (DataError msg), s1).
Proof.
  destruct demo_may_read as [[rf Hf] [rd Hd]].
  destruct (ok_run_state (kept_run inventive) (λ e _, match e with
    | Finished i => iv_status i = UNGROUNDED ∧ iv_rejected_ids i = [[0]] | _ => False end))
    as (e & s1 & E & Hs); [vm_compute; by split|].
  destruct e as [i|]; [|destruct Hs]. destruct Hs as [Hs Hr].
  destruct (an_invented_id_may_lose_the_trace (GP := inventive) (BE := demo_backend) INVESTIGATOR_V1 6 12 800 alone
    admin demo_asks 99 (demo_after, ()) rf rd i s1 [0] Hf Hd E) as [msg H]; [rewrite Hr; left|reflexivity|].
  exists i, s1, msg. split; [exact E|]. split; [exact Hs|exact H].
Defined.
