(* ===== verification/ScenarioMcp.v ===== *)
(** An MCP server for an agent that may see PUBLIC facts only, acting for an ADMIN: its
    session, its reads, and what two of its tools show above its ceiling. *)

From stdpp Require Import gmap.
From S2P Require Import Grounding.
From S2P Require Import Prelude PyStr Json Canonical Regex Validation Access Temporal History.
From S2P Require Import Database Schema Calendar Accounts FactRepo EvidenceService FactService JsonParse.
From S2P Require Import TemporalService Ranking Generation Retrieval ContradictionService Store McpState.
From S2P Require Import Decisions Sealing Revocations ProvenanceGraph GraphWorker Provenance World McpTools.
From S2P Require Import Scenario ScenarioStore ScenarioSearch ScenarioDecisions ScenarioEvents ScenarioGraph.
From S2P Require Import ScenarioRetries ScenarioInvestigations.

(** * The organization's facts and a decision on them *)

(** RESTRICTED evidence, a PUBLIC fact that it supports and an INTERNAL one. *)
Definition mcp_evidence : db :=
  (capture_evidence admin 4 HUMAN_STATEMENT (py "the customer is under investigation") (Aware 1000)
    (Some (py "https://files.example.com/case/77")) (JObj []) RESTRICTED (set_clock 1500 1500 demo_start)).2.
Definition mcp_evidence_id : UUID := default 0 (head (map ev_id (tab mcp_evidence Evidence))).

Definition mcp_command (property : string) (value : Z) (scope : PrivacyScope) (evidence_ids : list UUID) :
    RecordFactVersion := {|
  rc_entity_type := py "Customer"; rc_external_id := py "customer-991"; rc_property := py property;
  rc_value := JInt value; rc_source_id := 4; rc_valid_from := Aware 100; rc_valid_until := None;
  rc_observed_at := None; rc_authority := None; rc_confidence := Some (Dec 95 (-2));
  rc_privacy_scope := scope; rc_evidence_ids := evidence_ids |}.

Definition mcp_facts : db :=
  (record_version admin (mcp_command "risk_score" 77 INTERNAL [])
    (set_clock 2000 2000 (record_version admin (mcp_command "credit_limit" 3000 PUBLIC [mcp_evidence_id]) mcp_evidence).2)).2.

Definition mcp_index : search_index := {|
  si_documents := map (λ v, {| sd_organization_id := 2; sd_fact_version_id := fv_id v;
                               sd_vector := [py "credit"; py "limit"] |}) (tab mcp_facts FactVersions);
  si_embeddings := [] |}.

Example mcp_scopes : map fv_privacy_scope (tab mcp_facts FactVersions) = [PUBLIC; INTERNAL].
Proof. vm_compute. reflexivity. Qed.

(** The ADMIN captures both facts and decides on them. *)
Definition mcp_captured : result CapturedContext * db :=
  capture_context 900 id mcp_index admin ScenarioSearch.demo_request (set_clock 4000 4000 mcp_facts).

Definition mcp_decided : db :=
  match mcp_captured with
  | (Ok c, d) => (Decisions.record_decision admin {|
      rd_snapshot_id := cc_snapshot_id c; rd_action := py "approve"; rd_outcome := JBool true;
      rd_relied_on := map fv_id (tab mcp_facts FactVersions); rd_rationale := None; rd_agent := None |} d).2
  | (Err _, d) => d
  end.
Definition mcp_decision_id : UUID := default 0 (head (map d_id (tab mcp_decided Decisions))).

Example mcp_decided_relied : length (tab mcp_decided DecisionFacts) = 2%nat.
Proof. vm_compute. reflexivity. Qed.

(** * The server *)

Definition mcp_identity : McpIdentity := {|
  mi_organization_id := 2; mi_user_id := 1; mi_agent_name := py "underwriter"; mi_max_privacy_scope := PUBLIC |}.

Definition mcp_runtime : McpRuntime := {|
  mr_identity := mcp_identity; mr_graph := true; mr_cache := None; mr_session := Some (py "5e55", 3600);
  mr_generator := None; mr_answer_prompt_version := py "grounded-answer-v2"; mr_max_output_tokens := 800;
  mr_agent_max_steps := 6; mr_agent_max_tool_calls := 12 |}.

Definition mcp_world : world :=
  let s := (run_projector 200 None alone_projecting (mcp_decided, empty_graph)).2 in
  {| w_db := s.1; w_kv := kv_start; w_graph := s.2 |}.

Lemma mcp_consistent : consistent (w_db mcp_world).
Proof. apply consistentb_ok. vm_compute. reflexivity. Qed.

(** * The ceiling *)

Local Notation mcp_searched := (search_facts mcp_runtime 900 mcp_index id id (py "credit limit")
  (Some (Aware 700)) None 10 None [] [] mcp_world).
Local Notation mcp_history := (get_fact_history mcp_runtime id (py "customer") (py "customer-991") None mcp_world).

Lemma mcp_reads_within_the_ceiling_witness :
  (∃ r w', mcp_searched = (Ok r, w') ∧ map sx_value (sy_results r) = [JInt 3000] ∧
     ∀ x, x ∈ sy_results r → within id mcp_identity (w_db w') (sx_fact_version_id x) (sx_value x)) ∧
  (∃ r w', mcp_history = (Ok r, w') ∧ map hx_value r = [JInt 3000] ∧
     ∀ x, x ∈ r → within id mcp_identity (w_db w') (hx_fact_version_id x) (hx_value x)).
Proof.
  pose proof (mcp_reads_within_the_ceiling mcp_runtime 900 mcp_index id id mcp_world eq_refl mcp_consistent
    (λ w H, H) (λ d H, H)) as (Hs & _ & Hh & _).
  split.
  - destruct (ok_run_state mcp_searched (λ r _, map sx_value (sy_results r) = [JInt 3000])) as (r & w' & E & Hr);
      [vm_compute; reflexivity|].
    exists r, w'. split; [exact E|]. split; [exact Hr|]. exact (Hs _ _ _ _ _ _ _ r w' E).
  - destruct (ok_run_state mcp_history (λ r _, map hx_value r = [JInt 3000])) as (r & w' & E & Hr);
      [vm_compute; reflexivity|].
    exists r, w'. split; [exact E|]. split; [exact Hr|]. exact (Hh _ _ _ r w' E).
Defined.

(** * What is shown above the ceiling *)

Local Notation mcp_receipt := (get_decision_receipt mcp_runtime id mcp_decision_id mcp_world).
Local Notation mcp_lineage := (get_decision_lineage mcp_runtime id id mcp_decision_id mcp_world).

(** The version [i] of the store has scope [s]. *)
Definition scoped_version (d : db) (s : PrivacyScope) (i : UUID) : bool :=
  existsb (λ v, (fv_id v =? i) && bool_decide (fv_privacy_scope v = s)) (tab d FactVersions).
Definition scoped_evidence (d : db) (s : PrivacyScope) (i : UUID) : bool :=
  existsb (λ e, (ev_id e =? i) && bool_decide (ev_privacy_scope e = s)) (tab d Evidence).

Lemma existsb_elem {A} (p : A → bool) l : existsb p l = true → ∃ x, x ∈ l ∧ p x = true.
Proof. intros (x & Hin & Hp)%existsb_exists. exists x. split; [by apply list_elem_of_In|done]. Qed.

(** Two tools show an agent more than its ceiling.  The agent may see PUBLIC facts
    only.  The receipt hides the INTERNAL fact of the decision from it, but the lineage of
    the same decision names that fact, unredacted; and the receipt itself shows RESTRICTED
    evidence of the PUBLIC fact, with its address.  Both tools ask their service with the
    tenant context of the user, into which the ceiling of the agent is not folded. *)
Theorem two_tools_show_above_the_ceiling :
  ∃ receipt w1 lineage w2, mcp_receipt = (Ok receipt, w1) ∧ mcp_lineage = (Ok lineage, w2) ∧
    (∃ f, f ∈ dr_facts receipt ∧ rf_redacted f = true ∧ scoped_version mcp_decided INTERNAL (rf_fact_version_id f) = true ∧
      ∃ x, x ∈ dl_relied_on lineage ∧ ls_fact_version_id x = rf_fact_version_id f ∧ ls_redacted x = false ∧
        ls_property x = Some (GStr (py "risk_score"))) ∧
    (∃ f e, f ∈ dr_facts receipt ∧ e ∈ rf_evidence f ∧ scoped_evidence mcp_decided RESTRICTED (re_evidence_id e) = true ∧
      re_uri e = Some (py "https://files.example.com/case/77")).
Proof.
  destruct (ok_run_state mcp_lineage (λ l _, map (λ x, (ls_fact_version_id x, ls_redacted x, ls_property x)) (dl_relied_on l)
    = [(14, false, Some (GStr (py "credit_limit"))); (24, false, Some (GStr (py "risk_score")))]))
    as (lineage & w2 & El & Hl); [vm_compute; reflexivity|].
  destruct (ok_run_state mcp_receipt (λ r _, map (λ f, (rf_fact_version_id f, rf_redacted f,
    map (λ e, (re_evidence_id e, re_uri e)) (rf_evidence f))) (dr_facts r)
    = [(14, false, [(6, Some (py "https://files.example.com/case/77"))]); (24, true, [])]))
    as (rc & w1 & Er & Hr); [vm_compute; reflexivity|].
  exists rc, w1, lineage, w2. split; [exact Er|]. split; [exact El|].
  destruct (dl_relied_on lineage) as [|x1 [|x2 [|]]]; cbn [map] in Hl; try discriminate Hl.
  destruct (dr_facts rc) as [|f1 [|f2 [|]]]; cbn [map] in Hr; try discriminate Hr.
  injection Hl as _ _ _ Hx1 Hx2 Hx3. injection Hr as _ _ He Hf1 Hf2 _.
  split.
  - exists f2. split; [right; left|]. split; [exact Hf2|]. split; [rewrite Hf1; vm_compute; reflexivity|].
    exists x2. split; [right; left|]. split; [congruence|]. split; [exact Hx2|exact Hx3].
  - destruct (rf_evidence f1) as [|e [|]] eqn:Ee; cbn [map] in He; try discriminate He. injection He as Hi Hu.
    exists f1, e. split; [left|]. split; [rewrite Ee; left|]. split; [rewrite Hi; vm_compute; reflexivity|exact Hu].
Qed.

(** * A session *)

Lemma demo_org_uuid : is_uuid 2.
Proof. by split. Qed.
Lemma demo_user_uuid : is_uuid 1.
Proof. by split. Qed.

Definition asked_op : session_op := Searched (py "credit limit").
Definition captured_op : session_op := Captured 28 [14; 24].
Definition after_search : kv := (run_op 2 1 (py "underwriter") (py "5e55") 3600 1000 asked_op kv_start).2.
(** Half an hour later, after another agent's session. *)
Definition after_others : kv := (run_op 2 1 (py "reviewer") (py "5e56") 3600 1500 asked_op (at_time 1800000 after_search)).2.
Definition after_capture : kv := (run_op 2 1 (py "underwriter") (py "5e55") 3600 2000 captured_op after_others).2.

Definition mcp_ops : list (Instant * session_op) := [(1000, asked_op); (2000, captured_op)].

Lemma mcp_session : session 2 1 (py "underwriter") (py "5e55") 3600 mcp_ops after_capture.
Proof.
  apply (next_call 2 1 (py "underwriter") (py "5e55") 3600 [(1000, asked_op)] 2000 captured_op after_search after_others).
  - apply (first_call 2 1 (py "underwriter") (py "5e55") 3600 1000 asked_op kv_start); vm_compute; first [reflexivity|by split].
  - eapply rtc_l; [apply (el_time 2 1 (py "underwriter") (py "5e55") after_search 1800000)|].
    + apply Z.leb_le. vm_compute. reflexivity.
    + apply rtc_once. apply (el_session 2 1 (py "underwriter") (py "5e55") _ 2 1 (py "reviewer") (py "5e56") 3600 1500 asked_op).
      * lia.
      * exact demo_org_uuid.
      * exact demo_user_uuid.
      * reflexivity.
      * intros H. apply (f_equal (λ x, bool_decide (x.1.2 = py "reviewer"))) in H. vm_compute in H. discriminate H.
  - apply Z.ltb_lt. vm_compute. reflexivity.
  - vm_compute. reflexivity.
  - vm_compute. by split.
  - split; [by split|]. repeat (constructor; [by split|]). constructor.
Qed.

Lemma session_remembers_its_own_witness :
  ∃ s2, current 2 1 (py "underwriter") (py "5e55") (at_time 3600000 after_capture) = (Ok {|
    sc_session_id := py "5e55"; sc_last_snapshot_id := Some 28; sc_snapshot_fact_version_ids := [14; 24];
    sc_recent_queries := [JStr (py "credit limit")]; sc_updated_at := Some 2000 |}, s2).
Proof.
  apply (session_remembers_its_own 2 1 (py "underwriter") (py "5e55") 3600 ltac:(lia) demo_org_uuid demo_user_uuid
    mcp_ops after_capture (at_time 3600000 after_capture) mcp_session).
  - apply rtc_once, el_time. apply Z.leb_le. vm_compute. reflexivity.
  - apply Z.ltb_lt. vm_compute. reflexivity.
  - vm_compute. reflexivity.
Defined.

(** The decision the agent records without naming the snapshot. *)
Definition mcp_undecided : world := {| w_db := mcp_captured.2; w_kv := at_time 3600000 after_capture; w_graph := empty_graph |}.
Local Notation mcp_recorded := (McpTools.record_decision mcp_runtime id (py "approve") (JBool true) [14] None None mcp_undecided).

Lemma decisions_default_to_the_last_capture_witness :
  ∃ r w' s1, mcp_recorded = (Ok r, w') ∧ dy_integrity_verified r = true ∧
    McpTools.record_decision mcp_runtime id (py "approve") (JBool true) [14] None (Some 28) (with_kv mcp_undecided s1)
      = (Ok r, w').
Proof.
  destruct (ok_run_state mcp_recorded (λ r _, dy_integrity_verified r = true)) as (r & w' & E & Hr);
    [vm_compute; reflexivity|].
  destruct (decisions_default_to_the_last_capture mcp_runtime id (py "5e55") 3600 eq_refl ltac:(lia) demo_org_uuid
    demo_user_uuid mcp_ops after_capture mcp_undecided (py "approve") (JBool true) [14] None mcp_session) as (s1 & H).
  - apply rtc_once, el_time. apply Z.leb_le. vm_compute. reflexivity.
  - apply Z.ltb_lt. vm_compute. reflexivity.
  - vm_compute. reflexivity.
  - assert (Em : mm_snapshot (recalled mcp_ops) = Some (28, [14; 24])) by reflexivity. rewrite Em in H.
    exists r, w', s1. split; [exact E|]. split; [exact Hr|]. exact (eq_trans (eq_sym H) E).
Defined.
