(* ===== verification/ScenarioProviders.v ===== *)
(** A scripted network under the OpenAI provider: a rate limit, a timeout, and then an
    answer; the theorems of Providers.v applied to it. *)

From S2P Require Import Grounding.
From S2P Require Import Prelude PyStr Json Canonical Regex Validation Access Temporal Calendar Parsing.
From S2P Require Import EvidenceService JsonParse Ranking Generation Retrieval Investigator EmbeddingQueue Providers.
From S2P Require Import Scenario ScenarioStore ScenarioRetries.

#[export] Instance demo_float_value : FloatValue := {|
  float_of_str := λ s, match int_of_text 10 s with Ok n => Some (Fin n 0) | Err _ => None end;
  float_of_int := λ n, Some (Fin n 0) |}.

(** The outcomes in order; then the network is gone. *)
#[export] Instance scripted : HttpClient (list http_outcome) := {|
  http_post := λ _ _ x, match x with out :: x' => (Ok out, x') | [] => (Ok Disconnected, []) end;
  http_sleep := λ _ x, (Ok (), x);
  late := λ _, false |}.

Definition chat_body : list Z := ok_or (dumps default_options (JObj [
  (py "choices", JList [JObj [(py "message", JObj [(py "content", JStr (py "hello"))]);
                              (py "finish_reason", JStr (py "stop"))]]);
  (py "usage", JObj [(py "prompt_tokens", JInt 12); (py "completion_tokens", JInt 3)])])) [].

Definition chat_script : list http_outcome := [
  Responded {| hr_status := 429; hr_body := []; hr_retry_after := Some (py "60") |}; TimedOut;
  Responded {| hr_status := 200; hr_body := chat_body; hr_retry_after := None |}; Disconnected].

Definition chat_request : GenerationRequest := {|
  gr_messages := [chat_message Role_user (py "Hi")]; gr_max_output_tokens := 100; gr_temperature := None;
  gr_output_schema := None; gr_tools := [] |}.

Local Notation generated := (openai_generate (HC := recording) 2 (Fin 10 0) (λ n, Fin 1 n) (py "gpt") chat_request
  (chat_script, [])).

Definition slept (l : list http_event) : list pyfloat :=
  omap (λ ev, match ev with Slept d _ => Some d | Posted _ _ _ => None end) l.

(** The wait that the server asks for is cut to ten seconds. *)
Lemma generation_is_bounded_witness :
  ∃ g x' log, generated = (Ok g, (x', log)) ∧ gn_text g = py "hello" ∧ gn_attempts g = 3 ∧
    slept log = [Fin 10 0; Fin 1 1] ∧ zlen (where_ is_post log) ≤ 3 ∧
    ∀ pre out post, answers log = pre ++ out :: post → post ≠ [] → retried out.
Proof.
  destruct (ok_run_state generated (λ g s, gn_text g = py "hello" ∧ gn_attempts g = 3 ∧
    slept s.2 = [Fin 10 0; Fin 1 1])) as (g & [x' log] & E & Ht & Ha & Hs); [vm_compute; by split|].
  exists g, x', log. split; [exact E|]. split; [exact Ht|]. split; [exact Ha|]. split; [exact Hs|].
  destruct (generation_is_bounded 2 (Fin 10 0) (λ n, Fin 1 n) ltac:(lia) (py "gpt") chat_request chat_script
    (Ok g) x' log E) as (H1 & _ & H2 & _). split; [exact H1|exact H2].
Defined.
