(* ===== verification/ScenarioApi.v ===== *)
(** The REST application of a deployed process and of a local one, with the theorems of
    Config.v, Http.v, ApiSchemas.v, ApiReads.v and Startup.v applied to them. *)

From stdpp Require Import gmap.
From S2P Require Import Grounding.
From S2P Require Import Prelude PyStr Json Canonical Regex Validation Access Temporal History.
From S2P Require Import Database Schema Calendar Secrets Tokens Accounts AgentClients FactRepo.
From S2P Require Import EvidenceService FactService JsonParse TemporalService Ranking Generation Retrieval.
From S2P Require Import ContradictionService Store Authentication Idempotency McpState RetrievalCache.
From S2P Require Import Decisions Revocations ProvenanceGraph Provenance Investigator AgentAccess.
From S2P Require Import Providers Config Logging Http World ApiSchemas Api ApiReads Startup.
From S2P Require Import Scenario ScenarioStore ScenarioSearch ScenarioDecisions ScenarioEvents ScenarioAgents.
From S2P Require Import ScenarioRetries ScenarioInvestigations.

(** * Settings of production *)

Definition production_settings : Config.Settings := {|
  application := {| app_name := py "ContextLedger"; environment := PRODUCTION; process_role := py "api";
    log_level := py "warning"; log_json := true |};
  observability := {| metrics_enabled := true; metrics_token := py "scrape"; otel_exporter_otlp_endpoint := [];
    otel_service_name := py "contextledger-api"; otel_sample_ratio := half; docs_enabled := false;
    correlation_id_header := py "X-Correlation-ID" |};
  postgres := {| db_host := py "db"; db_port := 5432; db_user := py "app"; db_password := py "secret";
    db_name := py "ledger"; db_application_name := py "api"; db_pool_size := 5; db_max_overflow := 10;
    db_pool_timeout_seconds := Fin 10 0; db_pool_recycle_seconds := 1800; db_connect_timeout_seconds := Fin 5 0;
    db_statement_timeout_ms := 30000; db_ssl_mode := py "verify-full"; db_ssl_root_cert := Some (py "/rds.pem");
    db_echo := false |};
  embeddings := {| embedding_provider := py "openai"; embedding_model := py "text-embedding-3-small";
    embedding_batch_size := 64; embedding_max_attempts := 5; embedding_retry_base_seconds := Fin 10 0;
    embedding_retry_cap_seconds := Fin 900 0; embedding_lease_seconds := 300;
    embedding_poll_interval_seconds := Fin 5 0; openai_api_key := py "sk-1";
    openai_base_url := py "https://api.openai.com/v1"; openai_timeout_seconds := Fin 30 0; openai_max_retries := 3 |};
  generation := generation defaults;
  neo4j := {| neo4j_uri := py "neo4j+s://graph:7687"; neo4j_user := py "neo4j"; neo4j_password := py "graph";
    neo4j_database := py "neo4j"; graph_batch_size := 200; graph_poll_interval_seconds := Fin 2 0 |};
  redis := {| redis_url := py "rediss://cache:6379/0"; redis_timeout_seconds := half; retrieval_cache_ttl_seconds := 60;
    rate_limit_requests_per_minute := 600; max_request_body_bytes := 1048576;
    rate_limit_token_requests_per_minute := 30; idempotency_ttl_seconds := 86400; idempotency_lock_seconds := 60;
    oauth_state_ttl_seconds := 600; mcp_session_ttl_seconds := 3600 |};
  kafka := kafka defaults;
  authentication := {| auth_mode := py "jwt"; jwt_signing_key := py "PEM"; jwt_key_id := py "k1";
    jwt_previous_public_keys := py "{}"; jwt_issuer := py "contextledger"; jwt_audience := py "contextledger-api";
    jwt_access_token_ttl_seconds := 900 |};
  mcp := mcp defaults |}.

(** What loads: the settings with the level in upper case. *)
Definition loaded : Config.Settings := _normalise_log_level production_settings.

Lemma production_loads : load false production_settings = inl loaded.
Proof. vm_compute. reflexivity. Qed.

(** What is refused: a production process without a token on its metrics. *)
Example unprotected_metrics_refused :
  load false {| application := application production_settings;
    observability := {| metrics_enabled := true; metrics_token := []; otel_exporter_otlp_endpoint := [];
      otel_service_name := py "api"; otel_sample_ratio := half; docs_enabled := false;
      correlation_id_header := py "X-Correlation-ID" |};
    postgres := postgres production_settings; embeddings := embeddings production_settings;
    generation := generation production_settings; neo4j := neo4j production_settings;
    redis := redis production_settings; kafka := kafka production_settings;
    authentication := authentication production_settings; mcp := mcp production_settings |}
  = inr ["set CONTEXTLEDGER_METRICS_TOKEN (or disable metrics) in staging and production"%string].
Proof. vm_compute. reflexivity. Qed.

(** Nothing refuses the interactive documentation in production. *)
Example docs_may_be_served :
  match load false {| application := application production_settings;
    observability := {| metrics_enabled := false; metrics_token := []; otel_exporter_otlp_endpoint := [];
      otel_service_name := py "api"; otel_sample_ratio := half; docs_enabled := true;
      correlation_id_header := py "X-Correlation-ID" |};
    postgres := postgres production_settings; embeddings := embeddings production_settings;
    generation := generation production_settings; neo4j := neo4j production_settings;
    redis := redis production_settings; kafka := kafka production_settings;
    authentication := authentication production_settings; mcp := mcp production_settings |} with
  | inl s => deployed s && docs_enabled (observability s) = true
  | inr _ => False
  end.
Proof. vm_compute. reflexivity. Qed.

Example defaults_load : is_ok (match load false defaults with inl s => Ok s | inr _ => Err ValueError end) = true.
Proof. vm_compute. reflexivity. Qed.

Lemma loaded_settings_are_well_formed_witness :
  load false production_settings = inl loaded ∧ deployed loaded = true ∧ well_formed loaded ∧ fit_to_deploy loaded.
Proof.
  split; [exact production_loads|]. split; [vm_compute; reflexivity|].
  destruct (loaded_settings_are_well_formed false production_settings loaded production_loads) as (Hw & Hd & _).
  split; [exact Hw|]. apply Hd. vm_compute. reflexivity.
Defined.

(** * The deployed application *)

Local Instance api_json : JsonLoads := python_json.

Definition deployed_app : result App := create_app (λ _, false) (py "ephemeral") loaded.
Definition no_model (c : OpenAIChat) : GenerationProvider := demo_provider.

Definition anonymous : Request := {| rq_authorization := None; rq_user_id := Some (uuid_str 1) |}.
(** Basic credentials next to the user header. *)
Definition basic : Request := {| rq_authorization := Some (py "Basic YTpi"); rq_user_id := Some (uuid_str 1) |}.
Definition api_world : world := {| w_db := demo_run.2; w_kv := kv_start; w_graph := empty_graph |}.

Lemma a_deployed_process_is_closed_witness :
  ∃ a, deployed_app = Ok a ∧ ap_docs a = false ∧
    let KS := ap_store a in
    (∃ e, for_principal (api_state no_model a) 900 basic get_me api_world = (Err e, api_world) ∧ error_status e = 401) ∧
    ts_private_key (ap_tokens a) = py "PEM".
Proof.
  destruct (ok_run_state (deployed_app, ()) (λ a _, ap_docs a = false)) as (a & u & E%(f_equal fst) & Ha);
    [vm_compute; reflexivity|].
  cbn [fst] in E. exists a. split; [exact E|]. split; [exact Ha|].
  destruct (a_deployed_process_is_closed (λ _, false) false production_settings loaded (py "ephemeral") a no_model
    production_loads E ltac:(vm_compute; reflexivity)) as (_ & _ & _ & Hp & _ & _ & Hs).
  split.
  { destruct (Hp (rq_authorization basic) ltac:(reflexivity)) as (e & He & Hall).
    exists e. split; [exact (Hall 900 basic api_world _ get_me eq_refl)|exact He]. }
  destruct (Hs ltac:(vm_compute; reflexivity)) as (Hk & _). exact Hk.
Defined.

(** * The layers *)

#[export] Instance demo_mutable_headers : MutableHeaders := {|
  set_header := λ hs name value, where_ (λ h, negb (bool_decide (h.1 = name))) hs ++ [(name, value)];
  setdefault := λ hs name value, match values_of name hs with [] => hs ++ [(name, value)] | _ => hs end |}.

Lemma values_of_app name (hs ks : list (bytes * bytes)) : values_of name (hs ++ ks) = values_of name hs ++ values_of name ks.
Proof. unfold values_of. by rewrite where_app, map_app. Qed.

Lemma values_of_one name value other :
  values_of other [(name, value)] = if bool_decide (other = name) then [value] else [].
Proof.
  unfold values_of, where_. cbn [List.filter fst]. destruct (decide (other = name)) as [->|Hn].
  - by rewrite !bool_decide_eq_true_2.
  - rewrite !bool_decide_eq_false_2; [done|done|congruence].
Qed.

#[export] Instance demo_mutable_headers_laws : MutableHeadersLaws.
Proof.
  split; intros hs name value other; cbn [set_header setdefault demo_mutable_headers].
  - rewrite values_of_app, values_of_one. unfold values_of. rewrite where_where.
    destruct (decide (other = name)) as [->|Hn].
    + rewrite !bool_decide_eq_true_2 by done. rewrite (proj2 (where_nil_iff _ _)); [done|].
      intros x _. by destruct (bool_decide (x.1 = name)).
    + rewrite !bool_decide_eq_false_2 by done. rewrite app_nil_r. f_equal. apply where_ext. intros x _.
      destruct (bool_decide (x.1 = name)) eqn:E1; cbn [negb andb]; [|done]. apply bool_decide_eq_true in E1.
      symmetry. apply bool_decide_eq_false. congruence.
  - destruct (values_of name hs) as [|v vs] eqn:E.
    + rewrite values_of_app, values_of_one. case_bool_decide; [subst; by rewrite E|by rewrite app_nil_r].
    + case_bool_decide; [by subst|done].
Qed.

Definition api_stack : Stack := {|
  sk_tokens := demo_tokens; sk_allow_header_auth := true; sk_idempotency_ttl := 86400; sk_idempotency_lock := 60;
  sk_max_body := 1024; sk_correlation_header := py "X-Correlation-ID"; sk_hsts := true; sk_metrics := true |}.

(** An endpoint that fails with an exception no handler knows, and a client that sends a
    line break in its correlation id. *)
Definition failing_app (messages : list received) : nat * outcome :=
  (0%nat, {| oc_messages := []; oc_raised := Some KeyError |}).
Definition plain_post : HttpRequest := {|
  hr_is_http := true; hr_method := py "POST"; hr_path := py "/api/v1/users"; hr_query_string := [];
  hr_idempotency_key := None; hr_content_length := []; hr_authorization := None; hr_user_id := None |}.
Definition split_id : option pystr := Some (py "abc" ++ [10] ++ py "ERROR forged").

(** What the logging of a request takes from outside: the text of a traceback, and the
    time it took, with no span. *)
Definition demo_traceback (e : exn) : pystr := py "Traceback: " ++ py (exn_name e).
Definition demo_observed : observed := {| ob_duration_ms := Fin 3 (-1); ob_trace := (None, None) |}.

Local Notation served := (serve demo_traceback (λ _, []) api_stack 900 5 None split_id demo_observed failing_app plain_post
  [BodyPart [] false] kv_start).

Lemma every_response_is_marked_witness :
  ∃ o log s', served = (Ok (o, log), s') ∧ status_of 0 (oc_messages o) = 500 ∧
    (∀ status hs, ResponseStart status hs ∈ oc_messages o → values_of (py "x-correlation-id") hs = [uuid_str 5]) ∧
    ∃ l, log = Some l ∧ ∀ timestamp, assoc (py "correlation_id") (payload_of timestamp l) = Some (JStr (uuid_str 5)).
Proof.
  destruct (ok_run_state served (λ x _, status_of 0 (oc_messages x.1) = 500)) as ([o log] & s' & E & Ho);
    [vm_compute; reflexivity|].
  exists o, log, s'. split; [exact E|]. split; [exact Ho|].
  destruct (every_response_is_marked demo_traceback (λ _, []) api_stack 900 5 None split_id demo_observed failing_app
    plain_post [BodyPart [] false] kv_start o log s' E eq_refl) as (_ & Hm & _ & l & Hl & Hc).
  - apply (bool_decide_unpack (_ ∉ _)). vm_compute. exact I.
  - split; [intros status hs Hin; exact (proj1 (Hm status hs Hin))|]. exists l. split; [exact Hl|].
    intros timestamp. exact (proj1 (Hc timestamp)).
Defined.

(** The exception was handled by the time the record is made, so its line has no
    traceback. *)
Example answered_exception_loses_its_traceback :
  match served.1 with
  | Ok (_, Some l) => bool_decide (assoc (py "exception") (payload_of [] l) = Some (JStr (py "NoneType: None")))
  | _ => false
  end = true.
Proof. vm_compute. reflexivity. Qed.

(** * A request's rights, and the cache *)

Definition local_state : ApiState := {|
  as_settings := defaults; as_tokens := demo_tokens; as_cache := RetrievalCache 60;
  as_graph_reader := false; as_generator := None |}.

Local Notation listed := (for_tenant local_state 900 id id 2 anonymous
  (Api.entity_timeline (py "customer") (py "customer-991") None) api_world).

Lemma rest_reads_within_the_ceiling_witness :
  ∃ r w', listed = (Ok r, w') ∧ map (λ e, vs_version (te_version e)) (et_entries (rp_body r)) = [1; 2] ∧
    ∀ e, e ∈ et_entries (rp_body r) → entitled local_state 900 2 anonymous (id (w_db api_world)) (w_db w') (te_version e).
Proof.
  destruct (ok_run_state listed (λ r _, map (λ e, vs_version (te_version e)) (et_entries (rp_body r)) = [1; 2]))
    as (r & w' & E & Hr); [vm_compute; reflexivity|].
  exists r, w'. split; [exact E|]. split; [exact Hr|].
  exact (proj1 (proj2 (rest_reads_within_the_ceiling local_state 900 id id 2 anonymous api_world w')) _ _ _ r E).
Defined.

(** After an agent is revoked its token opens no organization, but it still reads
    [/users/me], which asks for a principal only. *)
Definition revoked_agent_reads_me : bool :=
  match create admin (py "Billing bot") ENGINEER [WRITE_FACTS; READ_FACTS] INTERNAL demo_drawn
          (set_clock demo_now demo_now demo_org) with
  | (Ok created, d1) =>
    match AgentClients.revoke admin (ac_id (cac_client created)) demo_later d1 with
    | (Ok _, d2) =>
      let principal := agent_principal (cac_client created) [READ_FACTS] in
      negb (is_ok (get_tenant id 2 principal d2).1)
      && is_ok (get_me principal {| w_db := d2; w_kv := kv_start; w_graph := empty_graph |}).1
    | _ => false
    end
  | _ => false
  end.

Example get_me_ignores_the_client : revoked_agent_reads_me = true.
Proof. vm_compute. reflexivity. Qed.

Definition posted : FactVersionCreate := {|
  fvc_entity_type := py "customer"; fvc_external_id := py "customer-991"; fvc_property := py "credit_limit";
  fvc_value := JInt 7000; fvc_source_id := 4; fvc_valid_from := 800; fvc_valid_until := None;
  fvc_observed_at := None; fvc_authority := None; fvc_confidence := Dec 1000 (-3);
  fvc_privacy_scope := INTERNAL; fvc_evidence_ids := [] |}.
Definition asked_search : SearchRequest := {|
  sq_query := py "credit limit"; sq_limit := 5; sq_valid_at := Some 700; sq_known_at := None;
  sq_entity_type := None; sq_external_ids := []; sq_properties := []; sq_source_ids := [];
  sq_min_authority := Some 10; sq_min_confidence := Some (Dec 5 (-1)); sq_max_privacy_scope := None;
  sq_trust_weight := 300000000 |}.

Local Notation wrote := (record_fact_version posted admin
  {| w_db := set_clock 5000 5000 demo_run.2; w_kv := kv_start; w_graph := empty_graph |}).

Lemma writes_are_searched_afresh_witness :
  ∃ r w1, wrote = (Ok r, w1) ∧ rp_status r = 201 ∧
    ∃ r' w3, Api.search local_state 900 demo_index id asked_search admin
      {| w_db := w_db w1; w_kv := w_kv w1; w_graph := w_graph w1 |} = (Ok r', w3) ∧ rr_cache (rp_body r') ≠ CS_hit.
Proof.
  destruct (ok_run_state wrote (λ r w1, rp_status r = 201 ∧
    is_ok (Api.search local_state 900 demo_index id asked_search admin
      {| w_db := w_db w1; w_kv := w_kv w1; w_graph := w_graph w1 |}).1 = true))
    as (r & w1 & E & Hr & Hs); [vm_compute; by split|].
  exists r, w1. split; [exact E|]. split; [exact Hr|]. apply ok_run in Hs as [r' Hs].
  exists r'. eexists. split; [exact Hs|].
  destruct (writes_are_searched_afresh 60 local_state 900 demo_index id eq_refl 2 admin
    {| w_db := set_clock 5000 5000 demo_run.2; w_kv := kv_start; w_graph := empty_graph |} w1 0) as (_ & _ & H).
  - reflexivity.
  - split; [apply empty_counter_ok|reflexivity].
  - intros g digest v e Hl. vm_compute in Hl. discriminate Hl.
  - reflexivity.
  - left. exists posted, r. exact E.
  - exact (proj1 (H admin asked_search (w_db w1) r' _ eq_refl Hs)).
Defined.

(** * The bounds of the schemas *)

Lemma accepted_numbers_are_valid_witness :
  search_request_ok asked_search = true ∧ validate_limit 5 = Ok 5 ∧
  fact_version_create_ok posted = true ∧ ∃ n, normalize_confidence (rc_confidence (to_command posted)) = Ok n ∧ 0 ≤ n ≤ 1000.
Proof.
  destruct accepted_numbers_are_valid as (Hs & Hf & _).
  split; [vm_compute; reflexivity|]. split; [exact (proj1 (Hs asked_search ltac:(vm_compute; reflexivity)))|].
  split; [vm_compute; reflexivity|]. exact (proj2 (Hf posted ltac:(vm_compute; reflexivity))).
Defined.
